(* ===== verification/_CoqProject ===== *)
-Q . S2P
Prelude.v
Pipe.v
Bytes.v
Codec.v
AsduHeader.v
InfoElements.v
IoList.v
Asdu.v
AsduTypes.v
AsduFile.v
Frame104.v
Conn104.v
Net104.v
Live104.v
Drain104.v
Frame101.v
Link101.v
Abp101.v
Once101.v
FileSession.v
FileTransfer.v
Float64.v
Deadband.v
Policy.v
Driver104.v
Driver101.v
Redundancy.v
FtService.v
Calendar.v
Crc16.v
FsProvider.v
Float32.v
Points.v
Simulator.v
TestServer.v
TestClient.v
TestRig.v
RigView.v
Channels.v
Handles.v
Connect.v
Stack104.v
FtMicro.v
FtReceive.v
FtEndToEnd.v
FtStation.v
Tls.v
Control.v
Cli.v
ToolLoops.v
SerialLoop.v
