(* ===== verification/Prelude.v ===== *)
(** * A verification library for the iec60870 telecontrol stack

    The repository implements IEC 60870-5-101 and 60870-5-104 in Rust. Its
    protocol crate (crates/iec60870-proto) is sans-I/O: codecs are functions on
    octet buffers, and each state machine is a value that is fed one input with
    the current time and returns a list of actions. The tokio crate
    (crates/iec60870) moves octets and timers in and out of these machines, and
    crates/iec60870-test-tools holds a test client and server. This library
    models the protocol crate completely and, of the tokio crate, the parts
    that hold logic of their own, and states what makes them correct, for each
    part alone and for two stations talking to each other.

    ** Parts and files

    - Prelude.v: machine integers as [Z] with their wrap-around, time,
      [error.rs], the outcomes of a Rust call ([Ok], [Err], [Panic]) and the
      decoder monad over an octet cursor, shared tactics and list lemmas.
    - Pipe.v: the abstract specification of one direction of a connection, a
      reliable first-in first-out pipe with credit for what may be under way.
    - Bytes.v: the bytes crate ([Buf], [BufMut]) is not part of the repository;
      it is the class [BytesCrate] of the operations and the documented laws
      the code relies on, with the instance of a slice cursor. Codec.v: the
      contract [FixedCodec] of a fixed-width codec and its combinators.
    - AsduHeader.v ([asdu/header.rs], [asdu/cot.rs]), InfoElements.v
      ([asdu/ie.rs]), IoList.v ([asdu/io_list.rs]), Asdu.v
      ([asdu/envelope.rs], [asdu/payload.rs]), AsduTypes.v
      ([asdu/types/monitor.rs], [command.rs], [system.rs]), AsduFile.v
      ([asdu/types/file.rs]): the application layer. The class [InfoElement]
      is what the object lists ask of an element type, the class
      [AsduPayload] is the trait of that name with the laws its
      implementations keep; the envelope theorems are proved against the
      class and every payload type of the source is an instance. The macros
      [io_payload!] and [cmd_payload!] are the parametric [IoPayload].
    - Frame104.v ([frame104/seq.rs], [apdu.rs], [codec.rs]): the 104 framing.
      Conn104.v ([frame104/state.rs]): the connection state machine. Net104.v:
      two connections over reliable channels. Live104.v: their handshakes and
      the acknowledgements they owe. Drain104.v: they deliver everything.
    - Frame101.v ([frame101/frame.rs], [control.rs], [codec.rs]): FT 1.2
      framing. Link101.v ([frame101/link.rs]): the unbalanced link layer,
      master and outstation. Abp101.v: both over a lossy line, and what holds
      while the exchange is calm; Once101.v: what holds in every run.
    - FileSession.v ([file_transfer/session.rs]): the file-transfer session.
      FileTransfer.v: a sender, a receiver and a provider over reliable
      channels.
    - Driver104.v ([driver.rs]) and Driver101.v ([driver101.rs]): the tasks
      that feed the state machines from sockets and commands, as turns of
      their select loops: receive buffer, decoding, resynchronisation,
      dispatch policy, actions.
    - Float64.v: the binary64 arithmetic of IEEE 754 as far as it is used.
      Deadband.v ([deadband.rs]): the deadband filter. Policy.v ([policy.rs],
      [security/ip_filter.rs]): the dispatch policy and the address filter.
      Redundancy.v ([redundancy.rs]): the redundancy group.
    - FtService.v ([file_transfer/service.rs], [provider.rs], [events.rs]):
      the file-transfer service, over the class [Provider] of the operations
      of a storage. FsProvider.v ([file_transfer/fs.rs]): the storage that
      keeps the files of a directory, an instance of that class, with Crc16.v
      (the hash of file names) and Calendar.v (time tags). FtMicro.v: the
      service as a step relation, and that its runs are runs of the relation.
      FtReceive.v: what one service hands to its storage, and FtEndToEnd.v:
      what another has sent, and both ends together.
    - The test tools of crates/iec60870-test-tools. Float32.v: binary32 and the
      normalized values of [asdu/ie.rs]. Points.v ([wire.rs], [points.rs]): the
      process image and how a point is encoded. Simulator.v ([sim.rs]): how
      values evolve. TestServer.v ([bin/server.rs]): the control requests, the
      ticks of the simulator, the answers to interrogations and commands, as
      locked sections: [server_run] makes the broadcast of a section right
      after it, [async_run] in any order.
      TestClient.v ([cache.rs], [bin/client.rs]): the cache, the pending
      interrogations and commands and their channels. TestRig.v: the client
      and the server talking to each other. RigView.v: the client's cache
      against the server's deadband filter.
    - Channels.v: tokio's bounded channels as the class [Mpsc] with its laws
      and the instance of a queue. Handles.v ([client104.rs], [server104.rs],
      [master101.rs], [outstation101.rs], [transport.rs], [error.rs]): the
      handles of the stations over their channels. Connect.v: the functions
      that connect, bind, open and accept, and the manager of [redundancy.rs]
      whose accept loop uses them. Stack104.v: a client and
      a server from handle to handle, through both tasks, both channels of
      each and the transport. FtStation.v ([file_transfer/service.rs],
      [client104.rs]): a station with a file provider, the service beside the
      driver, and the handle of file transfer. Tls.v ([tls.rs], [security/tls_config.rs],
      [security/verifier.rs]): whom a TLS server admits, over the class
      [Rustls].
    - Control.v ([control.rs]): the control socket of the test tools, over
      the class [Json]. Cli.v ([transport.rs], the arguments and [main] of
      [bin/server.rs] and [bin/client.rs]): the command lines. ToolLoops.v:
      the loops of both tools between the handles and their states, the file
      commands, and the tools over the stack. SerialLoop.v: the loop of the
      serial outstation step by step, with the lock of the state, the tasks
      that use it and the channel the loop both fills and empties.

    ** How the model reads

    A struct is a [Record], an enum an [Inductive] with the constructors of
    the source, a method that takes [&mut self] a function from state to
    state; the [actions] queue of a machine is part of its state and is
    drained by the entry point ([handle], [lk_handle], [step]), as in the
    code. A Rust name that is used by several modules carries a prefix
    ([Lk...], [Ft...]); [Type_method] models [Type::method]. Above a
    definition stand the file and lines it models. Loops over a queue or a
    count are structural fixpoints, with two exceptions: the drain loops of the
    drivers have fuel one above the length of the buffer, which theorems show
    to be enough, and the work queue of the file-transfer service has fuel of
    which [service_turns_end] shows that there is enough. An async task is a
    function from one input of its select loop to the next state; between two
    awaits that others can interleave with, the steps are separate. What the
    environment decides (clocks, whether a channel still has a receiver, which
    system calls fail, the order of a hash map, the random bit and the sine of
    the simulator) is a parameter. Out-of-range indices, reads past the end
    and checked arithmetic that overflows are [Panic]; casts ([as u8]) wrap.
    Instants and durations are integers in one unit. The increment of the
    retry counter of the 101 link wraps at 256, as a release build does; a
    theorem shows that it does not reach that far.

    ** What is shown

    - Codecs: every header field, information element, object list, ASDU type
      and frame round-trips, with the exact condition under which nothing is
      lost; the envelope and the FT 1.2 decoder are inverse to their encoders
      on arbitrary octets; decoders never panic and need exactly the octets
      they announce; decoding does not depend on how the octets arrive; one
      damaged octet of an FT 1.2 frame is detected.
    - 104 connection: in every session the window holds at most [k] frames
      with consecutive numbers, submission order is transmission order,
      reception is in order, an N(R) acknowledges exactly what it covers, and
      after each call every timer is within its limit or the connection is
      closed. For two connected stations: delivery is a prefix of submission
      in both directions, the sequence check never fires, and a frame leaves
      the window only when the peer has delivered it. The pair refines two
      pipes with a credit of [k], and while no [t1] runs out two active stations with [w] at most
      the other's [k] deliver all that is submitted.
    - 101 link: the frame count bit gives exactly-once delivery over a line
      that loses nothing, whatever the master is asked to do; over a line that
      loses frames and acknowledgements delivery is a prefix of submission and
      complete whenever the master is idle, as long as no frame is given up,
      reset over or late; in every run, delivery is a subsequence of
      submission in both directions; polled data is never duplicated; a frame
      is repeated [max_retries] times and then given up.
    - File transfer: a session ends once; a receiver completes only on a
      matching checksum of all it stored; a sender ships its chunks in order
      and closes with their checksum; end to end the stored octets are a
      prefix of the file, all of it on completion, and an undisturbed transfer
      terminates with the file delivered. [pull] runs with fuel above the
      number of octets, which bounds the number of segments.
    - Drivers: the frames a stream carries reach the state machine, in order
      and once, however the stream is cut into reads, and the 101 driver finds
      its way back to a frame boundary behind junk; the receive buffer is
      bounded; a driver's run is a session of the verified machine; a policy
      that allows everything changes nothing.
    - Deadband, policies, redundancy: what the filter withholds is within the
      deadband of what the peer has, and its state is the peer's view; the
      policy and the address filter decide exactly as configured; a redundancy
      group has at most one active connection, and only its ASDUs are
      forwarded.
    - File-transfer service: the table of sessions is bounded and holds runs of
      the session machine; every request is answered once and every session
      announced as started is announced as finished once; no turn hangs; a
      silent peer is given up. Between two services, whatever transfers run
      at once, an upload that is finalized as a success is a file the other
      station had. Over a directory: an upload that has its number to itself is
      atomic, a file is read as it is, nothing outside the directory is
      touched as long as links can be told from files, the index is exact. Time tags are the Gregorian calendar.
    - Test tools: the server never panics and its filter never sees a change of
      kind, whatever it is asked and receives, while values and schedules fit
      their points; an interrogation brings the client the image, as far as
      the wire carries it, and its response lists each selected point once;
      every command is confirmed and terminated; a value that is set arrives;
      a connected client that receives everything in order is within the
      deadband of the image after every tick, and stays so for every point
      until its policy is changed; the cache answers with what arrived last.
      Requests over the control socket are handled and answered in order, a
      value set on the command line reaches the image if its JSON is read
      back, and the loop of a peer is a run of the server. The loop of the
      serial outstation answers an interrogation in one piece when there is
      room for it, and hangs for good when there is not.
    - Handles: what one user's [send_asdu] has accepted is what the other
      user receives, in order and as far as the policy lets it through,
      whatever the users, tasks and the transport do; nothing gets stuck on
      the way, and neither station faults the other. Over this stack the
      client tool stays within the deadband of the server tool. With a file
      provider every request is answered, in progress or waiting, but driver
      and service can wait for each other for ever. A client connects
      when the attempt succeeds and runs the policy it was given; a server
      passes over the peers its filter refuses, and each turn of the
      redundancy manager is a step of the group. A TLS server
      that asks for certificates admits only peers the address filter, the
      chain validation and the policy let through, in this handshake or in
      that of the session a peer resumes.

    Lemmas that follow some component files, such as [closed_is_left] or
    [data_lost_after_timeout], evaluate the model on inputs where the code
    differs from its documentation or from the standard's intent.

    ** Assumptions of the two-station models

    Net104 and FileTransfer: the transport is TCP, hence first-in first-out
    without loss; a station that has returned [Disconnect] takes no further
    step; windows are at most 16383, half the number space less one. Stack104:
    the transport is TCP, and what a failed write has sent does not count; the
    tasks have no file provider, and a user keeps its receiver until its task
    has ended. TestRig and RigView: ASDUs arrive in the order of the locked
    sections that make them. Stack104 provides that they arrive in the order
    they are sent in, which [tools_within_deadband] uses; that the tasks of the
    server send them in the order of the sections is assumed, for the source
    broadcasts after the lock is released ([crossed_broadcasts] shows what
    comes of it).
    Drain104: arrivals happen within less than [t1]. FtStation: one station
    against any transport; the turns of the service run with a fuel, and
    [service_turns_end] shows that enough of it exists. FtEndToEnd: ASDUs
    arrive in the order they were sent in, none of them lost before a later
    one; the storage that is read from gives a file piece by piece and does not
    fail before its end ([readable]; where it fails, the receiver takes what
    it has for the file, [read_error_truncates]). Abp101
    and Once101: a damaged frame counts as lost, and the line keeps the order
    of frames. The theorems of Abp101 are of calm runs: the line carries a
    frame in less than the retransmission timeout, resets of the link are
    requested when no frame is pending, and the run is observed until the
    master gives up; those of Once101 are of all runs. FsProvider: the call
    that tells a link from a file does not fail where path safety and the
    atomicity of uploads are concerned ([lstat_failure_escapes]). Tls: the
    sessions a configuration keeps were made by handshakes that it verified.
    SerialLoop: the lock is tokio's, fair; the sections of other tasks take it
    at one instant, since they do not wait inside.

    ** What is not modelled

    The system calls that open sockets, serial ports and listeners: their
    outcome is a parameter of the functions of Connect.v. The settings of a
    serial port ([serial.rs]), the spawning of tasks and the handler traits
    ([handler.rs]): I/O and glue. rustls, webpki, the PEM parser, sha2,
    serde's JSON text and the option grammar of clap are libraries and appear
    as parameters. Broadcast channels lose events for slow subscribers; what
    a subscription delivers is a parameter. Balanced mode of
    the 101 link is unimplemented in the source and a panic here. *)

From Stdlib Require Export ZArith Lia.
From stdpp Require Export base tactics numbers list option strings gmap.

#[global] Open Scope Z_scope.

(** [lia] decides goals with [/] and [mod] by a constant. *)
Ltac Zify.zify_post_hook ::= Z.to_euclidean_division_equations.

(** ** Machine integers

    A Rust [u8], [u16], [u32], [i16] or [i32] is a [Z] in the range of its
    width; a cast ([as u8], ...) is the wrap-around written out. *)

Definition is_u8 (z : Z) : Prop := 0 <= z < 256.
Definition is_u16 (z : Z) : Prop := 0 <= z < 65536.
Definition is_u24 (z : Z) : Prop := 0 <= z < 16777216.
Definition is_u32 (z : Z) : Prop := 0 <= z < 4294967296.
Definition is_i16 (z : Z) : Prop := -32768 <= z < 32768.
Definition is_i32 (z : Z) : Prop := -2147483648 <= z < 2147483648.

Definition as_u8 (z : Z) : Z := z mod 256.
Definition as_u16 (z : Z) : Z := z mod 65536.
Definition as_u32 (z : Z) : Z := z mod 4294967296.
Definition as_i16 (z : Z) : Z := (z + 32768) mod 65536 - 32768.
Definition as_i32 (z : Z) : Z := (z + 2147483648) mod 4294967296 - 2147483648.

(** [b & m != 0] and [if c { b |= m }], the two idioms every qualifier octet
    of the protocol is built from. *)
Definition has_bits (b m : Z) : bool := negb (Z.land b m =? 0).
Definition or_if (c : bool) (m b : Z) : Z := if c then Z.lor b m else b.

(** [std::time]: an [Instant] and a [Duration] are integers in one unit;
    [Instant::saturating_duration_since] is the difference cut at zero. *)
Abbreviation Instant := Z (only parsing).
Abbreviation Duration := Z (only parsing).
Definition since (now t : Instant) : Duration := Z.max 0 (now - t).

(** A byte string is a list of octets. *)
Abbreviation bytes := (list Z) (only parsing).
Definition octets (b : bytes) : Prop := Forall is_u8 b.

#[export] Instance is_u8_dec z : Decision (is_u8 z).
Proof. unfold is_u8. apply _. Defined.
#[export] Instance is_u16_dec z : Decision (is_u16 z).
Proof. unfold is_u16. apply _. Defined.
#[export] Instance is_u24_dec z : Decision (is_u24 z).
Proof. unfold is_u24. apply _. Defined.
#[export] Instance is_u32_dec z : Decision (is_u32 z).
Proof. unfold is_u32. apply _. Defined.
#[export] Instance octets_dec b : Decision (octets b).
Proof. unfold octets. apply _. Defined.

(** ** Results

    [error.rs] of the protocol crate, and [Result<T, Error>] with the third
    outcome of a Rust call, a panic (an index out of range, a read past the
    end of a buffer, an overflow in a checked build, [unreachable!]). *)

(** error.rs 9-39, Error. *)
Inductive Error : Set :=
| Incomplete (needed have : nat)
| InvalidStartByte (expected got : Z)
| InvalidEndByte (expected got : Z)
| LengthMismatch (declared actual : nat)
| LengthOctetsDiffer (first second : Z)
| ChecksumMismatch (expected got : Z)
| UnknownAsduType (t : Z)
| InvalidValue (field : string) (value : Z)
| UnsupportedFormat
| AsduTooLong (len max : nat).

#[export] Instance Error_eq_dec : EqDecision Error.
Proof. solve_decision. Defined.

Inductive Result (A : Type) : Type :=
| Ok (a : A)
| Err (e : Error)
| Panic.
Arguments Ok {A} _.
Arguments Err {A} _.
Arguments Panic {A}.

#[export] Instance Result_eq_dec {A} `{EqDecision A} : EqDecision (Result A).
Proof. solve_decision. Defined.

#[export] Instance Result_ret : MRet Result := fun A a => Ok a.
#[export] Instance Result_bind : MBind Result := fun A B k m =>
  match m with Ok a => k a | Err e => Err e | Panic => Panic end.
#[export] Instance Result_fmap : FMap Result := fun A B f m =>
  match m with Ok a => Ok (f a) | Err e => Err e | Panic => Panic end.

(** [slice[i]] and [&slice[lo..hi]]: the std indexing operations panic when
    out of range. *)
Definition index {A} (s : list A) (i : nat) : Result A :=
  match s !! i with Some x => Ok x | None => Panic end.
Definition slice {A} (s : list A) (lo hi : nat) : Result (list A) :=
  if decide (lo <= hi /\ hi <= length s)%nat
  then Ok (take (hi - lo) (drop lo s)) else Panic.

(** ** Decoders

    A decoder takes the buffer [&mut B] and returns its result together with
    what is left in the buffer, also when it fails. *)
Definition Dec (A : Type) : Type := bytes -> Result A * bytes.

#[export] Instance Dec_ret : MRet Dec := fun A a b => (Ok a, b).
#[export] Instance Dec_bind : MBind Dec := fun A B k m b =>
  match m b with
  | (Ok a, b') => k a b'
  | (Err e, b') => (Err e, b')
  | (Panic, b') => (Panic, b')
  end.

(** The value a decoder returns, dropping the buffer. *)
Definition run {A} (m : Dec A) (b : bytes) : Result A := (m b).1.

Definition dec_err {A} (e : Error) : Dec A := fun b => (Err e, b).
(** A [Result] inside a decoder ([?] on a value that does not read). *)
Definition dec_lift {A} (r : Result A) : Dec A := fun b => (r, b).

Lemma dec_bind_ok {A B} (m : Dec A) (k : A -> Dec B) b a b' :
  m b = (Ok a, b') -> (m ≫= k) b = k a b'.
Proof. intros H. unfold mbind, Dec_bind. by rewrite H. Qed.

Lemma dec_bind_err {A B} (m : Dec A) (k : A -> Dec B) b e b' :
  m b = (Err e, b') -> (m ≫= k) b = (Err e, b').
Proof. intros H. unfold mbind, Dec_bind. by rewrite H. Qed.

Lemma dec_ret_eq {A} (a : A) b : (mret a : Dec A) b = (Ok a, b).
Proof. done. Qed.

Lemma res_bind_ok {A B} (a : A) (k : A -> Result B) : (Ok a ≫= k) = k a.
Proof. done. Qed.

(** ** Enumeration over a small range

    Facts about one octet are decided by evaluating them at every value. *)
Lemma Zrange_decide (n : Z) (P : Z -> Prop) `{∀ z, Decision (P z)} :
  forallb (λ z, bool_decide (P z)) (seqZ 0 n) = true ->
  ∀ z, 0 <= z < n -> P z.
Proof.
  intros Hall z Hz. rewrite forallb_forall in Hall.
  specialize (Hall z). apply bool_decide_eq_true in Hall; [done|].
  apply list_elem_of_In, elem_of_seqZ. lia.
Qed.

Lemma Zrange_elem z n : 0 <= z < n -> z ∈ seqZ 0 n.
Proof. intros. apply elem_of_seqZ. lia. Qed.

(** [enum z]: the goal, which mentions only [z], by evaluation over the
    range a hypothesis [0 <= z < n] gives. *)
Ltac enum z :=
  match goal with
  | H : 0 <= z < ?n |- _ =>
      let G := fresh in
      revert z H;
      match goal with
      | |- ∀ z, 0 <= z < ?n -> @?P z => apply (Zrange_decide n P)
      end; vm_compute; reflexivity
  end.

(** [zcases H]: one goal per value of the range [H]. *)
Ltac zcases H :=
  match type of H with
  | 0 <= ?z < _ =>
      apply Zrange_elem in H; vm_compute in H;
      repeat (apply elem_of_cons in H as [H|H]; [subst z|]);
      try (by apply elem_of_nil in H)
  end.

(** ** Lists *)
Lemma octets_app a b : octets (a ++ b) <-> octets a /\ octets b.
Proof. unfold octets. by rewrite Forall_app. Qed.
Lemma octets_cons x b : octets (x :: b) <-> is_u8 x /\ octets b.
Proof. unfold octets. by rewrite Forall_cons. Qed.
Lemma octets_nil : octets [].
Proof. constructor. Qed.
Lemma octets_take n b : octets b -> octets (take n b).
Proof. apply Forall_take. Qed.
Lemma octets_drop n b : octets b -> octets (drop n b).
Proof. apply Forall_drop. Qed.

Create HintDb iec.
Create Rewrite HintDb octets.
#[export] Hint Resolve octets_nil octets_take octets_drop : iec.
#[export] Hint Rewrite octets_app octets_cons : octets.

Lemma app_eq_take {A} (l1 l2 : list A) : take (length l1) (l1 ++ l2) = l1.
Proof. by rewrite take_app_length. Qed.

Lemma has_bits_or_if c m b :
  0 <= b -> 0 <= m -> Z.land b m = 0 -> m ≠ 0 -> has_bits (or_if c m b) m = c.
Proof.
  intros Hb Hm Hd Hz. unfold has_bits, or_if. destruct c.
  - rewrite Z.land_lor_distr_l, Hd, Z.lor_0_l, Z.land_diag.
    by destruct (Z.eqb_spec m 0).
  - by rewrite Hd.
Qed.

(** Disjoint fields: [x | (y << k)] is [x + 2^k * y] when [x] fits in [k] bits. *)
Lemma lor_shiftl x y k :
  0 <= k -> 0 <= x < 2 ^ k -> Z.lor x (Z.shiftl y k) = x + 2 ^ k * y.
Proof.
  intros Hk Hx. rewrite <- Z.lxor_lor, <- Z.add_nocarry_lxor.
  - rewrite Z.shiftl_mul_pow2 by done. lia.
  - apply Z.bits_inj'. intros n Hn. rewrite Z.land_spec, Z.bits_0.
    destruct (decide (n < k)).
    + by rewrite Z.shiftl_spec_low, andb_false_r.
    + rewrite <- (Z.mod_small x (2 ^ k)) by done. by rewrite Z.mod_pow2_bits_high by lia.
  - apply Z.bits_inj'. intros n Hn. rewrite Z.land_spec, Z.bits_0.
    destruct (decide (n < k)).
    + by rewrite Z.shiftl_spec_low, andb_false_r.
    + rewrite <- (Z.mod_small x (2 ^ k)) by done. by rewrite Z.mod_pow2_bits_high by lia.
Qed.

(** The counts in [cs] climb from [lo] to [hi]. *)
Fixpoint chain (lo : nat) (cs : list nat) (hi : nat) : Prop :=
  match cs with [] => lo <= hi | x :: cs' => lo <= x /\ chain x cs' hi end%nat.

Lemma chain_le lo cs hi : chain lo cs hi -> (lo <= hi)%nat.
Proof. revert lo. induction cs as [|x cs IH]; simpl; [done|]. intros lo [H1 H2]. specialize (IH _ H2). lia. Qed.
Lemma chain_weaken lo lo' cs hi : (lo' <= lo)%nat -> chain lo cs hi -> chain lo' cs hi.
Proof. destruct cs; simpl; [lia|]. intros ? [? ?]. split; [lia|done]. Qed.
Lemma chain_extend lo cs hi hi' m :
  (hi <= hi')%nat -> chain lo cs hi -> chain lo (cs ++ replicate m hi') hi'.
Proof.
  intros Hh. assert (Hr : ∀ lo, (lo <= hi')%nat -> chain lo (replicate m hi') hi').
  { induction m as [|m IH]; intros l Hl; simpl; [done|]. split; [done|]. by apply IH. }
  revert lo. induction cs as [|x cs IH]; intros lo; simpl; [intros; apply Hr; lia|].
  intros [H1 H2]. eauto.
Qed.
