(* ===== verification/Pipe.v ===== *)
(** * The service a connection offers to its application

    The abstract specification of one direction of a connection: a reliable
    first-in first-out pipe with credit. The sending application submits
    messages at any time; they are put on their way in order, and only while
    fewer than [k] messages are unacknowledged; the receiving application gets
    them one at a time from the front; only what it has got is acknowledged.
    The model of two stations is shown to implement it. *)

From S2P Require Import Prelude.

Section Pipe.
Context {A : Type} (k : Z).

(** Messages not yet sent, messages under way, messages handed over so far,
    and how many of these the sender knows of. *)
Record pipe := mkPipe { held_back : list A; under_way : list A; handed_over : list A; credited : nat }.

(** What has been sent and is not acknowledged. *)
Definition unacknowledged (p : pipe) : nat := length (handed_over p) + length (under_way p) - credited p.

Inductive pipe_step : pipe -> pipe -> Prop :=
| pipe_submit h u o a d : pipe_step (mkPipe h u o a) (mkPipe (h ++ [d]) u o a)
| pipe_send h u o a d : Z.of_nat (unacknowledged (mkPipe (d :: h) u o a)) < k ->
    pipe_step (mkPipe (d :: h) u o a) (mkPipe h (u ++ [d]) o a)
| pipe_deliver h u o a d : pipe_step (mkPipe h (d :: u) o a) (mkPipe h u (o ++ [d]) a)
| pipe_credit h u o a a' : (a <= a' <= length o)%nat -> pipe_step (mkPipe h u o a) (mkPipe h u o a').

Definition pipe_init : pipe := mkPipe [] [] [] 0.

(** The pipe seen from outside: what went in, what was sent, what came out and
    what the sender has had acknowledged. *)
Definition pipe_of (submitted sent delivered : list A) (acked : nat) : pipe :=
  mkPipe (drop (length sent) submitted) (drop (length delivered) sent) delivered acked.

Lemma drop_prefix_app (l m : list A) : drop (length l) (l ++ m) = m.
Proof. by rewrite drop_app_length. Qed.

Lemma pipe_submits h u o a ds : rtc pipe_step (mkPipe h u o a) (mkPipe (h ++ ds) u o a).
Proof.
  revert h. induction ds as [|d ds IH]; intros h; [by rewrite app_nil_r|].
  eapply rtc_l; [apply (pipe_submit h u o a d)|]. specialize (IH (h ++ [d])). by rewrite <- app_assoc in IH.
Qed.

Lemma pipe_delivers h u o a ds : rtc pipe_step (mkPipe h (ds ++ u) o a) (mkPipe h u (o ++ ds) a).
Proof.
  revert o. induction ds as [|d ds IH]; intros o; [by rewrite app_nil_r|].
  eapply rtc_l; [apply pipe_deliver|]. specialize (IH (o ++ [d])). by rewrite <- app_assoc in IH.
Qed.

Lemma pipe_sends h u o a ds : Z.of_nat (length o + length u + length ds - a) <= Z.max 0 k ->
  (a <= length o + length u)%nat -> rtc pipe_step (mkPipe (ds ++ h) u o a) (mkPipe h (u ++ ds) o a).
Proof.
  revert u. induction ds as [|d ds IH]; intros u Hk Ha; [by rewrite app_nil_r|]. cbn in Hk.
  eapply rtc_l; [apply (pipe_send (ds ++ h) u o a d); unfold unacknowledged; cbn; lia|].
  specialize (IH (u ++ [d])). rewrite <- app_assoc in IH. apply IH; rewrite length_app; simpl; lia.
Qed.

(** When every log only grows, what is delivered had been sent before, what
    is acknowledged had been delivered and the credit is kept, the change is a
    run of the pipe. *)
Lemma pipe_grows sub sent del acked sub' sent' del' acked' :
  sub `prefix_of` sub' -> sent `prefix_of` sent' -> del `prefix_of` del' -> (acked <= acked')%nat ->
  del' `prefix_of` sent -> sent' `prefix_of` sub' -> sent `prefix_of` sub -> (acked' <= length del')%nat ->
  Z.of_nat (length sent' - acked') <= Z.max 0 k ->
  rtc pipe_step (pipe_of sub sent del acked) (pipe_of sub' sent' del' acked').
Proof.
  intros [ds ->] [ts ->] [es ->] Ha [u ->] [v Ev] [h ->] Hd Hk. unfold pipe_of.
  rewrite <- !app_assoc in Ev. apply (app_inv_head del), (app_inv_head es), (app_inv_head u) in Ev.
  replace ((((del ++ es) ++ u) ++ h) ++ ds) with ((((del ++ es) ++ u) ++ ts) ++ v) by (rewrite <- !app_assoc, Ev; done).
  rewrite !drop_prefix_app, <- (app_assoc _ u ts), drop_prefix_app, <- (app_assoc del es u), drop_prefix_app.
  etrans; [apply (pipe_submits h (es ++ u) del acked ds)|]. rewrite Ev.
  etrans; [apply pipe_delivers|]. eapply rtc_l; [by apply (pipe_credit _ _ _ acked acked')|].
  rewrite !length_app in *. apply pipe_sends; rewrite ?length_app; lia.
Qed.
End Pipe.
Arguments pipe : clear implicits.
