(* ===== verification/Bytes.v ===== *)
(** * The byte-buffer interface

    The codecs are written against the [Buf] and [BufMut] traits of the
    [bytes] crate. That crate is not part of the repository, so it is a
    parameter here: [BytesCrate] holds the operations the codecs call, at the
    two instances they are used with (a [&[u8]] slice that is read from its
    front, a growable [Vec<u8>] or [BytesMut] that is appended to), and the
    documented behaviour of each as a law. Nothing is said about a read past
    the end of the buffer, so a decoder that could reach one has no theorem.
    [slice_bytes] shows that the laws can hold, and is what the examples and
    witnesses compute with. *)

From S2P Require Import Prelude.

(** Little-endian composition and splitting. *)
Fixpoint le_join (b : bytes) : Z :=
  match b with [] => 0 | x :: b' => x + 256 * le_join b' end.
Fixpoint le_split (n : nat) (v : Z) : bytes :=
  match n with O => [] | S n' => v mod 256 :: le_split n' (v / 256) end.

Lemma length_le_split n v : length (le_split n v) = n.
Proof. revert v; induction n; simpl; intros; [done|]. by rewrite IHn. Qed.

Lemma octets_le_split n v : octets (le_split n v).
Proof.
  revert v; induction n; simpl; intros; [apply octets_nil|].
  apply octets_cons. split; [|done]. unfold is_u8. lia.
Qed.

Lemma le_join_split n v : le_join (le_split n v) = v mod 256 ^ Z.of_nat n.
Proof.
  revert v; induction n as [|n IH]; intros v; simpl le_split; simpl le_join.
  { change (256 ^ Z.of_nat 0) with 1. by rewrite Z.mod_1_r. }
  rewrite IH, Nat2Z.inj_succ, Z.pow_succ_r by lia.
  rewrite Z.rem_mul_r by lia. lia.
Qed.

Lemma le_join_bound b : octets b -> 0 <= le_join b < 256 ^ Z.of_nat (length b).
Proof.
  induction b as [|x b IH]; intros Hb; [simpl; lia|].
  apply octets_cons in Hb as [Hx Hb]. specialize (IH Hb). unfold is_u8 in Hx.
  cbn [length le_join]. rewrite Nat2Z.inj_succ, Z.pow_succ_r by lia. lia.
Qed.

Lemma le_split_join b : octets b -> le_split (length b) (le_join b) = b.
Proof.
  induction b as [|x b IH]; intros Hb; [done|].
  apply octets_cons in Hb as [Hx Hb]. unfold is_u8 in Hx. simpl.
  replace (x + 256 * le_join b) with (le_join b * 256 + x) by lia.
  rewrite Z.add_comm, Z.mod_add, Z.div_add, Z.mod_small, Z.div_small by lia.
  rewrite Z.add_0_l, IH by done. done.
Qed.

#[global] Arguments le_split : simpl never.

Class BytesCrate := {
  (* Buf *)
  remaining : bytes -> nat;
  get_u8 : Dec Z;
  get_u16_le : Dec Z;
  get_i16_le : Dec Z;
  get_i32_le : Dec Z;
  get_f32_le : Dec Z;
  copy_to_slice : nat -> Dec bytes;
  (* BufMut *)
  put_u8 : Z -> bytes -> bytes;
  put_u16_le : Z -> bytes -> bytes;
  put_i16_le : Z -> bytes -> bytes;
  put_i32_le : Z -> bytes -> bytes;
  put_f32_le : Z -> bytes -> bytes;
  put_slice : bytes -> bytes -> bytes;
  remaining_mut : bytes -> Z;
  (* documented behaviour *)
  remaining_spec b : remaining b = length b;
  get_u8_spec x b : get_u8 (x :: b) = (Ok x, b);
  get_u16_le_spec x y b : get_u16_le (x :: y :: b) = (Ok (le_join [x; y]), b);
  get_i16_le_spec x y b :
    get_i16_le (x :: y :: b) = (Ok (as_i16 (le_join [x; y])), b);
  get_i32_le_spec x y z w b :
    get_i32_le (x :: y :: z :: w :: b) = (Ok (as_i32 (le_join [x; y; z; w])), b);
  get_f32_le_spec x y z w b :
    get_f32_le (x :: y :: z :: w :: b) = (Ok (le_join [x; y; z; w]), b);
  copy_to_slice_spec n b :
    (n <= length b)%nat -> copy_to_slice n b = (Ok (take n b), drop n b);
  put_u8_spec v b : put_u8 v b = b ++ [v];
  put_u16_le_spec v b : put_u16_le v b = b ++ le_split 2 v;
  put_i16_le_spec v b : put_i16_le v b = b ++ le_split 2 v;
  put_i32_le_spec v b : put_i32_le v b = b ++ le_split 4 v;
  put_f32_le_spec v b : put_f32_le v b = b ++ le_split 4 v;
  put_slice_spec s b : put_slice s b = b ++ s;
  remaining_mut_spec b s : remaining_mut b - remaining_mut (b ++ s) = Z.of_nat (length s);
}.

Create Rewrite HintDb buf.
#[export] Hint Rewrite @remaining_spec @get_u8_spec @get_u16_le_spec @get_i16_le_spec
  @get_i32_le_spec @get_f32_le_spec @put_u8_spec @put_u16_le_spec @put_i16_le_spec
  @put_i32_le_spec @put_f32_le_spec @put_slice_spec : buf.

(** ** The slice instance *)
Definition slice_get (n : nat) (f : bytes -> Z) : Dec Z := fun b =>
  if decide (n <= length b)%nat then (Ok (f (take n b)), drop n b) else (Panic, b).

#[export] Instance slice_bytes : BytesCrate | 100.
Proof.
  refine {|
    remaining := length;
    get_u8 := slice_get 1 le_join;
    get_u16_le := slice_get 2 le_join;
    get_i16_le := slice_get 2 (fun b => as_i16 (le_join b));
    get_i32_le := slice_get 4 (fun b => as_i32 (le_join b));
    get_f32_le := slice_get 4 le_join;
    copy_to_slice n b :=
      if decide (n <= length b)%nat then (Ok (take n b), drop n b) else (Panic, b);
    put_u8 v b := b ++ [v];
    put_u16_le v b := b ++ le_split 2 v;
    put_i16_le v b := b ++ le_split 2 v;
    put_i32_le v b := b ++ le_split 4 v;
    put_f32_le v b := b ++ le_split 4 v;
    put_slice s b := b ++ s;
    remaining_mut b := 9223372036854775807 - Z.of_nat (length b) |};
    intros; unfold slice_get; try done.
  - rewrite decide_True by (simpl; lia). cbn -[Z.mul Z.add].
    by rewrite Z.mul_0_r, Z.add_0_r, drop_0.
  - by rewrite decide_True.
  - rewrite length_app. lia.
Defined.
