(* ===== verification/Codec.v ===== *)
(** * Fixed-length codecs

    Every information element, qualifier and address field of the protocol
    is an [encode] that appends a fixed number of octets to a buffer and a
    [decode] that takes them off its front. [FixedCodec] is the contract such
    a pair keeps; the information-object lists, the ASDU envelope and the
    file-transfer ASDUs are proved against it, and each element of [ie.rs],
    [command.rs], [system.rs] and [file.rs] discharges it. *)

From S2P Require Import Prelude Bytes.

Section WithBytes.
Context `{BC : BytesCrate}.

(** ie.rs 442-451, ensure. *)
Definition ensure (n : nat) : Dec unit := fun buf =>
  if decide (remaining buf < n)%nat
  then (Err (Incomplete n (remaining buf)), buf)
  else (Ok tt, buf).

Lemma ensure_short n b :
  (length b < n)%nat -> ensure n b = (Err (Incomplete n (length b)), b).
Proof. intros. unfold ensure. rewrite remaining_spec. by rewrite decide_True. Qed.
Lemma ensure_long n b : (n <= length b)%nat -> ensure n b = (Ok tt, b).
Proof. intros. unfold ensure. rewrite remaining_spec. by rewrite decide_False by lia. Qed.

(** The contract. [wf] is the set of values the wire format can carry:
    outside it [encode] truncates. A decoder that succeeds has consumed
    exactly [len] octets and returns a value in [wf]; one that fails reports
    [Incomplete], and does so only on a buffer shorter than [len]. *)
Record FixedCodec {A} (len : nat) (enc : A -> bytes -> bytes) (dec : Dec A)
    (wf : A -> Prop) : Prop := {
  fc_append a buf : enc a buf = buf ++ enc a [];
  fc_length a : length (enc a []) = len;
  fc_octets a : wf a -> octets (enc a []);
  fc_roundtrip a rest : wf a -> dec (enc a [] ++ rest) = (Ok a, rest);
  fc_short b : octets b -> (length b < len)%nat ->
    ∃ n h b', dec b = (Err (Incomplete n h), b') /\ (h < n)%nat;
  fc_long b : octets b -> (len <= length b)%nat ->
    ∃ a, wf a /\ dec b = (Ok a, drop len b);
}.

(** ** Building codecs *)

Lemma octet_codec {A} (f : A -> Z) (g : Z -> A) (wf : A -> Prop) :
  (∀ a, wf a -> is_u8 (f a)) -> (∀ a, wf a -> g (f a) = a) ->
  (∀ b, is_u8 b -> wf (g b)) ->
  FixedCodec 1 (fun a => put_u8 (f a))
    (ensure 1 ≫= fun _ => get_u8 ≫= fun b => mret (g b)) wf.
Proof.
  intros Hu Hgf Hg. split.
  - intros. by rewrite !put_u8_spec.
  - intros. by rewrite put_u8_spec.
  - intros. rewrite put_u8_spec. apply octets_cons. eauto using octets_nil.
  - intros a rest Ha. rewrite put_u8_spec.
    erewrite dec_bind_ok by (apply ensure_long; simpl; lia). simpl.
    erewrite dec_bind_ok by apply get_u8_spec. by rewrite Hgf.
  - intros b _ Hb. erewrite dec_bind_err by (by apply ensure_short). eauto 10.
  - intros [|x b] Hb Hl; simpl in Hl; [lia|].
    erewrite dec_bind_ok by (apply ensure_long; simpl; lia).
    erewrite dec_bind_ok by apply get_u8_spec.
    apply octets_cons in Hb as [Hx _]. eexists. split; [by apply Hg|].
    simpl. by rewrite drop_0.
Qed.

(** A codec made of a multi-octet read and write: [u16], [i16], [f32]. *)
Lemma word_codec {A} (n : nat) (enc : A -> bytes -> bytes) (get : Dec A)
    (w : A -> bytes) (r : bytes -> A) (wf : A -> Prop) :
  (∀ a buf, enc a buf = buf ++ w a) -> (∀ a, length (w a) = n) ->
  (∀ a, wf a -> octets (w a)) ->
  (∀ b rest, length b = n -> get (b ++ rest) = (Ok (r b), rest)) ->
  (∀ a, wf a -> r (w a) = a) -> (∀ b, octets b -> length b = n -> wf (r b)) ->
  FixedCodec n enc (ensure n ≫= fun _ => get) wf.
Proof.
  intros Henc Hlen Hoct Hget Hrw Hwf. split.
  - intros. by rewrite !Henc, app_nil_l.
  - intros. rewrite Henc. apply Hlen.
  - intros. rewrite Henc. eauto.
  - intros a rest Ha. rewrite Henc, app_nil_l.
    erewrite dec_bind_ok by (apply ensure_long; rewrite length_app, Hlen; lia).
    rewrite Hget by done. by rewrite Hrw.
  - intros b _ Hb. erewrite dec_bind_err by (by apply ensure_short). eauto 10.
  - intros b Hb Hl. erewrite dec_bind_ok by (by apply ensure_long).
    exists (r (take n b)).
    assert (Ht : length (take n b) = n) by (rewrite length_take; lia).
    split; [by apply Hwf; [apply octets_take|]|].
    rewrite <- (take_drop n b) at 1. by rewrite Hget.
Qed.

(** Two codecs in sequence, the decoder returning [k a b]. *)
Lemma pair_codec {A B} la lb (ea : A -> bytes -> bytes) (eb : B -> bytes -> bytes)
    (da : Dec A) (db : Dec B) (wa : A -> Prop) (wb : B -> Prop) :
  FixedCodec la ea da wa -> FixedCodec lb eb db wb ->
  FixedCodec (la + lb) (fun p buf => eb p.2 (ea p.1 buf))
    (da ≫= fun a => db ≫= fun b => mret (a, b)) (fun p => wa p.1 /\ wb p.2).
Proof.
  intros HA HB. split.
  - intros [a b] buf; simpl. rewrite (fc_append _ _ _ _ HB).
    rewrite (fc_append _ _ _ _ HA a buf), (fc_append _ _ _ _ HB b (ea a [])).
    by rewrite app_assoc.
  - intros [a b]; simpl. rewrite (fc_append _ _ _ _ HB), length_app.
    by rewrite (fc_length _ _ _ _ HA), (fc_length _ _ _ _ HB).
  - intros [a b] [Ha Hb]; simpl in *. rewrite (fc_append _ _ _ _ HB), octets_app.
    eauto using fc_octets.
  - intros [a b] rest [Ha Hb]; simpl in *. rewrite (fc_append _ _ _ _ HB), <- app_assoc.
    erewrite dec_bind_ok by (by apply (fc_roundtrip _ _ _ _ HA)).
    by erewrite dec_bind_ok by (by apply (fc_roundtrip _ _ _ _ HB)).
  - intros b Hb Hl. destruct (decide (length b < la)%nat) as [Hs|Hs].
    + destruct (fc_short _ _ _ _ HA b Hb Hs) as (n & h & b' & E & Hh).
      erewrite dec_bind_err by exact E. eauto 10.
    + destruct (fc_long _ _ _ _ HA b Hb) as (a & _ & E); [lia|].
      erewrite dec_bind_ok by exact E.
      destruct (fc_short _ _ _ _ HB (drop la b)) as (n & h & b' & E' & Hh);
        [by apply octets_drop | rewrite length_drop; lia |].
      erewrite dec_bind_err by exact E'. eauto 10.
  - intros b Hb Hl.
    destruct (fc_long _ _ _ _ HA b Hb) as (a & Ha & E); [lia|].
    erewrite dec_bind_ok by exact E.
    destruct (fc_long _ _ _ _ HB (drop la b)) as (c & Hc & E');
      [by apply octets_drop | rewrite length_drop; lia |].
    erewrite dec_bind_ok by exact E'. exists (a, c). by rewrite drop_drop.
Qed.

(** The same codec at another type: records and newtypes. *)
Lemma iso_codec {A B} len (f : A -> B) (g : B -> A)
    (ea : A -> bytes -> bytes) (eb : B -> bytes -> bytes)
    (da : Dec A) (db : Dec B) (wa : A -> Prop) (wb : B -> Prop) :
  (∀ b buf, eb b buf = ea (g b) buf) ->
  (∀ buf, db buf = (da ≫= fun a => mret (f a)) buf) ->
  (∀ b, f (g b) = b) -> (∀ b, wb b -> wa (g b)) -> (∀ a, wa a -> wb (f a)) ->
  FixedCodec len ea da wa -> FixedCodec len eb db wb.
Proof.
  intros He Hd Hfg Hwb Hwa HA. split.
  - intros. rewrite !He. apply (fc_append _ _ _ _ HA).
  - intros. rewrite He. apply (fc_length _ _ _ _ HA).
  - intros. rewrite He. by apply (fc_octets _ _ _ _ HA), Hwb.
  - intros b rest Hb. rewrite He, Hd.
    erewrite dec_bind_ok by (apply (fc_roundtrip _ _ _ _ HA); by apply Hwb).
    by rewrite Hfg.
  - intros b Hb Hl. rewrite Hd.
    destruct (fc_short _ _ _ _ HA b Hb Hl) as (n & h & b' & E & Hh).
    erewrite dec_bind_err by exact E. eauto 10.
  - intros b Hb Hl. rewrite Hd. destruct (fc_long _ _ _ _ HA b Hb Hl) as (a & Ha & E).
    erewrite dec_bind_ok by exact E. eauto.
Qed.

(** A decoder that checks the whole length up front and then reads field by
    field behaves as the field decoders in sequence, except that its error
    reports the whole length. *)
Lemma ensure_codec {A} len (ea : A -> bytes -> bytes) (da db : Dec A) (wa : A -> Prop) :
  (∀ b, (len <= length b)%nat -> db b = da b) ->
  FixedCodec len ea da wa -> FixedCodec len ea (ensure len ≫= fun _ => db) wa.
Proof.
  intros Hd HA. split.
  - apply (fc_append _ _ _ _ HA).
  - apply (fc_length _ _ _ _ HA).
  - apply (fc_octets _ _ _ _ HA).
  - intros a rest Ha.
    assert (len <= length (ea a [] ++ rest))%nat
      by (rewrite length_app, (fc_length _ _ _ _ HA); lia).
    erewrite dec_bind_ok by (by apply ensure_long).
    rewrite Hd by done. by apply (fc_roundtrip _ _ _ _ HA).
  - intros b _ Hl. erewrite dec_bind_err by (by apply ensure_short). eauto 10.
  - intros b Hb Hl. erewrite dec_bind_ok by (by apply ensure_long).
    rewrite Hd by done. by apply (fc_long _ _ _ _ HA).
Qed.

(** ** Consequences used by every client *)
Section Laws.
Context {A : Type} {len : nat} {enc : A -> bytes -> bytes} {dec : Dec A} {wf : A -> Prop}.
Hypothesis C : FixedCodec len enc dec wf.

Lemma fc_no_panic b : octets b -> run dec b ≠ Panic.
Proof.
  intros Hb. unfold run. destruct (decide (length b < len)%nat) as [Hl|Hl].
  - destruct (fc_short _ _ _ _ C b Hb Hl) as (? & ? & ? & -> & _). done.
  - destruct (fc_long _ _ _ _ C b Hb) as (? & _ & ->); [lia|done].
Qed.

Lemma fc_wf b a b' : octets b -> dec b = (Ok a, b') -> wf a /\ b' = drop len b /\ (len <= length b)%nat.
Proof.
  intros Hb E. destruct (decide (length b < len)%nat) as [Hl|Hl].
  - destruct (fc_short _ _ _ _ C b Hb Hl) as (? & ? & ? & E' & _). congruence.
  - destruct (fc_long _ _ _ _ C b Hb) as (a' & Ha & E'); [lia|].
    rewrite E' in E. simplify_eq. split_and!; [done|done|lia].
Qed.

Lemma fc_err b e b' : octets b -> dec b = (Err e, b') ->
  ∃ n h, e = Incomplete n h /\ (h < n)%nat.
Proof.
  intros Hb E. destruct (decide (length b < len)%nat) as [Hl|Hl].
  - destruct (fc_short _ _ _ _ C b Hb Hl) as (? & ? & ? & E' & ?). rewrite E' in E. simplify_eq. eauto.
  - destruct (fc_long _ _ _ _ C b Hb) as (a' & Ha & E'); [lia|congruence].
Qed.

Lemma fc_inj a1 a2 : wf a1 -> wf a2 -> enc a1 [] = enc a2 [] -> a1 = a2.
Proof.
  intros H1 H2 E. pose proof (fc_roundtrip _ _ _ _ C a1 [] H1) as R1.
  pose proof (fc_roundtrip _ _ _ _ C a2 [] H2) as R2. rewrite E in R1. congruence.
Qed.
End Laws.

(** ** Total decoders

    What a decoder of a whole structure promises on arbitrary octets: it
    returns a value satisfying [P] and has only consumed from the front of the
    buffer, or it reports [Incomplete]; it never panics and has no other
    failure. *)
Definition dec_total {A} (m : Dec A) (P : A -> Prop) : Prop := ∀ b, octets b ->
  match m b with
  | (Ok a, b') => P a /\ b' `suffix_of` b
  | (Err (Incomplete n h), _) => (h < n)%nat
  | _ => False
  end.

Lemma octets_suffix b b' : b' `suffix_of` b -> octets b -> octets b'.
Proof. intros [c ->] H. by apply octets_app in H as [_ ?]. Qed.

Lemma dec_total_ret {A} (a : A) (P : A -> Prop) : P a -> dec_total (mret a) P.
Proof. intros H b _. simpl. done. Qed.

Lemma dec_total_bind {A B} (m : Dec A) (k : A -> Dec B) P Q :
  dec_total m P -> (∀ a, P a -> dec_total (k a) Q) -> dec_total (m ≫= k) Q.
Proof.
  intros Hm Hk b Hb. specialize (Hm b Hb). unfold mbind, Dec_bind.
  destruct (m b) as [[a|e|] b'].
  - destruct Hm as [Ha Hs]. specialize (Hk a Ha b' (octets_suffix _ _ Hs Hb)).
    destruct (k a b') as [[]]; naive_solver (by etrans).
  - done.
  - done.
Qed.

Lemma dec_total_weaken {A} (m : Dec A) (P Q : A -> Prop) :
  dec_total m P -> (∀ a, P a -> Q a) -> dec_total m Q.
Proof. intros Hm HPQ b Hb. specialize (Hm b Hb). destruct (m b) as [[]]; naive_solver. Qed.

Lemma fc_total {A} len enc dec (wf : A -> Prop) :
  FixedCodec len enc dec wf -> dec_total dec wf.
Proof.
  intros C b Hb. destruct (decide (length b < len)%nat) as [Hl|Hl].
  - destruct (fc_short _ _ _ _ C b Hb Hl) as (n & h & b' & -> & Hh). done.
  - destruct (fc_long _ _ _ _ C b Hb) as (a & Ha & ->); [lia|].
    split; [done|apply suffix_drop].
Qed.

(** [ensure(buf, n)?; buf.copy_to_slice(&mut vec![0; n])]. *)
Lemma ensure_copy_total n :
  dec_total (ensure n ≫= fun _ => copy_to_slice n) (fun s => octets s /\ length s = n).
Proof.
  intros b Hb. destruct (decide (length b < n)%nat) as [Hl|Hl].
  - by erewrite dec_bind_err by (by apply ensure_short).
  - erewrite dec_bind_ok by (apply ensure_long; lia).
    rewrite copy_to_slice_spec by lia. split; [|apply suffix_drop].
    split; [by apply octets_take|]. rewrite length_take. lia.
Qed.

(** ** Decoders of a known length

    A decoder that needs exactly [len] octets: it succeeds on every longer
    buffer, leaving the rest, and reports [Incomplete] on a shorter one. *)
Definition dec_exact {A} (m : Dec A) (len : nat) : Prop := ∀ b, octets b ->
  match m b with
  | (Ok _, b') => (len <= length b)%nat /\ b' = drop len b
  | (Err (Incomplete _ _), _) => (length b < len)%nat
  | _ => False
  end.

Lemma dec_exact_ret {A} (a : A) : dec_exact (mret a) 0.
Proof. intros b _. split; [lia|by rewrite drop_0]. Qed.

Lemma dec_exact_bind {A B} (m : Dec A) (k : A -> Dec B) l1 l2 :
  dec_exact m l1 -> (∀ a, dec_exact (k a) l2) -> dec_exact (m ≫= k) (l1 + l2).
Proof.
  intros Hm Hk b Hb. specialize (Hm b Hb). unfold mbind, Dec_bind.
  destruct (m b) as [[a|[]|] b']; try done; [|lia].
  destruct Hm as [Hl ->]. specialize (Hk a (drop l1 b) (octets_drop _ _ Hb)).
  rewrite length_drop, drop_drop in Hk.
  destruct (k a (drop l1 b)) as [[|[]|] b']; try done; [|lia].
  destruct Hk. split; [lia|done].
Qed.

Lemma fc_exact {A} len enc dec (wf : A -> Prop) :
  FixedCodec len enc dec wf -> dec_exact dec len.
Proof.
  intros C b Hb. destruct (decide (length b < len)%nat) as [Hl|Hl].
  - by destruct (fc_short _ _ _ _ C b Hb Hl) as (n & h & b' & -> & Hh).
  - destruct (fc_long _ _ _ _ C b Hb) as (a & Ha & ->); [lia|]. split; [lia|done].
Qed.

(** ** Word codecs *)
Lemma u16_codec : FixedCodec 2 put_u16_le (ensure 2 ≫= fun _ => get_u16_le) is_u16.
Proof.
  apply (word_codec 2 _ _ (le_split 2) le_join); intros; autorewrite with buf.
  - done.
  - apply length_le_split.
  - apply octets_le_split.
  - destruct b as [|x [|y [|]]]; try done. simpl app. by autorewrite with buf.
  - rewrite le_join_split. unfold is_u16 in *. apply Z.mod_small. lia.
  - pose proof (le_join_bound b) as Hb. rewrite H0 in Hb. unfold is_u16. lia.
Qed.

Lemma i16_codec : FixedCodec 2 put_i16_le (ensure 2 ≫= fun _ => get_i16_le) is_i16.
Proof.
  apply (word_codec 2 _ _ (le_split 2) (fun b => as_i16 (le_join b))); intros; autorewrite with buf.
  - done.
  - apply length_le_split.
  - apply octets_le_split.
  - destruct b as [|x [|y [|]]]; try done. simpl app. by autorewrite with buf.
  - rewrite le_join_split. unfold is_i16, as_i16 in *. change (256 ^ Z.of_nat 2) with 65536. lia.
  - unfold is_i16, as_i16. lia.
Qed.

Lemma i32_codec : FixedCodec 4 put_i32_le (ensure 4 ≫= fun _ => get_i32_le) is_i32.
Proof.
  apply (word_codec 4 _ _ (le_split 4) (fun b => as_i32 (le_join b))); intros; autorewrite with buf.
  - done.
  - apply length_le_split.
  - apply octets_le_split.
  - destruct b as [|x [|y [|z [|w [|]]]]]; try done. simpl app. by autorewrite with buf.
  - rewrite le_join_split. unfold is_i32, as_i32 in *. change (256 ^ Z.of_nat 4) with 4294967296. lia.
  - unfold is_i32, as_i32. lia.
Qed.

(** An [f32] is carried as its bit pattern. *)
Lemma f32_codec : FixedCodec 4 put_f32_le (ensure 4 ≫= fun _ => get_f32_le) is_u32.
Proof.
  apply (word_codec 4 _ _ (le_split 4) le_join); intros; autorewrite with buf.
  - done.
  - apply length_le_split.
  - apply octets_le_split.
  - destruct b as [|x [|y [|z [|w [|]]]]]; try done. simpl app. by autorewrite with buf.
  - rewrite le_join_split. unfold is_u32 in *. apply Z.mod_small. lia.
  - pose proof (le_join_bound b) as Hb. rewrite H0 in Hb. unfold is_u32. lia.
Qed.

End WithBytes.

(** [destruct_buf b n]: split the first [n] octets off [b]. *)
Ltac destruct_buf b n :=
  match n with
  | O => idtac
  | S ?n' => let x := fresh "x" in let c := fresh "b" in
      destruct b as [|x c];
      [ match goal with
        | H : (_ <= length _)%nat |- _ => exfalso; apply Nat.leb_le in H; discriminate H
        | _ => simpl in *; try lia
        end
      | destruct_buf c n' ]
  end.

(** Run the reads of a decoder whose buffer starts with explicit octets. *)
Ltac run_reads :=
  repeat first
    [ erewrite dec_bind_ok by (apply ensure_long, Nat.leb_le; reflexivity)
    | erewrite dec_bind_ok by (first [apply get_u8_spec | apply get_u16_le_spec
        | apply get_i16_le_spec | apply get_i32_le_spec | apply get_f32_le_spec])
    | rewrite dec_ret_eq ].
