(* ===== verification/AsduHeader.v ===== *)
(** * ASDU header fields

    [header.rs] and [cot.rs]: the variable structure qualifier, the cause of
    transmission, the common address and the information object address, with
    the deployment-wide field widths ([AsduAddressing]). A one-field struct
    ([CommonAddress(u16)], [Ioa(u32)], [Cause(u8)]) is the integer it wraps. *)

From S2P Require Import Prelude Bytes Codec.

Abbreviation CommonAddress := Z.
Abbreviation Ioa := Z.
Abbreviation Cause := Z.

(** ** Variable structure qualifier *)

(** header.rs 16-24, Vsq. *)
Record Vsq := mkVsq { vsq_sequence : bool; vsq_count : Z }.

(** header.rs 27-27, Vsq::LEN. *)
Definition Vsq_LEN : nat := 1.
(** header.rs 28-28, Vsq::SQ. *)
Definition Vsq_SQ : Z := 0x80.
(** header.rs 29-29, Vsq::COUNT_MASK. *)
Definition Vsq_COUNT_MASK : Z := 0x7F.
(** header.rs 32-37, Vsq::single. *)
Definition Vsq_single (count : Z) : Vsq := mkVsq false count.
(** header.rs 40-45, Vsq::sequence. *)
Definition Vsq_sequence (count : Z) : Vsq := mkVsq true count.

(** ** Addressing widths *)

(** header.rs 94-100, CotSize. *)
Inductive CotSize := CotOne | CotTwo.
(** header.rs 104-108, CaSize. *)
Inductive CaSize := CaOne | CaTwo.
(** header.rs 112-117, IoaSize. *)
Inductive IoaSize := IoaOne | IoaTwo | IoaThree.
(** header.rs 122-126, AsduAddressing. *)
Record AsduAddressing := mkAddressing {
  cot_size : CotSize; ca_size : CaSize; ioa_size : IoaSize }.
(** header.rs 130-134, AsduAddressing::IEC104. *)
Definition IEC104 : AsduAddressing := mkAddressing CotTwo CaTwo IoaThree.
(** header.rs 138-142, AsduAddressing::IEC101_DEFAULT. *)
Definition IEC101_DEFAULT : AsduAddressing := mkAddressing CotTwo CaTwo IoaTwo.

(** ** Cause of transmission *)

(** cot.rs 69-78, Cot. *)
Record Cot := mkCot {
  cot_cause : Cause; cot_negative : bool; cot_test : bool; cot_originator : Z }.

(** cot.rs 38-38, Cause::SPONTANEOUS. *)
Definition SPONTANEOUS : Cause := 3.
(** cot.rs 40-40, Cause::REQUEST. *)
Definition REQUEST : Cause := 5.
(** cot.rs 41-41, Cause::ACTIVATION. *)
Definition ACTIVATION : Cause := 6.
(** cot.rs 42-42, Cause::ACTIVATION_CON. *)
Definition ACTIVATION_CON : Cause := 7.
(** cot.rs 45-45, Cause::ACTIVATION_TERMINATION. *)
Definition ACTIVATION_TERMINATION : Cause := 10.
(** cot.rs 48-48, Cause::FILE_TRANSFER. *)
Definition FILE_TRANSFER : Cause := 13.
(** cot.rs 50-50, Cause::INTERROGATED_GENERAL. *)
Definition INTERROGATED_GENERAL : Cause := 20.
(** cot.rs 52-54, Cause::interrogated_group. *)
Definition interrogated_group (n : Z) : Result Cause :=
  if decide (20 + n < 256) then Ok (20 + n) else Panic.
(** cot.rs 58-60, Cause::requested_counter_group. *)
Definition requested_counter_group (n : Z) : Result Cause :=
  if decide (37 + n < 256) then Ok (37 + n) else Panic.

(** cot.rs 82-82, Cot::LEN_1. *)
Definition Cot_LEN_1 : nat := 1.
(** cot.rs 85-85, Cot::LEN_2. *)
Definition Cot_LEN_2 : nat := 2.
(** cot.rs 87-87, Cot::CAUSE_MASK. *)
Definition Cot_CAUSE_MASK : Z := 0x3F.
(** cot.rs 88-88, Cot::PN. *)
Definition Cot_PN : Z := 0x40.
(** cot.rs 89-89, Cot::T. *)
Definition Cot_T : Z := 0x80.

(** cot.rs 97-104, Cot::with. *)
Definition Cot_with (cause : Cause) : Cot := mkCot cause false false 0.
(** cot.rs 92-94, Cot::act. *)
Definition Cot_act : Cot := Cot_with ACTIVATION.
(** cot.rs 127-130, Cot::with_negative. *)
Definition Cot_with_negative (negative : bool) (c : Cot) : Cot :=
  mkCot (cot_cause c) negative (cot_test c) (cot_originator c).
(** cot.rs 133-136, Cot::with_test. *)
Definition Cot_with_test (test : bool) (c : Cot) : Cot :=
  mkCot (cot_cause c) (cot_negative c) test (cot_originator c).
(** cot.rs 139-142, Cot::with_originator. *)
Definition Cot_with_originator (originator : Z) (c : Cot) : Cot :=
  mkCot (cot_cause c) (cot_negative c) (cot_test c) originator.

#[global] Arguments Cot_with_originator : simpl never.

(** cot.rs 144-153, Cot::first_octet. *)
Definition Cot_first_octet (c : Cot) : Z :=
  let b := Z.land (cot_cause c) Cot_CAUSE_MASK in
  let b := or_if (cot_negative c) Cot_PN b in
  or_if (cot_test c) Cot_T b.

(** cot.rs 155-162, Cot::parse_first_octet. *)
Definition Cot_parse_first_octet (b : Z) : Cot :=
  mkCot (Z.land b Cot_CAUSE_MASK) (has_bits b Cot_PN) (has_bits b Cot_T) 0.

(** header.rs 144-149, AsduAddressing::cot_len. *)
Definition cot_len (a : AsduAddressing) : nat :=
  match cot_size a with CotOne => Cot_LEN_1 | CotTwo => Cot_LEN_2 end.
(** header.rs 151-156, AsduAddressing::ca_len. *)
Definition ca_len (a : AsduAddressing) : nat :=
  match ca_size a with CaOne => 1 | CaTwo => 2 end.

#[export] Instance Vsq_eq_dec : EqDecision Vsq.
Proof. solve_decision. Defined.
#[export] Instance Cot_eq_dec : EqDecision Cot.
Proof. solve_decision. Defined.
#[export] Instance CotSize_eq_dec : EqDecision CotSize.
Proof. solve_decision. Defined.
#[export] Instance CaSize_eq_dec : EqDecision CaSize.
Proof. solve_decision. Defined.
#[export] Instance IoaSize_eq_dec : EqDecision IoaSize.
Proof. solve_decision. Defined.
#[export] Instance AsduAddressing_eq_dec : EqDecision AsduAddressing.
Proof. solve_decision. Defined.

Section WithBytes.
Context `{BC : BytesCrate}.

(** header.rs 57-63, Vsq::encode. *)
Definition Vsq_encode (v : Vsq) (buf : bytes) : bytes :=
  let b := Z.land (vsq_count v) Vsq_COUNT_MASK in
  let b := or_if (vsq_sequence v) Vsq_SQ b in
  put_u8 b buf.

(** header.rs 65-77, Vsq::decode. *)
Definition Vsq_decode : Dec Vsq :=
  ensure Vsq_LEN ≫= fun _ =>
  get_u8 ≫= fun b =>
  mret (mkVsq (has_bits b Vsq_SQ) (Z.land b Vsq_COUNT_MASK)).

(** cot.rs 165-167, Cot::encode_1. *)
Definition Cot_encode_1 (c : Cot) (buf : bytes) : bytes := put_u8 (Cot_first_octet c) buf.
(** cot.rs 170-173, Cot::encode_2. *)
Definition Cot_encode_2 (c : Cot) (buf : bytes) : bytes :=
  put_u8 (cot_originator c) (put_u8 (Cot_first_octet c) buf).
(** cot.rs 176-184, Cot::decode_1. *)
Definition Cot_decode_1 : Dec Cot :=
  ensure Cot_LEN_1 ≫= fun _ => get_u8 ≫= fun b => mret (Cot_parse_first_octet b).
(** cot.rs 187-199, Cot::decode_2. *)
Definition Cot_decode_2 : Dec Cot :=
  ensure Cot_LEN_2 ≫= fun _ =>
  get_u8 ≫= fun first =>
  get_u8 ≫= fun originator =>
  mret (Cot_with_originator originator (Cot_parse_first_octet first)).

(** header.rs 159-164, encode_ca. *)
Definition encode_ca (size : CaSize) (ca : CommonAddress) (buf : bytes) : bytes :=
  match size with
  | CaOne => put_u8 (as_u8 ca) buf
  | CaTwo => put_u16_le ca buf
  end.

(** header.rs 166-181, decode_ca. *)
Definition decode_ca (size : CaSize) : Dec CommonAddress :=
  ensure (match size with CaOne => 1 | CaTwo => 2 end) ≫= fun _ =>
  match size with
  | CaOne => get_u8
  | CaTwo => get_u16_le
  end.

(** header.rs 183-194, encode_ioa. *)
Definition encode_ioa (size : IoaSize) (ioa : Ioa) (buf : bytes) : bytes :=
  match size with
  | IoaOne => put_u8 (as_u8 ioa) buf
  | IoaTwo => put_u16_le (as_u16 ioa) buf
  | IoaThree =>
      put_u8 (as_u8 (Z.shiftr ioa 16))
        (put_u8 (as_u8 (Z.shiftr ioa 8)) (put_u8 (as_u8 ioa) buf))
  end.

(** The octet count [decode_ioa] asks for. *)
Definition ioa_len (size : IoaSize) : nat :=
  match size with IoaOne => 1 | IoaTwo => 2 | IoaThree => 3 end.

(** header.rs 196-218, decode_ioa. *)
Definition decode_ioa (size : IoaSize) : Dec Ioa :=
  ensure (ioa_len size) ≫= fun _ =>
  match size with
  | IoaOne => get_u8
  | IoaTwo => get_u16_le
  | IoaThree =>
      get_u8 ≫= fun b0 => get_u8 ≫= fun b1 => get_u8 ≫= fun b2 =>
      mret (Z.lor (Z.lor b0 (Z.shiftl b1 8)) (Z.shiftl b2 16))
  end.

(** ** The values each width can carry *)
Definition vsq_ok (v : Vsq) : Prop := 0 <= vsq_count v < 128.
Definition cot_ok (size : CotSize) (c : Cot) : Prop :=
  0 <= cot_cause c < 64 /\
  match size with CotOne => cot_originator c = 0 | CotTwo => is_u8 (cot_originator c) end.
Definition ca_ok (size : CaSize) (ca : CommonAddress) : Prop :=
  match size with CaOne => is_u8 ca | CaTwo => is_u16 ca end.
Definition ioa_ok (size : IoaSize) (ioa : Ioa) : Prop :=
  match size with IoaOne => is_u8 ioa | IoaTwo => is_u16 ioa | IoaThree => is_u24 ioa end.

Lemma Vsq_codec : FixedCodec Vsq_LEN Vsq_encode Vsq_decode vsq_ok.
Proof.
  apply (octet_codec (fun v => or_if (vsq_sequence v) Vsq_SQ (Z.land (vsq_count v) Vsq_COUNT_MASK))
           (fun b => mkVsq (has_bits b Vsq_SQ) (Z.land b Vsq_COUNT_MASK))); unfold vsq_ok.
  - intros [[] c] H; simpl in *; unfold is_u8; enum c.
  - intros [[] c] H; simpl in *; enum c.
  - intros b H; simpl; unfold is_u8 in H; enum b.
Qed.

Lemma Cot_parse_print c : 0 <= cot_cause c < 64 ->
  Cot_parse_first_octet (Cot_first_octet c) = Cot_with_originator 0 c.
Proof. destruct c as [c [] [] o]; simpl; intros H; unfold Cot_with_originator; simpl; enum c. Qed.

Lemma Cot_first_octet_u8 c : 0 <= cot_cause c -> is_u8 (Cot_first_octet c).
Proof.
  intros H. unfold Cot_first_octet, Cot_CAUSE_MASK.
  replace (Z.land (cot_cause c) 0x3F) with (cot_cause c mod 64)
    by (change 0x3F with (Z.ones 6); by rewrite Z.land_ones).
  assert (H' : 0 <= cot_cause c mod 64 < 64) by lia. clear H.
  generalize dependent (cot_cause c mod 64). intros z H.
  destruct (cot_negative c), (cot_test c); unfold is_u8; enum z.
Qed.

Lemma Cot_parse_ok b : is_u8 b -> 0 <= cot_cause (Cot_parse_first_octet b) < 64.
Proof. simpl. intros H. unfold is_u8 in H. enum b. Qed.

Lemma Cot_codec_1 : FixedCodec Cot_LEN_1 Cot_encode_1 Cot_decode_1 (cot_ok CotOne).
Proof.
  apply (octet_codec Cot_first_octet Cot_parse_first_octet); unfold cot_ok.
  - intros c [H _]. apply Cot_first_octet_u8. lia.
  - intros c [H Ho]. rewrite Cot_parse_print by done. destruct c; simpl in *. by subst.
  - intros b Hb. split; [by apply Cot_parse_ok|done].
Qed.

Lemma Cot_codec_2 : FixedCodec Cot_LEN_2 Cot_encode_2 Cot_decode_2 (cot_ok CotTwo).
Proof.
  unfold Cot_encode_2, Cot_decode_2. split; intros; autorewrite with buf; simpl.
  - by rewrite <- app_assoc.
  - done.
  - destruct H as [? ?]. rewrite !octets_cons.
    split_and!; [apply Cot_first_octet_u8; lia|done|apply octets_nil].
  - destruct H as [? ?]. run_reads. rewrite Cot_parse_print by done. by destruct a.
  - erewrite dec_bind_err by (by apply ensure_short). eauto 10.
  - destruct_buf b 2%nat. run_reads. rewrite !octets_cons in H.
    destruct H as (? & ? & _). eexists; split; [|reflexivity].
    split; [by apply Cot_parse_ok|done].
Qed.

Lemma ca_codec size :
  FixedCodec (match size with CaOne => 1 | CaTwo => 2 end)%nat
    (encode_ca size) (decode_ca size) (ca_ok size).
Proof.
  destruct size; [|apply u16_codec].
  unfold encode_ca, decode_ca, ca_ok. split; intros; autorewrite with buf; simpl.
  - done.
  - done.
  - apply octets_cons. unfold is_u8, as_u8 in *. split; [lia|apply octets_nil].
  - run_reads. autorewrite with buf. unfold is_u8, as_u8 in *. by rewrite Z.mod_small.
  - erewrite dec_bind_err by (by apply ensure_short). eauto 10.
  - destruct_buf b 1%nat. run_reads. autorewrite with buf.
    apply octets_cons in H as [? _]. eexists; split; [done|reflexivity].
Qed.

Lemma ioa3_join b0 b1 b2 : is_u8 b0 -> is_u8 b1 -> is_u8 b2 ->
  Z.lor (Z.lor b0 (Z.shiftl b1 8)) (Z.shiftl b2 16) = b0 + 256 * b1 + 65536 * b2.
Proof.
  unfold is_u8. intros. rewrite (lor_shiftl b0) by lia.
  rewrite lor_shiftl by lia. lia.
Qed.

Lemma as_u8_u8 z : is_u8 (as_u8 z).
Proof. unfold is_u8, as_u8. lia. Qed.

Lemma ioa_codec size : FixedCodec (ioa_len size) (encode_ioa size) (decode_ioa size) (ioa_ok size).
Proof.
  unfold encode_ioa, decode_ioa, ioa_ok.
  destruct size; split; intros; autorewrite with buf; simpl;
    try (by rewrite <- ?app_assoc); try (by rewrite length_le_split).
  all: try (erewrite dec_bind_err by (by apply ensure_short); eauto 10; fail).
  - apply octets_cons. eauto using as_u8_u8, octets_nil.
  - run_reads. autorewrite with buf. unfold is_u8, as_u8 in *. by rewrite Z.mod_small.
  - destruct_buf b 1%nat. run_reads. autorewrite with buf.
    apply octets_cons in H as [? _]. eexists; split; [done|reflexivity].
  - apply octets_le_split.
  - run_reads. autorewrite with buf. do 2 f_equal. unfold is_u16, as_u16, le_join in *. lia.
  - destruct_buf b 2%nat. run_reads. autorewrite with buf. rewrite !octets_cons in H.
    destruct H as (? & ? & _). eexists; split; [|reflexivity].
    unfold is_u8, is_u16, le_join in *. lia.
  - rewrite !octets_cons. eauto using as_u8_u8, octets_nil.
  - run_reads. rewrite ioa3_join by apply as_u8_u8. do 2 f_equal.
    unfold is_u24, as_u8 in *. rewrite !Z.shiftr_div_pow2 by lia. lia.
  - destruct_buf b 3%nat. run_reads. rewrite !octets_cons in H.
    destruct H as (? & ? & ? & _). eexists; split; [|reflexivity].
    rewrite ioa3_join by done. unfold is_u8, is_u24 in *. lia.
Qed.

End WithBytes.
