(* ===== verification/InfoElements.v ===== *)
(** * Information elements

    [asdu/ie.rs]: the typed elements of an information object, each with its
    [encode] and [decode] and the proof that the two form a [FixedCodec].
    [InfoElement] is the interface the adapter traits [IeWrite] and [IeRead]
    of [types/monitor.rs] give the payload types; its law is what the
    information-object lists are verified against. *)

From S2P Require Import Prelude Bytes Codec AsduHeader.

(** ** Data *)

(** ie.rs 17-26, Quality. *)
Record Quality := mkQuality {
  q_blocked : bool; q_substituted : bool; q_not_topical : bool; q_invalid : bool }.

(** ie.rs 29-32, Quality::BL. *)
Definition Quality_BL : Z := 0x10.
Definition Quality_SB : Z := 0x20.
Definition Quality_NT : Z := 0x40.
Definition Quality_IV : Z := 0x80.

(** ie.rs 34-49, Quality::to_bits. *)
Definition Quality_to_bits (q : Quality) : Z :=
  let b := 0 in
  let b := or_if (q_blocked q) Quality_BL b in
  let b := or_if (q_substituted q) Quality_SB b in
  let b := or_if (q_not_topical q) Quality_NT b in
  or_if (q_invalid q) Quality_IV b.

(** ie.rs 51-58, Quality::from_bits. *)
Definition Quality_from_bits (b : Z) : Quality :=
  mkQuality (has_bits b Quality_BL) (has_bits b Quality_SB)
            (has_bits b Quality_NT) (has_bits b Quality_IV).

(** ie.rs 67-71, Siq. *)
Record Siq := mkSiq { siq_on : bool; siq_quality : Quality }.

(** ie.rs 100-110, DoublePoint. *)
Inductive DoublePoint := Intermediate | DpOff | DpOn | Indeterminate.

(** ie.rs 113-120, DoublePoint::to_bits. *)
Definition DoublePoint_to_bits (d : DoublePoint) : Z :=
  match d with Intermediate => 0 | DpOff => 1 | DpOn => 2 | Indeterminate => 3 end.

(** ie.rs 122-129, DoublePoint::from_bits. *)
Definition DoublePoint_from_bits (b : Z) : DoublePoint :=
  match Z.land b 3 with 0 => Intermediate | 1 => DpOff | 2 => DpOn | _ => Indeterminate end.

(** ie.rs 134-137, Diq. *)
Record Diq := mkDiq { diq_state : DoublePoint; diq_quality : Quality }.
(** ie.rs 162-166, Qds. *)
Record Qds := mkQds { qds_overflow : bool; qds_quality : Quality }.
(** ie.rs 196-196, Nva. *)
Record Nva := mkNva { nva_0 : Z }.
(** ie.rs 228-228, Sva. *)
Record Sva := mkSva { sva_0 : Z }.
(** ie.rs 249-249, R32. *)
Record R32 := mkR32 { r32_0 : Z }.

(** ie.rs 270-280, Bcr. *)
Record Bcr := mkBcr {
  bcr_value : Z; bcr_sequence : Z; bcr_carry : bool; bcr_adjusted : bool; bcr_invalid : bool }.

(** ie.rs 324-331, Cp24Time2a. *)
Record Cp24Time2a := mkCp24 { cp24_ms : Z; cp24_minute : Z; cp24_invalid : bool }.

(** ie.rs 368-389, Cp56Time2a. *)
Record Cp56Time2a := mkCp56 {
  cp56_ms : Z; cp56_minute : Z; cp56_hour : Z; cp56_day : Z; cp56_day_of_week : Z;
  cp56_month : Z; cp56_year : Z; cp56_summer_time : bool; cp56_invalid : bool;
  cp56_genuine : bool }.

#[export] Instance Quality_eq_dec : EqDecision Quality.
Proof. solve_decision. Defined.
#[export] Instance Siq_eq_dec : EqDecision Siq.
Proof. solve_decision. Defined.
#[export] Instance DoublePoint_eq_dec : EqDecision DoublePoint.
Proof. solve_decision. Defined.
#[export] Instance Diq_eq_dec : EqDecision Diq.
Proof. solve_decision. Defined.
#[export] Instance Qds_eq_dec : EqDecision Qds.
Proof. solve_decision. Defined.
#[export] Instance Nva_eq_dec : EqDecision Nva.
Proof. solve_decision. Defined.
#[export] Instance Sva_eq_dec : EqDecision Sva.
Proof. solve_decision. Defined.
#[export] Instance R32_eq_dec : EqDecision R32.
Proof. solve_decision. Defined.
#[export] Instance Bcr_eq_dec : EqDecision Bcr.
Proof. solve_decision. Defined.
#[export] Instance Cp24_eq_dec : EqDecision Cp24Time2a.
Proof. solve_decision. Defined.
#[export] Instance Cp56_eq_dec : EqDecision Cp56Time2a.
Proof. solve_decision. Defined.

Definition Siq_LEN : nat := 1.
Definition Diq_LEN : nat := 1.
Definition Qds_LEN : nat := 1.
(** ie.rs 170-170, Qds::OV. *)
Definition Qds_OV : Z := 0x01.
Definition Nva_LEN : nat := 2.
Definition Sva_LEN : nat := 2.
Definition R32_LEN : nat := 4.
(** ie.rs 283-287, Bcr::LEN. *)
Definition Bcr_LEN : nat := 5.
Definition Bcr_CY : Z := 0x20.
Definition Bcr_CA : Z := 0x40.
Definition Bcr_IV : Z := 0x80.
Definition Bcr_SQ_MASK : Z := 0x1F.
Definition Cp24_LEN : nat := 3.
Definition Cp56_LEN : nat := 7.

(** ** Operations *)
Section WithBytes.
Context `{BC : BytesCrate}.

(** ie.rs 76-82, Siq::encode. *)
Definition Siq_encode (s : Siq) (buf : bytes) : bytes :=
  let b := Quality_to_bits (siq_quality s) in
  let b := or_if (siq_on s) 0x01 b in
  put_u8 b buf.

(** ie.rs 84-91, Siq::decode. *)
Definition Siq_decode : Dec Siq :=
  ensure Siq_LEN ≫= fun _ => get_u8 ≫= fun b =>
  mret (mkSiq (has_bits b 0x01) (Quality_from_bits b)).

(** ie.rs 142-144, Diq::encode. *)
Definition Diq_encode (d : Diq) (buf : bytes) : bytes :=
  put_u8 (Z.lor (Quality_to_bits (diq_quality d)) (DoublePoint_to_bits (diq_state d))) buf.

(** ie.rs 146-153, Diq::decode. *)
Definition Diq_decode : Dec Diq :=
  ensure Diq_LEN ≫= fun _ => get_u8 ≫= fun b =>
  mret (mkDiq (DoublePoint_from_bits b) (Quality_from_bits b)).

(** ie.rs 172-178, Qds::encode. *)
Definition Qds_encode (q : Qds) (buf : bytes) : bytes :=
  let b := Quality_to_bits (qds_quality q) in
  let b := or_if (qds_overflow q) Qds_OV b in
  put_u8 b buf.

(** ie.rs 180-187, Qds::decode. *)
Definition Qds_decode : Dec Qds :=
  ensure Qds_LEN ≫= fun _ => get_u8 ≫= fun b =>
  mret (mkQds (has_bits b Qds_OV) (Quality_from_bits b)).

(** ie.rs 212-214, Nva::encode. *)
Definition Nva_encode (v : Nva) (buf : bytes) : bytes := put_i16_le (nva_0 v) buf.
(** ie.rs 216-219, Nva::decode. *)
Definition Nva_decode : Dec Nva :=
  ensure Nva_LEN ≫= fun _ => get_i16_le ≫= fun z => mret (mkNva z).
(** ie.rs 233-235, Sva::encode. *)
Definition Sva_encode (v : Sva) (buf : bytes) : bytes := put_i16_le (sva_0 v) buf.
(** ie.rs 237-240, Sva::decode. *)
Definition Sva_decode : Dec Sva :=
  ensure Sva_LEN ≫= fun _ => get_i16_le ≫= fun z => mret (mkSva z).
(** ie.rs 254-256, R32::encode. *)
Definition R32_encode (v : R32) (buf : bytes) : bytes := put_f32_le (r32_0 v) buf.
(** ie.rs 258-261, R32::decode. *)
Definition R32_decode : Dec R32 :=
  ensure R32_LEN ≫= fun _ => get_f32_le ≫= fun z => mret (mkR32 z).

(** ie.rs 289-302, Bcr::encode. *)
Definition Bcr_encode (c : Bcr) (buf : bytes) : bytes :=
  let buf := put_i32_le (bcr_value c) buf in
  let q := Z.land (bcr_sequence c) Bcr_SQ_MASK in
  let q := or_if (bcr_carry c) Bcr_CY q in
  let q := or_if (bcr_adjusted c) Bcr_CA q in
  let q := or_if (bcr_invalid c) Bcr_IV q in
  put_u8 q buf.

(** ie.rs 304-315, Bcr::decode. *)
Definition Bcr_decode : Dec Bcr :=
  ensure Bcr_LEN ≫= fun _ =>
  get_i32_le ≫= fun value =>
  get_u8 ≫= fun q =>
  mret (mkBcr value (Z.land q Bcr_SQ_MASK) (has_bits q Bcr_CY)
          (has_bits q Bcr_CA) (has_bits q Bcr_IV)).

(** ie.rs 336-343, Cp24Time2a::encode. *)
Definition Cp24_encode (t : Cp24Time2a) (buf : bytes) : bytes :=
  let buf := put_u16_le (cp24_ms t) buf in
  let b := Z.land (cp24_minute t) 0x3F in
  let b := or_if (cp24_invalid t) 0x80 b in
  put_u8 b buf.

(** ie.rs 345-354, Cp24Time2a::decode. *)
Definition Cp24_decode : Dec Cp24Time2a :=
  ensure Cp24_LEN ≫= fun _ =>
  get_u16_le ≫= fun milliseconds =>
  get_u8 ≫= fun b =>
  mret (mkCp24 milliseconds (Z.land b 0x3F) (has_bits b 0x80)).

(** ie.rs 394-413, Cp56Time2a::encode. *)
Definition Cp56_encode (t : Cp56Time2a) (buf : bytes) : bytes :=
  let buf := put_u16_le (cp56_ms t) buf in
  let b := Z.land (cp56_minute t) 0x3F in
  let b := or_if (cp56_genuine t) 0x40 b in
  let b := or_if (cp56_invalid t) 0x80 b in
  let buf := put_u8 b buf in
  let h := Z.land (cp56_hour t) 0x1F in
  let h := or_if (cp56_summer_time t) 0x80 h in
  let buf := put_u8 h buf in
  let d := Z.lor (Z.land (cp56_day t) 0x1F)
                 (as_u8 (Z.shiftl (Z.land (cp56_day_of_week t) 0x07) 5)) in
  let buf := put_u8 d buf in
  let buf := put_u8 (Z.land (cp56_month t) 0x0F) buf in
  put_u8 (Z.land (cp56_year t) 0x7F) buf.

(** ie.rs 415-435, Cp56Time2a::decode. *)
Definition Cp56_decode : Dec Cp56Time2a :=
  ensure Cp56_LEN ≫= fun _ =>
  get_u16_le ≫= fun milliseconds =>
  get_u8 ≫= fun min_b =>
  get_u8 ≫= fun hour_b =>
  get_u8 ≫= fun day_b =>
  get_u8 ≫= fun month_b =>
  get_u8 ≫= fun year_b =>
  mret {| cp56_ms := milliseconds;
          cp56_minute := Z.land min_b 0x3F;
          cp56_genuine := has_bits min_b 0x40;
          cp56_invalid := has_bits min_b 0x80;
          cp56_hour := Z.land hour_b 0x1F;
          cp56_summer_time := has_bits hour_b 0x80;
          cp56_day := Z.land day_b 0x1F;
          cp56_day_of_week := Z.land (Z.shiftr day_b 5) 0x07;
          cp56_month := Z.land month_b 0x0F;
          cp56_year := Z.land year_b 0x7F |}.

(** ** The values the wire can carry *)
Definition Nva_wf (v : Nva) : Prop := is_i16 (nva_0 v).
Definition Sva_wf (v : Sva) : Prop := is_i16 (sva_0 v).
Definition R32_wf (v : R32) : Prop := is_u32 (r32_0 v).
Definition Bcr_wf (c : Bcr) : Prop := is_i32 (bcr_value c) /\ 0 <= bcr_sequence c < 32.
Definition Cp24_wf (t : Cp24Time2a) : Prop :=
  is_u16 (cp24_ms t) /\ 0 <= cp24_minute t < 64.
Definition Cp56_wf (t : Cp56Time2a) : Prop :=
  is_u16 (cp56_ms t) /\ 0 <= cp56_minute t < 64 /\ 0 <= cp56_hour t < 32 /\
  0 <= cp56_day t < 32 /\ 0 <= cp56_day_of_week t < 8 /\
  0 <= cp56_month t < 16 /\ 0 <= cp56_year t < 128.

(** Every bool of an element, case by case. *)
Ltac elem_cases :=
  repeat match goal with
  | q : Quality |- _ => destruct q
  | s : Siq |- _ => destruct s
  | s : Diq |- _ => destruct s
  | s : Qds |- _ => destruct s
  | d : DoublePoint |- _ => destruct d
  | b : bool |- _ => destruct b
  end.

Lemma Siq_codec : FixedCodec Siq_LEN Siq_encode Siq_decode (fun _ => True).
Proof.
  apply (octet_codec (fun s => or_if (siq_on s) 0x01 (Quality_to_bits (siq_quality s)))
           (fun b => mkSiq (has_bits b 0x01) (Quality_from_bits b)));
    [intros; elem_cases; vm_compute; done | intros; by elem_cases | done].
Qed.

Lemma Diq_codec : FixedCodec Diq_LEN Diq_encode Diq_decode (fun _ => True).
Proof.
  apply (octet_codec
           (fun d => Z.lor (Quality_to_bits (diq_quality d)) (DoublePoint_to_bits (diq_state d)))
           (fun b => mkDiq (DoublePoint_from_bits b) (Quality_from_bits b)));
    [intros; elem_cases; vm_compute; done | intros; by elem_cases | done].
Qed.

Lemma Qds_codec : FixedCodec Qds_LEN Qds_encode Qds_decode (fun _ => True).
Proof.
  apply (octet_codec (fun q => or_if (qds_overflow q) Qds_OV (Quality_to_bits (qds_quality q)))
           (fun b => mkQds (has_bits b Qds_OV) (Quality_from_bits b)));
    [intros; elem_cases; vm_compute; done | intros; by elem_cases | done].
Qed.

Lemma dec_bind_assoc {A B C} (m : Dec A) (f : A -> Dec B) (g : B -> Dec C) b :
  ((m ≫= f) ≫= g) b = (m ≫= fun a => f a ≫= g) b.
Proof. unfold mbind, Dec_bind. by destruct (m b) as [[] ?]. Qed.

(** A word wrapped in a one-field struct. *)
Lemma newtype_codec {A} len (proj : A -> Z) (mk : Z -> A) enc (get : Dec Z) (wf : Z -> Prop) :
  (∀ a, mk (proj a) = a) -> (∀ z, proj (mk z) = z) ->
  FixedCodec len enc (ensure len ≫= fun _ => get) wf ->
  FixedCodec len (fun a => enc (proj a)) (ensure len ≫= fun _ => get ≫= fun z => mret (mk z))
    (fun a => wf (proj a)).
Proof.
  intros H1 H2. apply (iso_codec len mk proj).
  - done.
  - intros b. by rewrite dec_bind_assoc.
  - done.
  - done.
  - intros z. by rewrite H2.
Qed.

Lemma Nva_codec : FixedCodec Nva_LEN Nva_encode Nva_decode Nva_wf.
Proof. apply (newtype_codec 2 nva_0 mkNva); [by intros []|done|apply i16_codec]. Qed.
Lemma Sva_codec : FixedCodec Sva_LEN Sva_encode Sva_decode Sva_wf.
Proof. apply (newtype_codec 2 sva_0 mkSva); [by intros []|done|apply i16_codec]. Qed.
Lemma R32_codec : FixedCodec R32_LEN R32_encode R32_decode R32_wf.
Proof. apply (newtype_codec 4 r32_0 mkR32); [by intros []|done|apply f32_codec]. Qed.

(** The codec of one octet read after [ensure] has been done. *)
Definition octet_get {A} (g : Z -> A) : Dec A := ensure 1 ≫= fun _ => get_u8 ≫= fun b => mret (g b).

Lemma octet_get_cons {A} (g : Z -> A) x b : octet_get g (x :: b) = (Ok (g x), b).
Proof. unfold octet_get. by run_reads. Qed.

(** A word followed by one octet: BCR and CP24Time2a. *)
Lemma word_octet_codec {A W} len (enc : A -> bytes -> bytes) (dec : Dec A) (wf : A -> Prop)
    (ew : W -> bytes -> bytes) (gw : Dec W) (ww : W -> Prop)
    (pw : A -> W) (f : A -> Z) (mk : W -> Z -> A) :
  FixedCodec len ew (ensure len ≫= fun _ => gw) ww ->
  (∀ a buf, enc a buf = put_u8 (f a) (ew (pw a) buf)) ->
  dec = (ensure (len + 1) ≫= fun _ => gw ≫= fun w => get_u8 ≫= fun q => mret (mk w q)) ->
  (∀ a, wf a -> ww (pw a)) -> (∀ a, wf a -> is_u8 (f a)) ->
  (∀ a, wf a -> mk (pw a) (f a) = a) ->
  (∀ w q, ww w -> is_u8 q -> wf (mk w q)) ->
  FixedCodec (len + 1) enc dec wf.
Proof.
  intros HW He -> Hw Hf Hmk Hwf.
  assert (Hg : ∀ b, (len <= length b)%nat -> gw b = (ensure len ≫= fun _ => gw) b)
    by (intros; by erewrite dec_bind_ok by (by apply ensure_long)).
  split.
  - intros. rewrite !He, !put_u8_spec, (fc_append _ _ _ _ HW). by rewrite <- app_assoc.
  - intros. by rewrite He, put_u8_spec, length_app, (fc_length _ _ _ _ HW).
  - intros a Ha. rewrite He, put_u8_spec, octets_app, octets_cons.
    split_and!; [apply (fc_octets _ _ _ _ HW)| |apply octets_nil]; eauto.
  - intros a rest Ha. rewrite He, put_u8_spec, <- app_assoc.
    assert (Hl : ∀ x, length (ew (pw a) [] ++ x) = (len + length x)%nat)
      by (intros; by rewrite length_app, (fc_length _ _ _ _ HW)).
    erewrite dec_bind_ok by (apply ensure_long; rewrite Hl; simpl; lia).
    erewrite dec_bind_ok
      by (rewrite Hg by (rewrite Hl; lia); apply (fc_roundtrip _ _ _ _ HW); eauto).
    simpl. erewrite dec_bind_ok by apply get_u8_spec. by rewrite Hmk.
  - intros b _ Hl. erewrite dec_bind_err by (by apply ensure_short). eauto 10.
  - intros b Hb Hl. erewrite dec_bind_ok by (by apply ensure_long).
    destruct (fc_long _ _ _ _ HW b Hb) as (w & Hww & E); [lia|].
    erewrite dec_bind_ok by (rewrite Hg by lia; exact E).
    assert (Hd : octets (drop len b)) by (by apply octets_drop).
    destruct (drop len b) as [|q c] eqn:Ed.
    { apply (f_equal length) in Ed. rewrite length_drop in Ed. simpl in Ed. lia. }
    apply octets_cons in Hd as [Hq _].
    erewrite dec_bind_ok by apply get_u8_spec. eexists; split; [by apply Hwf|].
    rewrite <- drop_drop, Ed. simpl. by rewrite drop_0.
Qed.

Lemma Bcr_codec : FixedCodec Bcr_LEN Bcr_encode Bcr_decode Bcr_wf.
Proof.
  apply (word_octet_codec 4 _ _ _ put_i32_le get_i32_le is_i32 bcr_value
    (fun c => or_if (bcr_invalid c) Bcr_IV (or_if (bcr_adjusted c) Bcr_CA
       (or_if (bcr_carry c) Bcr_CY (Z.land (bcr_sequence c) Bcr_SQ_MASK))))
    (fun value q => mkBcr value (Z.land q Bcr_SQ_MASK) (has_bits q Bcr_CY)
       (has_bits q Bcr_CA) (has_bits q Bcr_IV)));
    [apply i32_codec | done | done | by intros ? [] | ..]; unfold Bcr_wf.
  - intros [v s c1 c2 c3] [_ H]; simpl in *. destruct c1, c2, c3; unfold is_u8; enum s.
  - intros [v s c1 c2 c3] [Hv H]; simpl in *. clear Hv. destruct c1, c2, c3; f_equal; enum s.
  - intros w q Hw Hq; simpl. split; [done|]. unfold is_u8 in Hq. clear Hw. enum q.
Qed.

Lemma Cp24_codec : FixedCodec Cp24_LEN Cp24_encode Cp24_decode Cp24_wf.
Proof.
  apply (word_octet_codec 2 _ _ _ put_u16_le get_u16_le is_u16 cp24_ms
    (fun t => or_if (cp24_invalid t) 0x80 (Z.land (cp24_minute t) 0x3F))
    (fun ms b => mkCp24 ms (Z.land b 0x3F) (has_bits b 0x80)));
    [apply u16_codec | done | done | by intros ? [] | ..]; unfold Cp24_wf.
  - intros [ms m []] [_ H]; simpl in *; unfold is_u8; enum m.
  - intros [ms m []] [Hv H]; simpl in *; clear Hv; f_equal; enum m.
  - intros w q Hw Hq; simpl. split; [done|]. unfold is_u8 in Hq. clear Hw. enum q.
Qed.

(** The bit fields of the CP56Time2a octets. *)
Lemma cp56_minute_bits m g i : 0 <= m < 64 ->
  let b := or_if i 0x80 (or_if g 0x40 (Z.land m 0x3F)) in
  is_u8 b /\ Z.land b 0x3F = m /\ has_bits b 0x40 = g /\ has_bits b 0x80 = i.
Proof. intros H. destruct g, i; unfold is_u8; enum m. Qed.

Lemma cp56_hour_bits h s : 0 <= h < 32 ->
  let b := or_if s 0x80 (Z.land h 0x1F) in
  is_u8 b /\ Z.land b 0x1F = h /\ has_bits b 0x80 = s.
Proof. intros H. destruct s; unfold is_u8; enum h. Qed.

Lemma cp56_day_bits d w : 0 <= d < 32 -> 0 <= w < 8 ->
  let b := Z.lor (Z.land d 0x1F) (as_u8 (Z.shiftl (Z.land w 0x07) 5)) in
  is_u8 b /\ Z.land b 0x1F = d /\ Z.land (Z.shiftr b 5) 0x07 = w.
Proof. intros Hd Hw. unfold is_u8. zcases Hw; enum d. Qed.

Lemma mask_u8 b m : is_u8 b -> 0 <= m < 256 -> 0 <= Z.land b m <= m.
Proof.
  intros Hb Hm. split; [apply Z.land_nonneg; unfold is_u8 in Hb; lia|].
  rewrite Z.land_comm. apply Z.ldiff_le; [lia|].
  apply Z.bits_inj'. intros n Hn. rewrite Z.ldiff_spec, Z.land_spec, Z.bits_0.
  by destruct (Z.testbit m n), (Z.testbit b n).
Qed.

Lemma Cp56_codec : FixedCodec Cp56_LEN Cp56_encode Cp56_decode Cp56_wf.
Proof.
  unfold Cp56_encode, Cp56_decode, Cp56_wf. split.
  - intros. autorewrite with buf. by rewrite <- !app_assoc.
  - intros. autorewrite with buf. by rewrite !length_app, length_le_split.
  - intros [ms m h d w mo y s i g]; cbn -[Z.land or_if as_u8]. intros (Hms & Hm & Hh & Hd & Hw & Hmo & Hy).
    autorewrite with buf. rewrite !octets_app, !octets_cons.
    destruct (cp56_minute_bits m g i Hm) as (? & _), (cp56_hour_bits h s Hh) as (? & _),
      (cp56_day_bits d w Hd Hw) as (? & _).
    split_and!; try done; try apply octets_nil; [apply octets_le_split|..]; unfold is_u8.
    + clear -Hmo. enum mo.
    + clear -Hy. enum y.
  - intros [ms m h d w mo y s i g] rest; cbn -[Z.land or_if as_u8].
    intros (Hms & Hm & Hh & Hd & Hw & Hmo & Hy).
    autorewrite with buf. change (le_split 2 ms) with [ms mod 256; ms / 256 mod 256].
    rewrite <- !app_assoc. cbn [app]. run_reads.
    destruct (cp56_minute_bits m g i Hm) as (_ & -> & -> & ->), (cp56_hour_bits h s Hh) as (_ & -> & ->),
      (cp56_day_bits d w Hd Hw) as (_ & -> & ->).
    repeat f_equal.
    + unfold le_join, is_u16 in *. lia.
    + clear -Hmo. enum mo.
    + clear -Hy. enum y.
  - intros b _ Hl. erewrite dec_bind_err by (by apply ensure_short). eauto 10.
  - intros b Hb Hl. destruct_buf b 7%nat. run_reads. rewrite !octets_cons in Hb.
    destruct Hb as (? & ? & ? & ? & ? & ? & ? & _). eexists; split; [|reflexivity].
    cbn -[Z.land Z.shiftr le_join]. split_and!.
    { unfold is_u16, is_u8, le_join in *. lia. }
    all: try (match goal with |- context [Z.land ?b ?m] => pose proof (mask_u8 b m); lia end).
    all: change 7 with (Z.ones 3); rewrite Z.land_ones; lia.
Qed.

(** ** The element interface

    [IeWrite]/[IeRead] of [types/monitor.rs] and [CmdIeWrite]/[CmdIeRead] of
    [types/command.rs], with the contract as a law. *)
Class InfoElement (A : Type) := {
  ie_len : nat;
  ie_write : A -> bytes -> bytes;
  ie_read : Dec A;
  ie_wf : A -> Prop;
  ie_lawful : FixedCodec ie_len ie_write ie_read ie_wf;
}.

#[export] Instance ie_Siq : InfoElement Siq := {| ie_lawful := Siq_codec |}.
#[export] Instance ie_Diq : InfoElement Diq := {| ie_lawful := Diq_codec |}.
#[export] Instance ie_Qds : InfoElement Qds := {| ie_lawful := Qds_codec |}.
#[export] Instance ie_Nva : InfoElement Nva := {| ie_lawful := Nva_codec |}.
#[export] Instance ie_Sva : InfoElement Sva := {| ie_lawful := Sva_codec |}.
#[export] Instance ie_R32 : InfoElement R32 := {| ie_lawful := R32_codec |}.
#[export] Instance ie_Bcr : InfoElement Bcr := {| ie_lawful := Bcr_codec |}.
#[export] Instance ie_Cp24 : InfoElement Cp24Time2a := {| ie_lawful := Cp24_codec |}.
#[export] Instance ie_Cp56 : InfoElement Cp56Time2a := {| ie_lawful := Cp56_codec |}.

(** types/monitor.rs 90-200, IeWrite for (A, B). *)
Definition ie_pair_write {A B} `{!InfoElement A, !InfoElement B} (p : A * B) (buf : bytes) : bytes :=
  ie_write p.2 (ie_write p.1 buf).
(** types/monitor.rs 90-200, IeRead for (A, B). *)
Definition ie_pair_read {A B} `{!InfoElement A, !InfoElement B} : Dec (A * B) :=
  ie_read ≫= fun a => ie_read ≫= fun b => mret (a, b).

(** Composite values are flattened on the wire; a triple is the pair of a
    pair. *)
#[export] Program Instance ie_pair {A B} `{!InfoElement A, !InfoElement B} : InfoElement (A * B) := {|
  ie_len := @ie_len A _ + @ie_len B _;
  ie_write := ie_pair_write;
  ie_read := ie_pair_read;
  ie_wf p := ie_wf p.1 /\ ie_wf p.2;
|}.
Next Obligation. intros. apply pair_codec; apply ie_lawful. Qed.

End WithBytes.
