(* ===== verification/IoList.v ===== *)
(** * Information-object lists

    [asdu/io_list.rs]: the two layouts of the information-objects section.
    With SQ = 0 every object carries its address; with SQ = 1 only the first
    one does and the receiver re-derives the others. The theorems hold for any
    element whose codec keeps the [FixedCodec] contract. *)

From S2P Require Import Prelude Bytes Codec AsduHeader InfoElements.

Section WithBytes.
Context `{BC : BytesCrate} {E : Type}.

(** The loop over [&objects[1..]]: elements without addresses. *)
Fixpoint encode_elems (encode_element : E -> bytes -> bytes) (objects : list (Ioa * E))
    (buf : bytes) : bytes :=
  match objects with
  | [] => buf
  | (_, e) :: objects' => encode_elems encode_element objects' (encode_element e buf)
  end.

(** The loop of the SQ = 0 layout: an address before each element. *)
Fixpoint encode_objects (encode_element : E -> bytes -> bytes) (size : IoaSize)
    (objects : list (Ioa * E)) (buf : bytes) : bytes :=
  match objects with
  | [] => buf
  | (ioa, e) :: objects' =>
      encode_objects encode_element size objects' (encode_element e (encode_ioa size ioa buf))
  end.

(** io_list.rs 19-43, encode_io_list. *)
Definition encode_io_list (encode_element : E -> bytes -> bytes) (objects : list (Ioa * E))
    (vsq : Vsq) (addressing : AsduAddressing) (buf : bytes) : bytes :=
  if vsq_sequence vsq then
    match objects with
    | [] => buf
    | (ioa, first) :: rest =>
        encode_elems encode_element rest
          (encode_element first (encode_ioa (ioa_size addressing) ioa buf))
    end
  else encode_objects encode_element (ioa_size addressing) objects buf.

(** The loop [for i in 0..count] of the SQ = 1 layout, from index [i] on. *)
Fixpoint decode_elems (decode_element : Dec E) (base : Ioa) (i : Z) (count : nat) :
    Dec (list (Ioa * E)) :=
  match count with
  | O => mret []
  | S count' =>
      decode_element ≫= fun e =>
      decode_elems decode_element base (i + 1) count' ≫= fun objects =>
      mret ((as_u32 (base + i), e) :: objects)
  end.

Fixpoint decode_objects (decode_element : Dec E) (size : IoaSize) (count : nat) :
    Dec (list (Ioa * E)) :=
  match count with
  | O => mret []
  | S count' =>
      decode_ioa size ≫= fun ioa =>
      decode_element ≫= fun e =>
      decode_objects decode_element size count' ≫= fun objects =>
      mret ((ioa, e) :: objects)
  end.

(** io_list.rs 46-75, decode_io_list. *)
Definition decode_io_list (decode_element : Dec E) (vsq : Vsq) (addressing : AsduAddressing) :
    Dec (list (Ioa * E)) :=
  let count := Z.to_nat (vsq_count vsq) in
  if vsq_sequence vsq then
    match count with
    | O => mret []
    | _ =>
        decode_ioa (ioa_size addressing) ≫= fun base =>
        decode_elems decode_element base 0 count
    end
  else decode_objects decode_element (ioa_size addressing) count.

(** ** What the wire carries

    With SQ = 1 the addresses of the objects after the first are lost, and
    the receiver counts up from the first one in [u32]. *)
Fixpoint readdress (base : Ioa) (i : Z) (objects : list (Ioa * E)) : list (Ioa * E) :=
  match objects with
  | [] => []
  | (_, e) :: objects' => (as_u32 (base + i), e) :: readdress base (i + 1) objects'
  end.

Definition on_wire (vsq : Vsq) (objects : list (Ioa * E)) : list (Ioa * E) :=
  if vsq_sequence vsq then
    match objects with [] => [] | (base, _) :: _ => readdress base 0 objects end
  else objects.

(** The addresses that are put on the wire fit the configured width. *)
Definition addresses_ok (vsq : Vsq) (size : IoaSize) (objects : list (Ioa * E)) : Prop :=
  if vsq_sequence vsq then
    match objects with [] => True | (base, _) :: _ => ioa_ok size base end
  else Forall (fun p => ioa_ok size p.1) objects.

(** Objects at consecutive addresses, the only ones SQ = 1 can represent. *)
Fixpoint consecutive (base : Ioa) (objects : list (Ioa * E)) : Prop :=
  match objects with
  | [] => True
  | (a, _) :: objects' => a = base /\ consecutive (base + 1) objects'
  end.

Lemma readdress_consecutive base i objects :
  0 <= base -> 0 <= i -> base + i + Z.of_nat (length objects) <= 4294967296 ->
  consecutive (base + i) objects -> readdress base i objects = objects.
Proof.
  revert i. induction objects as [|[a e] objects IH]; intros i Hb Hi Hn Hc; [done|].
  destruct Hc as [-> Hc]. cbn [readdress length] in *. rewrite IH; try lia.
  - unfold as_u32. by rewrite Z.mod_small by lia.
  - by replace (base + (i + 1)) with (base + i + 1) by lia.
Qed.

Lemma length_readdress base i objects : length (readdress base i objects) = length objects.
Proof. revert i; induction objects as [|[] ? IH]; intros; simpl; auto. Qed.

Section Codec.
Context {len : nat} {enc : E -> bytes -> bytes} {dec : Dec E} {wf : E -> Prop}.
Hypothesis C : FixedCodec len enc dec wf.

Lemma encode_elems_append objects buf :
  encode_elems enc objects buf = buf ++ encode_elems enc objects [].
Proof.
  revert buf; induction objects as [|[a e] objects IH]; intros buf; simpl.
  - by rewrite app_nil_r.
  - rewrite IH, (IH (enc e [])), (fc_append _ _ _ _ C). by rewrite app_assoc.
Qed.

Lemma encode_objects_append size objects buf :
  encode_objects enc size objects buf = buf ++ encode_objects enc size objects [].
Proof.
  revert buf; induction objects as [|[a e] objects IH]; intros buf; simpl.
  - by rewrite app_nil_r.
  - rewrite IH, (IH (enc e _)), (fc_append _ _ _ _ C), (fc_append _ _ _ _ C e (encode_ioa _ _ [])).
    rewrite (fc_append _ _ _ _ (ioa_codec size)). by rewrite <- !app_assoc.
Qed.

Lemma encode_io_list_append objects vsq ad buf :
  encode_io_list enc objects vsq ad buf = buf ++ encode_io_list enc objects vsq ad [].
Proof.
  unfold encode_io_list. destruct (vsq_sequence vsq); [|apply encode_objects_append].
  destruct objects as [|[a e] objects]; [by rewrite app_nil_r|].
  rewrite encode_elems_append, (encode_elems_append _ (enc e (encode_ioa _ _ []))).
  rewrite (fc_append _ _ _ _ C), (fc_append _ _ _ _ C e (encode_ioa _ _ [])).
  rewrite (fc_append _ _ _ _ (ioa_codec _)). by rewrite <- !app_assoc.
Qed.

Lemma octets_encode_elems objects :
  Forall (fun p => wf p.2) objects -> octets (encode_elems enc objects []).
Proof.
  induction 1 as [|[a e] objects He _ IH]; simpl; [apply octets_nil|].
  rewrite encode_elems_append, octets_app. eauto using fc_octets.
Qed.

Lemma octets_encode_io_list objects vsq ad :
  Forall (fun p => wf p.2) objects -> addresses_ok vsq (ioa_size ad) objects ->
  octets (encode_io_list enc objects vsq ad []).
Proof.
  intros Hwf Ha. unfold encode_io_list, addresses_ok in *. destruct (vsq_sequence vsq).
  - destruct Hwf as [|[a e] objects He Hwf]; [apply octets_nil|].
    rewrite encode_elems_append, (fc_append _ _ _ _ C), !octets_app.
    split_and!; [eapply (fc_octets _ _ _ _ (ioa_codec _))|eapply fc_octets|eapply octets_encode_elems]; eauto.
  - induction Hwf as [|[a e] objects He Hwf IH]; simpl; [apply octets_nil|].
    apply Forall_cons in Ha as [Hi Ha].
    rewrite encode_objects_append, (fc_append _ _ _ _ C), !octets_app.
    split_and!; [eapply (fc_octets _ _ _ _ (ioa_codec _))|eapply fc_octets|]; eauto.
Qed.

(** The address is cut to its width, so it is octets in any case. *)
Lemma octets_encode_ioa size ioa : octets (encode_ioa size ioa []).
Proof.
  unfold encode_ioa. destruct size; rewrite ?put_u8_spec, ?put_u16_le_spec; simpl;
    repeat (apply octets_cons; split; [apply as_u8_u8|]); try apply octets_nil; apply octets_le_split.
Qed.

Lemma octets_encode_objects size objects :
  Forall (fun p => wf p.2) objects -> octets (encode_objects enc size objects []).
Proof.
  induction 1 as [|[a e] objects He _ IH]; simpl; [apply octets_nil|].
  rewrite encode_objects_append, (fc_append _ _ _ _ C), !octets_app.
  split_and!; [apply octets_encode_ioa|by eapply fc_octets|done].
Qed.

Lemma octets_encode_any objects vsq ad :
  Forall (fun p => wf p.2) objects -> octets (encode_io_list enc objects vsq ad []).
Proof.
  intros Hwf. unfold encode_io_list. destruct (vsq_sequence vsq); [|by apply octets_encode_objects].
  destruct Hwf as [|[a e] objects He Hwf]; [apply octets_nil|].
  rewrite encode_elems_append, (fc_append _ _ _ _ C), !octets_app.
  split_and!; [apply octets_encode_ioa|by eapply fc_octets|by apply octets_encode_elems].
Qed.

Lemma decode_encode_elems base i objects rest :
  Forall (fun p => wf p.2) objects ->
  decode_elems dec base i (length objects) (encode_elems enc objects [] ++ rest)
    = (Ok (readdress base i objects), rest).
Proof.
  intros Hwf. revert i. induction Hwf as [|[a e] objects He _ IH]; intros i; [done|]. simpl.
  rewrite encode_elems_append, <- app_assoc.
  erewrite dec_bind_ok by (by apply (fc_roundtrip _ _ _ _ C)).
  by erewrite dec_bind_ok by apply IH.
Qed.

Lemma decode_encode_objects size objects rest :
  Forall (fun p => ioa_ok size p.1) objects -> Forall (fun p => wf p.2) objects ->
  decode_objects dec size (length objects) (encode_objects enc size objects [] ++ rest)
    = (Ok objects, rest).
Proof.
  intros Ha Hwf. revert Ha. induction Hwf as [|[a e] objects He _ IH]; intros Ha; [done|].
  apply Forall_cons in Ha as [Hi Ha]. simpl in *.
  rewrite encode_objects_append, (fc_append _ _ _ _ C), <- !app_assoc.
  erewrite dec_bind_ok by (by apply (fc_roundtrip _ _ _ _ (ioa_codec size))).
  erewrite dec_bind_ok by (by apply (fc_roundtrip _ _ _ _ C)).
  by erewrite dec_bind_ok by (by apply IH).
Qed.

Lemma decode_encode_io_list objects vsq ad rest :
  vsq_count vsq = Z.of_nat (length objects) ->
  Forall (fun p => wf p.2) objects -> addresses_ok vsq (ioa_size ad) objects ->
  decode_io_list dec vsq ad (encode_io_list enc objects vsq ad [] ++ rest)
    = (Ok (on_wire vsq objects), rest).
Proof.
  intros Hc Hwf Ha. unfold decode_io_list, encode_io_list, on_wire, addresses_ok in *.
  rewrite Hc, Nat2Z.id. destruct (vsq_sequence vsq).
  - destruct objects as [|[a e] objects]; [done|]. cbn [length].
    pose proof (decode_encode_elems a 0 _ rest Hwf) as Hd.
    rewrite encode_elems_append, (fc_append _ _ _ _ C), <- !app_assoc.
    erewrite dec_bind_ok by (by apply (fc_roundtrip _ _ _ _ (ioa_codec _))).
    revert Hd. cbn [length encode_elems]. by rewrite encode_elems_append, <- !app_assoc.
  - by apply decode_encode_objects.
Qed.

(** ** Totality on arbitrary input *)

Lemma decode_elems_total base i n :
  dec_total (decode_elems dec base i n)
    (fun l => length l = n /\ Forall (fun p => wf p.2) l /\
       ∀ k p, l !! k = Some p -> p.1 = as_u32 (base + i + Z.of_nat k)).
Proof.
  revert i; induction n as [|n IH]; intros i; simpl; [by apply dec_total_ret|].
  eapply dec_total_bind; [by eapply fc_total|]. intros e He.
  eapply dec_total_bind; [apply IH|]. intros l (Hl & Hwf & Hk).
  apply dec_total_ret. split_and!; [simpl; lia|by constructor|].
  intros [|k] p; simpl; intros Hp.
  - simplify_eq. by rewrite Z.add_0_r.
  - rewrite (Hk k p Hp). f_equal. lia.
Qed.

Lemma decode_objects_total size n :
  dec_total (decode_objects dec size n)
    (fun l => length l = n /\ Forall (fun p => ioa_ok size p.1 /\ wf p.2) l).
Proof.
  induction n as [|n IH]; simpl; [by apply dec_total_ret|].
  eapply dec_total_bind; [eapply fc_total, ioa_codec|]. intros a Ha.
  eapply dec_total_bind; [by eapply fc_total|]. intros e He.
  eapply dec_total_bind; [apply IH|]. intros l (Hl & Hwf).
  apply dec_total_ret. split; [simpl; lia|by constructor].
Qed.

Lemma decode_io_list_total vsq ad :
  dec_total (decode_io_list dec vsq ad)
    (fun l => length l = Z.to_nat (vsq_count vsq) /\ Forall (fun p => wf p.2) l).
Proof.
  unfold decode_io_list. destruct (vsq_sequence vsq).
  - destruct (Z.to_nat (vsq_count vsq)) as [|n]; [by apply dec_total_ret|].
    eapply dec_total_bind; [eapply fc_total, ioa_codec|]. intros a Ha.
    eapply dec_total_weaken; [apply decode_elems_total|]. naive_solver.
  - eapply dec_total_weaken; [apply decode_objects_total|]. intros l (Hl & Hf).
    split; [done|]. eapply Forall_impl; [done|]. naive_solver.
Qed.

(** The objects at addresses counted up from the first one. *)
Lemma readdress_lookup base i objects :
  (∀ k p, objects !! k = Some p -> p.1 = as_u32 (base + i + Z.of_nat k)) -> readdress base i objects = objects.
Proof.
  revert i. induction objects as [|[a e] objects IH]; intros i H; [done|]. cbn [readdress].
  pose proof (H 0%nat (a, e) eq_refl) as Ha. cbn [fst] in Ha. rewrite Z.add_0_r in Ha. rewrite <- Ha. f_equal.
  apply IH. intros k p Hk. rewrite (H (S k) p Hk). f_equal. lia.
Qed.

(** What a decoder returns is a list that the wire carries. *)
Lemma decode_io_list_carried vsq ad : 0 <= vsq_count vsq ->
  dec_total (decode_io_list dec vsq ad)
    (fun l => vsq_count vsq = Z.of_nat (length l) /\ Forall (fun p => wf p.2) l /\
       addresses_ok vsq (ioa_size ad) l /\ on_wire vsq l = l).
Proof.
  intros Hc. unfold decode_io_list, addresses_ok, on_wire. destruct (vsq_sequence vsq).
  - destruct (Z.to_nat (vsq_count vsq)) as [|n] eqn:En; [apply dec_total_ret; split_and!; (done || simpl; lia)|].
    eapply dec_total_bind; [eapply fc_total, ioa_codec|]. intros base Hb.
    eapply dec_total_weaken; [apply decode_elems_total|]. intros l (Hl & Hwf & Hk).
    assert (∀ p, l !! 0%nat = Some p -> p.1 = base) as H0.
    { intros p Hp. rewrite (Hk 0%nat p Hp), !Z.add_0_r. unfold as_u32. apply Z.mod_small.
      destruct (ioa_size ad); unfold ioa_ok, is_u8, is_u16, is_u24 in Hb; lia. }
    destruct l as [|[a e] l]; [done|]. pose proof (H0 (a, e) eq_refl) as Ha. cbn [fst] in Ha. subst a.
    split_and!; [lia|done|done|]. by apply readdress_lookup.
  - eapply dec_total_weaken; [apply decode_objects_total|]. intros l (Hl & Hf).
    split_and!; [lia|eapply Forall_impl; [done|]; naive_solver..|done].
Qed.

(** The number of octets an information-objects section takes. *)
Definition io_list_len (vsq : Vsq) (size : IoaSize) : nat :=
  let count := Z.to_nat (vsq_count vsq) in
  if vsq_sequence vsq then match count with O => 0 | _ => ioa_len size + count * len end
  else count * (ioa_len size + len).

Lemma decode_elems_exact base i n : dec_exact (decode_elems dec base i n) (n * len).
Proof.
  revert i; induction n as [|n IH]; intros i; simpl; [apply dec_exact_ret|].
  apply dec_exact_bind; [by eapply fc_exact|]. intros e. rewrite <- (Nat.add_0_r (n * len)).
  apply dec_exact_bind; [apply IH|]. intros. apply dec_exact_ret.
Qed.

Lemma decode_objects_exact size n :
  dec_exact (decode_objects dec size n) (n * (ioa_len size + len)).
Proof.
  induction n as [|n IH]; simpl; [apply dec_exact_ret|]. rewrite <- Nat.add_assoc.
  apply dec_exact_bind; [eapply fc_exact, ioa_codec|]. intros a.
  apply dec_exact_bind; [by eapply fc_exact|]. intros e.
  rewrite <- (Nat.add_0_r (n * _)).
  apply dec_exact_bind; [apply IH|]. intros. apply dec_exact_ret.
Qed.

Lemma decode_io_list_exact vsq ad :
  dec_exact (decode_io_list dec vsq ad) (io_list_len vsq (ioa_size ad)).
Proof.
  unfold decode_io_list, io_list_len. destruct (vsq_sequence vsq); [|apply decode_objects_exact].
  destruct (Z.to_nat (vsq_count vsq)) as [|n]; [apply dec_exact_ret|].
  apply dec_exact_bind; [eapply fc_exact, ioa_codec|]. intros. apply decode_elems_exact.
Qed.

End Codec.
End WithBytes.

(** ** The properties of the lists *)

Section Properties.
Context `{BC : BytesCrate} {E : Type} `{!InfoElement E}.

(** Decoding an encoded information-object list gives back the objects,
    in order and with the rest of the buffer untouched: exactly the encoded
    list when SQ = 0, and when SQ = 1 the same elements addressed upwards from
    the first object's address. Stated for every element type of the
    protocol, every address width and both values of SQ. *)
Theorem io_list_roundtrip (objects : list (Ioa * E)) vsq ad rest :
  vsq_count vsq = Z.of_nat (length objects) ->
  Forall (fun o => ie_wf o.2) objects -> addresses_ok vsq (ioa_size ad) objects ->
  decode_io_list ie_read vsq ad (encode_io_list ie_write objects vsq ad [] ++ rest)
    = (Ok (on_wire vsq objects), rest).
Proof. apply (decode_encode_io_list ie_lawful). Qed.

(** The compressed layout is lossless on consecutive addresses, and it
    saves the addresses of all objects but the first: the section takes one
    address and one element per object. *)
Theorem io_list_sequence_lossless (objects : list (Ioa * E)) base ad rest :
  (0 < length objects)%nat -> consecutive base objects -> ioa_ok (ioa_size ad) base ->
  base + Z.of_nat (length objects) <= 4294967296 ->
  Forall (fun o => ie_wf o.2) objects ->
  let vsq := Vsq_sequence (Z.of_nat (length objects)) in
  decode_io_list ie_read vsq ad (encode_io_list ie_write objects vsq ad [] ++ rest) = (Ok objects, rest) /\
  length (encode_io_list ie_write objects vsq ad [])
    = (ioa_len (ioa_size ad) + length objects * ie_len (A := E))%nat.
Proof.
  intros Hn Hc Ha Hb Hwf vsq.
  destruct objects as [|[a e] objects]; [simpl in Hn; lia|]. destruct Hc as [-> Hc].
  assert (Ha' : addresses_ok vsq (ioa_size ad) ((base, e) :: objects)) by done.
  assert (H0 : 0 <= base) by (destruct (ioa_size ad); unfold ioa_ok, is_u8, is_u16, is_u24 in Ha; lia).
  assert (Hd := decode_encode_io_list ie_lawful _ vsq ad rest eq_refl Hwf Ha').
  split.
  - rewrite Hd. unfold on_wire. cbn [vsq_sequence vsq Vsq_sequence].
    rewrite readdress_consecutive; [done..|lia|split; [lia|]].
    by rewrite Z.add_0_r.
  - assert (Hx := decode_io_list_exact ie_lawful vsq ad _
      (octets_encode_io_list ie_lawful _ vsq ad Hwf Ha')).
    assert (Hd' := decode_encode_io_list ie_lawful _ vsq ad [] eq_refl Hwf Ha').
    rewrite app_nil_r in Hd'. rewrite Hd' in Hx. destruct Hx as [Hl Hdr].
    apply (f_equal length) in Hdr. rewrite length_drop in Hdr. cbn [length] in Hdr.
    unfold io_list_len in *. cbn [vsq vsq_count vsq_sequence Vsq_sequence] in *.
    rewrite Nat2Z.id in *. cbn [length] in *. lia.
Qed.

(** On arbitrary octets the list decoder needs exactly the number of
    octets the qualifier and the widths call for: with fewer it reports
    [Incomplete], with that many or more it succeeds, returns as many objects
    as the qualifier counts and leaves the rest of the buffer. It never
    panics. *)
Theorem io_list_decode_bounds vsq ad b : octets b ->
  let need := io_list_len (len := ie_len (A := E)) vsq (ioa_size ad) in
  if (length b <? need)%nat
  then ∃ n h b', decode_io_list (E := E) ie_read vsq ad b = (Err (Incomplete n h), b')
  else ∃ objects, decode_io_list (E := E) ie_read vsq ad b = (Ok objects, drop need b) /\
         length objects = Z.to_nat (vsq_count vsq).
Proof.
  intros Hb need. assert (Hx := decode_io_list_exact ie_lawful vsq ad b Hb).
  assert (Ht := decode_io_list_total ie_lawful vsq ad b Hb). fold need in Hx.
  destruct (Nat.ltb_spec (length b) need); destruct (decode_io_list _ _ _ _) as [[l|[]|] b']; try done; try lia.
  - eauto.
  - destruct Hx as [_ ->], Ht as [[? _] _]. eauto.
Qed.

End Properties.

(** Two single points at consecutive addresses. *)
Definition two_points : list (Ioa * Siq) :=
  [(7, mkSiq true (mkQuality false false false false));
   (8, mkSiq false (mkQuality false true false true))].

Lemma io_list_roundtrip_witness :
  decode_io_list ie_read (Vsq_single 2) IEC104
    (encode_io_list ie_write two_points (Vsq_single 2) IEC104 [] ++ [9]) = (Ok two_points, [9]).
Proof.
  apply (io_list_roundtrip (BC := slice_bytes) two_points (Vsq_single 2) IEC104 [9]).
  - reflexivity.
  - repeat constructor.
  - repeat constructor; simpl; lia.
Defined.

Lemma io_list_sequence_lossless_witness :
  decode_io_list ie_read (Vsq_sequence 2) IEC104
    (encode_io_list ie_write two_points (Vsq_sequence 2) IEC104 [] ++ [9]) = (Ok two_points, [9]).
Proof.
  apply (io_list_sequence_lossless (BC := slice_bytes) two_points 7 IEC104 [9]).
  - simpl; lia.
  - repeat split.
  - split; simpl; lia.
  - simpl; lia.
  - repeat constructor.
Defined.

Lemma io_list_decode_bounds_witness :
  ∃ n h b', decode_io_list (E := Siq) ie_read (Vsq_single 2) IEC104 [1; 2; 3; 4; 5; 6; 7] =
    (Err (Incomplete n h), b').
Proof.
  assert (Hb : octets [1; 2; 3; 4; 5; 6; 7]) by (repeat constructor; lia).
  exact (io_list_decode_bounds (BC := slice_bytes) (E := Siq) (Vsq_single 2) IEC104 _ Hb).
Defined.
