(* ===== verification/Asdu.v ===== *)
(** * The ASDU envelope

    [asdu/payload.rs] and [asdu/envelope.rs]: the [AsduPayload] trait as a
    class with the laws a typed payload keeps, and the [Asdu] envelope that
    carries the header fields and the payload as raw octets. Everything proved
    here holds for every payload type, the built-in ones of [AsduTypes] and
    [AsduFile] as well as one a user of the crate adds. *)

From S2P Require Import Prelude Bytes Codec AsduHeader InfoElements IoList.

Section WithBytes.
Context `{BC : BytesCrate}.

(** payload.rs 22-44, AsduPayload. *)
Class AsduPayload (P : Type) := {
  TYPE_ID : Z;
  encode_information_objects : P -> Vsq -> AsduAddressing -> bytes -> bytes;
  decode_information_objects : Vsq -> AsduAddressing -> Dec P;
  (* the payloads the wire can carry under the given qualifier and widths *)
  payload_ok : Vsq -> AsduAddressing -> P -> Prop;
  payload_type_id : is_u8 TYPE_ID;
  payload_octets vsq ad p : payload_ok vsq ad p ->
    octets (encode_information_objects p vsq ad []);
  payload_roundtrip vsq ad p rest : payload_ok vsq ad p ->
    decode_information_objects vsq ad (encode_information_objects p vsq ad [] ++ rest)
      = (Ok p, rest);
  payload_total vsq ad : dec_total (decode_information_objects vsq ad) (fun _ => True);
}.

(** envelope.rs 19-26, Asdu. *)
Record Asdu := mkAsdu {
  type_id : Z; asdu_vsq : Vsq; asdu_cot : Cot; asdu_ca : CommonAddress; payload : bytes }.

#[export] Instance Asdu_eq_dec : EqDecision Asdu.
Proof. solve_decision. Defined.

(** envelope.rs 30-32, Asdu::header_len. *)
Definition header_len (addressing : AsduAddressing) : nat :=
  1 + Vsq_LEN + cot_len addressing + ca_len addressing.

(** envelope.rs 37-45, Asdu::new. *)
Definition Asdu_new (type_id : Z) (vsq : Vsq) (cot : Cot) (ca : CommonAddress) (payload : bytes) : Asdu :=
  mkAsdu type_id vsq cot ca payload.

(** envelope.rs 73-89, Asdu::from_payload. *)
Definition from_payload {P} `{!AsduPayload P} (cot : Cot) (ca : CommonAddress) (vsq : Vsq)
    (p : P) (addressing : AsduAddressing) : Asdu :=
  mkAsdu (TYPE_ID (P := P)) vsq cot ca (encode_information_objects p vsq addressing []).

(** envelope.rs 93-99, Asdu::decode_payload. *)
Definition decode_payload (P : Type) `{!AsduPayload P} (a : Asdu) (addressing : AsduAddressing) : Result P :=
  if negb (type_id a =? TYPE_ID (P := P)) then Err (UnknownAsduType (type_id a))
  else run (decode_information_objects (asdu_vsq a) addressing) (payload a).

(** [Result::ok]; on octets no decoder panics ([decode_payload_robust]). *)
Definition res_ok {A} (r : Result A) : option A := match r with Ok a => Some a | _ => None end.

(** envelope.rs 102-111, Asdu::encode. *)
Definition Asdu_encode (a : Asdu) (addressing : AsduAddressing) (buf : bytes) : bytes :=
  let buf := put_u8 (type_id a) buf in
  let buf := Vsq_encode (asdu_vsq a) buf in
  let buf := match cot_size addressing with
             | CotOne => Cot_encode_1 (asdu_cot a) buf
             | CotTwo => Cot_encode_2 (asdu_cot a) buf
             end in
  let buf := encode_ca (ca_size addressing) (asdu_ca a) buf in
  put_slice (payload a) buf.

(** envelope.rs 116-120, Asdu::encode_to_vec. *)
Definition encode_to_vec (a : Asdu) (addressing : AsduAddressing) : bytes :=
  Asdu_encode a addressing [].

Definition Cot_encode (size : CotSize) (c : Cot) : bytes -> bytes :=
  match size with CotOne => Cot_encode_1 c | CotTwo => Cot_encode_2 c end.
Definition Cot_decode (size : CotSize) : Dec Cot :=
  match size with CotOne => Cot_decode_1 | CotTwo => Cot_decode_2 end.

(** envelope.rs 140-141, Asdu::decode. *)
Definition get_rest : Dec bytes := fun buf => copy_to_slice (remaining buf) buf.

(** envelope.rs 125-149, Asdu::decode. *)
Definition Asdu_decode (addressing : AsduAddressing) : Dec Asdu :=
  ensure (header_len addressing) ≫= fun _ =>
  get_u8 ≫= fun type_id =>
  Vsq_decode ≫= fun vsq =>
  Cot_decode (cot_size addressing) ≫= fun cot =>
  decode_ca (ca_size addressing) ≫= fun ca =>
  get_rest ≫= fun payload =>
  mret (mkAsdu type_id vsq cot ca payload).

(** ** The wire form of the header *)

Lemma Cot_codec size :
  FixedCodec (match size with CotOne => 1 | CotTwo => 2 end)%nat
    (Cot_encode size) (Cot_decode size) (cot_ok size).
Proof. destruct size; [apply Cot_codec_1|apply Cot_codec_2]. Qed.

(** An ASDU each of whose fields fits its place in the header. *)
Definition asdu_ok (ad : AsduAddressing) (a : Asdu) : Prop :=
  is_u8 (type_id a) /\ vsq_ok (asdu_vsq a) /\ cot_ok (cot_size ad) (asdu_cot a) /\
  ca_ok (ca_size ad) (asdu_ca a) /\ octets (payload a).

(** The ranges the Rust types of the fields impose. *)
Definition asdu_typed (a : Asdu) : Prop :=
  is_u8 (type_id a) /\ is_u8 (vsq_count (asdu_vsq a)) /\ is_u8 (cot_cause (asdu_cot a)) /\
  is_u8 (cot_originator (asdu_cot a)) /\ is_u16 (asdu_ca a) /\ octets (payload a).

(** What is left of an ASDU after the header has truncated its fields. *)
Definition asdu_truncate (ad : AsduAddressing) (a : Asdu) : Asdu :=
  {| type_id := type_id a;
     asdu_vsq := mkVsq (vsq_sequence (asdu_vsq a)) (vsq_count (asdu_vsq a) mod 128);
     asdu_cot := mkCot (cot_cause (asdu_cot a) mod 64) (cot_negative (asdu_cot a))
       (cot_test (asdu_cot a))
       (match cot_size ad with CotOne => 0 | CotTwo => cot_originator (asdu_cot a) end);
     asdu_ca := match ca_size ad with CaOne => asdu_ca a mod 256 | CaTwo => asdu_ca a end;
     payload := payload a |}.

Lemma asdu_truncate_ok ad a : asdu_typed a -> asdu_ok ad (asdu_truncate ad a).
Proof.
  intros (? & ? & ? & ? & ? & ?). unfold asdu_ok, vsq_ok, cot_ok, ca_ok, is_u8, is_u16 in *.
  simpl. split_and!; try done; try lia; destruct (cot_size ad), (ca_size ad); try done; lia.
Qed.

Lemma Vsq_encode_truncate v : is_u8 (vsq_count v) ->
  Vsq_encode (mkVsq (vsq_sequence v) (vsq_count v mod 128)) = Vsq_encode v.
Proof.
  intros H. unfold Vsq_encode. simpl. unfold Vsq_COUNT_MASK.
  change 127 with (Z.ones 7). by rewrite !Z.land_ones, Z.mod_mod by lia.
Qed.

Lemma Cot_first_octet_truncate c n t o o' :
  Cot_first_octet (mkCot (c mod 64) n t o) = Cot_first_octet (mkCot c n t o').
Proof.
  unfold Cot_first_octet, Cot_CAUSE_MASK. simpl. change 63 with (Z.ones 6).
  by rewrite !Z.land_ones, Z.mod_mod by lia.
Qed.

Lemma Asdu_encode_truncate ad a buf : asdu_typed a ->
  Asdu_encode (asdu_truncate ad a) ad buf = Asdu_encode a ad buf.
Proof.
  destruct a as [t v [c n te o] ca p]. intros (_ & Hv & _ & _ & _ & _).
  unfold Asdu_encode, Cot_encode_1, Cot_encode_2, encode_ca. simpl in *.
  rewrite Vsq_encode_truncate by done.
  rewrite (Cot_first_octet_truncate c n te _ o).
  destruct (cot_size ad), (ca_size ad); unfold as_u8; try done;
    by rewrite Z.mod_mod by lia.
Qed.

Lemma Asdu_encode_app ad a buf :
  Asdu_encode a ad buf =
    buf ++ [type_id a] ++ Vsq_encode (asdu_vsq a) [] ++ Cot_encode (cot_size ad) (asdu_cot a) [] ++
    encode_ca (ca_size ad) (asdu_ca a) [] ++ payload a.
Proof.
  unfold Asdu_encode. rewrite put_slice_spec, (fc_append _ _ _ _ (ca_codec _)).
  replace (match cot_size ad with
    | CotOne => Cot_encode_1 (asdu_cot a) (Vsq_encode (asdu_vsq a) (put_u8 (type_id a) buf))
    | CotTwo => Cot_encode_2 (asdu_cot a) (Vsq_encode (asdu_vsq a) (put_u8 (type_id a) buf)) end)
    with (Cot_encode (cot_size ad) (asdu_cot a) (Vsq_encode (asdu_vsq a) (put_u8 (type_id a) buf)))
    by (by destruct (cot_size ad)).
  rewrite (fc_append _ _ _ _ (Cot_codec _)), (fc_append _ _ _ _ Vsq_codec), put_u8_spec.
  by rewrite <- !app_assoc.
Qed.

Lemma header_len_eq ad : header_len ad =
  (1 + (Vsq_LEN + ((match cot_size ad with CotOne => 1 | CotTwo => 2 end) +
   (match ca_size ad with CaOne => 1 | CaTwo => 2 end))))%nat.
Proof. unfold header_len, cot_len, ca_len. by destruct (cot_size ad), (ca_size ad). Qed.

Lemma length_Asdu_encode ad a :
  length (Asdu_encode a ad []) = (header_len ad + length (payload a))%nat.
Proof.
  rewrite Asdu_encode_app, header_len_eq. cbn [app length]. rewrite !length_app.
  rewrite (fc_length _ _ _ _ Vsq_codec), (fc_length _ _ _ _ (Cot_codec _)),
    (fc_length _ _ _ _ (ca_codec _)). unfold Vsq_LEN. lia.
Qed.

(** The decoder on a buffer that holds the header. *)
Lemma Asdu_decode_run ad t b v c ca b1 b2 b3 :
  (header_len ad <= length (t :: b))%nat ->
  Vsq_decode b = (Ok v, b1) -> Cot_decode (cot_size ad) b1 = (Ok c, b2) ->
  decode_ca (ca_size ad) b2 = (Ok ca, b3) ->
  Asdu_decode ad (t :: b) = (Ok (mkAsdu t v c ca b3), []).
Proof.
  intros Hl Hv Hc Hca. unfold Asdu_decode.
  erewrite dec_bind_ok by (by apply ensure_long).
  erewrite dec_bind_ok by apply get_u8_spec.
  erewrite dec_bind_ok by exact Hv. erewrite dec_bind_ok by exact Hc.
  erewrite dec_bind_ok by exact Hca.
  erewrite dec_bind_ok
    by (unfold get_rest; rewrite remaining_spec; apply copy_to_slice_spec; lia).
  by rewrite firstn_all, drop_all.
Qed.

Lemma Asdu_decode_encode_ok ad a : asdu_ok ad a ->
  Asdu_decode ad (Asdu_encode a ad []) = (Ok a, []).
Proof.
  destruct a as [t v c ca p]. intros (Ht & Hv & Hc & Hca & Hp); simpl in *.
  pose proof (length_Asdu_encode ad (mkAsdu t v c ca p)) as Hl.
  rewrite Asdu_encode_app in *. cbn [app type_id asdu_vsq asdu_cot asdu_ca payload] in *.
  eapply Asdu_decode_run; [lia|..];
    [apply (fc_roundtrip _ _ _ _ Vsq_codec)|apply (fc_roundtrip _ _ _ _ (Cot_codec _))
    |apply (fc_roundtrip _ _ _ _ (ca_codec _))]; done.
Qed.

(** ** The header has no redundant bits: what decodes re-encodes to itself *)

Lemma Vsq_encode_decode b v b' : octets b -> Vsq_decode b = (Ok v, b') ->
  vsq_ok v /\ b = Vsq_encode v [] ++ b'.
Proof.
  intros Hb E. destruct (fc_wf Vsq_codec b v b' Hb E) as (Hv & -> & Hl).
  split; [done|]. destruct_buf b 1%nat. unfold Vsq_decode in E. revert E. run_reads. intros [= <-].
  apply octets_cons in Hb as [Hx _]. unfold Vsq_encode. rewrite put_u8_spec. simpl.
  rewrite drop_0. f_equal. clear -Hx. unfold is_u8 in Hx. enum x.
Qed.

Lemma Cot_octet_parse x : is_u8 x -> Cot_first_octet (Cot_parse_first_octet x) = x.
Proof. unfold is_u8. intros Hx. enum x. Qed.

Lemma Cot_encode_decode size b c b' : octets b -> Cot_decode size b = (Ok c, b') ->
  cot_ok size c /\ b = Cot_encode size c [] ++ b'.
Proof.
  intros Hb E. destruct (fc_wf (Cot_codec size) b c b' Hb E) as (Hv & -> & Hl).
  split; [done|]. destruct size; simpl in E.
  - destruct_buf b 1%nat. unfold Cot_decode_1 in E. revert E. run_reads. intros [= <-].
    apply octets_cons in Hb as [Hx _]. unfold Cot_encode, Cot_encode_1.
    rewrite put_u8_spec, Cot_octet_parse by done. simpl. by rewrite drop_0.
  - destruct_buf b 2%nat. unfold Cot_decode_2 in E. revert E. run_reads. intros [= <-].
    rewrite !octets_cons in Hb. destruct Hb as (Hx & _ & _). unfold Cot_encode, Cot_encode_2.
    rewrite !put_u8_spec. unfold Cot_with_originator. simpl.
    change (Cot_first_octet _) with (Cot_first_octet (Cot_parse_first_octet x)).
    rewrite Cot_octet_parse by done. by rewrite drop_0.
Qed.

Lemma ca_encode_decode size b ca b' : octets b -> decode_ca size b = (Ok ca, b') ->
  ca_ok size ca /\ b = encode_ca size ca [] ++ b'.
Proof.
  intros Hb E. destruct (fc_wf (ca_codec size) b ca b' Hb E) as (Hv & -> & Hl).
  split; [done|]. destruct size; unfold decode_ca in E; unfold encode_ca.
  - destruct_buf b 1%nat. revert E. run_reads. rewrite get_u8_spec. intros [= <-].
    rewrite put_u8_spec. unfold as_u8. apply octets_cons in Hb as [Hx _].
    rewrite Z.mod_small by done. simpl. by rewrite drop_0.
  - destruct_buf b 2%nat. revert E. run_reads. rewrite get_u16_le_spec. intros [= <-].
    rewrite put_u16_le_spec, app_nil_l. simpl (drop _ _). rewrite drop_0.
    change 2%nat with (length [x; x0]). rewrite le_split_join; [done|].
    rewrite !octets_cons in *. destruct Hb as (? & ? & _). eauto using octets_nil.
Qed.

Lemma Asdu_decode_exact ad b : octets b ->
  if (length b <? header_len ad)%nat
  then Asdu_decode ad b = (Err (Incomplete (header_len ad) (length b)), b)
  else ∃ a, Asdu_decode ad b = (Ok a, []) /\ asdu_ok ad a /\ Asdu_encode a ad [] = b.
Proof.
  intros Hb. destruct (Nat.ltb_spec (length b) (header_len ad)) as [Hl|Hl].
  { unfold Asdu_decode. by erewrite dec_bind_err by (by apply ensure_short). }
  pose proof (header_len_eq ad) as Hh.
  destruct b as [|t b]; [simpl in Hl; lia|]. apply octets_cons in Hb as [Ht Hb].
  cbn [length] in Hl. unfold Vsq_LEN in Hh.
  destruct (fc_long _ _ _ _ Vsq_codec b Hb) as (v & _ & Ev); [unfold Vsq_LEN; lia|].
  destruct (Vsq_encode_decode _ _ _ Hb Ev) as [Hv Ebv].
  destruct (fc_long _ _ _ _ (Cot_codec (cot_size ad)) (drop Vsq_LEN b)) as (c & _ & Ec);
    [by apply octets_drop|unfold Vsq_LEN; rewrite length_drop; lia|].
  destruct (Cot_encode_decode _ _ _ _ (octets_drop _ _ Hb) Ec) as [Hc Ebc].
  rewrite drop_drop in Ec, Ebc.
  destruct (fc_long _ _ _ _ (ca_codec (ca_size ad)) (drop (Vsq_LEN + match cot_size ad with CotOne => 1 | CotTwo => 2 end) b)) as (ca & _ & Ea);
    [by apply octets_drop|unfold Vsq_LEN; rewrite length_drop; lia|].
  destruct (ca_encode_decode _ _ _ _ (octets_drop _ _ Hb) Ea) as [Ha Eba].
  eexists. split; [eapply Asdu_decode_run; [cbn [length]; lia|done..]|].
  split; [split_and!; [done..|by apply octets_drop, octets_drop]|].
  rewrite Asdu_encode_app. cbn [app type_id asdu_vsq asdu_cot asdu_ca payload]. f_equal. by rewrite <- Eba, <- Ebc, <- Ebv.
Qed.

Lemma asdu_truncate_id ad a : asdu_typed a -> asdu_truncate ad a = a <-> asdu_ok ad a.
Proof.
  intros Ht. split; [intros <-; by apply asdu_truncate_ok|].
  destruct a as [t [s n] [c ng te o] ca p]. intros (_ & Hv & [Hc Ho] & Hca & _).
  unfold vsq_ok in Hv. unfold asdu_truncate. simpl in *. rewrite !Z.mod_small by lia.
  destruct (cot_size ad), (ca_size ad); subst; try done; simpl in Hca;
    by rewrite Z.mod_small.
Qed.

(** ** The properties of the envelope *)

(** Encoding an ASDU and decoding the octets gives the ASDU with every
    header field cut to its width on the wire (object count to 7 bits, cause
    to 6 bits, originator address dropped and common address cut to one octet
    in the short profiles); nothing is lost exactly when every field fits. The
    payload octets are never altered. *)
Theorem asdu_header_roundtrip ad a : asdu_typed a ->
  Asdu_decode ad (Asdu_encode a ad []) = (Ok (asdu_truncate ad a), []) /\
  (asdu_truncate ad a = a <-> asdu_ok ad a).
Proof.
  intros Ht. split; [|by apply asdu_truncate_id].
  rewrite <- Asdu_encode_truncate by done. by apply Asdu_decode_encode_ok, asdu_truncate_ok.
Qed.

(** C10. The envelope decoder is total and injective on octet strings: an
    input shorter than the header is reported with the header's length, and
    every other input decodes to an in-range ASDU whose encoding is the input
    again, octet for octet. *)
Theorem asdu_decode_faithful ad b : octets b ->
  if (length b <? header_len ad)%nat
  then Asdu_decode ad b = (Err (Incomplete (header_len ad) (length b)), b)
  else ∃ a, Asdu_decode ad b = (Ok a, []) /\ asdu_ok ad a /\ encode_to_vec a ad = b.
Proof. apply Asdu_decode_exact. Qed.

(** A typed payload survives the whole trip: built into an ASDU, encoded,
    decoded as an envelope and decoded again as the same payload type, it
    comes back unchanged. Holds for every payload type that keeps the
    [AsduPayload] laws. *)
Theorem typed_payload_roundtrip {P} `{!AsduPayload P} ad cot ca vsq (p : P) :
  vsq_ok vsq -> cot_ok (cot_size ad) cot -> ca_ok (ca_size ad) ca -> payload_ok vsq ad p ->
  ∃ a, Asdu_decode ad (encode_to_vec (from_payload cot ca vsq p ad) ad) = (Ok a, []) /\
    asdu_cot a = cot /\ asdu_ca a = ca /\ decode_payload P a ad = Ok p.
Proof.
  intros Hv Hc Hca Hp. exists (from_payload cot ca vsq p ad). split_and!; try done.
  - apply Asdu_decode_encode_ok. split_and!; try done; [apply payload_type_id|].
    by apply payload_octets.
  - unfold decode_payload, from_payload. cbn [type_id payload asdu_vsq].
    rewrite Z.eqb_refl. cbn [negb]. unfold run.
    pose proof (payload_roundtrip vsq ad p [] Hp) as H. rewrite app_nil_r in H. by rewrite H.
Qed.

(** Interpreting a received ASDU as a payload type never panics: a type
    identification that does not match is reported as such, a section that is
    too short as [Incomplete], and there is no other failure. *)
Theorem decode_payload_robust {P} `{!AsduPayload P} ad a : octets (payload a) ->
  match decode_payload P a ad with
  | Ok _ => type_id a = TYPE_ID (P := P)
  | Err (UnknownAsduType t) => t = type_id a /\ type_id a ≠ TYPE_ID (P := P)
  | Err (Incomplete needed have) => (have < needed)%nat
  | _ => False
  end.
Proof.
  intros Hp. unfold decode_payload. destruct (Z.eqb_spec (type_id a) (TYPE_ID (P := P))); [|done].
  cbn [negb]. unfold run. pose proof (payload_total (asdu_vsq a) ad (payload a) Hp) as H.
  by destruct (decode_information_objects _ _ _) as [[|[]|] ?].
Qed.

End WithBytes.
