(* ===== verification/AsduTypes.v ===== *)
(** * Monitor, command and system ASDU types

    [asdu/types/monitor.rs], [command.rs] and [system.rs]: the command and
    system qualifiers, the payload shape the [io_payload!] and [cmd_payload!]
    macros stamp out, and the single-object system payloads. Each is an
    instance of [AsduPayload], so the envelope's theorems apply to it. *)

From S2P Require Import Prelude Bytes Codec AsduHeader InfoElements IoList Asdu.

(** ** Qualifier octets *)

(** types/command.rs 24-31, Sco. *)
Record Sco := mkSco { sco_on : bool; sco_qualifier : Z; sco_select : bool }.
(** types/command.rs 63-70, Dco. *)
Record Dco := mkDco { dco_state : DoublePoint; dco_qualifier : Z; dco_select : bool }.
(** types/command.rs 111-121, StepDirection. *)
Inductive StepDirection := NotPermitted0 | Lower | Higher | NotPermitted3.
(** types/command.rs 124-128, Rco. *)
Record Rco := mkRco { rco_direction : StepDirection; rco_qualifier : Z; rco_select : bool }.
(** types/command.rs 169-174, Qos. *)
Record Qos := mkQos { qos_qualifier : Z; qos_select : bool }.
(** types/command.rs 203-203, Qoi. *)
Record Qoi := mkQoi { qoi_0 : Z }.
(** types/command.rs 209-209, Qoi::GENERAL. *)
Definition Qoi_GENERAL : Qoi := mkQoi 20.
(** types/command.rs 211-213, Qoi::group. *)
Definition Qoi_group (n : Z) : Result Qoi :=
  if decide (20 + n < 256) then Ok (mkQoi (20 + n)) else Panic.
(** types/system.rs 19-25, Coi. *)
Record Coi := mkCoi { coi_cause : Z; coi_after_param_change : bool }.
(** types/system.rs 50-56, Qcc. *)
Record Qcc := mkQcc { qcc_group : Z; qcc_freeze : Z }.
(** types/system.rs 77-77, Qrp. *)
Record Qrp := mkQrp { qrp_0 : Z }.

#[export] Instance Sco_eq_dec : EqDecision Sco.
Proof. solve_decision. Defined.
#[export] Instance Dco_eq_dec : EqDecision Dco.
Proof. solve_decision. Defined.
#[export] Instance StepDirection_eq_dec : EqDecision StepDirection.
Proof. solve_decision. Defined.
#[export] Instance Rco_eq_dec : EqDecision Rco.
Proof. solve_decision. Defined.
#[export] Instance Qos_eq_dec : EqDecision Qos.
Proof. solve_decision. Defined.
#[export] Instance Qoi_eq_dec : EqDecision Qoi.
Proof. solve_decision. Defined.
#[export] Instance Coi_eq_dec : EqDecision Coi.
Proof. solve_decision. Defined.
#[export] Instance Qcc_eq_dec : EqDecision Qcc.
Proof. solve_decision. Defined.
#[export] Instance Qrp_eq_dec : EqDecision Qrp.
Proof. solve_decision. Defined.

(** The [match] blocks inside [Rco::encode] and [Rco::decode]. *)
Definition StepDirection_to_bits (d : StepDirection) : Z :=
  match d with NotPermitted0 => 0 | Lower => 1 | Higher => 2 | NotPermitted3 => 3 end.
Definition StepDirection_from_bits (b : Z) : StepDirection :=
  match Z.land b 3 with 0 => NotPermitted0 | 1 => Lower | 2 => Higher | _ => NotPermitted3 end.

(** [(qualifier & 0x1F) << 2] on a [u8], and its inverse. *)
Definition qu_bits (q : Z) : Z := as_u8 (Z.shiftl (Z.land q 0x1F) 2).
Definition qu_of (b : Z) : Z := Z.land (Z.shiftr b 2) 0x1F.

(** The type identifications the macros are used with are octets. *)
Class TypeId (tid : Z) : Prop := type_id_u8 : is_u8 tid.
#[export] Hint Extern 0 (TypeId _) => (split; [discriminate | reflexivity]) : typeclass_instances.

Section WithBytes.
Context `{BC : BytesCrate}.

(** types/command.rs 36-45, Sco::encode. *)
Definition Sco_encode (s : Sco) (buf : bytes) : bytes :=
  let b := qu_bits (sco_qualifier s) in
  let b := or_if (sco_on s) 0x01 b in
  let b := or_if (sco_select s) 0x80 b in
  put_u8 b buf.
(** types/command.rs 47-55, Sco::decode. *)
Definition Sco_decode : Dec Sco :=
  ensure 1 ≫= fun _ => get_u8 ≫= fun b =>
  mret (mkSco (has_bits b 0x01) (qu_of b) (has_bits b 0x80)).

(** types/command.rs 75-87, Dco::encode. *)
Definition Dco_encode (d : Dco) (buf : bytes) : bytes :=
  let state := match dco_state d with
    | Intermediate => 0 | DpOff => 1 | DpOn => 2 | Indeterminate => 3 end in
  let b := Z.lor state (qu_bits (dco_qualifier d)) in
  let b := or_if (dco_select d) 0x80 b in
  put_u8 b buf.
(** types/command.rs 89-103, Dco::decode. *)
Definition Dco_decode : Dec Dco :=
  ensure 1 ≫= fun _ => get_u8 ≫= fun b =>
  let state := match Z.land b 3 with
    | 0 => Intermediate | 1 => DpOff | 2 => DpOn | _ => Indeterminate end in
  mret (mkDco state (qu_of b) (has_bits b 0x80)).

(** types/command.rs 133-145, Rco::encode. *)
Definition Rco_encode (r : Rco) (buf : bytes) : bytes :=
  let dir := StepDirection_to_bits (rco_direction r) in
  let b := Z.lor dir (qu_bits (rco_qualifier r)) in
  let b := or_if (rco_select r) 0x80 b in
  put_u8 b buf.
(** types/command.rs 147-161, Rco::decode. *)
Definition Rco_decode : Dec Rco :=
  ensure 1 ≫= fun _ => get_u8 ≫= fun b =>
  let direction := StepDirection_from_bits b in
  mret (mkRco direction (qu_of b) (has_bits b 0x80)).

(** types/command.rs 179-185, Qos::encode. *)
Definition Qos_encode (q : Qos) (buf : bytes) : bytes :=
  let b := Z.land (qos_qualifier q) 0x7F in
  let b := or_if (qos_select q) 0x80 b in
  put_u8 b buf.
(** types/command.rs 187-194, Qos::decode. *)
Definition Qos_decode : Dec Qos :=
  ensure 1 ≫= fun _ => get_u8 ≫= fun b => mret (mkQos (Z.land b 0x7F) (has_bits b 0x80)).

(** types/command.rs 215-217, Qoi::encode. *)
Definition Qoi_encode (q : Qoi) (buf : bytes) : bytes := put_u8 (qoi_0 q) buf.
(** types/command.rs 219-222, Qoi::decode. *)
Definition Qoi_decode : Dec Qoi := ensure 1 ≫= fun _ => get_u8 ≫= fun b => mret (mkQoi b).

(** types/system.rs 30-36, Coi::encode. *)
Definition Coi_encode (c : Coi) (buf : bytes) : bytes :=
  let b := Z.land (coi_cause c) 0x7F in
  let b := or_if (coi_after_param_change c) 0x80 b in
  put_u8 b buf.
(** types/system.rs 38-45, Coi::decode. *)
Definition Coi_decode : Dec Coi :=
  ensure 1 ≫= fun _ => get_u8 ≫= fun b => mret (mkCoi (Z.land b 0x7F) (has_bits b 0x80)).

(** types/system.rs 61-63, Qcc::encode. *)
Definition Qcc_encode (q : Qcc) (buf : bytes) : bytes :=
  put_u8 (Z.lor (Z.land (qcc_group q) 0x3F)
                (as_u8 (Z.shiftl (Z.land (qcc_freeze q) 0x03) 6))) buf.
(** types/system.rs 65-72, Qcc::decode. *)
Definition Qcc_decode : Dec Qcc :=
  ensure 1 ≫= fun _ => get_u8 ≫= fun b =>
  mret (mkQcc (Z.land b 0x3F) (Z.land (Z.shiftr b 6) 0x03)).

(** types/system.rs 82-84, Qrp::encode. *)
Definition Qrp_encode (q : Qrp) (buf : bytes) : bytes := put_u8 (qrp_0 q) buf.
(** types/system.rs 86-89, Qrp::decode. *)
Definition Qrp_decode : Dec Qrp := ensure 1 ≫= fun _ => get_u8 ≫= fun b => mret (mkQrp b).

Definition Sco_wf (s : Sco) : Prop := 0 <= sco_qualifier s < 32.
Definition Dco_wf (d : Dco) : Prop := 0 <= dco_qualifier d < 32.
Definition Rco_wf (r : Rco) : Prop := 0 <= rco_qualifier r < 32.
Definition Qos_wf (q : Qos) : Prop := 0 <= qos_qualifier q < 128.
Definition Qoi_wf (q : Qoi) : Prop := is_u8 (qoi_0 q).
Definition Coi_wf (c : Coi) : Prop := 0 <= coi_cause c < 128.
Definition Qcc_wf (q : Qcc) : Prop := 0 <= qcc_group q < 64 /\ 0 <= qcc_freeze q < 4.
Definition Qrp_wf (q : Qrp) : Prop := is_u8 (qrp_0 q).

(** ** Codecs *)

Lemma Sco_codec : FixedCodec 1 Sco_encode Sco_decode Sco_wf.
Proof.
  apply (octet_codec (fun s => or_if (sco_select s) 0x80 (or_if (sco_on s) 0x01 (qu_bits (sco_qualifier s))))
    (fun b => mkSco (has_bits b 0x01) (qu_of b) (has_bits b 0x80))); unfold Sco_wf, is_u8.
  - intros [[] q []] H; simpl in *; enum q.
  - intros [[] q []] H; simpl in *; enum q.
  - simpl; intros b H; enum b.
Qed.

Lemma Dco_codec : FixedCodec 1 Dco_encode Dco_decode Dco_wf.
Proof.
  apply (octet_codec (fun d => or_if (dco_select d) 0x80
      (Z.lor (match dco_state d with
        Intermediate => 0 | DpOff => 1 | DpOn => 2 | Indeterminate => 3 end) (qu_bits (dco_qualifier d))))
    (fun b => mkDco (match Z.land b 3 with
        0 => Intermediate | 1 => DpOff | 2 => DpOn | _ => Indeterminate end)
      (qu_of b) (has_bits b 0x80))); unfold Dco_wf, is_u8.
  - intros [[] q []] H; simpl in *; enum q.
  - intros [[] q []] H; simpl in *; enum q.
  - simpl; intros b H; enum b.
Qed.

Lemma Rco_codec : FixedCodec 1 Rco_encode Rco_decode Rco_wf.
Proof.
  apply (octet_codec (fun r => or_if (rco_select r) 0x80
      (Z.lor (StepDirection_to_bits (rco_direction r)) (qu_bits (rco_qualifier r))))
    (fun b => mkRco (StepDirection_from_bits b) (qu_of b) (has_bits b 0x80))); unfold Rco_wf, is_u8.
  - intros [[] q []] H; simpl in *; enum q.
  - intros [[] q []] H; simpl in *; enum q.
  - simpl; intros b H; enum b.
Qed.

Lemma Qos_codec : FixedCodec 1 Qos_encode Qos_decode Qos_wf.
Proof.
  apply (octet_codec (fun q => or_if (qos_select q) 0x80 (Z.land (qos_qualifier q) 0x7F))
    (fun b => mkQos (Z.land b 0x7F) (has_bits b 0x80))); unfold Qos_wf, is_u8.
  - intros [q []] H; simpl in *; enum q.
  - intros [q []] H; simpl in *; enum q.
  - simpl; intros b H; enum b.
Qed.

Lemma Coi_codec : FixedCodec 1 Coi_encode Coi_decode Coi_wf.
Proof.
  apply (octet_codec (fun c => or_if (coi_after_param_change c) 0x80 (Z.land (coi_cause c) 0x7F))
    (fun b => mkCoi (Z.land b 0x7F) (has_bits b 0x80))); unfold Coi_wf, is_u8.
  - intros [q []] H; simpl in *; enum q.
  - intros [q []] H; simpl in *; enum q.
  - simpl; intros b H; enum b.
Qed.

Lemma Qcc_codec : FixedCodec 1 Qcc_encode Qcc_decode Qcc_wf.
Proof.
  apply (octet_codec (fun q => Z.lor (Z.land (qcc_group q) 0x3F)
       (as_u8 (Z.shiftl (Z.land (qcc_freeze q) 0x03) 6)))
    (fun b => mkQcc (Z.land b 0x3F) (Z.land (Z.shiftr b 6) 0x03))); unfold Qcc_wf, is_u8.
  - intros [g f] [H1 H2]; simpl in *. zcases H2; enum g.
  - intros [g f] [H1 H2]; simpl in *. zcases H2; enum g.
  - simpl; intros b H; enum b.
Qed.

Lemma Qoi_codec : FixedCodec 1 Qoi_encode Qoi_decode Qoi_wf.
Proof. by apply (octet_codec qoi_0 mkQoi); [|intros []|]. Qed.
Lemma Qrp_codec : FixedCodec 1 Qrp_encode Qrp_decode Qrp_wf.
Proof. by apply (octet_codec qrp_0 mkQrp); [|intros []|]. Qed.

#[export] Instance ie_Sco : InfoElement Sco := {| ie_lawful := Sco_codec |}.
#[export] Instance ie_Dco : InfoElement Dco := {| ie_lawful := Dco_codec |}.
#[export] Instance ie_Rco : InfoElement Rco := {| ie_lawful := Rco_codec |}.
#[export] Instance ie_Qos : InfoElement Qos := {| ie_lawful := Qos_codec |}.
#[export] Instance ie_Qoi : InfoElement Qoi := {| ie_lawful := Qoi_codec |}.

(** ** List payloads *)

(** types/monitor.rs 21-59, io_payload!. *)
Record IoPayload (tid : Z) (V : Type) := mkIoPayload { objects : list (Ioa * V) }.
#[global] Arguments mkIoPayload {_ _} _.
#[global] Arguments objects {_ _} _.

#[export] Instance IoPayload_eq_dec tid V `{EqDecision V} : EqDecision (IoPayload tid V).
Proof. solve_decision. Defined.

(** types/command.rs 250-259, cmd_payload! encode_information_objects. *)
Definition IoPayload_encode {tid V} `{!InfoElement V} (p : IoPayload tid V) (vsq : Vsq)
    (addressing : AsduAddressing) (buf : bytes) : bytes :=
  encode_io_list ie_write (objects p) vsq addressing buf.
(** types/command.rs 261-270, cmd_payload! decode_information_objects. *)
Definition IoPayload_decode {tid V} `{!InfoElement V} (vsq : Vsq) (addressing : AsduAddressing) :
    Dec (IoPayload tid V) :=
  decode_io_list ie_read vsq addressing ≫= fun objects => mret (mkIoPayload objects).

(** A list the wire carries unchanged: as many objects as the qualifier
    counts, each in range, at consecutive addresses when SQ = 1. *)
Definition IoPayload_ok {tid V} `{!InfoElement V} (vsq : Vsq) (ad : AsduAddressing)
    (p : IoPayload tid V) : Prop :=
  vsq_count vsq = Z.of_nat (length (objects p)) /\
  Forall (fun o => ie_wf o.2) (objects p) /\
  addresses_ok vsq (ioa_size ad) (objects p) /\
  on_wire vsq (objects p) = objects p.

#[export] Program Instance IoPayload_payload tid V `{!TypeId tid, !InfoElement V} :
    AsduPayload (IoPayload tid V) := {|
  TYPE_ID := tid;
  encode_information_objects := IoPayload_encode;
  decode_information_objects := IoPayload_decode;
  payload_ok := IoPayload_ok;
|}.
Next Obligation. intros. apply type_id_u8. Qed.
Next Obligation.
  intros tid V ? ? vsq ad p (_ & Hwf & Ha & _).
  by eapply octets_encode_io_list; [apply ie_lawful|..].
Qed.
Next Obligation.
  intros tid V ? ? vsq ad p rest (Hc & Hwf & Ha & Hw). unfold IoPayload_decode, IoPayload_encode.
  erewrite dec_bind_ok by (by apply (decode_encode_io_list ie_lawful)).
  rewrite Hw. by destruct p.
Qed.
Next Obligation.
  intros tid V ? ? vsq ad. eapply dec_total_bind; [apply (decode_io_list_total ie_lawful)|].
  intros. by apply dec_total_ret.
Qed.

(** types/monitor.rs 206-209, M_SP_NA_1. *)
Definition M_SP_NA_1 := IoPayload 1 Siq.
(** types/monitor.rs 211-214, M_DP_NA_1. *)
Definition M_DP_NA_1 := IoPayload 3 Diq.
(** types/monitor.rs 216-219, M_ME_NA_1. *)
Definition M_ME_NA_1 := IoPayload 9 (Nva * Qds).
(** types/monitor.rs 221-224, M_ME_NB_1. *)
Definition M_ME_NB_1 := IoPayload 11 (Sva * Qds).
(** types/monitor.rs 226-229, M_ME_NC_1. *)
Definition M_ME_NC_1 := IoPayload 13 (R32 * Qds).
(** types/monitor.rs 235-238, M_SP_TB_1. *)
Definition M_SP_TB_1 := IoPayload 30 (Siq * Cp56Time2a).
(** types/monitor.rs 240-243, M_DP_TB_1. *)
Definition M_DP_TB_1 := IoPayload 31 (Diq * Cp56Time2a).
(** types/monitor.rs 245-248, M_ME_TD_1. *)
Definition M_ME_TD_1 := IoPayload 34 (Nva * Qds * Cp56Time2a).
(** types/monitor.rs 250-253, M_ME_TE_1. *)
Definition M_ME_TE_1 := IoPayload 35 (Sva * Qds * Cp56Time2a).
(** types/monitor.rs 255-258, M_ME_TF_1. *)
Definition M_ME_TF_1 := IoPayload 36 (R32 * Qds * Cp56Time2a).
(** types/command.rs 415-418, C_SC_NA_1. *)
Definition C_SC_NA_1 := IoPayload 45 Sco.
(** types/command.rs 420-423, C_DC_NA_1. *)
Definition C_DC_NA_1 := IoPayload 46 Dco.
(** types/command.rs 425-428, C_RC_NA_1. *)
Definition C_RC_NA_1 := IoPayload 47 Rco.
(** types/command.rs 430-433, C_SE_NA_1. *)
Definition C_SE_NA_1 := IoPayload 48 (Nva * Qos).
(** types/command.rs 435-438, C_SE_NB_1. *)
Definition C_SE_NB_1 := IoPayload 49 (Sva * Qos).
(** types/command.rs 440-443, C_SE_NC_1. *)
Definition C_SE_NC_1 := IoPayload 50 (R32 * Qos).
(** types/command.rs 445-448, C_SC_TA_1. *)
Definition C_SC_TA_1 := IoPayload 58 (Sco * Cp56Time2a).
(** types/command.rs 450-453, C_SE_TA_1. *)
Definition C_SE_TA_1 := IoPayload 61 (Nva * Qos * Cp56Time2a).
(** types/command.rs 455-458, C_SE_TB_1. *)
Definition C_SE_TB_1 := IoPayload 62 (Sva * Qos * Cp56Time2a).
(** types/command.rs 460-463, C_SE_TC_1. *)
Definition C_SE_TC_1 := IoPayload 63 (R32 * Qos * Cp56Time2a).
(** types/command.rs 467-472, C_IC_NA_1. *)
Definition C_IC_NA_1 := IoPayload 100 Qoi.

(** ** Single-object payloads *)

(** types/system.rs 102-105, M_EI_NA_1. *)
Record M_EI_NA_1 := mkM_EI_NA_1 { ei_ioa : Ioa; ei_coi : Coi }.
(** types/system.rs 131-134, C_CI_NA_1. *)
Record C_CI_NA_1 := mkC_CI_NA_1 { ci_ioa : Ioa; ci_qcc : Qcc }.
(** types/system.rs 160-162, C_RD_NA_1. *)
Record C_RD_NA_1 := mkC_RD_NA_1 { rd_ioa : Ioa }.
(** types/system.rs 187-190, C_CS_NA_1. *)
Record C_CS_NA_1 := mkC_CS_NA_1 { cs_ioa : Ioa; cs_time : Cp56Time2a }.
(** types/system.rs 216-219, C_RP_NA_1. *)
Record C_RP_NA_1 := mkC_RP_NA_1 { rp_ioa : Ioa; rp_qrp : Qrp }.

(** types/system.rs 109-117, M_EI_NA_1::encode_information_objects. *)
Definition M_EI_NA_1_encode (p : M_EI_NA_1) (_ : Vsq) (addressing : AsduAddressing) (buf : bytes) : bytes :=
  Coi_encode (ei_coi p) (encode_ioa (ioa_size addressing) (ei_ioa p) buf).
(** types/system.rs 118-126, M_EI_NA_1::decode_information_objects. *)
Definition M_EI_NA_1_decode (_ : Vsq) (addressing : AsduAddressing) : Dec M_EI_NA_1 :=
  decode_ioa (ioa_size addressing) ≫= fun ioa =>
  Coi_decode ≫= fun coi => mret (mkM_EI_NA_1 ioa coi).

(** types/system.rs 138-146, C_CI_NA_1::encode_information_objects. *)
Definition C_CI_NA_1_encode (p : C_CI_NA_1) (_ : Vsq) (addressing : AsduAddressing) (buf : bytes) : bytes :=
  Qcc_encode (ci_qcc p) (encode_ioa (ioa_size addressing) (ci_ioa p) buf).
(** types/system.rs 147-155, C_CI_NA_1::decode_information_objects. *)
Definition C_CI_NA_1_decode (_ : Vsq) (addressing : AsduAddressing) : Dec C_CI_NA_1 :=
  decode_ioa (ioa_size addressing) ≫= fun ioa =>
  Qcc_decode ≫= fun qcc => mret (mkC_CI_NA_1 ioa qcc).

(** types/system.rs 166-173, C_RD_NA_1::encode_information_objects. *)
Definition C_RD_NA_1_encode (p : C_RD_NA_1) (_ : Vsq) (addressing : AsduAddressing) (buf : bytes) : bytes :=
  encode_ioa (ioa_size addressing) (rd_ioa p) buf.
(** types/system.rs 174-181, C_RD_NA_1::decode_information_objects. *)
Definition C_RD_NA_1_decode (_ : Vsq) (addressing : AsduAddressing) : Dec C_RD_NA_1 :=
  decode_ioa (ioa_size addressing) ≫= fun ioa => mret (mkC_RD_NA_1 ioa).

(** types/system.rs 194-202, C_CS_NA_1::encode_information_objects. *)
Definition C_CS_NA_1_encode (p : C_CS_NA_1) (_ : Vsq) (addressing : AsduAddressing) (buf : bytes) : bytes :=
  Cp56_encode (cs_time p) (encode_ioa (ioa_size addressing) (cs_ioa p) buf).
(** types/system.rs 203-211, C_CS_NA_1::decode_information_objects. *)
Definition C_CS_NA_1_decode (_ : Vsq) (addressing : AsduAddressing) : Dec C_CS_NA_1 :=
  decode_ioa (ioa_size addressing) ≫= fun ioa =>
  Cp56_decode ≫= fun time => mret (mkC_CS_NA_1 ioa time).

(** types/system.rs 223-231, C_RP_NA_1::encode_information_objects. *)
Definition C_RP_NA_1_encode (p : C_RP_NA_1) (_ : Vsq) (addressing : AsduAddressing) (buf : bytes) : bytes :=
  Qrp_encode (rp_qrp p) (encode_ioa (ioa_size addressing) (rp_ioa p) buf).
(** types/system.rs 232-240, C_RP_NA_1::decode_information_objects. *)
Definition C_RP_NA_1_decode (_ : Vsq) (addressing : AsduAddressing) : Dec C_RP_NA_1 :=
  decode_ioa (ioa_size addressing) ≫= fun ioa =>
  Qrp_decode ≫= fun qrp => mret (mkC_RP_NA_1 ioa qrp).

(** A payload that is one fixed-length object. *)
Definition fixed_payload {P} (tid : Z) (enc : P -> Vsq -> AsduAddressing -> bytes -> bytes)
    (dec : Vsq -> AsduAddressing -> Dec P) (len : AsduAddressing -> nat)
    (wf : AsduAddressing -> P -> Prop) (Ht : is_u8 tid)
    (C : ∀ vsq ad, FixedCodec (len ad) (fun p => enc p vsq ad) (dec vsq ad) (wf ad)) : AsduPayload P.
Proof.
  refine {| TYPE_ID := tid; encode_information_objects := enc;
            decode_information_objects := dec; payload_ok _ := wf |}.
  - exact Ht.
  - intros. by apply (fc_octets _ _ _ _ (C vsq ad)).
  - intros. by apply (fc_roundtrip _ _ _ _ (C vsq ad)).
  - intros. eapply dec_total_weaken; [by eapply fc_total|done].
Defined.

End WithBytes.

(** Reassociate two decoders that run the same reads. *)
Ltac dec_assoc :=
  let b := fresh in intros b; unfold mbind, Dec_bind, mret, Dec_ret;
  repeat (match goal with |- context [match ?m ?c with (_, _) => _ end] =>
    destruct (m c) as [[] ?] end; try done).

Section Instances.
Context `{BC : BytesCrate}.

Lemma object_iso {A P} len (enc : A -> bytes -> bytes) (dec : Dec A) (wf : A -> Prop)
    (C : FixedCodec len enc dec wf) size (mk : Ioa -> A -> P) (ioa : P -> Ioa) (val : P -> A) :
  (∀ p, mk (ioa p) (val p) = p) -> (∀ i a, ioa (mk i a) = i) -> (∀ i a, val (mk i a) = a) ->
  FixedCodec (ioa_len size + len)
    (fun p buf => enc (val p) (encode_ioa size (ioa p) buf))
    (decode_ioa size ≫= fun i => dec ≫= fun a => mret (mk i a))
    (fun p => ioa_ok size (ioa p) /\ wf (val p)).
Proof.
  intros H1 H2 H3.
  apply (iso_codec _ (fun p => mk p.1 p.2) (fun p => (ioa p, val p))
    (fun p buf => enc p.2 (encode_ioa size p.1 buf)) _
    (decode_ioa size ≫= fun a => dec ≫= fun b => mret (a, b)) _
    (fun p => ioa_ok size p.1 /\ wf p.2)); simpl.
  - done.
  - dec_assoc.
  - done.
  - done.
  - intros []. by rewrite H2, H3.
  - apply pair_codec; [apply ioa_codec|done].
Qed.

#[export] Program Instance M_EI_NA_1_payload : AsduPayload M_EI_NA_1 :=
  fixed_payload 70 M_EI_NA_1_encode M_EI_NA_1_decode (fun ad => ioa_len (ioa_size ad) + 1)%nat
    (fun ad p => ioa_ok (ioa_size ad) (ei_ioa p) /\ Coi_wf (ei_coi p)) _ _.
Next Obligation. done. Qed.
Next Obligation. intros. apply (object_iso _ _ _ _ Coi_codec); try done. by intros []. Qed.

#[export] Program Instance C_CI_NA_1_payload : AsduPayload C_CI_NA_1 :=
  fixed_payload 101 C_CI_NA_1_encode C_CI_NA_1_decode (fun ad => ioa_len (ioa_size ad) + 1)%nat
    (fun ad p => ioa_ok (ioa_size ad) (ci_ioa p) /\ Qcc_wf (ci_qcc p)) _ _.
Next Obligation. done. Qed.
Next Obligation. intros. apply (object_iso _ _ _ _ Qcc_codec); try done. by intros []. Qed.

#[export] Program Instance C_RD_NA_1_payload : AsduPayload C_RD_NA_1 :=
  fixed_payload 102 C_RD_NA_1_encode C_RD_NA_1_decode (fun ad => ioa_len (ioa_size ad))
    (fun ad p => ioa_ok (ioa_size ad) (rd_ioa p)) _ _.
Next Obligation. done. Qed.
Next Obligation.
  intros. by eapply (iso_codec _ mkC_RD_NA_1 rd_ioa); [..|apply ioa_codec]; try done; intros [].
Qed.

#[export] Program Instance C_CS_NA_1_payload : AsduPayload C_CS_NA_1 :=
  fixed_payload 103 C_CS_NA_1_encode C_CS_NA_1_decode (fun ad => ioa_len (ioa_size ad) + Cp56_LEN)%nat
    (fun ad p => ioa_ok (ioa_size ad) (cs_ioa p) /\ Cp56_wf (cs_time p)) _ _.
Next Obligation. done. Qed.
Next Obligation. intros. apply (object_iso _ _ _ _ Cp56_codec); try done. by intros []. Qed.

#[export] Program Instance C_RP_NA_1_payload : AsduPayload C_RP_NA_1 :=
  fixed_payload 105 C_RP_NA_1_encode C_RP_NA_1_decode (fun ad => ioa_len (ioa_size ad) + 1)%nat
    (fun ad p => ioa_ok (ioa_size ad) (rp_ioa p) /\ Qrp_wf (rp_qrp p)) _ _.
Next Obligation. done. Qed.
Next Obligation. intros. apply (object_iso _ _ _ _ Qrp_codec); try done. by intros []. Qed.

End Instances.

(** ** Lists of objects through the envelope *)

Section Lists.
Context `{BC : BytesCrate} {tid : Z} {V : Type} `{!TypeId tid, !InfoElement V}.

Lemma list_section vsq ad (p : IoPayload tid V) : 0 <= vsq_count vsq -> Forall (fun o => ie_wf o.2) (objects p) ->
  run (IoPayload_decode (tid := tid) (V := V) vsq ad) (IoPayload_encode p vsq ad []) = Ok p <-> IoPayload_ok vsq ad p.
Proof.
  intros Hc Hwf. split.
  - unfold run, IoPayload_decode. pose proof (decode_io_list_carried ie_lawful vsq ad Hc _ (octets_encode_any ie_lawful _ vsq ad Hwf)) as H.
    unfold IoPayload_encode. unfold mbind, Dec_bind.
    destruct (decode_io_list ie_read vsq ad (encode_io_list ie_write (objects p) vsq ad [])) as [[l|[]|] b]; try done.
    intros [= <-]. cbn [objects]. destruct H as [(H1 & H2 & H3 & H4) _]. by split_and!.
  - intros Hp. unfold run. pose proof (payload_roundtrip (P := IoPayload tid V) vsq ad p [] Hp) as H.
    rewrite app_nil_r in H. cbn [decode_information_objects encode_information_objects IoPayload_payload] in H. by rewrite H.
Qed.

(** C38. The list payloads of the monitoring and the command types, through the
    whole trip. Built into an ASDU whose qualifier, cause and common address
    fit the header, encoded, decoded as an envelope and decoded again as the
    same type, objects whose elements are in range but whose number and whose
    addresses may be any come back exactly as they were if, and only if, the
    qualifier counts them, every address on the wire fits the configured
    width, and with SQ = 1 the addresses are the ones counted up from the
    first. *)
Theorem list_payload_exact ad cot ca vsq (p : IoPayload tid V) :
  vsq_ok vsq -> cot_ok (cot_size ad) cot -> ca_ok (ca_size ad) ca -> Forall (fun o => ie_wf o.2) (objects p) ->
  ∃ a, Asdu_decode ad (encode_to_vec (from_payload cot ca vsq p ad) ad) = (Ok a, []) /\
    type_id a = tid /\ asdu_vsq a = vsq /\ asdu_cot a = cot /\ asdu_ca a = ca /\
    (decode_payload (IoPayload tid V) a ad = Ok p <->
     vsq_count vsq = Z.of_nat (length (objects p)) /\ addresses_ok vsq (ioa_size ad) (objects p) /\
     on_wire vsq (objects p) = objects p).
Proof.
  intros Hv Hc Hca Hwf. exists (from_payload cot ca vsq p ad). split_and!; try done.
  - apply Asdu_decode_encode_ok. split; [apply type_id_u8|]. do 3 (split; [done|]). by apply (octets_encode_any ie_lawful).
  - assert (decode_payload (IoPayload tid V) (from_payload cot ca vsq p ad) ad =
      run (IoPayload_decode (tid := tid) (V := V) vsq ad) (IoPayload_encode p vsq ad [])) as ->.
    { unfold decode_payload, from_payload. cbn [type_id payload asdu_vsq TYPE_ID IoPayload_payload]. by rewrite Z.eqb_refl. }
    rewrite list_section by (done || apply Hv). unfold IoPayload_ok. tauto.
Qed.

End Lists.

(** ** The envelope's properties at built-in payload types *)

(** A single command (select, qualifier 5) and its header. *)
Definition sample_command : C_SC_NA_1 := mkIoPayload [(4660, mkSco true 5 true)].
Definition sample_cot : Cot := Cot_with_originator 3 Cot_act.

Lemma typed_payload_roundtrip_witness :
  ∃ a, Asdu_decode IEC104 (encode_to_vec (from_payload sample_cot 1 (Vsq_single 1) sample_command IEC104) IEC104)
    = (Ok a, []) /\ asdu_cot a = sample_cot /\ asdu_ca a = 1 /\
    decode_payload C_SC_NA_1 a IEC104 = Ok sample_command.
Proof.
  apply (typed_payload_roundtrip (BC := slice_bytes) (P := IoPayload 45 Sco) IEC104 sample_cot 1 (Vsq_single 1)).
  - split; simpl; lia.
  - by repeat split; vm_compute.
  - split; simpl; lia.
  - split_and!; [done| | |done]; repeat constructor; simpl; lia.
Defined.

(** An address of 25 bits does not come back. *)
Definition wide_command : C_SC_NA_1 := mkIoPayload [(16777216 + 4660, mkSco true 5 true)].
Lemma list_payload_exact_witness :
  ∃ a, Asdu_decode IEC104 (encode_to_vec (from_payload sample_cot 1 (Vsq_single 1) wide_command IEC104) IEC104)
    = (Ok a, []) /\ type_id a = 45 /\ decode_payload C_SC_NA_1 a IEC104 ≠ Ok wide_command /\
    decode_payload C_SC_NA_1 a IEC104 = Ok sample_command.
Proof.
  destruct (list_payload_exact (BC := slice_bytes) (tid := 45) (V := Sco) IEC104 sample_cot 1 (Vsq_single 1) wide_command)
    as (a & Ha & Ht & _ & _ & _ & Hiff).
  - split; simpl; lia.
  - by repeat split; vm_compute.
  - split; simpl; lia.
  - repeat constructor; simpl; lia.
  - exists a. split; [exact Ha|]. split; [exact Ht|]. split.
    + rewrite Hiff. intros (_ & H & _). apply Forall_cons in H as [H _]. unfold ioa_ok in H. cbn in H.
      unfold is_u24 in H. lia.
    + vm_compute in Ha. injection Ha as <-. vm_compute. reflexivity.
Defined.

Lemma decode_payload_robust_witness :
  match decode_payload C_IC_NA_1 (mkAsdu 100 (Vsq_single 1) Cot_act 1 [0; 0]) IEC104 with
  | Ok _ => 100 = 100
  | Err (UnknownAsduType t) => t = 100 /\ 100 ≠ 100
  | Err (Incomplete needed have) => (have < needed)%nat
  | _ => False
  end.
Proof.
  assert (Hb : octets [0; 0]) by (repeat constructor; lia).
  exact (decode_payload_robust (P := IoPayload 100 Qoi) IEC104
    (mkAsdu 100 (Vsq_single 1) Cot_act 1 [0; 0]) Hb).
Defined.

Lemma asdu_header_roundtrip_witness :
  Asdu_decode IEC101_DEFAULT (Asdu_encode (mkAsdu 1 (Vsq_single 200) (Cot_with 70) 300 [1; 2]) IEC101_DEFAULT [])
    = (Ok (mkAsdu 1 (Vsq_single 72) (Cot_with 6) 300 [1; 2]), []).
Proof.
  refine (proj1 (asdu_header_roundtrip (BC := slice_bytes) IEC101_DEFAULT
    (mkAsdu 1 (Vsq_single 200) (Cot_with 70) 300 [1; 2]) _)).
  split_and!; simpl; try (unfold is_u8, is_u16; lia). repeat constructor; lia.
Defined.

Lemma asdu_decode_faithful_witness :
  ∃ a, Asdu_decode IEC104 [1; 1; 3; 0; 1; 0; 9] = (Ok a, []) /\ asdu_ok IEC104 a /\
    encode_to_vec a IEC104 = [1; 1; 3; 0; 1; 0; 9].
Proof.
  assert (Hb : octets [1; 1; 3; 0; 1; 0; 9]) by (repeat constructor; lia).
  exact (asdu_decode_faithful (BC := slice_bytes) IEC104 _ Hb).
Defined.
