(* ===== verification/AsduFile.v ===== *)
(** * File-transfer ASDU types

    [asdu/types/file.rs]: the names, lengths, qualifiers and checksum of the
    file-transfer dialogue and its seven payload types (120-126). The segment
    [F_SG_NA_1] is the one payload whose length is a field of its own. *)

From S2P Require Import Prelude Bytes Codec AsduHeader InfoElements IoList Asdu AsduTypes.

(** ** Data *)

(** types/file.rs 34-34, NameOfFile. *)
Record NameOfFile := mkNof { nof_0 : Z }.
(** types/file.rs 51-51, NameOfSection. *)
Record NameOfSection := mkNos { nos_0 : Z }.
(** types/file.rs 57-57, NameOfSection::WHOLE_FILE. *)
Definition WHOLE_FILE : NameOfSection := mkNos 0.
(** types/file.rs 71-71, LengthOfFile. *)
Record LengthOfFile := mkLof { lof_0 : Z }.
(** types/file.rs 75-75, LengthOfFile::MAX. *)
Definition LengthOfFile_MAX : Z := 0x00FFFFFF.
(** types/file.rs 95-95, LengthOfSection. *)
Record LengthOfSection := mkLos { los_0 : Z }.
(** types/file.rs 99-99, LengthOfSection::MAX. *)
Definition LengthOfSection_MAX : Z := 0x00FFFFFF.
(** types/file.rs 124-129, Frq. *)
Record Frq := mkFrq { frq_code : Z; frq_negative : bool }.
(** types/file.rs 134-137, Frq::READY. *)
Definition Frq_READY : Frq := mkFrq 0 false.
(** types/file.rs 139-142, Frq::NOT_READY. *)
Definition Frq_NOT_READY : Frq := mkFrq 0 true.
(** types/file.rs 164-167, Srq. *)
Record Srq := mkSrq { srq_code : Z; srq_negative : bool }.
(** types/file.rs 171-174, Srq::READY. *)
Definition Srq_READY : Srq := mkSrq 0 false.
(** types/file.rs 175-178, Srq::NOT_READY. *)
Definition Srq_NOT_READY : Srq := mkSrq 0 true.

(** types/file.rs 210-222, ScqAction. *)
Inductive ScqAction :=
| ScqDefault | SelectFile | RequestFile | DeactivateFile | DeleteFile
| SelectSection | RequestSection | DeactivateSection | ScqOther (b : Z).
(** types/file.rs 201-206, Scq. *)
Record Scq := mkScq { scq_action : ScqAction; scq_status : Z }.

(** types/file.rs 225-237, ScqAction::to_bits. *)
Definition ScqAction_to_bits (a : ScqAction) : Z :=
  match a with
  | ScqDefault => 0 | SelectFile => 1 | RequestFile => 2 | DeactivateFile => 3
  | DeleteFile => 4 | SelectSection => 5 | RequestSection => 6 | DeactivateSection => 7
  | ScqOther b => Z.land b 0x0F
  end.
(** types/file.rs 239-251, ScqAction::from_bits. *)
Definition ScqAction_from_bits (b : Z) : ScqAction :=
  match Z.land b 0x0F with
  | 0 => ScqDefault | 1 => SelectFile | 2 => RequestFile | 3 => DeactivateFile
  | 4 => DeleteFile | 5 => SelectSection | 6 => RequestSection | 7 => DeactivateSection
  | n => ScqOther n
  end.
(** types/file.rs 257-262, Scq::new. *)
Definition Scq_new (action : ScqAction) (status : Z) : Scq := mkScq action (Z.land status 0x0F).

(** types/file.rs 280-293, Lsq. *)
Inductive Lsq :=
| LsqDefault | SectionWithoutDeactivate | SectionWithDeactivate
| FileWithoutDeactivate | FileWithDeactivate | LsqOther (b : Z).
(** types/file.rs 298-307, Lsq::to_bits. *)
Definition Lsq_to_bits (l : Lsq) : Z :=
  match l with
  | LsqDefault => 0 | SectionWithoutDeactivate => 1 | SectionWithDeactivate => 2
  | FileWithoutDeactivate => 3 | FileWithDeactivate => 4 | LsqOther b => b
  end.
(** types/file.rs 309-318, Lsq::from_bits. *)
Definition Lsq_from_bits (b : Z) : Lsq :=
  match b with
  | 0 => LsqDefault | 1 => SectionWithoutDeactivate | 2 => SectionWithDeactivate
  | 3 => FileWithoutDeactivate | 4 => FileWithDeactivate | n => LsqOther n
  end.

(** types/file.rs 342-351, AfqAction. *)
Inductive AfqAction :=
| AfqDefault | PositiveFile | NegativeFile | PositiveSection | NegativeSection | AfqOther (b : Z).
(** types/file.rs 333-338, Afq. *)
Record Afq := mkAfq { afq_action : AfqAction; afq_status : Z }.
(** types/file.rs 354-363, AfqAction::to_bits. *)
Definition AfqAction_to_bits (a : AfqAction) : Z :=
  match a with
  | AfqDefault => 0 | PositiveFile => 1 | NegativeFile => 2 | PositiveSection => 3
  | NegativeSection => 4 | AfqOther b => Z.land b 0x0F
  end.
(** types/file.rs 365-374, AfqAction::from_bits. *)
Definition AfqAction_from_bits (b : Z) : AfqAction :=
  match Z.land b 0x0F with
  | 0 => AfqDefault | 1 => PositiveFile | 2 => NegativeFile | 3 => PositiveSection
  | 4 => NegativeSection | n => AfqOther n
  end.
(** types/file.rs 380-385, Afq::new. *)
Definition Afq_new (action : AfqAction) (status : Z) : Afq := mkAfq action (Z.land status 0x0F).

(** types/file.rs 403-412, Sof. *)
Record Sof := mkSof {
  sof_status : Z; sof_last_file : bool; sof_sub_directory : bool; sof_active : bool }.
(** types/file.rs 416-419, Sof::LFD. *)
Definition Sof_LFD : Z := 0x20.
Definition Sof_FOR_BIT : Z := 0x40.
Definition Sof_FA : Z := 0x80.
Definition Sof_STATUS_MASK : Z := 0x1F.

(** types/file.rs 449-449, Checksum. *)
Record Checksum := mkChecksum { chs_0 : Z }.
(** types/file.rs 455-461, Checksum::of. *)
Definition Checksum_of (data : bytes) : Checksum :=
  mkChecksum (fold_left (fun acc b => as_u8 (acc + b)) data 0).
(** types/file.rs 464-466, Checksum::update. *)
Definition Checksum_update (c : Checksum) (byte : Z) : Checksum :=
  mkChecksum (as_u8 (chs_0 c + byte)).
(** types/file.rs 469-473, Checksum::update_slice. *)
Definition Checksum_update_slice (c : Checksum) (data : bytes) : Checksum :=
  mkChecksum (fold_left (fun acc b => as_u8 (acc + b)) data (chs_0 c)).

(** types/file.rs 491-496, F_FR_NA_1. *)
Record F_FR_NA_1 := mkF_FR { fr_ioa : Ioa; fr_nof : NameOfFile; fr_lof : LengthOfFile; fr_frq : Frq }.
(** types/file.rs 530-536, F_SR_NA_1. *)
Record F_SR_NA_1 := mkF_SR {
  sr_ioa : Ioa; sr_nof : NameOfFile; sr_nos : NameOfSection; sr_los : LengthOfSection; sr_srq : Srq }.
(** types/file.rs 579-584, F_SC_NA_1. *)
Record F_SC_NA_1 := mkF_SC { sc_ioa : Ioa; sc_nof : NameOfFile; sc_nos : NameOfSection; sc_scq : Scq }.
(** types/file.rs 618-624, F_LS_NA_1. *)
Record F_LS_NA_1 := mkF_LS {
  ls_ioa : Ioa; ls_nof : NameOfFile; ls_nos : NameOfSection; ls_lsq : Lsq; ls_chs : Checksum }.
(** types/file.rs 667-672, F_AF_NA_1. *)
Record F_AF_NA_1 := mkF_AF { af_ioa : Ioa; af_nof : NameOfFile; af_nos : NameOfSection; af_afq : Afq }.
(** types/file.rs 708-708, MAX_SEGMENT_BYTES. *)
Definition MAX_SEGMENT_BYTES : nat := 255.
(** types/file.rs 714-720, F_SG_NA_1. *)
Record F_SG_NA_1 := mkF_SG {
  sg_ioa : Ioa; sg_nof : NameOfFile; sg_nos : NameOfSection; sg_segment : bytes }.
(** types/file.rs 765-770, DirectoryEntry. *)
Record DirectoryEntry := mkDirEntry {
  de_nof : NameOfFile; de_lof : LengthOfFile; de_sof : Sof; de_time : Cp56Time2a }.
(** types/file.rs 803-805, F_DR_TA_1. *)
Record F_DR_TA_1 := mkF_DR { dr_entries : list (Ioa * DirectoryEntry) }.

#[export] Instance Nof_eq_dec : EqDecision NameOfFile.
Proof. solve_decision. Defined.
#[export] Instance Nos_eq_dec : EqDecision NameOfSection.
Proof. solve_decision. Defined.
#[export] Instance Lof_eq_dec : EqDecision LengthOfFile.
Proof. solve_decision. Defined.
#[export] Instance Los_eq_dec : EqDecision LengthOfSection.
Proof. solve_decision. Defined.
#[export] Instance Frq_eq_dec : EqDecision Frq.
Proof. solve_decision. Defined.
#[export] Instance Srq_eq_dec : EqDecision Srq.
Proof. solve_decision. Defined.
#[export] Instance ScqAction_eq_dec : EqDecision ScqAction.
Proof. solve_decision. Defined.
#[export] Instance Scq_eq_dec : EqDecision Scq.
Proof. solve_decision. Defined.
#[export] Instance Lsq_eq_dec : EqDecision Lsq.
Proof. solve_decision. Defined.
#[export] Instance AfqAction_eq_dec : EqDecision AfqAction.
Proof. solve_decision. Defined.
#[export] Instance Afq_eq_dec : EqDecision Afq.
Proof. solve_decision. Defined.
#[export] Instance Sof_eq_dec : EqDecision Sof.
Proof. solve_decision. Defined.
#[export] Instance Checksum_eq_dec : EqDecision Checksum.
Proof. solve_decision. Defined.
#[export] Instance F_FR_eq_dec : EqDecision F_FR_NA_1.
Proof. solve_decision. Defined.
#[export] Instance F_SR_eq_dec : EqDecision F_SR_NA_1.
Proof. solve_decision. Defined.
#[export] Instance F_SC_eq_dec : EqDecision F_SC_NA_1.
Proof. solve_decision. Defined.
#[export] Instance F_LS_eq_dec : EqDecision F_LS_NA_1.
Proof. solve_decision. Defined.
#[export] Instance F_AF_eq_dec : EqDecision F_AF_NA_1.
Proof. solve_decision. Defined.
#[export] Instance F_SG_eq_dec : EqDecision F_SG_NA_1.
Proof. solve_decision. Defined.
#[export] Instance DirEntry_eq_dec : EqDecision DirectoryEntry.
Proof. solve_decision. Defined.

Section WithBytes.
Context `{BC : BytesCrate}.

(** ** Element codecs *)

(** types/file.rs 39-41, NameOfFile::encode. *)
Definition NameOfFile_encode (n : NameOfFile) (buf : bytes) : bytes := put_u16_le (nof_0 n) buf.
(** types/file.rs 43-46, NameOfFile::decode. *)
Definition NameOfFile_decode : Dec NameOfFile :=
  ensure 2 ≫= fun _ => get_u16_le ≫= fun z => mret (mkNof z).
(** types/file.rs 59-61, NameOfSection::encode. *)
Definition NameOfSection_encode (n : NameOfSection) (buf : bytes) : bytes := put_u16_le (nos_0 n) buf.
(** types/file.rs 63-66, NameOfSection::decode. *)
Definition NameOfSection_decode : Dec NameOfSection :=
  ensure 2 ≫= fun _ => get_u16_le ≫= fun z => mret (mkNos z).

(** types/file.rs 77-82, LengthOfFile::encode. *)
Definition LengthOfFile_encode (l : LengthOfFile) (buf : bytes) : bytes :=
  let v := Z.land (lof_0 l) LengthOfFile_MAX in
  let buf := put_u8 (as_u8 v) buf in
  let buf := put_u8 (as_u8 (Z.shiftr v 8)) buf in
  put_u8 (as_u8 (Z.shiftr v 16)) buf.
(** types/file.rs 84-90, LengthOfFile::decode. *)
Definition LengthOfFile_decode : Dec LengthOfFile :=
  ensure 3 ≫= fun _ =>
  get_u8 ≫= fun b0 => get_u8 ≫= fun b1 => get_u8 ≫= fun b2 =>
  mret (mkLof (Z.lor (Z.lor b0 (Z.shiftl b1 8)) (Z.shiftl b2 16))).
(** types/file.rs 101-106, LengthOfSection::encode. *)
Definition LengthOfSection_encode (l : LengthOfSection) (buf : bytes) : bytes :=
  let v := Z.land (los_0 l) LengthOfSection_MAX in
  let buf := put_u8 (as_u8 v) buf in
  let buf := put_u8 (as_u8 (Z.shiftr v 8)) buf in
  put_u8 (as_u8 (Z.shiftr v 16)) buf.
(** types/file.rs 108-114, LengthOfSection::decode. *)
Definition LengthOfSection_decode : Dec LengthOfSection :=
  ensure 3 ≫= fun _ =>
  get_u8 ≫= fun b0 => get_u8 ≫= fun b1 => get_u8 ≫= fun b2 =>
  mret (mkLos (Z.lor (Z.lor b0 (Z.shiftl b1 8)) (Z.shiftl b2 16))).

(** types/file.rs 144-150, Frq::encode. *)
Definition Frq_encode (q : Frq) (buf : bytes) : bytes :=
  let b := Z.land (frq_code q) 0x7F in
  let b := or_if (frq_negative q) 0x80 b in
  put_u8 b buf.
(** types/file.rs 152-159, Frq::decode. *)
Definition Frq_decode : Dec Frq :=
  ensure 1 ≫= fun _ => get_u8 ≫= fun b => mret (mkFrq (Z.land b 0x7F) (has_bits b 0x80)).
(** types/file.rs 180-186, Srq::encode. *)
Definition Srq_encode (q : Srq) (buf : bytes) : bytes :=
  let b := Z.land (srq_code q) 0x7F in
  let b := or_if (srq_negative q) 0x80 b in
  put_u8 b buf.
(** types/file.rs 188-195, Srq::decode. *)
Definition Srq_decode : Dec Srq :=
  ensure 1 ≫= fun _ => get_u8 ≫= fun b => mret (mkSrq (Z.land b 0x7F) (has_bits b 0x80)).

(** types/file.rs 264-266, Scq::encode. *)
Definition Scq_encode (s : Scq) (buf : bytes) : bytes :=
  put_u8 (Z.lor (Z.land (ScqAction_to_bits (scq_action s)) 0x0F)
                (as_u8 (Z.shiftl (Z.land (scq_status s) 0x0F) 4))) buf.
(** types/file.rs 268-275, Scq::decode. *)
Definition Scq_decode : Dec Scq :=
  ensure 1 ≫= fun _ => get_u8 ≫= fun b =>
  mret (mkScq (ScqAction_from_bits (Z.land b 0x0F)) (Z.land (Z.shiftr b 4) 0x0F)).
(** types/file.rs 320-322, Lsq::encode. *)
Definition Lsq_encode (l : Lsq) (buf : bytes) : bytes := put_u8 (Lsq_to_bits l) buf.
(** types/file.rs 324-327, Lsq::decode. *)
Definition Lsq_decode : Dec Lsq := ensure 1 ≫= fun _ => get_u8 ≫= fun b => mret (Lsq_from_bits b).
(** types/file.rs 387-389, Afq::encode. *)
Definition Afq_encode (a : Afq) (buf : bytes) : bytes :=
  put_u8 (Z.lor (Z.land (AfqAction_to_bits (afq_action a)) 0x0F)
                (as_u8 (Z.shiftl (Z.land (afq_status a) 0x0F) 4))) buf.
(** types/file.rs 391-398, Afq::decode. *)
Definition Afq_decode : Dec Afq :=
  ensure 1 ≫= fun _ => get_u8 ≫= fun b =>
  mret (mkAfq (AfqAction_from_bits (Z.land b 0x0F)) (Z.land (Z.shiftr b 4) 0x0F)).

(** types/file.rs 421-433, Sof::encode. *)
Definition Sof_encode (s : Sof) (buf : bytes) : bytes :=
  let b := Z.land (sof_status s) Sof_STATUS_MASK in
  let b := or_if (sof_last_file s) Sof_LFD b in
  let b := or_if (sof_sub_directory s) Sof_FOR_BIT b in
  let b := or_if (sof_active s) Sof_FA b in
  put_u8 b buf.
(** types/file.rs 435-444, Sof::decode. *)
Definition Sof_decode : Dec Sof :=
  ensure 1 ≫= fun _ => get_u8 ≫= fun b =>
  mret (mkSof (Z.land b Sof_STATUS_MASK) (has_bits b Sof_LFD) (has_bits b Sof_FOR_BIT)
          (has_bits b Sof_FA)).
(** types/file.rs 475-477, Checksum::encode. *)
Definition Checksum_encode (c : Checksum) (buf : bytes) : bytes := put_u8 (chs_0 c) buf.
(** types/file.rs 479-482, Checksum::decode. *)
Definition Checksum_decode : Dec Checksum :=
  ensure 1 ≫= fun _ => get_u8 ≫= fun b => mret (mkChecksum b).

Definition Nof_wf (n : NameOfFile) : Prop := is_u16 (nof_0 n).
Definition Nos_wf (n : NameOfSection) : Prop := is_u16 (nos_0 n).
Definition Lof_wf (l : LengthOfFile) : Prop := is_u24 (lof_0 l).
Definition Los_wf (l : LengthOfSection) : Prop := is_u24 (los_0 l).
Definition Frq_wf (q : Frq) : Prop := 0 <= frq_code q < 128.
Definition Srq_wf (q : Srq) : Prop := 0 <= srq_code q < 128.
Definition Scq_wf (s : Scq) : Prop :=
  match scq_action s with ScqOther b => 8 <= b < 16 | _ => True end /\ 0 <= scq_status s < 16.
Definition Lsq_wf (l : Lsq) : Prop := match l with LsqOther b => 5 <= b < 256 | _ => True end.
Definition Afq_wf (a : Afq) : Prop :=
  match afq_action a with AfqOther b => 5 <= b < 16 | _ => True end /\ 0 <= afq_status a < 16.
Definition Sof_wf (s : Sof) : Prop := 0 <= sof_status s < 32.
Definition Chs_wf (c : Checksum) : Prop := is_u8 (chs_0 c).

Lemma Nof_codec : FixedCodec 2 NameOfFile_encode NameOfFile_decode Nof_wf.
Proof. apply (newtype_codec 2 nof_0 mkNof); [by intros []|done|apply u16_codec]. Qed.
Lemma Nos_codec : FixedCodec 2 NameOfSection_encode NameOfSection_decode Nos_wf.
Proof. apply (newtype_codec 2 nos_0 mkNos); [by intros []|done|apply u16_codec]. Qed.

(** A 24-bit length, masked and split into three octets, is a 3-octet
    address. *)
Lemma len24_split v : is_u24 v ->
  as_u8 (Z.land v 0x00FFFFFF) = as_u8 v /\
  as_u8 (Z.shiftr (Z.land v 0x00FFFFFF) 8) = as_u8 (Z.shiftr v 8) /\
  as_u8 (Z.shiftr (Z.land v 0x00FFFFFF) 16) = as_u8 (Z.shiftr v 16).
Proof.
  intros H. change 0x00FFFFFF with (Z.ones 24). rewrite Z.land_ones by lia.
  unfold is_u24 in H. rewrite Z.mod_small by lia. done.
Qed.

Lemma len24_codec {A} (proj : A -> Z) (mk : Z -> A) :
  (∀ a, mk (proj a) = a) -> (∀ z, proj (mk z) = z) ->
  FixedCodec 3
    (fun a buf => let v := Z.land (proj a) 0x00FFFFFF in
       put_u8 (as_u8 (Z.shiftr v 16)) (put_u8 (as_u8 (Z.shiftr v 8)) (put_u8 (as_u8 v) buf)))
    (ensure 3 ≫= fun _ => get_u8 ≫= fun b0 => get_u8 ≫= fun b1 => get_u8 ≫= fun b2 =>
       mret (mk (Z.lor (Z.lor b0 (Z.shiftl b1 8)) (Z.shiftl b2 16))))
    (fun a => is_u24 (proj a)).
Proof.
  intros H1 H2. split; intros; cbv zeta; autorewrite with buf; simpl app.
  - by rewrite <- !app_assoc.
  - done.
  - rewrite !octets_cons. eauto using as_u8_u8, octets_nil.
  - run_reads. rewrite ioa3_join by apply as_u8_u8. rewrite <- (H1 a) at 4. do 3 f_equal.
    destruct (len24_split _ H) as (-> & -> & ->).
    unfold is_u24, as_u8 in *. rewrite !Z.shiftr_div_pow2 by lia. lia.
  - erewrite dec_bind_err by (by apply ensure_short). eauto 10.
  - destruct_buf b 3%nat. run_reads. rewrite !octets_cons in H.
    destruct H as (? & ? & ? & _). eexists; split; [|reflexivity].
    rewrite H2, ioa3_join by done. unfold is_u8, is_u24 in *. lia.
Qed.

Lemma Lof_codec : FixedCodec 3 LengthOfFile_encode LengthOfFile_decode Lof_wf.
Proof. by apply (len24_codec lof_0 mkLof); [intros []|]. Qed.
Lemma Los_codec : FixedCodec 3 LengthOfSection_encode LengthOfSection_decode Los_wf.
Proof. by apply (len24_codec los_0 mkLos); [intros []|]. Qed.

Lemma Frq_codec : FixedCodec 1 Frq_encode Frq_decode Frq_wf.
Proof.
  apply (octet_codec (fun q => or_if (frq_negative q) 0x80 (Z.land (frq_code q) 0x7F))
    (fun b => mkFrq (Z.land b 0x7F) (has_bits b 0x80))); unfold Frq_wf, is_u8.
  - intros [q []] H; simpl in *; enum q.
  - intros [q []] H; simpl in *; enum q.
  - simpl; intros b H; enum b.
Qed.
Lemma Srq_codec : FixedCodec 1 Srq_encode Srq_decode Srq_wf.
Proof.
  apply (octet_codec (fun q => or_if (srq_negative q) 0x80 (Z.land (srq_code q) 0x7F))
    (fun b => mkSrq (Z.land b 0x7F) (has_bits b 0x80))); unfold Srq_wf, is_u8.
  - intros [q []] H; simpl in *; enum q.
  - intros [q []] H; simpl in *; enum q.
  - simpl; intros b H; enum b.
Qed.

(** Two nibbles in one octet. *)
Lemma nibbles lo hi : 0 <= lo < 16 -> 0 <= hi < 16 ->
  let b := Z.lor (Z.land lo 0x0F) (as_u8 (Z.shiftl (Z.land hi 0x0F) 4)) in
  is_u8 b /\ Z.land b 0x0F = lo /\ Z.land (Z.shiftr b 4) 0x0F = hi.
Proof. intros Hl Hh. unfold is_u8. zcases Hh; enum lo. Qed.

Lemma nibbles_u8 b : is_u8 b -> 0 <= Z.land b 0x0F < 16 /\ 0 <= Z.land (Z.shiftr b 4) 0x0F < 16.
Proof. unfold is_u8. intros H. enum b. Qed.

Lemma nibble_codec {A} (act : A -> Z) (of_bits : Z -> A) (awf : A -> Prop)
    {S} (mk : A -> Z -> S) (pa : S -> A) (ps : S -> Z) :
  (∀ a, awf a -> 0 <= act a < 16 /\ of_bits (act a) = a) ->
  (∀ z, 0 <= z < 16 -> awf (of_bits z)) ->
  (∀ s, mk (pa s) (ps s) = s) -> (∀ a z, pa (mk a z) = a) -> (∀ a z, ps (mk a z) = z) ->
  FixedCodec 1
    (fun s => put_u8 (Z.lor (Z.land (act (pa s)) 0x0F) (as_u8 (Z.shiftl (Z.land (ps s) 0x0F) 4))))
    (ensure 1 ≫= fun _ => get_u8 ≫= fun b =>
       mret (mk (of_bits (Z.land b 0x0F)) (Z.land (Z.shiftr b 4) 0x0F)))
    (fun s => awf (pa s) /\ 0 <= ps s < 16).
Proof.
  intros Ha Hz H1 H2 H3.
  apply (octet_codec (fun s => Z.lor (Z.land (act (pa s)) 0x0F) (as_u8 (Z.shiftl (Z.land (ps s) 0x0F) 4)))
    (fun b => mk (of_bits (Z.land b 0x0F)) (Z.land (Z.shiftr b 4) 0x0F))).
  - intros s [Hs Hst]. apply nibbles; [|done]. by apply Ha.
  - intros s [Hs Hst]. destruct (Ha _ Hs) as [Hr Ho].
    destruct (nibbles _ _ Hr Hst) as (_ & -> & ->). by rewrite Ho.
  - intros b Hb. rewrite H2, H3. destruct (nibbles_u8 b Hb). eauto.
Qed.

Definition ScqAction_wf (a : ScqAction) : Prop :=
  match a with ScqOther b => 8 <= b < 16 | _ => True end.
Definition AfqAction_wf (a : AfqAction) : Prop :=
  match a with AfqOther b => 5 <= b < 16 | _ => True end.

Lemma ScqAction_bits a : ScqAction_wf a ->
  0 <= ScqAction_to_bits a < 16 /\ ScqAction_from_bits (ScqAction_to_bits a) = a.
Proof.
  destruct a as [| | | | | | | |z]; try done. simpl. intros H. assert (Hz : 0 <= z < 16) by lia.
  zcases Hz; done || lia.
Qed.
Lemma AfqAction_bits a : AfqAction_wf a ->
  0 <= AfqAction_to_bits a < 16 /\ AfqAction_from_bits (AfqAction_to_bits a) = a.
Proof.
  destruct a as [| | | | |z]; try done. simpl. intros H. assert (Hz : 0 <= z < 16) by lia.
  zcases Hz; done || lia.
Qed.

Lemma Scq_codec : FixedCodec 1 Scq_encode Scq_decode Scq_wf.
Proof.
  apply (nibble_codec ScqAction_to_bits ScqAction_from_bits ScqAction_wf mkScq scq_action scq_status);
    [apply ScqAction_bits| |by intros []|done|done].
  intros z Hz. zcases Hz; done.
Qed.
Lemma Afq_codec : FixedCodec 1 Afq_encode Afq_decode Afq_wf.
Proof.
  apply (nibble_codec AfqAction_to_bits AfqAction_from_bits AfqAction_wf mkAfq afq_action afq_status);
    [apply AfqAction_bits| |by intros []|done|done].
  intros z Hz. zcases Hz; done.
Qed.

Lemma Lsq_codec : FixedCodec 1 Lsq_encode Lsq_decode Lsq_wf.
Proof.
  apply (octet_codec Lsq_to_bits Lsq_from_bits); unfold is_u8.
  - intros [] H; simpl in *; lia.
  - intros [| | | | |b] H; try done. simpl in *. unfold Lsq_from_bits.
    destruct b as [|[[[]|[]|]|[[]|[]|]|]|]; try done; lia.
  - intros b Hb. unfold Lsq_wf, Lsq_from_bits.
    destruct b as [|[[[]|[]|]|[[]|[]|]|]|]; try done; lia.
Qed.

Lemma Sof_codec : FixedCodec 1 Sof_encode Sof_decode Sof_wf.
Proof.
  apply (octet_codec (fun s => or_if (sof_active s) Sof_FA (or_if (sof_sub_directory s) Sof_FOR_BIT
      (or_if (sof_last_file s) Sof_LFD (Z.land (sof_status s) Sof_STATUS_MASK))))
    (fun b => mkSof (Z.land b Sof_STATUS_MASK) (has_bits b Sof_LFD) (has_bits b Sof_FOR_BIT)
       (has_bits b Sof_FA))); unfold Sof_wf, is_u8.
  - intros [s [] [] []] H; simpl in *; enum s.
  - intros [s [] [] []] H; simpl in *; enum s.
  - simpl; intros b H; enum b.
Qed.

Lemma Chs_codec : FixedCodec 1 Checksum_encode Checksum_decode Chs_wf.
Proof. by apply (octet_codec chs_0 mkChecksum); [|intros []|]. Qed.

(** ** Payloads *)

(** types/file.rs 500-510, F_FR_NA_1::encode_information_objects. *)
Definition F_FR_NA_1_encode (p : F_FR_NA_1) (_ : Vsq) (addressing : AsduAddressing) (buf : bytes) : bytes :=
  let buf := encode_ioa (ioa_size addressing) (fr_ioa p) buf in
  let buf := NameOfFile_encode (fr_nof p) buf in
  let buf := LengthOfFile_encode (fr_lof p) buf in
  Frq_encode (fr_frq p) buf.
(** types/file.rs 511-521, F_FR_NA_1::decode_information_objects. *)
Definition F_FR_NA_1_decode (_ : Vsq) (addressing : AsduAddressing) : Dec F_FR_NA_1 :=
  decode_ioa (ioa_size addressing) ≫= fun ioa =>
  NameOfFile_decode ≫= fun nof =>
  LengthOfFile_decode ≫= fun lof =>
  Frq_decode ≫= fun frq =>
  mret (mkF_FR ioa nof lof frq).

(** types/file.rs 540-551, F_SR_NA_1::encode_information_objects. *)
Definition F_SR_NA_1_encode (p : F_SR_NA_1) (_ : Vsq) (addressing : AsduAddressing) (buf : bytes) : bytes :=
  let buf := encode_ioa (ioa_size addressing) (sr_ioa p) buf in
  let buf := NameOfFile_encode (sr_nof p) buf in
  let buf := NameOfSection_encode (sr_nos p) buf in
  let buf := LengthOfSection_encode (sr_los p) buf in
  Srq_encode (sr_srq p) buf.
(** types/file.rs 552-569, F_SR_NA_1::decode_information_objects. *)
Definition F_SR_NA_1_decode (_ : Vsq) (addressing : AsduAddressing) : Dec F_SR_NA_1 :=
  decode_ioa (ioa_size addressing) ≫= fun ioa =>
  NameOfFile_decode ≫= fun nof =>
  NameOfSection_decode ≫= fun nos =>
  LengthOfSection_decode ≫= fun los =>
  Srq_decode ≫= fun srq =>
  mret (mkF_SR ioa nof nos los srq).

(** types/file.rs 588-598, F_SC_NA_1::encode_information_objects. *)
Definition F_SC_NA_1_encode (p : F_SC_NA_1) (_ : Vsq) (addressing : AsduAddressing) (buf : bytes) : bytes :=
  let buf := encode_ioa (ioa_size addressing) (sc_ioa p) buf in
  let buf := NameOfFile_encode (sc_nof p) buf in
  let buf := NameOfSection_encode (sc_nos p) buf in
  Scq_encode (sc_scq p) buf.
(** types/file.rs 599-609, F_SC_NA_1::decode_information_objects. *)
Definition F_SC_NA_1_decode (_ : Vsq) (addressing : AsduAddressing) : Dec F_SC_NA_1 :=
  decode_ioa (ioa_size addressing) ≫= fun ioa =>
  NameOfFile_decode ≫= fun nof =>
  NameOfSection_decode ≫= fun nos =>
  Scq_decode ≫= fun scq =>
  mret (mkF_SC ioa nof nos scq).

(** types/file.rs 628-639, F_LS_NA_1::encode_information_objects. *)
Definition F_LS_NA_1_encode (p : F_LS_NA_1) (_ : Vsq) (addressing : AsduAddressing) (buf : bytes) : bytes :=
  let buf := encode_ioa (ioa_size addressing) (ls_ioa p) buf in
  let buf := NameOfFile_encode (ls_nof p) buf in
  let buf := NameOfSection_encode (ls_nos p) buf in
  let buf := Lsq_encode (ls_lsq p) buf in
  Checksum_encode (ls_chs p) buf.
(** types/file.rs 640-657, F_LS_NA_1::decode_information_objects. *)
Definition F_LS_NA_1_decode (_ : Vsq) (addressing : AsduAddressing) : Dec F_LS_NA_1 :=
  decode_ioa (ioa_size addressing) ≫= fun ioa =>
  NameOfFile_decode ≫= fun nof =>
  NameOfSection_decode ≫= fun nos =>
  Lsq_decode ≫= fun lsq =>
  Checksum_decode ≫= fun chs =>
  mret (mkF_LS ioa nof nos lsq chs).

(** types/file.rs 676-686, F_AF_NA_1::encode_information_objects. *)
Definition F_AF_NA_1_encode (p : F_AF_NA_1) (_ : Vsq) (addressing : AsduAddressing) (buf : bytes) : bytes :=
  let buf := encode_ioa (ioa_size addressing) (af_ioa p) buf in
  let buf := NameOfFile_encode (af_nof p) buf in
  let buf := NameOfSection_encode (af_nos p) buf in
  Afq_encode (af_afq p) buf.
(** types/file.rs 687-697, F_AF_NA_1::decode_information_objects. *)
Definition F_AF_NA_1_decode (_ : Vsq) (addressing : AsduAddressing) : Dec F_AF_NA_1 :=
  decode_ioa (ioa_size addressing) ≫= fun ioa =>
  NameOfFile_decode ≫= fun nof =>
  NameOfSection_decode ≫= fun nos =>
  Afq_decode ≫= fun afq =>
  mret (mkF_AF ioa nof nos afq).

(** types/file.rs 724-736, F_SG_NA_1::encode_information_objects. *)
Definition F_SG_NA_1_encode (p : F_SG_NA_1) (_ : Vsq) (addressing : AsduAddressing) (buf : bytes) : bytes :=
  let buf := encode_ioa (ioa_size addressing) (sg_ioa p) buf in
  let buf := NameOfFile_encode (sg_nof p) buf in
  let buf := NameOfSection_encode (sg_nos p) buf in
  let len := as_u8 (Z.of_nat (Nat.min (length (sg_segment p)) MAX_SEGMENT_BYTES)) in
  let buf := put_u8 len buf in
  put_slice (take (Z.to_nat len) (sg_segment p)) buf.
(** types/file.rs 737-756, F_SG_NA_1::decode_information_objects. *)
Definition F_SG_NA_1_decode (_ : Vsq) (addressing : AsduAddressing) : Dec F_SG_NA_1 :=
  decode_ioa (ioa_size addressing) ≫= fun ioa =>
  NameOfFile_decode ≫= fun nof =>
  NameOfSection_decode ≫= fun nos =>
  ensure 1 ≫= fun _ =>
  get_u8 ≫= fun len =>
  ensure (Z.to_nat len) ≫= fun _ =>
  copy_to_slice (Z.to_nat len) ≫= fun segment =>
  mret (mkF_SG ioa nof nos segment).

(** types/file.rs 773-773, DirectoryEntry::LEN. *)
Definition DirectoryEntry_LEN : nat := 2 + 3 + 1 + Cp56_LEN.
(** types/file.rs 775-780, DirectoryEntry::encode. *)
Definition DirectoryEntry_encode (e : DirectoryEntry) (buf : bytes) : bytes :=
  let buf := NameOfFile_encode (de_nof e) buf in
  let buf := LengthOfFile_encode (de_lof e) buf in
  let buf := Sof_encode (de_sof e) buf in
  Cp56_encode (de_time e) buf.
(** types/file.rs 782-794, DirectoryEntry::decode. *)
Definition DirectoryEntry_decode : Dec DirectoryEntry :=
  ensure DirectoryEntry_LEN ≫= fun _ =>
  NameOfFile_decode ≫= fun nof =>
  LengthOfFile_decode ≫= fun lof =>
  Sof_decode ≫= fun sof =>
  Cp56_decode ≫= fun time =>
  mret (mkDirEntry nof lof sof time).

(** types/file.rs 809-818, F_DR_TA_1::encode_information_objects. *)
Definition F_DR_TA_1_encode (p : F_DR_TA_1) (vsq : Vsq) (addressing : AsduAddressing) (buf : bytes) : bytes :=
  encode_io_list DirectoryEntry_encode (dr_entries p) vsq addressing buf.
(** types/file.rs 819-828, F_DR_TA_1::decode_information_objects. *)
Definition F_DR_TA_1_decode (vsq : Vsq) (addressing : AsduAddressing) : Dec F_DR_TA_1 :=
  decode_io_list DirectoryEntry_decode vsq addressing ≫= fun entries => mret (mkF_DR entries).

Lemma codec_ext {A} len enc (d d' : Dec A) wf :
  (∀ b, d' b = d b) -> FixedCodec len enc d wf -> FixedCodec len enc d' wf.
Proof.
  intros Hd. apply (iso_codec len id id); try done.
  intros b. rewrite Hd. unfold mbind, Dec_bind. by destruct (d b) as [[] ?].
Qed.

Lemma DirectoryEntry_codec :
  FixedCodec DirectoryEntry_LEN DirectoryEntry_encode DirectoryEntry_decode
    (fun e => ((Nof_wf (de_nof e) /\ Lof_wf (de_lof e)) /\ Sof_wf (de_sof e)) /\ Cp56_wf (de_time e)).
Proof.
  eapply (ensure_codec DirectoryEntry_LEN _ _ _ _ (fun b _ => eq_refl)).
  eapply (iso_codec _ (fun p => mkDirEntry p.1.1.1 p.1.1.2 p.1.2 p.2)
    (fun e => (de_nof e, de_lof e, de_sof e, de_time e))); cycle -1.
  - apply (pair_codec _ _ _ _ _ _ _ _ (pair_codec _ _ _ _ _ _ _ _
      (pair_codec _ _ _ _ _ _ _ _ Nof_codec Lof_codec) Sof_codec) Cp56_codec).
  - done.
  - dec_assoc.
  - by intros [].
  - done.
  - done.
Qed.

#[export] Instance ie_DirectoryEntry : InfoElement DirectoryEntry := {| ie_lawful := DirectoryEntry_codec |}.

(** A 5-octet prefix of names shared by the payloads of the dialogue. *)
Definition names_codec := pair_codec _ _ _ _ _ _ _ _ Nof_codec Nos_codec.

End WithBytes.

Section Instances.
Context `{BC : BytesCrate}.

#[export] Program Instance F_FR_payload : AsduPayload F_FR_NA_1 :=
  fixed_payload 120 F_FR_NA_1_encode F_FR_NA_1_decode (fun ad => ioa_len (ioa_size ad) + (2 + 3 + 1))%nat
    (fun ad p => ioa_ok (ioa_size ad) (fr_ioa p) /\
       (Nof_wf (fr_nof p) /\ Lof_wf (fr_lof p)) /\ Frq_wf (fr_frq p)) _ _.
Next Obligation. done. Qed.
Next Obligation.
  intros. unfold F_FR_NA_1_decode. eapply codec_ext; [|apply (object_iso _ _ _ _
    (pair_codec _ _ _ _ _ _ _ _ (pair_codec _ _ _ _ _ _ _ _ Nof_codec Lof_codec) Frq_codec) _
    (fun i v => mkF_FR i v.1.1 v.1.2 v.2) fr_ioa (fun p => (fr_nof p, fr_lof p, fr_frq p)))];
    [dec_assoc|by intros []|done|by intros ? [[]]].
Qed.

#[export] Program Instance F_SR_payload : AsduPayload F_SR_NA_1 :=
  fixed_payload 121 F_SR_NA_1_encode F_SR_NA_1_decode (fun ad => ioa_len (ioa_size ad) + (2 + 2 + 3 + 1))%nat
    (fun ad p => ioa_ok (ioa_size ad) (sr_ioa p) /\
       ((Nof_wf (sr_nof p) /\ Nos_wf (sr_nos p)) /\ Los_wf (sr_los p)) /\ Srq_wf (sr_srq p)) _ _.
Next Obligation. done. Qed.
Next Obligation.
  intros. unfold F_SR_NA_1_decode. eapply codec_ext; [|apply (object_iso _ _ _ _
    (pair_codec _ _ _ _ _ _ _ _ (pair_codec _ _ _ _ _ _ _ _ names_codec Los_codec) Srq_codec) _
    (fun i v => mkF_SR i v.1.1.1 v.1.1.2 v.1.2 v.2) sr_ioa
    (fun p => (sr_nof p, sr_nos p, sr_los p, sr_srq p)))];
    [dec_assoc|by intros []|done|by intros ? [[[]]]].
Qed.

#[export] Program Instance F_SC_payload : AsduPayload F_SC_NA_1 :=
  fixed_payload 122 F_SC_NA_1_encode F_SC_NA_1_decode (fun ad => ioa_len (ioa_size ad) + (2 + 2 + 1))%nat
    (fun ad p => ioa_ok (ioa_size ad) (sc_ioa p) /\
       (Nof_wf (sc_nof p) /\ Nos_wf (sc_nos p)) /\ Scq_wf (sc_scq p)) _ _.
Next Obligation. done. Qed.
Next Obligation.
  intros. unfold F_SC_NA_1_decode. eapply codec_ext; [|apply (object_iso _ _ _ _
    (pair_codec _ _ _ _ _ _ _ _ names_codec Scq_codec) _
    (fun i v => mkF_SC i v.1.1 v.1.2 v.2) sc_ioa (fun p => (sc_nof p, sc_nos p, sc_scq p)))];
    [dec_assoc|by intros []|done|by intros ? [[]]].
Qed.

#[export] Program Instance F_LS_payload : AsduPayload F_LS_NA_1 :=
  fixed_payload 123 F_LS_NA_1_encode F_LS_NA_1_decode (fun ad => ioa_len (ioa_size ad) + (2 + 2 + 1 + 1))%nat
    (fun ad p => ioa_ok (ioa_size ad) (ls_ioa p) /\
       ((Nof_wf (ls_nof p) /\ Nos_wf (ls_nos p)) /\ Lsq_wf (ls_lsq p)) /\ Chs_wf (ls_chs p)) _ _.
Next Obligation. done. Qed.
Next Obligation.
  intros. unfold F_LS_NA_1_decode. eapply codec_ext; [|apply (object_iso _ _ _ _
    (pair_codec _ _ _ _ _ _ _ _ (pair_codec _ _ _ _ _ _ _ _ names_codec Lsq_codec) Chs_codec) _
    (fun i v => mkF_LS i v.1.1.1 v.1.1.2 v.1.2 v.2) ls_ioa
    (fun p => (ls_nof p, ls_nos p, ls_lsq p, ls_chs p)))];
    [dec_assoc|by intros []|done|by intros ? [[[]]]].
Qed.

#[export] Program Instance F_AF_payload : AsduPayload F_AF_NA_1 :=
  fixed_payload 124 F_AF_NA_1_encode F_AF_NA_1_decode (fun ad => ioa_len (ioa_size ad) + (2 + 2 + 1))%nat
    (fun ad p => ioa_ok (ioa_size ad) (af_ioa p) /\
       (Nof_wf (af_nof p) /\ Nos_wf (af_nos p)) /\ Afq_wf (af_afq p)) _ _.
Next Obligation. done. Qed.
Next Obligation.
  intros. unfold F_AF_NA_1_decode. eapply codec_ext; [|apply (object_iso _ _ _ _
    (pair_codec _ _ _ _ _ _ _ _ names_codec Afq_codec) _
    (fun i v => mkF_AF i v.1.1 v.1.2 v.2) af_ioa (fun p => (af_nof p, af_nos p, af_afq p)))];
    [dec_assoc|by intros []|done|by intros ? [[]]].
Qed.

#[export] Program Instance F_DR_payload : AsduPayload F_DR_TA_1 := {|
  TYPE_ID := 126;
  encode_information_objects := F_DR_TA_1_encode;
  decode_information_objects := F_DR_TA_1_decode;
  payload_ok vsq ad p := IoPayload_ok vsq ad (mkIoPayload (tid := 126) (dr_entries p));
|}.
Next Obligation. done. Qed.
Next Obligation.
  intros vsq ad p (_ & Hwf & Ha & _). by eapply octets_encode_io_list; [apply DirectoryEntry_codec|..].
Qed.
Next Obligation.
  intros vsq ad p rest (Hc & Hwf & Ha & Hw). unfold F_DR_TA_1_decode, F_DR_TA_1_encode.
  erewrite dec_bind_ok by (by apply (decode_encode_io_list DirectoryEntry_codec)).
  simpl in Hw. rewrite Hw. by destruct p.
Qed.
Next Obligation.
  intros. eapply dec_total_bind; [apply (decode_io_list_total DirectoryEntry_codec)|].
  intros. by apply dec_total_ret.
Qed.

(** ** The segment: a length octet, then that many octets *)

Lemma F_SG_encode_eq p vsq ad buf :
  F_SG_NA_1_encode p vsq ad buf =
    buf ++ encode_ioa (ioa_size ad) (sg_ioa p) [] ++ NameOfFile_encode (sg_nof p) [] ++
    NameOfSection_encode (sg_nos p) [] ++
    [Z.of_nat (Nat.min (length (sg_segment p)) 255)] ++ take 255 (sg_segment p).
Proof.
  unfold F_SG_NA_1_encode. rewrite put_slice_spec, put_u8_spec.
  rewrite (fc_append _ _ _ _ Nos_codec), (fc_append _ _ _ _ Nof_codec), (fc_append _ _ _ _ (ioa_codec _)).
  rewrite <- !app_assoc. unfold as_u8, MAX_SEGMENT_BYTES.
  rewrite Z.mod_small by lia. rewrite Nat2Z.id. do 5 f_equal.
  destruct (decide (length (sg_segment p) <= 255)%nat).
  - by rewrite Nat.min_l, !take_ge by lia.
  - by rewrite Nat.min_r by lia.
Qed.

Definition F_SG_ok (ad : AsduAddressing) (p : F_SG_NA_1) : Prop :=
  ioa_ok (ioa_size ad) (sg_ioa p) /\ Nof_wf (sg_nof p) /\ Nos_wf (sg_nos p) /\ octets (sg_segment p).

(** A segment longer than the length octet can say is cut off at 255. *)
Lemma F_SG_roundtrip p vsq ad rest : F_SG_ok ad p ->
  F_SG_NA_1_decode vsq ad (F_SG_NA_1_encode p vsq ad [] ++ rest)
    = (Ok (mkF_SG (sg_ioa p) (sg_nof p) (sg_nos p) (take 255 (sg_segment p))), rest).
Proof.
  intros (Hi & Hf & Hs & _). rewrite F_SG_encode_eq. rewrite app_nil_l, <- !app_assoc.
  unfold F_SG_NA_1_decode.
  erewrite dec_bind_ok by (by apply (fc_roundtrip _ _ _ _ (ioa_codec _))).
  erewrite dec_bind_ok by (by apply (fc_roundtrip _ _ _ _ Nof_codec)).
  erewrite dec_bind_ok by (by apply (fc_roundtrip _ _ _ _ Nos_codec)).
  cbn [app]. erewrite dec_bind_ok by (apply ensure_long; simpl; lia).
  erewrite dec_bind_ok by apply get_u8_spec. rewrite Nat2Z.id.
  assert (Hl : length (take 255 (sg_segment p)) = Nat.min (length (sg_segment p)) 255)
    by (rewrite length_take; lia).
  erewrite dec_bind_ok by (apply ensure_long; rewrite length_app; lia).
  erewrite dec_bind_ok by (apply copy_to_slice_spec; rewrite length_app; lia).
  rewrite <- Hl, take_app_length, drop_app_length. done.
Qed.

#[export] Program Instance F_SG_payload : AsduPayload F_SG_NA_1 := {|
  TYPE_ID := 125;
  encode_information_objects := F_SG_NA_1_encode;
  decode_information_objects := F_SG_NA_1_decode;
  payload_ok vsq ad p := F_SG_ok ad p /\ (length (sg_segment p) <= MAX_SEGMENT_BYTES)%nat;
|}.
Next Obligation. done. Qed.
Next Obligation.
  intros vsq ad p ((Hi & Hf & Hs & Ho) & Hl). rewrite F_SG_encode_eq, !octets_app, octets_cons.
  split_and!; eauto using octets_nil, octets_take; [eapply (fc_octets _ _ _ _ (ioa_codec _))|
    eapply (fc_octets _ _ _ _ Nof_codec)|eapply (fc_octets _ _ _ _ Nos_codec)|unfold is_u8; lia]; done.
Qed.
Next Obligation.
  intros vsq ad p rest [Hok Hl]. rewrite F_SG_roundtrip by done. rewrite take_ge by done. by destruct p.
Qed.
Next Obligation.
  intros vsq ad. eapply dec_total_bind; [eapply fc_total, ioa_codec|]. intros ioa _.
  eapply dec_total_bind; [eapply fc_total, Nof_codec|]. intros nof _.
  eapply dec_total_bind; [eapply fc_total, Nos_codec|]. intros nos _.
  intros b Hb. destruct b as [|len b].
  { erewrite dec_bind_err by (apply ensure_short; simpl; lia). simpl. lia. }
  erewrite dec_bind_ok by (apply ensure_long; simpl; lia).
  erewrite dec_bind_ok by apply get_u8_spec. apply octets_cons in Hb as [_ Hb].
  rewrite <- dec_bind_assoc.
  pose proof (dec_total_bind _ (fun segment => mret (mkF_SG ioa nof nos segment)) _ (fun _ => True)
    (ensure_copy_total (Z.to_nat len)) (fun a _ => dec_total_ret _ _ I) b Hb) as H.
  match type of H with context [match ?m b with _ => _ end] => destruct (m b) as [[|[]|] ?] end;
    try done. destruct H. split; [done|]. by apply suffix_cons_r.
Qed.

(** ** Checksums *)

Definition bytes_sum (b : bytes) : Z := foldr Z.add 0 b.

Lemma bytes_sum_app a b : bytes_sum (a ++ b) = bytes_sum a + bytes_sum b.
Proof. induction a; simpl in *; lia. Qed.

Lemma fold_sum data acc : 0 <= acc < 256 ->
  fold_left (fun acc b => as_u8 (acc + b)) data acc = (acc + bytes_sum data) mod 256.
Proof.
  revert acc. induction data as [|b data IH]; intros acc H; simpl.
  - rewrite Z.mod_small; lia.
  - rewrite IH by (unfold as_u8; lia). unfold as_u8, bytes_sum.
    rewrite Zplus_mod_idemp_l. f_equal. lia.
Qed.

Lemma Checksum_of_sum data : Checksum_of data = mkChecksum (bytes_sum data mod 256).
Proof. unfold Checksum_of. by rewrite fold_sum. Qed.

Lemma Checksum_of_wf data : Chs_wf (Checksum_of data).
Proof. rewrite Checksum_of_sum. unfold Chs_wf, is_u8. simpl. lia. Qed.

Lemma Checksum_update_slice_of a b : Checksum_update_slice (Checksum_of a) b = Checksum_of (a ++ b).
Proof.
  rewrite !Checksum_of_sum. unfold Checksum_update_slice. cbn [chs_0].
  rewrite fold_sum by lia. rewrite bytes_sum_app, Zplus_mod_idemp_l. done.
Qed.

Lemma Checksum_update_of a b : Checksum_update (Checksum_of a) b = Checksum_of (a ++ [b]).
Proof. rewrite <- Checksum_update_slice_of. done. Qed.

Lemma Checksum_of_nil : Checksum_of [] = mkChecksum 0.
Proof. done. Qed.

(** ** The properties of the file payloads *)

(** A segment ASDU round-trips with its data cut to the 255 octets its
    length octet can announce, so it is lossless exactly for segments of at
    most [MAX_SEGMENT_BYTES]. *)
Theorem segment_roundtrip p vsq ad rest : F_SG_ok ad p ->
  F_SG_NA_1_decode vsq ad (F_SG_NA_1_encode p vsq ad [] ++ rest)
    = (Ok (mkF_SG (sg_ioa p) (sg_nof p) (sg_nos p) (take MAX_SEGMENT_BYTES (sg_segment p))), rest).
Proof. apply F_SG_roundtrip. Qed.

(** The checksum of a section does not depend on how the section was cut
    into segments: folding the segments one after the other from the empty
    checksum gives the checksum of their concatenation, which is the sum of
    all octets modulo 256. *)
Theorem checksum_incremental segments :
  fold_left Checksum_update_slice segments (Checksum_of []) = Checksum_of (concat segments) /\
  Checksum_of (concat segments) = mkChecksum (bytes_sum (concat segments) mod 256).
Proof.
  split; [|apply Checksum_of_sum]. rewrite <- (app_nil_l (concat segments)).
  generalize (@nil Z). induction segments as [|s segments IH]; intros acc; simpl.
  - by rewrite app_nil_r.
  - by rewrite Checksum_update_slice_of, IH, app_assoc.
Qed.

End Instances.

Lemma segment_roundtrip_witness :
  F_SG_NA_1_decode (Vsq_single 1) IEC104
    (F_SG_NA_1_encode (mkF_SG 0 (mkNof 1) (mkNos 1) (replicate 300 7)) (Vsq_single 1) IEC104 [] ++ [5])
    = (Ok (mkF_SG 0 (mkNof 1) (mkNos 1) (replicate 255 7)), [5]).
Proof.
  apply (segment_roundtrip (BC := slice_bytes) (mkF_SG 0 (mkNof 1) (mkNos 1) (replicate 300 7))
    (Vsq_single 1) IEC104 [5]).
  split_and!; [split; simpl; lia..|]. apply Forall_replicate. split; lia.
Defined.
