(* ===== verification/Frame104.v ===== *)
(** * IEC 60870-5-104 frames

    [frame104/seq.rs], [apdu.rs] and [codec.rs]: 15-bit cyclic sequence
    numbers, the three APDU formats and the stateless codec, in its consuming
    ([decode]) and its slice-based ([decode_slice]) form. *)

From S2P Require Import Prelude Bytes Codec.

(** ** Sequence numbers *)

(** seq.rs 9-9, SeqNo. *)
Abbreviation SeqNo := Z.
(** seq.rs 12-12, SeqNo::MAX. *)
Definition SeqNo_MAX : Z := 32767.
(** seq.rs 13-13, SeqNo::MODULUS. *)
Definition SeqNo_MODULUS : Z := 32768.
(** seq.rs 16-18, SeqNo::new. *)
Definition SeqNo_new (v : Z) : SeqNo := Z.land v SeqNo_MAX.
(** seq.rs 26-28, SeqNo::add. *)
Definition SeqNo_add (s : SeqNo) (n : Z) : SeqNo := Z.land (as_u16 (s + n)) SeqNo_MAX.
(** seq.rs 31-33, SeqNo::next. *)
Definition SeqNo_next (s : SeqNo) : SeqNo := SeqNo_add s 1.
(** seq.rs 37-39, SeqNo::distance. *)
Definition SeqNo_distance (s later : SeqNo) : Z :=
  Z.land (later + SeqNo_MODULUS - s) SeqNo_MAX.
(** seq.rs 42-44, SeqNo::to_wire. *)
Definition SeqNo_to_wire (s : SeqNo) : Z := as_u16 (Z.shiftl s 1).
(** seq.rs 48-50, SeqNo::from_wire. *)
Definition SeqNo_from_wire (w : Z) : SeqNo := Z.land (Z.shiftr w 1) SeqNo_MAX.

Definition seq_ok (s : SeqNo) : Prop := 0 <= s < 32768.

Lemma land_max z : Z.land z SeqNo_MAX = z mod 32768.
Proof. unfold SeqNo_MAX. change 32767 with (Z.ones 15). by rewrite Z.land_ones. Qed.

Lemma SeqNo_new_ok v : seq_ok (SeqNo_new v).
Proof. unfold SeqNo_new, seq_ok. rewrite land_max. lia. Qed.
Lemma SeqNo_add_mod s n : SeqNo_add s n = (s + n) mod 32768.
Proof. unfold SeqNo_add, as_u16. rewrite land_max. lia. Qed.
Lemma SeqNo_next_mod s : SeqNo_next s = (s + 1) mod 32768.
Proof. apply SeqNo_add_mod. Qed.
Lemma SeqNo_next_ok s : seq_ok (SeqNo_next s).
Proof. rewrite SeqNo_next_mod. unfold seq_ok. lia. Qed.
Lemma SeqNo_distance_mod s t : SeqNo_distance s t = (t - s) mod 32768.
Proof. unfold SeqNo_distance, SeqNo_MODULUS. rewrite land_max. lia. Qed.
Lemma SeqNo_wire s : seq_ok s -> SeqNo_to_wire s = 2 * s.
Proof.
  unfold seq_ok, SeqNo_to_wire, as_u16. intros. rewrite Z.shiftl_mul_pow2 by lia.
  rewrite Z.mod_small; lia.
Qed.
Lemma SeqNo_unwire w : 0 <= w < 65536 -> SeqNo_from_wire w = w / 2.
Proof.
  intros. unfold SeqNo_from_wire. rewrite land_max, Z.shiftr_div_pow2 by lia.
  change (2 ^ 1) with 2. apply Z.mod_small. lia.
Qed.

(** ** APDUs *)

(** apdu.rs 7-7, MAX_ASDU_LEN. *)
Definition MAX_ASDU_LEN : nat := 249.
(** apdu.rs 10-10, MAX_APDU_LEN. *)
Definition MAX_APDU_LEN : nat := 255.

(** apdu.rs 17-24, UFunction. *)
Inductive UFunction :=
| StartDtAct | StartDtCon | StopDtAct | StopDtCon | TestFrAct | TestFrCon.

(** apdu.rs 29-38, UFunction::first_octet. *)
Definition UFunction_first_octet (f : UFunction) : Z :=
  match f with
  | StartDtAct => 0x07 | StartDtCon => 0x0B | StopDtAct => 0x13
  | StopDtCon => 0x23 | TestFrAct => 0x43 | TestFrCon => 0x83
  end.
(** apdu.rs 42-52, UFunction::from_first_octet. *)
Definition UFunction_from_first_octet (b : Z) : option UFunction :=
  match b with
  | 0x07 => Some StartDtAct | 0x0B => Some StartDtCon | 0x13 => Some StopDtAct
  | 0x23 => Some StopDtCon | 0x43 => Some TestFrAct | 0x83 => Some TestFrCon
  | _ => None
  end.

(** apdu.rs 57-68, Apdu. *)
Inductive Apdu :=
| ApduI (send recv : SeqNo) (asdu : bytes)
| ApduS (recv : SeqNo)
| ApduU (function : UFunction).

#[export] Instance UFunction_eq_dec : EqDecision UFunction.
Proof. solve_decision. Defined.
#[export] Instance Apdu_eq_dec : EqDecision Apdu.
Proof. solve_decision. Defined.

(** apdu.rs 76-78, ApduPayload::info. *)
Definition ApduPayload_info (send recv : SeqNo) (asdu : bytes) : Apdu := ApduI send recv asdu.
(** apdu.rs 79-81, ApduPayload::supervisory. *)
Definition ApduPayload_supervisory (recv : SeqNo) : Apdu := ApduS recv.
(** apdu.rs 82-84, ApduPayload::unnumbered. *)
Definition ApduPayload_unnumbered (function : UFunction) : Apdu := ApduU function.

(** An APDU whose numbers are 15-bit values and whose ASDU is octets. *)
Definition apdu_ok (a : Apdu) : Prop :=
  match a with
  | ApduI send recv asdu => seq_ok send /\ seq_ok recv /\ octets asdu
  | ApduS recv => seq_ok recv
  | ApduU _ => True
  end.

(** frame104/codec.rs 19-19, START. *)
Definition START : Z := 0x68.

(** [ok_or]. *)
Definition ok_or {A} (o : option A) (e : Error) : Result A :=
  match o with Some a => Ok a | None => Err e end.

Section WithBytes.
Context `{BC : BytesCrate}.

(** ** The codec *)

(** frame104/codec.rs 30-66, Codec::encode. *)
Definition encode_apdu (apdu : Apdu) (buf : bytes) : Result nat * bytes :=
  let too_long := match apdu with
    | ApduI _ _ asdu => (MAX_ASDU_LEN <? length asdu)%nat
    | _ => false
    end in
  if too_long then
    (Err (AsduTooLong (match apdu with ApduI _ _ asdu => length asdu | _ => 0 end) MAX_ASDU_LEN), buf)
  else
    let start := remaining_mut buf in
    let buf :=
      match apdu with
      | ApduI send recv asdu =>
          let len := 4 + as_u8 (Z.of_nat (length asdu)) in
          let buf := put_u8 START buf in
          let buf := put_u8 len buf in
          let buf := put_u16_le (SeqNo_to_wire send) buf in
          let buf := put_u16_le (SeqNo_to_wire recv) buf in
          put_slice asdu buf
      | ApduS recv =>
          let buf := put_u8 START buf in
          let buf := put_u8 4 buf in
          let buf := put_u8 0x01 buf in
          let buf := put_u8 0x00 buf in
          put_u16_le (SeqNo_to_wire recv) buf
      | ApduU function =>
          let buf := put_u8 START buf in
          let buf := put_u8 4 buf in
          let buf := put_u8 (UFunction_first_octet function) buf in
          let buf := put_u8 0x00 buf in
          let buf := put_u8 0x00 buf in
          put_u8 0x00 buf
      end in
    (Ok (Z.to_nat (start - remaining_mut buf)), buf).

(** frame104/codec.rs 71-140, Codec::decode. *)
Definition decode_apdu : Dec (option Apdu) := fun buf =>
  if (remaining buf <? 2)%nat then (Ok None, buf) else
  (copy_to_slice 2 ≫= fun header =>
   dec_lift (index header 0) ≫= fun h0 =>
   dec_lift (index header 1) ≫= fun h1 =>
   if negb (h0 =? START) then dec_err (InvalidStartByte START h0) else
   let len := Z.to_nat h1 in
   if (len <? 4)%nat then dec_err (LengthMismatch len 4) else
   (fun buf =>
     if (remaining buf <? len)%nat then (Err (Incomplete len (remaining buf)), buf) else
     (get_u8 ≫= fun c1 =>
      get_u8 ≫= fun c2 =>
      get_u8 ≫= fun c3 =>
      get_u8 ≫= fun c4 =>
      if Z.land c1 0x01 =? 0 then
        let send := SeqNo_from_wire (le_join [c1; c2]) in
        let recv := SeqNo_from_wire (le_join [c3; c4]) in
        copy_to_slice (len - 4) ≫= fun asdu =>
        mret (Some (ApduI send recv asdu))
      else if Z.land c1 0x03 =? 0x01 then
        if negb (len =? 4)%nat then dec_err (LengthMismatch len 4) else
        let recv := SeqNo_from_wire (le_join [c3; c4]) in
        mret (Some (ApduS recv))
      else
        if negb (len =? 4)%nat then dec_err (LengthMismatch len 4) else
        dec_lift (ok_or (UFunction_from_first_octet c1) UnsupportedFormat) ≫= fun function =>
        mret (Some (ApduU function)) : Dec (option Apdu)) buf) : Dec (option Apdu)) buf.

(** frame104/codec.rs 171-203, Codec::decode_payload. *)
Definition decode_apdu_payload (len : nat) : Dec Apdu :=
  get_u8 ≫= fun c1 =>
  get_u8 ≫= fun c2 =>
  get_u8 ≫= fun c3 =>
  get_u8 ≫= fun c4 =>
  if Z.land c1 0x01 =? 0 then
    let send := SeqNo_from_wire (le_join [c1; c2]) in
    let recv := SeqNo_from_wire (le_join [c3; c4]) in
    copy_to_slice (len - 4) ≫= fun asdu =>
    mret (ApduI send recv asdu)
  else if Z.land c1 0x03 =? 0x01 then
    if negb (len =? 4)%nat then dec_err (LengthMismatch len 4) else
    let recv := SeqNo_from_wire (le_join [c3; c4]) in
    mret (ApduS recv)
  else
    if negb (len =? 4)%nat then dec_err (LengthMismatch len 4) else
    dec_lift (ok_or (UFunction_from_first_octet c1) UnsupportedFormat) ≫= fun function =>
    mret (ApduU function).

(** frame104/codec.rs 145-169, Codec::decode_slice. *)
Definition decode_slice (buf : bytes) : Result (option (Apdu * nat)) :=
  if (length buf <? 2)%nat then Ok None else
  index buf 0 ≫= fun h0 =>
  if negb (h0 =? START) then Err (InvalidStartByte START h0) else
  index buf 1 ≫= fun h1 =>
  let len := Z.to_nat h1 in
  if (len <? 4)%nat then Err (LengthMismatch len 4) else
  let total := (2 + len)%nat in
  if (length buf <? total)%nat then Ok None else
  slice buf 2 total ≫= fun s =>
  run (decode_apdu_payload len) s ≫= fun apdu =>
  Ok (Some (apdu, total)).

(** ** The frame as octets *)

Definition apdu_octets (a : Apdu) : bytes :=
  match a with
  | ApduI send recv asdu =>
      [START; 4 + Z.of_nat (length asdu)] ++ le_split 2 (2 * send) ++ le_split 2 (2 * recv) ++ asdu
  | ApduS recv => [START; 4; 1; 0] ++ le_split 2 (2 * recv)
  | ApduU f => [START; 4; UFunction_first_octet f; 0; 0; 0]
  end.

(** The length limit of the encoder. *)
Definition apdu_fits (a : Apdu) : Prop :=
  match a with ApduI _ _ asdu => (length asdu <= MAX_ASDU_LEN)%nat | _ => True end.

Lemma encode_apdu_eq a buf : apdu_ok a -> apdu_fits a ->
  encode_apdu a buf = (Ok (length (apdu_octets a)), buf ++ apdu_octets a).
Proof.
  intros Hok Hfit. unfold encode_apdu.
  assert (Hn : (match a with ApduI _ _ asdu => (MAX_ASDU_LEN <? length asdu)%nat | _ => false end) = false).
  { destruct a; try done. apply Nat.ltb_ge. done. }
  rewrite Hn. clear Hn.
  match goal with |- (Ok (Z.to_nat (_ - remaining_mut ?b)), _) = _ =>
    assert (Hb : b = buf ++ apdu_octets a) end.
  { destruct a; simpl in *; autorewrite with buf; rewrite <- !app_assoc; simpl app.
    - destruct Hok as (Hs & Hr & _). rewrite !SeqNo_wire by done. unfold as_u8.
      unfold MAX_ASDU_LEN in Hfit. rewrite Z.mod_small by lia. done.
    - by rewrite SeqNo_wire by done.
    - done. }
  by rewrite Hb, remaining_mut_spec, Nat2Z.id.
Qed.

Lemma le2 w : le_split 2 w = [w mod 256; w / 256 mod 256].
Proof. done. Qed.

Lemma wire_low_bit w : Z.land (w mod 256) 1 = w mod 2.
Proof. change 1 with (Z.ones 1). rewrite Z.land_ones by lia. change (2 ^ 1) with 2. lia. Qed.

Lemma seq_wire_join s : seq_ok s -> SeqNo_from_wire (le_join [(2 * s) mod 256; (2 * s) / 256 mod 256]) = s.
Proof.
  intros. unfold seq_ok in *. rewrite <- le2, le_join_split.
  change (256 ^ Z.of_nat 2) with 65536. rewrite Z.mod_small, SeqNo_unwire by lia. lia.
Qed.

(** The payload decoder on the four control octets and an exact ASDU. *)
Lemma decode_apdu_payload_run c1 c2 c3 c4 rest :
  run (decode_apdu_payload (4 + length rest)) (c1 :: c2 :: c3 :: c4 :: rest) =
    if Z.land c1 0x01 =? 0 then
      Ok (ApduI (SeqNo_from_wire (le_join [c1; c2])) (SeqNo_from_wire (le_join [c3; c4])) rest)
    else if negb (length rest =? 0)%nat then Err (LengthMismatch (4 + length rest) 4)
    else if Z.land c1 0x03 =? 0x01 then Ok (ApduS (SeqNo_from_wire (le_join [c3; c4])))
    else ok_or (UFunction_from_first_octet c1) UnsupportedFormat ≫= fun f => Ok (ApduU f).
Proof.
  unfold run, decode_apdu_payload. run_reads.
  replace (4 + length rest - 4)%nat with (length rest) by lia.
  replace ((4 + length rest =? 4)%nat) with (length rest =? 0)%nat by (by destruct rest).
  destruct (Z.land c1 1 =? 0).
  { erewrite dec_bind_ok by (by apply copy_to_slice_spec). by rewrite firstn_all. }
  destruct (length rest =? 0)%nat; simpl negb; cbv iota.
  - destruct (Z.land c1 3 =? 1); [done|].
    by destruct (UFunction_from_first_octet c1).
  - by destruct (Z.land c1 3 =? 1).
Qed.

(** [decode_slice] by cases on the two header octets. *)
Lemma decode_slice_cons h0 h1 s :
  decode_slice (h0 :: h1 :: s) =
    if negb (h0 =? START) then Err (InvalidStartByte START h0) else
    let len := Z.to_nat h1 in
    if (len <? 4)%nat then Err (LengthMismatch len 4) else
    if (length s <? len)%nat then Ok None else
    run (decode_apdu_payload len) (take len s) ≫= fun a => Ok (Some (a, (2 + len)%nat)).
Proof.
  unfold decode_slice. change (length (h0 :: h1 :: s) <? 2)%nat with false.
  change (index (h0 :: h1 :: s) 0) with (Ok h0). change (index (h0 :: h1 :: s) 1) with (Ok h1).
  cbv iota. rewrite !res_bind_ok. cbv zeta.
  change (length (h0 :: h1 :: s) <? 2 + Z.to_nat h1)%nat with (length s <? Z.to_nat h1)%nat.
  destruct (h0 =? START); [|done]. cbn [negb].
  destruct (Z.to_nat h1 <? 4)%nat; [done|].
  destruct (Nat.ltb_spec (length s) (Z.to_nat h1)); [done|].
  unfold slice. rewrite decide_True by (cbn [length]; lia). rewrite res_bind_ok.
  replace (2 + Z.to_nat h1 - 2)%nat with (Z.to_nat h1) by lia. done.
Qed.

Lemma decode_slice_frame h1 c1 c2 c3 c4 asdu rest :
  Z.to_nat h1 = (4 + length asdu)%nat ->
  decode_slice (START :: h1 :: c1 :: c2 :: c3 :: c4 :: asdu ++ rest) =
    run (decode_apdu_payload (4 + length asdu)) (c1 :: c2 :: c3 :: c4 :: asdu) ≫= fun a =>
    Ok (Some (a, (6 + length asdu)%nat)).
Proof.
  intros Hh. rewrite decode_slice_cons, Hh, Z.eqb_refl. cbn [negb]. cbv zeta.
  destruct (Nat.ltb_spec (4 + length asdu) 4); [lia|].
  destruct (Nat.ltb_spec (length (c1 :: c2 :: c3 :: c4 :: asdu ++ rest)) (4 + length asdu)) as [Hl|Hl];
    [cbn [length] in Hl; rewrite length_app in Hl; lia|].
  change (take (4 + length asdu) (c1 :: c2 :: c3 :: c4 :: asdu ++ rest))
    with (c1 :: c2 :: c3 :: c4 :: take (length asdu) (asdu ++ rest)).
  by rewrite take_app_length.
Qed.

Lemma decode_slice_encode a rest : apdu_ok a -> apdu_fits a ->
  decode_slice (apdu_octets a ++ rest) = Ok (Some (a, length (apdu_octets a))).
Proof.
  intros Hok Hfit. destruct a as [s r asdu|r|f]; simpl in *.
  - destruct Hok as (Hs & Hr & _).
    rewrite ?le2. cbn [app].
    rewrite decode_slice_frame by lia. rewrite decode_apdu_payload_run.
    rewrite wire_low_bit. replace ((2 * s) mod 2) with 0 by lia. simpl Z.eqb. cbv iota.
    by rewrite !seq_wire_join.
  - rewrite ?le2. cbn [app].
    rewrite (decode_slice_frame 4 1 0 _ _ [] rest) by done. rewrite decode_apdu_payload_run.
    by rewrite seq_wire_join.
  - rewrite (decode_slice_frame 4 _ 0 0 0 [] rest) by done. rewrite decode_apdu_payload_run.
    by destruct f.
Qed.

(** ** Arbitrary input *)

Lemma from_wire_ok w : seq_ok (SeqNo_from_wire w).
Proof. unfold SeqNo_from_wire, seq_ok. rewrite land_max. lia. Qed.

(** What the payload decoder does on any slice of the announced length. *)
Lemma decode_apdu_payload_total len s : (4 <= len)%nat -> length s = len -> octets s ->
  match run (decode_apdu_payload len) s with
  | Ok a => apdu_ok a /\ match a with ApduI _ _ asdu => (len = 4 + length asdu)%nat | _ => len = 4%nat end
  | Err (LengthMismatch d n) => d = len /\ n = 4%nat /\ len ≠ 4%nat
  | Err UnsupportedFormat => len = 4%nat
  | _ => False
  end.
Proof.
  intros Hlen Hs Ho. destruct s as [|c1 [|c2 [|c3 [|c4 asdu]]]]; try (simpl in Hs; lia).
  replace len with (4 + length asdu)%nat by (simpl in Hs; lia).
  rewrite decode_apdu_payload_run. rewrite !octets_cons in Ho. destruct Ho as (_ & _ & _ & _ & Ho).
  destruct (Z.land c1 1 =? 0).
  { simpl. eauto using from_wire_ok. }
  destruct (Nat.eqb_spec (length asdu) 0) as [E|E]; cbn [negb].
  - rewrite E. destruct (Z.land c1 3 =? 1); [simpl; eauto using from_wire_ok|].
    by destruct (UFunction_from_first_octet c1).
  - simpl. split_and!; [done|done|lia].
Qed.

(** The total outcome of [decode_slice]. *)
Lemma decode_slice_total b : octets b ->
  match decode_slice b with
  | Ok None => (length b < 2)%nat \/ (length b < 2 + Z.to_nat (nth 1 b 0%Z))%nat
  | Ok (Some (a, n)) => apdu_ok a /\ (6 <= n <= length b)%nat /\ (n <= 257)%nat /\
      match a with ApduI _ _ asdu => (n = 6 + length asdu)%nat | _ => n = 6%nat end
  | Err (InvalidStartByte e g) => e = START /\ g ≠ START
  | Err (LengthMismatch _ n) => n = 4%nat
  | Err UnsupportedFormat => True
  | _ => False
  end.
Proof.
  intros Hb. destruct b as [|h0 [|h1 s]]; [simpl; lia..|].
  rewrite decode_slice_cons. destruct (Z.eqb_spec h0 START); [|done]. cbn [negb]. cbv zeta.
  rewrite !octets_cons in Hb. destruct Hb as (_ & Hh1 & Hs). unfold is_u8 in Hh1.
  destruct (Nat.ltb_spec (Z.to_nat h1) 4); [done|].
  destruct (Nat.ltb_spec (length s) (Z.to_nat h1)); [simpl; lia|].
  pose proof (decode_apdu_payload_total (Z.to_nat h1) (take (Z.to_nat h1) s)) as H1.
  specialize (H1 ltac:(lia) ltac:(rewrite length_take; lia) ltac:(by apply octets_take)).
  destruct (run _ _) as [a|[]|]; cbn [mbind Result_bind] in *; try done.
  - destruct H1 as [Ha Hm]. cbn [length]. split_and!; [done|lia..|]. destruct a; lia.
  - by destruct H1 as (_ & ? & _).
Qed.

Lemma decode_slice_extend b c r : decode_slice b = r -> r ≠ Ok None -> decode_slice (b ++ c) = r.
Proof.
  intros <- Hr. destruct b as [|h0 [|h1 s]]; [done..|]. cbn [app].
  rewrite !decode_slice_cons in *. destruct (negb (h0 =? START)); [done|]. cbv zeta in *.
  destruct (_ <? 4)%nat; [done|].
  destruct (Nat.ltb_spec (length s) (Z.to_nat h1)) as [Hl|Hl]; [done|].
  destruct (Nat.ltb_spec (length (s ++ c)) (Z.to_nat h1)) as [Hl'|Hl'];
    [rewrite length_app in Hl'; lia|].
  by rewrite take_app_le.
Qed.

(** The consuming decoder by cases on the two header octets. *)
Lemma decode_apdu_cons h0 h1 s :
  decode_apdu (h0 :: h1 :: s) =
    if negb (h0 =? START) then (Err (InvalidStartByte START h0), s) else
    if (Z.to_nat h1 <? 4)%nat then (Err (LengthMismatch (Z.to_nat h1) 4), s) else
    if (length s <? Z.to_nat h1)%nat then (Err (Incomplete (Z.to_nat h1) (length s)), s) else
    (decode_apdu_payload (Z.to_nat h1) ≫= fun a => mret (Some a)) s.
Proof.
  unfold decode_apdu. rewrite remaining_spec. change (length (h0 :: h1 :: s) <? 2)%nat with false.
  cbv iota. erewrite dec_bind_ok by (apply copy_to_slice_spec; cbn [length]; lia).
  change (drop 2 (h0 :: h1 :: s)) with (drop 0 s). rewrite drop_0.
  change (dec_lift (index (take 2 (h0 :: h1 :: s)) 0)) with (mret h0 : Dec Z).
  erewrite dec_bind_ok by apply dec_ret_eq.
  change (dec_lift (index (take 2 (h0 :: h1 :: s)) 1)) with (mret h1 : Dec Z).
  erewrite dec_bind_ok by apply dec_ret_eq.
  destruct (negb (h0 =? START)); [done|]. cbv zeta.
  destruct (Z.to_nat h1 <? 4)%nat; [done|]. rewrite remaining_spec.
  destruct (length s <? Z.to_nat h1)%nat; [done|].
  unfold decode_apdu_payload, mbind, Dec_bind.
  do 4 (destruct (get_u8 _) as [[] ?]; try done).
  destruct (Z.land _ 1 =? 0); [by destruct (copy_to_slice _ _) as [[] ?]|].
  destruct (Z.land _ 3 =? 1), (negb _); try done.
  unfold dec_lift. by destruct (ok_or _ _).
Qed.

Lemma apdu_octets_octets a : apdu_ok a -> apdu_fits a -> octets (apdu_octets a).
Proof.
  intros Hok Hfit. destruct a as [s r asdu|r|f]; cbn [apdu_octets];
    repeat first [rewrite octets_app | rewrite octets_cons]; unfold START.
  - destruct Hok as (_ & _ & Ho). unfold apdu_fits, MAX_ASDU_LEN in Hfit.
    split_and!; try apply octets_nil; try apply octets_le_split; try done; unfold is_u8; lia.
  - split_and!; try apply octets_nil; try apply octets_le_split; try done; unfold is_u8; lia.
  - by destruct f; split_and!; try apply octets_nil.
Qed.

Lemma length_apdu_octets a :
  length (apdu_octets a) = match a with ApduI _ _ asdu => (6 + length asdu)%nat | _ => 6%nat end.
Proof. destruct a; done. Qed.

(** The decoder waits for the rest of a frame whose prefix it has. *)
Lemma decode_slice_prefix a n : apdu_ok a -> apdu_fits a -> (n < length (apdu_octets a))%nat ->
  decode_slice (take n (apdu_octets a)) = Ok None.
Proof.
  intros Hok Hfit Hn. pose proof (decode_slice_encode a [] Hok Hfit) as He. rewrite app_nil_r in He.
  destruct (decide (decode_slice (take n (apdu_octets a)) = Ok None)) as [|Hne]; [done|].
  pose proof (decode_slice_extend _ (drop n (apdu_octets a)) _ eq_refl Hne) as Hx.
  rewrite take_drop, He in Hx.
  pose proof (decode_slice_total (take n (apdu_octets a))
    (octets_take _ _ (apdu_octets_octets a Hok Hfit))) as Ht.
  rewrite <- Hx in Ht. rewrite length_take in Ht. lia.
Qed.

Lemma decode_apdu_payload_rest len s a : (4 <= len <= length s)%nat -> octets s ->
  run (decode_apdu_payload len) (take len s) = Ok a ->
  decode_apdu_payload len s = (Ok a, drop len s).
Proof.
  intros Hl Ho. destruct s as [|c1 [|c2 [|c3 [|c4 asdu]]]]; try (simpl in Hl; lia).
  destruct len as [|[|[|[|len]]]]; try lia.
  change (take (S (S (S (S len)))) (c1 :: c2 :: c3 :: c4 :: asdu))
    with (c1 :: c2 :: c3 :: c4 :: take len asdu).
  change (drop (S (S (S (S len)))) (c1 :: c2 :: c3 :: c4 :: asdu)) with (drop len asdu).
  cbn [length] in Hl. unfold run, decode_apdu_payload. run_reads.
  replace (S (S (S (S len))) - 4)%nat with len by lia.
  destruct (Z.land c1 1 =? 0).
  - erewrite !dec_bind_ok by (apply copy_to_slice_spec; rewrite ?length_take; lia).
    intros [= <-]. by rewrite take_take, Nat.min_id.
  - change (S (S (S (S len))) =? 4)%nat with (len =? 0)%nat.
    destruct (Nat.eqb_spec len 0) as [->|]; cbn [negb]; [|by destruct (Z.land c1 3 =? 1)].
    rewrite drop_0. destruct (Z.land c1 3 =? 1); [by intros [= <-]|].
    unfold dec_lift, mbind, Dec_bind. destruct (ok_or _ _); simpl; intros; by simplify_eq.
Qed.

Lemma decode_apdu_payload_err len s e : (4 <= len <= length s)%nat -> octets s ->
  run (decode_apdu_payload len) (take len s) = Err e ->
  ∃ b', decode_apdu_payload len s = (Err e, b').
Proof.
  intros Hl Ho. destruct s as [|c1 [|c2 [|c3 [|c4 asdu]]]]; try (simpl in Hl; lia).
  destruct len as [|[|[|[|len]]]]; try lia.
  change (take (S (S (S (S len)))) (c1 :: c2 :: c3 :: c4 :: asdu))
    with (c1 :: c2 :: c3 :: c4 :: take len asdu).
  cbn [length] in Hl. unfold run, decode_apdu_payload. run_reads.
  replace (S (S (S (S len))) - 4)%nat with len by lia.
  destruct (Z.land c1 1 =? 0).
  - by erewrite !dec_bind_ok by (apply copy_to_slice_spec; rewrite ?length_take; lia).
  - change (S (S (S (S len))) =? 4)%nat with (len =? 0)%nat.
    destruct (len =? 0)%nat, (Z.land c1 3 =? 1); cbn [negb]; try done;
      unfold dec_err, dec_lift, mbind, Dec_bind; try destruct (ok_or _ _); simpl; intros;
      simplify_eq; eauto.
Qed.

(** ** The properties of the codec *)

(** Sequence numbers form the cyclic group of order 2^15: advancing stays
    in range, the distance from a number to the one [n] steps later is [n],
    the intermediate sums of [distance] never leave the [u16] range, and the
    wire form is lossless. *)
Theorem seqno_cyclic s t n : seq_ok s -> seq_ok t -> 0 <= n < 32768 ->
  seq_ok (SeqNo_add s n) /\ SeqNo_distance s (SeqNo_add s n) = n /\
  SeqNo_add s (SeqNo_distance s t) = t /\
  is_u16 (t + SeqNo_MODULUS) /\ is_u16 (t + SeqNo_MODULUS - s) /\
  SeqNo_from_wire (SeqNo_to_wire s) = s.
Proof.
  intros Hs Ht Hn. rewrite !SeqNo_distance_mod, !SeqNo_add_mod, SeqNo_wire by done.
  unfold seq_ok, is_u16, SeqNo_MODULUS in *. rewrite SeqNo_unwire by lia.
  split_and!; lia.
Qed.

(** C18. A frame that fits is appended to the buffer as [68 L C1..C4 ASDU], at
    most [MAX_APDU_LEN] octets of it, and both decoders read back exactly that
    frame from the front of whatever follows, consuming exactly its octets. *)
Theorem apdu_roundtrip a buf rest : apdu_ok a -> apdu_fits a ->
  ∃ w, encode_apdu a buf = (Ok (length w), buf ++ w) /\ (length w <= MAX_APDU_LEN)%nat /\
    decode_slice (w ++ rest) = Ok (Some (a, length w)) /\
    (octets rest -> decode_apdu (w ++ rest) = (Ok (Some a), rest)).
Proof.
  intros Hok Hfit. exists (apdu_octets a).
  assert (Hs := decode_slice_encode a rest Hok Hfit).
  split_and!; [by apply encode_apdu_eq| |done|].
  - rewrite length_apdu_octets. destruct a; unfold apdu_fits, MAX_ASDU_LEN, MAX_APDU_LEN in *; lia.
  - intros Hr. assert (Ho : octets (apdu_octets a ++ rest))
      by (apply octets_app; eauto using apdu_octets_octets).
    assert (Hl := length_apdu_octets a).
    rewrite <- (drop_app_length (apdu_octets a) rest) at 2.
    remember (length (apdu_octets a)) as n eqn:En. clear En.
    destruct (apdu_octets a ++ rest) as [|h0 [|h1 s]]; [done..|].
    rewrite decode_slice_cons in Hs. rewrite decode_apdu_cons.
    destruct (negb (h0 =? START)); [done|]. cbv zeta in Hs.
    destruct (Nat.ltb_spec (Z.to_nat h1) 4); [done|].
    destruct (Nat.ltb_spec (length s) (Z.to_nat h1)); [done|].
    rewrite !octets_cons in Ho. destruct Ho as (_ & _ & Ho).
    destruct (run (decode_apdu_payload (Z.to_nat h1)) (take (Z.to_nat h1) s)) as [a'| |] eqn:Er; try done.
    cbn [mbind Result_bind] in Hs. injection Hs as Ha Hn. subst a' n.
    erewrite dec_bind_ok by (apply decode_apdu_payload_rest; [lia|exact Ho|exact Er]). done.
Qed.

(** An I-frame whose ASDU exceeds [MAX_ASDU_LEN] is refused and the buffer
    is left as it was, so no partial frame is ever written; every other frame
    is accepted. *)
Theorem apdu_length_guard a buf : apdu_ok a ->
  match a with
  | ApduI _ _ asdu =>
      if (length asdu <=? MAX_ASDU_LEN)%nat
      then encode_apdu a buf = (Ok (6 + length asdu)%nat, buf ++ apdu_octets a)
      else encode_apdu a buf = (Err (AsduTooLong (length asdu) MAX_ASDU_LEN), buf)
  | _ => encode_apdu a buf = (Ok 6%nat, buf ++ apdu_octets a)
  end.
Proof.
  intros Hok. destruct a as [s r asdu|r|f]; [|by apply encode_apdu_eq..].
  destruct (Nat.leb_spec (length asdu) MAX_ASDU_LEN) as [Hl|Hl].
  - by apply encode_apdu_eq.
  - unfold encode_apdu. apply Nat.ltb_lt in Hl. by rewrite Hl.
Qed.

(** On arbitrary octets [decode_slice] never panics. It asks for more
    input only when fewer than two octets or fewer than the announced length
    are there; a frame it returns is well formed and takes between 6 and
    [length b] octets; its only errors are a wrong start octet, an impossible
    length and an unknown U-format function. *)
Theorem decode_slice_robust b : octets b ->
  match decode_slice b with
  | Ok None => (length b < 2)%nat \/ (length b < 2 + Z.to_nat (nth 1 b 0%Z))%nat
  | Ok (Some (a, n)) => apdu_ok a /\ (6 <= n <= length b)%nat /\ (n <= 257)%nat /\
      match a with ApduI _ _ asdu => (n = 6 + length asdu)%nat | _ => n = 6%nat end
  | Err (InvalidStartByte e g) => e = START /\ g ≠ START
  | Err (LengthMismatch _ n) => n = 4%nat
  | Err UnsupportedFormat => True
  | _ => False
  end.
Proof. apply decode_slice_total. Qed.

(** Decoding does not depend on how the octets arrive: a verdict on a
    buffer (a frame or an error) is the verdict on every extension of it, and
    on every proper prefix of an encoded frame the decoder waits. *)
Theorem decode_slice_incremental :
  (∀ b c r, decode_slice b = r -> r ≠ Ok None -> decode_slice (b ++ c) = r) /\
  (∀ a n, apdu_ok a -> apdu_fits a -> (n < length (apdu_octets a))%nat ->
     decode_slice (take n (apdu_octets a)) = Ok None).
Proof. split; [apply decode_slice_extend|apply decode_slice_prefix]. Qed.

(** The consuming decoder agrees with [decode_slice]: it returns the same
    frame and leaves what follows it, and it fails with the same error. Where
    [decode_slice] asks for more input it returns [None] only while fewer than
    two octets are there; afterwards it reports [Incomplete] and has dropped
    the two header octets. *)
Theorem decode_agrees b : octets b ->
  match decode_slice b with
  | Ok (Some (a, n)) => decode_apdu b = (Ok (Some a), drop n b)
  | Ok None => if (length b <? 2)%nat then decode_apdu b = (Ok None, b)
               else ∃ n h, decode_apdu b = (Err (Incomplete n h), drop 2 b)
  | Err e => ∃ b', decode_apdu b = (Err e, b')
  | Panic => False
  end.
Proof.
  intros Ho. destruct b as [|h0 [|h1 s]].
  1,2: unfold decode_slice, decode_apdu; rewrite remaining_spec; done.
  rewrite decode_slice_cons, decode_apdu_cons.
  rewrite !octets_cons in Ho. destruct Ho as (_ & _ & Ho).
  destruct (negb (h0 =? START)); [eauto|]. cbv zeta.
  destruct (Nat.ltb_spec (Z.to_nat h1) 4); [eauto|].
  destruct (Nat.ltb_spec (length s) (Z.to_nat h1)); [simpl; rewrite drop_0; eauto|].
  destruct (run _ _) as [a|e|] eqn:Er; unfold mbind at 1, Result_bind.
  - erewrite dec_bind_ok by (apply decode_apdu_payload_rest; [lia|exact Ho|exact Er]). done.
  - destruct (decode_apdu_payload_err (Z.to_nat h1) s e ltac:(lia) Ho Er) as [b' Hb'].
    erewrite dec_bind_err by exact Hb'. eauto.
  - pose proof (decode_apdu_payload_total (Z.to_nat h1) (take (Z.to_nat h1) s)) as Ht.
    rewrite Er in Ht. apply Ht; [lia|rewrite length_take; lia|by apply octets_take].
Qed.

End WithBytes.

(** ** Concrete instances *)

Lemma seqno_cyclic_witness :
  seq_ok (SeqNo_add 32760 10) /\ SeqNo_distance 32760 (SeqNo_add 32760 10) = 10 /\
  SeqNo_add 32760 (SeqNo_distance 32760 2) = 2.
Proof.
  destruct (seqno_cyclic 32760 2 10) as (H1 & H2 & H3 & _); unfold seq_ok; [lia..|].
  exact (conj H1 (conj H2 H3)).
Defined.

Lemma apdu_roundtrip_witness :
  ∃ w, encode_apdu (ApduI 5 32767 [1; 2; 3]) [0] = (Ok (length w), [0] ++ w) /\
    (length w <= MAX_APDU_LEN)%nat /\
    decode_slice (w ++ [9]) = Ok (Some (ApduI 5 32767 [1; 2; 3], length w)) /\
    (octets [9] -> decode_apdu (w ++ [9]) = (Ok (Some (ApduI 5 32767 [1; 2; 3])), [9])).
Proof.
  apply (apdu_roundtrip (BC := slice_bytes) (ApduI 5 32767 [1; 2; 3]) [0] [9]).
  - split_and!; [split; lia..|repeat constructor; lia].
  - simpl. unfold MAX_ASDU_LEN. lia.
Defined.

Lemma apdu_length_guard_witness :
  encode_apdu (ApduI 0 0 (replicate 250 7)) [1; 2] = (Err (AsduTooLong 250 249), [1; 2]).
Proof.
  apply (apdu_length_guard (BC := slice_bytes) (ApduI 0 0 (replicate 250 7)) [1; 2]).
  split_and!; [split; lia..|]. apply Forall_replicate. split; lia.
Defined.

Lemma decode_slice_robust_witness :
  match decode_slice [0x68; 4; 0x43; 0; 0; 0; 1] with
  | Ok (Some (a, n)) => apdu_ok a /\ (6 <= n <= 7)%nat /\ (n <= 257)%nat /\
      match a with ApduI _ _ asdu => (n = 6 + length asdu)%nat | _ => n = 6%nat end
  | _ => False
  end.
Proof.
  assert (Hb : octets [0x68; 4; 0x43; 0; 0; 0; 1]) by (repeat constructor; lia).
  exact (decode_slice_robust (BC := slice_bytes) _ Hb).
Defined.

Lemma decode_slice_incremental_witness :
  decode_slice ([0x68; 4; 0x43; 0; 0; 0] ++ [1]) = Ok (Some (ApduU TestFrAct, 6%nat)) /\
  decode_slice (take 3 (apdu_octets (ApduS 7))) = Ok None.
Proof.
  destruct (decode_slice_incremental (BC := slice_bytes)) as [H1 H2]. split.
  - by apply H1.
  - apply H2; [split; lia|done|simpl; lia].
Defined.

Lemma decode_agrees_witness :
  ∃ n h, decode_apdu [0x68; 4; 1] = (Err (Incomplete n h), [1]).
Proof.
  assert (Hb : octets [0x68; 4; 1]) by (repeat constructor; lia).
  exact (decode_agrees (BC := slice_bytes) _ Hb).
Defined.

(** The length octet allows two octets more than the encoder does: a frame
    with a 251-octet ASDU is accepted, and cannot be encoded again. *)
Lemma oversize_frame_accepted :
  let a := ApduI 0 0 (replicate 251 0) in
  decode_slice ([START; 255; 0; 0; 0; 0] ++ replicate 251 0) = Ok (Some (a, 257%nat)) /\
  encode_apdu a [] = (Err (AsduTooLong 251 249), []).
Proof. split; vm_compute; reflexivity. Qed.
