(* ===== verification/Conn104.v ===== *)
(** * The IEC 60870-5-104 connection state machine

    [frame104/state.rs]: the sans-I/O [Connection]. Each private method of the
    source is a function on the [Connection] record, [handle] is the entry
    point; the [actions] queue is part of the state, as in the code, and is
    drained at the end of [handle]. An [Instant] and a [Duration] are integers
    in one unit; [saturating_duration_since] is the difference cut at zero. *)

From S2P Require Import Prelude Frame104.

(** frame104/state.rs 21-26, Role. *)
Inductive Role := Client | Server.
(** frame104/state.rs 31-44, Config. *)
Record Config := mkConfig { cfg_k : Z; cfg_w : Z; t1 : Duration; t2 : Duration; t3 : Duration }.
(** frame104/state.rs 46-56, Config::default. *)
Definition Config_default : Config := mkConfig 12 8 15000 10000 20000.
(** frame104/state.rs 60-74, State. *)
Inductive State := Stopped | Starting | Active | Stopping | Closed.
(** frame104/state.rs 78-89, Input. *)
Inductive Input := InApdu (a : Apdu) | InStartDt | InStopDt | InSendAsdu (asdu : bytes) | InTick.
(** frame104/state.rs 105-112, DisconnectReason. *)
Inductive DisconnectReason := AckTimeout | ProtocolError | StoppedCleanly.
(** frame104/state.rs 93-102, Action. *)
Inductive Action :=
| SendApdu (a : Apdu) | DeliverAsdu (asdu : bytes) | StateChanged (s : State)
| Disconnect (r : DisconnectReason).

#[export] Instance Role_eq_dec : EqDecision Role.
Proof. solve_decision. Defined.
#[export] Instance State_eq_dec : EqDecision State.
Proof. solve_decision. Defined.
#[export] Instance DisconnectReason_eq_dec : EqDecision DisconnectReason.
Proof. solve_decision. Defined.
#[export] Instance Action_eq_dec : EqDecision Action.
Proof. solve_decision. Defined.

(** frame104/state.rs 116-144, Connection. *)
Record Connection := mkConn {
  role : Role; config : Config; state : State;
  send_next : SeqNo; recv_next : SeqNo;
  sent : list (SeqNo * Instant);
  unacked_recv : Z;
  last_recv_iframe : option Instant;
  last_send_any : option Instant;
  last_recv_any : option Instant;
  test_sent : option Instant;
  pending : list bytes;
  actions : list Action }.

(** frame104/state.rs 147-163, Connection::new. *)
Definition Connection_new (r : Role) (cfg : Config) : Connection :=
  mkConn r cfg Stopped (SeqNo_new 0) (SeqNo_new 0) [] 0 None None None None [] [].

(** Field updates. *)
Definition set_state s c := let '(mkConn ro cf _ sn rn se un li ls lr ts pe ac) := c in
  mkConn ro cf s sn rn se un li ls lr ts pe ac.
Definition set_send_next v c := let '(mkConn ro cf st _ rn se un li ls lr ts pe ac) := c in
  mkConn ro cf st v rn se un li ls lr ts pe ac.
Definition set_recv_next v c := let '(mkConn ro cf st sn _ se un li ls lr ts pe ac) := c in
  mkConn ro cf st sn v se un li ls lr ts pe ac.
Definition set_sent v c := let '(mkConn ro cf st sn rn _ un li ls lr ts pe ac) := c in
  mkConn ro cf st sn rn v un li ls lr ts pe ac.
Definition set_unacked v c := let '(mkConn ro cf st sn rn se _ li ls lr ts pe ac) := c in
  mkConn ro cf st sn rn se v li ls lr ts pe ac.
Definition set_last_recv_iframe v c := let '(mkConn ro cf st sn rn se un _ ls lr ts pe ac) := c in
  mkConn ro cf st sn rn se un v ls lr ts pe ac.
Definition set_last_send_any v c := let '(mkConn ro cf st sn rn se un li _ lr ts pe ac) := c in
  mkConn ro cf st sn rn se un li v lr ts pe ac.
Definition set_last_recv_any v c := let '(mkConn ro cf st sn rn se un li ls _ ts pe ac) := c in
  mkConn ro cf st sn rn se un li ls v ts pe ac.
Definition set_test_sent v c := let '(mkConn ro cf st sn rn se un li ls lr _ pe ac) := c in
  mkConn ro cf st sn rn se un li ls lr v pe ac.
Definition set_pending v c := let '(mkConn ro cf st sn rn se un li ls lr ts _ ac) := c in
  mkConn ro cf st sn rn se un li ls lr ts v ac.
Definition push_action a c := let '(mkConn ro cf st sn rn se un li ls lr ts pe ac) := c in
  mkConn ro cf st sn rn se un li ls lr ts pe (ac ++ [a]).
Definition clear_actions c := let '(mkConn ro cf st sn rn se un li ls lr ts pe _) := c in
  mkConn ro cf st sn rn se un li ls lr ts pe [].

(** [matches!(self.state, State::Active | State::Stopping)]. *)
Definition transfer_phase (s : State) : bool :=
  match s with Active | Stopping => true | _ => false end.

(** frame104/state.rs 374-376, Connection::emit_apdu. *)
Definition emit_apdu (a : Apdu) (c : Connection) : Connection := push_action (SendApdu a) c.

(** frame104/state.rs 378-383, Connection::transition. *)
Definition transition (to : State) (c : Connection) : Connection :=
  if negb (bool_decide (state c = to)) then push_action (StateChanged to) (set_state to c) else c.

(** frame104/state.rs 366-372, Connection::emit_supervisory. *)
Definition emit_supervisory (now : Instant) (c : Connection) : Connection :=
  let c := push_action (SendApdu (ApduS (recv_next c))) c in
  let c := set_unacked 0 c in
  set_last_send_any (Some now) c.

(** frame104/state.rs 353-364, Connection::send_iframe. *)
Definition send_iframe (asdu : bytes) (now : Instant) (c : Connection) : Connection :=
  let send := send_next c in
  let c := set_send_next (SeqNo_next (send_next c)) c in
  let c := set_sent (sent c ++ [(send, now)]) c in
  let c := set_unacked 0 c in
  let c := set_last_send_any (Some now) c in
  push_action (SendApdu (ApduI send (recv_next c) asdu)) c.

(** The loop of [flush_pending] over the queue [p], which is the connection's
    own [pending]. *)
Fixpoint flush_from (p : list bytes) (now : Instant) (c : Connection) : Connection :=
  match p with
  | [] => c
  | asdu :: p' =>
      if (Z.of_nat (length (sent c)) <? cfg_k (config c))
      then flush_from p' now (send_iframe asdu now (set_pending p' c))
      else c
  end.

(** frame104/state.rs 302-307, Connection::flush_pending. *)
Definition flush_pending (now : Instant) (c : Connection) : Connection :=
  flush_from (pending c) now c.

(** The loop of [acknowledge]: pop acknowledged entries off the front. *)
Fixpoint drop_acked (nr : SeqNo) (sent : list (SeqNo * Instant)) : list (SeqNo * Instant) :=
  match sent with
  | [] => []
  | (seq, at_) :: sent' =>
      let d := SeqNo_distance seq nr in
      if (d =? 0) || (SeqNo_MAX / 2 <? d) then sent else drop_acked nr sent'
  end.

(** frame104/state.rs 284-300, Connection::acknowledge. *)
Definition acknowledge (nr : SeqNo) (now : Instant) (c : Connection) : Connection :=
  flush_pending now (set_sent (drop_acked nr (sent c)) c).

(** frame104/state.rs 206-254, Connection::on_u_frame. *)
Definition on_u_frame (function : UFunction) (now : Instant) (c : Connection) : Connection :=
  match function, role c, state c with
  | StartDtCon, Client, Starting => flush_pending now (transition Active c)
  | StartDtAct, Server, Stopped =>
      let c := emit_apdu (ApduU StartDtCon) c in
      let c := set_last_send_any (Some now) c in
      flush_pending now (transition Active c)
  | StopDtAct, Server, _ =>
      let c := emit_apdu (ApduU StopDtCon) c in
      let c := set_last_send_any (Some now) c in
      transition Stopped c
  | StopDtCon, Client, Stopping =>
      match sent c with
      | [] => push_action (Disconnect StoppedCleanly) (transition Stopped c)
      | _ => c
      end
  | TestFrAct, _, _ =>
      let c := emit_apdu (ApduU TestFrCon) c in
      set_last_send_any (Some now) c
  | TestFrCon, _, _ => set_test_sent None c
  | _, _, _ => transition Closed (push_action (Disconnect ProtocolError) c)
  end.

(** [u16::saturating_add]. *)
Definition u16_saturating_add (a b : Z) : Z := Z.min 65535 (a + b).

(** frame104/state.rs 256-280, Connection::on_i_frame. *)
Definition on_i_frame (send recv : SeqNo) (asdu : bytes) (now : Instant) (c : Connection) : Connection :=
  if negb (transfer_phase (state c)) then
    transition Closed (push_action (Disconnect ProtocolError) c)
  else if negb (send =? recv_next c) then
    transition Closed (push_action (Disconnect ProtocolError) c)
  else
    let c := set_recv_next (SeqNo_next (recv_next c)) c in
    let c := set_unacked (u16_saturating_add (unacked_recv c) 1) c in
    let c := set_last_recv_iframe (Some now) c in
    let c := acknowledge recv now c in
    let c := push_action (DeliverAsdu asdu) c in
    if cfg_w (config c) <=? unacked_recv c then emit_supervisory now c else c.

(** frame104/state.rs 193-204, Connection::on_apdu. *)
Definition on_apdu (a : Apdu) (now : Instant) (c : Connection) : Connection :=
  let c := set_last_recv_any (Some now) c in
  match a with
  | ApduU function => on_u_frame function now c
  | ApduS recv => if transfer_phase (state c) then acknowledge recv now c else c
  | ApduI send recv asdu => on_i_frame send recv asdu now c
  end.

(** frame104/state.rs 313-321, Connection::on_user_startdt. *)
Definition on_user_startdt (now : Instant) (c : Connection) : Connection :=
  match role c, state c with
  | Client, Stopped =>
      let c := emit_apdu (ApduU StartDtAct) c in
      let c := set_last_send_any (Some now) c in
      transition Starting c
  | _, _ => c
  end.

(** frame104/state.rs 323-338, Connection::on_user_stopdt. *)
Definition on_user_stopdt (now : Instant) (c : Connection) : Connection :=
  match state c with
  | Active =>
      match role c with
      | Client =>
          let c := emit_apdu (ApduU StopDtAct) c in
          let c := set_last_send_any (Some now) c in
          transition Stopping c
      | Server => transition Stopped c
      end
  | _ => c
  end.

(** frame104/state.rs 340-351, Connection::on_user_send. *)
Definition on_user_send (asdu : bytes) (now : Instant) (c : Connection) : Connection :=
  if negb (bool_decide (state c = Active)) then set_pending (pending c ++ [asdu]) c
  else if cfg_k (config c) <=? Z.of_nat (length (sent c)) then set_pending (pending c ++ [asdu]) c
  else send_iframe asdu now c.


(** [now - t >= limit] for an instant that may be absent. *)
Definition elapsed (now : Instant) (t : option Instant) (limit : Duration) : bool :=
  match t with Some t => limit <=? since now t | None => false end.

(** The later of two optional instants:
    [[a, b].into_iter().flatten().max()]. *)
Definition opt_max (a b : option Instant) : option Instant :=
  match a, b with
  | Some x, Some y => Some (Z.max x y)
  | Some x, None => Some x
  | None, y => y
  end.

(** frame104/state.rs 409-415, Connection::run_timers (t2). *)
Definition timer_t2 (now : Instant) (c : Connection) : Connection :=
  if (0 <? unacked_recv c) && elapsed now (last_recv_iframe c) (t2 (config c))
  then emit_supervisory now c else c.

(** frame104/state.rs 417-431, Connection::run_timers (t3). *)
Definition timer_t3 (now : Instant) (c : Connection) : Connection :=
  if transfer_phase (state c) && negb (bool_decide (is_Some (test_sent c))) &&
     elapsed now (opt_max (last_send_any c) (last_recv_any c)) (t3 (config c))
  then
    let c := emit_apdu (ApduU TestFrAct) c in
    let c := set_last_send_any (Some now) c in
    set_test_sent (Some now) c
  else c.

(** frame104/state.rs 433-437, Connection::run_timers (drained). *)
Definition timer_drained (c : Connection) : Connection :=
  if bool_decide (state c = Stopping) && bool_decide (sent c = []) && bool_decide (pending c = [])
  then push_action (Disconnect StoppedCleanly) (transition Stopped c)
  else c.

(** frame104/state.rs 389-438, Connection::run_timers. *)
Definition run_timers (now : Instant) (c : Connection) : Connection :=
  if elapsed now (snd <$> head (sent c)) (t1 (config c)) then
    transition Closed (push_action (Disconnect AckTimeout) c)
  else if elapsed now (test_sent c) (t1 (config c)) then
    transition Closed (push_action (Disconnect AckTimeout) c)
  else timer_drained (timer_t3 now (timer_t2 now c)).

Definition on_input (input : Input) (now : Instant) (c : Connection) : Connection :=
  match input with
  | InApdu a => on_apdu a now c
  | InStartDt => on_user_startdt now c
  | InStopDt => on_user_stopdt now c
  | InSendAsdu asdu => on_user_send asdu now c
  | InTick => c
  end.

(** frame104/state.rs 177-187, Connection::handle. *)
Definition handle (input : Input) (now : Instant) (c : Connection) : Connection * list Action :=
  let c := run_timers now (on_input input now c) in
  (clear_actions c, actions c).

(** A whole session: the inputs in order, the actions each returned. *)
Fixpoint session (inputs : list (Input * Instant)) (c : Connection) : Connection * list Action :=
  match inputs with
  | [] => (c, [])
  | (i, now) :: inputs' =>
      let '(c1, a1) := handle i now c in
      let '(c2, a2) := session inputs' c1 in (c2, a1 ++ a2)
  end.

(** ** What a log of actions says *)

Definition iframe_of (a : Action) : option (SeqNo * bytes) :=
  match a with SendApdu (ApduI s _ d) => Some (s, d) | _ => None end.
Definition delivery_of (a : Action) : option bytes :=
  match a with DeliverAsdu d => Some d | _ => None end.
(** The I-frames of a log with their N(S), and the ASDUs it delivers. *)
Definition iframes (log : list Action) : list (SeqNo * bytes) := omap iframe_of log.
Definition delivered (log : list Action) : list bytes := omap delivery_of log.
(** A frame that acknowledges carries [nr]. *)
Definition carries (nr : SeqNo) (a : Action) : Prop :=
  match a with SendApdu (ApduI _ r _) | SendApdu (ApduS r) => r = nr | _ => True end.
Definition submitted_of (i : Input) : option bytes :=
  match i with InSendAsdu d => Some d | _ => None end.
(** The ASDUs the user handed over, in order. *)
Definition submitted (inputs : list (Input * Instant)) : list bytes :=
  omap (fun i => submitted_of i.1) inputs.

(** The numbers [base], [base + 1], ... modulo 2^15, [n] of them. *)
Definition seq_run (base n : nat) : list SeqNo :=
  (fun i => Z.of_nat i mod 32768) <$> seq base n.

Lemma seq_run_S base n : seq_run base (S n) = seq_run base n ++ [Z.of_nat (base + n) mod 32768].
Proof. unfold seq_run. by rewrite seq_S, fmap_app. Qed.
Lemma seq_run_cons base n : seq_run base (S n) = Z.of_nat base mod 32768 :: seq_run (S base) n.
Proof. done. Qed.
Lemma length_seq_run base n : length (seq_run base n) = n.
Proof. unfold seq_run. by rewrite length_fmap, length_seq. Qed.
Lemma drop_seq_run j base n : drop j (seq_run base n) = seq_run (base + j) (n - j).
Proof. unfold seq_run. by rewrite <- fmap_drop, drop_seq. Qed.
Lemma iframes_app a b : iframes (a ++ b) = iframes a ++ iframes b.
Proof. apply omap_app. Qed.
Lemma delivered_app a b : delivered (a ++ b) = delivered a ++ delivered b.
Proof. apply omap_app. Qed.

(** ** The invariant

    [hist] is what the connection has returned before the current call, so
    [hist ++ actions c] is the log up to now; [sub] is what the user has
    submitted, [rcv] the number of I-frames accepted, [dlv] the ASDUs
    delivered. *)
Record inv (hist : list Action) (sub : list bytes) (rcv : nat) (dlv : list bytes)
    (c : Connection) : Prop := {
  inv_fifo : (iframes (hist ++ actions c)).*2 ++ pending c = sub;
  inv_ns : (iframes (hist ++ actions c)).*1 = seq_run 0 (length (iframes (hist ++ actions c)));
  inv_send_next : send_next c = Z.of_nat (length (iframes (hist ++ actions c))) mod 32768;
  inv_recv_next : recv_next c = Z.of_nat rcv mod 32768;
  inv_delivered : delivered (hist ++ actions c) = dlv;
  inv_window : ∃ base, (base + length (sent c) = length (iframes (hist ++ actions c)))%nat /\
    (sent c).*1 = seq_run base (length (sent c));
  inv_k : Z.of_nat (length (sent c)) <= Z.max 0 (cfg_k (config c));
  inv_carries : Forall (carries (recv_next c)) (actions c);
}.

(** Nothing is held back while the window has room. *)
Definition flushed (c : Connection) : Prop :=
  state c = Active -> pending c = [] \/ cfg_k (config c) <= Z.of_nat (length (sent c)).
(** Fewer than [w] received frames await acknowledgement. *)
Definition acked (c : Connection) : Prop :=
  0 <= unacked_recv c < Z.max 1 (cfg_w (config c)).

(** The part of the state the invariant speaks about. *)
Definition view (c : Connection) :=
  (send_next c, recv_next c, sent c, pending c, actions c, config c).

Section Invariant.
Context {hist : list Action} {sub : list bytes} {rcv : nat} {dlv : list bytes}.
Local Abbreviation I := (inv hist sub rcv dlv).

Lemma inv_view c c' : view c = view c' -> I c -> I c'.
Proof.
  unfold view. intros E [H1 H2 H3 H4 H5 H6 H7 H8].
  injection E as E1 E2 E3 E4 E5 E6. rewrite E1, E2, E3, E4, E5, E6 in *. by split.
Qed.

(** Pushing an action that is neither an I-frame nor a delivery. *)
Lemma inv_push a c :
  iframe_of a = None -> delivery_of a = None -> carries (recv_next c) a -> I c -> I (push_action a c).
Proof.
  intros Ha Hd Hc []. destruct c; simpl in *.
  assert (Hi : iframes [a] = []) by (unfold iframes; simpl; by rewrite Ha).
  assert (Hv : delivered [a] = []) by (unfold delivered; simpl; by rewrite Hd).
  split; simpl; rewrite ?app_assoc, ?(iframes_app (_ ++ _)), ?(delivered_app (_ ++ _)), ?Hi, ?Hv, ?app_nil_r;
    try done. apply Forall_app. by rewrite Forall_singleton.
Qed.

Lemma inv_transition to c : I c -> I (transition to c).
Proof.
  intros H. unfold transition. destruct (negb _); [|done]. apply inv_push; [done..|].
  eapply inv_view; [|done]. by destruct c.
Qed.

Lemma inv_emit a c : iframe_of (SendApdu a) = None -> carries (recv_next c) (SendApdu a) ->
  I c -> I (emit_apdu a c).
Proof. intros. by apply inv_push. Qed.

Lemma inv_supervisory now c : I c -> I (emit_supervisory now c).
Proof.
  intros H. unfold emit_supervisory. eapply inv_view; [|by apply (inv_push (SendApdu (ApduS (recv_next c))))].
  by destruct c.
Qed.

Lemma inv_send_iframe asdu p now c :
  I c -> pending c = asdu :: p -> Z.of_nat (length (sent c)) < cfg_k (config c) ->
  I (send_iframe asdu now (set_pending p c)).
Proof.
  intros [H1 H2 H3 H4 H5 (base & Hb & Hs) H7 H8] Hp Hk. destruct c; simpl in *. subst pending0.
  split; simpl; rewrite ?app_assoc, ?(iframes_app (_ ++ _)), ?(delivered_app (_ ++ _)); simpl.
  - rewrite fmap_app. simpl. by rewrite <- app_assoc.
  - rewrite fmap_app, length_app. simpl. rewrite Nat.add_1_r, seq_run_S, <- H2. by rewrite H3.
  - rewrite length_app. simpl. rewrite SeqNo_next_mod, H3. lia.
  - done.
  - by rewrite app_nil_r.
  - exists base. rewrite !length_app. simpl. split; [lia|].
    rewrite fmap_app, Nat.add_1_r, seq_run_S, Hs. simpl. by rewrite Hb, H3.
  - rewrite length_app. simpl. lia.
  - apply Forall_app. by rewrite Forall_singleton.
Qed.

Lemma flush_from_frame p now c :
  let c' := flush_from p now c in
  role c' = role c /\ config c' = config c /\ state c' = state c /\ recv_next c' = recv_next c /\
  last_recv_iframe c' = last_recv_iframe c /\ test_sent c' = test_sent c /\
  (unacked_recv c' = unacked_recv c \/ unacked_recv c' = 0).
Proof.
  revert c. induction p as [|asdu p IH]; intros c; simpl; [by auto 10|].
  destruct (_ <? _); [|by auto 10].
  destruct (IH (send_iframe asdu now (set_pending p c))) as (H1 & H2 & H3 & H4 & H5 & H6 & H7).
  destruct c; simpl in *. destruct H7; auto 10.
Qed.

Lemma inv_flush_from p now c : pending c = p -> I c ->
  I (flush_from p now c) /\
  (pending (flush_from p now c) = [] \/
   cfg_k (config c) <= Z.of_nat (length (sent (flush_from p now c)))).
Proof.
  revert c. induction p as [|asdu p IH]; intros c Hp H; simpl; [by auto|].
  destruct (Z.ltb_spec (Z.of_nat (length (sent c))) (cfg_k (config c))); [|by auto].
  destruct (IH (send_iframe asdu now (set_pending p c))) as [H1 H2].
  - by destruct c.
  - by apply inv_send_iframe.
  - split; [done|]. by destruct c.
Qed.

Lemma inv_flush now c : I c -> I (flush_pending now c) /\ flushed (flush_pending now c).
Proof.
  intros H. destruct (inv_flush_from (pending c) now c eq_refl H) as [H1 H2]. split; [done|].
  intros _. unfold flush_pending.
  destruct (flush_from_frame (pending c) now c) as (_ & -> & _). done.
Qed.

Lemma drop_acked_suffix nr l : ∃ j, drop_acked nr l = drop j l.
Proof.
  induction l as [|[s t] l [j IH]]; simpl; [by exists 0%nat|].
  destruct (_ || _); [by exists 0%nat|]. by exists (S j).
Qed.

Lemma inv_drop_sent j c : I c -> I (set_sent (drop j (sent c)) c).
Proof.
  intros [H1 H2 H3 H4 H5 (base & Hb & Hs) H7 H8]. destruct c; simpl in *.
  split; simpl; try done.
  - rewrite length_drop. destruct (decide (j <= length sent0)%nat).
    + exists (base + j)%nat. split; [lia|]. rewrite fmap_drop, Hs, drop_seq_run. done.
    + exists (base + length sent0)%nat. rewrite drop_ge by lia.
      replace (length sent0 - j)%nat with 0%nat by lia. split; [lia|done].
  - rewrite length_drop. lia.
Qed.

Lemma inv_acknowledge nr now c : I c -> I (acknowledge nr now c) /\ flushed (acknowledge nr now c).
Proof.
  intros H. unfold acknowledge. apply inv_flush.
  destruct (drop_acked_suffix nr (sent c)) as [j ->]. by apply inv_drop_sent.
Qed.

End Invariant.

Lemma acknowledge_frame nr now c :
  let c' := acknowledge nr now c in
  role c' = role c /\ config c' = config c /\ state c' = state c /\ recv_next c' = recv_next c /\
  last_recv_iframe c' = last_recv_iframe c /\ test_sent c' = test_sent c /\
  (unacked_recv c' = unacked_recv c \/ unacked_recv c' = 0).
Proof.
  unfold acknowledge, flush_pending. pose proof (flush_from_frame
    (pending (set_sent (drop_acked nr (sent c)) c)) now (set_sent (drop_acked nr (sent c)) c)) as H.
  destruct c; exact H.
Qed.

(** What [handle] maintains between calls. *)
Definition good (hist : list Action) (sub dlv : list bytes) (c : Connection) : Prop :=
  inv hist sub (length dlv) dlv c /\ flushed c /\ acked c.

Lemma flushed_not_active c : state c ≠ Active -> flushed c.
Proof. intros H E. done. Qed.

Lemma state_transition to c : state (transition to c) = to.
Proof.
  unfold transition. destruct c as [? ? st]; simpl. by destruct (bool_decide_reflect (st = to)).
Qed.

Lemma transition_frame to c :
  let c' := transition to c in
  role c' = role c /\ config c' = config c /\ recv_next c' = recv_next c /\ sent c' = sent c /\
  pending c' = pending c /\ unacked_recv c' = unacked_recv c.
Proof. unfold transition. by destruct (negb _), c. Qed.

Lemma acked_ext c c' : unacked_recv c' = unacked_recv c \/ unacked_recv c' = 0 ->
  config c' = config c -> acked c -> acked c'.
Proof. unfold acked. intros [-> | ->] ->; lia. Qed.

Lemma acked_transition to c : acked c -> acked (transition to c).
Proof. destruct (transition_frame to c) as (_ & Hc & _ & _ & _ & Hu). apply acked_ext; auto. Qed.

(** Ending in a state other than [Active]. *)
Lemma good_transition hist sub dlv to c : to ≠ Active ->
  inv hist sub (length dlv) dlv c -> acked c -> good hist sub dlv (transition to c).
Proof.
  intros Hto H Ha. split_and!; [by apply inv_transition| |by apply acked_transition].
  apply flushed_not_active. by rewrite state_transition.
Qed.

(** Protocol errors and timeouts. *)
Lemma good_disconnect hist sub dlv r c :
  inv hist sub (length dlv) dlv c -> acked c ->
  good hist sub dlv (transition Closed (push_action (Disconnect r) c)).
Proof. intros H Ha. apply good_transition; [done|by apply inv_push|by destruct c]. Qed.

Lemma good_activate hist sub dlv now c :
  inv hist sub (length dlv) dlv c -> acked c -> good hist sub dlv (flush_pending now (transition Active c)).
Proof.
  intros H Ha. destruct (inv_flush now (transition Active c) (inv_transition Active c H)) as [H1 H2].
  split_and!; [done..|]. unfold flush_pending.
  destruct (flush_from_frame (pending (transition Active c)) now (transition Active c))
    as (_ & Hc & _ & _ & _ & _ & Hu).
  by apply (acked_ext (transition Active c)); [| |apply acked_transition].
Qed.

(** Sending an unnumbered frame. *)
Lemma good_emit_u hist sub dlv f now c :
  good hist sub dlv c -> good hist sub dlv (set_last_send_any (Some now) (emit_apdu (ApduU f) c)).
Proof.
  intros (H & Hf & Ha). split_and!; [|by destruct c..].
  eapply inv_view; [|by apply (inv_emit (ApduU f))]. by destruct c.
Qed.

(** A step that leaves the view, the state and the counters alone. *)
Lemma good_same hist sub dlv c c' : view c = view c' -> state c = state c' ->
  unacked_recv c = unacked_recv c' -> good hist sub dlv c -> good hist sub dlv c'.
Proof.
  intros Ev Es Eu (H & Hf & Ha). split_and!; [by eapply inv_view|..].
  - injection Ev as E1 E2 E3 E4 E5 E6. unfold flushed in *. by rewrite <- Es, <- E3, <- E4, <- E6.
  - injection Ev as E1 E2 E3 E4 E5 E6. unfold acked in *. by rewrite <- Eu, <- E6.
Qed.

Lemma good_u_frame hist sub dlv f now c :
  good hist sub dlv c -> good hist sub dlv (on_u_frame f now c).
Proof.
  intros H. pose proof H as (Hi & Hf & Ha).
  assert (He : ∀ g, good hist sub dlv (set_last_send_any (Some now) (emit_apdu (ApduU g) c)))
    by (intros; by apply good_emit_u).
  assert (Hd := good_disconnect hist sub dlv ProtocolError c Hi Ha).
  unfold on_u_frame. destruct f.
  - destruct (role c), (state c); try done.
    destruct (He StartDtCon) as (? & _ & ?). by apply good_activate.
  - destruct (role c), (state c); try done. by apply good_activate.
  - destruct (role c); [by destruct (state c)|].
    destruct (He StopDtCon) as (? & _ & ?). by destruct (state c); apply good_transition.
  - destruct (role c), (state c); try done. destruct (sent c) eqn:E; [|done].
    assert (Hs : good hist sub dlv (transition Stopped c)) by (by apply good_transition).
    destruct Hs as (H1 & H2 & H3). split_and!; [by apply inv_push|..];
      by destruct (transition Stopped c).
  - by destruct (role c), (state c).
  - assert (good hist sub dlv (set_test_sent None c)) by (apply (good_same _ _ _ c); [by destruct c..|done]).
    by destruct (role c), (state c).
Qed.

Lemma good_acknowledge hist sub dlv nr now c :
  inv hist sub (length dlv) dlv c -> acked c -> good hist sub dlv (acknowledge nr now c).
Proof.
  intros H Ha. destruct (inv_acknowledge nr now c H) as [H1 H2]. split_and!; [done..|].
  destruct (acknowledge_frame nr now c) as (_ & Hc & _ & _ & _ & _ & Hu). by apply (acked_ext c).
Qed.

(** The delivery of an accepted ASDU. *)
Lemma inv_deliver hist sub rcv dlv asdu c :
  inv hist sub rcv dlv c -> inv hist sub rcv (dlv ++ [asdu]) (push_action (DeliverAsdu asdu) c).
Proof.
  intros []. destruct c; simpl in *.
  split; simpl; rewrite ?app_assoc, ?(iframes_app (_ ++ _)), ?(delivered_app (_ ++ _)); simpl;
    rewrite ?app_nil_r; try done.
  - by rewrite inv_delivered0.
  - apply Forall_app. by rewrite Forall_singleton.
Qed.

Lemma inv_accept hist sub rcv dlv now u c : actions c = [] -> inv hist sub rcv dlv c ->
  inv hist sub (S rcv) dlv (set_last_recv_iframe (Some now)
    (set_unacked u (set_recv_next (SeqNo_next (recv_next c)) c))).
Proof.
  intros Ha []. destruct c; simpl in *. subst. split; simpl; try done.
  rewrite SeqNo_next_mod. lia.
Qed.

Lemma good_i_frame hist sub dlv send recv asdu now c :
  actions c = [] -> good hist sub dlv c ->
  let c' := on_i_frame send recv asdu now c in
  if transfer_phase (state c) && (send =? recv_next c)
  then good hist sub (dlv ++ [asdu]) c'
  else good hist sub dlv c' /\ state c' = Closed /\ Disconnect ProtocolError ∈ actions c'.
Proof.
  intros Hac (H & Hf & Ha). unfold on_i_frame.
  assert (Hd : let c' := transition Closed (push_action (Disconnect ProtocolError) c) in
    good hist sub dlv c' /\ state c' = Closed /\ Disconnect ProtocolError ∈ actions c').
  { split_and!; [by apply good_disconnect|by apply state_transition|].
    unfold transition. destruct c; simpl in *. subst. destruct (negb _); constructor. }
  destruct (transfer_phase (state c)); [|exact Hd]. cbn [negb andb].
  destruct (send =? recv_next c); [|exact Hd]. cbn [negb]. clear Hd.
  set (u := u16_saturating_add _ _).
  set (c1 := set_last_recv_iframe _ _).
  assert (H1 : inv hist sub (S (length dlv)) dlv c1).
  { eapply inv_view; [|by apply (inv_accept hist sub _ dlv now u c)]. by destruct c. }
  destruct (inv_acknowledge recv now c1 H1) as [H2 Hf2].
  destruct (acknowledge_frame recv now c1) as (_ & Hc & Hs & _ & _ & _ & Hu).
  set (c2 := acknowledge recv now c1) in *.
  assert (H3 := inv_deliver _ _ _ _ asdu _ H2).
  assert (Hlen : S (length dlv) = length (dlv ++ [asdu])) by (rewrite length_app; simpl; lia).
  rewrite Hlen in H3.
  assert (Hf3 : flushed (push_action (DeliverAsdu asdu) c2)) by (by destruct c2).
  assert (Hu0 : 0 <= unacked_recv c2).
  { unfold acked in Ha. destruct Hu as [-> | ->]; [|lia]. unfold c1, u, u16_saturating_add.
    destruct c; simpl in *. lia. }
  destruct (Z.leb_spec (cfg_w (config (push_action (DeliverAsdu asdu) c2)))
    (unacked_recv (push_action (DeliverAsdu asdu) c2))) as [Hw|Hw].
  - split_and!; [by apply inv_supervisory|by destruct c2|].
    unfold acked. destruct c2; simpl. lia.
  - split_and!; [done..|]. unfold acked. destruct c2; simpl in *. lia.
Qed.

Lemma good_supervisory hist sub dlv now c :
  good hist sub dlv c -> good hist sub dlv (emit_supervisory now c).
Proof.
  intros (H & Hf & Ha). split_and!; [by apply inv_supervisory|by destruct c|].
  unfold acked. destruct c; simpl. lia.
Qed.

Lemma good_timer_t2 hist sub dlv now c : good hist sub dlv c -> good hist sub dlv (timer_t2 now c).
Proof. intros H. unfold timer_t2. destruct (_ && _); [by apply good_supervisory|done]. Qed.

Lemma good_timer_t3 hist sub dlv now c : good hist sub dlv c -> good hist sub dlv (timer_t3 now c).
Proof.
  intros H. unfold timer_t3. destruct (_ && _); [|done].
  apply (good_same _ _ _ (set_last_send_any (Some now) (emit_apdu (ApduU TestFrAct) c)));
    [by destruct c..|by apply good_emit_u].
Qed.

Lemma good_timer_drained hist sub dlv c : good hist sub dlv c -> good hist sub dlv (timer_drained c).
Proof.
  intros (H & Hf & Ha). unfold timer_drained. destruct (_ && _); [|done].
  assert (Hs : good hist sub dlv (transition Stopped c)) by (by apply good_transition).
  destruct Hs as (H1 & H2 & H3). split_and!; [by apply inv_push|..]; by destruct (transition Stopped c).
Qed.

Lemma good_timers hist sub dlv now c : good hist sub dlv c -> good hist sub dlv (run_timers now c).
Proof.
  intros H. unfold run_timers.
  destruct (elapsed _ _ _); [destruct H as (? & _ & ?); by apply good_disconnect|].
  destruct (elapsed _ _ _); [destruct H as (? & _ & ?); by apply good_disconnect|].
  by apply good_timer_drained, good_timer_t3, good_timer_t2.
Qed.

Lemma good_startdt hist sub dlv now c : good hist sub dlv c -> good hist sub dlv (on_user_startdt now c).
Proof.
  intros H. unfold on_user_startdt. destruct (role c), (state c); try done.
  destruct (good_emit_u hist sub dlv StartDtAct now c H) as (? & _ & ?). by apply good_transition.
Qed.

Lemma good_stopdt hist sub dlv now c : good hist sub dlv c -> good hist sub dlv (on_user_stopdt now c).
Proof.
  intros H. unfold on_user_stopdt. destruct (state c); try done. destruct (role c).
  - destruct (good_emit_u hist sub dlv StopDtAct now c H) as (? & _ & ?). by apply good_transition.
  - destruct H as (? & _ & ?). by apply good_transition.
Qed.

(** Queueing an ASDU behind the others. *)
Lemma inv_enqueue hist sub rcv dlv asdu c : inv hist sub rcv dlv c ->
  inv hist (sub ++ [asdu]) rcv dlv (set_pending (pending c ++ [asdu]) c).
Proof.
  intros []. destruct c; simpl in *. split; simpl; try done. by rewrite app_assoc, inv_fifo0.
Qed.

Lemma good_send hist sub dlv asdu now c : good hist sub dlv c ->
  good hist (sub ++ [asdu]) dlv (on_user_send asdu now c).
Proof.
  intros (H & Hf & Ha). unfold on_user_send.
  assert (Hq : inv hist (sub ++ [asdu]) (length dlv) dlv (set_pending (pending c ++ [asdu]) c))
    by (by apply inv_enqueue).
  destruct (bool_decide_reflect (state c = Active)) as [Hs|Hs]; cbn [negb].
  - destruct (Z.leb_spec (cfg_k (config c)) (Z.of_nat (length (sent c)))) as [Hk|Hk].
    + split_and!; [done| |by destruct c]. intros _. right. by destruct c.
    + assert (Hp : pending c = []) by (destruct (Hf Hs); [done|lia]).
      rewrite Hp in Hq. apply (inv_send_iframe asdu [] now) in Hq; [|by destruct c..].
      assert (Hc : set_pending [] (set_pending [asdu] c) = c) by (destruct c; simpl in *; by subst).
      simpl in Hq. rewrite Hc in Hq.
      split_and!; [done| |].
      * intros _. left. by destruct c.
      * unfold acked in *. destruct c; simpl in *. lia.
  - split_and!; [done| |by destruct c]. apply flushed_not_active. by destruct c.
Qed.

(** The ASDU an input makes the connection accept. *)
Definition accepted (i : Input) (c : Connection) : list bytes :=
  match i with
  | InApdu (ApduI send _ asdu) =>
      if transfer_phase (state c) && (send =? recv_next c) then [asdu] else []
  | _ => []
  end.

Lemma good_on_input hist sub dlv i now c : actions c = [] -> good hist sub dlv c ->
  good hist (sub ++ option_list (submitted_of i)) (dlv ++ accepted i c) (on_input i now c).
Proof.
  intros Hac H. destruct i as [a| | |asdu|]; simpl; rewrite ?app_nil_r.
  - unfold on_apdu.
    assert (H' : good hist sub dlv (set_last_recv_any (Some now) c))
      by (apply (good_same _ _ _ c); [by destruct c..|done]).
    assert (Hx : actions (set_last_recv_any (Some now) c) = [] /\
      state (set_last_recv_any (Some now) c) = state c /\
      recv_next (set_last_recv_any (Some now) c) = recv_next c) by (by destruct c).
    destruct Hx as (Hac' & Es & Er). rewrite <- Es, <- Er.
    generalize dependent (set_last_recv_any (Some now) c). intros c' H' Hac' _ _.
    destruct a as [send recv asdu|recv|f]; rewrite ?app_nil_r.
    + pose proof (good_i_frame hist sub dlv send recv asdu now c' Hac' H') as Hi.
      cbv zeta in Hi. destruct (transfer_phase (state c') && (send =? recv_next c')); [done|].
      rewrite app_nil_r. by destruct Hi.
    + destruct (transfer_phase (state c')); [|done].
      destruct H' as (? & _ & ?). by apply good_acknowledge.
    + by apply good_u_frame.
  - by apply good_startdt.
  - by apply good_stopdt.
  - by apply good_send.
  - done.
Qed.

Lemma good_handle hist sub dlv i now c : actions c = [] -> good hist sub dlv c ->
  let '(c', acts) := handle i now c in
  good (hist ++ acts) (sub ++ option_list (submitted_of i)) (dlv ++ accepted i c) c' /\
  actions c' = [] /\ Forall (carries (recv_next c')) acts.
Proof.
  intros Hac H. unfold handle.
  assert (H' := good_timers _ _ _ now _ (good_on_input hist sub dlv i now c Hac H)).
  generalize dependent (run_timers now (on_input i now c)). intros c' ([] & Hf & Ha).
  destruct c'; simpl in *. split; [split_and!; [|done..]|done].
  split; simpl; rewrite ?app_nil_r; done.
Qed.

Lemma good_new r cfg : 0 <= cfg_w cfg -> good [] [] [] (Connection_new r cfg).
Proof.
  intros Hw. split_and!; [|by intros ?|unfold acked; simpl; lia].
  split; simpl; try done; [|lia]. by exists 0%nat.
Qed.

Lemma good_session inputs : ∀ hist sub dlv c, actions c = [] -> good hist sub dlv c ->
  let '(c', acts) := session inputs c in
  ∃ dlv', good (hist ++ acts) (sub ++ submitted inputs) (dlv ++ dlv') c' /\ actions c' = [].
Proof.
  induction inputs as [|[i now] inputs IH]; intros hist sub dlv c Hac H; cbn [session].
  { exists []. by rewrite !app_nil_r. }
  assert (H1 := good_handle hist sub dlv i now c Hac H).
  destruct (handle i now c) as [c1 a1]. destruct H1 as (H1 & Hac1 & _).
  assert (H2 := IH _ _ _ _ Hac1 H1). destruct (session inputs c1) as [c2 a2].
  destruct H2 as (dlv' & H2 & Hac2). exists (accepted i c ++ dlv').
  rewrite <- !app_assoc in H2. split; [|done].
  replace (submitted ((i, now) :: inputs)) with (option_list (submitted_of i) ++ submitted inputs); [done|].
  unfold submitted. simpl. by destruct (submitted_of i).
Qed.

(** ** Acknowledgement *)

Lemma drop_acked_front base j t l :
  drop_acked (Z.of_nat j mod 32768) ((Z.of_nat base mod 32768, t) :: l) =
    if (Z.of_nat j - Z.of_nat base) mod 32768 =? 0 then (Z.of_nat base mod 32768, t) :: l
    else if 16383 <? (Z.of_nat j - Z.of_nat base) mod 32768 then (Z.of_nat base mod 32768, t) :: l
    else drop_acked (Z.of_nat j mod 32768) l.
Proof.
  cbn [drop_acked]. rewrite SeqNo_distance_mod.
  replace ((Z.of_nat j mod 32768 - Z.of_nat base mod 32768) mod 32768)
    with ((Z.of_nat j - Z.of_nat base) mod 32768) by (rewrite <- Zminus_mod; done).
  change (SeqNo_MAX / 2) with 16383. by destruct (_ =? 0), (16383 <? _).
Qed.

(** An N(R) inside the window drops exactly the frames before it. *)
Lemma drop_acked_exact nr base l :
  l.*1 = seq_run base (length l) -> Z.of_nat (length l) <= 16383 ->
  (base <= nr <= base + length l)%nat ->
  drop_acked (Z.of_nat nr mod 32768) l = drop (nr - base) l.
Proof.
  revert base. induction l as [|[s t] l IH]; intros base Hl Hn Hr.
  { by rewrite drop_nil. }
  cbn [length] in *. rewrite seq_run_cons in Hl. cbn [fmap list_fmap fst] in Hl.
  injection Hl as -> Hl. rewrite drop_acked_front.
  destruct (decide (nr = base)) as [->|Hne].
  { rewrite Z.sub_diag, Nat.sub_diag. done. }
  rewrite (Z.mod_small (_ - _)) by lia.
  destruct (Z.eqb_spec (Z.of_nat nr - Z.of_nat base) 0); [lia|].
  destruct (Z.ltb_spec 16383 (Z.of_nat nr - Z.of_nat base)); [lia|].
  rewrite (IH (S base)) by (done || lia). replace (nr - base)%nat with (S (nr - S base)) by lia. done.
Qed.

(** ** Timers *)

(** The instants that are being timed are within their limits. *)
Definition timely (now : Instant) (c : Connection) : Prop :=
  elapsed now (snd <$> head (sent c)) (t1 (config c)) = false /\
  elapsed now (test_sent c) (t1 (config c)) = false /\
  (unacked_recv c <= 0 \/ elapsed now (last_recv_iframe c) (t2 (config c)) = false) /\
  (transfer_phase (state c) = true -> is_Some (test_sent c) \/
   elapsed now (opt_max (last_send_any c) (last_recv_any c)) (t3 (config c)) = false).

Lemma elapsed_now now t : 0 < t -> elapsed now (Some now) t = false.
Proof. intros. unfold elapsed, since. apply Z.leb_gt. lia. Qed.

Lemma elapsed_opt_max now x t : 0 < t -> elapsed now (opt_max (Some now) x) t = false.
Proof. intros. destruct x; unfold elapsed, opt_max, since; apply Z.leb_gt; lia. Qed.

Lemma timely_t2 now c : 0 < t3 (config c) ->
  let c' := timer_t2 now c in
  (unacked_recv c' <= 0 \/ elapsed now (last_recv_iframe c') (t2 (config c')) = false) /\
  sent c' = sent c /\ test_sent c' = test_sent c /\ config c' = config c.
Proof.
  intros H3. unfold timer_t2.
  destruct (Z.ltb_spec 0 (unacked_recv c)); [|simpl; by auto].
  destruct (elapsed now (last_recv_iframe c) (t2 (config c))) eqn:E; [|simpl; by auto].
  destruct c; simpl in *. split_and!; try done. lia.
Qed.

Lemma timely_run now c : 0 < t1 (config c) -> 0 < t3 (config c) ->
  elapsed now (snd <$> head (sent c)) (t1 (config c)) = false ->
  elapsed now (test_sent c) (t1 (config c)) = false ->
  timely now (timer_drained (timer_t3 now (timer_t2 now c))).
Proof.
  intros P1 P3 H1 H2. destruct (timely_t2 now c P3) as (T2 & Es & Et & Ec).
  cbv zeta in *. generalize dependent (timer_t2 now c). intros c1 T2 Es Et Ec.
  rewrite <- Es, <- Ec in H1. rewrite <- Et, <- Ec in H2. rewrite <- Ec in P1, P3. clear Es Et Ec c.
  assert (T3 : timely now (timer_t3 now c1)).
  { unfold timer_t3. destruct (transfer_phase (state c1)) eqn:Ep; cbn [andb].
    2: { split_and!; try done. by rewrite Ep. }
    destruct (bool_decide_reflect (is_Some (test_sent c1))) as [Hs|Hs]; cbn [negb andb].
    { split_and!; try done. auto. }
    destruct (elapsed now (opt_max (last_send_any c1) (last_recv_any c1)) (t3 (config c1))) eqn:Ee.
    - unfold timely. destruct c1; simpl in *. split_and!; try done; [by apply elapsed_now|].
      intros _. left. eauto.
    - split_and!; try done. auto. }
  generalize dependent (timer_t3 now c1). intros c2 T3. clear c1 T2 P1 P3 H1 H2.
  unfold timer_drained. destruct (bool_decide_reflect (state c2 = Stopping)) as [E|E]; [|done].
  cbn [andb]. destruct (_ && _); [|done].
  destruct T3 as (A1 & A2 & A3 & A4). unfold transition. rewrite E.
  destruct c2; simpl in *. done.
Qed.

(** Timers do not reopen a closed connection. *)
Lemma run_timers_closed now c : state c = Closed ->
  let c' := run_timers now c in state c' = Closed /\ ∀ a, a ∈ actions c -> a ∈ actions c'.
Proof.
  intros E. unfold run_timers.
  assert (Hin : ∀ x a, a ∈ actions c -> a ∈ actions c ++ [x]) by (intros; apply elem_of_app; by left).
  assert (Hd : let c' := transition Closed (push_action (Disconnect AckTimeout) c) in
    state c' = Closed /\ ∀ a, a ∈ actions c -> a ∈ actions c').
  { split; [apply state_transition|]. unfold transition. destruct (negb _), c; simpl in *; intros; rewrite !elem_of_app; auto. }
  destruct (elapsed _ _ _); [done|]. destruct (elapsed _ _ _); [done|]. clear Hd.
  assert (H2 : state (timer_t2 now c) = Closed /\ ∀ a, a ∈ actions c -> a ∈ actions (timer_t2 now c)).
  { unfold timer_t2. destruct (_ && _); [|done]. destruct c; simpl in *. auto. }
  destruct H2 as [H2 H3]. unfold timer_drained, timer_t3. rewrite H2. simpl. by rewrite H2.
Qed.

Lemma protocol_error_closes send recv asdu now c : actions c = [] ->
  let '(c', acts) := handle (InApdu (ApduI send recv asdu)) now c in
  transfer_phase (state c) && (send =? recv_next c) = false ->
  Disconnect ProtocolError ∈ acts /\ state c' = Closed.
Proof.
  intros Hac. unfold handle. intros Hx.
  set (c1 := on_input _ now c).
  assert (H1 : state c1 = Closed /\ Disconnect ProtocolError ∈ actions c1).
  { unfold c1. simpl. unfold on_apdu, on_i_frame.
    replace (state (set_last_recv_any (Some now) c)) with (state c) by (by destruct c).
    replace (recv_next (set_last_recv_any (Some now) c)) with (recv_next c) by (by destruct c).
    destruct (transfer_phase (state c)); cbn [negb andb] in *; [rewrite Hx; cbn [negb]|];
      (split; [by apply state_transition|]);
      unfold transition; destruct c; simpl in *; subst; destruct (negb _); constructor. }
  destruct H1 as [H1 H2]. destruct (run_timers_closed now c1 H1) as [H3 H4].
  split; [by apply H4|]. by destruct (run_timers now c1).
Qed.

(** The configuration and the role never change. *)
Lemma config_transition to c : config (transition to c) = config c.
Proof. apply transition_frame. Qed.
Lemma config_flush now c : config (flush_pending now c) = config c.
Proof. apply flush_from_frame. Qed.
Lemma config_acknowledge nr now c : config (acknowledge nr now c) = config c.
Proof. apply acknowledge_frame. Qed.

Lemma config_on_input i now c : config (on_input i now c) = config c.
Proof.
  destruct i as [a| | |asdu|]; simpl; try done.
  - unfold on_apdu. replace (config c) with (config (set_last_recv_any (Some now) c)) by (by destruct c).
    generalize (set_last_recv_any (Some now) c). clear c. intros c.
    destruct a as [send recv asdu|recv|f].
    + unfold on_i_frame. destruct (negb _); [rewrite config_transition; by destruct c|].
      destruct (negb _); [rewrite config_transition; by destruct c|]. cbv zeta.
      match goal with |- context [acknowledge recv now ?x] =>
        pose proof (config_acknowledge recv now x) as Ha; destruct (acknowledge recv now x) end.
      simpl in *. destruct (_ <=? _); destruct c; simpl in *; done.
    + destruct (transfer_phase _); [apply config_acknowledge|done].
    + unfold on_u_frame. destruct f, (role c), (state c); try destruct (sent c);
        rewrite ?config_flush, ?config_transition; destruct c; try done;
        match goal with |- config (push_action _ (transition ?t ?x)) = _ =>
          pose proof (config_transition t x); by destruct (transition t x) end.
  - unfold on_user_startdt. destruct (role c), (state c); rewrite ?config_transition; by destruct c.
  - unfold on_user_stopdt. destruct (state c), (role c); rewrite ?config_transition; by destruct c.
  - unfold on_user_send. destruct (negb _); [by destruct c|]. destruct (_ <=? _); by destruct c.
Qed.

(** ** The properties of the connection *)

(** C20. In every session, whatever the peer and the user do: never more than
    [k] I-frames are unacknowledged; the window holds exactly the latest N(S)
    numbers, in order; while data transfer is active nothing is held back
    unless the window is full; fewer than [w] received frames await an
    acknowledgement; and every call drains its action queue. *)
Theorem connection_window r cfg inputs : 0 <= cfg_w cfg ->
  let '(c, log) := session inputs (Connection_new r cfg) in
  Z.of_nat (length (sent c)) <= Z.max 0 (cfg_k (config c)) /\
  (∃ base, (base + length (sent c) = length (iframes log))%nat /\
           (sent c).*1 = seq_run base (length (sent c))) /\
  (state c = Active -> pending c = [] \/ cfg_k (config c) <= Z.of_nat (length (sent c))) /\
  0 <= unacked_recv c < Z.max 1 (cfg_w (config c)) /\ actions c = [].
Proof.
  intros Hw. pose proof (good_session inputs [] [] [] (Connection_new r cfg) eq_refl (good_new r cfg Hw)) as H.
  destruct (session inputs _) as [c log]. destruct H as (dlv & (H & Hf & Ha) & Hac).
  assert (Hwin := inv_window _ _ _ _ _ H). rewrite app_nil_l, Hac, app_nil_r in Hwin.
  split_and!; [apply H|done|done|apply Ha..|done].
Qed.

(** The connection is a FIFO between the user and the wire: the ASDUs of
    the I-frames it has sent, followed by the ones still queued, are exactly
    the submitted ASDUs in order, none lost, repeated or reordered, and the
    I-frames are numbered 0, 1, 2, ... modulo 2^15. *)
Theorem connection_fifo r cfg inputs : 0 <= cfg_w cfg ->
  let '(c, log) := session inputs (Connection_new r cfg) in
  (iframes log).*2 ++ pending c = submitted inputs /\
  (iframes log).*1 = seq_run 0 (length (iframes log)) /\
  send_next c = Z.of_nat (length (iframes log)) mod 32768.
Proof.
  intros Hw. pose proof (good_session inputs [] [] [] (Connection_new r cfg) eq_refl (good_new r cfg Hw)) as H.
  destruct (session inputs _) as [c log]. destruct H as (dlv & ([] & _) & Hac).
  rewrite app_nil_l, Hac, app_nil_r in *. done.
Qed.

(** Reception is in order: in every reachable state an I-frame is
    delivered exactly when data transfer is on and its N(S) is the next one
    expected, and then [recv_next] moves on by one; any other I-frame delivers
    nothing, reports a protocol error and closes the connection. Every I- or
    S-frame sent in reply carries the updated N(R). *)
Theorem connection_receives_in_order r cfg inputs send recv asdu now : 0 <= cfg_w cfg ->
  let '(c, log) := session inputs (Connection_new r cfg) in
  let '(c', acts) := handle (InApdu (ApduI send recv asdu)) now c in
  recv_next c = Z.of_nat (length (delivered log)) mod 32768 /\
  Forall (carries (recv_next c')) acts /\
  if transfer_phase (state c) && (send =? recv_next c)
  then delivered acts = [asdu] /\ recv_next c' = SeqNo_next (recv_next c)
  else delivered acts = [] /\ recv_next c' = recv_next c /\
       Disconnect ProtocolError ∈ acts /\ state c' = Closed.
Proof.
  intros Hw. pose proof (good_session inputs [] [] [] (Connection_new r cfg) eq_refl (good_new r cfg Hw)) as H.
  destruct (session inputs _) as [c log]. destruct H as (dlv & H & Hac). rewrite !app_nil_l in H.
  pose proof (good_handle _ _ _ (InApdu (ApduI send recv asdu)) now c Hac H) as H'.
  pose proof (protocol_error_closes send recv asdu now c Hac) as Hx.
  destruct (handle _ now c) as [c' acts]. destruct H' as ((H' & _) & Hac' & Hc).
  destruct H as (H & _). destruct H as [_ _ _ Hr Hd _ _ _], H' as [_ _ _ Hr' Hd' _ _ _].
  rewrite Hac, app_nil_r in Hd. rewrite Hac', app_nil_r, delivered_app, Hd in Hd'.
  apply app_inv_head in Hd'. unfold accepted in *.
  split_and!; [by rewrite Hd|done|].
  destruct (transfer_phase (state c) && (send =? recv_next c)).
  - split; [done|]. rewrite Hr', Hr, SeqNo_next_mod, length_app. simpl. lia.
  - rewrite app_nil_r in Hr'. split_and!; [done|congruence|..]; by apply Hx.
Qed.

Lemma flush_from_sent p now c : ∃ new, sent (flush_from p now c) = sent c ++ new /\
  (length new <= length p)%nat /\ Forall (fun e => e.2 = now) new.
Proof.
  revert c. induction p as [|asdu p IH]; intros c; simpl.
  { exists []. rewrite app_nil_r. by auto. }
  destruct (_ <? _); [|exists []; rewrite app_nil_r; simpl; split_and!; [done|lia|done]].
  destruct (IH (send_iframe asdu now (set_pending p c))) as (new & E & Hl & Hn).
  exists ((send_next c, now) :: new). destruct c; simpl in *. rewrite E, <- app_assoc.
  split_and!; [done|lia|by constructor].
Qed.

(** An N(R) inside the window acknowledges exactly the frames numbered
    before it: they leave the window, every later one stays, and only then is
    the freed space filled with queued ASDUs, stamped with the current time. *)
Theorem acknowledge_exact nr base now c :
  (sent c).*1 = seq_run base (length (sent c)) -> Z.of_nat (length (sent c)) <= 16383 ->
  (base <= nr <= base + length (sent c))%nat ->
  ∃ new, sent (acknowledge (Z.of_nat nr mod 32768) now c) = drop (nr - base) (sent c) ++ new /\
    (length new <= length (pending c))%nat /\ Forall (fun e => e.2 = now) new.
Proof.
  intros Hs Hl Hr. unfold acknowledge, flush_pending.
  rewrite (drop_acked_exact nr base) by done.
  pose proof (flush_from_sent (pending (set_sent (drop (nr - base) (sent c)) c)) now
    (set_sent (drop (nr - base) (sent c)) c)) as H.
  destruct c; exact H.
Qed.

(** After every call either the connection has timed out, says so and is
    closed, or every timed event is within its limit: the oldest
    unacknowledged I-frame and an outstanding TESTFR are younger than [t1],
    received frames awaiting acknowledgement are younger than [t2], and while
    data transfer is on the link has been idle for less than [t3] or a TESTFR
    is outstanding. *)
Theorem connection_timers i now c : 0 < t1 (config c) -> 0 < t3 (config c) ->
  let '(c', acts) := handle i now c in
  (Disconnect AckTimeout ∈ acts /\ state c' = Closed) \/ timely now c'.
Proof.
  intros P1 P3. unfold handle.
  assert (Hc : config (on_input i now c) = config c) by apply config_on_input.
  rewrite <- Hc in P1, P3. generalize dependent (on_input i now c). intros c1 P1 P3 _.
  unfold run_timers.
  assert (Hd : let c' := transition Closed (push_action (Disconnect AckTimeout) c1) in
    Disconnect AckTimeout ∈ actions c' /\ state (clear_actions c') = Closed).
  { unfold transition. destruct c1 as [? ? st]. simpl.
    destruct (bool_decide_reflect (st = Closed)) as [->|]; simpl; rewrite !elem_of_app;
      (split; [|done]); [|left]; right; constructor. }
  destruct (elapsed now (snd <$> head (sent c1)) (t1 (config c1))) eqn:E1; [by left|].
  destruct (elapsed now (test_sent c1) (t1 (config c1))) eqn:E2; [by left|]. right.
  pose proof (timely_run now c1 P1 P3 E1 E2) as Ht. by destruct (timer_drained _).
Qed.

(** ** Concrete sessions *)

(** A client that starts data transfer, sends and receives one ASDU. *)
Definition sample_inputs : list (Input * Instant) :=
  [(InStartDt, 0); (InSendAsdu [1; 2], 1); (InApdu (ApduU StartDtCon), 2);
   (InApdu (ApduI 0 0 [3; 4]), 3); (InSendAsdu [5], 4)].

Definition sample_client : Connection := (session sample_inputs (Connection_new Client Config_default)).1.

Lemma connection_window_witness :
  Z.of_nat (length (sent sample_client)) <= Z.max 0 12 /\ actions sample_client = [].
Proof.
  assert (Hw : 0 <= cfg_w Config_default) by (simpl; lia).
  pose proof (connection_window Client Config_default sample_inputs Hw) as (H1 & _ & _ & _ & H5).
  exact (conj H1 H5).
Defined.

Lemma connection_fifo_witness :
  (session sample_inputs (Connection_new Client Config_default)).1.(pending) = [] /\
  (iframes (session sample_inputs (Connection_new Client Config_default)).2).*2 ++ [] = [[1; 2]; [5]].
Proof.
  assert (Hw : 0 <= cfg_w Config_default) by (simpl; lia).
  pose proof (connection_fifo Client Config_default sample_inputs Hw) as (H1 & _).
  exact (conj eq_refl H1).
Defined.

Lemma connection_receives_in_order_witness :
  delivered (handle (InApdu (ApduI 1 2 [9])) 5 sample_client).2 = [[9]].
Proof.
  assert (Hw : 0 <= cfg_w Config_default) by (simpl; lia).
  pose proof (connection_receives_in_order Client Config_default sample_inputs 1 2 [9] 5 Hw) as H.
  vm_compute in H. destruct H as (_ & _ & H & _). vm_compute. exact H.
Defined.

Lemma acknowledge_exact_witness :
  ∃ new, sent (acknowledge (Z.of_nat 1 mod 32768) 7 sample_client) =
      drop (1 - 0) (sent sample_client) ++ new /\
    (length new <= length (pending sample_client))%nat /\ Forall (fun e => e.2 = 7) new.
Proof.
  apply (acknowledge_exact 1 0 7 sample_client); [reflexivity|vm_compute; discriminate|].
  split; apply Nat.leb_le; reflexivity.
Defined.

Lemma connection_timers_witness :
  (Disconnect AckTimeout ∈ (handle InTick 15002 sample_client).2 /\
     state (handle InTick 15002 sample_client).1 = Closed) \/
  timely 15002 (handle InTick 15002 sample_client).1.
Proof. apply (connection_timers InTick 15002 sample_client); vm_compute; reflexivity. Defined.

(** ** Behaviour at the edges *)

(** A client whose window is empty closes in the very call that sends
    STOPDT_act: it does not wait for STOPDT_con. *)
Lemma stopdt_without_confirmation :
  (handle InStopDt 10 (session [(InStartDt, 0); (InApdu (ApduU StartDtCon), 1)]
     (Connection_new Client Config_default)).1).2 =
  [SendApdu (ApduU StopDtAct); StateChanged Stopping; StateChanged Stopped; Disconnect StoppedCleanly].
Proof. vm_compute. reflexivity. Qed.

(** [Closed] is left again: a server that has closed the connection answers
    STOPDT_act and can be started afresh. *)
Lemma closed_is_left :
  let c := (session [(InApdu (ApduI 0 0 [1]), 0)] (Connection_new Server Config_default)).1 in
  state c = Closed /\
  (handle (InApdu (ApduU StopDtAct)) 1 c).2 = [SendApdu (ApduU StopDtCon); StateChanged Stopped].
Proof. vm_compute. done. Qed.

(** STARTDT_act is not supervised: a client that has sent it and hears
    nothing waits for ever. *)
Lemma startdt_unsupervised now :
  handle InTick now (session [(InStartDt, 0)] (Connection_new Client Config_default)).1 =
  ((session [(InStartDt, 0)] (Connection_new Client Config_default)).1, []).
Proof. reflexivity. Qed.

(** [t2] restarts with every received I-frame, so a steady stream slower than
    [w] per [t1] but faster than one per [t2] is not acknowledged in time: at
    15 s the receiver still owes the acknowledgement of the frame received at
    0 s, whose sender now times out. *)
Lemma steady_stream_unacknowledged :
  let start := [(InApdu (ApduU StartDtAct), 0)] in
  let '(c, log) := session (start ++ [(InApdu (ApduI 0 0 [1]), 0); (InTick, 8000);
    (InApdu (ApduI 1 0 [2]), 9000); (InTick, 15000)]) (Connection_new Server Config_default) in
  unacked_recv c = 2 /\ Forall (fun a => match a with SendApdu (ApduS _) => False | _ => True end) log.
Proof. vm_compute. split; [reflexivity|repeat constructor]. Qed.

(** After STOPDT the server ignores S-frames, so I-frames that were in flight
    can no longer be acknowledged and the link ends in a timeout. *)
Lemma stopped_ignores_acknowledgement :
  let c := (session [(InApdu (ApduU StartDtAct), 0); (InSendAsdu [1], 1);
    (InApdu (ApduU StopDtAct), 2); (InApdu (ApduS 1), 3)] (Connection_new Server Config_default)).1 in
  sent c = [(0, 1)] /\ (handle InTick 15001 c).2 = [Disconnect AckTimeout; StateChanged Closed].
Proof. vm_compute. done. Qed.
