(* ===== verification/Net104.v ===== *)
(** * Two stations over a reliable link

    Two [Connection]s of [frame104/state.rs] joined by a pair of first-in
    first-out channels, as the drivers join them over TCP: the frames a call
    of [handle] returns are appended to the outgoing channel, the head of the
    incoming channel is fed to [handle], user requests and clock ticks happen
    at any time and in any order. A station that has returned [Disconnect]
    takes no further step, as its driver has closed the transport; what it
    sent before may still arrive. The theorems hold in every reachable
    configuration of the pair. *)

From S2P Require Import Prelude Pipe Frame104 Conn104.

(** ** The balance of the send window

    Outside [acknowledge] an operation lengthens the window by exactly the
    I-frames it emits. *)
Definition balanced (c c' : Connection) : Prop :=
  (length (sent c') + length (iframes (actions c)) =
   length (sent c) + length (iframes (actions c')))%nat.

Lemma balanced_refl c : balanced c c.
Proof. unfold balanced. lia. Qed.
Lemma balanced_trans c1 c2 c3 : balanced c1 c2 -> balanced c2 c3 -> balanced c1 c3.
Proof. unfold balanced. lia. Qed.
Lemma balanced_push a c : iframe_of a = None -> balanced c (push_action a c).
Proof.
  intros H. unfold balanced. destruct c; simpl. rewrite iframes_app, length_app.
  unfold iframes at 3. simpl. rewrite H. simpl. lia.
Qed.
Lemma balanced_same c c' : sent c' = sent c -> actions c' = actions c -> balanced c c'.
Proof. unfold balanced. intros -> ->. lia. Qed.
Lemma balanced_transition to c : balanced c (transition to c).
Proof.
  unfold transition. destruct (negb _); [|apply balanced_refl].
  eapply balanced_trans; [|by apply balanced_push]. apply balanced_same; by destruct c.
Qed.
Lemma balanced_send asdu now p c : balanced c (send_iframe asdu now (set_pending p c)).
Proof.
  unfold balanced. destruct c; simpl. rewrite iframes_app, !length_app. simpl. lia.
Qed.
Lemma balanced_flush_from p now c : balanced c (flush_from p now c).
Proof.
  revert c. induction p as [|a p IH]; intros c; simpl; [apply balanced_refl|].
  destruct (_ <? _); [|apply balanced_refl]. eapply balanced_trans; [apply balanced_send|apply IH].
Qed.
Lemma balanced_supervisory now c : balanced c (emit_supervisory now c).
Proof.
  unfold balanced. destruct c; simpl. rewrite iframes_app, length_app. simpl. lia.
Qed.

Create HintDb balance.
#[export] Hint Resolve balanced_refl balanced_transition balanced_flush_from balanced_supervisory : balance.

(** An emitted U-frame with its time stamp. *)
Lemma balanced_emit_u f now c : balanced c (set_last_send_any (Some now) (emit_apdu (ApduU f) c)).
Proof.
  apply (balanced_trans _ (emit_apdu (ApduU f) c)); [by apply balanced_push|].
  apply balanced_same; by destruct c.
Qed.

Lemma balanced_closing r c : balanced c (transition Closed (push_action (Disconnect r) c)).
Proof. apply (balanced_trans _ (push_action (Disconnect r) c)); [by apply balanced_push|apply balanced_transition]. Qed.

Lemma balanced_stopping c : balanced c (push_action (Disconnect StoppedCleanly) (transition Stopped c)).
Proof. eapply balanced_trans; [apply balanced_transition|by apply balanced_push]. Qed.

Lemma balanced_u_frame f now c : balanced c (on_u_frame f now c).
Proof.
  pose proof (balanced_closing ProtocolError c) as Hc. unfold on_u_frame.
  assert (Ht : balanced c (set_test_sent None c)) by (apply balanced_same; by destruct c).
  destruct f; destruct (role c); destruct (state c); try done; try apply balanced_emit_u.
  all: cycle -1.
  { destruct (sent c); [apply balanced_stopping|apply balanced_refl]. }
  { eapply balanced_trans; [apply (balanced_emit_u StartDtCon now)|].
    eapply balanced_trans; [apply balanced_transition|apply balanced_flush_from]. }
  { eapply balanced_trans; [apply balanced_transition|apply balanced_flush_from]. }
  all: eapply balanced_trans; [apply balanced_emit_u|apply balanced_transition].
Qed.

Lemma balanced_timers now c : balanced c (run_timers now c).
Proof.
  unfold run_timers. destruct (elapsed _ _ _); [apply balanced_closing|].
  destruct (elapsed _ _ _); [apply balanced_closing|].
  apply (balanced_trans _ (timer_t2 now c)).
  { unfold timer_t2. destruct (_ && _); auto with balance. }
  generalize (timer_t2 now c). clear c. intros c. apply (balanced_trans _ (timer_t3 now c)).
  { unfold timer_t3. destruct (_ && _); [|auto with balance].
    eapply balanced_trans; [apply (balanced_emit_u TestFrAct now)|apply balanced_same; by destruct c]. }
  unfold timer_drained. destruct (_ && _); [apply balanced_stopping|apply balanced_refl].
Qed.

(** The N(R) a frame carries. *)
Definition apdu_nr (a : Apdu) : option SeqNo :=
  match a with ApduI _ r _ | ApduS r => Some r | ApduU _ => None end.
(** The I-frame a frame is. *)
Definition apdu_iframe (a : Apdu) : option (SeqNo * bytes) :=
  match a with ApduI s _ d => Some (s, d) | _ => None end.

(** [c1] is [c] with the window as it is or cut by the N(R) of the input. *)
Definition ack_step (i : Input) (c c1 : Connection) : Prop :=
  sent c1 = sent c \/
  ∃ a nr, i = InApdu a /\ apdu_nr a = Some nr /\ sent c1 = drop_acked nr (sent c).

(** In a transfer phase an acknowledgement is taken, unless the frame closes
    the connection. *)
Definition ack_taken (i : Input) (c c1 c' : Connection) : Prop :=
  ∀ a nr, i = InApdu a -> apdu_nr a = Some nr -> transfer_phase (state c) = true ->
  state c' ≠ Closed -> sent c1 = drop_acked nr (sent c).

Lemma on_input_balance i now c : actions c = [] ->
  ∃ c1, ack_step i c c1 /\ iframes (actions c1) = [] /\ balanced c1 (on_input i now c) /\
    ack_taken i c c1 (on_input i now c).
Proof.
  intros Hac. destruct i as [a| | |asdu|].
  2-5: exists c; split_and!; [by left|by rewrite Hac| |by intros ?]; simpl; auto with balance.
  - simpl. unfold on_apdu.
    assert (E1 : sent (set_last_recv_any (Some now) c) = sent c) by (by destruct c).
    assert (E2 : actions (set_last_recv_any (Some now) c) = []) by (by destruct c).
    assert (E3 : state (set_last_recv_any (Some now) c) = state c) by (by destruct c).
    unfold ack_step, ack_taken. rewrite <- E1, <- E3. clear Hac E1 E3.
    generalize dependent (set_last_recv_any (Some now) c). clear c. intros c Hac.
    destruct a as [send recv asdu|recv|f].
    + unfold on_i_frame.
      destruct (transfer_phase (state c)); simpl.
      2: exists c; split_and!; [by left|by rewrite Hac|apply balanced_closing|done].
      destruct (negb _).
      { exists c; split_and!; [by left|by rewrite Hac|apply balanced_closing|].
        intros a nr _ _ _ []. apply state_transition. }
      match goal with |- context [acknowledge recv now ?x] =>
        exists (set_sent (drop_acked recv (sent x)) x); assert (Ex : sent x = sent c /\ actions x = []) by (by destruct c);
        destruct Ex as [Ex1 Ex2]; unfold acknowledge; generalize dependent x end.
      intros x Ex1 Ex2. split_and!.
      * right. exists (ApduI send recv asdu), recv. split_and!; [done..|]. rewrite Ex1. by destruct x.
      * destruct x; simpl in *. by rewrite Ex2.
      * eapply balanced_trans; [apply balanced_flush_from|]. fold (flush_pending now (set_sent (drop_acked recv (sent x)) x)).
        eapply balanced_trans; [by apply (balanced_push (DeliverAsdu asdu))|].
        cbv zeta. unfold flush_pending. destruct (_ <=? _); auto with balance.
      * intros ? ? [= <-] [= <-] _ _. rewrite Ex1. by destruct x.
    + destruct (transfer_phase (state c)).
      * exists (set_sent (drop_acked recv (sent c)) c). split_and!.
        { right. exists (ApduS recv), recv. split_and!; [done..|]. by destruct c. }
        { destruct c; simpl in *. by rewrite Hac. }
        { apply balanced_flush_from. }
        intros ? ? [= <-] [= <-] _ _. by destruct c.
      * exists c. split_and!; [by left|by rewrite Hac|apply balanced_refl|done].
    + exists c. split_and!; [by left|by rewrite Hac|apply balanced_u_frame|by intros ? ? [= <-]].
  - unfold on_user_startdt. destruct (role c), (state c); auto with balance.
    eapply balanced_trans; [apply balanced_emit_u|apply balanced_transition].
  - unfold on_user_stopdt. destruct (state c), (role c); auto with balance.
    eapply balanced_trans; [apply balanced_emit_u|apply balanced_transition].
  - unfold on_user_send. destruct (negb _); [by apply balanced_same; destruct c|].
    destruct (_ <=? _); [by apply balanced_same; destruct c|].
    pose proof (balanced_send asdu now (pending c) c) as H. by destruct c.
Qed.

(** The timers leave [Closed] alone. *)
Lemma timers_closed now c : state c = Closed -> state (run_timers now c) = Closed.
Proof.
  intros Hs. unfold run_timers. destruct (elapsed _ _ _); [apply state_transition|].
  destruct (elapsed _ _ _); [apply state_transition|].
  assert (H2 : state (timer_t2 now c) = Closed) by (unfold timer_t2; destruct (_ && _); by destruct c).
  generalize dependent (timer_t2 now c). clear c Hs. intros c Hs.
  unfold timer_t3, timer_drained. rewrite Hs. simpl. by rewrite Hs.
Qed.

Lemma handle_window i now c : actions c = [] ->
  let '(c', acts) := handle i now c in
  ∃ c1, ack_step i c c1 /\ (length (sent c') = length (sent c1) + length (iframes acts))%nat /\
    ack_taken i c c1 c'.
Proof.
  intros Hac. unfold handle. destruct (on_input_balance i now c Hac) as (c1 & Ha & Hi & Hb & Ht).
  exists c1. split; [done|].
  pose proof (balanced_trans _ _ _ Hb (balanced_timers now (on_input i now c))) as H.
  unfold balanced in H. rewrite Hi in H. simpl in H.
  pose proof (timers_closed now (on_input i now c)) as Hcl.
  split; [destruct (run_timers now (on_input i now c)); simpl in *; lia|].
  intros a nr E1 E2 Hph Hs. apply (Ht a nr E1 E2 Hph). intros E. apply Hs. apply Hcl in E.
  by destruct (run_timers now (on_input i now c)).
Qed.

(** ** The system *)

Record side := mkSide { conn : Connection; log : list Action; sub : list bytes }.
Record net := mkNet { stA : side; stB : side; chAB : list Apdu; chBA : list Apdu }.

Definition frame_of (a : Action) : option Apdu :=
  match a with SendApdu f => Some f | _ => None end.
Definition frames (acts : list Action) : list Apdu := omap frame_of acts.

Definition side_step (i : Input) (now : Instant) (s : side) : side * list Apdu :=
  let '(c', acts) := handle i now (conn s) in
  (mkSide c' (log s ++ acts) (sub s ++ option_list (submitted_of i)), frames acts).

Definition no_disconnect (a : Action) : Prop :=
  match a with Disconnect _ => False | _ => True end.
(** The station has not asked its driver to close the transport. *)
Definition up (s : side) : Prop := Forall no_disconnect (log s).
Definition local (i : Input) : Prop := match i with InApdu _ => False | _ => True end.

Inductive net_step : net -> net -> Prop :=
| net_local_A n i now s fs : local i -> up (stA n) -> side_step i now (stA n) = (s, fs) ->
    net_step n (mkNet s (stB n) (chAB n ++ fs) (chBA n))
| net_local_B n i now s fs : local i -> up (stB n) -> side_step i now (stB n) = (s, fs) ->
    net_step n (mkNet (stA n) s (chAB n) (chBA n ++ fs))
| net_recv_A n f rest now s fs : chBA n = f :: rest -> up (stA n) ->
    side_step (InApdu f) now (stA n) = (s, fs) ->
    net_step n (mkNet s (stB n) (chAB n ++ fs) rest)
| net_recv_B n f rest now s fs : chAB n = f :: rest -> up (stB n) ->
    side_step (InApdu f) now (stB n) = (s, fs) ->
    net_step n (mkNet (stA n) s rest (chBA n ++ fs)).

Definition net_init (cfgA cfgB : Config) : net :=
  mkNet (mkSide (Connection_new Client cfgA) [] []) (mkSide (Connection_new Server cfgB) [] []) [] [].

Definition net_reachable (cfgA cfgB : Config) (n : net) : Prop := rtc net_step (net_init cfgA cfgB) n.

(** ** The invariant of one direction *)

Definition side_ok (s : side) : Prop :=
  good (log s) (sub s) (delivered (log s)) (conn s) /\ actions (conn s) = [].

(** The number of [s]'s I-frames that have left its window. *)
Definition acked_count (s : side) : nat := length (iframes (log s)) - length (sent (conn s)).

(** [cs] are the counts the acknowledgements in [ch] stand for, climbing from
    [lo] to [hi]. *)
Definition acks (ch : list Apdu) (cs : list nat) (lo hi : nat) : Prop :=
  Forall2 (fun nr n => nr = Z.of_nat n mod 32768) (omap apdu_nr ch) cs /\ chain lo cs hi.

(** The last of them. *)
Fixpoint top (lo : nat) (cs : list nat) : nat :=
  match cs with [] => lo | x :: cs' => top x cs' end.

Lemma top_last lo x cs : cs ≠ [] -> top lo cs = top x cs.
Proof. by destruct cs. Qed.

(** Data flows from [a] over [ab] to [b], acknowledgements back over [ba]. *)
Record half (a b : side) (ab ba : list Apdu) : Prop := {
  half_a : side_ok a;
  half_b : side_ok b;
  half_prefix : delivered (log b) `prefix_of` (iframes (log a)).*2;
  half_flow : up b -> ∃ rcvd, iframes (log a) = rcvd ++ omap apdu_iframe ab /\
    rcvd.*2 = delivered (log b);
  half_acks : ∃ cs, acks ba cs (acked_count a) (length (delivered (log b)));
  half_k : cfg_k (config (conn a)) <= 16383;
}.

Lemma frames_iframes acts : omap apdu_iframe (frames acts) = iframes acts.
Proof.
  unfold frames, iframes. induction acts as [|a acts IH]; [done|].
  destruct a as [[s r d| |]| | |]; [exact (f_equal (cons (s, d)) IH)|exact IH..].
Qed.

Lemma carries_nrs nr acts : Forall (carries nr) acts ->
  Forall (eq nr) (omap apdu_nr (frames acts)).
Proof.
  unfold frames. induction 1 as [|a acts Ha _ IH]; [constructor|].
  destruct a as [[]| | |]; simpl in Ha; subst; [by constructor..|exact IH|exact IH|exact IH|exact IH].
Qed.

Lemma side_ok_step i now s s' fs : side_ok s -> side_step i now s = (s', fs) ->
  side_ok s' /\ ∃ acts, log s' = log s ++ acts /\ fs = frames acts /\
    delivered acts = accepted i (conn s) /\ sub s' = sub s ++ option_list (submitted_of i) /\
    Forall (carries (recv_next (conn s'))) acts /\ handle i now (conn s) = (conn s', acts).
Proof.
  intros [H Hac] E. unfold side_step in E.
  pose proof (good_handle _ _ _ i now _ Hac H) as Hh. destruct (handle i now (conn s)) as [c' acts] eqn:Eh.
  injection E as <- <-. destruct Hh as (Hg & Hac' & Hc).
  assert (Hd : delivered acts = accepted i (conn s)).
  { destruct Hg as (Hi & _). pose proof (inv_delivered _ _ _ _ _ Hi) as Hd.
    rewrite Hac', app_nil_r, delivered_app in Hd. by apply app_inv_head in Hd. }
  split.
  - split; [|done]. simpl. by rewrite delivered_app, Hd.
  - exists acts. done.
Qed.

Lemma side_ok_window s : side_ok s ->
  (sent (conn s)).*1 = seq_run (acked_count s) (length (sent (conn s))) /\
  (acked_count s + length (sent (conn s)) = length (iframes (log s)))%nat /\
  Z.of_nat (length (sent (conn s))) <= Z.max 0 (cfg_k (config (conn s))).
Proof.
  intros [(Hi & _) Hac]. pose proof (inv_k _ _ _ _ _ Hi) as Hk.
  destruct (inv_window _ _ _ _ _ Hi) as (base & Hb & Hs). rewrite Hac, app_nil_r in Hb. unfold acked_count.
  replace (length (iframes (log s)) - length (sent (conn s)))%nat with base by lia. done.
Qed.

Lemma side_ok_recv s : side_ok s ->
  recv_next (conn s) = Z.of_nat (length (delivered (log s))) mod 32768.
Proof. intros [(Hi & _) _]. apply (inv_recv_next _ _ _ _ _ Hi). Qed.

Lemma handle_config i now c : config (handle i now c).1 = config c.
Proof.
  unfold handle. simpl. rewrite <- (config_on_input i now c). generalize (on_input i now c). clear c. intros c.
  transitivity (config (run_timers now c)); [by destruct (run_timers now c)|].
  unfold run_timers.
  destruct (elapsed _ _ _); [rewrite config_transition; by destruct c|].
  destruct (elapsed _ _ _); [rewrite config_transition; by destruct c|].
  transitivity (config (timer_t2 now c)); [|unfold timer_t2; destruct (_ && _); by destruct c].
  generalize (timer_t2 now c). clear c. intros c.
  transitivity (config (timer_t3 now c)); [|unfold timer_t3; destruct (_ && _); by destruct c].
  unfold timer_drained. destruct (_ && _); [|done].
  pose proof (config_transition Stopped (timer_t3 now c)). by destruct (transition Stopped (timer_t3 now c)).
Qed.

(** How an input changes the incoming channel. *)
Definition takes (i : Input) (ch ch' : list Apdu) : Prop :=
  match i with InApdu f => ch = f :: ch' | _ => ch = ch' end.

(** The count of acknowledged frames moves to the N(R) of the frame taken, or
    not at all; in a transfer phase the last acknowledgement is never lost. *)
Lemma acked_count_step i now a a' fs b ab ba ba' cs :
  half a b ab ba -> takes i ba ba' -> side_step i now a = (a', fs) ->
  acks ba cs (acked_count a) (length (delivered (log b))) ->
  ∃ cs', acks ba' cs' (acked_count a') (length (delivered (log b))) /\
    (transfer_phase (state (conn a)) = true -> state (conn a') ≠ Closed ->
     top (acked_count a') cs' = top (acked_count a) cs).
Proof.
  intros [Ha Hb Hp _ _ Hk] Ht E [Hcs Hch].
  destruct (side_ok_step i now a a' fs Ha E) as (Ha' & acts & Hlog & _ & _ & _ & _ & Hh).
  destruct (side_ok_window a Ha) as (Hw & Hn & Hwk).
  destruct (side_ok_window a' Ha') as (_ & Hn' & _).
  pose proof (handle_window i now (conn a) (proj2 Ha)) as Hx. rewrite Hh in Hx.
  destruct Hx as (c1 & Hack & Hlen & Htk). rewrite Hlog, iframes_app, length_app in Hn'.
  assert (Hhi : (length (delivered (log b)) <= length (iframes (log a)))%nat).
  { apply prefix_length in Hp. by rewrite length_fmap in Hp. }
  assert (Hsame : sent c1 = sent (conn a) -> acked_count a' = acked_count a)
    by (intros Es; rewrite Es in Hlen; lia).
  destruct i as [f| | |d|]; simpl in Ht; subst.
  2-5: destruct Hack as [Es|(? & ? & ? & _)]; [|done]; exists cs; by rewrite Hsame.
  destruct (apdu_nr f) as [nr|] eqn:Enr.
  - replace (omap apdu_nr (f :: ba')) with (nr :: omap apdu_nr ba') in Hcs
      by (cbn; by rewrite Enr).
    apply Forall2_cons_inv_l in Hcs as (n & cs' & En & Hcs & ->).
    destruct Hch as [Hlo Hch]. pose proof (chain_le _ _ _ Hch) as Hle.
    assert (Hdrop : sent c1 = drop_acked nr (sent (conn a)) -> acked_count a' = n).
    { intros Es. rewrite En, (drop_acked_exact n (acked_count a)) in Es; [|done|lia..].
      rewrite Es, length_drop in Hlen. lia. }
    exists cs'. split; [split; [done|]|].
    + destruct Hack as [Es|(f' & nr' & [= <-] & Enr' & Es)].
      * rewrite Hsame by done. by apply (chain_weaken n).
      * rewrite Enr in Enr'. injection Enr' as <-. by rewrite Hdrop.
    + intros Hph Hs. by rewrite (Hdrop (Htk f nr eq_refl Enr Hph Hs)).
  - replace (omap apdu_nr (f :: ba')) with (omap apdu_nr ba') in Hcs by (cbn; by rewrite Enr).
    destruct Hack as [Es|(f' & nr' & [= <-] & Enr' & Es)]; [|congruence].
    exists cs. by rewrite Hsame.
Qed.

(** The sending station moves. *)
Lemma half_sender i now a a' fs b ab ba ba' :
  half a b ab ba -> takes i ba ba' -> side_step i now a = (a', fs) -> half a' b (ab ++ fs) ba'.
Proof.
  intros H Ht E. destruct (half_acks _ _ _ _ H) as (cs & Hcs).
  destruct (acked_count_step _ _ _ _ _ _ _ _ _ cs H Ht E Hcs) as (cs' & Hacks & _).
  destruct H as [Ha Hb Hp Hf _ Hk].
  destruct (side_ok_step i now a a' fs Ha E) as (Ha' & acts & Hlog & -> & _ & _ & _ & Hh).
  split; try done.
  - rewrite Hlog, iframes_app, fmap_app. by apply prefix_app_r.
  - intros Hu. destruct (Hf Hu) as (rcvd & E1 & E2). exists rcvd.
    by rewrite Hlog, iframes_app, E1, omap_app, frames_iframes, app_assoc.
  - by exists cs'.
  - pose proof (handle_config i now (conn a)) as Hc. rewrite Hh in Hc. simpl in Hc. by rewrite Hc.
Qed.

(** The receiving station adds acknowledgements of all it has delivered. *)
Lemma acks_receiver i now b b' fs ba cs lo :
  side_ok b -> side_step i now b = (b', fs) -> acks ba cs lo (length (delivered (log b))) ->
  acks (ba ++ fs) (cs ++ replicate (length (omap apdu_nr fs)) (length (delivered (log b'))))
    lo (length (delivered (log b'))).
Proof.
  intros Hb E [Hcs Hch].
  destruct (side_ok_step i now b b' fs Hb E) as (Hb' & acts & Hlog & -> & _ & _ & Hcar & _).
  split.
  - rewrite omap_app. apply Forall2_app; [done|].
    apply carries_nrs in Hcar. rewrite (side_ok_recv b' Hb') in Hcar.
    induction Hcar; simpl; constructor; done.
  - eapply chain_extend; [|done]. rewrite Hlog, delivered_app, length_app. lia.
Qed.

(** The receiving station moves. *)
Lemma half_receiver i now a b b' fs ab ab' ba :
  half a b ab ba -> takes i ab ab' -> up b -> side_step i now b = (b', fs) ->
  half a b' ab' (ba ++ fs).
Proof.
  intros [Ha Hb Hp Hf (cs & Hacks) Hk] Ht Hu E.
  pose proof (acks_receiver _ _ _ _ _ _ _ _ Hb E Hacks) as Hacks'.
  destruct (side_ok_step i now b b' fs Hb E) as (Hb' & acts & Hlog & -> & Hd & _ & Hcar & Hh).
  destruct (Hf Hu) as (rcvd & E1 & E2).
  assert (Hflow : (up b' -> ∃ r, iframes (log a) = r ++ omap apdu_iframe ab' /\ r.*2 = delivered (log b')) /\
                  delivered (log b') `prefix_of` (iframes (log a)).*2).
  { rewrite Hlog, delivered_app, Hd.
    assert (Hnone : accepted i (conn b) = [] -> omap apdu_iframe ab' = omap apdu_iframe ab ->
      (up b' -> ∃ r, iframes (log a) = r ++ omap apdu_iframe ab' /\
         r.*2 = delivered (log b) ++ accepted i (conn b)) /\
      delivered (log b) ++ accepted i (conn b) `prefix_of` (iframes (log a)).*2).
    { intros -> ->. rewrite app_nil_r. split; [by eauto|done]. }
    destruct i as [[send recv asdu|recv|f]| | |d|]; simpl in Ht; subst; try (by apply Hnone).
    simpl in *. pose proof (protocol_error_closes send recv asdu now (conn b) (proj2 Hb)) as Hx.
    rewrite Hh in Hx. destruct (transfer_phase _ && _).
    - split.
      + intros _. exists (rcvd ++ [(send, asdu)]). rewrite E1, fmap_app, E2, <- app_assoc. done.
      + rewrite E1, fmap_app, E2. cbn. apply prefix_app, prefix_cons, prefix_nil.
    - destruct Hx as [Hx _]; [done|]. rewrite app_nil_r. split; [|done].
      intros Hup. unfold up in Hup. rewrite Hlog, Forall_app in Hup. destruct Hup as [_ Hup].
      rewrite Forall_forall in Hup. by specialize (Hup _ Hx). }
  destruct Hflow as [Hflow Hpre]. split; try done. by eexists.
Qed.

Definition net_inv (n : net) : Prop :=
  half (stA n) (stB n) (chAB n) (chBA n) /\ half (stB n) (stA n) (chBA n) (chAB n).

Lemma net_inv_step n n' : net_step n n' -> net_inv n -> net_inv n'.
Proof.
  intros Hs [H1 H2]. destruct Hs as [n i now s fs Hl Hu E|n i now s fs Hl Hu E|n f rest now s fs Hc Hu E|n f rest now s fs Hc Hu E].
  - split; [eapply half_sender|eapply half_receiver]; try done; by destruct i.
  - split; [eapply half_receiver|eapply half_sender]; try done; by destruct i.
  - split; [eapply (half_sender (InApdu f))|eapply (half_receiver (InApdu f))]; done.
  - split; [eapply (half_receiver (InApdu f))|eapply (half_sender (InApdu f))]; done.
Qed.

Lemma half_init r r' cfg cfg' : 0 <= cfg_w cfg -> 0 <= cfg_w cfg' -> cfg_k cfg <= 16383 ->
  half (mkSide (Connection_new r cfg) [] []) (mkSide (Connection_new r' cfg') [] []) [] [].
Proof.
  intros Hw Hw' Hk. split; simpl; try done.
  - by split; [apply good_new|].
  - by split; [apply good_new|].
  - intros _. by exists [].
  - exists []. split; [constructor|]. unfold acked_count. simpl. lia.
Qed.

Lemma net_reachable_inv cfgA cfgB n :
  0 <= cfg_w cfgA -> 0 <= cfg_w cfgB -> cfg_k cfgA <= 16383 -> cfg_k cfgB <= 16383 ->
  net_reachable cfgA cfgB n -> net_inv n.
Proof.
  intros HwA HwB HkA HkB Hr. unfold net_reachable in Hr.
  assert (H : net_inv (net_init cfgA cfgB)) by (split; by apply half_init).
  revert H. induction Hr as [|n1 n2 n3 Hs _ IH]; [done|]. intros H. apply IH. by eapply net_inv_step.
Qed.

(** Delivery is a prefix of submission. *)
Lemma half_delivers a b ab ba : half a b ab ba -> delivered (log b) `prefix_of` sub a.
Proof.
  intros [[(Hi & _) Hac] _ Hpre _ _ _].
  pose proof (inv_fifo _ _ _ _ _ Hi) as Hf. rewrite Hac, app_nil_r in Hf.
  etrans; [exact Hpre|]. rewrite <- Hf. by apply prefix_app_r.
Qed.

Lemma net_prefix cfgA cfgB n :
  0 <= cfg_w cfgA -> 0 <= cfg_w cfgB -> cfg_k cfgA <= 16383 -> cfg_k cfgB <= 16383 ->
  net_reachable cfgA cfgB n ->
  delivered (log (stB n)) `prefix_of` sub (stA n) /\ delivered (log (stA n)) `prefix_of` sub (stB n).
Proof.
  intros H1 H2 H3 H4 Hr. destruct (net_reachable_inv _ _ n H1 H2 H3 H4 Hr) as [Ha Hb].
  split; by eapply half_delivers.
Qed.

(** ** One direction as a pipe *)

Definition half_pipe (a b : side) : pipe bytes :=
  pipe_of (sub a) (iframes (log a)).*2 (delivered (log b)) (acked_count a).

(** A call only adds to what has been submitted, sent, delivered and
    acknowledged. *)
Lemma side_step_grows i now s s' fs : side_ok s -> side_step i now s = (s', fs) ->
  sub s `prefix_of` sub s' /\ (iframes (log s)).*2 `prefix_of` (iframes (log s')).*2 /\
  delivered (log s) `prefix_of` delivered (log s') /\ (acked_count s <= acked_count s')%nat /\
  config (conn s') = config (conn s).
Proof.
  intros Hs E. destruct (side_ok_step i now s s' fs Hs E) as (Hs' & acts & Hlog & _ & _ & Hsub & _ & Hh).
  pose proof (side_ok_window s Hs) as (_ & Hn & _). pose proof (side_ok_window s' Hs') as (_ & Hn' & _).
  pose proof (handle_window i now (conn s) (proj2 Hs)) as Hw. pose proof (handle_config i now (conn s)) as Hc.
  rewrite Hh in Hw, Hc. destruct Hw as (c1 & Hack & Hlen & _).
  assert (length (sent c1) <= length (sent (conn s)))%nat.
  { destruct Hack as [-> |(a & nr & _ & _ & ->)]; [done|]. destruct (drop_acked_suffix nr (sent (conn s))) as [j ->]. rewrite length_drop. lia. }
  rewrite Hlog, iframes_app, length_app in Hn'. rewrite Hlog, Hsub, iframes_app, fmap_app, delivered_app.
  split_and!; [by apply prefix_app_r..|lia|done].
Qed.

Lemma half_bounds a b ab ba : half a b ab ba ->
  delivered (log b) `prefix_of` (iframes (log a)).*2 /\ (iframes (log a)).*2 `prefix_of` sub a /\
  (acked_count a <= length (delivered (log b)))%nat /\
  Z.of_nat (length (iframes (log a)).*2 - acked_count a) <= Z.max 0 (cfg_k (config (conn a))).
Proof.
  intros [Ha Hb Hpre _ (cs & _ & Hch) _]. pose proof (side_ok_window a Ha) as (_ & Hn & Hk).
  destruct Ha as [(Hi & _) Hac]. pose proof (inv_fifo _ _ _ _ _ Hi) as Hf. rewrite Hac, app_nil_r in Hf.
  split_and!; [done|rewrite <- Hf; by apply prefix_app_r|by apply chain_le in Hch|].
  rewrite length_fmap. replace (length (iframes (log a)) - acked_count a)%nat with (length (sent (conn a))) by lia. done.
Qed.

(** The sender moves, and the receiver moves. *)
Lemma half_pipe_sender i now a a' fs b ab ba ab' ba' : half a b ab ba -> half a' b ab' ba' ->
  side_step i now a = (a', fs) -> rtc (pipe_step (cfg_k (config (conn a)))) (half_pipe a b) (half_pipe a' b).
Proof.
  intros H H' E. destruct (side_step_grows _ _ _ _ _ (half_a _ _ _ _ H) E) as (G1 & G2 & _ & G4 & G5).
  destruct (half_bounds _ _ _ _ H) as (B1 & B2 & B3 & _). destruct (half_bounds _ _ _ _ H') as (B1' & B2' & B3' & B4').
  rewrite G5 in B4'. by apply pipe_grows.
Qed.

Lemma half_pipe_receiver i now a b b' fs ab ba ab' ba' : half a b ab ba -> half a b' ab' ba' ->
  side_step i now b = (b', fs) -> rtc (pipe_step (cfg_k (config (conn a)))) (half_pipe a b) (half_pipe a b').
Proof.
  intros H H' E. destruct (side_step_grows _ _ _ _ _ (half_b _ _ _ _ H) E) as (_ & _ & G3 & _ & _).
  destruct (half_bounds _ _ _ _ H) as (B1 & B2 & B3 & _). destruct (half_bounds _ _ _ _ H') as (B1' & _ & B3' & B4').
  by apply pipe_grows.
Qed.

Definition configured (cfgA cfgB : Config) (n : net) : Prop :=
  config (conn (stA n)) = cfgA /\ config (conn (stB n)) = cfgB.

Lemma net_step_config cfgA cfgB n n' : net_step n n' -> net_inv n -> configured cfgA cfgB n -> configured cfgA cfgB n'.
Proof.
  intros Hs [H1 H2] [Ca Cb].
  destruct Hs as [n i now s fs _ _ E|n i now s fs _ _ E|n f rest now s fs _ _ E|n f rest now s fs _ _ E];
    apply side_step_grows in E as (_ & _ & _ & _ & Ec); try apply (half_a _ _ _ _ H1); try apply (half_a _ _ _ _ H2);
    split; cbn; congruence.
Qed.

Lemma net_step_pipes cfgA cfgB n n' : net_step n n' -> net_inv n -> configured cfgA cfgB n ->
  rtc (pipe_step (cfg_k cfgA)) (half_pipe (stA n) (stB n)) (half_pipe (stA n') (stB n')) /\
  rtc (pipe_step (cfg_k cfgB)) (half_pipe (stB n) (stA n)) (half_pipe (stB n') (stA n')).
Proof.
  intros Hs Hi [<- <-]. pose proof (net_inv_step _ _ Hs Hi) as Hi'. destruct Hi as [H1 H2], Hi' as [H1' H2'].
  destruct Hs as [n i now s fs _ _ E|n i now s fs _ _ E|n f rest now s fs _ _ E|n f rest now s fs _ _ E].
  1, 3: split; [exact (half_pipe_sender _ _ _ _ _ _ _ _ _ _ H1 H1' E)|exact (half_pipe_receiver _ _ _ _ _ _ _ _ _ _ H2 H2' E)].
  all: split; [exact (half_pipe_receiver _ _ _ _ _ _ _ _ _ _ H1 H1' E)|exact (half_pipe_sender _ _ _ _ _ _ _ _ _ _ H2 H2' E)].
Qed.

(** The I-frame at the head of a channel carries the expected number. *)
Lemma half_in_sequence a b ab ba send recv asdu rest : half a b ab ba -> up b ->
  ab = ApduI send recv asdu :: rest -> send = recv_next (conn b).
Proof.
  intros H Hu Hc.
  destruct (half_flow _ _ _ _ H Hu) as (rcvd & E1 & E2).
  rewrite (side_ok_recv _ (half_b _ _ _ _ H)).
  destruct (half_a _ _ _ _ H) as [(Hi & _) Hac].
  pose proof (inv_ns _ _ _ _ _ Hi) as Hns. rewrite Hac, app_nil_r, E1, Hc in Hns. cbn in Hns.
  rewrite fmap_app, length_app in Hns. cbn in Hns.
  apply (f_equal (fun l => l !! length rcvd)) in Hns.
  rewrite lookup_app_r in Hns by (rewrite length_fmap; lia).
  rewrite length_fmap, Nat.sub_diag in Hns. cbn in Hns.
  unfold seq_run in Hns. rewrite list_lookup_fmap, lookup_seq_lt in Hns by lia. cbn in Hns.
  injection Hns as ->. f_equal. rewrite <- E2, length_fmap. done.
Qed.

(** ** The properties of the link *)

Section Link.
Context (cfgA cfgB : Config).
Hypothesis HwA : 0 <= cfg_w cfgA.
Hypothesis HwB : 0 <= cfg_w cfgB.
Hypothesis HkA : cfg_k cfgA <= 16383.
Hypothesis HkB : cfg_k cfgB <= 16383.

(** C2. End-to-end delivery: in every reachable configuration of two stations
    joined by reliable channels, what each application has received is a
    prefix of what the other one submitted; nothing is lost, duplicated,
    reordered or altered, in either direction, also around disconnects. *)
Theorem link_delivers_prefix n : net_reachable cfgA cfgB n ->
  delivered (log (stB n)) `prefix_of` sub (stA n) /\
  delivered (log (stA n)) `prefix_of` sub (stB n).
Proof. by apply net_prefix. Qed.

(** Between two stations that follow the code, the sequence check never
    fires: an I-frame at the head of a channel always carries the number the
    live receiver expects, so a connection is never closed for losing
    synchronisation. *)
Theorem link_in_sequence n send recv asdu rest : net_reachable cfgA cfgB n ->
  up (stB n) -> chAB n = ApduI send recv asdu :: rest -> send = recv_next (conn (stB n)).
Proof.
  intros Hr Hu Hc. destruct (net_reachable_inv _ _ n HwA HwB HkA HkB Hr) as [H1 _].
  by eapply half_in_sequence.
Qed.

(** Acknowledgement is safe: an I-frame leaves the sender's window only
    after the receiver has delivered it, so at every moment the undelivered
    I-frames are all still held in the window. *)
Theorem link_ack_safe n : net_reachable cfgA cfgB n ->
  (length (iframes (log (stA n))) <= length (delivered (log (stB n))) + length (sent (conn (stA n))))%nat /\
  (length (iframes (log (stB n))) <= length (delivered (log (stA n))) + length (sent (conn (stB n))))%nat.
Proof.
  intros Hr. destruct (net_reachable_inv _ _ n HwA HwB HkA HkB Hr) as [H1 H2].
  assert (Ha : ∀ a b ab ba, half a b ab ba ->
    (length (iframes (log a)) <= length (delivered (log b)) + length (sent (conn a)))%nat).
  { intros a b ab ba [_ _ _ _ (cs & _ & Hch) _]. apply chain_le in Hch. unfold acked_count in Hch. lia. }
  split; eapply Ha; done.
Qed.

(** The two directions as pipes: what was submitted, what of it left in
    I-frames, what was delivered, and what has left the sender's window. *)
Definition pipeAB (n : net) : pipe bytes := half_pipe (stA n) (stB n).
Definition pipeBA (n : net) : pipe bytes := half_pipe (stB n) (stA n).

(** C3. Flow control is refined as well as delivery: two connections implement
    a pair of first-in first-out pipes with credit. The start is the empty
    pipes, and every step of a reachable configuration (a request, a clock
    tick or an arrival at either station) is a run of four moves: the
    application submits, a message is sent while fewer than [k] are
    unacknowledged, the message at the front is delivered, and credit is
    given back, for messages that have been delivered and no others. *)
Theorem link_refines_pipe n n' :
  pipeAB (net_init cfgA cfgB) = pipe_init /\ pipeBA (net_init cfgA cfgB) = pipe_init /\
  (net_reachable cfgA cfgB n -> net_step n n' ->
   rtc (pipe_step (cfg_k cfgA)) (pipeAB n) (pipeAB n') /\ rtc (pipe_step (cfg_k cfgB)) (pipeBA n) (pipeBA n')).
Proof.
  split; [done|]. split; [done|]. intros Hr Hs.
  apply net_step_pipes; [done|exact (net_reachable_inv cfgA cfgB n HwA HwB HkA HkB Hr)|].
  clear n' Hs. unfold net_reachable in Hr. revert Hr. apply rtc_ind_r; [done|]. intros n1 n2 H1 Hs IH.
  apply (net_step_config _ _ n1); [done| |done].
  exact (net_reachable_inv cfgA cfgB n1 HwA HwB HkA HkB H1).
Qed.

End Link.

(** ** Running the pair *)

Inductive move := MoveA (i : Input) | MoveB (i : Input) | RecvA | RecvB.

Definition is_up (s : side) : bool :=
  forallb (fun a => match a with Disconnect _ => false | _ => true end) (log s).
Definition is_local (i : Input) : bool := match i with InApdu _ => false | _ => true end.

(** One move at time [now]; a move that is not enabled changes nothing. *)
Definition do_move (now : Instant) (m : move) (n : net) : net :=
  match m with
  | MoveA i => if is_up (stA n) && is_local i
               then let '(s, fs) := side_step i now (stA n) in mkNet s (stB n) (chAB n ++ fs) (chBA n) else n
  | MoveB i => if is_up (stB n) && is_local i
               then let '(s, fs) := side_step i now (stB n) in mkNet (stA n) s (chAB n) (chBA n ++ fs) else n
  | RecvA => match chBA n with
             | f :: rest => if is_up (stA n) then
                 let '(s, fs) := side_step (InApdu f) now (stA n) in mkNet s (stB n) (chAB n ++ fs) rest else n
             | [] => n end
  | RecvB => match chAB n with
             | f :: rest => if is_up (stB n) then
                 let '(s, fs) := side_step (InApdu f) now (stB n) in mkNet (stA n) s rest (chBA n ++ fs) else n
             | [] => n end
  end.

Definition do_moves (now : Instant) (ms : list move) (n : net) : net :=
  fold_left (fun n m => do_move now m n) ms n.

Lemma is_up_up s : is_up s = true -> up s.
Proof.
  unfold is_up, up. rewrite forallb_forall, Forall_forall. intros H a Ha.
  apply list_elem_of_In in Ha. specialize (H a Ha). by destruct a.
Qed.

Lemma do_move_step now m n : rtc net_step n (do_move now m n).
Proof.
  destruct m as [i|i| |]; simpl.
  - destruct (is_up (stA n)) eqn:Hu; [|done]. destruct (is_local i) eqn:Hl; [|done]. simpl.
    destruct (side_step i now (stA n)) eqn:E. apply rtc_once.
    apply (net_local_A n i now); [by destruct i|by apply is_up_up|done].
  - destruct (is_up (stB n)) eqn:Hu; [|done]. destruct (is_local i) eqn:Hl; [|done]. simpl.
    destruct (side_step i now (stB n)) eqn:E. apply rtc_once.
    apply (net_local_B n i now); [by destruct i|by apply is_up_up|done].
  - destruct (chBA n) eqn:Hc; [done|]. destruct (is_up (stA n)) eqn:Hu; [|done].
    destruct (side_step (InApdu a) now (stA n)) eqn:E. apply rtc_once.
    eapply net_recv_A; [done|by apply is_up_up|done].
  - destruct (chAB n) eqn:Hc; [done|]. destruct (is_up (stB n)) eqn:Hu; [|done].
    destruct (side_step (InApdu a) now (stB n)) eqn:E. apply rtc_once.
    eapply net_recv_B; [done|by apply is_up_up|done].
Qed.

Lemma do_recv_B_step now f rest n : chAB n = f :: rest -> is_up (stB n) = true ->
  net_step n (do_move now RecvB n).
Proof.
  intros Hc Hu. simpl. rewrite Hc, Hu. destruct (side_step (InApdu f) now (stB n)) eqn:E.
  eapply net_recv_B; [done|by apply is_up_up|done].
Qed.

Lemma do_moves_steps now ms n : rtc net_step n (do_moves now ms n).
Proof.
  unfold do_moves. revert n. induction ms as [|m ms IH]; intros n; simpl; [done|].
  etrans; [apply do_move_step|apply IH].
Qed.

(** STARTDT handshake, two ASDUs submitted, one received. *)
Definition sample_net : net :=
  do_moves 1 [MoveA InStartDt; RecvB; RecvA; MoveA (InSendAsdu [1]); MoveA (InSendAsdu [2]); RecvB]
    (net_init Config_default Config_default).

Lemma link_delivers_prefix_witness :
  delivered (log (stB sample_net)) `prefix_of` sub (stA sample_net) /\
  delivered (log (stA sample_net)) `prefix_of` sub (stB sample_net).
Proof.
  apply (link_delivers_prefix Config_default Config_default); [simpl; lia..|].
  apply do_moves_steps.
Defined.

Lemma link_in_sequence_witness : 1 = recv_next (conn (stB sample_net)).
Proof.
  apply (link_in_sequence Config_default Config_default ltac:(simpl; lia) ltac:(simpl; lia)
    ltac:(simpl; lia) ltac:(simpl; lia) sample_net 1 0 [2] []).
  - apply do_moves_steps.
  - apply is_up_up. vm_compute. reflexivity.
  - vm_compute. reflexivity.
Defined.

Lemma link_ack_safe_witness :
  (length (iframes (log (stA sample_net))) <=
     length (delivered (log (stB sample_net))) + length (sent (conn (stA sample_net))))%nat /\
  (length (iframes (log (stB sample_net))) <=
     length (delivered (log (stA sample_net))) + length (sent (conn (stB sample_net))))%nat.
Proof.
  apply (link_ack_safe Config_default Config_default); [simpl; lia..|].
  apply do_moves_steps.
Defined.

(** The second ASDU is still in flight, the first has arrived. *)
Lemma sample_net_delivered : delivered (log (stB sample_net)) = [[1]] /\ sub (stA sample_net) = [[1]; [2]].
Proof. vm_compute. done. Qed.

Lemma link_refines_pipe_witness :
  (pipeAB (net_init Config_default Config_default) = pipe_init /\
   pipeBA (net_init Config_default Config_default) = pipe_init) /\
  rtc (pipe_step (cfg_k Config_default)) (pipeAB sample_net) (pipeAB (do_move 1 RecvB sample_net)) /\
  rtc (pipe_step (cfg_k Config_default)) (pipeBA sample_net) (pipeBA (do_move 1 RecvB sample_net)).
Proof.
  destruct (link_refines_pipe Config_default Config_default ltac:(simpl; lia) ltac:(simpl; lia)
    ltac:(simpl; lia) ltac:(simpl; lia) sample_net (do_move 1 RecvB sample_net)) as (H1 & H2 & H3).
  split; [by split|]. apply H3; [apply do_moves_steps|].
  apply (do_recv_B_step 1 (ApduI 1 0 [2]) []); vm_compute; reflexivity.
Defined.
