(* ===== verification/Live104.v ===== *)
(** * What two linked stations owe each other

    [Net104.v] shows that the link of two [Connection]s of
    [frame104/state.rs] delivers nothing wrong. This file adds the invariants
    [Drain104.v] needs to show that it delivers everything: where the two
    stations are in the STARTDT and STOPDT handshakes (so no start or stop
    frame is on the wire while both are active), and that the
    acknowledgements sent, together with those counted in [unacked_recv],
    cover everything delivered. *)

From S2P Require Import Prelude Pipe Frame104 Conn104 Net104.

(** ** What is owed

    The N(R)s an action list carries. *)
Definition nrs (acts : list Action) : list SeqNo := omap apdu_nr (frames acts).

Lemma action_frames_app a b : frames (a ++ b) = frames a ++ frames b.
Proof. apply omap_app. Qed.
Lemma nrs_app a b : nrs (a ++ b) = nrs a ++ nrs b.
Proof. unfold nrs. by rewrite action_frames_app, omap_app. Qed.

(** From [c] to [c'] either an acknowledgement is sent or [d] more are owed. *)
Definition owes (d : Z) (c c' : Connection) : Prop :=
  ∃ new, actions c' = actions c ++ new /\ (nrs new ≠ [] \/ unacked_recv c' = unacked_recv c + d).

Lemma owes_refl c : owes 0 c c.
Proof. exists []. rewrite app_nil_r. split; [done|]. right. lia. Qed.
Lemma owes_trans d1 d2 c1 c2 c3 : owes d1 c1 c2 -> owes d2 c2 c3 -> owes (d1 + d2) c1 c3.
Proof.
  intros (n1 & E1 & H1) (n2 & E2 & H2). exists (n1 ++ n2). rewrite E2, E1, app_assoc. split; [done|].
  rewrite nrs_app. destruct H1 as [H1|H1]; [left; by destruct (nrs n1)|].
  destruct H2 as [H2|H2]; [left; by destruct (nrs n1), (nrs n2)|]. right. lia.
Qed.
Lemma owes_trans0 d c1 c2 c3 : owes d c1 c2 -> owes 0 c2 c3 -> owes d c1 c3.
Proof. intros H1 H2. rewrite <- (Z.add_0_r d). by eapply owes_trans. Qed.
Lemma owes_same d c c' : actions c' = actions c -> unacked_recv c' = unacked_recv c + d -> owes d c c'.
Proof. intros E1 E2. exists []. rewrite app_nil_r. auto. Qed.

(** A field update that touches neither. *)
Ltac owes_same :=
  apply owes_same; match goal with c : Connection |- _ => destruct c end; simpl; first [done|lia].

Lemma owes_push a c : owes 0 c (push_action a c).
Proof. exists [a]. destruct c; simpl. split; [done|]. right. lia. Qed.
Lemma owes_transition to c : owes 0 c (transition to c).
Proof.
  unfold transition. destruct (negb _); [|apply owes_refl].
  apply (owes_trans0 _ _ (set_state to c)); [|apply owes_push]. owes_same.
Qed.
Lemma owes_send asdu now p c : owes 0 c (send_iframe asdu now (set_pending p c)).
Proof. destruct c; eexists; simpl. split; [done|]. by left. Qed.
Lemma owes_flush_from p now c : owes 0 c (flush_from p now c).
Proof.
  revert c. induction p as [|a p IH]; intros c; simpl; [apply owes_refl|].
  destruct (_ <? _); [|apply owes_refl]. eapply owes_trans0; [apply owes_send|apply IH].
Qed.
Lemma owes_supervisory now c : owes 0 c (emit_supervisory now c).
Proof. destruct c; eexists; simpl. split; [done|]. by left. Qed.
Lemma owes_emit_u f now c : owes 0 c (set_last_send_any (Some now) (emit_apdu (ApduU f) c)).
Proof.
  apply (owes_trans0 _ _ (emit_apdu (ApduU f) c)); [apply owes_push|].
  owes_same.
Qed.
Lemma owes_closing r c : owes 0 c (transition Closed (push_action (Disconnect r) c)).
Proof. eapply owes_trans0; [apply owes_push|apply owes_transition]. Qed.
Lemma owes_stopping c : owes 0 c (push_action (Disconnect StoppedCleanly) (transition Stopped c)).
Proof. eapply owes_trans0; [apply owes_transition|apply owes_push]. Qed.

Create HintDb owes.
#[export] Hint Resolve owes_refl owes_push owes_transition owes_flush_from owes_supervisory
  owes_emit_u owes_closing owes_stopping : owes.
(** Two steps, the second with a hint. *)
Ltac owes_two := first [by auto with owes | eapply owes_trans0; [|by auto with owes]].

Lemma owes_acknowledge nr now c : owes 0 c (acknowledge nr now c).
Proof.
  unfold acknowledge. eapply owes_trans0; [|apply owes_flush_from].
  owes_same.
Qed.

Lemma owes_u_frame f now c : owes 0 c (on_u_frame f now c).
Proof.
  assert (Ht : owes 0 c (set_test_sent None c)) by (owes_same).
  unfold on_u_frame, flush_pending.
  destruct f; destruct (role c); destruct (state c); try destruct (sent c); repeat owes_two.
Qed.

Lemma owes_timers now c : owes 0 c (run_timers now c).
Proof.
  unfold run_timers. destruct (elapsed _ _ _); [apply owes_closing|].
  destruct (elapsed _ _ _); [apply owes_closing|].
  apply (owes_trans0 _ _ (timer_t2 now c)); [unfold timer_t2; destruct (_ && _); auto with owes|].
  generalize (timer_t2 now c). clear c. intros c.
  apply (owes_trans0 _ _ (timer_t3 now c)).
  { unfold timer_t3. destruct (_ && _); [|auto with owes].
    eapply owes_trans0; [apply (owes_emit_u TestFrAct now)|]. owes_same. }
  unfold timer_drained. destruct (_ && _); auto with owes.
Qed.

(** An accepted frame is owed an acknowledgement. *)
Lemma owes_on_input i now c : unacked_recv c < 65535 ->
  owes (Z.of_nat (length (accepted i c))) c (on_input i now c).
Proof.
  intros Hu. destruct i as [a| | |asdu|]; simpl.
  - assert (H0 : owes 0 c (set_last_recv_any (Some now) c)) by (owes_same).
    unfold on_apdu. destruct a as [send recv asdu|recv|f]; simpl.
    2: destruct (transfer_phase _); [|done]; eapply owes_trans0; [done|apply owes_acknowledge].
    2: eapply owes_trans0; [done|apply owes_u_frame].
    unfold on_i_frame. replace (state (set_last_recv_any (Some now) c)) with (state c) by (by destruct c).
    replace (recv_next (set_last_recv_any (Some now) c)) with (recv_next c) by (by destruct c).
    destruct (transfer_phase (state c)); [|eapply owes_trans0; [done|apply owes_closing]].
    destruct (send =? recv_next c); [|eapply owes_trans0; [done|apply owes_closing]]. simpl.
    match goal with |- context [acknowledge recv now ?x] => assert (H1 : owes 1 c x);
      [apply owes_same; [by destruct c|destruct c; simpl in *; unfold u16_saturating_add; lia]|generalize dependent x] end.
    intros x H1. assert (H2 : owes 1 c (push_action (DeliverAsdu asdu) (acknowledge recv now x))).
    { eapply owes_trans0; [|apply owes_push]. eapply owes_trans0; [done|apply owes_acknowledge]. }
    destruct (_ <=? _); [|done]. eapply owes_trans0; [done|apply owes_supervisory].
  - unfold on_user_startdt. destruct (role c), (state c); repeat owes_two.
  - unfold on_user_stopdt. destruct (state c), (role c); repeat owes_two.
  - assert (Hq : owes 0 c (set_pending (pending c ++ [asdu]) c)) by (owes_same).
    unfold on_user_send. destruct (negb _); [done|]. destruct (_ <=? _); [done|].
    pose proof (owes_send asdu now (pending c) c) as H. by destruct c.
  - apply owes_refl.
Qed.

(** A call either acknowledges or owes one more for each frame accepted. *)
Lemma handle_owes i now c : actions c = [] -> unacked_recv c < 65535 ->
  let '(c', acts) := handle i now c in
  nrs acts ≠ [] \/ unacked_recv c' = unacked_recv c + Z.of_nat (length (accepted i c)).
Proof.
  intros Hac Hu. unfold handle.
  destruct (owes_trans0 _ _ _ _ (owes_on_input i now c Hu) (owes_timers now _)) as (new & E & H).
  rewrite Hac in E. simpl in E. destruct (run_timers now (on_input i now c)); simpl in *. by subst.
Qed.

(** ** The handshakes *)

(** The start and stop functions among the frames of a channel. *)
Definition ctrl_of (f : Apdu) : option UFunction :=
  match f with
  | ApduU TestFrAct | ApduU TestFrCon => None
  | ApduU g => Some g
  | _ => None
  end.
Definition ctrls (ch : list Apdu) : list UFunction := omap ctrl_of ch.

Lemma ctrls_app a b : ctrls (a ++ b) = ctrls a ++ ctrls b.
Proof. apply omap_app. Qed.

(** The state and the control functions emitted, unless the call disconnects. *)
Definition next_phase (r : Role) (i : Input) (s : State) : State * list UFunction :=
  match i, r, s with
  | InStartDt, Client, Stopped => (Starting, [StartDtAct])
  | InStopDt, Client, Active => (Stopping, [StopDtAct])
  | InStopDt, Server, Active => (Stopped, [])
  | InApdu (ApduU StartDtCon), Client, Starting => (Active, [])
  | InApdu (ApduU StartDtAct), Server, Stopped => (Active, [StartDtCon])
  | InApdu (ApduU StopDtAct), Server, _ => (Stopped, [StopDtCon])
  | _, _, _ => (s, [])
  end.

(** From [c] to [c'] the connection disconnects, or it stays in its state and
    sends no start or stop frame, nor an I-frame outside the transfer phases. *)
Definition still (c c' : Connection) : Prop :=
  ∃ new, actions c' = actions c ++ new /\
    (Forall no_disconnect new -> state c' = state c /\ ctrls (frames new) = [] /\
     (transfer_phase (state c) = false -> iframes new = [])).

Lemma still_refl c : still c c.
Proof. exists []. by rewrite app_nil_r. Qed.
Lemma still_trans c1 c2 c3 : still c1 c2 -> still c2 c3 -> still c1 c3.
Proof.
  intros (n1 & E1 & H1) (n2 & E2 & H2). exists (n1 ++ n2). rewrite E2, E1, app_assoc. split; [done|].
  rewrite Forall_app, action_frames_app, ctrls_app, iframes_app. intros [Ha Hb].
  destruct (H1 Ha) as (S1 & C1 & I1), (H2 Hb) as (S2 & C2 & I2). rewrite C1, C2, S2, S1.
  split_and!; [done..|]. intros Ht. rewrite I1, I2 by congruence. done.
Qed.
Lemma still_same c c' : actions c' = actions c -> state c' = state c -> still c c'.
Proof. intros E1 E2. exists []. by rewrite app_nil_r. Qed.
Lemma still_supervisory now c : still c (emit_supervisory now c).
Proof. destruct c. eexists. split; [done|]. done. Qed.
Lemma still_deliver asdu c : still c (push_action (DeliverAsdu asdu) c).
Proof. destruct c. eexists. split; [done|]. done. Qed.
Lemma still_emit_u f now c : ctrl_of (ApduU f) = None ->
  still c (set_last_send_any (Some now) (emit_apdu (ApduU f) c)).
Proof.
  intros Hf. destruct c. eexists. split; [done|]. intros _. split_and!; [done| |done].
  by destruct f.
Qed.
Lemma still_flush_from p now c : transfer_phase (state c) = true -> still c (flush_from p now c).
Proof.
  revert c. induction p as [|a p IH]; intros c Ht; simpl; [apply still_refl|].
  destruct (_ <? _); [|apply still_refl]. eapply still_trans; [|apply IH; by destruct c].
  destruct c. eexists. split; [done|]. intros _. simpl in *. split_and!; [done..|]. by rewrite Ht.
Qed.
Lemma still_acknowledge nr now c : transfer_phase (state c) = true -> still c (acknowledge nr now c).
Proof.
  intros Ht. unfold acknowledge, flush_pending. eapply still_trans; [|apply still_flush_from; by destruct c].
  by apply still_same; destruct c.
Qed.
(** A disconnection is always "still". *)
Lemma still_disconnect c c' new r : actions c' = actions c ++ new -> Disconnect r ∈ new -> still c c'.
Proof.
  intros E Hin. exists new. split; [done|]. rewrite Forall_forall. intros H. destruct (H _ Hin).
Qed.
Lemma still_closing r c : still c (transition Closed (push_action (Disconnect r) c)).
Proof.
  destruct (owes_transition Closed (push_action (Disconnect r) c)) as (new & E & _).
  eapply (still_disconnect _ _ (Disconnect r :: new) r); [|by left].
  rewrite E. destruct c; simpl. by rewrite <- app_assoc.
Qed.
Lemma still_stopping c : still c (push_action (Disconnect StoppedCleanly) (transition Stopped c)).
Proof.
  destruct (owes_transition Stopped c) as (new & E & _).
  eapply (still_disconnect _ _ (new ++ [_]) StoppedCleanly);
    [|apply elem_of_app; right; by left].
  rewrite app_assoc, <- E. by destruct (transition Stopped c).
Qed.
Create HintDb still.
#[export] Hint Resolve still_refl still_supervisory still_deliver still_closing still_stopping : still.

Lemma still_timers now c : still c (run_timers now c).
Proof.
  unfold run_timers. destruct (elapsed _ _ _); [apply still_closing|].
  destruct (elapsed _ _ _); [apply still_closing|].
  apply (still_trans _ (timer_t2 now c)); [unfold timer_t2; destruct (_ && _); auto with still|].
  generalize (timer_t2 now c). clear c. intros c.
  apply (still_trans _ (timer_t3 now c)).
  { unfold timer_t3. destruct (_ && _); [|auto with still].
    eapply still_trans; [by apply (still_emit_u TestFrAct now)|]. by apply still_same; destruct c. }
  unfold timer_drained. destruct (_ && _); auto with still.
Qed.

Lemma still_i_frame send recv asdu now c : still c (on_i_frame send recv asdu now c).
Proof.
  unfold on_i_frame. destruct (transfer_phase (state c)) eqn:Ht; [|apply still_closing].
  destruct (negb (send =? _)); [apply still_closing|]. cbn [negb].
  match goal with |- context [acknowledge recv now ?x] =>
    assert (H1 : still c x) by (by apply still_same; destruct c);
    assert (H2 : transfer_phase (state x) = true) by (by destruct c); generalize dependent x end.
  intros x H1 H2. eapply still_trans; [exact H1|]. eapply still_trans; [by apply still_acknowledge|].
  eapply still_trans; [apply still_deliver|]. cbv zeta. destruct (_ <=? _); auto with still.
Qed.

(** What a call that does not disconnect does to the state, and the start and
    stop frames it sends. *)
Definition moves_to (p : State * list UFunction) (c c' : Connection) : Prop :=
  ∃ new, actions c' = actions c ++ new /\
    (Forall no_disconnect new -> state c' = p.1 /\ ctrls (frames new) = p.2 /\
     (transfer_phase (state c) = false -> transfer_phase p.1 = false -> iframes new = [])).

Lemma still_moves c c' : still c c' -> moves_to (state c, []) c c'.
Proof.
  intros (new & E & H). exists new. split; [done|]. intros Hn. destruct (H Hn) as (? & ? & ?).
  split_and!; auto.
Qed.
Lemma moves_still p c1 c2 c3 : moves_to p c1 c2 -> still c2 c3 -> moves_to p c1 c3.
Proof.
  intros (n1 & E1 & H1) (n2 & E2 & H2). exists (n1 ++ n2). rewrite E2, E1, app_assoc. split; [done|].
  rewrite Forall_app, action_frames_app, ctrls_app, iframes_app. intros [Ha Hb].
  destruct (H1 Ha) as (S1 & C1 & I1), (H2 Hb) as (S2 & C2 & I2).
  rewrite C1, C2, app_nil_r. split_and!; [congruence|done|].
  intros Ht Hs. rewrite I1, I2 by congruence. done.
Qed.
(** A start or stop frame, then a change of state. *)
Lemma moves_emit f to now c : ctrl_of (ApduU f) = Some f -> to ≠ state c ->
  moves_to (to, [f]) c (transition to (set_last_send_any (Some now) (emit_apdu (ApduU f) c))).
Proof.
  intros Hf Hto. exists [SendApdu (ApduU f); StateChanged to].
  unfold transition. destruct c; simpl in *. rewrite bool_decide_eq_false_2 by done. simpl.
  rewrite <- app_assoc. split; [done|]. intros _. split_and!; [done| |done]. by destruct f.
Qed.
Lemma moves_transition to c : to ≠ state c -> moves_to (to, []) c (transition to c).
Proof.
  intros Hto. exists [StateChanged to]. unfold transition. destruct c; simpl in *.
  by rewrite bool_decide_eq_false_2 by done.
Qed.
Lemma flush_still_active now c : still (transition Active c) (flush_pending now (transition Active c)).
Proof. apply still_flush_from. by rewrite state_transition. Qed.

Lemma moves_u_frame f now c :
  moves_to (next_phase (role c) (InApdu (ApduU f)) (state c)) c (on_u_frame f now c).
Proof.
  assert (Hc : moves_to (state c, []) c (transition Closed (push_action (Disconnect ProtocolError) c)))
    by apply still_moves, still_closing.
  assert (Hr : moves_to (state c, []) c c) by apply still_moves, still_refl.
  unfold next_phase, on_u_frame. destruct f.
  - destruct (role c), (state c) eqn:Es; try done.
    eapply moves_still; [|apply flush_still_active]. apply moves_emit; [done|by rewrite Es].
  - destruct (role c), (state c) eqn:Es; try done.
    eapply moves_still; [|apply flush_still_active]. apply moves_transition. by rewrite Es.
  - destruct (role c); [by destruct (state c)|].
    destruct (decide (state c = Stopped)) as [Es|Es].
    + assert (H : moves_to (Stopped, [StopDtCon]) c
        (transition Stopped (set_last_send_any (Some now) (emit_apdu (ApduU StopDtCon) c)))).
      { exists [SendApdu (ApduU StopDtCon)]. unfold transition. destruct c; simpl in *. subst.
        by rewrite bool_decide_eq_true_2. }
      by destruct (state c).
    + assert (H := moves_emit StopDtCon Stopped now c eq_refl (not_eq_sym Es)). by destruct (state c).
  - destruct (role c), (state c) eqn:Es; try done. destruct (sent c); [|done].
    rewrite <- Es. apply still_moves, still_stopping.
  - assert (H : moves_to (state c, []) c (set_last_send_any (Some now) (emit_apdu (ApduU TestFrCon) c)))
      by (by apply still_moves, still_emit_u). by destruct (role c), (state c).
  - assert (H : moves_to (state c, []) c (set_test_sent None c))
      by (by apply still_moves, still_same; destruct c). by destruct (role c), (state c).
Qed.

Lemma moves_on_input i now c :
  moves_to (next_phase (role c) i (state c)) c (on_input i now c).
Proof.
  assert (Hr : moves_to (state c, []) c c) by apply still_moves, still_refl.
  destruct i as [a| | |asdu|]; cbn [on_input]; [| | | |by destruct (role c)].
  - unfold on_apdu. set (x := set_last_recv_any (Some now) c).
    assert (Hx : actions x = actions c /\ state x = state c /\ role x = role c) by (by destruct c).
    clearbody x. destruct Hx as (Ha & Hs & Hro). unfold moves_to. rewrite <- Ha, <- Hs, <- Hro.
    change (moves_to (next_phase (role x) (InApdu a) (state x)) x
      (match a with ApduI send recv asdu => on_i_frame send recv asdu now x
       | ApduS recv => if transfer_phase (state x) then acknowledge recv now x else x
       | ApduU f => on_u_frame f now x end)).
    destruct a as [send recv asdu|recv|f]; [| |apply moves_u_frame].
    + replace (next_phase _ _ _) with (state x, @nil UFunction) by (by destruct (role x), (state x)).
      apply still_moves, still_i_frame.
    + replace (next_phase _ _ _) with (state x, @nil UFunction) by (by destruct (role x), (state x)).
      apply still_moves. destruct (transfer_phase (state x)) eqn:Ht; [by apply still_acknowledge|apply still_refl].
  - unfold on_user_startdt. destruct (role c), (state c) eqn:Es; try done.
    apply moves_emit; [done|by rewrite Es].
  - unfold on_user_stopdt. destruct (state c) eqn:Es, (role c); try done;
      [apply moves_emit|apply moves_transition]; by rewrite ?Es.
  - replace (next_phase _ _ _) with (state c, @nil UFunction) by (by destruct (role c), (state c)).
    apply still_moves. unfold on_user_send.
    assert (Hq : still c (set_pending (pending c ++ [asdu]) c)) by (by apply still_same; destruct c).
    destruct (bool_decide_reflect (state c = Active)) as [Es|Es]; cbn [negb]; [|done].
    destruct (_ <=? _); [done|]. destruct c. eexists. simpl in *. subst. split; [done|]. done.
Qed.

Lemma role_transition to c : role (transition to c) = role c.
Proof. apply transition_frame. Qed.

Lemma role_on_input i now c : role (on_input i now c) = role c.
Proof.
  destruct i as [a| | |asdu|]; cbn [on_input]; [| | | |done].
  - unfold on_apdu. transitivity (role (set_last_recv_any (Some now) c)); [|by destruct c].
    generalize (set_last_recv_any (Some now) c). clear c. intros c. destruct a as [send recv asdu|recv|f].
    + unfold on_i_frame. destruct (negb _); [rewrite role_transition; by destruct c|].
      destruct (negb _); [rewrite role_transition; by destruct c|].
      match goal with |- context [acknowledge recv now ?x] =>
        pose proof (acknowledge_frame recv now x) as (H & _); assert (Hx : role x = role c) by (by destruct c);
        generalize dependent x end.
      intros x H Hx. rewrite Hx in H. destruct (acknowledge recv now x). cbv zeta. by destruct (_ <=? _).
    + destruct (transfer_phase _); [|done]. apply acknowledge_frame.
    + unfold on_u_frame, flush_pending. destruct f, (role c) eqn:Er, (state c); try done; rewrite ?role_transition;
        try (by destruct c);
        try (rewrite (proj1 (flush_from_frame _ _ _)), role_transition; by destruct c).
      destruct (sent c); [|done]. rewrite <- Er, <- (role_transition Stopped c). by destruct (transition Stopped c).
  - unfold on_user_startdt. destruct (role c) eqn:Er, (state c); try done. rewrite role_transition. by destruct c.
  - unfold on_user_stopdt. destruct (state c), (role c) eqn:Er; try done; rewrite role_transition; by destruct c.
  - unfold on_user_send. destruct (negb _); [by destruct c|]. destruct (_ <=? _); by destruct c.
Qed.

Lemma role_timers now c : role (run_timers now c) = role c.
Proof.
  unfold run_timers.
  destruct (elapsed _ _ _); [rewrite role_transition; by destruct c|].
  destruct (elapsed _ _ _); [rewrite role_transition; by destruct c|].
  transitivity (role (timer_t2 now c)); [|unfold timer_t2; destruct (_ && _); by destruct c].
  generalize (timer_t2 now c). clear c. intros c.
  transitivity (role (timer_t3 now c)); [|unfold timer_t3; destruct (_ && _); by destruct c].
  unfold timer_drained. destruct (_ && _); [|done].
  pose proof (role_transition Stopped (timer_t3 now c)). by destruct (transition Stopped (timer_t3 now c)).
Qed.

(** The handshake of one call of [handle]. *)
Lemma handle_phase i now c : actions c = [] ->
  let '(c', acts) := handle i now c in
  role c' = role c /\
  (Forall no_disconnect acts ->
   state c' = (next_phase (role c) i (state c)).1 /\
   ctrls (frames acts) = (next_phase (role c) i (state c)).2 /\
   (transfer_phase (state c) = false -> transfer_phase (state c') = false -> iframes acts = [])).
Proof.
  intros Hac. unfold handle.
  destruct (moves_still _ _ _ _ (moves_on_input i now c) (still_timers now _)) as (new & E & H).
  rewrite Hac in E. simpl in E.
  assert (Hr : role (run_timers now (on_input i now c)) = role c) by (by rewrite role_timers, role_on_input).
  destruct (run_timers now (on_input i now c)); simpl in *. subst. split; [done|].
  intros Hn. destruct (H Hn) as (-> & -> & Hi). auto.
Qed.

(** ** The invariant of the pair *)

(** Where the two stations are in the handshake, as long as neither has
    disconnected: the client is stopped, waits for STARTDT_con, has it, or
    waits for STOPDT_con; the server may have been stopped on its own. *)
Definition phase_ok (sa sb : State) (ab ba : list UFunction) (freshA freshB : Prop) : Prop :=
  match sa, sb, ab, ba with
  | Stopped, Stopped, [], [] => freshA /\ freshB
  | Starting, Stopped, [StartDtAct], [] => freshA /\ freshB
  | Starting, Stopped, [], [StartDtCon] | Starting, Active, [], [StartDtCon] => freshA
  | Active, Stopped, [], [] | Active, Active, [], [] => True
  | Stopping, Stopped, [StopDtAct], [] | Stopping, Active, [StopDtAct], [] => True
  | Stopping, Stopped, [], [StopDtCon] | Stopping, Stopped, [], [] => True
  | _, _, _, _ => False
  end.
(** The station has not sent an I-frame. *)
Definition fresh (s : side) : Prop := iframes (log s) = [].
Definition phase (a b : side) (ab ba : list Apdu) : Prop :=
  phase_ok (state (conn a)) (state (conn b)) (ctrls ab) (ctrls ba) (fresh a) (fresh b).

Lemma side_step_phase i now s s' fs : side_ok s -> side_step i now s = (s', fs) -> up s' ->
  up s /\ state (conn s') = (next_phase (role (conn s)) i (state (conn s))).1 /\
  ctrls fs = (next_phase (role (conn s)) i (state (conn s))).2 /\
  (transfer_phase (state (conn s)) = false -> transfer_phase (state (conn s')) = false ->
   fresh s -> fresh s').
Proof.
  intros Hok E Hu. pose proof (handle_phase i now (conn s) (proj2 Hok)) as H.
  unfold side_step in E. destruct (handle i now (conn s)) as [c' acts]. injection E as <- <-.
  unfold up in Hu. cbn [log] in Hu. rewrite Forall_app in Hu. destruct Hu as [Hu1 Hu2].
  destruct H as (_ & H). destruct (H Hu2) as (H1 & H2 & H3). cbn [log conn].
  split_and!; [done..|]. unfold fresh. cbn [log]. intros Ht1 Ht2 Hi. by rewrite iframes_app, Hi, H3.
Qed.

Lemma side_step_frame i now s s' fs : side_ok s -> side_step i now s = (s', fs) ->
  role (conn s') = role (conn s) /\ config (conn s') = config (conn s) /\ (up s' -> up s).
Proof.
  intros Hok E. pose proof (handle_phase i now (conn s) (proj2 Hok)) as H.
  pose proof (handle_config i now (conn s)) as Hc.
  unfold side_step in E. destruct (handle i now (conn s)) as [c' acts]. injection E as <- <-.
  unfold up. cbn [log conn]. rewrite Forall_app. split_and!; [apply H|done|by intros [? ?]].
Qed.

Definition ctrl_in (i : Input) : option UFunction :=
  match i with InApdu f => ctrl_of f | _ => None end.

Lemma takes_ctrls i ch ch' : takes i ch ch' -> ctrls ch = option_list (ctrl_in i) ++ ctrls ch'.
Proof.
  destruct i as [f| | |d|]; simpl; intros ->; [|done..]. unfold ctrls. simpl. by destruct (ctrl_of f).
Qed.

(** The client moves. *)
Lemma phase_client i now a a' fs b ab ba ba' :
  side_ok a -> role (conn a) = Client -> takes i ba ba' -> side_step i now a = (a', fs) -> up a' ->
  phase a b ab ba -> phase a' b (ab ++ fs) ba'.
Proof.
  intros Hok Hr Ht E Hu. destruct (side_step_phase i now a a' fs Hok E Hu) as (_ & Hs & Hc & Hi).
  unfold phase. rewrite (takes_ctrls _ _ _ Ht), ctrls_app, Hc. rewrite Hr in *.
  rewrite Hs in *. clear Hs Hc E Hu Hok Hr Ht.
  generalize dependent (fresh a'). generalize (fresh a) (fresh b) (ctrls ab) (ctrls ba').
  intros Fa Fb l1 l2 Fa' Hi.
  remember (option_list (ctrl_in i) ++ l2) as L eqn:EL.
  destruct (state (conn a)), (state (conn b)), l1 as [|[] [|]]; try done;
    destruct L as [|[] [|]]; try done;
    destruct i as [[? ? ?|?|[]]| | |?|]; simpl in *; simplify_eq/=; tauto.
Qed.

(** The server moves. *)
Lemma phase_server i now a b b' fs ab ab' ba :
  side_ok b -> role (conn b) = Server -> takes i ab ab' -> side_step i now b = (b', fs) -> up b' ->
  phase a b ab ba -> phase a b' ab' (ba ++ fs).
Proof.
  intros Hok Hr Ht E Hu. destruct (side_step_phase i now b b' fs Hok E Hu) as (_ & Hs & Hc & Hi).
  unfold phase. rewrite (takes_ctrls _ _ _ Ht), ctrls_app, Hc. rewrite Hr in *.
  rewrite Hs in *. clear Hs Hc E Hu Hok Hr Ht.
  generalize dependent (fresh b'). generalize (fresh a) (fresh b) (ctrls ab') (ctrls ba).
  intros Fa Fb l1 l2 Fb' Hi.
  remember (option_list (ctrl_in i) ++ l1) as L eqn:EL.
  destruct (state (conn a)), (state (conn b)), L as [|[] [|]]; try done;
    destruct l2 as [|[] [|]]; try done;
    destruct i as [[? ? ?|?|[]]| | |?|]; simpl in *; simplify_eq/=; tauto.
Qed.

(** The debt of one direction, data from [a] to [b]: while [a] is active, the
    last acknowledgement sent to it and those [b] owes cover everything [b]
    has delivered. *)
Definition covered (a b : side) (ba : list Apdu) : Prop :=
  state (conn a) = Active -> ∃ cs, acks ba cs (acked_count a) (length (delivered (log b))) /\
    Z.of_nat (length (delivered (log b))) <= Z.of_nat (top (acked_count a) cs) + unacked_recv (conn b).

Lemma side_ok_unacked s : side_ok s -> 0 <= unacked_recv (conn s) < Z.max 1 (cfg_w (config (conn s))).
Proof. intros [(_ & _ & H) _]. exact H. Qed.

(** The sender moves; a station that has just become active has sent
    nothing before. *)
Lemma covered_sender i now a a' fs b ab ba ba' :
  half a b ab ba -> takes i ba ba' -> side_step i now a = (a', fs) ->
  (state (conn a) ≠ Active -> state (conn a') = Active -> fresh a) ->
  covered a b ba -> covered a' b ba'.
Proof.
  intros Hh Ht E Hfresh Hc Hs'.
  destruct (decide (state (conn a) = Active)) as [Hs|Hs].
  - destruct (Hc Hs) as (cs & Hacks & Hle).
    destruct (acked_count_step _ _ _ _ _ _ _ _ _ cs Hh Ht E Hacks) as (cs' & Hacks' & Htop).
    exists cs'. split; [done|]. rewrite Htop; [done|by rewrite Hs|by rewrite Hs'].
  - destruct (half_acks _ _ _ _ Hh) as (cs & Hacks).
    destruct (acked_count_step _ _ _ _ _ _ _ _ _ cs Hh Ht E Hacks) as (cs' & Hacks' & _).
    exists cs'. split; [done|]. pose proof (half_prefix _ _ _ _ Hh) as Hp.
    rewrite (Hfresh Hs Hs') in Hp. apply prefix_length in Hp. simpl in Hp.
    pose proof (side_ok_unacked _ (half_b _ _ _ _ Hh)). lia.
Qed.

Lemma top_replicate lo cs m x : top lo (cs ++ replicate (S m) x) = x.
Proof.
  revert lo. induction cs as [|c cs IH]; intros lo; [|apply IH].
  revert lo. induction m as [|m IH]; intros lo; [done|]. exact (IH x).
Qed.

(** The receiver moves. *)
Lemma covered_receiver i now a b b' fs ba :
  side_ok b -> cfg_w (config (conn b)) <= 65535 -> side_step i now b = (b', fs) ->
  covered a b ba -> covered a b' (ba ++ fs).
Proof.
  intros Hb Hw E Hc Hs. destruct (Hc Hs) as (cs & Hacks & Hle).
  pose proof (acks_receiver _ _ _ _ _ _ _ _ Hb E Hacks) as Hacks'.
  eexists. split; [exact Hacks'|].
  destruct (side_ok_step i now b b' fs Hb E) as (Hb' & acts & Hlog & Efs & Hd & _ & _ & Hh).
  pose proof (side_ok_unacked _ Hb) as Hu. pose proof (side_ok_unacked _ Hb') as Hu'.
  pose proof (handle_owes i now (conn b) (proj2 Hb) ltac:(lia)) as Ho. rewrite Hh in Ho.
  unfold nrs in Ho. rewrite <- Efs in Ho. destruct (omap apdu_nr fs) as [|nr l]; cbn [length].
  - rewrite Hlog, delivered_app, Hd, length_app. cbn [replicate]. rewrite app_nil_r.
    destruct Ho as [[]|Ho]; [done|]. lia.
  - rewrite top_replicate. lia.
Qed.

Section LinkInvariant.
Context (cfgA cfgB : Config).

(** What holds in every reachable pair; the last parts while both are up. *)
Record link_inv (n : net) : Prop := {
  link_net : net_inv n;
  link_roles : role (conn (stA n)) = Client /\ role (conn (stB n)) = Server;
  link_configs : config (conn (stA n)) = cfgA /\ config (conn (stB n)) = cfgB;
  link_phase : up (stA n) -> up (stB n) -> phase (stA n) (stB n) (chAB n) (chBA n);
  link_covered : up (stA n) -> up (stB n) ->
    covered (stA n) (stB n) (chBA n) /\ covered (stB n) (stA n) (chAB n);
}.

Hypothesis HwA : 0 <= cfg_w cfgA <= 65535.
Hypothesis HwB : 0 <= cfg_w cfgB <= 65535.
Hypothesis HkA : cfg_k cfgA <= 16383.
Hypothesis HkB : cfg_k cfgB <= 16383.

(** The client moves. *)
Lemma link_inv_A i now n s fs rest : link_inv n -> net_inv (mkNet s (stB n) (chAB n ++ fs) rest) ->
  takes i (chBA n) rest -> side_step i now (stA n) = (s, fs) ->
  link_inv (mkNet s (stB n) (chAB n ++ fs) rest).
Proof.
  intros [[H1 H2] [Hr Hr'] [Hc Hc'] Hph Hcov] Hn Ht E.
  pose proof (half_a _ _ _ _ H1) as Hok.
  destruct (side_step_frame i now _ _ _ Hok E) as (Er & Ec & Hup).
  split; cbn [stA stB chAB chBA]; [done|by rewrite Er|by rewrite Ec| |].
  - intros Hu Hu'. eapply phase_client; eauto.
  - intros Hu Hu'. specialize (Hph (Hup Hu) Hu'). destruct (Hcov (Hup Hu) Hu') as [C1 C2]. split.
    + eapply covered_sender; [exact H1|done..| |done]. intros Hs Hs'.
      destruct (side_step_phase i now _ _ _ Hok E Hu) as (_ & Es & _ & _).
      rewrite Hs', Hr in Es. unfold phase in Hph. clear - Es Hph Hs.
      unfold next_phase, phase_ok in *. destruct i as [[| |[]]| | | |], (state (conn (stA n))), (state (conn (stB n)));
        try done; destruct (ctrls (chAB n)) as [|[] []]; try done; destruct (ctrls (chBA n)) as [|[] []]; tauto.
    + eapply covered_receiver; [done|by rewrite Hc; lia|done..].
Qed.

(** The server moves. *)
Lemma link_inv_B i now n s fs rest : link_inv n -> net_inv (mkNet (stA n) s rest (chBA n ++ fs)) ->
  takes i (chAB n) rest -> side_step i now (stB n) = (s, fs) ->
  link_inv (mkNet (stA n) s rest (chBA n ++ fs)).
Proof.
  intros [[H1 H2] [Hr Hr'] [Hc Hc'] Hph Hcov] Hn Ht E.
  pose proof (half_a _ _ _ _ H2) as Hok.
  destruct (side_step_frame i now _ _ _ Hok E) as (Er & Ec & Hup).
  split; cbn [stA stB chAB chBA]; [done|by rewrite Er|by rewrite Ec| |].
  - intros Hu Hu'. eapply phase_server; eauto.
  - intros Hu Hu'. specialize (Hph Hu (Hup Hu')). destruct (Hcov Hu (Hup Hu')) as [C1 C2]. split.
    + eapply covered_receiver; [done|by rewrite Hc'; lia|done..].
    + eapply covered_sender; [exact H2|done..| |done]. intros Hs Hs'.
      destruct (side_step_phase i now _ _ _ Hok E Hu') as (_ & Es & _ & _).
      rewrite Hs', Hr' in Es. unfold phase in Hph. rewrite (takes_ctrls _ _ _ Ht) in Hph. clear - Es Hph Hs.
      unfold next_phase, phase_ok in *. destruct i as [[| |[]]| | | |], (state (conn (stB n))), (state (conn (stA n)));
        try done; simpl in Hph; destruct (ctrls rest) as [|[] []]; try done;
        destruct (ctrls (chBA n)) as [|[] []]; tauto.
Qed.

Lemma link_inv_step n n' : net_step n n' -> link_inv n -> link_inv n'.
Proof.
  intros Hs H. pose proof (net_inv_step _ _ Hs (link_net _ H)) as Hn.
  destruct Hs as [n i now s fs Hl Hu E|n i now s fs Hl Hu E|n f rest now s fs Hc Hu E|n f rest now s fs Hc Hu E].
  - eapply (link_inv_A i); try done. by destruct i.
  - eapply (link_inv_B i); try done. by destruct i.
  - by eapply (link_inv_A (InApdu f)).
  - by eapply (link_inv_B (InApdu f)).
Qed.

Lemma link_inv_init : link_inv (net_init cfgA cfgB).
Proof.
  split; [by split; apply half_init; lia|done|done|done|].
  intros _ _. by split; intros ?.
Qed.

Lemma link_reachable n : net_reachable cfgA cfgB n -> link_inv n.
Proof.
  intros Hr. unfold net_reachable in Hr. pose proof link_inv_init as H. revert H.
  induction Hr as [|n1 n2 n3 Hs _ IH]; [done|]. intros H. apply IH. by eapply link_inv_step.
Qed.

End LinkInvariant.
