(* ===== verification/Drain104.v ===== *)
(** * The window never wedges

    Two active stations drain: as long as no supervision time [t1] runs out,
    every run of arrivals at the pair of [Connection]s of
    [frame104/state.rs], in any order, comes to an end, keeps both
    connections up and active, and when the wire is empty everything either
    application has submitted has been delivered. The arrivals lower an
    energy made of the frames in flight, the ASDUs waiting for the window and
    the acknowledgements owed; [Live104.v] has the invariants. *)

From S2P Require Import Prelude Pipe Frame104 Conn104 Net104 Live104.

(** ** The energy *)

Definition weight (f : Apdu) : Z :=
  match f with ApduI _ _ _ => 4 | ApduU TestFrAct => 2 | _ => 1 end.
Definition weights (ch : list Apdu) : Z := foldr (fun f z => weight f + z) 0 ch.

Lemma weights_app a b : weights (a ++ b) = weights a + weights b.
Proof. induction a as [|f a IH]; simpl; [done|]. lia. Qed.
Lemma weight_pos f : 0 < weight f.
Proof. by destruct f as [| |[]]. Qed.
Lemma weights_nonneg ch : 0 <= weights ch.
Proof. induction ch as [|f ch IH]; simpl; [done|]. pose proof (weight_pos f). lia. Qed.

(** Of a connection: the ASDUs it holds back, the acknowledgements it owes and
    the frames it is about to emit. *)
Definition burden (c : Connection) : Z := 4 * Z.of_nat (length (pending c)) + 2 * unacked_recv c.
Definition effort (c : Connection) : Z := burden c + weights (frames (actions c)).

(** ** A connection in calm *)

Section Calm.
Context (cfg : Config) (T0 T now : Instant).
Hypothesis Hnow : T0 <= now <= T.
Hypothesis Hspan : T - T0 < t1 cfg.
Hypothesis Ht3 : 0 < t3 cfg.

(** Nothing supervised by [t1] is older than [t1] at time [T]. *)
Definition supervised (c : Connection) : Prop :=
  Forall (fun e => since T e.2 < t1 (config c)) (sent c) /\
  Forall (fun t => since T t < t1 (config c)) (option_list (test_sent c)).

Record calm (c : Connection) : Prop := {
  calm_config : config c = cfg;
  calm_state : state c = Active;
  calm_recv : last_recv_any c = Some now;
  calm_unacked : 0 <= unacked_recv c;
  calm_sup : supervised c;
  calm_acts : Forall no_disconnect (actions c);
}.

(** From [c] to [c'] the connection stays calm and spends at least [d]. *)
Definition spends (d : Z) (c c' : Connection) : Prop :=
  calm c -> calm c' /\ effort c' + d <= effort c.

Lemma spends_refl c : spends 0 c c.
Proof. intros H. split; [done|lia]. Qed.
Lemma spends_trans d1 d2 c1 c2 c3 : spends d1 c1 c2 -> spends d2 c2 c3 -> spends (d1 + d2) c1 c3.
Proof. intros H1 H2 H. destruct (H1 H) as [Hc E1]. destruct (H2 Hc) as [Hd E2]. split; [done|lia]. Qed.
Lemma spends_trans0 d c1 c2 c3 : spends 0 c1 c2 -> spends d c2 c3 -> spends d c1 c3.
Proof. intros H1 H2. rewrite <- (Z.add_0_l d). by eapply spends_trans. Qed.
Lemma spends_weaken d d' c c' : d' <= d -> spends d c c' -> spends d' c c'.
Proof. intros Hd H Hc. destruct (H Hc). split; [done|lia]. Qed.

Lemma effort_push a c : effort (push_action a c) = effort c + weights (frames [a]).
Proof.
  unfold effort, burden.
  replace (pending (push_action a c)) with (pending c) by (by destruct c).
  replace (unacked_recv (push_action a c)) with (unacked_recv c) by (by destruct c).
  replace (actions (push_action a c)) with (actions c ++ [a]) by (by destruct c).
  rewrite action_frames_app, weights_app. lia.
Qed.

Lemma calm_push a c : no_disconnect a -> calm c -> calm (push_action a c).
Proof.
  intros Ha []. destruct c; simpl in *. split; simpl; try done. apply Forall_app. by rewrite Forall_singleton.
Qed.

Lemma spends_deliver asdu c : spends 0 c (push_action (DeliverAsdu asdu) c).
Proof.
  intros H. split; [by apply calm_push|]. rewrite effort_push. change (weights (frames [DeliverAsdu asdu])) with 0. lia.
Qed.

Lemma spends_send asdu p c : pending c = asdu :: p -> spends 0 c (send_iframe asdu now (set_pending p c)).
Proof.
  intros Hp [H1 H2 H3 H4 [H5 H5'] H6]. unfold effort, burden, supervised in *. destruct c; simpl in *. subst.
  split; [split|]; cbn; try done.
  - split; [|done]. simpl. apply Forall_app. split; [done|]. apply Forall_singleton. simpl. unfold since. lia.
  - apply Forall_app. by rewrite Forall_singleton.
  - rewrite action_frames_app, weights_app. cbn. lia.
Qed.

Lemma spends_flush_from p c : pending c = p -> spends 0 c (flush_from p now c).
Proof.
  revert c. induction p as [|a p IH]; intros c Hp; simpl; [apply spends_refl|].
  destruct (_ <? _); [|apply spends_refl].
  eapply spends_trans0; [by apply spends_send|]. apply IH. by destruct c.
Qed.

Lemma spends_acknowledge nr c : spends 0 c (acknowledge nr now c).
Proof.
  unfold acknowledge. eapply spends_trans0; [|by apply spends_flush_from].
  destruct (drop_acked_suffix nr (sent c)) as [j ->]. intros [H1 H2 H3 H4 [H5 H5'] H6].
  unfold effort, burden, supervised in *. destruct c; simpl in *.
  split; [split|]; simpl; try done; [|lia]. split; [|done]. by apply Forall_drop.
Qed.

(** An S-frame costs one and saves two for each acknowledgement owed. *)
Lemma spends_supervisory c : spends (2 * unacked_recv c - 1) c (emit_supervisory now c).
Proof.
  intros [H1 H2 H3 H4 H5 H6]. unfold effort, burden, supervised in *. destruct c; simpl in *.
  split; [split|]; simpl; try done.
  - apply Forall_app. by rewrite Forall_singleton.
  - rewrite action_frames_app, weights_app. cbn. lia.
Qed.

(** In calm only [t2] can expire. *)
Lemma calm_timers c : calm c -> run_timers now c = timer_t2 now c.
Proof.
  intros [H1 H2 H3 H4 [H5 H5'] H6]. unfold run_timers.
  assert (E1 : elapsed now (snd <$> head (sent c)) (t1 (config c)) = false).
  { destruct (sent c) as [|e l]; [done|]. apply Forall_inv in H5. simpl. unfold since in *. lia. }
  assert (E2 : elapsed now (test_sent c) (t1 (config c)) = false).
  { destruct (test_sent c) as [t|]; [|done]. apply Forall_inv in H5'. simpl. unfold since in *. lia. }
  rewrite E1, E2.
  assert (Hx : state (timer_t2 now c) = Active /\ last_recv_any (timer_t2 now c) = Some now /\
    config (timer_t2 now c) = cfg) by (unfold timer_t2; destruct (_ && _); by destruct c).
  destruct Hx as (Hx1 & Hx2 & Hx3). generalize dependent (timer_t2 now c). intros x Hx1 Hx2 Hx3.
  assert (E3 : elapsed now (opt_max (last_send_any x) (last_recv_any x)) (t3 (config x)) = false).
  { rewrite Hx2, Hx3. destruct (last_send_any x); simpl; unfold since; lia. }
  unfold timer_t3. rewrite E3, andb_false_r. unfold timer_drained. by rewrite Hx1.
Qed.

Lemma spends_timers c : spends 0 c (run_timers now c).
Proof.
  intros H. rewrite (calm_timers c H). revert H. change (spends 0 c (timer_t2 now c)). unfold timer_t2.
  destruct (Z.ltb_spec 0 (unacked_recv c)); [|apply spends_refl]. simpl.
  destruct (elapsed _ _ _); [|apply spends_refl].
  eapply spends_weaken; [|apply spends_supervisory]. lia.
Qed.

(** The frames an active pair exchanges: the expected I-frame, S-frames and
    test frames. *)
Definition acceptable (c : Connection) (f : Apdu) : Prop :=
  match f with
  | ApduI send _ _ => send = recv_next c
  | ApduS _ => True
  | ApduU g => ctrl_of (ApduU g) = None
  end.

Lemma spends_i_frame recv asdu c : spends (-3) c (on_i_frame (recv_next c) recv asdu now c).
Proof.
  intros H. unfold on_i_frame. rewrite (calm_state _ H), Z.eqb_refl. cbn [transfer_phase negb].
  revert H. match goal with |- context [acknowledge recv now ?x] => assert (H1 : spends (-2) c x);
    [|generalize dependent x] end.
  { intros [H1 H2 H3 H4 [H5 H5'] H6]. unfold effort, burden, supervised in *. destruct c; simpl in *.
    unfold u16_saturating_add. split; [split|]; simpl; try done; lia. }
  intros x H1. apply (spends_trans (-2) (-1) c x); [done|].
  eapply spends_trans0; [apply spends_acknowledge|]. eapply spends_trans0; [apply spends_deliver|].
  cbv zeta. destruct (_ <=? _).
  - intros H. eapply spends_weaken; [|apply spends_supervisory|done]. pose proof (calm_unacked _ H). lia.
  - apply (spends_weaken 0); [lia|apply spends_refl].
Qed.

Lemma spends_test g c : ctrl_of (ApduU g) = None -> spends (1 - weight (ApduU g)) c (on_u_frame g now c).
Proof.
  intros Hg [H1 H2 H3 H4 [H5 H5'] H6]. unfold on_u_frame. destruct g; try done.
  - assert (H : spends (-1) c (set_last_send_any (Some now) (emit_apdu (ApduU TestFrCon) c))).
    { intros _. unfold effort, burden, supervised in *. destruct c; simpl in *. split; [split|]; simpl; try done.
      - apply Forall_app. by rewrite Forall_singleton.
      - rewrite action_frames_app, weights_app. cbn. lia. }
    assert (Hc : calm c) by done. destruct (H Hc) as [Hx Hy]. by destruct (role c), (state c).
  - assert (H : spends 0 c (set_test_sent None c)).
    { intros _. unfold effort, burden, supervised in *. destruct c; simpl in *. split; [split|]; simpl; try done. lia. }
    assert (Hc : calm c) by done. destruct (H Hc) as [Hx Hy]. by destruct (role c), (state c).
Qed.

(** One arrival in calm. *)
Lemma handle_calm f c : actions c = [] -> config c = cfg -> state c = Active -> supervised c ->
  0 <= unacked_recv c -> acceptable c f ->
  let '(c', acts) := handle (InApdu f) now c in
  state c' = Active /\ supervised c' /\ Forall no_disconnect acts /\
  burden c' + weights (frames acts) < burden c + weight f.
Proof.
  intros Hac Hcf Hst Hsup Hun Hf. unfold handle. cbn [on_input]. unfold on_apdu.
  set (x := set_last_recv_any (Some now) c).
  assert (Hx : calm x) by (destruct c; simpl in *; subst; by split).
  assert (Ex : effort x = burden c) by (unfold effort, burden; destruct c; simpl in *; subst; cbn; lia).
  assert (Hs : spends (1 - weight f) x (run_timers now
    match f with
    | ApduI send recv asdu => on_i_frame send recv asdu now x
    | ApduS recv => if transfer_phase (state x) then acknowledge recv now x else x
    | ApduU g => on_u_frame g now x
    end)).
  { rewrite <- (Z.add_0_r (1 - _)). eapply spends_trans; [|apply spends_timers].
    destruct f as [send recv asdu|recv|g]; simpl in Hf.
    - rewrite Hf. replace (recv_next c) with (recv_next x) by (by destruct c). apply spends_i_frame.
    - rewrite (calm_state _ Hx). apply spends_acknowledge.
    - by apply spends_test. }
  destruct (Hs Hx) as [Hy Ey]. cbv zeta. revert Hy Ey. generalize (run_timers now
    match f with
    | ApduI send recv asdu => on_i_frame send recv asdu now x
    | ApduS recv => if transfer_phase (state x) then acknowledge recv now x else x
    | ApduU g => on_u_frame g now x
    end). intros y [] Ey. rewrite Ex in Ey. unfold effort, burden in *.
  destruct y; simpl in *. split_and!; try done. lia.
Qed.
End Calm.

(** ** The pair drains *)

(** Arrivals at either station, at any instants between [T0] and [T]. *)
Inductive arrival (T0 T : Instant) : net -> net -> Prop :=
| arrival_A n f rest now s fs : T0 <= now <= T -> chBA n = f :: rest -> up (stA n) ->
    side_step (InApdu f) now (stA n) = (s, fs) ->
    arrival T0 T n (mkNet s (stB n) (chAB n ++ fs) rest)
| arrival_B n f rest now s fs : T0 <= now <= T -> chAB n = f :: rest -> up (stB n) ->
    side_step (InApdu f) now (stB n) = (s, fs) ->
    arrival T0 T n (mkNet (stA n) s rest (chBA n ++ fs)).

Lemma arrival_step T0 T n n' : arrival T0 T n n' -> net_step n n'.
Proof. intros [? ? ? ? ? ? _ Hc Hu E|? ? ? ? ? ? _ Hc Hu E]; [by eapply net_recv_A|by eapply net_recv_B]. Qed.

(** The station is in data transfer, and at time [T] nothing it waits for
    will have been outstanding for [t1]. *)
Definition ready (T : Instant) (s : side) : Prop :=
  up s /\ state (conn s) = Active /\ supervised T (conn s).

Definition energy (n : net) : Z :=
  burden (conn (stA n)) + burden (conn (stB n)) + weights (chAB n) + weights (chBA n).

(** One arrival keeps a station ready and spends energy. *)
Lemma ready_step T0 T now f s s' fs : T0 <= now <= T -> T - T0 < t1 (config (conn s)) ->
  0 < t3 (config (conn s)) -> side_ok s -> ready T s -> acceptable (conn s) f ->
  side_step (InApdu f) now s = (s', fs) ->
  ready T s' /\ sub s' = sub s /\ burden (conn s') + weights fs < burden (conn s) + weight f.
Proof.
  intros Hnow Hspan Ht3 Hok (Hu & Hs & Hsup) Hf E.
  pose proof (side_ok_unacked _ Hok) as Hun.
  pose proof (handle_calm (config (conn s)) T0 T now Hnow Hspan Ht3 f (conn s) (proj2 Hok)
    eq_refl Hs Hsup (proj1 Hun) Hf) as H.
  unfold side_step in E. destruct (handle (InApdu f) now (conn s)) as [c' acts]. injection E as <- <-.
  destruct H as (H1 & H2 & H3 & H4). unfold ready, up. cbn [log conn sub submitted_of option_list].
  rewrite app_nil_r. split_and!; try done. by apply Forall_app.
Qed.

(** The head of a channel without start and stop frames is acceptable. *)
Lemma half_acceptable a b ab ba f rest :
  half a b ab ba -> up b -> ctrls ab = [] -> ab = f :: rest -> acceptable (conn b) f.
Proof.
  intros H Hu Hc ->. destruct f as [send recv asdu|recv|g]; simpl; [|done|].
  - by eapply half_in_sequence.
  - unfold ctrls in Hc. cbn in Hc. by destruct g.
Qed.

(** Nothing in flight, nothing held back: all delivered. *)
Lemma half_complete a b ba : half a b [] ba -> covered a b [] -> up b -> state (conn a) = Active ->
  Z.max 1 (cfg_w (config (conn b))) <= cfg_k (config (conn a)) -> delivered (log b) = sub a.
Proof.
  intros H Hc Hu Hs Hwk. destruct (half_flow _ _ _ _ H Hu) as (rcvd & E1 & E2).
  cbn in E1. rewrite app_nil_r in E1.
  destruct (Hc Hs) as (cs & [Hcs _] & Hle). apply Forall2_nil_inv_l in Hcs. subst cs. cbn in Hle.
  destruct (side_ok_window _ (half_a _ _ _ _ H)) as (_ & Hn & _).
  pose proof (side_ok_unacked _ (half_b _ _ _ _ H)) as Hun.
  destruct (half_a _ _ _ _ H) as [(Hi & Hfl & _) Hac].
  pose proof (inv_fifo _ _ _ _ _ Hi) as Hf. rewrite Hac, app_nil_r, E1, E2 in Hf.
  destruct (Hfl Hs) as [Hp|Hk]; [by rewrite Hp, app_nil_r in Hf|].
  rewrite <- E2, length_fmap, <- E1 in Hle. lia.
Qed.

Section Drains.
Context (cfgA cfgB : Config) (T0 T : Instant).
Hypothesis HwA : 0 <= cfg_w cfgA <= 65535.
Hypothesis HwB : 0 <= cfg_w cfgB <= 65535.
Hypothesis HkA : Z.max 1 (cfg_w cfgB) <= cfg_k cfgA <= 16383.
Hypothesis HkB : Z.max 1 (cfg_w cfgA) <= cfg_k cfgB <= 16383.
Hypothesis Ht1 : T - T0 < Z.min (t1 cfgA) (t1 cfgB).
Hypothesis Ht3 : 0 < Z.min (t3 cfgA) (t3 cfgB).

(** A reachable pair in data transfer. *)
Definition lively (n : net) : Prop :=
  net_reachable cfgA cfgB n /\ ready T (stA n) /\ ready T (stB n).

Lemma lively_inv n : lively n -> link_inv cfgA cfgB n.
Proof. intros [Hr _]. apply link_reachable; [lia..|done]. Qed.

Lemma lively_ctrls n : lively n -> ctrls (chAB n) = [] /\ ctrls (chBA n) = [].
Proof.
  intros H. pose proof (lively_inv n H) as Hi. destruct H as (_ & (Hu & Hs & _) & (Hu' & Hs' & _)).
  pose proof (link_phase _ _ _ Hi Hu Hu') as Hp. unfold phase, phase_ok in Hp. rewrite Hs, Hs' in Hp.
  by destruct (ctrls (chAB n)), (ctrls (chBA n)).
Qed.

(** An arrival keeps the pair in data transfer and spends energy. *)
Lemma lively_arrival n n' : arrival T0 T n n' -> lively n ->
  lively n' /\ sub (stA n') = sub (stA n) /\ sub (stB n') = sub (stB n) /\ energy n' < energy n.
Proof.
  intros Ha Hl. pose proof (arrival_step _ _ _ _ Ha) as Hstep.
  destruct (lively_inv n Hl) as [[H1 H2] _ [HcA HcB] _ _]. destruct (lively_ctrls n Hl) as [Hab Hba].
  destruct Hl as (Hr & HrA & HrB).
  assert (Hr' : net_reachable cfgA cfgB n') by (by eapply rtc_r). unfold lively, energy.
  destruct Ha as [n f rest now s fs Hn Hc Hu E|n f rest now s fs Hn Hc Hu E]; cbn [stA stB chAB chBA].
  - destruct (ready_step T0 T now f (stA n) s fs) as (Hs & Es & Hlt);
      [done|rewrite HcA; lia|rewrite HcA; lia|exact (half_a _ _ _ _ H1)|done|by eapply half_acceptable|done|].
    rewrite Hc, weights_app. cbn [weights foldr]. split_and!; try done. fold (weights rest). lia.
  - destruct (ready_step T0 T now f (stB n) s fs) as (Hs & Es & Hlt);
      [done|rewrite HcB; lia|rewrite HcB; lia|exact (half_a _ _ _ _ H2)|done|by eapply half_acceptable|done|].
    rewrite Hc, weights_app. cbn [weights foldr]. split_and!; try done. fold (weights rest). lia.
Qed.

Lemma lively_energy n : lively n -> 0 <= energy n.
Proof.
  intros Hl. destruct (lively_inv n Hl) as [[H1 H2] _ _ _ _]. unfold energy, burden.
  pose proof (side_ok_unacked _ (half_a _ _ _ _ H1)). pose proof (side_ok_unacked _ (half_a _ _ _ _ H2)).
  pose proof (weights_nonneg (chAB n)). pose proof (weights_nonneg (chBA n)). lia.
Qed.

Lemma lively_run m n n' : nsteps (arrival T0 T) m n n' -> lively n ->
  lively n' /\ sub (stA n') = sub (stA n) /\ sub (stB n') = sub (stB n) /\
  energy n' + Z.of_nat m <= energy n.
Proof.
  induction 1 as [n|m n1 n2 n3 Ha _ IH]; intros Hl; [split_and!; [done..|lia]|].
  destruct (lively_arrival _ _ Ha Hl) as (Hl' & E1 & E2 & Hlt).
  destruct (IH Hl') as (Hl'' & E1' & E2' & Hle). split_and!; [done|congruence..|lia].
Qed.

(** C4. Two stations in data transfer drain. Let [w] of either be at most [k] of
    the other, and let no supervision time run out before [T]. Then from every
    reachable configuration in which both are active, the frames that arrive
    between [T0] and [T], at either station and in any order, are at most
    [energy n] many; no arrival disconnects or leaves data transfer; as long
    as a frame is on the wire another arrival is possible; and when the wire
    is empty each application has received everything the other submitted,
    what the full window had held back included. *)
Theorem link_drains m n n' : net_reachable cfgA cfgB n -> ready T (stA n) -> ready T (stB n) ->
  T0 <= T -> nsteps (arrival T0 T) m n n' ->
  Z.of_nat m <= energy n /\ ready T (stA n') /\ ready T (stB n') /\
  (chAB n' ≠ [] \/ chBA n' ≠ [] -> ∃ n'', arrival T0 T n' n'') /\
  (chAB n' = [] -> chBA n' = [] ->
   delivered (log (stB n')) = sub (stA n) /\ delivered (log (stA n')) = sub (stB n)).
Proof.
  intros Hr HA HB HT Hm. destruct (lively_run m n n' Hm) as (Hl & E1 & E2 & Hle); [done|].
  pose proof (lively_energy n' Hl). pose proof (lively_inv n' Hl) as Hi. destruct Hl as (_ & HA' & HB').
  split_and!; [lia|done|done| |].
  - intros [Hc|Hc].
    + destruct (chAB n') as [|f rest] eqn:Ec; [done|].
      destruct (side_step (InApdu f) T (stB n')) as [s fs] eqn:E.
      eexists. eapply arrival_B; [|exact Ec|apply HB'|exact E]. lia.
    + destruct (chBA n') as [|f rest] eqn:Ec; [done|].
      destruct (side_step (InApdu f) T (stA n')) as [s fs] eqn:E.
      eexists. eapply arrival_A; [|exact Ec|apply HA'|exact E]. lia.
  - intros Ec Ec'. destruct Hi as [[H1 H2] _ [HcA HcB] _ Hcov].
    destruct (Hcov (proj1 HA') (proj1 HB')) as [C1 C2]. rewrite Ec, Ec' in *. rewrite <- E1, <- E2.
    destruct HA' as (Hu & Hs & _), HB' as (Hu' & Hs' & _).
    split; eapply half_complete; try done; rewrite HcA, HcB; lia.
Qed.

End Drains.

(** ** A full window *)

Module DrainSample.

(** Arrivals run by [do_move]; [None] when one is not possible. *)
Fixpoint run_arrivals (now : Instant) (ms : list bool) (n : net) : option net :=
  match ms with
  | [] => Some n
  | b :: ms' =>
      match (if b then chAB n else chBA n), is_up (if b then stB n else stA n) with
      | _ :: _, true => run_arrivals now ms' (do_move now (if b then RecvB else RecvA) n)
      | _, _ => None
      end
  end.

Lemma run_arrivals_steps T0 T now ms n n' : T0 <= now <= T ->
  run_arrivals now ms n = Some n' -> nsteps (arrival T0 T) (length ms) n n'.
Proof.
  intros Hn. revert n. induction ms as [|b ms IH]; intros n; cbn [run_arrivals length].
  { intros [= ->]. constructor. }
  intros E. destruct b.
  - destruct (chAB n) as [|f rest] eqn:Hc; [done|]. destruct (is_up (stB n)) eqn:Hu; [|done].
    eapply nsteps_l; [|by apply IH]. cbn [do_move]. rewrite Hc, Hu.
    destruct (side_step (InApdu f) now (stB n)) eqn:Es. eapply arrival_B; eauto using is_up_up.
  - destruct (chBA n) as [|f rest] eqn:Hc; [done|]. destruct (is_up (stA n)) eqn:Hu; [|done].
    eapply nsteps_l; [|by apply IH]. cbn [do_move]. rewrite Hc, Hu.
    destruct (side_step (InApdu f) now (stA n)) eqn:Es. eapply arrival_A; eauto using is_up_up.
Qed.

(** A window of two: four ASDUs are submitted, two are held back; the server
    submits one of its own. *)
Definition cfg2 (w : Z) : Config := mkConfig 2 w 15000 10000 20000.
Definition full (w : Z) : net :=
  do_moves 1 [MoveA InStartDt; RecvB; RecvA; MoveA (InSendAsdu [1]); MoveA (InSendAsdu [2]);
    MoveA (InSendAsdu [3]); MoveA (InSendAsdu [4]); MoveB (InSendAsdu [9])]
    (net_init (cfg2 w) (cfg2 w)).

Lemma full_holds : length (pending (conn (stA (full 2)))) = 2%nat /\ energy (full 2) = 20.
Proof. vm_compute. done. Qed.

Definition readyb (T : Instant) (s : side) : bool :=
  is_up s && bool_decide (state (conn s) = Active) &&
  forallb (fun e => since T e.2 <? t1 (config (conn s))) (sent (conn s)) &&
  forallb (fun t => since T t <? t1 (config (conn s))) (option_list (test_sent (conn s))).

Lemma forallb_Forall {A} (f : A -> Z) (u : Z) l :
  forallb (fun x => f x <? u) l = true -> Forall (fun x => f x < u) l.
Proof. rewrite forallb_forall, Forall_forall. intros H x Hx. apply list_elem_of_In, H in Hx. lia. Qed.

Lemma readyb_ready T s : readyb T s = true -> ready T s.
Proof.
  unfold readyb. rewrite !andb_true_iff. intros [[[H1 H2] H3] H4].
  split; [by apply is_up_up|]. split; [by apply bool_decide_eq_true in H2|].
  split; by apply forallb_Forall.
Qed.

Lemma full_ready : ready 9000 (stA (full 2)) /\ ready 9000 (stB (full 2)).
Proof. split; apply readyb_ready; vm_compute; reflexivity. Qed.

Lemma full_reachable w : net_reachable (cfg2 w) (cfg2 w) (full w).
Proof. unfold full. apply do_moves_steps. Qed.

(** Seven arrivals drain it. *)
Definition drain : list bool := [true; true; false; false; true; true; false].

Lemma link_drains_witness : ∃ n',
  Z.of_nat (length drain) <= energy (full 2) /\ chAB n' = [] /\ chBA n' = [] /\
  delivered (log (stB n')) = [[1]; [2]; [3]; [4]] /\ delivered (log (stA n')) = [[9]].
Proof.
  destruct (run_arrivals 8000 drain (full 2)) as [n'|] eqn:E; [|vm_compute in E; discriminate].
  assert (Hs : nsteps (arrival 8000 9000) (length drain) (full 2) n')
    by (apply (run_arrivals_steps _ _ 8000); [lia|exact E]).
  assert (Hc : chAB n' = [] /\ chBA n' = []).
  { clear Hs. vm_compute in E. injection E as <-. split; reflexivity. }
  destruct Hc as [Hc1 Hc2]. clear E.
  destruct (link_drains (cfg2 2) (cfg2 2) 8000 9000 ltac:(simpl; lia) ltac:(simpl; lia) ltac:(simpl; lia)
    ltac:(simpl; lia) ltac:(simpl; lia) ltac:(simpl; lia) (length drain) (full 2) n'
    (full_reachable 2) (proj1 full_ready) (proj2 full_ready) ltac:(lia) Hs) as (Hm & _ & _ & _ & Hd).
  exists n'. split_and!; [exact Hm|exact Hc1|exact Hc2|exact (proj1 (Hd Hc1 Hc2))|exact (proj2 (Hd Hc1 Hc2))].
Defined.

(** The relation between [w] and [k], which nothing in the code checks, is
    needed: with [w] above [k] the wire falls silent with two ASDUs still held
    back, until [t2] expires. *)
Lemma narrow_window_waits : ∃ n',
  run_arrivals 8000 [true; true; false] (full 3) = Some n' /\ chAB n' = [] /\ chBA n' = [] /\
  delivered (log (stB n')) = [[1]; [2]] /\ pending (conn (stA n')) = [[3]; [4]].
Proof. eexists. split; [vm_compute; reflexivity|]. vm_compute. done. Qed.

End DrainSample.
