(* ===== verification/Frame101.v ===== *)
(** * IEC 60870-5-101 frames

    [frame101/frame.rs], [control.rs] and [codec.rs]: the FT 1.2 frame
    formats, the link control field and the stateless codec with its
    arithmetic checksum. *)

From S2P Require Import Prelude Bytes Codec AsduHeader AsduFile Frame104.

(** ** Data *)

(** frame101/frame.rs 37-42, SingleChar. *)
Inductive SingleChar := ScAck | ScNack.
(** frame101/frame.rs 47-53, SingleChar::from_byte. *)
Definition SingleChar_from_byte (b : Z) : option SingleChar :=
  match b with 0xE5 => Some ScAck | 0xA2 => Some ScNack | _ => None end.
(** frame101/frame.rs 56-58, SingleChar::as_byte. *)
Definition SingleChar_as_byte (c : SingleChar) : Z :=
  match c with ScAck => 0xE5 | ScNack => 0xA2 end.

(** frame101/frame.rs 70-76, LinkAddressSize. *)
Inductive LinkAddressSize := LaOne | LaTwo.
(** frame101/frame.rs 80-85, LinkAddressSize::len. *)
Definition la_len (s : LinkAddressSize) : nat := match s with LaOne => 1 | LaTwo => 2 end.
(** frame101/frame.rs 90-92, LinkAddressSize::is_empty. *)
Definition la_is_empty (s : LinkAddressSize) : bool := false.
(** frame101/frame.rs 100-100, LinkAddress. *)
Abbreviation LinkAddress := Z.

(** frame101/frame.rs 141-175, Frame101. *)
Inductive Frame101 :=
| FSingle (c : SingleChar)
| FFixed (control : Z) (address : LinkAddress)
| FVariable (control : Z) (address : LinkAddress) (asdu : bytes).

#[export] Instance SingleChar_eq_dec : EqDecision SingleChar.
Proof. solve_decision. Defined.
#[export] Instance LinkAddressSize_eq_dec : EqDecision LinkAddressSize.
Proof. solve_decision. Defined.
#[export] Instance Frame101_eq_dec : EqDecision Frame101.
Proof. solve_decision. Defined.

(** frame101/frame.rs 115-126, LinkAddress::decode_from. *)
Definition LinkAddress_decode_from (buf : bytes) (size : LinkAddressSize) : Result (option LinkAddress) :=
  match size with
  | LaOne => Ok (head buf)
  | LaTwo =>
      if (length buf <? 2)%nat then Ok None else
      index buf 0 ≫= fun b0 => index buf 1 ≫= fun b1 => Ok (Some (le_join [b0; b1]))
  end.

(** ** The control field *)

(** frame101/control.rs 31-36, Direction. *)
Inductive Direction := DirPrimary | DirSecondary.
(** frame101/control.rs 45-60, FuncCodePrimary. *)
Inductive FuncCodePrimary :=
| ResetRemoteLink | ResetUserProcess | UserDataConfirmed | UserDataUnconfirmed
| RequestStatus | RequestUserDataClass1 | RequestUserDataClass2.
(** frame101/control.rs 81-92, FuncCodeSecondary. *)
Inductive FuncCodeSecondary := FcAck | FcNack | RespondUserData | NackNoData | StatusOfLink.

(** [func as u8]: the discriminants. *)
Definition FuncCodePrimary_code (f : FuncCodePrimary) : Z :=
  match f with
  | ResetRemoteLink => 0 | ResetUserProcess => 1 | UserDataConfirmed => 3 | UserDataUnconfirmed => 4
  | RequestStatus => 9 | RequestUserDataClass1 => 10 | RequestUserDataClass2 => 11
  end.
Definition FuncCodeSecondary_code (f : FuncCodeSecondary) : Z :=
  match f with FcAck => 0 | FcNack => 1 | RespondUserData => 8 | NackNoData => 9 | StatusOfLink => 11 end.

(** frame101/control.rs 64-75, FuncCodePrimary::from_nibble. *)
Definition FuncCodePrimary_from_nibble (nibble : Z) : option FuncCodePrimary :=
  match Z.land nibble 0x0F with
  | 0 => Some ResetRemoteLink | 1 => Some ResetUserProcess | 3 => Some UserDataConfirmed
  | 4 => Some UserDataUnconfirmed | 9 => Some RequestStatus | 10 => Some RequestUserDataClass1
  | 11 => Some RequestUserDataClass2 | _ => None
  end.
(** frame101/control.rs 96-105, FuncCodeSecondary::from_nibble. *)
Definition FuncCodeSecondary_from_nibble (nibble : Z) : option FuncCodeSecondary :=
  match Z.land nibble 0x0F with
  | 0 => Some FcAck | 1 => Some FcNack | 8 => Some RespondUserData | 9 => Some NackNoData
  | 11 => Some StatusOfLink | _ => None
  end.

(** frame101/control.rs 130-149, ControlField. *)
Inductive ControlField :=
| CfPrimary (fcb fcv : bool) (func : FuncCodePrimary)
| CfSecondary (acd dfc : bool) (func : FuncCodeSecondary).

(** frame101/control.rs 152-155, PRM_BIT. *)
Definition PRM_BIT : Z := 0x40.
Definition FCB_ACD_BIT : Z := 0x20.
Definition FCV_DFC_BIT : Z := 0x10.
Definition FUNC_MASK : Z := 0x0F.

#[export] Instance FuncCodePrimary_eq_dec : EqDecision FuncCodePrimary.
Proof. solve_decision. Defined.
#[export] Instance FuncCodeSecondary_eq_dec : EqDecision FuncCodeSecondary.
Proof. solve_decision. Defined.
#[export] Instance Direction_eq_dec : EqDecision Direction.
Proof. solve_decision. Defined.
#[export] Instance ControlField_eq_dec : EqDecision ControlField.
Proof. solve_decision. Defined.

(** frame101/control.rs 161-185, ControlField::encode. *)
Definition ControlField_encode (c : ControlField) : Z :=
  match c with
  | CfPrimary fcb fcv func =>
      let b := Z.lor PRM_BIT (Z.land (FuncCodePrimary_code func) FUNC_MASK) in
      let b := or_if fcb FCB_ACD_BIT b in
      or_if fcv FCV_DFC_BIT b
  | CfSecondary acd dfc func =>
      let b := Z.land (FuncCodeSecondary_code func) FUNC_MASK in
      let b := or_if acd FCB_ACD_BIT b in
      or_if dfc FCV_DFC_BIT b
  end.

(** frame101/control.rs 192-214, ControlField::decode. *)
Definition ControlField_decode (byte : Z) (direction : Direction) : option ControlField :=
  let fcb_acd := has_bits byte FCB_ACD_BIT in
  let fcv_dfc := has_bits byte FCV_DFC_BIT in
  let nibble := Z.land byte FUNC_MASK in
  match direction with
  | DirPrimary =>
      match FuncCodePrimary_from_nibble nibble with
      | Some func => Some (CfPrimary fcb_acd fcv_dfc func) | None => None end
  | DirSecondary =>
      match FuncCodeSecondary_from_nibble nibble with
      | Some func => Some (CfSecondary fcb_acd fcv_dfc func) | None => None end
  end.

Definition direction_of (c : ControlField) : Direction :=
  match c with CfPrimary _ _ _ => DirPrimary | CfSecondary _ _ _ => DirSecondary end.

(** ** The codec *)

(** frame101/codec.rs 26-30, START_FIXED. *)
Definition START_FIXED : Z := 0x10.
Definition START_VAR : Z := 0x68.
Definition END_BYTE : Z := 0x16.

(** [u16] addition in a checked build. *)
Definition u16_add (a b : Z) : Result Z := if decide (a + b < 65536) then Ok (a + b) else Panic.

(** frame101/codec.rs 259-270, checksum_fixed. *)
Definition checksum_fixed (control : Z) (address : LinkAddress) (size : LinkAddressSize) : Result Z :=
  let sum := control in
  (match size with
   | LaOne => u16_add sum address
   | LaTwo =>
       u16_add sum (as_u8 address) ≫= fun sum =>
       u16_add sum (as_u8 (Z.shiftr address 8))
   end) ≫= fun sum => Ok (Z.land sum 0xFF).

(** frame101/codec.rs 275-281, checksum_variable. *)
Definition checksum_variable (control : Z) (address : LinkAddress) (size : LinkAddressSize)
    (asdu : bytes) : Result Z :=
  checksum_fixed control address size ≫= fun sum =>
  Ok (as_u8 (fold_left (fun sum b => Z.land (sum + b) 0xFF) asdu sum)).

(** frame101/codec.rs 126-155, Codec::decode_slice (fixed-length arm). *)
Definition decode_fixed_arm (buf : bytes) (addr_size : LinkAddressSize) : Result (option (Frame101 * nat)) :=
  let total := (1 + 1 + la_len addr_size + 1 + 1)%nat in
  if (length buf <? total)%nat then Ok None else
  index buf 1 ≫= fun control =>
  let la_start := 2%nat in
  let la_end := (la_start + la_len addr_size)%nat in
  slice buf la_start la_end ≫= fun la =>
  LinkAddress_decode_from la addr_size ≫= fun addr =>
  match addr with
  | None => Panic
  | Some address =>
      index buf la_end ≫= fun cs_wire =>
      index buf (la_end + 1) ≫= fun end_ =>
      if negb (end_ =? END_BYTE) then Err (InvalidEndByte END_BYTE end_) else
      checksum_fixed control address addr_size ≫= fun cs_calc =>
      if negb (cs_calc =? cs_wire) then Err (ChecksumMismatch cs_calc cs_wire) else
      Ok (Some (FFixed control address, total))
  end.

(** frame101/codec.rs 199-240, Codec::decode_slice (validation of a complete
    variable-length frame). *)
Definition decode_var_body (buf : bytes) (addr_size : LinkAddressSize) (len : nat) :
    Result (option (Frame101 * nat)) :=
  let total := (4 + len + 2)%nat in
  index buf 3 ≫= fun second_start =>
  if negb (second_start =? START_VAR) then Err (InvalidStartByte START_VAR second_start) else
  index buf 4 ≫= fun control =>
  let la_start := 5%nat in
  let la_end := (la_start + la_len addr_size)%nat in
  slice buf la_start la_end ≫= fun la =>
  LinkAddress_decode_from la addr_size ≫= fun addr =>
  match addr with
  | None => Panic
  | Some address =>
      let asdu_start := la_end in
      let asdu_end := (4 + len)%nat in
      slice buf asdu_start asdu_end ≫= fun asdu =>
      index buf asdu_end ≫= fun cs_wire =>
      index buf (asdu_end + 1) ≫= fun end_ =>
      if negb (end_ =? END_BYTE) then Err (InvalidEndByte END_BYTE end_) else
      checksum_variable control address addr_size asdu ≫= fun cs_calc =>
      if negb (cs_calc =? cs_wire) then Err (ChecksumMismatch cs_calc cs_wire) else
      Ok (Some (FVariable control address asdu, total))
  end.

(** frame101/codec.rs 158-241, Codec::decode_slice (variable-length arm). *)
Definition decode_var_arm (buf : bytes) (addr_size : LinkAddressSize) : Result (option (Frame101 * nat)) :=
  if (length buf <? 6)%nat then Ok None else
  index buf 1 ≫= fun l1 =>
  index buf 2 ≫= fun l2 =>
  if negb (l1 =? l2) then Err (LengthOctetsDiffer l1 l2) else
  let len := Z.to_nat l1 in
  let min_length := (1 + la_len addr_size)%nat in
  if (len <? min_length)%nat then Err (LengthMismatch len min_length) else
  if (length buf <? 4)%nat then Ok None else
  let total := (4 + len + 2)%nat in
  if (length buf <? total)%nat then Ok None else
  decode_var_body buf addr_size len.

(** frame101/codec.rs 110-249, Codec::decode_slice. *)
Definition decode_slice101 (buf : bytes) (addr_size : LinkAddressSize) : Result (option (Frame101 * nat)) :=
  match buf with
  | [] => Ok None
  | b0 :: _ =>
      match SingleChar_from_byte b0 with
      | Some sc => Ok (Some (FSingle sc, 1%nat))
      | None =>
          if b0 =? START_FIXED then decode_fixed_arm buf addr_size
          else if b0 =? START_VAR then decode_var_arm buf addr_size
          else Err (InvalidStartByte START_FIXED b0)
      end
  end.

Section WithBytes.
Context `{BC : BytesCrate}.

(** frame101/frame.rs 105-110, LinkAddress::encode_to. *)
Definition LinkAddress_encode_to (a : LinkAddress) (size : LinkAddressSize) (buf : bytes) : bytes :=
  match size with LaOne => put_u8 (as_u8 a) buf | LaTwo => put_u16_le a buf end.

(** frame101/codec.rs 58-93, Codec::encode. *)
Definition encode101 (frame : Frame101) (addr_size : LinkAddressSize) (buf : bytes) : Result (nat * bytes) :=
  match frame with
  | FSingle sc => Ok (1%nat, put_u8 (SingleChar_as_byte sc) buf)
  | FFixed control address =>
      checksum_fixed control address addr_size ≫= fun cs =>
      let buf := put_u8 START_FIXED buf in
      let buf := put_u8 control buf in
      let buf := LinkAddress_encode_to address addr_size buf in
      let buf := put_u8 cs buf in
      let buf := put_u8 END_BYTE buf in
      Ok ((2 + la_len addr_size + 2)%nat, buf)
  | FVariable control address asdu =>
      let len := as_u8 (Z.of_nat (1 + la_len addr_size + length asdu)) in
      checksum_variable control address addr_size asdu ≫= fun cs =>
      let buf := put_u8 START_VAR buf in
      let buf := put_u8 len buf in
      let buf := put_u8 len buf in
      let buf := put_u8 START_VAR buf in
      let buf := put_u8 control buf in
      let buf := LinkAddress_encode_to address addr_size buf in
      let buf := put_slice asdu buf in
      let buf := put_u8 cs buf in
      let buf := put_u8 END_BYTE buf in
      Ok ((4 + 1 + la_len addr_size + length asdu + 1 + 1)%nat, buf)
  end.

End WithBytes.

(** ** Address octets and checksums *)

Definition la_octets (size : LinkAddressSize) (a : LinkAddress) : bytes :=
  match size with LaOne => [a] | LaTwo => le_split 2 a end.
Definition la_ok (size : LinkAddressSize) (a : LinkAddress) : Prop :=
  match size with LaOne => is_u8 a | LaTwo => is_u16 a end.
Definition la_value (size : LinkAddressSize) (b : bytes) : LinkAddress :=
  match size with LaOne => hd 0 b | LaTwo => le_join (take 2 b) end.

Lemma length_la_octets size a : length (la_octets size a) = la_len size.
Proof. by destruct size. Qed.
Lemma la_octets_octets size a : la_ok size a -> octets (la_octets size a).
Proof. destruct size; simpl; intros; [apply octets_cons; eauto using octets_nil|apply octets_le_split]. Qed.

(** A slice of the right length is the octets of an address in range. *)
Lemma la_of_octets size la : octets la -> length la = la_len size ->
  ∃ a, la_ok size a /\ la = la_octets size a.
Proof.
  intros Ho Hl. destruct size; simpl in Hl.
  - destruct la as [|x [|]]; try done. apply octets_cons in Ho as [? _]. by exists x.
  - exists (le_join la). pose proof (le_join_bound la Ho) as Hb. rewrite Hl in Hb.
    split; [exact Hb|]. simpl. rewrite <- Hl. symmetry. by apply le_split_join.
Qed.

Lemma la_decode_octets size a : la_ok size a ->
  LinkAddress_decode_from (la_octets size a) size = Ok (Some a).
Proof.
  destruct size; [done|]. intros H.
  transitivity (Ok (Some (le_join (le_split 2 a)))); [done|].
  rewrite le_join_split. unfold la_ok, is_u16 in H. by rewrite Z.mod_small by lia.
Qed.

Lemma land_ff z : Z.land z 0xFF = z mod 256.
Proof. change 0xFF with (Z.ones 8). by rewrite Z.land_ones. Qed.

Lemma bytes_sum_octets b : octets b -> 0 <= bytes_sum b.
Proof.
  induction b as [|x b IH]; intros Ho; [done|]. apply octets_cons in Ho as [Hx Ho].
  specialize (IH Ho). unfold is_u8 in Hx. simpl. lia.
Qed.

(** The checksum covers the control octet and the address octets. *)
Lemma checksum_fixed_sum control a size : is_u8 control -> la_ok size a ->
  checksum_fixed control a size = Ok (bytes_sum (control :: la_octets size a) mod 256).
Proof.
  intros Hc Ha. unfold is_u8 in Hc. unfold checksum_fixed, u16_add. destruct size; simpl in Ha.
  - unfold is_u8 in Ha. rewrite decide_True by lia. rewrite res_bind_ok, land_ff. simpl.
    by rewrite Z.add_0_r.
  - unfold is_u16 in Ha. unfold as_u8. rewrite Z.shiftr_div_pow2 by lia. change (2 ^ 8) with 256.
    rewrite decide_True by lia. rewrite res_bind_ok, decide_True by lia.
    rewrite res_bind_ok, land_ff. do 2 f_equal. change (la_octets LaTwo a) with [a mod 256; a / 256 mod 256]. unfold bytes_sum. cbn [foldr]. lia.
Qed.

Lemma checksum_fold asdu acc :
  fold_left (fun sum b => Z.land (sum + b) 0xFF) asdu (acc mod 256) = (acc + bytes_sum asdu) mod 256.
Proof.
  revert acc. induction asdu as [|b asdu IH]; intros acc; simpl.
  - by rewrite Z.add_0_r.
  - rewrite land_ff, Zplus_mod_idemp_l, IH. f_equal. lia.
Qed.

Lemma checksum_variable_sum control a size asdu : is_u8 control -> la_ok size a ->
  checksum_variable control a size asdu =
    Ok (bytes_sum (control :: la_octets size a ++ asdu) mod 256).
Proof.
  intros Hc Ha. unfold checksum_variable. rewrite checksum_fixed_sum by done. rewrite res_bind_ok.
  rewrite checksum_fold. unfold as_u8. rewrite Z.mod_mod by lia. do 2 f_equal.
  rewrite app_comm_cons, bytes_sum_app. done.
Qed.

(** ** The decoder on complete frames *)

Lemma index_app {A} (p : list A) x s n : n = length p -> index (p ++ x :: s) n = Ok x.
Proof. intros ->. unfold index. by rewrite list_lookup_middle. Qed.

Lemma slice_app {A} (p m s : list A) lo hi :
  lo = length p -> hi = (length p + length m)%nat -> slice (p ++ m ++ s) lo hi = Ok m.
Proof.
  intros -> ->. unfold slice. rewrite decide_True by (rewrite !length_app; lia).
  rewrite drop_app_length. replace (length p + length m - length p)%nat with (length m) by lia.
  by rewrite take_app_length.
Qed.

Lemma decode_fixed size control a cs e rest : is_u8 control -> la_ok size a ->
  decode_slice101 ([START_FIXED; control] ++ la_octets size a ++ [cs; e] ++ rest) size =
    let calc := bytes_sum (control :: la_octets size a) mod 256 in
    if negb (e =? END_BYTE) then Err (InvalidEndByte END_BYTE e) else
    if negb (calc =? cs) then Err (ChecksumMismatch calc cs) else
    Ok (Some (FFixed control a, (4 + la_len size)%nat)).
Proof.
  intros Hc Ha. set (b := [START_FIXED; control] ++ la_octets size a ++ [cs; e] ++ rest).
  assert (Hl : length b = (4 + la_len size + length rest)%nat)
    by (unfold b; rewrite !length_app, length_la_octets; simpl; lia).
  transitivity (
    let total := (1 + 1 + la_len size + 1 + 1)%nat in
    if (length b <? total)%nat then Ok None else
    index b 1 ≫= fun control =>
    slice b 2 (2 + la_len size) ≫= fun la =>
    LinkAddress_decode_from la size ≫= fun addr =>
    match addr with
    | None => Panic
    | Some address =>
        index b (2 + la_len size) ≫= fun cs_wire =>
        index b (2 + la_len size + 1) ≫= fun end_ =>
        if negb (end_ =? END_BYTE) then Err (InvalidEndByte END_BYTE end_) else
        checksum_fixed control address size ≫= fun cs_calc =>
        if negb (cs_calc =? cs_wire) then Err (ChecksumMismatch cs_calc cs_wire) else
        Ok (Some (FFixed control address, total))
    end); [done|]. cbv zeta.
  destruct (Nat.ltb_spec (length b) (1 + 1 + la_len size + 1 + 1)); [lia|].
  change (index b 1) with (Ok control). rewrite res_bind_ok.
  assert (E1 : slice b 2 (2 + la_len size) = Ok (la_octets size a)).
  { apply (slice_app [START_FIXED; control]); rewrite ?length_la_octets; done. }
  rewrite E1, res_bind_ok, la_decode_octets, res_bind_ok by done.
  assert (E2 : index b (2 + la_len size) = Ok cs).
  { apply (index_app (START_FIXED :: control :: la_octets size a)). simpl. by rewrite length_la_octets. }
  assert (E3 : index b (2 + la_len size + 1) = Ok e).
  { replace b with ((START_FIXED :: control :: la_octets size a ++ [cs]) ++ e :: rest)
      by (unfold b; simpl; by rewrite <- app_assoc).
    apply index_app. simpl. rewrite length_app, length_la_octets. simpl. lia. }
  rewrite E2, res_bind_ok, E3, res_bind_ok.
  destruct (negb (e =? END_BYTE)); [done|].
  rewrite checksum_fixed_sum, res_bind_ok by done. destruct (negb _); [done|].
  do 3 f_equal. lia.
Qed.

(** Where the fields of a variable-length frame lie. *)
Lemma var_fields size l1 l2 s2 control a asdu cs e rest :
  let b := [START_VAR; l1; l2; s2; control] ++ la_octets size a ++ asdu ++ [cs; e] ++ rest in
  let last := (4 + (1 + la_len size + length asdu))%nat in
  slice b 5 (5 + la_len size) = Ok (la_octets size a) /\
  slice b (5 + la_len size) last = Ok asdu /\ index b last = Ok cs /\ index b (last + 1) = Ok e.
Proof.
  intros b last. set (p := START_VAR :: l1 :: l2 :: s2 :: control :: la_octets size a).
  assert (Hp : length p = (5 + la_len size)%nat) by (unfold p; simpl; by rewrite length_la_octets).
  split_and!.
  - apply (slice_app [START_VAR; l1; l2; s2; control]); rewrite ?length_la_octets; done.
  - replace b with (p ++ asdu ++ cs :: e :: rest) by (unfold b, p; simpl; by rewrite <- ?app_assoc).
    apply slice_app; rewrite Hp; unfold last; lia.
  - replace b with ((p ++ asdu) ++ cs :: e :: rest) by (unfold b, p; simpl; by rewrite <- ?app_assoc).
    apply index_app. rewrite length_app, Hp. unfold last. lia.
  - replace b with ((p ++ asdu ++ [cs]) ++ e :: rest) by (unfold b, p; simpl; by rewrite <- ?app_assoc).
    apply index_app. rewrite !length_app, Hp. unfold last. simpl. lia.
Qed.

Lemma decode_var size l1 l2 s2 control a asdu cs e rest :
  is_u8 control -> la_ok size a -> Z.to_nat l1 = (1 + la_len size + length asdu)%nat ->
  decode_slice101 ([START_VAR; l1; l2; s2; control] ++ la_octets size a ++ asdu ++ [cs; e] ++ rest) size =
    let calc := bytes_sum (control :: la_octets size a ++ asdu) mod 256 in
    if negb (l1 =? l2) then Err (LengthOctetsDiffer l1 l2) else
    if negb (s2 =? START_VAR) then Err (InvalidStartByte START_VAR s2) else
    if negb (e =? END_BYTE) then Err (InvalidEndByte END_BYTE e) else
    if negb (calc =? cs) then Err (ChecksumMismatch calc cs) else
    Ok (Some (FVariable control a asdu, (7 + la_len size + length asdu)%nat)).
Proof.
  intros Hc Ha Hlen.
  set (b := [START_VAR; l1; l2; s2; control] ++ la_octets size a ++ asdu ++ [cs; e] ++ rest).
  assert (Hl : length b = (7 + la_len size + length asdu + length rest)%nat)
    by (unfold b; rewrite !length_app, length_la_octets; simpl; lia).
  transitivity (
    if (length b <? 6)%nat then Ok None else
    if negb (l1 =? l2) then Err (LengthOctetsDiffer l1 l2) else
    let len := Z.to_nat l1 in
    if (len <? 1 + la_len size)%nat then Err (LengthMismatch len (1 + la_len size)) else
    if (length b <? 4)%nat then Ok None else
    if (length b <? 4 + len + 2)%nat then Ok None else
    if negb (s2 =? START_VAR) then Err (InvalidStartByte START_VAR s2) else
    slice b 5 (5 + la_len size) ≫= fun la =>
    LinkAddress_decode_from la size ≫= fun addr =>
    match addr with
    | None => Panic
    | Some address =>
        slice b (5 + la_len size) (4 + len) ≫= fun asdu =>
        index b (4 + len) ≫= fun cs_wire =>
        index b (4 + len + 1) ≫= fun end_ =>
        if negb (end_ =? END_BYTE) then Err (InvalidEndByte END_BYTE end_) else
        checksum_variable control address size asdu ≫= fun cs_calc =>
        if negb (cs_calc =? cs_wire) then Err (ChecksumMismatch cs_calc cs_wire) else
        Ok (Some (FVariable control address asdu, (4 + len + 2)%nat))
    end); [done|]. cbv zeta. rewrite Hlen, Hl.
  destruct (Nat.ltb_spec (7 + la_len size + length asdu + length rest) 6); [lia|].
  destruct (negb (l1 =? l2)); [done|].
  destruct (Nat.ltb_spec (1 + la_len size + length asdu) (1 + la_len size)); [lia|].
  destruct (Nat.ltb_spec (7 + la_len size + length asdu + length rest) 4); [lia|].
  destruct (Nat.ltb_spec (7 + la_len size + length asdu + length rest)
    (4 + (1 + la_len size + length asdu) + 2)); [lia|].
  destruct (negb (s2 =? START_VAR)); [done|].
  destruct (var_fields size l1 l2 s2 control a asdu cs e rest) as (E1 & E2 & E3 & E4). fold b in E1, E2, E3, E4.
  rewrite E1, res_bind_ok, la_decode_octets, res_bind_ok by done.
  rewrite E2, res_bind_ok, E3, res_bind_ok, E4, res_bind_ok.
  destruct (negb (e =? END_BYTE)); [done|].
  rewrite checksum_variable_sum, res_bind_ok by done. destruct (negb _); [done|].
  do 3 f_equal. lia.
Qed.

(** ** The frame as octets *)

Definition frame_octets (size : LinkAddressSize) (f : Frame101) : bytes :=
  match f with
  | FSingle sc => [SingleChar_as_byte sc]
  | FFixed control a =>
      [START_FIXED; control] ++ la_octets size a ++
      [bytes_sum (control :: la_octets size a) mod 256; END_BYTE]
  | FVariable control a asdu =>
      let l := Z.of_nat (1 + la_len size + length asdu) in
      [START_VAR; l; l; START_VAR; control] ++ la_octets size a ++ asdu ++
      [bytes_sum (control :: la_octets size a ++ asdu) mod 256; END_BYTE]
  end.

(** A frame whose fields fit, including the one-octet length. *)
Definition frame_ok (size : LinkAddressSize) (f : Frame101) : Prop :=
  match f with
  | FSingle _ => True
  | FFixed control a => is_u8 control /\ la_ok size a
  | FVariable control a asdu =>
      is_u8 control /\ la_ok size a /\ octets asdu /\ (1 + la_len size + length asdu <= 255)%nat
  end.

Lemma length_frame_octets size f :
  length (frame_octets size f) =
    match f with FSingle _ => 1 | FFixed _ _ => 4 + la_len size
               | FVariable _ _ asdu => 7 + la_len size + length asdu end%nat.
Proof. destruct f; simpl; rewrite ?length_app, ?length_la_octets; simpl; rewrite ?length_app; simpl; lia. Qed.

Lemma octets_frame_octets size f : frame_ok size f -> octets (frame_octets size f).
Proof.
  assert (Hs : ∀ z, is_u8 (z mod 256)) by (intros; unfold is_u8; lia).
  destruct f as [sc|c a|c a asdu]; simpl; intros Hok; repeat first [rewrite octets_app|rewrite octets_cons].
  - split; [by destruct sc|apply octets_nil].
  - destruct Hok as [Hc Ha]. split_and!; try done; try apply octets_nil. by apply la_octets_octets.
  - destruct Hok as (Hc & Ha & Ho & Hl). split_and!; try done; try apply octets_nil;
      try (unfold is_u8; lia). by apply la_octets_octets.
Qed.

Lemma decode_frame_octets size f rest : frame_ok size f ->
  decode_slice101 (frame_octets size f ++ rest) size = Ok (Some (f, length (frame_octets size f))).
Proof.
  intros Hok. rewrite length_frame_octets. destruct f as [sc|c a|c a asdu].
  - by destruct sc.
  - destruct Hok as [Hc Ha]. unfold frame_octets. rewrite <- !app_assoc.
    rewrite decode_fixed by done. cbv zeta. by rewrite !Z.eqb_refl.
  - destruct Hok as (Hc & Ha & _ & _). unfold frame_octets. cbv zeta. rewrite <- !app_assoc.
    rewrite decode_var by (done || by rewrite Nat2Z.id). cbv zeta. by rewrite !Z.eqb_refl.
Qed.

(** ** Arbitrary input *)

(** Splitting a long enough buffer at the address. *)
Lemma split_la size s : octets s -> (la_len size <= length s)%nat ->
  ∃ a t, la_ok size a /\ s = la_octets size a ++ t /\ octets t.
Proof.
  intros Ho Hl.
  destruct (la_of_octets size (take (la_len size) s)) as (a & Ha & E);
    [by apply octets_take|rewrite length_take; lia|].
  exists a, (drop (la_len size) s). rewrite <- E, take_drop. split_and!; [done..|by apply octets_drop].
Qed.

Lemma split_two (s : bytes) : (2 <= length s)%nat -> ∃ x y t, s = x :: y :: t.
Proof. destruct s as [|x [|y t]]; simpl; intros; [lia..|eauto]. Qed.

Lemma split_at (s : bytes) n : (n <= length s)%nat -> ∃ u t, s = u ++ t /\ length u = n.
Proof. intros. exists (take n s), (drop n s). rewrite take_drop, length_take. split; [done|lia]. Qed.

(** A fixed frame is a complete one or waits for more. *)
Lemma fixed_cases size b : octets (START_FIXED :: b) ->
  ((length b < 3 + la_len size)%nat /\ decode_slice101 (START_FIXED :: b) size = Ok None) \/
  ∃ control a cs e rest, is_u8 control /\ la_ok size a /\ is_u8 cs /\
    START_FIXED :: b = [START_FIXED; control] ++ la_octets size a ++ [cs; e] ++ rest.
Proof.
  intros Ho. apply octets_cons in Ho as [_ Ho].
  destruct (decide (length b < 3 + la_len size)%nat) as [Hl|Hl].
  - left. split; [done|].
    change (decode_slice101 (START_FIXED :: b) size) with (decode_fixed_arm (START_FIXED :: b) size).
    unfold decode_fixed_arm. cbv zeta.
    destruct (Nat.ltb_spec (length (START_FIXED :: b)) (1 + 1 + la_len size + 1 + 1)) as [|H]; [done|].
    cbn [length] in H. lia.
  - right. destruct b as [|control b]; [simpl in Hl; lia|]. apply octets_cons in Ho as [Hc Ho].
    cbn [length] in Hl. destruct (split_la size b Ho) as (a & t & Ha & -> & Ht); [lia|].
    rewrite length_app, length_la_octets in Hl. destruct (split_two t) as (cs & e & rest & ->); [lia|].
    apply octets_cons in Ht as [Hcs _]. exists control, a, cs, e, rest. done.
Qed.

(** The variable-length arm once six octets are there. *)
Lemma decode_var_eq size l1 l2 t : (3 <= length t)%nat ->
  decode_slice101 (START_VAR :: l1 :: l2 :: t) size =
    if negb (l1 =? l2) then Err (LengthOctetsDiffer l1 l2) else
    if (Z.to_nat l1 <? 1 + la_len size)%nat then Err (LengthMismatch (Z.to_nat l1) (1 + la_len size)) else
    if (length t <? 3 + Z.to_nat l1)%nat then Ok None else
    decode_var_body (START_VAR :: l1 :: l2 :: t) size (Z.to_nat l1).
Proof.
  intros Ht. set (buf := START_VAR :: l1 :: l2 :: t).
  assert (Hbl : length buf = (3 + length t)%nat) by done.
  change (decode_slice101 buf size) with (decode_var_arm buf size).
  unfold decode_var_arm. change (index buf 1) with (Ok l1). change (index buf 2) with (Ok l2).
  rewrite !res_bind_ok, Hbl. cbv zeta.
  destruct (Nat.ltb_spec (3 + length t) 6); [lia|]. destruct (Nat.ltb_spec (3 + length t) 4); [lia|].
  destruct (negb (l1 =? l2)); [done|]. destruct (_ <? 1 + la_len size)%nat; [done|].
  destruct (Nat.ltb_spec (3 + length t) (4 + Z.to_nat l1 + 2)), (Nat.ltb_spec (length t) (3 + Z.to_nat l1));
    done || lia.
Qed.

(** A variable frame waits for six octets, then for its announced length,
    unless its length octets are already wrong. *)
Lemma var_cases size b : octets (START_VAR :: b) ->
  ((length b < 5)%nat /\ decode_slice101 (START_VAR :: b) size = Ok None) \/
  ∃ l1 l2 t, b = l1 :: l2 :: t /\ (3 <= length t)%nat /\
    ((l1 ≠ l2 /\ ∀ c, decode_slice101 (START_VAR :: b ++ c) size = Err (LengthOctetsDiffer l1 l2)) \/
     (l1 = l2 /\ (Z.to_nat l1 < 1 + la_len size)%nat /\
        ∀ c, decode_slice101 (START_VAR :: b ++ c) size =
             Err (LengthMismatch (Z.to_nat l1) (1 + la_len size))) \/
     (l1 = l2 /\ (length t < 3 + Z.to_nat l1)%nat /\ decode_slice101 (START_VAR :: b) size = Ok None) \/
     ∃ s2 control a asdu cs e rest, l1 = l2 /\ is_u8 control /\ la_ok size a /\ octets asdu /\ is_u8 cs /\
       Z.to_nat l1 = (1 + la_len size + length asdu)%nat /\
       START_VAR :: b = [START_VAR; l1; l2; s2; control] ++ la_octets size a ++ asdu ++ [cs; e] ++ rest).
Proof.
  intros Ho. apply octets_cons in Ho as [_ Ho].
  destruct (decide (length b < 5)%nat) as [Hl|Hl].
  { left. split; [done|]. by destruct b as [|? [|? [|? [|? [|]]]]]; try (simpl in Hl; lia). }
  right. destruct b as [|l1 [|l2 t]]; try (simpl in Hl; lia). exists l1, l2, t.
  cbn [length] in Hl. split_and!; [done|lia|].
  assert (Hred : ∀ c, decode_slice101 (START_VAR :: l1 :: l2 :: t ++ c) size = _)
    by (intros c; apply decode_var_eq; rewrite length_app; lia). cbn [app].
  destruct (Z.eqb_spec l1 l2) as [->|Hne].
  2: { left. split; [done|]. intros c. by rewrite Hred. }
  right. cbn [negb] in Hred. destruct (Nat.ltb_spec (Z.to_nat l2) (1 + la_len size)) as [Hm|Hm].
  { left. split_and!; [done..|]. intros c. by rewrite Hred. }
  right. destruct (decide (length t < 3 + Z.to_nat l2)%nat) as [Hs|Hs].
  { left. split_and!; [done..|]. specialize (Hred []). rewrite app_nil_r in Hred. rewrite Hred.
    by destruct (Nat.ltb_spec (length t) (3 + Z.to_nat l2)); [|lia]. }
  right. clear Hred. rewrite !octets_cons in Ho. destruct Ho as (_ & _ & Ho).
  destruct t as [|s2 [|control t]]; try (simpl in Hs; lia). rewrite !octets_cons in Ho.
  destruct Ho as (_ & Hc & Ho). cbn [length] in Hs.
  destruct (split_la size t Ho) as (a & u & Ha & -> & Hu); [lia|].
  rewrite length_app, length_la_octets in Hs.
  destruct (split_at u (Z.to_nat l2 - 1 - la_len size)) as (asdu & v & -> & Hasdu); [lia|].
  rewrite length_app in Hs. apply octets_app in Hu as [Hu Hv].
  destruct (split_two v) as (cs & e & rest & ->); [lia|]. apply octets_cons in Hv as [Hcs _].
  exists s2, control, a, asdu, cs, e, rest. split_and!; try done. lia.
Qed.

Lemma decode101_start b0 b size : SingleChar_from_byte b0 = None -> b0 ≠ START_FIXED -> b0 ≠ START_VAR ->
  decode_slice101 (b0 :: b) size = Err (InvalidStartByte START_FIXED b0).
Proof.
  intros H1 H2 H3. unfold decode_slice101. rewrite H1.
  destruct (Z.eqb_spec b0 START_FIXED); [done|]. by destruct (Z.eqb_spec b0 START_VAR).
Qed.

(** The outcome of decoding: nothing yet, a frame that is the canonical
    reading of the octets it consumed, or one of five errors. *)
Definition decode101_outcome (size : LinkAddressSize) (b : bytes) (r : Result (option (Frame101 * nat))) : Prop :=
  match r with
  | Ok None => True
  | Ok (Some (f, n)) => frame_ok size f /\ n = length (frame_octets size f) /\ take n b = frame_octets size f
  | Err (InvalidStartByte _ _) | Err (InvalidEndByte _ _) | Err (ChecksumMismatch _ _)
  | Err (LengthOctetsDiffer _ _) | Err (LengthMismatch _ _) => True
  | _ => False
  end.

Lemma outcome_frame size f rest : frame_ok size f ->
  decode101_outcome size (frame_octets size f ++ rest) (Ok (Some (f, length (frame_octets size f)))).
Proof. intros H. simpl. by rewrite take_app_length. Qed.

Lemma decode101_total b size : octets b -> decode101_outcome size b (decode_slice101 b size).
Proof.
  intros Ho. destruct b as [|b0 b]; [done|].
  destruct (SingleChar_from_byte b0) as [sc|] eqn:Es.
  { assert (E : b0 = SingleChar_as_byte sc).
    { apply octets_cons in Ho as [Hb _]. unfold is_u8 in Hb. clear -Es Hb. zcases Hb; first [discriminate Es | by injection Es as <-]. }
    rewrite E. destruct sc; apply (outcome_frame size (FSingle _) b I). }
  destruct (decide (b0 = START_FIXED)) as [->|Hf].
  { destruct (fixed_cases size b Ho) as [[_ ->]|(c & a & cs & e & rest & Hc & Ha & Hcs & E)]; [done|].
    rewrite E, decode_fixed by done. cbv zeta.
    destruct (Z.eqb_spec e END_BYTE) as [->|]; [|done].
    destruct (Z.eqb_spec (bytes_sum (c :: la_octets size a) mod 256) cs) as [<-|]; [|done]. cbn [negb].
    pose proof (outcome_frame size (FFixed c a) rest (conj Hc Ha)) as H.
    rewrite length_frame_octets in H. unfold frame_octets in H at 1. rewrite <- !app_assoc in H. exact H. }
  destruct (decide (b0 = START_VAR)) as [->|Hv]; [|by rewrite decode101_start].
  destruct (var_cases size b Ho) as [[_ ->]|(l1 & l2 & t & -> & Ht & Hcase)]; [done|].
  destruct Hcase as [[_ E]|[(_ & _ & E)|[(_ & _ & E)|Hfull]]];
    [specialize (E []); rewrite app_nil_r in E; by rewrite E..|by rewrite E|].
  destruct Hfull as (s2 & c & a & asdu & cs & e & rest & <- & Hc & Ha & Has & Hcs & Hlen & E).
  rewrite !octets_cons in Ho. destruct Ho as (_ & Hl1 & _). unfold is_u8 in Hl1.
  rewrite E, decode_var by done. cbv zeta. rewrite Z.eqb_refl. cbn [negb].
  destruct (Z.eqb_spec s2 START_VAR) as [->|]; [|done]. destruct (Z.eqb_spec e END_BYTE) as [->|]; [|done].
  destruct (Z.eqb_spec (bytes_sum (c :: la_octets size a ++ asdu) mod 256) cs) as [<-|]; [|done]. cbn [negb].
  pose proof (outcome_frame size (FVariable c a asdu) rest) as H.
  rewrite length_frame_octets in H. unfold frame_octets in H at 1. cbv zeta in H. rewrite <- !app_assoc in H.
  replace l1 with (Z.of_nat (1 + la_len size + length asdu)) by lia.
  apply H. split_and!; [done..|lia].
Qed.

Lemma decode101_extend b c size r : octets (b ++ c) ->
  decode_slice101 b size = r -> r ≠ Ok None -> decode_slice101 (b ++ c) size = r.
Proof.
  intros Ho <- Hr. destruct b as [|b0 b]; [done|]. cbn [app] in *.
  assert (Ho' : octets (b0 :: b)) by (rewrite app_comm_cons in Ho; by apply octets_app in Ho as [? _]).
  destruct (SingleChar_from_byte b0) as [sc|] eqn:Es.
  { unfold decode_slice101. by rewrite Es. }
  destruct (decide (b0 = START_FIXED)) as [->|Hf].
  { destruct (fixed_cases size b Ho') as [[_ E]|(k & a & cs & e & rest & Hc & Ha & Hcs & E)]; [done|].
    rewrite app_comm_cons, E. rewrite <- !app_assoc. by rewrite !decode_fixed. }
  destruct (decide (b0 = START_VAR)) as [->|Hv]; [|by rewrite !decode101_start].
  destruct (var_cases size b Ho') as [[_ E]|(l1 & l2 & t & -> & Ht & Hcase)]; [done|].
  destruct Hcase as [[_ E]|[(_ & _ & E)|[(_ & _ & E)|Hfull]]]; [|..|done|].
  - rewrite E. specialize (E []). rewrite app_nil_r in E. by rewrite E.
  - rewrite E. specialize (E []). rewrite app_nil_r in E. by rewrite E.
  - destruct Hfull as (s2 & k & a & asdu & cs & e & rest & <- & Hc & Ha & Has & Hcs & Hlen & E).
    rewrite app_comm_cons, E. rewrite <- !app_assoc. by rewrite !decode_var.
Qed.

(** ** Corruption *)

(** Changing one octet of a list changes its sum modulo 256. *)
Lemma bytes_sum_insert b i x y : b !! i = Some x -> bytes_sum (<[i := y]> b) = bytes_sum b - x + y.
Proof.
  revert i. induction b as [|z b IH]; intros [|i]; simpl; try done.
  - intros [= ->]. lia.
  - intros H. rewrite IH by done. lia.
Qed.

Lemma sum_differs b i x y : octets b -> b !! i = Some x -> is_u8 y -> y ≠ x ->
  (bytes_sum (<[i := y]> b) mod 256 =? bytes_sum b mod 256) = false.
Proof.
  intros Hb Hx Hy Hxy. rewrite (bytes_sum_insert b i x) by done.
  assert (is_u8 x) by (by eapply Forall_lookup_1 in Hb). unfold is_u8 in *.
  apply Z.eqb_neq. lia.
Qed.

(** The octets the checksum covers, as one list. *)
Lemma insert_covered size (c : Z) a asdu i y :
  octets (c :: la_octets size a ++ asdu) -> is_u8 y ->
  (i < 1 + la_len size + length asdu)%nat ->
  ∃ c' a' asdu', is_u8 c' /\ la_ok size a' /\ octets asdu' /\ length asdu' = length asdu /\
    <[i := y]> (c :: la_octets size a ++ asdu) = c' :: la_octets size a' ++ asdu'.
Proof.
  intros Ho Hy Hi.
  assert (Ho' : octets (<[i := y]> (c :: la_octets size a ++ asdu))) by (by apply Forall_insert).
  assert (Hl : length (<[i := y]> (c :: la_octets size a ++ asdu)) = (1 + la_len size + length asdu)%nat)
    by (rewrite length_insert; simpl; by rewrite length_app, length_la_octets).
  destruct (<[i := y]> (c :: la_octets size a ++ asdu)) as [|c' s]; [done|].
  apply octets_cons in Ho' as [Hc' Hs]. cbn [length] in Hl.
  destruct (split_la size s Hs) as (a' & t & Ha' & -> & Ht); [lia|].
  exists c', a', t. rewrite length_app, length_la_octets in Hl. split_and!; try done. lia.
Qed.

Lemma insert_tail {A} (p s : list A) i y : (length p <= i)%nat -> <[i := y]> (p ++ s) = p ++ <[(i - length p)%nat := y]> s.
Proof. intros H. by rewrite insert_app_r_alt. Qed.

(** [decode_var] with the covered octets kept together. *)
Lemma decode_covered size n l1 l2 s2 c a asdu cs e rest :
  is_u8 c -> la_ok size a -> length asdu = n -> Z.to_nat l1 = (1 + la_len size + n)%nat ->
  decode_slice101 (([START_VAR; l1; l2; s2] ++ (c :: la_octets size a ++ asdu) ++ [cs; e]) ++ rest) size =
    let calc := bytes_sum (c :: la_octets size a ++ asdu) mod 256 in
    if negb (l1 =? l2) then Err (LengthOctetsDiffer l1 l2) else
    if negb (s2 =? START_VAR) then Err (InvalidStartByte START_VAR s2) else
    if negb (e =? END_BYTE) then Err (InvalidEndByte END_BYTE e) else
    if negb (calc =? cs) then Err (ChecksumMismatch calc cs) else
    Ok (Some (FVariable c a asdu, (7 + la_len size + length asdu)%nat)).
Proof.
  intros Hc Ha <- Hl1. rewrite <- (decode_var size l1 l2 s2 c a asdu cs e rest) by done.
  f_equal. simpl. by rewrite <- !app_assoc.
Qed.

Section CorruptVar.
Context (size : LinkAddressSize) (c a : Z) (asdu rest : bytes).
Hypothesis Hok : frame_ok size (FVariable c a asdu).

Definition var_len : Z := Z.of_nat (1 + la_len size + length asdu).
Definition covered : bytes := c :: la_octets size a ++ asdu.

Lemma covered_octets : octets covered.
Proof.
  destruct Hok as (Hc & Ha & Ho & _). apply octets_cons. split; [done|].
  apply octets_app. split; [by apply la_octets_octets|done].
Qed.
Lemma length_covered : length covered = (1 + la_len size + length asdu)%nat.
Proof. unfold covered. simpl. by rewrite length_app, length_la_octets. Qed.
Lemma var_octets : frame_octets size (FVariable c a asdu) =
  [START_VAR; var_len; var_len; START_VAR] ++ covered ++ [bytes_sum covered mod 256; END_BYTE].
Proof. unfold frame_octets, covered. simpl. by rewrite <- !app_assoc. Qed.
Lemma var_len_nat : Z.to_nat var_len = (1 + la_len size + length asdu)%nat.
Proof. unfold var_len. by rewrite Nat2Z.id. Qed.

(** A change in the two length octets or the second start octet. *)
Lemma corrupt_var_header i x y tl : (1 <= i)%nat -> (i < 4)%nat ->
  [START_VAR; var_len; var_len; START_VAR] !! i = Some x -> is_u8 y -> y ≠ x ->
  ∃ e, decode_slice101 ((<[i := y]> [START_VAR; var_len; var_len; START_VAR] ++ covered ++ tl :: [END_BYTE]) ++ rest) size = Err e.
Proof.
  intros Hi H4 Hx Hy Hxy. destruct Hok as (Hc & Ha & _ & Hl).
  destruct i as [|[|[|[|i]]]]; try lia; injection Hx as <-; cbn [insert list_insert app].
  - exists (LengthOctetsDiffer y var_len). unfold covered. cbn [app].
    rewrite decode_var_eq by (simpl; rewrite !length_app; simpl; lia). by destruct (Z.eqb_spec y var_len).
  - exists (LengthOctetsDiffer var_len y). unfold covered. cbn [app].
    rewrite decode_var_eq by (simpl; rewrite !length_app; simpl; lia). by destruct (Z.eqb_spec var_len y).
  - eexists. etrans; [apply (decode_covered size (length asdu) var_len var_len y c a asdu); done || apply var_len_nat|].
    cbv zeta. rewrite Z.eqb_refl. cbn [negb]. destruct (Z.eqb_spec y START_VAR); [done|]. reflexivity.
Qed.

(** A change behind the header: in the covered octets, the checksum or the end octet. *)
Lemma corrupt_var_body j x y :
  (covered ++ [bytes_sum covered mod 256; END_BYTE]) !! j = Some x -> is_u8 y -> y ≠ x ->
  ∃ e, decode_slice101 (([START_VAR; var_len; var_len; START_VAR] ++
    <[j := y]> (covered ++ [bytes_sum covered mod 256; END_BYTE])) ++ rest) size = Err e.
Proof.
  intros Hx Hy Hxy. destruct Hok as (Hc & Ha & _ & Hl). pose proof length_covered as Hlc.
  destruct (decide (j < length covered)%nat) as [Hj|Hj].
  - rewrite lookup_app_l in Hx by done. rewrite insert_app_l by done.
    destruct (insert_covered size c a asdu j y covered_octets Hy) as (c' & a' & asdu' & Hc' & Ha' & Ho' & Hl' & E');
      [lia|]. fold covered in E'. rewrite E'.
    eexists. etrans; [apply (decode_covered size (length asdu) var_len var_len START_VAR c' a' asdu'); done || apply var_len_nat|].
    cbv zeta. rewrite !Z.eqb_refl. cbn [negb].
    rewrite <- E', (sum_differs covered j x y covered_octets) by done. reflexivity.
  - rewrite insert_tail by lia. rewrite lookup_app_r in Hx by lia.
    destruct (j - length covered)%nat as [|[|m]]; cbn [lookup list_lookup] in Hx; [injection Hx as <-|injection Hx as <-|done];
      cbn [insert list_insert]; eexists;
      (etrans; [apply (decode_covered size (length asdu) var_len var_len START_VAR c a asdu); done || apply var_len_nat|]);
      cbv zeta; rewrite !Z.eqb_refl; cbn [negb].
    + fold covered. destruct (Z.eqb_spec (bytes_sum covered mod 256) y) as [Eq|]; [by destruct Hxy; rewrite <- Eq|]. reflexivity.
    + destruct (Z.eqb_spec y END_BYTE); [done|]. reflexivity.
Qed.

Lemma corrupt_var i x y : (1 <= i)%nat ->
  frame_octets size (FVariable c a asdu) !! i = Some x -> is_u8 y -> y ≠ x ->
  ∃ e, decode_slice101 (<[i := y]> (frame_octets size (FVariable c a asdu)) ++ rest) size = Err e.
Proof.
  rewrite var_octets. intros Hi Hx Hy Hxy. destruct (decide (i < 4)%nat) as [H4|H4].
  - rewrite lookup_app_l in Hx by (simpl; lia). rewrite insert_app_l by (simpl; lia).
    by eapply corrupt_var_header.
  - rewrite lookup_app_r in Hx by (simpl; lia). rewrite insert_tail by (simpl; lia).
    by eapply corrupt_var_body.
Qed.
End CorruptVar.

Lemma corrupt_fixed size c a i x y rest :
  frame_ok size (FFixed c a) -> (1 <= i)%nat ->
  frame_octets size (FFixed c a) !! i = Some x -> is_u8 y -> y ≠ x ->
  ∃ e, decode_slice101 (<[i := y]> (frame_octets size (FFixed c a)) ++ rest) size = Err e.
Proof.
  intros (Hc & Ha) Hi Hx Hy Hxy. set (cov := c :: la_octets size a ++ []).
  assert (Hcov : octets cov) by (unfold cov; rewrite app_nil_r; apply octets_cons; split; [done|by apply la_octets_octets]).
  assert (Hlc : length cov = (1 + la_len size)%nat)
    by (unfold cov; rewrite app_nil_r; simpl; by rewrite length_la_octets).
  assert (E : frame_octets size (FFixed c a) = [START_FIXED] ++ cov ++ [bytes_sum cov mod 256; END_BYTE])
    by (unfold frame_octets, cov; by rewrite app_nil_r).
  assert (Hdec : ∀ c' a' cs e, is_u8 c' -> la_ok size a' ->
    decode_slice101 (([START_FIXED] ++ (c' :: la_octets size a' ++ []) ++ [cs; e]) ++ rest) size =
    let calc := bytes_sum (c' :: la_octets size a' ++ []) mod 256 in
    if negb (e =? END_BYTE) then Err (InvalidEndByte END_BYTE e) else
    if negb (calc =? cs) then Err (ChecksumMismatch calc cs) else
    Ok (Some (FFixed c' a', (4 + la_len size)%nat))).
  { intros c' a' cs e Hc' Ha'. rewrite !app_nil_r, <- (decode_fixed size c' a' cs e rest) by done. f_equal. simpl. by rewrite <- !app_assoc. }
  rewrite E in *. rewrite insert_tail by (simpl; lia). cbn [length]. rewrite lookup_app_r in Hx by (simpl; lia).
  cbn [length] in Hx. remember (i - 1)%nat as j eqn:Ej. destruct (decide (j < length cov)%nat) as [Hj|Hj].
  - rewrite lookup_app_l in Hx by done. rewrite insert_app_l by done.
    destruct (insert_covered size c a [] j y Hcov Hy) as (c' & a' & asdu' & Hc' & Ha' & Ho' & Hl' & E');
      [simpl; lia|]. destruct asdu'; [|done]. fold cov in E'. rewrite E'.
    eexists. etrans; [by apply (Hdec c' a')|]. cbv zeta. rewrite Z.eqb_refl. cbn [negb].
    rewrite <- E', (sum_differs cov j x y) by done. reflexivity.
  - rewrite insert_tail by lia. rewrite lookup_app_r in Hx by lia.
    destruct (j - length cov)%nat as [|[|m]]; cbn [lookup list_lookup] in Hx; [injection Hx as <-|injection Hx as <-|done];
      cbn [insert list_insert].
    + eexists. etrans; [by apply (Hdec c a)|]. cbv zeta. rewrite Z.eqb_refl. cbn [negb]. fold cov.
      destruct (Z.eqb_spec (bytes_sum cov mod 256) y) as [Eq|]; [by destruct Hxy; rewrite <- Eq|]. reflexivity.
    + eexists. etrans; [by apply (Hdec c a)|]. cbv zeta.
      destruct (Z.eqb_spec y END_BYTE); [done|]. reflexivity.
Qed.

Section Properties.
Context `{BC : BytesCrate}.

Lemma LinkAddress_encode_app a size buf : la_ok size a ->
  LinkAddress_encode_to a size buf = buf ++ la_octets size a.
Proof.
  destruct size; simpl; intros H; autorewrite with buf; [|done].
  unfold as_u8, is_u8 in *. by rewrite Z.mod_small.
Qed.

Lemma encode101_eq f size buf : frame_ok size f ->
  encode101 f size buf = Ok (length (frame_octets size f), buf ++ frame_octets size f).
Proof.
  intros Hok. rewrite length_frame_octets. destruct f as [sc|c a|c a asdu]; cbn [encode101].
  - by rewrite put_u8_spec.
  - destruct Hok as [Hc Ha]. rewrite checksum_fixed_sum, res_bind_ok by done. cbv zeta.
    rewrite !put_u8_spec, LinkAddress_encode_app by done. rewrite <- !app_assoc.
    do 2 f_equal. lia.
  - destruct Hok as (Hc & Ha & Ho & Hl). rewrite checksum_variable_sum, res_bind_ok by done. cbv zeta.
    rewrite !put_u8_spec, put_slice_spec, LinkAddress_encode_app by done.
    rewrite <- !app_assoc. unfold as_u8. rewrite Z.mod_small by lia.
    do 2 f_equal. lia.
Qed.

(** ** The properties of the codec *)

(** A frame that fits is encoded as its FT 1.2 octets, the returned count
    is what was written, and decoding reads exactly that frame back from the
    front of whatever follows. *)
Theorem frame101_roundtrip f size buf rest : frame_ok size f ->
  ∃ w, encode101 f size buf = Ok (length w, buf ++ w) /\
    decode_slice101 (w ++ rest) size = Ok (Some (f, length w)).
Proof.
  intros Hok. exists (frame_octets size f). split; [by apply encode101_eq|by apply decode_frame_octets].
Qed.

(** C19. On arbitrary octets the decoder never panics: it waits, reports one
    of the five framing errors, or returns a frame that is in range and whose
    encoding is exactly the octets it consumed, so no octet string is read in
    two ways. *)
Theorem frame101_decode_canonical b size : octets b ->
  match decode_slice101 b size with
  | Ok None => True
  | Ok (Some (f, n)) => frame_ok size f /\ encode101 f size [] = Ok (n, take n b)
  | Err (InvalidStartByte _ _) | Err (InvalidEndByte _ _) | Err (ChecksumMismatch _ _)
  | Err (LengthOctetsDiffer _ _) | Err (LengthMismatch _ _) => True
  | _ => False
  end.
Proof.
  intros Ho. pose proof (decode101_total b size Ho) as H. unfold decode101_outcome in H.
  destruct (decode_slice101 b size) as [[[f n]|]|[]|]; try done.
  destruct H as (Hok & -> & Ht). split; [done|]. rewrite Ht. by apply encode101_eq.
Qed.

(** On a proper beginning of a frame the decoder waits. *)
Lemma frame101_waits size f n : frame_ok size f -> (n < length (frame_octets size f))%nat ->
  decode_slice101 (take n (frame_octets size f)) size = Ok None.
Proof.
  intros Hok Hn.
  assert (Ho := octets_frame_octets size f Hok).
  destruct (decide (decode_slice101 (take n (frame_octets size f)) size = Ok None)) as [|Hne]; [done|].
  assert (Hx := decode101_extend (take n (frame_octets size f)) (drop n (frame_octets size f)) size _
    ltac:(by rewrite take_drop) eq_refl Hne).
  rewrite take_drop in Hx. assert (Hd := decode_frame_octets size f [] Hok). rewrite app_nil_r, Hx in Hd.
  assert (Ht := decode101_total (take n (frame_octets size f)) size (octets_take _ _ Ho)).
  rewrite Hd in Ht. destruct Ht as (_ & _ & Ht). apply (f_equal length) in Ht.
  rewrite length_take, length_take in Ht. lia.
Qed.

(** Decoding does not depend on how the octets arrive: a verdict on a
    buffer is the verdict on every extension of it, and on every proper prefix
    of an encoded frame the decoder waits. *)
Theorem frame101_incremental size :
  (∀ b c r, octets (b ++ c) -> decode_slice101 b size = r -> r ≠ Ok None ->
     decode_slice101 (b ++ c) size = r) /\
  (∀ f n, frame_ok size f -> (n < length (frame_octets size f))%nat ->
     decode_slice101 (take n (frame_octets size f)) size = Ok None).
Proof.
  split; [intros; by apply decode101_extend|intros; by apply frame101_waits].
Qed.

(** C39. A single corrupted octet is detected: replacing any one octet of a
    fixed- or variable-length frame after its start octet by a different octet
    value makes the decoder report an error. *)
Theorem frame101_detects_corruption f size i x y rest :
  frame_ok size f -> (∀ sc, f ≠ FSingle sc) -> (1 <= i)%nat ->
  frame_octets size f !! i = Some x -> is_u8 y -> y ≠ x ->
  ∃ e, decode_slice101 (<[i := y]> (frame_octets size f) ++ rest) size = Err e.
Proof.
  intros Hok Hns Hi Hx Hy Hxy. destruct f as [sc|c a|c a asdu]; [by destruct (Hns sc)|..].
  - by eapply corrupt_fixed.
  - by eapply corrupt_var.
Qed.

End Properties.

(** Control fields survive the wire: decoding the encoded octet in the
    sender's direction gives the same flags and function code, the octet fits
    seven bits (the reserved bit is clear) and its PRM bit says which station
    sent it. *)
Theorem control_field_roundtrip c :
  ControlField_decode (ControlField_encode c) (direction_of c) = Some c /\
  0 <= ControlField_encode c < 128 /\
  has_bits (ControlField_encode c) PRM_BIT = bool_decide (direction_of c = DirPrimary).
Proof.
  destruct c as [fcb fcv f|acd dfc f].
  - destruct fcb, fcv, f; vm_compute; done.
  - destruct acd, dfc, f; vm_compute; done.
Qed.

(** ** Concrete frames *)

Definition sample_frame : Frame101 := FVariable 0x73 258 [100; 1; 6; 0; 1; 0; 0; 0; 20].

Lemma sample_frame_ok : frame_ok LaTwo sample_frame.
Proof. split_and!; [split; lia..|repeat constructor; lia|simpl; lia]. Qed.

Lemma frame101_roundtrip_witness :
  ∃ w, encode101 sample_frame LaTwo [1] = Ok (length w, [1] ++ w) /\
    decode_slice101 (w ++ [2]) LaTwo = Ok (Some (sample_frame, length w)).
Proof. apply (frame101_roundtrip (BC := slice_bytes)). apply sample_frame_ok. Defined.

Lemma frame101_decode_canonical_witness :
  frame_ok LaOne (FFixed 0x49 5) /\ encode101 (FFixed 0x49 5) LaOne [] = Ok (5%nat, [0x10; 0x49; 5; 0x4E; 0x16]).
Proof.
  assert (Hb : octets [0x10; 0x49; 5; 0x4E; 0x16; 9]) by (repeat constructor; lia).
  exact (frame101_decode_canonical (BC := slice_bytes) [0x10; 0x49; 5; 0x4E; 0x16; 9] LaOne Hb).
Defined.

Lemma frame101_incremental_witness :
  decode_slice101 ([0xE5] ++ [1]) LaOne = Ok (Some (FSingle ScAck, 1%nat)) /\
  decode_slice101 (take 7 (frame_octets LaTwo sample_frame)) LaTwo = Ok None.
Proof.
  split.
  - apply (proj1 (frame101_incremental LaOne)); [repeat constructor; lia|reflexivity|discriminate].
  - apply (proj2 (frame101_incremental LaTwo)); [apply sample_frame_ok|].
    apply Nat.ltb_lt. reflexivity.
Defined.

Lemma frame101_detects_corruption_witness :
  ∃ e, decode_slice101 (<[7%nat := 5]> (frame_octets LaTwo sample_frame) ++ []) LaTwo = Err e.
Proof.
  apply (frame101_detects_corruption sample_frame LaTwo 7 100 5 []).
  - apply sample_frame_ok.
  - discriminate.
  - apply Nat.leb_le. reflexivity.
  - reflexivity.
  - split; lia.
  - discriminate.
Defined.

(** ** Behaviour at the edges *)

(** The encoder does not check the ASDU's length: with 255 octets the length
    octet wraps to 1 and the written frame is rejected by the decoder. *)
Lemma oversize_asdu_is_misframed :
  ∃ w, encode101 (FVariable 0 1 (replicate 255 0)) LaOne [] = Ok (263%nat, w) /\
    decode_slice101 w LaOne = Err (LengthMismatch 1 2).
Proof. eexists. split; vm_compute; reflexivity. Qed.

(** With one-octet link addresses the checksum adds the whole [u16] address,
    so an address above 65280 overflows the sum before it is masked. *)
Lemma wide_address_overflows : encode101 (FFixed 0xFF 65281) LaOne [] = Panic.
Proof. vm_compute. reflexivity. Qed.
