(* ===== verification/Link101.v ===== *)
(** * The IEC 60870-5-101 link layer

    [frame101/link.rs]: the unbalanced-mode state machine, for the master and
    for the outstation. As in the source one [Link] record holds the state of
    either role and [lk_handle] dispatches on it; the actions are collected in
    the state and returned at the end of the call. Names that clash with the
    104 connection carry the prefix [lk]. *)

From S2P Require Import Prelude Frame101.

(** frame101/link.rs 39-49, Config. *)
Record LkConfig := mkLkConfig {
  link_address : LinkAddress; addr_size : LinkAddressSize; timeout : Duration; max_retries : Z }.
(** frame101/link.rs 51-60, Config::default. *)
Definition LkConfig_default : LkConfig := mkLkConfig 0 LaOne 1000 3.
(** frame101/link.rs 68-73, Role. *)
Inductive LkRole := Master | Outstation.
(** frame101/link.rs 77-87, Mode. *)
Inductive Mode := Unbalanced | Balanced.
(** frame101/link.rs 95-102, LinkState. *)
Inductive LinkState := NotReady | Ready | Failed.
(** frame101/link.rs 110-125, Input. *)
Inductive LkInput :=
| FrameReceived (f : Frame101) | LkTick | SendUserData (asdu : bytes) | InRequestStatus
| InResetRemoteLink | InRequestClass1 | InRequestClass2.
(** frame101/link.rs 129-136, Reason. *)
Inductive Reason := LkAckTimeout | LkNack | LkProtocolError.
(** frame101/link.rs 140-149, Action. *)
Inductive LkAction :=
| SendFrame (f : Frame101) | LkDeliver (asdu : bytes) | LinkStateChanged (s : LinkState)
| LinkError (r : Reason).
(** frame101/link.rs 157-164, PendingSend. *)
Record PendingSend := mkPending { ps_frame : Frame101; sent_at : Instant; attempts : Z }.

#[export] Instance LkRole_eq_dec : EqDecision LkRole.
Proof. solve_decision. Defined.
#[export] Instance Mode_eq_dec : EqDecision Mode.
Proof. solve_decision. Defined.
#[export] Instance LinkState_eq_dec : EqDecision LinkState.
Proof. solve_decision. Defined.
#[export] Instance Reason_eq_dec : EqDecision Reason.
Proof. solve_decision. Defined.
#[export] Instance LkAction_eq_dec : EqDecision LkAction.
Proof. solve_decision. Defined.
#[export] Instance PendingSend_eq_dec : EqDecision PendingSend.
Proof. solve_decision. Defined.

(** frame101/link.rs 195-212, Connection. *)
Record Link := mkLink {
  lk_role : LkRole; lk_mode : Mode; lk_config : LkConfig; link_state : LinkState;
  fcb : bool; last_fcb_seen : option bool; lk_pending : option PendingSend;
  send_queue : list bytes; lk_actions : list LkAction }.

(** frame101/link.rs 220-236, Connection::new. *)
Definition Link_new (role : LkRole) (mode : Mode) (cfg : LkConfig) : Result Link :=
  if negb (bool_decide (mode ≠ Balanced)) then Panic else
  Ok (mkLink role mode cfg NotReady false None None [] []).

(** Field updates. *)
Definition set_link_state v c := let '(mkLink ro mo cf _ fc la pe qu ac) := c in mkLink ro mo cf v fc la pe qu ac.
Definition set_fcb v c := let '(mkLink ro mo cf st _ la pe qu ac) := c in mkLink ro mo cf st v la pe qu ac.
Definition set_last_fcb v c := let '(mkLink ro mo cf st fc _ pe qu ac) := c in mkLink ro mo cf st fc v pe qu ac.
Definition set_lk_pending v c := let '(mkLink ro mo cf st fc la _ qu ac) := c in mkLink ro mo cf st fc la v qu ac.
Definition set_queue v c := let '(mkLink ro mo cf st fc la pe _ ac) := c in mkLink ro mo cf st fc la pe v ac.
Definition lk_push a c := let '(mkLink ro mo cf st fc la pe qu ac) := c in
  mkLink ro mo cf st fc la pe qu (ac ++ [a]).
Definition lk_clear c := let '(mkLink ro mo cf st fc la pe qu _) := c in mkLink ro mo cf st fc la pe qu [].

(** frame101/link.rs 664-666, Connection::emit_link_error. *)
Definition emit_link_error (r : Reason) (c : Link) : Link := lk_push (LinkError r) c.

(** frame101/link.rs 657-662, Connection::transition_link. *)
Definition transition_link (s : LinkState) (c : Link) : Link :=
  if negb (bool_decide (link_state c = s)) then lk_push (LinkStateChanged s) (set_link_state s c) else c.

(** frame101/link.rs 597-602, Connection::build_fixed. *)
Definition build_fixed (cf : ControlField) (c : Link) : Frame101 :=
  FFixed (ControlField_encode cf) (link_address (lk_config c)).

(** frame101/link.rs 588-595, Connection::send_with_confirm. *)
Definition send_with_confirm (f : Frame101) (now : Instant) (c : Link) : Link :=
  let c := lk_push (SendFrame f) c in
  set_lk_pending (Some (mkPending f now 1)) c.

(** frame101/link.rs 604-615, Connection::send_ack. *)
Definition send_ack (c : Link) : Link :=
  lk_push (SendFrame (build_fixed (CfSecondary false false FcAck) c)) c.
(** frame101/link.rs 617-628, Connection::send_status. *)
Definition send_status (c : Link) : Link :=
  lk_push (SendFrame (build_fixed (CfSecondary false false StatusOfLink) c)) c.
(** frame101/link.rs 630-642, Connection::send_respond_user_data. *)
Definition send_respond_user_data (asdu : bytes) (c : Link) : Link :=
  lk_push (SendFrame (FVariable (ControlField_encode (CfSecondary false false RespondUserData))
    (link_address (lk_config c)) asdu)) c.
(** frame101/link.rs 644-655, Connection::send_nack_no_data. *)
Definition send_nack_no_data (c : Link) : Link :=
  lk_push (SendFrame (build_fixed (CfSecondary false false NackNoData) c)) c.

(** frame101/link.rs 567-586, Connection::maybe_flush_queue. *)
Definition maybe_flush_queue (now : Instant) (c : Link) : Link :=
  match lk_pending c with
  | Some _ => c
  | None =>
      match send_queue c with
      | [] => c
      | asdu :: queue =>
          let c := set_queue queue c in
          let cf := CfPrimary (fcb c) true UserDataConfirmed in
          let frame := FVariable (ControlField_encode cf) (link_address (lk_config c)) asdu in
          let c := send_with_confirm frame now c in
          set_fcb (negb (fcb c)) c
      end
  end.

(** frame101/link.rs 327-368, Connection::master_on_secondary_fixed. *)
Definition master_on_secondary_fixed (cf : ControlField) (now : Instant) (c : Link) : Link :=
  match cf with
  | CfSecondary _ _ FcAck =>
      match lk_pending c with
      | Some _ =>
          let c := set_lk_pending None c in
          let c := match link_state c with NotReady => transition_link Ready c | _ => c end in
          maybe_flush_queue now c
      | None => c
      end
  | CfSecondary _ _ FcNack => emit_link_error LkNack (set_lk_pending None c)
  | CfSecondary _ _ StatusOfLink =>
      let c := set_lk_pending None c in
      match link_state c with NotReady => transition_link Ready c | _ => c end
  | CfSecondary _ _ NackNoData => set_lk_pending None c
  | _ => emit_link_error LkProtocolError c
  end.

(** frame101/link.rs 279-325, Connection::master_on_frame. *)
Definition master_on_frame (f : Frame101) (now : Instant) (c : Link) : Link :=
  match f with
  | FSingle ScAck =>
      match lk_pending c with
      | Some _ => maybe_flush_queue now (set_lk_pending None c)
      | None => c
      end
  | FSingle ScNack => emit_link_error LkNack (set_lk_pending None c)
  | FFixed control _ =>
      match ControlField_decode control DirSecondary with
      | Some cf => master_on_secondary_fixed cf now c
      | None => emit_link_error LkProtocolError c
      end
  | FVariable control _ asdu =>
      match ControlField_decode control DirSecondary with
      | Some (CfSecondary _ _ RespondUserData) => lk_push (LkDeliver asdu) (set_lk_pending None c)
      | _ => emit_link_error LkProtocolError c
      end
  end.

(** frame101/link.rs 401-436, Connection::outstation_on_primary_fixed. *)
Definition outstation_on_primary_fixed (cf : ControlField) (c : Link) : Link :=
  match cf with
  | CfPrimary _ _ ResetRemoteLink =>
      let c := set_last_fcb None c in
      let c := send_ack c in
      transition_link Ready c
  | CfPrimary _ _ RequestStatus => send_status c
  | CfPrimary _ _ RequestUserDataClass1 | CfPrimary _ _ RequestUserDataClass2 =>
      match send_queue c with
      | asdu :: queue => send_respond_user_data asdu (set_queue queue c)
      | [] => send_nack_no_data c
      end
  | _ => c
  end.

(** frame101/link.rs 438-471, Connection::outstation_on_primary_variable. *)
Definition outstation_on_primary_variable (cf : ControlField) (asdu : bytes) (c : Link) : Link :=
  match cf with
  | CfPrimary fcb fcv UserDataConfirmed =>
      let duplicate := if fcv then bool_decide (last_fcb_seen c = Some fcb) else false in
      let c := if fcv then set_last_fcb (Some fcb) c else c in
      let c := send_ack c in
      if negb duplicate then lk_push (LkDeliver asdu) c else c
  | CfPrimary _ _ UserDataUnconfirmed => lk_push (LkDeliver asdu) c
  | _ => c
  end.

(** frame101/link.rs 372-399, Connection::outstation_on_frame. *)
Definition outstation_on_frame (f : Frame101) (c : Link) : Link :=
  match f with
  | FFixed control address =>
      if negb (address =? link_address (lk_config c)) then c else
      match ControlField_decode control DirPrimary with
      | Some cf => outstation_on_primary_fixed cf c
      | None => c
      end
  | FVariable control address asdu =>
      if negb (address =? link_address (lk_config c)) then c else
      match ControlField_decode control DirPrimary with
      | Some cf => outstation_on_primary_variable cf asdu c
      | None => c
      end
  | FSingle _ => c
  end.

(** frame101/link.rs 270-275, Connection::on_frame. *)
Definition on_frame (f : Frame101) (now : Instant) (c : Link) : Link :=
  match lk_role c with
  | Master => master_on_frame f now c
  | Outstation => outstation_on_frame f c
  end.

(** frame101/link.rs 475-487, Connection::on_send_user_data. *)
Definition on_send_user_data (asdu : bytes) (now : Instant) (c : Link) : Link :=
  match lk_role c with
  | Master => maybe_flush_queue now (set_queue (send_queue c ++ [asdu]) c)
  | Outstation => set_queue (send_queue c ++ [asdu]) c
  end.

(** frame101/link.rs 489-503, Connection::on_request_status. *)
Definition on_request_status (now : Instant) (c : Link) : Link :=
  match lk_role c, lk_pending c with
  | Master, None => send_with_confirm (build_fixed (CfPrimary false false RequestStatus) c) now c
  | _, _ => c
  end.

(** frame101/link.rs 505-518, Connection::on_reset_remote_link. *)
Definition on_reset_remote_link (now : Instant) (c : Link) : Link :=
  match lk_role c with
  | Master =>
      let c := set_lk_pending None c in
      send_with_confirm (build_fixed (CfPrimary false false ResetRemoteLink) c) now c
  | Outstation => c
  end.

(** frame101/link.rs 520-534, Connection::on_request_class. *)
Definition on_request_class (func : FuncCodePrimary) (now : Instant) (c : Link) : Link :=
  match lk_role c, lk_pending c with
  | Master, None => send_with_confirm (build_fixed (CfPrimary false false func) c) now c
  | _, _ => c
  end.

(** frame101/link.rs 538-563, Connection::run_timers. *)
Definition lk_run_timers (now : Instant) (c : Link) : Link :=
  match lk_pending c with
  | None => c
  | Some p =>
      if timeout (lk_config c) <=? since now (sent_at p) then
        if max_retries (lk_config c) <? attempts p then
          let c := set_lk_pending None c in
          let c := if negb (bool_decide (link_state c = Failed))
                   then lk_push (LinkStateChanged Failed) (set_link_state Failed c) else c in
          lk_push (LinkError LkAckTimeout) c
        else
          let c := set_lk_pending (Some (mkPending (ps_frame p) now (as_u8 (attempts p + 1)))) c in
          lk_push (SendFrame (ps_frame p)) c
      else c
  end.

Definition lk_on_input (i : LkInput) (now : Instant) (c : Link) : Link :=
  match i with
  | FrameReceived f => on_frame f now c
  | LkTick => c
  | SendUserData asdu => on_send_user_data asdu now c
  | InRequestStatus => on_request_status now c
  | InResetRemoteLink => on_reset_remote_link now c
  | InRequestClass1 => on_request_class RequestUserDataClass1 now c
  | InRequestClass2 => on_request_class RequestUserDataClass2 now c
  end.

(** frame101/link.rs 248-264, Connection::handle. *)
Definition lk_handle (i : LkInput) (now : Instant) (c : Link) : Link * list LkAction :=
  let c := lk_run_timers now (lk_on_input i now c) in
  (lk_clear c, lk_actions c).

Fixpoint lk_session (inputs : list (LkInput * Instant)) (c : Link) : Link * list LkAction :=
  match inputs with
  | [] => (c, [])
  | (i, now) :: inputs' =>
      let '(c1, a1) := lk_handle i now c in
      let '(c2, a2) := lk_session inputs' c1 in (c2, a1 ++ a2)
  end.

Arguments ControlField_encode : simpl never.
Arguments ControlField_decode : simpl never.
Arguments lk_handle : simpl never.
Arguments since : simpl never.

(** ** Observing a session *)

Definition lk_frame_of (a : LkAction) : option Frame101 :=
  match a with SendFrame f => Some f | _ => None end.
Definition lk_frames (acts : list LkAction) : list Frame101 := omap lk_frame_of acts.
Definition lk_delivery_of (a : LkAction) : option bytes :=
  match a with LkDeliver d => Some d | _ => None end.
Definition lk_delivered (acts : list LkAction) : list bytes := omap lk_delivery_of acts.
Definition lk_submission (i : LkInput) : option bytes :=
  match i with SendUserData d => Some d | _ => None end.
Definition lk_submitted (inputs : list (LkInput * Instant)) : list bytes :=
  omap (fun p => lk_submission p.1) inputs.

Lemma lk_frames_app a b : lk_frames (a ++ b) = lk_frames a ++ lk_frames b.
Proof. apply omap_app. Qed.
Lemma lk_delivered_app a b : lk_delivered (a ++ b) = lk_delivered a ++ lk_delivered b.
Proof. apply omap_app. Qed.

Lemma lk_session_app a b c :
  lk_session (a ++ b) c =
  let '(c1, a1) := lk_session a c in let '(c2, a2) := lk_session b c1 in (c2, a1 ++ a2).
Proof.
  revert c. induction a as [|[i now] a IH]; intros c; cbn [app lk_session].
  - by destruct (lk_session b c).
  - destruct (lk_handle i now c) as [c1 a1]. rewrite IH.
    destruct (lk_session a c1) as [c2 a2]. destruct (lk_session b c2). by rewrite app_assoc.
Qed.

(** The frame a master builds for an ASDU, and for a request. *)
Definition user_frame (addr : LinkAddress) (b : bool) (asdu : bytes) : Frame101 :=
  FVariable (ControlField_encode (CfPrimary b true UserDataConfirmed)) addr asdu.
Definition request_frame (addr : LinkAddress) (func : FuncCodePrimary) : Frame101 :=
  FFixed (ControlField_encode (CfPrimary false false func)) addr.
Definition response_frame (addr : LinkAddress) (func : FuncCodeSecondary) : Frame101 :=
  FFixed (ControlField_encode (CfSecondary false false func)) addr.
Definition is_request (f : FuncCodePrimary) : Prop :=
  f = ResetRemoteLink \/ f = RequestStatus \/ f = RequestUserDataClass1 \/ f = RequestUserDataClass2.

Lemma request_decodes func : ControlField_decode (ControlField_encode (CfPrimary false false func)) DirPrimary
  = Some (CfPrimary false false func).
Proof. by destruct func. Qed.
Lemma user_decodes b : ControlField_decode (ControlField_encode (CfPrimary b true UserDataConfirmed)) DirPrimary
  = Some (CfPrimary b true UserDataConfirmed).
Proof. by destruct b. Qed.
Lemma response_decodes func : ControlField_decode (ControlField_encode (CfSecondary false false func)) DirSecondary
  = Some (CfSecondary false false func).
Proof. by destruct func. Qed.

(** ** The outstation, frame by frame *)

(** An idle outstation: what [Link_new] builds and every call returns. *)
Record outstation_ok (addr : LinkAddress) (o : Link) : Prop := {
  out_role : lk_role o = Outstation;
  out_addr : link_address (lk_config o) = addr;
  out_pending : lk_pending o = None;
  out_actions : lk_actions o = []; }.

Lemma outstation_user addr b asdu now o : outstation_ok addr o ->
  ∃ o', lk_handle (FrameReceived (user_frame addr b asdu)) now o =
    (o', SendFrame (response_frame addr FcAck) ::
         if bool_decide (last_fcb_seen o = Some b) then [] else [LkDeliver asdu]) /\
    outstation_ok addr o' /\ last_fcb_seen o' = Some b /\ send_queue o' = send_queue o.
Proof.
  intros [Hr Ha Hp Hac]. destruct o as [ro mo cf st fc la pe qu ac]. simpl in *. subst.
  unfold lk_handle, lk_on_input, on_frame, outstation_on_frame, user_frame. simpl.
  rewrite Z.eqb_refl, user_decodes. simpl. destruct (bool_decide _); simpl;
  (eexists; split; [reflexivity|by split_and!]).
Qed.

(** What an outstation answers to a request, given its queue. *)
Definition answer (addr : LinkAddress) (func : FuncCodePrimary) (queue : list bytes) : list Frame101 :=
  match func with
  | ResetRemoteLink => [response_frame addr FcAck]
  | RequestStatus => [response_frame addr StatusOfLink]
  | RequestUserDataClass1 | RequestUserDataClass2 =>
      match queue with
      | asdu :: _ => [FVariable (ControlField_encode (CfSecondary false false RespondUserData)) addr asdu]
      | [] => [response_frame addr NackNoData]
      end
  | _ => []
  end.
Definition queue_after (func : FuncCodePrimary) (queue : list bytes) : list bytes :=
  match func with
  | RequestUserDataClass1 | RequestUserDataClass2 => tail queue
  | _ => queue
  end.

Lemma outstation_request addr func now o : outstation_ok addr o ->
  ∃ o' acts, lk_handle (FrameReceived (request_frame addr func)) now o = (o', acts) /\
    lk_frames acts = answer addr func (send_queue o) /\ lk_delivered acts = [] /\
    outstation_ok addr o' /\ send_queue o' = queue_after func (send_queue o) /\
    last_fcb_seen o' = (match func with ResetRemoteLink => None | _ => last_fcb_seen o end).
Proof.
  intros [Hr Ha Hp Hac]. destruct o as [ro mo cf st fc la pe qu ac]. simpl in *. subst.
  unfold lk_handle, lk_on_input, on_frame, outstation_on_frame, request_frame. simpl.
  rewrite Z.eqb_refl, request_decodes.
  destruct func; simpl; try (eexists _, _; split; [reflexivity|]; by split_and!).
  - unfold transition_link. simpl. destruct st; simpl; (eexists _, _; split; [reflexivity|]; by split_and!).
  - destruct qu; simpl; (eexists _, _; split; [reflexivity|]; by split_and!).
  - destruct qu; simpl; (eexists _, _; split; [reflexivity|]; by split_and!).
Qed.

(** ** Every ASDU once: the frame count bit *)

(** The frames [fs] arriving at an outstation at time [t]. *)
Definition feed (t : Instant) (fs : list Frame101) (o : Link) : Link * list LkAction :=
  lk_session ((fun f => (FrameReceived f, t)) <$> fs) o.

Lemma feed_app t a b o :
  feed t (a ++ b) o = let '(o1, x) := feed t a o in let '(o2, y) := feed t b o1 in (o2, x ++ y).
Proof. unfold feed. rewrite fmap_app. apply lk_session_app. Qed.

Section Fcb.
Context (t : Instant) (addr : LinkAddress) (o0 : Link).

(** [last_fcb_seen] cannot be mistaken for the bit of a new frame. *)
Definition fcb_clear (m o : Link) : Prop :=
  last_fcb_seen o = None \/ last_fcb_seen o = Some (negb (fcb m)).

Definition pending_ok (m o : Link) : Prop :=
  ∀ p, lk_pending m = Some p ->
    (∃ asdu, ps_frame p = user_frame addr (negb (fcb m)) asdu /\ last_fcb_seen o = Some (negb (fcb m))) \/
    (∃ func, is_request func /\ ps_frame p = request_frame addr func).

(** The state of a master against that of an outstation that has received
    every frame in [log] and in the actions not yet returned. *)
Definition fresh_inv (log : list LkAction) (subs : list bytes) (m : Link) : Prop :=
  lk_role m = Master /\ link_address (lk_config m) = addr /\
  ∃ o obs, feed t (lk_frames (log ++ lk_actions m)) o0 = (o, obs) /\ outstation_ok addr o /\
    fcb_clear m o /\ pending_ok m o /\ lk_delivered obs ++ send_queue m = subs.

(** Steps that send nothing and leave the frame count bit alone. *)
Lemma fresh_silent log subs m m' : fresh_inv log subs m ->
  lk_role m' = lk_role m -> lk_config m' = lk_config m -> fcb m' = fcb m ->
  send_queue m' = send_queue m -> lk_frames (lk_actions m') = lk_frames (lk_actions m) ->
  (lk_pending m' = None \/ lk_pending m' = lk_pending m) -> fresh_inv log subs m'.
Proof.
  intros (Hr & Ha & o & obs & Hf & Ho & Hc & Hp & Hs) E1 E2 E3 E4 E5 E6.
  split_and!; [congruence..|]. exists o, obs. rewrite lk_frames_app, E5, <- lk_frames_app.
  unfold fcb_clear, pending_ok. rewrite E3, E4. split_and!; try done.
  destruct E6 as [-> | ->]; [done|exact Hp].
Qed.

Lemma fresh_request log subs m func now : is_request func -> fresh_inv log subs m ->
  fresh_inv log subs (send_with_confirm (request_frame addr func) now m).
Proof.
  intros Hq (Hr & Ha & o & obs & Hf & Ho & Hc & Hp & Hs).
  destruct (outstation_request addr func t o Ho) as (o' & acts & Hh & _ & Hd & Ho' & _ & Hl).
  destruct m as [ro mo cf st fc la pe qu ac]. simpl in *. split_and!; [done..|].
  exists o', (obs ++ acts). simpl in *. split_and!; [|done| | |].
  - rewrite app_assoc, lk_frames_app, feed_app, Hf. unfold feed. cbn. rewrite Hh. by rewrite app_nil_r.
  - unfold fcb_clear in *. simpl in *. destruct func; rewrite Hl; auto.
  - intros p [= <-]. right. by exists func.
  - by rewrite lk_delivered_app, Hd, app_nil_r.
Qed.

Lemma fresh_flush log subs m now : fresh_inv log subs m -> fresh_inv log subs (maybe_flush_queue now m).
Proof.
  intros H. unfold maybe_flush_queue. destruct (lk_pending m) eqn:Ep; [done|].
  destruct (send_queue m) as [|asdu queue] eqn:Eq; [done|].
  destruct H as (Hr & Ha & o & obs & Hf & Ho & Hc & Hp & Hs).
  destruct (outstation_user addr (fcb m) asdu t o Ho) as (o' & Hh & Ho' & Hl & _).
  destruct m as [ro mo cf st fc la pe qu ac]. simpl in *. subst. split_and!; [done..|].
  assert (Hnd : bool_decide (last_fcb_seen o = Some fc) = false).
  { apply bool_decide_eq_false. destruct Hc as [Hc|Hc]; rewrite Hc; [done|]. simpl. by destruct fc. }
  rewrite Hnd in Hh. eexists o', (obs ++ _). simpl. split_and!; [|done| | |].
  - rewrite app_assoc, lk_frames_app, feed_app, Hf. unfold feed. cbn.
    change (FVariable _ _ _) with (user_frame (link_address cf) fc asdu). rewrite Ha, Hh. by rewrite app_nil_r.
  - right. simpl. by rewrite negb_involutive.
  - intros p [= <-]. left. exists asdu. simpl. by rewrite negb_involutive, <- Ha.
  - rewrite lk_delivered_app. cbn. by rewrite <- app_assoc.
Qed.

Lemma fresh_timers log subs m now : fresh_inv log subs m -> fresh_inv log subs (lk_run_timers now m).
Proof.
  intros H. unfold lk_run_timers. destruct (lk_pending m) as [p|] eqn:Ep; [|done].
  destruct (_ <=? _); [|done]. destruct (_ <? _).
  - apply (fresh_silent log subs m); [done|destruct m as [ro mo cf st fc la pe qu ac]; simpl in *; destruct st; simpl; try done..].
    all: rewrite ?lk_frames_app; cbn; rewrite ?app_nil_r; auto.
  - destruct H as (Hr & Ha & o & obs & Hf & Ho & Hc & Hp & Hs). pose proof (Hp p Ep) as Hq.
    destruct m as [ro mo cf st fc la pe qu ac]. simpl in *. split_and!; [done..|].
    destruct Hq as [(asdu & Hfr & Hl)|(func & Hq & Hfr)]; rewrite Hfr.
    + destruct (outstation_user addr (negb fc) asdu t o Ho) as (o' & Hh & Ho' & Hl' & _).
      rewrite bool_decide_true in Hh by done. eexists o', (obs ++ _). simpl. split_and!; [|done| | |].
      * rewrite app_assoc, lk_frames_app, feed_app, Hf. unfold feed. cbn. rewrite Hh. by rewrite app_nil_r.
      * by right.
      * intros p' [= <-]. left. by exists asdu.
      * by rewrite lk_delivered_app, app_nil_r.
    + pose proof (fresh_request log subs (mkLink ro mo cf st fc la pe qu ac) func now Hq) as Hx.
      destruct Hx as (_ & _ & o' & obs' & Hf' & Ho' & Hc' & Hp' & Hs').
      { split_and!; [done..|]. exists o, obs. done. }
      exists o', obs'. split_and!; try done. intros p' [= <-]. right. by exists func.
Qed.

Lemma fresh_enqueue log subs m asdu : fresh_inv log subs m ->
  fresh_inv log (subs ++ [asdu]) (set_queue (send_queue m ++ [asdu]) m).
Proof.
  intros (Hr & Ha & o & obs & Hf & Ho & Hc & Hp & <-). destruct m; simpl in *.
  split_and!; [done..|]. exists o, obs. simpl. by rewrite app_assoc.
Qed.

Ltac silent m := apply (fresh_silent _ _ m); [done|destruct m as [?ro ?mo ?cf ?st ?fc ?la ?pe ?qu ?ac];
  simpl in *; try done; rewrite ?lk_frames_app; cbn; rewrite ?app_nil_r; auto..].

Lemma fresh_transition log subs m s : fresh_inv log subs m -> fresh_inv log subs (transition_link s m).
Proof. intros H. unfold transition_link. destruct (negb _); [silent m|done]. Qed.
Lemma fresh_unpend log subs m : fresh_inv log subs m -> fresh_inv log subs (set_lk_pending None m).
Proof. intros H. silent m. Qed.
Lemma fresh_push log subs m a : lk_frame_of a = None ->
  fresh_inv log subs m -> fresh_inv log subs (lk_push a m).
Proof. intros Ha H. silent m. rewrite Ha. by rewrite app_nil_r. Qed.

Hint Resolve fresh_flush fresh_transition fresh_unpend fresh_push : iec.

Lemma fresh_secondary log subs m cf now : fresh_inv log subs m ->
  fresh_inv log subs (master_on_secondary_fixed cf now m).
Proof.
  intros H. unfold master_on_secondary_fixed, emit_link_error.
  destruct cf as [? ? ?|? ? []]; auto with iec.
  - destruct (lk_pending m); [|done].
    destruct (link_state (set_lk_pending None m)); auto with iec.
  - destruct (link_state (set_lk_pending None m)); auto with iec.
Qed.

Lemma fresh_frame log subs m f now : fresh_inv log subs m -> fresh_inv log subs (master_on_frame f now m).
Proof.
  intros H. unfold master_on_frame, emit_link_error. destruct f as [[]|control ?|control ? ?].
  - destruct (lk_pending m); auto with iec.
  - auto with iec.
  - destruct (ControlField_decode _ _); auto using fresh_secondary with iec.
  - destruct (ControlField_decode _ _) as [[? ? ?|? ? []]|]; auto with iec.
Qed.

Lemma fresh_build log subs m func now : is_request func -> fresh_inv log subs m ->
  fresh_inv log subs (send_with_confirm (build_fixed (CfPrimary false false func) m) now m).
Proof.
  intros Hq H. pose proof H as (_ & Ha & _). unfold build_fixed. rewrite Ha. by apply fresh_request.
Qed.

Lemma fresh_input log subs m i now : fresh_inv log subs m ->
  fresh_inv log (subs ++ option_list (lk_submission i)) (lk_on_input i now m).
Proof.
  intros H. pose proof H as (Hr & _).
  destruct i as [f| |asdu| | | |]; simpl; rewrite ?app_nil_r.
  - unfold on_frame. rewrite Hr. by apply fresh_frame.
  - done.
  - unfold on_send_user_data. rewrite Hr. by apply fresh_flush, fresh_enqueue.
  - unfold on_request_status. rewrite Hr. destruct (lk_pending m); [done|].
    apply fresh_build; [right; by left|done].
  - unfold on_reset_remote_link. rewrite Hr. apply fresh_build; [by left|auto with iec].
  - unfold on_request_class. rewrite Hr. destruct (lk_pending m); [done|].
    apply fresh_build; [do 2 right; by left|done].
  - unfold on_request_class. rewrite Hr. destruct (lk_pending m); [done|].
    apply fresh_build; [by do 3 right|done].
Qed.

Lemma fresh_handle log subs m i now m' acts : fresh_inv log subs m -> lk_actions m = [] ->
  lk_handle i now m = (m', acts) ->
  fresh_inv (log ++ acts) (subs ++ option_list (lk_submission i)) m' /\ lk_actions m' = [].
Proof.
  intros H Hac [= <- <-].
  pose proof (fresh_timers _ _ _ now (fresh_input _ _ _ i now H)) as Hx.
  destruct (lk_run_timers now (lk_on_input i now m)); simpl in *. split; [|done].
  destruct Hx as (Hr & Ha & o & obs & Hf & Hx). split_and!; [done..|]. exists o, obs.
  simpl in *. by rewrite app_nil_r.
Qed.

Lemma fresh_session log subs m inputs m' acts : fresh_inv log subs m -> lk_actions m = [] ->
  lk_session inputs m = (m', acts) ->
  fresh_inv (log ++ acts) (subs ++ lk_submitted inputs) m' /\ lk_actions m' = [].
Proof.
  revert log subs m acts. induction inputs as [|[i now] inputs IH]; intros log subs m acts H Hac; cbn [lk_session].
  - intros [= <- <-]. cbn. by rewrite !app_nil_r.
  - destruct (lk_handle i now m) as [m1 a1] eqn:E1. destruct (lk_session inputs m1) as [m2 a2] eqn:E2.
    intros [= <- <-]. destruct (fresh_handle _ _ _ _ _ _ _ H Hac E1) as [H1 Hac1].
    destruct (IH _ _ _ _ H1 Hac1 E2) as [H2 Hac2]. rewrite <- !app_assoc in H2.
    replace (lk_submitted ((i, now) :: inputs)) with (option_list (lk_submission i) ++ lk_submitted inputs); [done|].
    unfold lk_submitted. cbn. by destruct (lk_submission i).
Qed.
End Fcb.

(** Exactly-once delivery by the frame count bit: whatever a master is
    asked to do and whatever arrives at it (acknowledgements or not, NACKs,
    resets, polls, timeouts with their retransmissions), an outstation that
    receives all its frames delivers every ASDU that has left the master's
    queue once and in the order it was submitted: retransmitted frames are
    recognised as such and new ones are never taken for retransmissions. *)
Theorem fcb_exactly_once cfgM cfgO t inputs m o m' acts o' obs :
  Link_new Master Unbalanced cfgM = Ok m -> Link_new Outstation Unbalanced cfgO = Ok o ->
  link_address cfgM = link_address cfgO ->
  lk_session inputs m = (m', acts) -> feed t (lk_frames acts) o = (o', obs) ->
  lk_delivered obs ++ send_queue m' = lk_submitted inputs.
Proof.
  intros Em Eo Ha Hs Hf. injection Em as <-. injection Eo as <-.
  eapply (fresh_session t (link_address cfgO) _ [] []) in Hs as [(_ & _ & o1 & obs1 & Hf1 & _ & _ & _ & H) Hac].
  - rewrite Hac in Hf1. simpl in Hf1. rewrite app_nil_r, Hf in Hf1. by injection Hf1 as <- <-.
  - split_and!; [done..|]. eexists _, []. split_and!; [reflexivity|done|by left|done|done].
  - done.
Qed.

(** Two ASDUs, the first retransmitted after a timeout, with a reset before. *)
Definition sample_inputs : list (LkInput * Instant) :=
  [(InResetRemoteLink, 0); (FrameReceived (response_frame 0 FcAck), 10);
   (SendUserData [1], 20); (LkTick, 1500); (SendUserData [2], 1600);
   (FrameReceived (FSingle ScAck), 1700)].
Definition sample_link (role : LkRole) : Link :=
  mkLink role Unbalanced LkConfig_default NotReady false None None [] [].
Definition sample_acts : list LkAction := (lk_session sample_inputs (sample_link Master)).2.

Lemma fcb_exactly_once_witness :
  length (lk_frames sample_acts) = 4%nat /\
  lk_delivered (feed 0 (lk_frames sample_acts) (sample_link Outstation)).2 ++
  send_queue (lk_session sample_inputs (sample_link Master)).1 = [[1]; [2]].
Proof.
  split; [reflexivity|].
  apply (fcb_exactly_once LkConfig_default LkConfig_default 0 sample_inputs
    (sample_link Master) (sample_link Outstation) _ sample_acts
    (feed 0 (lk_frames sample_acts) (sample_link Outstation)).1 _); reflexivity.
Defined.

(** ** Retransmission *)

(** The retry counter of the pending frame stays between one and
    [max_retries + 1], so its [u8] increment cannot overflow. *)
Definition attempts_ok (cfg : LkConfig) (c : Link) : Prop :=
  lk_config c = cfg /\ ∀ p, lk_pending c = Some p -> 1 <= attempts p <= max_retries cfg + 1.

(** [c'] is [c] with its pending frame kept, dropped or sent for the first time. *)
Lemma attempts_ok_step cfg c c' : attempts_ok cfg c -> lk_config c' = lk_config c -> 0 <= max_retries cfg ->
  (lk_pending c' = lk_pending c \/ lk_pending c' = None \/ ∃ f now, lk_pending c' = Some (mkPending f now 1)) ->
  attempts_ok cfg c'.
Proof.
  intros [<- H] Hc Hm E. split; [done|].
  destruct E as [-> | [-> | (f & now & ->)]]; [done..|]. intros p [= <-]. simpl. lia.
Qed.

Definition pending_step (c c' : Link) : Prop :=
  lk_config c' = lk_config c /\
  (lk_pending c' = lk_pending c \/ lk_pending c' = None \/ ∃ f now, lk_pending c' = Some (mkPending f now 1)).

Lemma pending_step_flush now c c' : pending_step c c' -> pending_step c (maybe_flush_queue now c').
Proof.
  intros [H1 H2]. unfold maybe_flush_queue. destruct (lk_pending c') eqn:Ep; [split; [done|by rewrite Ep]|].
  destruct (send_queue c'); [split; [done|rewrite Ep; auto]|]. destruct c'; simpl in *. split; eauto.
Qed.
Lemma pending_step_transition s c c' : pending_step c c' -> pending_step c (transition_link s c').
Proof. intros [H1 H2]. unfold transition_link. destruct (negb _); destruct c'; by split. Qed.
Lemma pending_step_push a c c' : pending_step c c' -> pending_step c (lk_push a c').
Proof. intros [H1 H2]. destruct c'; by split. Qed.
Lemma pending_step_none c : pending_step c (set_lk_pending None c).
Proof. destruct c. split; simpl; auto. Qed.
Lemma pending_step_refl c : pending_step c c.
Proof. split; auto. Qed.
Lemma pending_step_send f now c c' : lk_config c' = lk_config c -> pending_step c (send_with_confirm f now c').
Proof. intros H. destruct c'; simpl in *. split; simpl; eauto. Qed.
Lemma pending_step_same c c' : lk_config c' = lk_config c -> lk_pending c' = lk_pending c -> pending_step c c'.
Proof. split; auto. Qed.

Create HintDb pstep.
#[export] Hint Resolve pending_step_flush pending_step_transition pending_step_push pending_step_none
  pending_step_refl pending_step_send : pstep.

Lemma pending_step_master f now c : pending_step c (master_on_frame f now c).
Proof.
  unfold master_on_frame, master_on_secondary_fixed, emit_link_error.
  repeat case_match; auto 6 with pstep.
Qed.

Lemma pending_step_outstation f c : pending_step c (outstation_on_frame f c).
Proof.
  unfold outstation_on_frame, outstation_on_primary_fixed, outstation_on_primary_variable,
    send_ack, send_status, send_respond_user_data, send_nack_no_data.
  repeat case_match; auto 6 with pstep; unfold transition_link;
  repeat case_match; apply pending_step_same; by destruct c.
Qed.

Lemma pending_step_input i now c : pending_step c (lk_on_input i now c).
Proof.
  destruct i; simpl; unfold on_frame, on_send_user_data, on_request_status, on_reset_remote_link, on_request_class.
  - destruct (lk_role c); auto using pending_step_master, pending_step_outstation.
  - auto with pstep.
  - destruct (lk_role c); [apply pending_step_flush|]; apply pending_step_same; by destruct c.
  - repeat case_match; auto with pstep.
  - repeat case_match; auto with pstep. apply pending_step_send. by destruct c.
  - repeat case_match; auto with pstep.
  - repeat case_match; auto with pstep.
Qed.

Lemma attempts_ok_handle cfg i now c c' acts : 0 <= max_retries cfg < 255 ->
  attempts_ok cfg c -> lk_handle i now c = (c', acts) -> attempts_ok cfg c'.
Proof.
  intros Hm H [= <- _]. destruct (pending_step_input i now c) as [Hc Hp].
  assert (H1 : attempts_ok cfg (lk_on_input i now c)) by (apply (attempts_ok_step cfg c); [done..|lia|done]).
  revert H1. generalize (lk_on_input i now c). clear -Hm. intros c [<- H]. unfold lk_run_timers.
  destruct (lk_pending c) as [p|] eqn:Ep;
    [|destruct c; simpl in *; split; [done|by rewrite Ep]].
  destruct (_ <=? _); [|destruct c; simpl in *; split; [done|by rewrite Ep]]. specialize (H p eq_refl).
  destruct (_ <? _) eqn:El.
  - destruct c as [ro mo cf st fc la pe qu ac]; simpl in *. by destruct st.
  - destruct c as [ro mo cf st fc la pe qu ac]; simpl in *. split; [done|]. intros p' [= <-].
    apply Z.ltb_ge in El. simpl. unfold as_u8. lia.
Qed.

(** The retry counter of a link in either role stays within
    1..=[max_retries]+1 in every session, whatever the inputs, when
    [max_retries] is below 255; the unchecked [u8] increment cannot wrap. *)
Theorem link_attempts_bounded role cfg inputs c c' acts p :
  0 <= max_retries cfg < 255 ->
  Link_new role Unbalanced cfg = Ok c -> lk_session inputs c = (c', acts) ->
  lk_pending c' = Some p -> 1 <= attempts p <= max_retries cfg + 1.
Proof.
  intros Hm Hn. injection Hn as <-.
  assert (H : attempts_ok cfg (mkLink role Unbalanced cfg NotReady false None None [] [])) by done.
  revert H. generalize (mkLink role Unbalanced cfg NotReady false None None [] []). revert acts.
  induction inputs as [|[i now] inputs IH]; intros acts c H; cbn [lk_session].
  - intros [= <- <-]. by apply H.
  - destruct (lk_handle i now c) as [c1 a1] eqn:E1. destruct (lk_session inputs c1) as [c2 a2] eqn:E2.
    intros [= <- <-]. eapply IH; [|done]. by eapply attempts_ok_handle.
Qed.

(** Instants at least [d] apart, the first one at least [d] after [t0]. *)
Fixpoint spaced (d : Duration) (t0 : Instant) (ts : list Instant) : Prop :=
  match ts with [] => True | t :: ts' => d <= t - t0 /\ spaced d t ts' end.

Lemma since_ge d t0 t : d <= t - t0 -> (d <=? since t t0) = true.
Proof. unfold since. intros. apply Z.leb_le. lia. Qed.

Lemma default_last_cons {A} (d x : A) l : default d (last (x :: l)) = default x (last l).
Proof. rewrite last_cons. by destruct (last l). Qed.

(** While attempts remain, each expiry sends the pending frame again. *)
Lemma retransmit_run ts f : ∀ c t0 k, lk_pending c = Some (mkPending f t0 k) -> lk_actions c = [] ->
  spaced (timeout (lk_config c)) t0 ts -> 1 <= k -> max_retries (lk_config c) < 255 ->
  k + Z.of_nat (length ts) <= max_retries (lk_config c) + 1 ->
  lk_session ((fun t => (LkTick, t)) <$> ts) c =
    (set_lk_pending (Some (mkPending f (default t0 (last ts)) (k + Z.of_nat (length ts)))) c,
     replicate (length ts) (SendFrame f)).
Proof.
  induction ts as [|t ts IH]; intros c t0 k Hp Hac Hs Hk Hm Hn.
  - destruct c as [ro mo cf st fc la pe qu ac]; simpl in *. subst. by rewrite Z.add_0_r.
  - destruct Hs as [Ht Hs]. rewrite fmap_cons. cbn [lk_session].
    destruct c as [ro mo cf st fc la pe qu ac]; simpl in *. subst. unfold lk_handle, lk_run_timers. simpl.
    rewrite since_ge by done. destruct (max_retries cf <? k) eqn:El; [apply Z.ltb_lt in El; lia|]. simpl.
    assert (Ek : as_u8 (k + 1) = k + 1) by (unfold as_u8; lia). rewrite Ek.
    rewrite (IH _ t (k + 1)) by (simpl; try done; lia). cbn [length app replicate set_lk_pending].
    rewrite default_last_cons. replace (k + 1 + Z.of_nat (length ts)) with (k + Z.of_nat (S (length ts))) by lia.
    done.
Qed.

(** The master gives up after [max_retries] retransmissions: with a frame
    pending since its first transmission and no answer, expiry after expiry
    sends exactly [max_retries] further copies of that frame, and the next one
    drops it, moves the link to [Failed] and reports [AckTimeout], once. *)
Theorem link_gives_up c f t0 ts c' acts :
  lk_pending c = Some (mkPending f t0 1) -> lk_actions c = [] ->
  0 <= max_retries (lk_config c) < 255 -> spaced (timeout (lk_config c)) t0 ts ->
  Z.of_nat (length ts) = max_retries (lk_config c) + 1 ->
  lk_session ((fun t => (LkTick, t)) <$> ts) c = (c', acts) ->
  acts = replicate (Z.to_nat (max_retries (lk_config c))) (SendFrame f) ++
         (if bool_decide (link_state c = Failed) then [] else [LinkStateChanged Failed]) ++
         [LinkError LkAckTimeout] /\
  lk_pending c' = None /\ link_state c' = Failed /\ send_queue c' = send_queue c /\ fcb c' = fcb c.
Proof.
  intros Hp Hac Hm Hs Hn. destruct ts as [|tl ts _] using rev_ind; [simpl in Hn; lia|].
  rewrite length_app in Hn. simpl in Hn. rewrite fmap_app, lk_session_app.
  assert (Hsp : spaced (timeout (lk_config c)) t0 ts /\ timeout (lk_config c) <= tl - default t0 (last ts)).
  { clear Hp Hn. revert t0 Hs. induction ts as [|t ts IH]; simpl; intros t0 [H1 H2]; [done|].
    destruct (IH t H2) as [H3 H4]. by rewrite default_last_cons. }
  destruct Hsp as [Hsp Hlast].
  rewrite (retransmit_run ts f c t0 1) by (try done; lia). cbn [fmap list_fmap lk_session].
  replace (length ts) with (Z.to_nat (max_retries (lk_config c))) by lia.
  destruct c as [ro mo cf st fc la pe qu ac]; simpl in *. subst.
  unfold lk_handle, lk_run_timers. simpl. rewrite since_ge by done.
  destruct (max_retries cf <? _) eqn:El; [|apply Z.ltb_ge in El; lia].
  intros [= <- <-]. by destruct st.
Qed.

Lemma link_attempts_bounded_witness :
  1 <= 2 <= max_retries LkConfig_default + 1.
Proof.
  apply (link_attempts_bounded Master LkConfig_default [(SendUserData [1], 20); (LkTick, 1500)]
    (sample_link Master) (lk_session [(SendUserData [1], 20); (LkTick, 1500)] (sample_link Master)).1
    (lk_session [(SendUserData [1], 20); (LkTick, 1500)] (sample_link Master)).2
    (mkPending (user_frame 0 false [1]) 1500 2)); [simpl; lia|reflexivity..].
Defined.

(** A master whose first frame is in flight. *)
Definition waiting_link : Link := (lk_handle (SendUserData [1]) 0 (sample_link Master)).1.
Definition expiries : list (LkInput * Instant) := (fun t => (LkTick, t)) <$> [1000; 2000; 3500; 4500].

Lemma link_gives_up_witness :
  (lk_session expiries waiting_link).2 =
    replicate 3 (SendFrame (user_frame 0 false [1])) ++ [LinkStateChanged Failed; LinkError LkAckTimeout].
Proof.
  apply (link_gives_up waiting_link (user_frame 0 false [1]) 0 [1000; 2000; 3500; 4500]
    (lk_session expiries waiting_link).1); try (vm_compute; done).
Defined.

(** ** Consequences of the code worth knowing *)

(** A link that has failed stays [Failed] although the outstation answers
    again: only [NotReady] leads to [Ready]. *)
Lemma failed_link_stays_failed :
  let '(c, _) := lk_session (expiries ++
    [(InResetRemoteLink, 5000); (FrameReceived (response_frame 0 FcAck), 5100);
     (SendUserData [2], 5200); (FrameReceived (response_frame 0 FcAck), 5300)]) waiting_link in
  link_state c = Failed /\ lk_pending c = None.
Proof. vm_compute. done. Qed.

(** An ASDU queued during a poll is not sent when the poll is answered, nor by
    any number of later clock ticks. *)
Lemma queue_stalls_after_poll :
  let '(c, acts) := lk_session
    [(InRequestClass2, 0); (SendUserData [7], 10);
     (FrameReceived (response_frame 0 NackNoData), 20); (LkTick, 5000); (LkTick, 50000)] (sample_link Master) in
  lk_pending c = None /\ send_queue c = [[7]] /\ length (lk_frames acts) = 1%nat.
Proof. vm_compute. done. Qed.

(** After an [AckTimeout] the frame count bit has moved on although the
    outstation never saw the frame: the next ASDU is acknowledged and dropped
    as a retransmission of the one before. *)
Lemma data_lost_after_timeout :
  let '(m1, a1) := lk_session [(SendUserData [1], 0); (FrameReceived (response_frame 0 FcAck), 10)] (sample_link Master) in
  let '(m2, _) := lk_session ((SendUserData [2], 20) :: ((fun t => (LkTick, t)) <$> [1020; 2020; 3020; 4020])) m1 in
  let '(m3, a3) := lk_session [(SendUserData [3], 5000)] m2 in
  let '(o, obs) := feed 0 (lk_frames a1 ++ lk_frames a3) (sample_link Outstation) in
  lk_delivered obs = [[1]] /\ lk_frames obs = replicate 2 (response_frame 0 FcAck) /\
  lk_frames a3 = [user_frame 0 false [3]].
Proof. vm_compute. done. Qed.

(** A poll carries no valid frame count bit and the outstation removes the
    ASDU as it answers: when that answer is lost and the poll repeated, the
    ASDU is lost too. *)
Lemma poll_answer_not_repeated :
  let '(o, obs) := lk_session
    [(SendUserData [1], 0); (SendUserData [2], 0);
     (FrameReceived (request_frame 0 RequestUserDataClass1), 10);
     (FrameReceived (request_frame 0 RequestUserDataClass1), 1010)] (sample_link Outstation) in
  lk_frames obs = [FVariable 8 0 [1]; FVariable 8 0 [2]] /\ send_queue o = [].
Proof. vm_compute. done. Qed.
