(* ===== verification/Abp101.v ===== *)
(** * Master and outstation over a lossy line

    The two roles of [frame101/link.rs] joined by a serial line that keeps the
    order of frames and can lose any of them in either direction (a damaged
    frame is a lost one, since [decode101] rejects it). [line_step] is every
    behaviour of the pair: calls at any time, frames that arrive after any
    delay, a master that goes on after it has given up. The theorems of this
    file are about the calm part of it, [calm_step]: a master does not see its
    timer expire while a frame is still on the line, does not ask for a reset
    of the link while a frame is pending, and is observed until it gives up.
    Once101.v is about the whole. *)

From S2P Require Import Prelude Frame101 Link101.

Record line := mkLine {
  ln_m : Link; ln_o : Link; m2o : list Frame101; o2m : list Frame101;
  log_m : list LkAction; log_o : list LkAction; sub_m : list bytes; sub_o : list bytes }.

Definition line_init (cfgM cfgO : LkConfig) : line :=
  mkLine (mkLink Master Unbalanced cfgM NotReady false None None [] [])
         (mkLink Outstation Unbalanced cfgO NotReady false None None [] []) [] [] [] [] [] [].

(** The master is called with [i]; what it sends goes on the line. *)
Definition master_step (i : LkInput) (now : Instant) (o2m' : list Frame101) (s : line) : line :=
  let '(c, acts) := lk_handle i now (ln_m s) in
  mkLine c (ln_o s) (m2o s ++ lk_frames acts) o2m' (log_m s ++ acts) (log_o s)
         (sub_m s ++ option_list (lk_submission i)) (sub_o s).
Definition outstation_step (i : LkInput) (now : Instant) (m2o' : list Frame101) (s : line) : line :=
  let '(c, acts) := lk_handle i now (ln_o s) in
  mkLine (ln_m s) c m2o' (o2m s ++ lk_frames acts) (log_m s) (log_o s ++ acts)
         (sub_m s) (sub_o s ++ option_list (lk_submission i)).

(** Calls made by the application and by the clock. *)
Definition local_call (i : LkInput) : Prop :=
  match i with FrameReceived _ => False | _ => True end.

Inductive line_step : line -> line -> Prop :=
| line_master s i now : local_call i -> line_step s (master_step i now (o2m s) s)
| line_master_recv s f rest now : o2m s = f :: rest -> line_step s (master_step (FrameReceived f) now rest s)
| line_outstation s i now : local_call i -> line_step s (outstation_step i now (m2o s) s)
| line_outstation_recv s f rest now : m2o s = f :: rest ->
    line_step s (outstation_step (FrameReceived f) now rest s)
| line_lose_m2o s f rest : m2o s = f :: rest ->
    line_step s (mkLine (ln_m s) (ln_o s) rest (o2m s) (log_m s) (log_o s) (sub_m s) (sub_o s))
| line_lose_o2m s f rest : o2m s = f :: rest ->
    line_step s (mkLine (ln_m s) (ln_o s) (m2o s) rest (log_m s) (log_o s) (sub_m s) (sub_o s)).

Definition line_reachable (cfgM cfgO : LkConfig) (s : line) : Prop :=
  rtc line_step (line_init cfgM cfgO) s.

(** The master's timer is still running. *)
Definition running (now : Instant) (c : Link) : Prop :=
  ∀ p, lk_pending c = Some p -> since now (sent_at p) < timeout (lk_config c).
Definition master_request (i : LkInput) (c : Link) : Prop :=
  match i with FrameReceived _ => False | InResetRemoteLink => lk_pending c = None | _ => True end.

(** The calm steps: see the head of the file. *)
Inductive calm_step : line -> line -> Prop :=
| calm_master s i now : link_state (ln_m s) ≠ Failed -> master_request i (ln_m s) ->
    (m2o s = [] /\ o2m s = []) \/ running now (ln_m s) ->
    calm_step s (master_step i now (o2m s) s)
| calm_master_recv s f rest now : link_state (ln_m s) ≠ Failed -> o2m s = f :: rest ->
    calm_step s (master_step (FrameReceived f) now rest s)
| calm_outstation s i now : local_call i -> calm_step s (outstation_step i now (m2o s) s)
| calm_outstation_recv s f rest now : m2o s = f :: rest ->
    calm_step s (outstation_step (FrameReceived f) now rest s)
| calm_lose_m2o s f rest : m2o s = f :: rest ->
    calm_step s (mkLine (ln_m s) (ln_o s) rest (o2m s) (log_m s) (log_o s) (sub_m s) (sub_o s))
| calm_lose_o2m s f rest : o2m s = f :: rest ->
    calm_step s (mkLine (ln_m s) (ln_o s) (m2o s) rest (log_m s) (log_o s) (sub_m s) (sub_o s)).

Definition calm_reachable (cfgM cfgO : LkConfig) (s : line) : Prop :=
  rtc calm_step (line_init cfgM cfgO) s.

Lemma calm_line s s' : calm_step s s' -> line_step s s'.
Proof.
  intros [x i now _ Hi _|x f r now _ E|x i now Hi|x f r now E|x f r E|x f r E].
  - apply line_master. by destruct i.
  - by apply line_master_recv.
  - by apply line_outstation.
  - by apply line_outstation_recv.
  - by eapply line_lose_m2o.
  - by eapply line_lose_o2m.
Qed.

(** ** The phases of an exchange *)

Inductive answers (addr : LinkAddress) : Frame101 -> Prop :=
| answers_ack : answers addr (response_frame addr FcAck)
| answers_status : answers addr (response_frame addr StatusOfLink)
| answers_none : answers addr (response_frame addr NackNoData)
| answers_data asdu :
    answers addr (FVariable (ControlField_encode (CfSecondary false false RespondUserData)) addr asdu).

Definition answer_data (f : Frame101) : option bytes :=
  match f with FVariable _ _ asdu => Some asdu | _ => None end.

(** At most one frame is on the line: the pending one or the answer to it. *)
Definition on_line (addr : LinkAddress) (p : option PendingSend) (mo om : list Frame101) : Prop :=
  (mo = [] /\ om = []) \/
  ∃ q, p = Some q /\ ((mo = [ps_frame q] /\ om = []) \/ (mo = [] /\ ∃ g, om = [g] /\ answers addr g)).

(** [U] is what the master has taken from its queue, [D] what the outstation
    has delivered. *)
Inductive phase (addr : LinkAddress) (m o : Link) (mo om : list Frame101) (U D : list bytes) : Prop :=
| ph_settled : D = U -> fcb_clear m o -> pending_ok addr m o -> on_line addr (lk_pending m) mo om ->
    phase addr m o mo om U D
| ph_fresh p asdu : lk_pending m = Some p -> ps_frame p = user_frame addr (negb (fcb m)) asdu ->
    U = D ++ [asdu] -> (last_fcb_seen o = None \/ last_fcb_seen o = Some (fcb m)) ->
    om = [] -> (mo = [] \/ mo = [ps_frame p]) -> phase addr m o mo om U D
| ph_failed : link_state m = Failed -> D `prefix_of` U -> mo = [] -> om = [] -> lk_pending m = None ->
    phase addr m o mo om U D.

Record master_ok (addr : LinkAddress) (m : Link) : Prop := {
  mas_role : lk_role m = Master;
  mas_addr : link_address (lk_config m) = addr;
  mas_timeout : 0 < timeout (lk_config m);
  mas_actions : lk_actions m = []; }.

(** ** What one call does to the master *)

(** A call that leaves the master free sends nothing, a request, or the next
    ASDU of the queue. *)
Inductive master_out (addr : LinkAddress) (m m' : Link) (subs : list bytes) (fs : list Frame101) : Prop :=
| out_quiet : lk_pending m' = None -> fcb m' = fcb m -> send_queue m' = send_queue m ++ subs -> fs = [] ->
    master_out addr m m' subs fs
| out_req func now : is_request func -> lk_pending m' = Some (mkPending (request_frame addr func) now 1) ->
    fcb m' = fcb m -> send_queue m' = send_queue m ++ subs -> fs = [request_frame addr func] ->
    master_out addr m m' subs fs
| out_user asdu now : send_queue m ++ subs = asdu :: send_queue m' -> fcb m' = negb (fcb m) ->
    lk_pending m' = Some (mkPending (user_frame addr (fcb m) asdu) now 1) ->
    fs = [user_frame addr (fcb m) asdu] -> master_out addr m m' subs fs.

Lemma not_expired d now : 0 < d -> (d <=? since now now) = false.
Proof. intros. unfold since. apply Z.leb_gt. lia. Qed.

Ltac open_master H c :=
  destruct H as [Hr Ha Ht Hac]; destruct c as [ro mo cf st fc la pe qu ac]; simpl in *; subst.
Ltac close_master := split_and!; [|by split|done]; simpl.

Lemma master_free addr m i now : master_ok addr m -> lk_pending m = None ->
  master_request i m -> let '(m', acts) := lk_handle i now m in
  master_out addr m m' (option_list (lk_submission i)) (lk_frames acts) /\
  master_ok addr m' /\ lk_delivered acts = [].
Proof.
  intros Hm Hp Hi. open_master Hm m. unfold lk_handle.
  destruct i as [f| |asdu| | | |]; [done|..]; simpl;
  unfold on_send_user_data, on_request_status, on_reset_remote_link, on_request_class, maybe_flush_queue, lk_run_timers; simpl;
  try (rewrite not_expired by done; simpl; close_master;
       eapply out_req; simpl; rewrite ?app_nil_r; try done; unfold is_request; tauto).
  - close_master. apply out_quiet; simpl; by rewrite ?app_nil_r.
  - destruct qu as [|a qu]; simpl; rewrite not_expired by done; simpl; close_master;
    eapply out_user; simpl; done.
Qed.

Lemma master_answered addr m g now p : master_ok addr m -> lk_pending m = Some p -> answers addr g ->
  let '(m', acts) := lk_handle (FrameReceived g) now m in
  master_out addr m m' [] (lk_frames acts) /\ master_ok addr m' /\
  lk_delivered acts = option_list (answer_data g).
Proof.
  intros Hm Hp Hg. open_master Hm m. unfold lk_handle.
  destruct Hg; simpl; unfold on_frame, master_on_frame, response_frame; simpl; rewrite ?response_decodes;
  simpl; unfold transition_link, maybe_flush_queue, lk_run_timers; destruct st; simpl;
  try (close_master; apply out_quiet; simpl; by rewrite ?app_nil_r).
  all: destruct qu as [|a qu]; simpl; rewrite ?not_expired by done; simpl; close_master.
  all: first [apply out_quiet; simpl; by rewrite ?app_nil_r
             |eapply out_user; simpl; rewrite ?app_nil_r; done].
Qed.

(** With a frame pending: nothing, a retransmission, or the end of the link;
    the latter two only when the timer has expired. *)
Lemma master_waiting addr m i now p : master_ok addr m -> lk_pending m = Some p -> master_request i m ->
  let '(m', acts) := lk_handle i now m in
  ((∃ p', lk_pending m' = Some p' /\ ps_frame p' = ps_frame p /\
     (lk_frames acts = [] \/ ~ running now m /\ lk_frames acts = [ps_frame p])) \/
   link_state m' = Failed /\ lk_pending m' = None /\ lk_frames acts = [] /\ ~ running now m) /\
  fcb m' = fcb m /\ send_queue m' = send_queue m ++ option_list (lk_submission i) /\
  master_ok addr m' /\ lk_delivered acts = [].
Proof.
  intros Hm Hp Hi. open_master Hm m. unfold lk_handle, running. simpl.
  assert (Hex : timeout cf <= since now (sent_at p) ->
    ~ (∀ p0, Some p = Some p0 -> since now (sent_at p0) < timeout cf)) by (intros H1 H2; specialize (H2 p eq_refl); lia).
  destruct i as [f| |asdu| | | |]; try done; simpl;
  unfold on_send_user_data, on_request_status, on_request_class, maybe_flush_queue, lk_run_timers; simpl;
  (destruct (timeout cf <=? since now (sent_at p)) eqn:Et; [apply Z.leb_le in Et; specialize (Hex Et)|clear Hex]);
  try (destruct (max_retries cf <? attempts p); [destruct st|]); simpl;
  rewrite ?app_nil_r; (split_and!; [|done|done|by split|done]); simpl; eauto 10.
Qed.

(** ** The phases under the steps *)

Section Phase.
Context (addr : LinkAddress).

(** A master that was free or has just been answered, with an empty line. *)
Lemma phase_out m m' o subs fs U : fcb_clear m o -> master_out addr m m' subs fs ->
  ∃ U', U' ++ send_queue m' = U ++ send_queue m ++ subs /\ phase addr m' o fs [] U' U.
Proof.
  intros Hc [Hp Hf Hq ->|func now Hr Hp Hf Hq ->|asdu now Hq Hf Hp ->].
  - exists U. split; [by rewrite Hq|]. apply ph_settled; [done| | |by left].
    + unfold fcb_clear. by rewrite Hf.
    + intros p. by rewrite Hp.
  - exists U. split; [by rewrite Hq|]. apply ph_settled; [done| | |].
    + unfold fcb_clear. by rewrite Hf.
    + intros p. rewrite Hp. intros [= <-]. right. by exists func.
    + right. eexists. split; [done|]. by left.
  - exists (U ++ [asdu]). split; [by rewrite <- app_assoc, Hq|].
    apply (ph_fresh _ _ _ _ _ _ _ _ asdu Hp); simpl; try done; rewrite ?Hf, ?negb_involutive; auto.
Qed.

Lemma on_line_none mo om : on_line addr None mo om -> mo = [] /\ om = [].
Proof. intros [H|(q & ? & _)]; done. Qed.

(** The application or the clock calls a master that waits for an answer. *)
Lemma phase_waiting m m' o mo om U D p fs : lk_pending m = Some p ->
  phase addr m o mo om U D -> fcb m' = fcb m ->
  (∃ p', lk_pending m' = Some p' /\ ps_frame p' = ps_frame p /\
     (fs = [] \/ mo = [] /\ om = [] /\ fs = [ps_frame p])) \/
  (link_state m' = Failed /\ lk_pending m' = None /\ fs = [] /\ mo = [] /\ om = []) ->
  phase addr m' o (mo ++ fs) om U D.
Proof.
  intros Hp Hph Hf [(p' & Hp' & Hfr & Hfs)|(H1 & H2 & -> & -> & ->)].
  - destruct Hph as [-> Hc Hpo Hl|q asdu Hq Hqf -> Hl -> Hmo|_ _ _ _ H]; [| |congruence].
    + apply ph_settled; [done|unfold fcb_clear; by rewrite Hf| |].
      * intros x. rewrite Hp'. intros [= <-]. rewrite Hfr, Hf. by apply Hpo.
      * rewrite Hp in Hl. rewrite Hp'. destruct Hfs as [-> | (-> & -> & ->)].
        { rewrite app_nil_r. destruct Hl as [?|(q & [= <-] & Hl)]; [by left|]. right. exists p'.
          rewrite Hfr. done. }
        { right. exists p'. rewrite Hfr. auto. }
    + rewrite Hp in Hq. injection Hq as <-. rewrite <- Hfr, <- Hf in *.
      apply (ph_fresh _ _ _ _ _ _ _ p' asdu); try done.
      destruct Hfs as [-> | (-> & _ & ->)]; [by rewrite app_nil_r|by right].
  - apply ph_failed; try done.
    destruct Hph as [-> _ _ _|q asdu _ _ -> _ _ _|_ H _ _ _]; [done|by apply prefix_app_r|done].
Qed.

(** The outstation receives the pending frame. *)
Lemma phase_outstation m o f mo om U D now : outstation_ok addr o ->
  phase addr m o (f :: mo) om U D ->
  ∃ o' acts S, lk_handle (FrameReceived f) now o = (o', acts) /\ outstation_ok addr o' /\
    phase addr m o' mo (om ++ lk_frames acts) U (D ++ lk_delivered acts) /\
    om = [] /\ send_queue o = S ++ send_queue o' /\ omap answer_data (lk_frames acts) = S.
Proof.
  intros Ho Hph. destruct Hph as [-> Hc Hpo Hl|p asdu Hp Hfr -> Hl -> Hmo|? ? ? ? ?]; [| |done].
  - destruct Hl as [[? _]|(p & Hp & [[[= -> ->] ->]|[? _]])]; [done| |done].
    destruct (Hpo p Hp) as [(asdu & Hfr & Hl)|(func & Hq & Hfr)]; rewrite Hfr.
    + destruct (outstation_user addr (negb (fcb m)) asdu now o Ho) as (o' & Hh & Ho' & Hl' & Hqu).
      rewrite bool_decide_true in Hh by done. eexists o', _, []. split_and!; [done..| |done|done|done].
      rewrite app_nil_r. apply ph_settled; [done|by right| |].
      * intros p' Hp'. rewrite Hp in Hp'. injection Hp' as <-. left. by exists asdu.
      * right. exists p. split; [done|]. right. split; [done|]. eexists. split; [done|constructor].
    + destruct (Link101.outstation_request addr func now o Ho) as (o' & acts & Hh & Hfs & Hd & Ho' & Hqu & Hl).
      exists o', acts, (match func, send_queue o with
        | RequestUserDataClass1, a :: _ | RequestUserDataClass2, a :: _ => [a] | _, _ => [] end).
      rewrite Hd, Hfs, Hqu, app_nil_r. split_and!; try done.
      * apply ph_settled; [done| | |].
        { unfold fcb_clear in *. destruct func; rewrite Hl; auto. }
        { intros p' Hp'. rewrite Hp in Hp'. injection Hp' as <-. right. by exists func. }
        { right. exists p. split; [done|]. right. split; [done|].
          destruct Hq as [-> | [-> | [-> | ->]]]; simpl; try (eexists; split; [done|constructor]);
          destruct (send_queue o); (eexists; split; [done|constructor]). }
      * destruct func; try done; by destruct (send_queue o).
      * destruct Hq as [-> | [-> | [-> | ->]]]; simpl; try done; by destruct (send_queue o).
  - destruct Hmo as [?|[= -> ->]]; [done|]. rewrite Hfr.
    destruct (outstation_user addr (negb (fcb m)) asdu now o Ho) as (o' & Hh & Ho' & Hl' & Hqu).
    rewrite bool_decide_false in Hh by (destruct Hl as [-> | ->]; [done|by destruct (fcb m)]).
    eexists o', _, []. split_and!; [done..| |done|done|done].
    apply ph_settled; [done|by right| |].
    * intros p' Hp'. rewrite Hp in Hp'. injection Hp' as <-. left. by exists asdu.
    * right. exists p. split; [done|]. right. split; [done|]. eexists. split; [done|constructor].
Qed.

(** A frame is lost. *)
Lemma phase_lose m o mo mo' om om' U D : phase addr m o mo om U D ->
  (∃ f, mo = f :: mo' /\ om' = om) \/ (∃ f, om = f :: om' /\ mo' = mo) -> phase addr m o mo' om' U D.
Proof.
  intros Hph Hx. destruct Hph as [-> Hc Hpo Hl|p asdu Hp Hfr -> Hl -> Hmo|? ? -> -> ?].
  - apply ph_settled; try done. left.
    destruct Hl as [[-> ->]|(q & _ & [[-> ->]|[-> (g & -> & _)]])];
      destruct Hx as [(f & ? & ?)|(f & ? & ?)]; simplify_eq; done.
  - destruct Hx as [(f & -> & ->)|(f & ? & ->)]; [|done].
    destruct Hmo as [?|[= -> ->]]; [done|]. apply (ph_fresh _ _ _ _ _ _ _ p asdu); auto.
  - destruct Hx as [(f & ? & ?)|(f & ? & ?)]; done.
Qed.
End Phase.

Definition line_inv (addr : LinkAddress) (s : line) : Prop :=
  master_ok addr (ln_m s) /\ outstation_ok addr (ln_o s) /\
  (∃ U, U ++ send_queue (ln_m s) = sub_m s /\
     phase addr (ln_m s) (ln_o s) (m2o s) (o2m s) U (lk_delivered (log_o s))) /\
  (∃ S, S ++ send_queue (ln_o s) = sub_o s /\
     lk_delivered (log_m s) ++ omap answer_data (o2m s) `sublist_of` S).

Lemma line_inv_master addr s i now : line_inv addr s -> link_state (ln_m s) ≠ Failed ->
  master_request i (ln_m s) -> (m2o s = [] /\ o2m s = []) \/ running now (ln_m s) ->
  line_inv addr (master_step i now (o2m s) s).
Proof.
  intros (Hm & Ho & (U & HU & Hph) & (S & HS & Hsub)) Hnf Hi Hg. unfold master_step.
  destruct (lk_pending (ln_m s)) as [p|] eqn:Hp.
  - pose proof (master_waiting addr (ln_m s) i now p Hm Hp Hi) as Hw.
    destruct (lk_handle i now (ln_m s)) as [m' acts]. destruct Hw as (Hw & Hf & Hq & Hm' & Hd).
    split_and!; [done..| |]; simpl.
    + exists U. rewrite Hq, app_assoc, HU. split; [done|]. apply (phase_waiting addr (ln_m s) m' _ _ _ _ _ p); try done.
      destruct Hg as [[-> ->]|Hrun]; [|destruct Hw as [(p' & ? & ? & [?|[? _]])|(? & ? & ? & ?)]; [left; eauto 10|done|done]].
      destruct Hw as [(p' & ? & ? & [?|[_ ?]])|(? & ? & ? & _)]; [left|left|right]; eauto 10.
    + exists S. by rewrite lk_delivered_app, Hd, app_nil_r.
  - pose proof (master_free addr (ln_m s) i now Hm Hp Hi) as Hw.
    destruct (lk_handle i now (ln_m s)) as [m' acts]. destruct Hw as (Hout & Hm' & Hd).
    destruct Hph as [HD Hc Hpo Hl|? ? Hp' ? ? ? ? ?|? ? ? ? ?]; [|congruence|done].
    rewrite Hp in Hl. apply on_line_none in Hl as [E1 E2].
    destruct (phase_out addr _ _ _ _ _ U Hc Hout) as (U' & HU' & Hph').
    split_and!; [done..| |]; simpl.
    + exists U'. rewrite E1, E2, HD. split; [|done]. by rewrite HU', app_assoc, HU.
    + exists S. by rewrite lk_delivered_app, Hd, app_nil_r.
Qed.

Lemma line_inv_recv addr s f rest now : line_inv addr s -> o2m s = f :: rest ->
  line_inv addr (master_step (FrameReceived f) now rest s).
Proof.
  intros (Hm & Ho & (U & HU & Hph) & (S & HS & Hsub)) Ef. rewrite Ef in *. unfold master_step.
  destruct Hph as [HD Hc Hpo Hl|? ? ? ? ? ? ? ?|? ? ? ? ?]; [|done|done].
  destruct Hl as [[_ ?]|(p & Hp & [[_ ?]|[Emo (g & [= -> ->] & Hg)]])]; [done|done|].
  pose proof (master_answered addr (ln_m s) g now p Hm Hp Hg) as Hw.
  destruct (lk_handle (FrameReceived g) now (ln_m s)) as [m' acts]. destruct Hw as (Hout & Hm' & Hd).
  destruct (phase_out addr _ _ _ _ _ U Hc Hout) as (U' & HU' & Hph').
  split_and!; [done..| |]; simpl.
  - exists U'. rewrite Emo, HD. split; [|done]. by rewrite HU', !app_nil_r.
  - exists S. split; [done|]. rewrite lk_delivered_app, Hd, app_nil_r.
    cbn in Hsub. destruct (answer_data g); simpl in *; by rewrite ?app_nil_r in *.
Qed.

(** A call of the application at the outstation only adds to its queue. *)
Lemma outstation_local addr o i now : outstation_ok addr o -> local_call i ->
  let '(o', acts) := lk_handle i now o in
  acts = [] /\ outstation_ok addr o' /\ last_fcb_seen o' = last_fcb_seen o /\
  send_queue o' = send_queue o ++ option_list (lk_submission i).
Proof.
  intros [Hr Ha Hp Hac] Hi. destruct o as [ro mo cf st fc la pe qu ac]. simpl in *. subst.
  destruct i; try done; cbn; rewrite ?app_nil_r; (split_and!; [done|by split|done|done]).
Qed.

Lemma phase_same_fcb addr m o o' mo om U D : last_fcb_seen o' = last_fcb_seen o ->
  phase addr m o mo om U D -> phase addr m o' mo om U D.
Proof.
  intros E Hph. destruct Hph as [HD Hc Hpo Hl|p asdu H1 H2 H3 H4 H5 H6|H1 H2 H3 H4 H5].
  - apply ph_settled; [done|unfold fcb_clear in *; by rewrite E| |done].
    intros p Hp. rewrite E. by apply Hpo.
  - rewrite <- E in H4. by apply (ph_fresh _ _ _ _ _ _ _ p asdu).
  - by apply ph_failed.
Qed.

Lemma line_inv_step addr s s' : calm_step s s' -> line_inv addr s -> line_inv addr s'.
Proof.
  intros Hs Hinv. destruct Hs as [s i now Hnf Hi Hg|s f rest now Hnf Ef|s i now Hi|s f rest now Ef|s f rest Ef|s f rest Ef].
  - by apply line_inv_master.
  - by apply line_inv_recv.
  - destruct Hinv as (Hm & Ho & (U & HU & Hph) & (S & HS & Hsub)). unfold outstation_step.
    pose proof (outstation_local addr _ i now Ho Hi) as Hx. destruct (lk_handle i now (ln_o s)) as [o' acts].
    destruct Hx as (-> & Ho' & Hl & Hq). split_and!; [done..| |]; simpl.
    + exists U. rewrite !app_nil_r. split; [done|]. by apply (phase_same_fcb _ _ (ln_o s)).
    + exists S. by rewrite Hq, app_assoc, HS, app_nil_r.
  - destruct Hinv as (Hm & Ho & (U & HU & Hph) & (S & HS & Hsub)). unfold outstation_step. rewrite Ef in Hph.
    destruct (phase_outstation addr _ _ _ _ _ _ _ now Ho Hph) as (o' & acts & Q & Hh & Ho' & Hph' & Eom & Hq & HQ).
    rewrite Hh. split_and!; [done..| |]; simpl.
    + exists U. by rewrite lk_delivered_app.
    + exists (S ++ Q). rewrite <- HS, Hq, app_nil_r, app_assoc. split; [done|].
      rewrite Eom in *. simpl in *. rewrite app_nil_r in Hsub. rewrite HQ. by apply sublist_app.
  - destruct Hinv as (Hm & Ho & (U & HU & Hph) & HS). split_and!; [done..| |done]; simpl.
    exists U. split; [done|]. apply (phase_lose addr _ _ _ _ _ _ _ _ Hph). left. eauto.
  - destruct Hinv as (Hm & Ho & (U & HU & Hph) & (S & HS & Hsub)). split_and!; [done..| |]; simpl.
    + exists U. split; [done|]. apply (phase_lose addr _ _ _ _ _ _ _ _ Hph). right. eauto.
    + exists S. split; [done|]. etrans; [|exact Hsub]. apply sublist_app; [done|]. rewrite Ef. cbn.
      destruct (answer_data f); [by constructor|done].
Qed.

Lemma calm_reachable_inv cfgM cfgO s : link_address cfgM = link_address cfgO -> 0 < timeout cfgM ->
  calm_reachable cfgM cfgO s -> line_inv (link_address cfgM) s.
Proof.
  intros Ha Ht Hr. unfold calm_reachable in Hr.
  assert (H : line_inv (link_address cfgM) (line_init cfgM cfgO)).
  { split_and!; [by split|by split| |]; (exists []; split; [done|]); [|done].
    apply ph_settled; [done|by left|done|by left]. }
  revert H. induction Hr as [|s1 s2 s3 Hs _ IH]; [done|]. intros H. apply IH. by eapply line_inv_step.
Qed.

Lemma line_prefix addr s : line_inv addr s -> lk_delivered (log_o s) `prefix_of` sub_m s.
Proof.
  intros (_ & _ & (U & <- & Hph) & _). apply prefix_app_r.
  destruct Hph as [-> _ _ _|p asdu _ _ -> _ _ _|_ Hpre _ _ _]; [done|by apply prefix_app_r|done].
Qed.

(** ** The properties of the line *)

(** C6. Alternating-bit correctness over a lossy line, as long as the exchange is
    calm: the master has not given up a frame, no reset is requested while a
    frame is pending, and no frame is on the line for longer than the
    retransmission timeout. Then what the outstation has delivered is a prefix
    of what was submitted at the master, in order and without duplicates,
    whatever frames and acknowledgements were lost; and whenever the master
    waits for no answer and has not given up, every ASDU that has left its
    queue has been delivered. *)
Theorem line_delivers cfgM cfgO s : link_address cfgM = link_address cfgO -> 0 < timeout cfgM ->
  calm_reachable cfgM cfgO s ->
  lk_delivered (log_o s) `prefix_of` sub_m s /\
  (lk_pending (ln_m s) = None -> link_state (ln_m s) ≠ Failed ->
   lk_delivered (log_o s) ++ send_queue (ln_m s) = sub_m s).
Proof.
  intros Ha Ht Hr. destruct (calm_reachable_inv _ _ _ Ha Ht Hr) as (_ & _ & (U & HU & Hph) & _).
  split; [by eapply line_prefix, calm_reachable_inv|].
  rewrite <- HU. destruct Hph as [-> Hc Hpo Hl|p asdu Hp _ -> _ _ _|? Hpre ? ? ?]; [done|congruence|done].
Qed.

(** In the other direction polling never duplicates, reorders or invents
    data: what the master has delivered is a subsequence of what was submitted
    at the outstation (a lost answer is not repeated). *)
Theorem line_polls_sublist cfgM cfgO s : link_address cfgM = link_address cfgO -> 0 < timeout cfgM ->
  calm_reachable cfgM cfgO s -> lk_delivered (log_m s) `sublist_of` sub_o s.
Proof.
  intros Ha Ht Hr. destruct (calm_reachable_inv _ _ _ Ha Ht Hr) as (_ & _ & _ & (S & HS & Hsub)).
  rewrite <- HS. apply sublist_inserts_r. etrans; [|exact Hsub]. by apply sublist_inserts_r.
Qed.

(** At most one frame is on the line at any time, and none when the master is
    not waiting: the exchange is strictly half-duplex. *)
Lemma line_half_duplex cfgM cfgO s : link_address cfgM = link_address cfgO -> 0 < timeout cfgM ->
  calm_reachable cfgM cfgO s ->
  (length (m2o s) + length (o2m s) <= 1)%nat /\
  (lk_pending (ln_m s) = None -> m2o s = [] /\ o2m s = []).
Proof.
  intros Ha Ht Hr. destruct (calm_reachable_inv _ _ _ Ha Ht Hr) as (_ & _ & (U & HU & Hph) & _).
  destruct Hph as [_ _ _ Hl|p asdu Hp _ _ _ -> Hmo|_ _ -> -> _]; [| |simpl; by split; [lia|]].
  - split.
    + destruct Hl as [[-> ->]|(q & _ & [[-> ->]|[-> (g & -> & _)]])]; simpl; lia.
    + intros E. rewrite E in Hl. by eapply on_line_none.
  - split; [destruct Hmo as [-> | ->]; simpl; lia|congruence].
Qed.

(** ** Running the line *)

Inductive line_move := CallM (i : LkInput) | CallO (i : LkInput) | RecvM | RecvO | LoseM2O | LoseO2M.

Definition request_allowed (i : LkInput) (c : Link) : bool :=
  match i with FrameReceived _ => false | InResetRemoteLink => bool_decide (lk_pending c = None) | _ => true end.
Definition call_allowed (now : Instant) (s : line) : bool :=
  match m2o s, o2m s with
  | [], [] => true
  | _, _ => match lk_pending (ln_m s) with
            | Some p => since now (sent_at p) <? timeout (lk_config (ln_m s)) | None => true end
  end.

(** A move at time [now]; one that is not enabled changes nothing. *)
Definition line_do (mv : line_move * Instant) (s : line) : line :=
  let '(m, now) := mv in
  match m with
  | CallM i => if bool_decide (link_state (ln_m s) ≠ Failed) && (request_allowed i (ln_m s) && call_allowed now s)
               then master_step i now (o2m s) s else s
  | CallO i => match i with FrameReceived _ => s | _ => outstation_step i now (m2o s) s end
  | RecvM => match o2m s with
             | f :: rest => if bool_decide (link_state (ln_m s) ≠ Failed)
                            then master_step (FrameReceived f) now rest s else s
             | [] => s end
  | RecvO => match m2o s with f :: rest => outstation_step (FrameReceived f) now rest s | [] => s end
  | LoseM2O => match m2o s with
      f :: rest => mkLine (ln_m s) (ln_o s) rest (o2m s) (log_m s) (log_o s) (sub_m s) (sub_o s) | [] => s end
  | LoseO2M => match o2m s with
      f :: rest => mkLine (ln_m s) (ln_o s) (m2o s) rest (log_m s) (log_o s) (sub_m s) (sub_o s) | [] => s end
  end.

Definition line_run (ms : list (line_move * Instant)) (s : line) : line :=
  fold_left (fun s m => line_do m s) ms s.

Lemma call_allowed_ok now s : call_allowed now s = true ->
  (m2o s = [] /\ o2m s = []) \/ running now (ln_m s).
Proof.
  unfold call_allowed, running. destruct (m2o s), (o2m s); [by left|..]; intros H; right; intros p Hp;
  rewrite Hp in H; by apply Z.ltb_lt in H.
Qed.

Lemma line_do_step m s : rtc calm_step s (line_do m s).
Proof.
  destruct m as [m now]. destruct m as [i|i| | | |]; simpl.
  - destruct (bool_decide (link_state (ln_m s) ≠ Failed)) eqn:E1; [|done].
    destruct (request_allowed i (ln_m s)) eqn:E2; [|done].
    destruct (call_allowed now s) eqn:E3; [|done]. simpl. apply rtc_once.
    apply calm_master; [by apply bool_decide_eq_true in E1| |by apply call_allowed_ok].
    destruct i; try done. simpl in E2. by apply bool_decide_eq_true in E2.
  - destruct i; try done; apply rtc_once; by apply calm_outstation.
  - destruct (o2m s) eqn:E; [done|]. destruct (bool_decide _) eqn:E1; [|done]. apply rtc_once.
    apply calm_master_recv; [by apply bool_decide_eq_true in E1|done].
  - destruct (m2o s) eqn:E; [done|]. apply rtc_once. by apply calm_outstation_recv.
  - destruct (m2o s) eqn:E; [done|]. apply rtc_once. by eapply calm_lose_m2o.
  - destruct (o2m s) eqn:E; [done|]. apply rtc_once. by eapply calm_lose_o2m.
Qed.

Lemma line_run_steps ms s : rtc calm_step s (line_run ms s).
Proof.
  unfold line_run. revert s. induction ms as [|m ms IH]; intros s; simpl; [done|].
  etrans; [apply line_do_step|apply IH].
Qed.

(** A reset, an ASDU whose acknowledgement is lost, the retransmission of it,
    a second ASDU whose frame is lost once, and a poll. *)
Definition sample_line : line := line_run
  [(CallM InResetRemoteLink, 0); (RecvO, 0); (RecvM, 10);
   (CallM (SendUserData [1]), 20); (CallM (SendUserData [2]), 30); (RecvO, 40); (LoseO2M, 50);
   (CallM LkTick, 1100); (RecvO, 1110); (RecvM, 1120); (LoseM2O, 1130);
   (CallM LkTick, 2500); (RecvO, 2510); (RecvM, 2520);
   (CallO (SendUserData [9]), 2530); (CallM InRequestClass1, 2540); (RecvO, 2550); (RecvM, 2560)]
  (line_init LkConfig_default LkConfig_default).

Lemma line_delivers_witness :
  length (lk_frames (log_m sample_line)) = 6%nat /\
  lk_delivered (log_o sample_line) `prefix_of` sub_m sample_line /\
  lk_delivered (log_o sample_line) ++ send_queue (ln_m sample_line) = [[1]; [2]].
Proof.
  split; [reflexivity|].
  pose proof (line_delivers LkConfig_default LkConfig_default sample_line eq_refl ltac:(reflexivity)
    (line_run_steps _ _)) as [H1 H2].
  split; [exact H1|]. apply H2; [reflexivity|]. vm_compute. discriminate.
Defined.

Lemma line_polls_sublist_witness :
  lk_delivered (log_m sample_line) = [[9]] /\ lk_delivered (log_m sample_line) `sublist_of` sub_o sample_line.
Proof.
  split; [reflexivity|].
  exact (line_polls_sublist LkConfig_default LkConfig_default sample_line eq_refl ltac:(reflexivity)
    (line_run_steps _ _)).
Defined.

