(* ===== verification/Once101.v ===== *)
(** * At most once, whatever happens on the line

    Every behaviour of a master and an outstation on a line that keeps the
    order of frames ([line_step] of Abp101.v): frames and answers are lost or
    late by any time, copies of a frame are on the line while the next one is
    sent, the master gives up and goes on, resets of the link are asked for at
    any moment. ASDUs can be lost then ([data_lost_after_timeout] of
    Link101.v), but none is delivered twice, altered or out of order, in
    either direction. *)

From S2P Require Import Prelude Frame101 Link101 Abp101.

#[local] Open Scope nat_scope.

(** ** Ranks

    The frames a master sends in the course of its life are ranked: the copies
    of the user frame with the [t]-th ASDU have rank [2 t + 1], requests made
    before that ASDU was taken from the queue have rank [2 t]. *)

Section Ranks.
Context (addr : LinkAddress).

Inductive ranked (U : list bytes) : nat -> Frame101 -> Prop :=
| rk_user t asdu : U !! t = Some asdu -> ranked U (2 * t + 1) (user_frame addr (Nat.odd t) asdu)
| rk_request t func : is_request func -> ranked U (2 * t) (request_frame addr func).

(** What an outstation remembers whose latest user frame or reset had rank
    [pos], and the ASDUs it can have delivered. *)
Definition seen_at (pos : nat) : option bool :=
  if Nat.odd pos then Some (Nat.odd (Nat.div2 pos)) else None.
Definition reach (pos : nat) (U : list bytes) : list bytes := take (Nat.div2 (S pos)) U.

Definition pending_rank (U : list bytes) (p : option PendingSend) (top : nat) : Prop :=
  match p with
  | None => top = 2 * length U
  | Some p => ranked U top (ps_frame p) /\ top <= 2 * length U
  end.

(** [L] is on its way to an outstation that remembers [seen] and has
    delivered [D]; [subs] has been submitted at the master. *)
Definition once (seen : option bool) (D subs : list bytes) (L : list Frame101) (m : Link) : Prop :=
  ∃ U rs pos top, U ++ send_queue m = subs /\ fcb m = Nat.odd (length U) /\
    Forall2 (ranked U) rs L /\ chain pos rs top /\ pending_rank U (lk_pending m) top /\
    seen = seen_at pos /\ D `sublist_of` reach pos U.

Lemma ranked_app U V r f : ranked U r f -> ranked (U ++ V) r f.
Proof. destruct 1; constructor; [by apply lookup_app_l_Some|done]. Qed.

Lemma reach_app pos U V D : D `sublist_of` reach pos U -> D `sublist_of` reach pos (U ++ V).
Proof. unfold reach. intros H. rewrite take_app. by apply sublist_inserts_r. Qed.

Lemma pending_rank_le U p top : pending_rank U p top -> top <= 2 * length U.
Proof. destruct p; simpl; [by intros []|lia]. Qed.

(** ** The master *)

Lemma once_free seen D subs L m m' : once seen D subs L m ->
  send_queue m' = send_queue m -> fcb m' = fcb m -> lk_pending m' = None \/ lk_pending m' = lk_pending m ->
  once seen D subs L m'.
Proof.
  intros (U & rs & pos & top & HU & Hf & HL & Hc & Hp & Hs & HD) Eq Ef Ep.
  assert (∃ top', chain pos rs top' /\ pending_rank U (lk_pending m') top') as (top' & Hc' & Hp').
  { destruct Ep as [-> | ->]; [|by exists top]. exists (2 * length U). split; [|done].
    rewrite <- (app_nil_r rs). apply (chain_extend _ _ top _ 0); [by eapply pending_rank_le|done]. }
  exists U, rs, pos, top'. rewrite Eq, Ef. by split_and!.
Qed.

(** A request is sent by a master that waits for nothing. *)
Lemma once_request func now seen D subs L m m' : is_request func -> once seen D subs L m -> lk_pending m = None ->
  send_queue m' = send_queue m -> fcb m' = fcb m ->
  lk_pending m' = Some (mkPending (request_frame addr func) now 1) ->
  once seen D subs (L ++ [request_frame addr func]) m'.
Proof.
  intros Hr (U & rs & pos & top & HU & Hf & HL & Hc & Hp & Hs & HD) Em Eq Ef Ep. rewrite Em in Hp. cbn [pending_rank] in Hp.
  exists U, (rs ++ [2 * length U]), pos, (2 * length U). rewrite Eq, Ef, Ep.
  assert (ranked U (2 * length U) (request_frame addr func)) as Hk by by constructor.
  split_and!; try done.
  - apply Forall2_app; [done|constructor; [exact Hk|constructor]].
  - apply (chain_extend _ _ top _ 1); [lia|done].
Qed.

(** The next ASDU of the queue is sent. *)
Lemma once_user asdu now seen D subs L m m' : once seen D subs L m -> lk_pending m = None ->
  send_queue m = asdu :: send_queue m' -> fcb m' = negb (fcb m) ->
  lk_pending m' = Some (mkPending (user_frame addr (fcb m) asdu) now 1) ->
  once seen D subs (L ++ [user_frame addr (fcb m) asdu]) m'.
Proof.
  intros (U & rs & pos & top & HU & Hf & HL & Hc & Hp & Hs & HD) Em Eq Ef Ep. rewrite Em in Hp. cbn [pending_rank] in Hp.
  assert (ranked (U ++ [asdu]) (2 * length U + 1) (user_frame addr (Nat.odd (length U)) asdu)) as Hk.
  { constructor. by rewrite lookup_app_r, Nat.sub_diag by done. }
  exists (U ++ [asdu]), (rs ++ [2 * length U + 1]), pos, (2 * length U + 1). rewrite Ep, Ef, Hf, length_app.
  cbn [length pending_rank ps_frame].
  split_and!; try done.
  - by rewrite <- app_assoc, <- HU, Eq.
  - by rewrite Nat.add_1_r, Nat.odd_succ, <- Nat.negb_odd.
  - apply Forall2_app; [|constructor; [exact Hk|constructor]]. eapply Forall2_impl; [exact HL|]. intros; by apply ranked_app.
  - apply (chain_extend _ _ top _ 1); [lia|done].
  - rewrite ?length_app in *. cbn. lia.
  - by apply reach_app.
Qed.

(** The pending frame is sent once more. *)
Lemma once_again p p' seen D subs L m m' : once seen D subs L m -> lk_pending m = Some p ->
  lk_pending m' = Some p' -> ps_frame p' = ps_frame p -> send_queue m' = send_queue m -> fcb m' = fcb m ->
  once seen D subs (L ++ [ps_frame p]) m'.
Proof.
  intros (U & rs & pos & top & HU & Hf & HL & Hc & Hp & Hs & HD) Em Ep Epf Eq Ef. rewrite Em in Hp. destruct Hp as [Hr Ht].
  exists U, (rs ++ [top]), pos, top. rewrite Eq, Ef, Ep. cbn [pending_rank]. rewrite Epf. split_and!; try done.
  - apply Forall2_app; [done|constructor; [exact Hr|constructor]].
  - by apply (chain_extend _ _ top _ 1).
Qed.

Lemma once_submit asdu seen D subs L m m' : once seen D subs L m -> send_queue m' = send_queue m ++ [asdu] ->
  fcb m' = fcb m -> lk_pending m' = lk_pending m -> once seen D (subs ++ [asdu]) L m'.
Proof.
  intros (U & rs & pos & top & HU & Hf & HL & Hc & Hp & Hs & HD) Eq Ef Ep.
  exists U, rs, pos, top. rewrite Eq, Ef, Ep, app_assoc, HU. by split_and!.
Qed.

Section Master.
Context (seen : option bool) (D : list bytes) (L0 : list Frame101) (now : Instant).

(** A master in the course of a call; the frames of its actions are on the
    line behind [L0]. *)
Definition mst (subs : list bytes) (m : Link) : Prop :=
  lk_role m = Master /\ link_address (lk_config m) = addr /\ once seen D subs (L0 ++ lk_frames (lk_actions m)) m.

Lemma mst_free subs m m' : mst subs m -> lk_role m' = lk_role m -> lk_config m' = lk_config m ->
  lk_frames (lk_actions m') = lk_frames (lk_actions m) -> send_queue m' = send_queue m -> fcb m' = fcb m ->
  lk_pending m' = None \/ lk_pending m' = lk_pending m -> mst subs m'.
Proof.
  intros (Hr & Ha & Ho) Er Ec El Eq Ef Ep. split; [by rewrite Er|]. split; [by rewrite Ec|]. rewrite El.
  by apply (once_free _ _ _ _ m).
Qed.

Lemma frames_push m a : lk_frames (lk_actions (lk_push a m)) = lk_frames (lk_actions m) ++ option_list (lk_frame_of a).
Proof. destruct m. cbn. rewrite lk_frames_app. cbn. by destruct (lk_frame_of a). Qed.

Lemma mst_push subs m a : mst subs m -> lk_frame_of a = None -> mst subs (lk_push a m).
Proof. intros H E. apply (mst_free _ m); try by destruct m. - by rewrite frames_push, E, app_nil_r. - right. by destruct m. Qed.

Lemma mst_clear subs m : mst subs m -> mst subs (set_lk_pending None m).
Proof. intros H. apply (mst_free _ m); try by destruct m. left. by destruct m. Qed.

Lemma mst_link subs m v : mst subs m -> mst subs (set_link_state v m).
Proof. intros H. apply (mst_free _ m); try by destruct m. right. by destruct m. Qed.

Lemma mst_transition subs m v : mst subs m -> mst subs (transition_link v m).
Proof. intros H. unfold transition_link. destruct (negb _); [|done]. by apply mst_push; [apply mst_link|]. Qed.

Lemma mst_flush subs m : mst subs m -> mst subs (maybe_flush_queue now m).
Proof.
  intros (Hr & Ha & Ho). unfold maybe_flush_queue. destruct (lk_pending m) eqn:Ep; [done|].
  destruct (send_queue m) as [|asdu qu] eqn:Eq; [done|]. destruct m as [ro mo cf st fc la pe q ac]. cbn in *. subst.
  split; [done|]. split; [done|]. cbn. rewrite lk_frames_app, app_assoc.
  rewrite Ha. by apply (once_user asdu now _ _ _ _ _ _ Ho).
Qed.

Lemma mst_request subs m func : is_request func -> mst subs m -> lk_pending m = None ->
  mst subs (send_with_confirm (build_fixed (CfPrimary false false func) m) now m).
Proof.
  intros Hf (Hr & Ha & Ho) Ep. destruct m as [ro mo cf st fc la pe q ac]. cbn in *. subst.
  split; [done|]. split; [done|]. cbn. rewrite lk_frames_app, app_assoc. unfold build_fixed. cbn. rewrite Ha.
  by eapply (once_request func now _ _ _ _ _ _ Hf Ho).
Qed.

Lemma mst_timers subs m : mst subs m -> mst subs (lk_run_timers now m).
Proof.
  intros H. unfold lk_run_timers. destruct (lk_pending m) as [p|] eqn:Ep; [|done].
  destruct (_ <=? _)%Z; [|done]. destruct (_ <? _)%Z.
  - apply mst_push; [|done]. destruct (negb _); [|by apply mst_clear].
    apply mst_push; [|done]. by apply mst_link, mst_clear.
  - destruct H as (Hr & Ha & Ho). destruct m as [ro mo cf st fc la pe q ac]. cbn in *. subst.
    split; [done|]. split; [done|]. cbn. rewrite lk_frames_app, app_assoc. by eapply (once_again p).
Qed.

Lemma mst_on_frame subs m f : mst subs m -> mst subs (master_on_frame f now m).
Proof.
  intros H. pose proof (mst_clear _ _ H) as Hc.
  assert (∀ r, mst subs (emit_link_error r m)) as He by (intros; by apply mst_push).
  assert (∀ v, mst subs (match link_state m with NotReady => transition_link v (set_lk_pending None m) | _ => set_lk_pending None m end))
    as Ht by (intros; destruct (link_state m); [by apply mst_transition|done..]).
  unfold master_on_frame, master_on_secondary_fixed, emit_link_error in *.
  assert (link_state (set_lk_pending None m) = link_state m) as Hl by by destruct m. rewrite !Hl in *.
  repeat case_match; try done; try (by apply mst_push); try (by apply mst_flush).
Qed.

Lemma mst_on_input subs m i : mst subs m ->
  mst (subs ++ option_list (lk_submission i)) (lk_on_input i now m).
Proof.
  intros H. pose proof H as (Hr & _ & _).
  assert (∀ func, is_request func -> mst subs (on_request_class func now m)) as Hq.
  { intros func Hf. unfold on_request_class. rewrite Hr. destruct (lk_pending m) eqn:Ep; [done|]. by apply mst_request. }
  destruct i; cbn [lk_on_input lk_submission option_list]; rewrite ?app_nil_r; try done.
  - unfold on_frame. rewrite Hr. by apply mst_on_frame.
  - unfold on_send_user_data. rewrite Hr. apply mst_flush. destruct H as (_ & Ha & Ho).
    split; [by destruct m|]. split; [by destruct m|]. destruct m. by apply (once_submit _ _ _ _ _ _ _ Ho).
  - unfold on_request_status. rewrite Hr. destruct (lk_pending m) eqn:Ep; [done|]. apply mst_request; [|done..]. unfold is_request; auto.
  - unfold on_reset_remote_link. rewrite Hr. apply mst_request; [unfold is_request; auto|by apply mst_clear|by destruct m].
  - apply Hq. unfold is_request; auto.
  - apply Hq. unfold is_request; auto.
Qed.

Lemma mst_handle subs m i : mst subs m -> lk_actions m = [] ->
  let '(m', acts) := lk_handle i now m in
  lk_role m' = Master /\ link_address (lk_config m') = addr /\ lk_actions m' = [] /\
  once seen D (subs ++ option_list (lk_submission i)) (L0 ++ lk_frames acts) m'.
Proof.
  intros H Hac. unfold lk_handle. pose proof (mst_timers _ _ (mst_on_input _ _ i H)) as (Hr & Ha & Ho).
  destruct (lk_run_timers now (lk_on_input i now m)) as [ro mo cf st fc la pe q ac]. cbn in *. by split_and!.
Qed.
End Master.

(** ** The line and the outstation *)

Lemma once_lose seen D subs f L m : once seen D subs (f :: L) m -> once seen D subs L m.
Proof.
  intros (U & rs & pos & top & HU & Hf & HL & Hc & H). apply Forall2_cons_inv_r in HL as (r & rs' & _ & HL & ->).
  destruct Hc as [Hr Hc]. exists U, rs', pos, top. split_and!; try tauto. by apply (chain_weaken r).
Qed.

Lemma seen_user t : seen_at (2 * t + 1) = Some (Nat.odd t).
Proof. unfold seen_at. rewrite Nat.add_1_r, Nat.odd_succ, Nat.even_even, Nat.div2_succ_double. done. Qed.
Lemma seen_reset t : seen_at (2 * t) = None.
Proof. unfold seen_at. by rewrite Nat.odd_even. Qed.
Lemma reach_user t (U : list bytes) : reach (2 * t + 1) U = take (S t) U.
Proof. unfold reach. replace (S (2 * t + 1)) with (2 * S t) by lia. by rewrite Nat.div2_double. Qed.
Lemma reach_reset t (U : list bytes) : reach (2 * t) U = take t U.
Proof. unfold reach. by rewrite Nat.div2_succ_double. Qed.

Lemma reach_mono pos pos' (U D : list bytes) : pos <= pos' -> D `sublist_of` reach pos U -> D `sublist_of` reach pos' U.
Proof.
  intros Hle H. etrans; [exact H|]. unfold reach.
  replace (take (Nat.div2 (S pos)) U) with (take (Nat.div2 (S pos)) (take (Nat.div2 (S pos')) U)); [apply sublist_take|].
  rewrite take_take. f_equal. apply Nat.min_l, Nat.div2_le_mono. lia.
Qed.

(** The user frame of rank [2 t + 1] is a copy of the latest one, or its ASDU
    is one of those that were not reached yet. *)
Lemma once_user_arrives t asdu seen D subs L m U rs pos top now o : outstation_ok addr o -> last_fcb_seen o = seen ->
  U ++ send_queue m = subs -> fcb m = Nat.odd (length U) -> U !! t = Some asdu ->
  Forall2 (ranked U) rs L -> pos <= 2 * t + 1 -> chain (2 * t + 1) rs top -> pending_rank U (lk_pending m) top ->
  seen = seen_at pos -> D `sublist_of` reach pos U ->
  ∃ o' acts, lk_handle (FrameReceived (user_frame addr (Nat.odd t) asdu)) now o = (o', acts) /\ outstation_ok addr o' /\
    once (last_fcb_seen o') (D ++ lk_delivered acts) subs L m /\
    send_queue o' = send_queue o /\ omap answer_data (lk_frames acts) = [].
Proof.
  intros Ho Hseen HU Hf Ht HL Hpos Hc Hp Hs HD.
  destruct (outstation_user addr (Nat.odd t) asdu now o Ho) as (o' & Hh & Ho' & Hl' & Hq).
  do 2 eexists. split; [exact Hh|]. split; [done|]. split; [|by destruct (bool_decide _)].
  rewrite Hl'. exists U, rs, (2 * t + 1), top. rewrite seen_user. split_and!; try done.
  rewrite reach_user, (take_S_r U t asdu Ht). destruct (decide (pos = 2 * t + 1)) as [->|Hne].
  - rewrite Hseen, Hs, seen_user, bool_decide_true by done. cbn. rewrite app_nil_r.
    rewrite reach_user, (take_S_r U t asdu Ht) in HD. done.
  - assert (D `sublist_of` take t U) by (rewrite <- reach_reset; apply (reach_mono pos); [lia|done]).
    destruct (bool_decide _); cbn; [rewrite app_nil_r; by apply sublist_inserts_r|by apply sublist_app].
Qed.

Lemma once_arrives now o D subs f L m : outstation_ok addr o -> once (last_fcb_seen o) D subs (f :: L) m ->
  ∃ o' acts S, lk_handle (FrameReceived f) now o = (o', acts) /\ outstation_ok addr o' /\
    once (last_fcb_seen o') (D ++ lk_delivered acts) subs L m /\
    send_queue o = S ++ send_queue o' /\ omap answer_data (lk_frames acts) = S.
Proof.
  intros Ho (U & rs & pos & top & HU & Hf & HL & Hc & Hp & Hs & HD).
  apply Forall2_cons_inv_r in HL as (r & rs' & Hr & HL & ->). destruct Hc as [Hpos Hc]. destruct Hr as [t asdu Ht|t func Hq].
  - destruct (once_user_arrives t asdu (last_fcb_seen o) D subs L m U rs' pos top now o) as (o' & acts & H1 & H2 & H3 & H4 & H5);
      [done..|]. exists o', acts, []. by rewrite H4.
  - destruct (Link101.outstation_request addr func now o Ho) as (o' & acts & Hh & Hfs & Hd & Ho' & Hqu & Hl).
    exists o', acts, (match func, send_queue o with
        | RequestUserDataClass1, a :: _ | RequestUserDataClass2, a :: _ => [a] | _, _ => [] end).
    rewrite Hd, Hfs, Hqu, Hl, app_nil_r. split_and!; [done|done| | |].
    + destruct Hq as [-> |Hq].
      * exists U, rs', (2 * t), top. rewrite seen_reset. split_and!; try done. by apply (reach_mono pos).
      * exists U, rs', pos, top. split_and!; try done; [by apply (chain_weaken (2 * t))|].
        by destruct Hq as [-> | [-> | ->]].
    + destruct func; try done; by destruct (send_queue o).
    + destruct Hq as [-> | [-> | [-> | ->]]]; simpl; try done; by destruct (send_queue o).
Qed.

(** ** What a master delivers *)

Definition handed (m : Link) : list bytes := lk_delivered (lk_actions m).

Lemma handed_push a m : lk_delivery_of a = None -> handed (lk_push a m) = handed m.
Proof. intros E. destruct m. unfold handed. cbn. rewrite lk_delivered_app. cbn. by rewrite E, app_nil_r. Qed.
Lemma handed_set m : handed (set_lk_pending None m) = handed m.
Proof. by destruct m. Qed.
Lemma handed_transition v m : handed (transition_link v m) = handed m.
Proof. unfold transition_link. destruct (negb _); [|done]. rewrite handed_push by done. by destruct m. Qed.
Lemma handed_confirm f now m : handed (send_with_confirm f now m) = handed m.
Proof. rewrite <- (handed_push (SendFrame f) m eq_refl). by destruct m. Qed.
Lemma handed_flush now m : handed (maybe_flush_queue now m) = handed m.
Proof.
  unfold maybe_flush_queue. destruct (lk_pending m); [done|]. destruct (send_queue m) as [|asdu qu]; [done|].
  etrans; [|apply (handed_confirm (user_frame (link_address (lk_config m)) (fcb m) asdu) now)]. by destruct m.
Qed.
Lemma handed_timers now m : handed (lk_run_timers now m) = handed m.
Proof.
  unfold lk_run_timers. destruct (lk_pending m) as [p|]; [|done]. destruct (_ <=? _)%Z; [|done]. destruct (_ <? _)%Z.
  - rewrite handed_push by done. destruct (negb _); [rewrite handed_push by done|]; by destruct m.
  - rewrite handed_push by done. by destruct m.
Qed.

Lemma handed_frame f now m : handed m = [] -> handed (master_on_frame f now m) `sublist_of` option_list (answer_data f).
Proof.
  intros Hm. assert (∀ m', handed m' = [] -> handed m' `sublist_of` option_list (answer_data f)) as H0 by (intros m' ->; apply sublist_nil_l).
  assert (∀ r, handed (emit_link_error r m) = []) as He by (intros; unfold emit_link_error; by rewrite handed_push).
  assert (∀ m' r, handed m' = [] -> handed (emit_link_error r m') = []) as He' by (intros; unfold emit_link_error; by rewrite handed_push).
  assert (∀ m', handed m' = [] -> handed (maybe_flush_queue now m') = []) as Hf by (intros; by rewrite handed_flush).
  assert (∀ m' v, handed m' = [] -> handed (transition_link v m') = []) as Ht by (intros; by rewrite handed_transition).
  assert (handed (set_lk_pending None m) = []) as Hc by by rewrite handed_set.
  destruct f as [[]|control a|control a asdu]; cbn [master_on_frame]; [by repeat case_match; auto|by auto| |].
  - unfold master_on_secondary_fixed. repeat case_match; auto.
  - destruct (ControlField_decode control DirSecondary) as [[|acd dfc []]|]; auto. cbn [answer_data option_list].
    revert Hm. unfold handed. destruct m. cbn. intros Hm. rewrite lk_delivered_app. unfold lk_delivered in *. by rewrite Hm.
Qed.

(** A master hands over what it has received, and nothing else. *)
Lemma master_delivers i now m : lk_role m = Master -> lk_actions m = [] ->
  lk_delivered (lk_handle i now m).2 `sublist_of` match i with FrameReceived f => option_list (answer_data f) | _ => [] end.
Proof.
  intros Hr Hac. assert (handed m = []) as Hm by (unfold handed; by rewrite Hac).
  unfold lk_handle. cbn [snd]. fold (handed (lk_run_timers now (lk_on_input i now m))). rewrite handed_timers.
  destruct i as [f| |asdu| | | |]; cbn [lk_on_input];
    unfold on_frame, on_send_user_data, on_request_status, on_reset_remote_link, on_request_class; rewrite ?Hr, ?Hm;
    [by apply handed_frame|done|..]; repeat case_match; rewrite ?handed_flush, ?handed_confirm, ?handed_set, ?Hm; try done.
  destruct m. cbn in *. by subst.
Qed.
End Ranks.

(** ** Every run of the line *)

Definition once_inv (addr : LinkAddress) (s : line) : Prop :=
  lk_role (ln_m s) = Master /\ link_address (lk_config (ln_m s)) = addr /\ lk_actions (ln_m s) = [] /\
  outstation_ok addr (ln_o s) /\
  once addr (last_fcb_seen (ln_o s)) (lk_delivered (log_o s)) (sub_m s) (m2o s) (ln_m s) /\
  ∃ S, S ++ send_queue (ln_o s) = sub_o s /\ lk_delivered (log_m s) ++ omap answer_data (o2m s) `sublist_of` S.

(** A call of the master. *)
Lemma once_master addr s i now om : once_inv addr s ->
  match i with FrameReceived f => o2m s = f :: om | _ => om = o2m s end ->
  once_inv addr (master_step i now om s).
Proof.
  intros (Hr & Ha & Hac & Ho & Hon & S & HS & Hsub) Hi. unfold master_step.
  pose proof (master_delivers i now (ln_m s) Hr Hac) as Hd.
  pose proof (mst_handle addr (last_fcb_seen (ln_o s)) (lk_delivered (log_o s)) (m2o s) now (sub_m s) (ln_m s) i) as Hh.
  destruct (lk_handle i now (ln_m s)) as [m' acts]. destruct Hh as (H1 & H2 & H3 & H4); [|done|].
  { split; [done|]. split; [done|]. rewrite Hac. cbn. by rewrite app_nil_r. }
  split_and!; try done. exists S. split; [done|]. cbn. rewrite lk_delivered_app. etrans; [|exact Hsub].
  rewrite <- app_assoc. apply sublist_app; [done|]. destruct i; subst; try by apply (sublist_app _ []).
  rewrite Hi. cbn in Hd |- *. by destruct (answer_data f) as [d|]; [apply (sublist_app _ [d])|apply (sublist_app _ [])].
Qed.

Lemma once_step addr s s' : line_step s s' -> once_inv addr s -> once_inv addr s'.
Proof.
  intros Hs Hinv. pose proof Hinv as (Hr & Ha & Hac & Ho & Hon & S & HS & Hsub).
  destruct Hs as [s i now Hi|s f rest now Ef|s i now Hi|s f rest now Ef|s f rest Ef|s f rest Ef].
  - apply once_master; [done|by destruct i].
  - by apply once_master.
  - unfold outstation_step. pose proof (outstation_local addr _ i now Ho Hi) as Hx.
    destruct (lk_handle i now (ln_o s)) as [o' acts]. destruct Hx as (-> & Ho' & Hl & Hq). cbn.
    split_and!; try done; cbn; rewrite ?app_nil_r; [by rewrite Hl|]. exists S. by rewrite Hq, app_assoc, HS.
  - rewrite Ef in Hon. unfold outstation_step.
    destruct (once_arrives addr now _ _ _ _ _ _ Ho Hon) as (o' & acts & Q & -> & Ho' & Hon' & Hq & HQ). cbn.
    split_and!; try done; cbn; [by rewrite lk_delivered_app|]. exists (S ++ Q). rewrite <- HS, Hq, app_nil_r, app_assoc.
    split; [done|]. rewrite omap_app, HQ, app_assoc. by apply sublist_app.
  - rewrite Ef in Hon. apply once_lose in Hon. split_and!; try done. by exists S.
  - split_and!; try done. exists S. split; [done|]. etrans; [|exact Hsub]. cbn. apply sublist_app; [done|].
    rewrite Ef. cbn. destruct (answer_data f); [by constructor|done].
Qed.

Lemma once_reachable cfgM cfgO s : link_address cfgM = link_address cfgO -> line_reachable cfgM cfgO s ->
  once_inv (link_address cfgM) s.
Proof.
  intros Ha Hr. assert (once_inv (link_address cfgM) (line_init cfgM cfgO)) as H.
  { split_and!; try done; [|by exists []]. exists [], [], 0, 0. by split_and!; try constructor. }
  revert H. unfold line_reachable in Hr. induction Hr as [|s1 s2 s3 Hs _ IH]; [done|]. intros H. by eapply IH, once_step.
Qed.

(** C7. At most once and in order, whatever happens: master and outstation on
    a line that keeps the order of frames, with losses and delays of any kind
    in both directions, copies of a frame that overtake the acknowledgement of
    the first, resets at any moment and a master that goes on after it has
    given up a frame. What the outstation has delivered is a subsequence of
    what was submitted at the master, and what the master has delivered is
    one of what was submitted at the outstation: nothing arrives twice,
    altered or out of order. *)
Theorem line_at_most_once cfgM cfgO s : link_address cfgM = link_address cfgO -> line_reachable cfgM cfgO s ->
  lk_delivered (log_o s) `sublist_of` sub_m s /\ lk_delivered (log_m s) `sublist_of` sub_o s.
Proof.
  intros Ha Hr. destruct (once_reachable _ _ _ Ha Hr) as (_ & _ & _ & _ & (U & rs & pos & top & HU & _ & _ & _ & _ & _ & HD) & S & HS & Hsub).
  split.
  - rewrite <- HU. apply sublist_inserts_r. etrans; [exact HD|]. apply sublist_take.
  - rewrite <- HS. apply sublist_inserts_r. etrans; [|exact Hsub]. by apply sublist_inserts_r.
Qed.

(** ** A sample run *)

(** A move at time [now]; one that is not enabled changes nothing. *)
Definition rough_do (s : line) (mv : line_move * Instant) : line :=
  let '(m, now) := mv in
  match m with
  | CallM (FrameReceived _) | CallO (FrameReceived _) => s
  | CallM i => master_step i now (o2m s) s
  | CallO i => outstation_step i now (m2o s) s
  | RecvM => match o2m s with f :: rest => master_step (FrameReceived f) now rest s | [] => s end
  | RecvO => match m2o s with f :: rest => outstation_step (FrameReceived f) now rest s | [] => s end
  | LoseM2O => match m2o s with
      f :: rest => mkLine (ln_m s) (ln_o s) rest (o2m s) (log_m s) (log_o s) (sub_m s) (sub_o s) | [] => s end
  | LoseO2M => match o2m s with
      f :: rest => mkLine (ln_m s) (ln_o s) (m2o s) rest (log_m s) (log_o s) (sub_m s) (sub_o s) | [] => s end
  end.

Lemma rough_do_step mv s : rtc line_step s (rough_do s mv).
Proof.
  destruct mv as [[i|i| | | |] now]; cbn [rough_do].
  - destruct i; try done; apply rtc_once; by apply line_master.
  - destruct i; try done; apply rtc_once; by apply line_outstation.
  - destruct (o2m s) eqn:E; [done|]. apply rtc_once. by apply line_master_recv.
  - destruct (m2o s) eqn:E; [done|]. apply rtc_once. by apply line_outstation_recv.
  - destruct (m2o s) eqn:E; [done|]. apply rtc_once. by eapply line_lose_m2o.
  - destruct (o2m s) eqn:E; [done|]. apply rtc_once. by eapply line_lose_o2m.
Qed.

Lemma rough_run_steps ms s : rtc line_step s (foldl rough_do s ms).
Proof. revert s. induction ms as [|mv ms IH]; intros s; [done|]. etrans; [apply rough_do_step|apply IH]. Qed.

(** The second ASDU is lost four times and given up; the third carries the
    frame count bit of the first and is taken for a copy of it; the fourth
    arrives. A frame of the first is still on the line while the second is
    sent. *)
Definition rough_line : line := foldl rough_do (line_init LkConfig_default LkConfig_default)
  [(CallM (SendUserData [1]), 0); (CallM LkTick, 1000); (RecvO, 1001); (RecvM, 1002);
   (CallM (SendUserData [2]), 1010); (RecvO, 1020); (LoseO2M, 1020); (LoseM2O, 1030); (CallM LkTick, 2020); (LoseM2O, 2030); (CallM LkTick, 3030);
   (LoseM2O, 3040); (CallM LkTick, 4040); (LoseM2O, 4050); (CallM LkTick, 5050);
   (CallM (SendUserData [3]), 6000); (RecvO, 6010); (RecvM, 6020); (CallM (SendUserData [4]), 6030); (RecvO, 6040)]%Z.

Lemma line_at_most_once_witness :
  (link_state (ln_m rough_line) = Failed /\ lk_delivered (log_o rough_line) = [[1]; [4]]%Z /\
   sub_m rough_line = [[1]; [2]; [3]; [4]]%Z) /\
  lk_delivered (log_o rough_line) `sublist_of` sub_m rough_line /\ lk_delivered (log_m rough_line) `sublist_of` sub_o rough_line.
Proof.
  split; [vm_compute; done|].
  exact (line_at_most_once LkConfig_default LkConfig_default rough_line eq_refl (rough_run_steps _ _)).
Defined.
