(* ===== verification/FileSession.v ===== *)
(** * The file-transfer session

    [file_transfer/session.rs]: the sans-I/O state machine of one transfer, in
    either role. The handlers are functions on the [Session] record, [step] is
    the entry point; as in the source the actions are collected in the state
    and taken at the end of the call. *)

From S2P Require Import Prelude AsduHeader AsduFile.

(** session.rs 21-21, DEFAULT_SEGMENT_BYTES. *)
Definition DEFAULT_SEGMENT_BYTES : nat := 240.
(** session.rs 25-33, SessionConfig. *)
Record SessionConfig := mkSessionConfig { max_segment_bytes : nat; idle_timeout : Duration; sess_ioa : Ioa }.
(** session.rs 35-43, SessionConfig::default. *)
Definition SessionConfig_default : SessionConfig :=
  mkSessionConfig DEFAULT_SEGMENT_BYTES 30000 0.
(** session.rs 47-53, Role. *)
Inductive FtRole := Receiver | Sender.
(** session.rs 57-72, FailureReason. *)
Inductive FailureReason :=
| FtTimeout | PeerRejected | LocallyRejected | ChecksumMismatch | ProtocolViolation | Aborted.
(** session.rs 76-100, SessionState. *)
Inductive SessionState :=
| FtIdle | RxAwaitFileReady | RxAwaitSectionReady | RxReceivingSegments | TxAwaitSelect | TxAwaitRequest
| TxSendingSegments | TxAwaitAck | FtCompleted | FtFailed.
(** session.rs 104-127, SessionInput. *)
Inductive SessionInput :=
| Start (length : Z) | FileReady (a : F_FR_NA_1) | SectionReady (a : F_SR_NA_1) | SelectCall (a : F_SC_NA_1)
| LastSection (a : F_LS_NA_1) | AckFile (a : F_AF_NA_1) | Segment (a : F_SG_NA_1)
| SegmentReady (data : bytes) | FtTick | FtAbort.
(** session.rs 131-155, SessionAction. *)
Inductive SessionAction :=
| SendFileReady (a : F_FR_NA_1) | SendSectionReady (a : F_SR_NA_1) | SendSelectCall (a : F_SC_NA_1)
| SendLastSection (a : F_LS_NA_1) | SendAckFile (a : F_AF_NA_1) | SendSegment (a : F_SG_NA_1)
| RequestNextSegment (max_bytes : nat) | DeliverSegment (data : bytes)
| Completed (nbytes : Z) | FailedWith (r : FailureReason).

#[export] Instance FtRole_eq_dec : EqDecision FtRole.
Proof. solve_decision. Defined.
#[export] Instance SessionState_eq_dec : EqDecision SessionState.
Proof. solve_decision. Defined.

(** session.rs 159-182, Session. *)
Record Session := mkSession {
  s_role : FtRole; s_nof : NameOfFile; s_state : SessionState; s_config : SessionConfig;
  file_length : Z; section_length : Z; bytes_transferred : Z; section_checksum : Checksum;
  last_progress : option Instant; awaiting_provider : bool; s_actions : list SessionAction }.

(** session.rs 188-202, Session::new. *)
Definition Session_new (role : FtRole) (nof : NameOfFile) (config : SessionConfig) : Session :=
  mkSession role nof FtIdle config 0 0 0 (mkChecksum 0) None false [].

(** Field updates. *)
Definition set_s_state v s := let '(mkSession ro nf _ cf fl sl bt ch lp aw ac) := s in mkSession ro nf v cf fl sl bt ch lp aw ac.
Definition set_file_length v s := let '(mkSession ro nf st cf _ sl bt ch lp aw ac) := s in mkSession ro nf st cf v sl bt ch lp aw ac.
Definition set_section_length v s := let '(mkSession ro nf st cf fl _ bt ch lp aw ac) := s in mkSession ro nf st cf fl v bt ch lp aw ac.
Definition set_bytes v s := let '(mkSession ro nf st cf fl sl _ ch lp aw ac) := s in mkSession ro nf st cf fl sl v ch lp aw ac.
Definition set_checksum v s := let '(mkSession ro nf st cf fl sl bt _ lp aw ac) := s in mkSession ro nf st cf fl sl bt v lp aw ac.
Definition set_progress v s := let '(mkSession ro nf st cf fl sl bt ch _ aw ac) := s in mkSession ro nf st cf fl sl bt ch v aw ac.
Definition set_awaiting v s := let '(mkSession ro nf st cf fl sl bt ch lp _ ac) := s in mkSession ro nf st cf fl sl bt ch lp v ac.
Definition take_actions s := let '(mkSession ro nf st cf fl sl bt ch lp aw _) := s in mkSession ro nf st cf fl sl bt ch lp aw [].

(** session.rs 487-489, Session::emit. *)
Definition emit (a : SessionAction) (s : Session) : Session :=
  let '(mkSession ro nf st cf fl sl bt ch lp aw ac) := s in mkSession ro nf st cf fl sl bt ch lp aw (ac ++ [a]).

(** session.rs 221-223, Session::is_terminal. *)
Definition is_terminal (s : Session) : bool :=
  match s_state s with FtCompleted | FtFailed => true | _ => false end.

(** session.rs 479-485, Session::fail. *)
Definition fail_session (reason : FailureReason) (s : Session) : Session :=
  if is_terminal s then s else emit (FailedWith reason) (set_s_state FtFailed s).

(** [u32::saturating_add] of a length. *)
Definition add_len (n : Z) (data : bytes) : Z := Z.min (n + as_u32 (Z.of_nat (length data))) 4294967295.

(** [usize::clamp]. *)
Definition clamp (lo hi n : nat) : nat := if (n <? lo)%nat then lo else if (hi <? n)%nat then hi else n.

(** session.rs 453-460, Session::request_next_segment. *)
Definition request_next_segment (s : Session) : Session :=
  if awaiting_provider s then s else
  let max := clamp 1 MAX_SEGMENT_BYTES (max_segment_bytes (s_config s)) in
  emit (RequestNextSegment max) (set_awaiting true s).

(** session.rs 462-477, Session::check_timeout. *)
Definition check_timeout (now : Instant) (s : Session) : Session :=
  if is_terminal s then s else
  if bool_decide (s_state s = FtIdle) then s else
  match last_progress s with
  | Some last => if idle_timeout (s_config s) <=? since now last then fail_session FtTimeout s else s
  | None => set_progress (Some now) s
  end.

(** session.rs 248-274, Session::on_start. *)
Definition on_start (length : Z) (s : Session) : Session :=
  if negb (bool_decide (s_state s = FtIdle)) then s else
  match s_role s with
  | Receiver =>
      set_s_state RxAwaitFileReady
        (emit (SendSelectCall (mkF_SC (sess_ioa (s_config s)) (s_nof s) WHOLE_FILE (Scq_new SelectFile 0))) s)
  | Sender =>
      let s := set_section_length length (set_file_length length s) in
      set_s_state TxAwaitSelect
        (emit (SendFileReady (mkF_FR (sess_ioa (s_config s)) (s_nof s) (mkLof length) Frq_READY)) s)
  end.

(** session.rs 276-300, Session::on_file_ready. *)
Definition on_file_ready (asdu : F_FR_NA_1) (now : Instant) (s : Session) : Session :=
  if negb (bool_decide (s_role s = Receiver)) then s else
  if negb (bool_decide (s_state s = RxAwaitFileReady)) then fail_session ProtocolViolation s else
  let s := set_progress (Some now) s in
  if frq_negative (fr_frq asdu) then fail_session PeerRejected s else
  let s := set_section_length (lof_0 (fr_lof asdu)) (set_file_length (lof_0 (fr_lof asdu)) s) in
  set_s_state RxAwaitSectionReady
    (emit (SendSelectCall (mkF_SC (sess_ioa (s_config s)) (s_nof s) WHOLE_FILE (Scq_new RequestFile 0))) s).

(** session.rs 302-316, Session::on_section_ready. *)
Definition on_section_ready (asdu : F_SR_NA_1) (now : Instant) (s : Session) : Session :=
  if negb (bool_decide (s_role s = Receiver)) || negb (bool_decide (s_state s = RxAwaitSectionReady))
  then fail_session ProtocolViolation s else
  let s := set_progress (Some now) s in
  if srq_negative (sr_srq asdu) then fail_session PeerRejected s else
  let s := set_section_length (los_0 (sr_los asdu)) s in
  let s := set_checksum (mkChecksum 0) (set_bytes 0 s) in
  set_s_state RxReceivingSegments s.

(** session.rs 318-360, Session::on_select_call. *)
Definition on_select_call (asdu : F_SC_NA_1) (now : Instant) (s : Session) : Session :=
  if negb (bool_decide (s_role s = Sender)) then fail_session ProtocolViolation s else
  let s := set_progress (Some now) s in
  match s_state s, scq_action (sc_scq asdu) with
  | FtIdle, SelectFile | TxAwaitSelect, SelectFile =>
      set_s_state TxAwaitRequest
        (emit (SendFileReady (mkF_FR (sess_ioa (s_config s)) (s_nof s) (mkLof (file_length s)) Frq_READY)) s)
  | TxAwaitRequest, RequestFile =>
      let s := set_bytes 0 (set_checksum (mkChecksum 0) s) in
      let s := emit (SendSectionReady (mkF_SR (sess_ioa (s_config s)) (s_nof s) (mkNos 1)
                 (mkLos (section_length s)) Srq_READY)) s in
      set_s_state TxSendingSegments (request_next_segment s)
  | _, DeactivateFile | _, DeleteFile | _, DeactivateSection => fail_session Aborted s
  | _, _ => fail_session ProtocolViolation s
  end.

(** session.rs 362-389, Session::on_last_section. *)
Definition on_last_section (asdu : F_LS_NA_1) (now : Instant) (s : Session) : Session :=
  if negb (bool_decide (s_role s = Receiver)) || negb (bool_decide (s_state s = RxReceivingSegments))
  then fail_session ProtocolViolation s else
  let s := set_progress (Some now) s in
  if negb (chs_0 (ls_chs asdu) =? chs_0 (section_checksum s)) then
    fail_session ChecksumMismatch
      (emit (SendAckFile (mkF_AF (sess_ioa (s_config s)) (s_nof s) (ls_nos asdu) (Afq_new NegativeSection 0))) s)
  else
    let s := emit (SendAckFile (mkF_AF (sess_ioa (s_config s)) (s_nof s) (ls_nos asdu) (Afq_new PositiveFile 0))) s in
    let nbytes := bytes_transferred s in
    emit (Completed nbytes) (set_s_state FtCompleted s).

(** session.rs 391-405, Session::on_ack_file. *)
Definition on_ack_file (asdu : F_AF_NA_1) (now : Instant) (s : Session) : Session :=
  if negb (bool_decide (s_role s = Sender)) || negb (bool_decide (s_state s = TxAwaitAck))
  then fail_session ProtocolViolation s else
  let s := set_progress (Some now) s in
  match afq_action (af_afq asdu) with
  | PositiveFile | PositiveSection => emit (Completed (bytes_transferred s)) (set_s_state FtCompleted s)
  | _ => fail_session PeerRejected s
  end.

(** session.rs 407-418, Session::on_segment. *)
Definition on_segment (asdu : F_SG_NA_1) (now : Instant) (s : Session) : Session :=
  if negb (bool_decide (s_role s = Receiver)) || negb (bool_decide (s_state s = RxReceivingSegments))
  then fail_session ProtocolViolation s else
  let s := set_progress (Some now) s in
  let s := set_checksum (Checksum_update_slice (section_checksum s) (sg_segment asdu)) s in
  let s := set_bytes (add_len (bytes_transferred s) (sg_segment asdu)) s in
  emit (DeliverSegment (sg_segment asdu)) s.

(** session.rs 420-449, Session::on_segment_ready. *)
Definition on_segment_ready (data : bytes) (now : Instant) (s : Session) : Session :=
  if negb (bool_decide (s_role s = Sender)) || negb (bool_decide (s_state s = TxSendingSegments)) then s else
  let s := set_awaiting false s in
  match data with
  | [] =>
      let s := emit (SendLastSection (mkF_LS (sess_ioa (s_config s)) (s_nof s) (mkNos 1)
                 FileWithoutDeactivate (section_checksum s))) s in
      set_progress (Some now) (set_s_state TxAwaitAck s)
  | _ :: _ =>
      let s := set_checksum (Checksum_update_slice (section_checksum s) data) s in
      let s := set_bytes (add_len (bytes_transferred s) data) s in
      let s := set_progress (Some now) s in
      let s := emit (SendSegment (mkF_SG (sess_ioa (s_config s)) (s_nof s) (mkNos 1) data)) s in
      request_next_segment s
  end.

(** session.rs 226-244, Session::step. *)
Definition step (input : SessionInput) (now : Instant) (s : Session) : Session * list SessionAction :=
  if is_terminal s then (s, []) else
  let s :=
    match input with
    | Start length => on_start length s
    | FileReady asdu => on_file_ready asdu now s
    | SectionReady asdu => on_section_ready asdu now s
    | SelectCall asdu => on_select_call asdu now s
    | LastSection asdu => on_last_section asdu now s
    | AckFile asdu => on_ack_file asdu now s
    | Segment asdu => on_segment asdu now s
    | SegmentReady data => on_segment_ready data now s
    | FtTick => s
    | FtAbort => fail_session Aborted s
    end in
  let s := check_timeout now s in
  (take_actions s, s_actions s).

(** A session driven through a list of timed inputs. *)
Fixpoint ft_session (inputs : list (SessionInput * Instant)) (s : Session) : Session * list SessionAction :=
  match inputs with
  | [] => (s, [])
  | (i, now) :: inputs' =>
      let '(s1, a1) := step i now s in
      let '(s2, a2) := ft_session inputs' s1 in (s2, a1 ++ a2)
  end.

Arguments Checksum_update_slice : simpl never.
Arguments Checksum_of : simpl never.
Arguments add_len : simpl never.
Arguments since : simpl never.
Arguments step : simpl never.
Arguments clamp : simpl never.
Arguments Scq_new : simpl never.
Arguments Afq_new : simpl never.

Lemma ft_session_app a b s :
  ft_session (a ++ b) s =
  let '(s1, x) := ft_session a s in let '(s2, y) := ft_session b s1 in (s2, x ++ y).
Proof.
  revert s. induction a as [|[i now] a IH]; intros s; cbn [app ft_session].
  - by destruct (ft_session b s).
  - destruct (step i now s) as [s1 a1]. rewrite IH.
    destruct (ft_session a s1) as [s2 a2]. destruct (ft_session b s2). by rewrite app_assoc.
Qed.

(** The handler of an input, before the timeout check. *)
Definition dispatch (input : SessionInput) (now : Instant) (s : Session) : Session :=
  match input with
  | Start length => on_start length s
  | FileReady asdu => on_file_ready asdu now s
  | SectionReady asdu => on_section_ready asdu now s
  | SelectCall asdu => on_select_call asdu now s
  | LastSection asdu => on_last_section asdu now s
  | AckFile asdu => on_ack_file asdu now s
  | Segment asdu => on_segment asdu now s
  | SegmentReady data => on_segment_ready data now s
  | FtTick => s
  | FtAbort => fail_session Aborted s
  end.

Lemma step_dispatch i now s : is_terminal s = false ->
  step i now s = (take_actions (check_timeout now (dispatch i now s)),
                  s_actions (check_timeout now (dispatch i now s))).
Proof. intros H. unfold step. by rewrite H. Qed.

Lemma step_terminal i now s : is_terminal s = true -> step i now s = (s, []).
Proof. intros H. unfold step. by rewrite H. Qed.

(** An invariant over what has been received and what has been returned, with
    the actions still held in the session. *)
Create HintDb ft_recv.
Create HintDb ft_send.

Section Run.
Context (allowed : SessionInput -> Prop) (inv : list SessionInput -> list SessionAction -> Session -> Prop).
Hypothesis inv_dispatch : ∀ ins log i now s, allowed i -> is_terminal s = false -> inv ins (log ++ s_actions s) s ->
  inv (ins ++ [i]) (log ++ s_actions (dispatch i now s)) (dispatch i now s).
Hypothesis inv_terminal : ∀ ins log i s, is_terminal s = true -> inv ins log s -> inv (ins ++ [i]) log s.
Hypothesis inv_progress : ∀ ins log s p, is_terminal s = false -> inv ins log s -> inv ins log (set_progress p s).
Hypothesis inv_fail : ∀ ins log s r, is_terminal s = false -> inv ins log s ->
  inv ins (log ++ [FailedWith r]) (set_s_state FtFailed s).
Hypothesis inv_actions : ∀ ins log s x, inv ins log s ->
  (let '(mkSession ro nf st cf fl sl bt ch lp aw _) := s in inv ins log (mkSession ro nf st cf fl sl bt ch lp aw x)).

Lemma inv_set_actions ins log s : inv ins log s -> inv ins log (take_actions s).
Proof. intros H. pose proof (inv_actions ins log s [] H). by destruct s. Qed.

Lemma inv_timeout ins log now s : inv ins (log ++ s_actions s) s ->
  inv ins (log ++ s_actions (check_timeout now s)) (check_timeout now s).
Proof.
  intros H. unfold check_timeout. destruct (is_terminal s) eqn:E; [done|].
  destruct (bool_decide _); [done|]. destruct (last_progress s) as [last|].
  - destruct (_ <=? _); [|done]. unfold fail_session. rewrite E.
    pose proof (inv_fail _ _ _ FtTimeout E H) as Hx. apply (inv_actions _ _ _ (s_actions s ++ [FailedWith FtTimeout])) in Hx.
    destruct s; simpl in *. by rewrite app_assoc.
  - pose proof (inv_progress _ _ _ (Some now) E H) as Hx. by destruct s.
Qed.

Lemma inv_step ins log i now s s' acts : allowed i -> s_actions s = [] -> inv ins log s -> step i now s = (s', acts) ->
  inv (ins ++ [i]) (log ++ acts) s' /\ s_actions s' = [].
Proof.
  intros Hi Hac H Hs. destruct (is_terminal s) eqn:E.
  - rewrite step_terminal in Hs by done. injection Hs as <- <-. rewrite app_nil_r. auto.
  - rewrite step_dispatch in Hs by done. injection Hs as <- <-. split.
    + apply inv_set_actions, inv_timeout, inv_dispatch; [done..|]. by rewrite Hac, app_nil_r.
    + by destruct (check_timeout now (dispatch i now s)).
Qed.

Lemma inv_session inputs : ∀ ins log s s' acts, Forall allowed inputs.*1 -> s_actions s = [] -> inv ins log s ->
  ft_session inputs s = (s', acts) -> inv (ins ++ inputs.*1) (log ++ acts) s'.
Proof.
  induction inputs as [|[i now] inputs IH]; intros ins log s s' acts Hi Hac H; cbn [ft_session].
  all: try (rewrite fmap_cons in Hi; inversion Hi as [|? ? Hi1 Hi2]; subst).
  - intros [= <- <-]. by rewrite !app_nil_r.
  - destruct (step i now s) as [s1 a1] eqn:E1. destruct (ft_session inputs s1) as [s2 a2] eqn:E2.
    intros [= <- <-]. destruct (inv_step _ _ _ _ _ _ _ Hi1 Hac H E1) as [H1 Hac1].
    specialize (IH _ _ _ _ _ Hi2 Hac1 H1 E2). rewrite <- !app_assoc in IH. exact IH.
Qed.
End Run.

Lemma all_allowed inputs : Forall (fun _ : SessionInput => True) inputs.
Proof. by apply Forall_true. Qed.

(** ** One end *)

Definition ends (a : SessionAction) : bool :=
  match a with Completed _ | FailedWith _ => true | _ => false end.

Definition quiet (log : list SessionAction) : Prop := Forall (fun a => ends a = false) log.

(** The last action announces the terminal state, and none before does. *)
Definition end_inv (_ : list SessionInput) (log : list SessionAction) (s : Session) : Prop :=
  match s_state s with
  | FtCompleted => ∃ pre n, log = pre ++ [Completed n] /\ quiet pre
  | FtFailed => ∃ pre r, log = pre ++ [FailedWith r] /\ quiet pre
  | _ => quiet log
  end.

Lemma quiet_snoc log a : quiet log -> ends a = false -> quiet (log ++ [a]).
Proof. intros H Ha. apply Forall_app. split; [done|]. by constructor. Qed.

Lemma end_inv_dispatch ins log i now s : is_terminal s = false -> end_inv ins (log ++ s_actions s) s ->
  end_inv (ins ++ [i]) (log ++ s_actions (dispatch i now s)) (dispatch i now s).
Proof.
  destruct s as [ro nf st cf fl sl bt ch lp aw ac]. intros Ht H.
  assert (Hl : quiet (log ++ ac)) by (by destruct st).
  unfold end_inv, dispatch, on_start, on_file_ready, on_section_ready, on_select_call, on_last_section,
    on_ack_file, on_segment, on_segment_ready, request_next_segment, fail_session.
  destruct i; destruct ro, st; simpl in *; try done; repeat case_match; simpl in *; try done;
  rewrite ?app_assoc; auto using quiet_snoc; (eexists _, _; split; [reflexivity|auto using quiet_snoc]).
Qed.

Lemma end_inv_session inputs role nof cfg s acts :
  ft_session inputs (Session_new role nof cfg) = (s, acts) -> end_inv inputs.*1 acts s.
Proof.
  apply (inv_session (fun _ => True) end_inv) with (ins := []) (log := []); auto using all_allowed, end_inv_dispatch.
  - intros ins log [? ? st] p Ht H. by destruct st.
  - intros ins log [? ? st] r Ht H. simpl in *. exists log, r. split; [done|]. by destruct st.
  - intros ins log [] x H. exact H.
  - constructor.
Qed.

(** A session ends once: whatever its inputs, it returns at most one
    [Completed] or [Failed] action, it returns it exactly when it enters the
    terminal state of that name, and that action is the last one it ever
    returns. *)
Theorem session_ends_once inputs role nof cfg s acts :
  ft_session inputs (Session_new role nof cfg) = (s, acts) ->
  (is_terminal s = true <-> ∃ pre a, acts = pre ++ [a] /\ ends a = true /\ quiet pre) /\
  (is_terminal s = false -> quiet acts) /\
  (s_state s = FtCompleted -> ∃ n, last acts = Some (Completed n)) /\
  (s_state s = FtFailed -> ∃ r, last acts = Some (FailedWith r)).
Proof.
  intros Hs. pose proof (end_inv_session _ _ _ _ _ _ Hs) as H. unfold end_inv, is_terminal in *.
  assert (Hq : quiet acts -> ¬ ∃ pre a, acts = pre ++ [a] /\ ends a = true /\ quiet pre).
  { intros Hq (pre & a & -> & Ha & _). apply Forall_app in Hq as [_ Hq]. inversion Hq. congruence. }
  destruct (s_state s); split_and!; try done; try (by split; [|intros Hx; destruct (Hq H Hx)]);
  destruct H as (pre & x & -> & Hp); rewrite ?last_snoc; eauto; split; eauto 6.
Qed.

(** ** The receiver *)

Definition delivery_of (a : SessionAction) : option bytes :=
  match a with DeliverSegment d => Some d | _ => None end.
Definition delivered_segments (acts : list SessionAction) : list bytes := omap delivery_of acts.
Definition segment_of (i : SessionInput) : option bytes :=
  match i with Segment sg => Some (sg_segment sg) | _ => None end.
Definition received_segments (ins : list SessionInput) : list bytes := omap segment_of ins.

(** The byte count a run of segments leaves in [bytes_transferred]. *)
Definition counted (segs : list bytes) : Z := fold_left add_len segs 0.

Lemma counted_snoc segs d : counted (segs ++ [d]) = add_len (counted segs) d.
Proof. unfold counted. by rewrite fold_left_app. Qed.

Lemma counted_total segs : Forall (fun d => Z.of_nat (length d) < 4294967296) segs ->
  counted segs = Z.min (Z.of_nat (length (concat segs))) 4294967295.
Proof.
  induction segs as [|d segs IH] using rev_ind; intros H; [done|].
  apply Forall_app in H as [H1 H2]. inversion H2 as [|? ? Hd _]; subst.
  rewrite counted_snoc, IH by done. unfold add_len, as_u32. rewrite Z.mod_small by lia.
  rewrite concat_app, length_app. cbn. rewrite app_nil_r. lia.
Qed.

Lemma checksum_snoc segs d :
  Checksum_update_slice (Checksum_of (concat segs)) d = Checksum_of (concat (segs ++ [d])).
Proof. rewrite Checksum_update_slice_of, concat_app. cbn. by rewrite app_nil_r. Qed.

(** The session completed on a last-section ASDU that carries the checksum of
    everything received, all of which was delivered. *)
Definition completion (ins : list SessionInput) (log : list SessionAction) : Prop :=
  ∃ pre ls post, ins = pre ++ LastSection ls :: post /\
    delivered_segments log = received_segments pre /\
    chs_0 (ls_chs ls) = chs_0 (Checksum_of (concat (received_segments pre))) /\
    last log = Some (Completed (counted (received_segments pre))).

Definition recv_inv (ins : list SessionInput) (log : list SessionAction) (s : Session) : Prop :=
  s_role s = Receiver /\ delivered_segments log `prefix_of` received_segments ins /\
  match s_state s with
  | FtIdle | RxAwaitFileReady | RxAwaitSectionReady => received_segments ins = []
  | RxReceivingSegments =>
      delivered_segments log = received_segments ins /\
      section_checksum s = Checksum_of (concat (received_segments ins)) /\
      bytes_transferred s = counted (received_segments ins)
  | FtCompleted => completion ins log
  | FtFailed => True
  | _ => False
  end.

Lemma received_other ins i : segment_of i = None -> received_segments (ins ++ [i]) = received_segments ins.
Proof. intros H. unfold received_segments. rewrite omap_app. cbn. rewrite H. by rewrite app_nil_r. Qed.
Lemma received_segment ins sg :
  received_segments (ins ++ [Segment sg]) = received_segments ins ++ [sg_segment sg].
Proof. unfold received_segments. by rewrite omap_app. Qed.
Lemma delivered_other log a : delivery_of a = None -> delivered_segments (log ++ [a]) = delivered_segments log.
Proof. intros H. unfold delivered_segments. rewrite omap_app. cbn. rewrite H. by rewrite app_nil_r. Qed.
Lemma delivered_segment log d : delivered_segments (log ++ [DeliverSegment d]) = delivered_segments log ++ [d].
Proof. unfold delivered_segments. by rewrite omap_app. Qed.

Ltac ft_unfold := unfold dispatch, on_start, on_file_ready, on_section_ready, on_select_call, on_last_section,
    on_ack_file, on_segment, on_segment_ready, request_next_segment, fail_session in *.

(** An input that is not a segment, or one that ends the session. *)
Lemma recv_dispatch_quiet ins log i now s : is_terminal s = false -> segment_of i = None ->
  (∀ ls, i ≠ LastSection ls) ->
  recv_inv ins (log ++ s_actions s) s ->
  recv_inv (ins ++ [i]) (log ++ s_actions (dispatch i now s)) (dispatch i now s).
Proof.
  destruct s as [ro nf st cf fl sl bt ch lp aw ac]. intros Ht Hi Hls (Hr & Hp & Hs). simpl in *. subst.
  unfold recv_inv. rewrite received_other by done.
  destruct i as [| | | | | | | | |]; try done; try (by destruct (Hls a)).
  all: ft_unfold; destruct st; simpl in *; try done; repeat case_match; simpl in *; simplify_eq; try done.
  all: rewrite ?app_assoc, ?delivered_other by done; split_and!; try done.
  all: rewrite Hs in *; apply prefix_nil_inv in Hp; rewrite ?Hp; done.
Qed.

Lemma recv_dispatch_segment ins log sg now s : is_terminal s = false ->
  recv_inv ins (log ++ s_actions s) s ->
  recv_inv (ins ++ [Segment sg]) (log ++ s_actions (dispatch (Segment sg) now s)) (dispatch (Segment sg) now s).
Proof.
  destruct s as [ro nf st cf fl sl bt ch lp aw ac]. intros Ht (Hr & Hp & Hs). simpl in *. subst.
  unfold recv_inv. rewrite received_segment.
  ft_unfold. destruct st; simpl in *; try done; rewrite app_assoc, ?delivered_other by done.
  1-3: split_and!; [done|by apply prefix_app_r|done].
  destruct Hs as (Hd & -> & ->). rewrite delivered_segment, Hd, checksum_snoc, counted_snoc. done.
Qed.

Lemma recv_dispatch_last ins log ls now s : is_terminal s = false ->
  recv_inv ins (log ++ s_actions s) s ->
  recv_inv (ins ++ [LastSection ls]) (log ++ s_actions (dispatch (LastSection ls) now s)) (dispatch (LastSection ls) now s).
Proof.
  destruct s as [ro nf st cf fl sl bt ch lp aw ac]. intros Ht (Hr & Hp & Hs). simpl in *. subst.
  unfold recv_inv. rewrite received_other by done.
  ft_unfold. destruct st; simpl in *; try done; try (rewrite app_assoc, ?delivered_other by done; done).
  destruct Hs as (Hd & -> & ->). destruct (chs_0 (ls_chs ls) =? _) eqn:Ec; simpl;
  rewrite !app_assoc, !delivered_other by done; split_and!; try done.
  exists ins, ls, []. rewrite !delivered_other, last_snoc by done. apply Z.eqb_eq in Ec. done.
Qed.

Lemma recv_dispatch ins log i now s : is_terminal s = false -> recv_inv ins (log ++ s_actions s) s ->
  recv_inv (ins ++ [i]) (log ++ s_actions (dispatch i now s)) (dispatch i now s).
Proof.
  intros Ht H. destruct i; try (by apply recv_dispatch_quiet).
  - by apply recv_dispatch_last.
  - by apply recv_dispatch_segment.
Qed.

Lemma recv_inv_terminal ins log i s : is_terminal s = true -> recv_inv ins log s -> recv_inv (ins ++ [i]) log s.
Proof.
  destruct s as [? ? st]. intros Ht (Hr & Hp & Hs). simpl in *. split_and!; [done| |].
  - unfold received_segments. rewrite omap_app. by apply prefix_app_r.
  - destruct st; try done. destruct Hs as (pre & ls & post & -> & Hx). exists pre, ls, (post ++ [i]).
    by rewrite <- app_assoc.
Qed.
Lemma recv_inv_progress ins log s p : is_terminal s = false -> recv_inv ins log s -> recv_inv ins log (set_progress p s).
Proof. destruct s as [? ? st]. intros Ht H. by destruct st. Qed.
Lemma recv_inv_fail ins log s r : is_terminal s = false -> recv_inv ins log s ->
  recv_inv ins (log ++ [FailedWith r]) (set_s_state FtFailed s).
Proof. destruct s. intros Ht (Hr & Hp & Hs). split_and!; [done| |done]. simpl. by rewrite delivered_other. Qed.
Lemma recv_inv_actions ins log s x : recv_inv ins log s ->
  let '(mkSession ro nf st cf fl sl bt ch lp aw _) := s in recv_inv ins log (mkSession ro nf st cf fl sl bt ch lp aw x).
Proof. by destruct s. Qed.
#[export] Hint Resolve recv_dispatch recv_inv_terminal recv_inv_progress recv_inv_fail : ft_recv.

Lemma recv_inv_step ins log i now s s' acts : s_actions s = [] -> recv_inv ins log s ->
  step i now s = (s', acts) -> recv_inv (ins ++ [i]) (log ++ acts) s' /\ s_actions s' = [].
Proof. apply (inv_step (fun _ => True) recv_inv); try exact recv_inv_actions; auto with ft_recv. Qed.

Lemma recv_inv_session inputs nof cfg s acts :
  ft_session inputs (Session_new Receiver nof cfg) = (s, acts) -> recv_inv inputs.*1 acts s.
Proof.
  apply (inv_session (fun _ => True) recv_inv) with (ins := []) (log := []); try exact recv_inv_actions; auto using all_allowed with ft_recv.
  done.
Qed.

(** Integrity at the receiver: whatever ASDUs arrive and in whatever order,
    what a receiver hands to storage is a prefix of the segments received, and
    it reports [Completed] only on a last-section ASDU whose checksum is that
    of the concatenation of everything received up to then, all of which has
    been handed over; the byte count it reports is their total length. *)
Theorem receiver_integrity inputs nof cfg s acts :
  Forall (fun d => Z.of_nat (length d) <= 255) (received_segments inputs.*1) ->
  ft_session inputs (Session_new Receiver nof cfg) = (s, acts) ->
  delivered_segments acts `prefix_of` received_segments inputs.*1 /\
  (s_state s = FtCompleted -> ∃ pre ls post, inputs.*1 = pre ++ LastSection ls :: post /\
     delivered_segments acts = received_segments pre /\
     chs_0 (ls_chs ls) = bytes_sum (concat (received_segments pre)) mod 256 /\
     last acts = Some (Completed (Z.min (Z.of_nat (length (concat (received_segments pre)))) 4294967295))).
Proof.
  intros Hl Hs. destruct (recv_inv_session _ _ _ _ _ Hs) as (_ & Hp & Hc). split; [done|].
  intros E. rewrite E in Hc. destruct Hc as (pre & ls & post & Hi & Hd & Hx & Hlast).
  exists pre, ls, post. split_and!; [done..| |].
  - rewrite Hx, Checksum_of_sum. done.
  - rewrite Hlast, counted_total; [done|]. rewrite Hi in Hl. unfold received_segments in Hl.
    rewrite omap_app in Hl. apply Forall_app in Hl as [Hl _]. eapply Forall_impl; [exact Hl|]. simpl. lia.
Qed.

(** ** The sender *)

(** The part of a sender's output that carries the file: segments, and the
    checksum of a last section. *)
Definition stream_of (a : SessionAction) : option (bytes + Z) :=
  match a with
  | SendSegment sg => Some (inl (sg_segment sg))
  | SendLastSection ls => Some (inr (chs_0 (ls_chs ls)))
  | _ => None
  end.
Definition stream (acts : list SessionAction) : list (bytes + Z) := omap stream_of acts.
Definition request_of (a : SessionAction) : option nat :=
  match a with RequestNextSegment n => Some n | _ => None end.
Definition requests (acts : list SessionAction) : list nat := omap request_of acts.
Definition chunk_of (i : SessionInput) : option bytes :=
  match i with SegmentReady d => Some d | _ => None end.
Definition chunks (ins : list SessionInput) : list bytes := omap chunk_of ins.

Lemma stream_other log a : stream_of a = None -> stream (log ++ [a]) = stream log.
Proof. intros H. unfold stream. rewrite omap_app. cbn. rewrite H. by rewrite app_nil_r. Qed.
Lemma stream_snoc log a x : stream_of a = Some x -> stream (log ++ [a]) = stream log ++ [x].
Proof. intros H. unfold stream. rewrite omap_app. cbn. by rewrite H. Qed.
Lemma requests_other log a : request_of a = None -> requests (log ++ [a]) = requests log.
Proof. intros H. unfold requests. rewrite omap_app. cbn. rewrite H. by rewrite app_nil_r. Qed.
Lemma requests_snoc log n : requests (log ++ [RequestNextSegment n]) = requests log ++ [n].
Proof. unfold requests. by rewrite omap_app. Qed.

Lemma clamp_range n : (1 <= clamp 1 MAX_SEGMENT_BYTES n <= 255)%nat.
Proof. unfold clamp, MAX_SEGMENT_BYTES. destruct (Nat.ltb_spec n 1); [lia|]. destruct (Nat.ltb_spec 255 n); lia. Qed.

(** The segments sent so far, and whether the closing checksum has followed. *)
Definition shipped (segs : list bytes) (closed : bool) (log : list SessionAction) : Prop :=
  stream log = (inl <$> segs) ++ (if closed then [inr (chs_0 (Checksum_of (concat segs)))] else []).

Definition send_inv (ins : list SessionInput) (log : list SessionAction) (s : Session) : Prop :=
  s_role s = Sender /\ Forall (fun n => 1 <= n <= 255)%nat (requests log) /\
  ∃ segs closed, shipped segs closed log /\ segs `sublist_of` chunks ins /\ Forall (fun d => d ≠ []) segs /\
  match s_state s with
  | FtIdle | TxAwaitSelect | TxAwaitRequest =>
      segs = [] /\ closed = false /\ awaiting_provider s = false /\ requests log = []
  | TxSendingSegments =>
      closed = false /\ awaiting_provider s = true /\ length (requests log) = S (length segs) /\
      section_checksum s = Checksum_of (concat segs) /\ bytes_transferred s = counted segs
  | TxAwaitAck => closed = true /\ length (requests log) = S (length segs) /\ bytes_transferred s = counted segs
  | FtCompleted => closed = true /\ length (requests log) = S (length segs) /\
      last log = Some (Completed (counted segs))
  | FtFailed => (length (requests log) <= S (length segs))%nat
  | _ => False
  end.

Lemma send_inv_silent ins log s i : send_inv ins log s -> chunk_of i = None -> send_inv (ins ++ [i]) log s.
Proof.
  intros H Hi. unfold send_inv, chunks. rewrite omap_app. cbn. rewrite Hi. by rewrite app_nil_r.
Qed.

Lemma send_inv_input ins log s d : send_inv ins log s -> send_inv (ins ++ [SegmentReady d]) log s.
Proof.
  intros (Hr & Hq & segs & closed & H1 & H2 & H3 & H4). split_and!; [done..|]. exists segs, closed.
  split_and!; try done. unfold chunks. rewrite omap_app. by apply sublist_inserts_r.
Qed.

Lemma send_inv_fail ins log s r : is_terminal s = false -> send_inv ins log s ->
  send_inv ins (log ++ [FailedWith r]) (set_s_state FtFailed s).
Proof.
  intros Ht (Hr & Hq & segs & closed & H1 & H2 & H3 & H4).
  destruct s as [ro nf st cf fl sl bt ch lp aw ac]. simpl in *. split; [done|]. unfold shipped.
  rewrite requests_other, stream_other by done. split; [done|]. exists segs, closed. split_and!; try done.
  destruct st; try done; simpl in H4; rewrite ?requests_other by done.
  all: destruct_and? H4; simplify_eq; simpl; try lia; rewrite H6; simpl; lia.
Qed.

(** In a state before the data phase nothing has been shipped. *)
Lemma send_open ins log s s' a : send_inv ins (log ++ s_actions s) s -> s_role s' = Sender ->
  (s_state s = FtIdle \/ s_state s = TxAwaitSelect \/ s_state s = TxAwaitRequest) ->
  (s_state s' = TxAwaitSelect \/ s_state s' = TxAwaitRequest) -> awaiting_provider s' = awaiting_provider s ->
  stream_of a = None -> request_of a = None -> s_actions s' = s_actions s ++ [a] ->
  send_inv ins (log ++ s_actions s') s'.
Proof.
  intros (Hr & Hq & segs & closed & H1 & H2 & H3 & H4) Hr' Hs Hs' Ha Hst Hre ->.
  split; [done|]. rewrite app_assoc, requests_other by done. split; [done|]. exists [], false.
  unfold shipped in *. rewrite stream_other by done.
  assert (Hx : segs = [] /\ closed = false /\ awaiting_provider s = false /\ requests (log ++ s_actions s) = [])
    by (by destruct Hs as [E | [E | E]]; rewrite E in H4).
  destruct Hx as (-> & -> & Hy & Hz). split_and!; [done|apply sublist_nil_l|done|].
  rewrite <- Ha in Hy. by destruct Hs' as [E | E]; rewrite E.
Qed.

Lemma send_fail ins log s s' r : is_terminal s = false -> send_inv ins (log ++ s_actions s) s ->
  s' = emit (FailedWith r) (set_s_state FtFailed s) -> send_inv ins (log ++ s_actions s') s'.
Proof.
  intros Ht H ->. apply (send_inv_fail _ _ _ r Ht) in H. destruct s. simpl in *. by rewrite app_assoc.
Qed.

Lemma send_dispatch_quiet ins log i now s : is_terminal s = false -> chunk_of i = None ->
  (∀ a, i ≠ AckFile a) -> (∀ a, i ≠ SelectCall a) -> send_inv ins (log ++ s_actions s) s ->
  send_inv (ins ++ [i]) (log ++ s_actions (dispatch i now s)) (dispatch i now s).
Proof.
  intros Ht Hc Ha Hsc H. apply (send_inv_silent _ _ _ i) in H; [|done].
  pose proof (proj1 H) as Hr. pose proof (fun r s' => send_fail (ins ++ [i]) log s s' r Ht H) as Hf.
  pose proof (fun s' a => send_open (ins ++ [i]) log s s' a H) as Ho.
  destruct s as [ro nf st cf fl sl bt ch lp aw ac]. simpl in Hr. subst.
  destruct i; try done; try (by destruct (Ha a)); try (by destruct (Hsc a));
  ft_unfold; destruct st; simpl in *; try done; try (by eapply Hf);
  (eapply Ho; [done|auto|auto|done| | |reflexivity]; done).
Qed.

Lemma send_dispatch_ack ins log a now s : is_terminal s = false -> send_inv ins (log ++ s_actions s) s ->
  send_inv (ins ++ [AckFile a]) (log ++ s_actions (dispatch (AckFile a) now s)) (dispatch (AckFile a) now s).
Proof.
  intros Ht H. apply (send_inv_silent _ _ _ (AckFile a)) in H; [|done].
  pose proof (proj1 H) as Hr. pose proof (fun r s' => send_fail (ins ++ [AckFile a]) log s s' r Ht H) as Hf.
  destruct s as [ro nf st cf fl sl bt ch lp aw ac]. simpl in Hr. subst.
  simpl. unfold on_ack_file. simpl.
  destruct (bool_decide (st = TxAwaitAck)) eqn:E; simpl.
  - apply bool_decide_eq_true in E. subst st.
    assert (Hq : send_inv (ins ++ [AckFile a]) (log ++ ac) (mkSession Sender nf TxAwaitAck cf fl sl bt ch (Some now) aw ac)) by exact H.
    assert (Hok : send_inv (ins ++ [AckFile a]) (log ++ ac ++ [Completed bt])
      (mkSession Sender nf FtCompleted cf fl sl bt ch (Some now) aw (ac ++ [Completed bt]))).
    { destruct H as (Hr & Hreq & segs & closed & H1 & H2 & H3 & -> & Hn & Hb). simpl in Hb. subst bt.
      split; [done|]. rewrite app_assoc, requests_other by done. split; [done|]. exists segs, true.
      unfold shipped in *. rewrite stream_other by done. split_and!; try done. simpl.
      by rewrite last_snoc. }
    destruct (afq_action (af_afq a)); try exact Hok; unfold fail_session; simpl;
    exact (send_fail _ log (mkSession Sender nf TxAwaitAck cf fl sl bt ch (Some now) aw ac) _ PeerRejected eq_refl Hq eq_refl).
  - unfold fail_session. rewrite Ht. by eapply Hf.
Qed.

Lemma send_dispatch_call ins log a now s : is_terminal s = false -> send_inv ins (log ++ s_actions s) s ->
  send_inv (ins ++ [SelectCall a]) (log ++ s_actions (dispatch (SelectCall a) now s)) (dispatch (SelectCall a) now s).
Proof.
  intros Ht H. apply (send_inv_silent _ _ _ (SelectCall a)) in H; [|done]. revert H. generalize (ins ++ [SelectCall a]).
  clear ins. intros ins H. pose proof (proj1 H) as Hr.
  destruct s as [ro nf st cf fl sl bt ch lp aw ac]. simpl in Hr. subst. simpl. unfold on_select_call. simpl.
  pose (s1 := mkSession Sender nf st cf fl sl bt ch (Some now) aw ac).
  assert (Hp : send_inv ins (log ++ s_actions s1) s1) by exact H. clear H.
  pose proof (fun r s' => send_fail ins log s1 s' r Ht Hp) as Hf.
  pose proof (fun s' x => send_open ins log s1 s' x Hp) as Ho. subst s1.
  destruct st; try done; destruct (scq_action (sc_scq a)); unfold fail_session; simpl;
  try (by eapply Hf); try (eapply Ho; [done|simpl; auto|simpl; auto|done| | |reflexivity]; done).
  destruct Hp as (_ & Hreq & segs & closed & H1 & H2 & H3 & -> & -> & Haw & Hn). simpl in *. subst aw.
  unfold request_next_segment. simpl. split; [done|].
  rewrite app_assoc, app_assoc, requests_snoc, requests_other, Hn by done. split.
  { constructor; [|done]. apply clamp_range. }
  exists [], false. unfold shipped in *. rewrite stream_other, stream_other by done.
  split_and!; try done.
Qed.

Lemma send_dispatch_chunk ins log d now s : is_terminal s = false -> send_inv ins (log ++ s_actions s) s ->
  send_inv (ins ++ [SegmentReady d]) (log ++ s_actions (dispatch (SegmentReady d) now s)) (dispatch (SegmentReady d) now s).
Proof.
  intros Ht H. pose proof (proj1 H) as Hr.
  destruct s as [ro nf st cf fl sl bt ch lp aw ac]. simpl in Hr. subst. simpl. unfold on_segment_ready. simpl.
  destruct (bool_decide (st = TxSendingSegments)) eqn:E; simpl; [|by apply send_inv_input].
  apply bool_decide_eq_true in E. subst st. clear Ht.
  destruct H as (_ & Hq & segs & closed & H1 & H2 & H3 & -> & Haw & Hn & Hch & Hbt). simpl in *. subst.
  assert (Hsub : ∀ x, chunks (ins ++ [SegmentReady x]) = chunks ins ++ [x]) by (intros x; unfold chunks; by rewrite omap_app).
  unfold shipped in *. rewrite app_nil_r in H1. destruct d as [|b d]; simpl.
  - split; [done|]. rewrite app_assoc, requests_other by done. split; [done|]. exists segs, true. unfold shipped.
    rewrite (stream_snoc _ _ (inr (chs_0 (Checksum_of (concat segs))))), H1, Hsub by done.
    split_and!; try done. by apply sublist_inserts_r.
  - unfold request_next_segment. simpl. split; [done|]. rewrite app_assoc, app_assoc, requests_snoc, requests_other by done. split.
    { apply Forall_app. split; [done|]. constructor; [apply clamp_range|done]. }
    exists (segs ++ [b :: d]), false. unfold shipped.
    rewrite stream_other by done. rewrite (stream_snoc _ _ (inl (b :: d))), H1, Hsub, app_nil_r, fmap_app by done.
    split_and!; try done; [by apply sublist_app|apply Forall_app; by split; [|constructor]|].
    rewrite !length_app, Hn, <- checksum_snoc, counted_snoc. done.
Qed.

Lemma send_dispatch ins log i now s : is_terminal s = false -> send_inv ins (log ++ s_actions s) s ->
  send_inv (ins ++ [i]) (log ++ s_actions (dispatch i now s)) (dispatch i now s).
Proof.
  intros Ht H. destruct i; try (by apply send_dispatch_quiet).
  - by apply send_dispatch_call.
  - by apply send_dispatch_ack.
  - by apply send_dispatch_chunk.
Qed.

Lemma send_inv_terminal ins log i s : is_terminal s = true -> send_inv ins log s -> send_inv (ins ++ [i]) log s.
Proof.
  intros Ht H. destruct (chunk_of i) eqn:E; [|by apply send_inv_silent].
  destruct i; try done. by apply send_inv_input.
Qed.
Lemma send_inv_progress ins log s p : is_terminal s = false -> send_inv ins log s -> send_inv ins log (set_progress p s).
Proof. destruct s as [? ? st]. intros Ht H. by destruct st. Qed.
Lemma send_inv_actions ins log s x : send_inv ins log s ->
  let '(mkSession ro nf st cf fl sl bt ch lp aw _) := s in send_inv ins log (mkSession ro nf st cf fl sl bt ch lp aw x).
Proof. by destruct s. Qed.
#[export] Hint Resolve send_dispatch send_inv_terminal send_inv_progress send_inv_fail : ft_send.

Lemma send_inv_step ins log i now s s' acts : s_actions s = [] -> send_inv ins log s ->
  step i now s = (s', acts) -> send_inv (ins ++ [i]) (log ++ acts) s' /\ s_actions s' = [].
Proof. apply (inv_step (fun _ => True) send_inv); try exact send_inv_actions; auto with ft_send. Qed.

Lemma send_inv_new nof cfg : send_inv [] [] (Session_new Sender nof cfg).
Proof. split_and!; [done|constructor|]. exists [], false. by split_and!. Qed.

Lemma send_inv_session inputs nof cfg s acts :
  ft_session inputs (Session_new Sender nof cfg) = (s, acts) -> send_inv inputs.*1 acts s.
Proof.
  apply (inv_session (fun _ => True) send_inv) with (ins := []) (log := []); try exact send_inv_actions;
    auto using all_allowed, send_inv_new with ft_send.
Qed.

(** The stream of a sender: what it transmits is a run of non-empty
    segments taken in order from the chunks its provider handed over, followed
    at most once by a last-section ASDU whose checksum is that of all segments
    sent; nothing follows the last section. Every chunk is asked for with a
    size between 1 and 255 octets, one request at a time, and a completed
    sender has closed the stream and reports the total length. *)
Theorem sender_stream inputs nof cfg s acts :
  Forall (fun d => Z.of_nat (length d) <= 255) (chunks inputs.*1) ->
  ft_session inputs (Session_new Sender nof cfg) = (s, acts) ->
  ∃ segs closed,
    stream acts = (inl <$> segs) ++
      (if (closed : bool) then [inr (bytes_sum (concat segs) mod 256)] else []) /\
    segs `sublist_of` chunks inputs.*1 /\ Forall (fun d => d ≠ []) segs /\
    Forall (fun n => 1 <= n <= 255)%nat (requests acts) /\
    (length (requests acts) <= S (length segs))%nat /\
    (s_state s = FtCompleted -> closed = true /\
       last acts = Some (Completed (Z.min (Z.of_nat (length (concat segs))) 4294967295))).
Proof.
  intros Hl Hs. destruct (send_inv_session _ _ _ _ _ Hs) as (_ & Hq & segs & closed & H1 & H2 & H3 & H4).
  exists segs, closed. unfold shipped in H1. rewrite Checksum_of_sum in H1. split_and!; try done.
  - destruct (s_state s); try done; destruct_and? H4; try lia; rewrite H6; simpl; lia.
  - intros E. rewrite E in H4. destruct H4 as (-> & _ & ->). split; [done|].
    rewrite counted_total; [done|]. rewrite Forall_forall in *. intros d Hd. specialize (Hl d).
    eapply Z.le_lt_trans; [apply Hl; by eapply elem_of_sublist|done].
Qed.

(** ** Progress of time *)

Lemma session_held ins role nof cfg s acts :
  ft_session ins (Session_new role nof cfg) = (s, acts) -> s_actions s = [].
Proof.
  enough (∀ s0, s_actions s0 = [] -> ft_session ins s0 = (s, acts) -> s_actions s = []) as H by (by apply H).
  revert acts. induction ins as [|[i now] ins IH]; intros acts s0 Hs0; cbn [ft_session]; [by intros [= <- _]|].
  destruct (step i now s0) as [s1 a1] eqn:H1. destruct (ft_session ins s1) as [s2 a2] eqn:H2. intros [= <- _].
  apply (IH a2 s1); [|done]. unfold step in H1. destruct (is_terminal s0); [congruence|].
  injection H1 as <- _. by destruct (check_timeout _ _).
Qed.

(** A session that has left [Idle] does not return there. *)
Lemma step_awake i now s s' acts : step i now s = (s', acts) -> s_state s ≠ FtIdle -> s_state s' ≠ FtIdle.
Proof.
  unfold step. destruct (is_terminal s) eqn:Ht; [by intros [= <- <-]|]. intros [= <- <-] Hs.
  destruct s as [ro nf st cf fl sl bt ch lp aw ac]. unfold check_timeout. cbn in Hs.
  destruct i; ft_unfold; destruct ro, st; try done; cbn; repeat (case_match; cbn in *; try done).
Qed.

Lemma ft_session_progress ins role nof cfg s acts :
  ft_session ins (Session_new role nof cfg) = (s, acts) -> s_state s ≠ FtIdle -> is_terminal s = false ->
  is_Some (last_progress s).
Proof.
  destruct ins as [|[i now] ins _] using rev_ind; [by intros [= <- <-]|]. rewrite ft_session_app.
  destruct (ft_session ins _) as [s0 a0]. cbn [ft_session]. destruct (step i now s0) as [s1 a1] eqn:Hs.
  intros [= <- <-] Hawake Hopen. destruct (is_terminal s0) eqn:Ht.
  { rewrite step_terminal in Hs by done. injection Hs as <- <-. congruence. }
  rewrite step_dispatch in Hs by done. injection Hs as <- <-. revert Hawake Hopen. generalize (dispatch i now s0).
  intros [ro nf st cf fl sl bt ch lp aw ac]. unfold check_timeout, fail_session.
  destruct st; cbn; try done; destruct lp as [p|]; cbn; try done; destruct (_ <=? _); cbn; intros; try done; by eexists.
Qed.

Lemma session_keeps_config ins role nof cfg s acts :
  ft_session ins (Session_new role nof cfg) = (s, acts) -> idle_timeout (s_config s) = idle_timeout cfg.
Proof.
  revert s acts. induction ins as [|[i now] ins IH] using rev_ind; intros s acts; [by intros [= <- <-]|].
  rewrite ft_session_app. destruct (ft_session ins _) as [s0 a0] eqn:H0. rewrite <- (IH _ _ eq_refl). cbn [ft_session].
  destruct (step i now s0) as [s1 a1] eqn:Hs. intros [= <- <-]. destruct (is_terminal s0) eqn:Ht.
  { rewrite step_terminal in Hs by done. by injection Hs as <- <-. }
  rewrite step_dispatch in Hs by done. injection Hs as <- <-. clear.
  destruct s0 as [ro nf st cf fl sl bt ch lp aw ac]. unfold check_timeout.
  destruct i; ft_unfold; destruct ro, st; cbn; repeat (case_match; cbn; try done); done.
Qed.

Lemma start_open role nof cfg len now s acts :
  step (Start len) now (Session_new role nof cfg) = (s, acts) -> is_terminal s = false.
Proof. by destruct role; intros [= <- <-]. Qed.

Lemma start_awake role nof cfg len now s acts :
  step (Start len) now (Session_new role nof cfg) = (s, acts) -> s_state s ≠ FtIdle.
Proof. by destruct role; intros [= <- <-]. Qed.

Lemma tick_expires now s t : is_terminal s = false -> s_state s ≠ FtIdle -> s_actions s = [] -> last_progress s = Some t ->
  idle_timeout (s_config s) <= since now t -> (step FtTick now s).2 = [FailedWith FtTimeout].
Proof.
  intros Ht Hs Ha Hp Hi. unfold step. rewrite Ht. unfold check_timeout, fail_session. rewrite Ht, bool_decide_eq_false_2 by done.
  rewrite Hp. apply Z.leb_le in Hi. rewrite Hi. destruct s. cbn in *. by rewrite Ha.
Qed.

(** ** Sample runs *)

Definition sample_cfg : SessionConfig := mkSessionConfig 4 500 0.
Definition sample_nof : NameOfFile := mkNof 7.

Definition rx_inputs : list (SessionInput * Instant) :=
  [(Start 0, 0); (FileReady (mkF_FR 0 sample_nof (mkLof 6) Frq_READY), 10);
   (SectionReady (mkF_SR 0 sample_nof (mkNos 1) (mkLos 6) Srq_READY), 20);
   (Segment (mkF_SG 0 sample_nof (mkNos 1) [1; 2; 3; 4]), 30);
   (Segment (mkF_SG 0 sample_nof (mkNos 1) [250; 251]), 40);
   (LastSection (mkF_LS 0 sample_nof (mkNos 1) FileWithoutDeactivate (mkChecksum 255)), 50)].
Definition rx_result := ft_session rx_inputs (Session_new Receiver sample_nof sample_cfg).

Definition tx_inputs : list (SessionInput * Instant) :=
  [(SelectCall (mkF_SC 0 sample_nof WHOLE_FILE (Scq_new SelectFile 0)), 0);
   (SelectCall (mkF_SC 0 sample_nof WHOLE_FILE (Scq_new RequestFile 0)), 10);
   (SegmentReady [1; 2; 3; 4], 20); (SegmentReady [250; 251], 30); (SegmentReady [], 40);
   (AckFile (mkF_AF 0 sample_nof (mkNos 1) (Afq_new PositiveFile 0)), 50)].
Definition tx_result := ft_session tx_inputs (Session_new Sender sample_nof sample_cfg).

Lemma session_ends_once_witness :
  (is_terminal rx_result.1 = true <-> ∃ pre a, rx_result.2 = pre ++ [a] /\ ends a = true /\ quiet pre) /\
  (is_terminal rx_result.1 = false -> quiet rx_result.2) /\
  (s_state rx_result.1 = FtCompleted -> ∃ n, last rx_result.2 = Some (Completed n)) /\
  (s_state rx_result.1 = FtFailed -> ∃ r, last rx_result.2 = Some (FailedWith r)).
Proof. apply (session_ends_once rx_inputs Receiver sample_nof sample_cfg). reflexivity. Defined.

Lemma receiver_integrity_witness :
  delivered_segments rx_result.2 = [[1; 2; 3; 4]; [250; 251]] /\
  (delivered_segments rx_result.2 `prefix_of` received_segments rx_inputs.*1 /\
   (s_state rx_result.1 = FtCompleted -> ∃ pre ls post, rx_inputs.*1 = pre ++ LastSection ls :: post /\
     delivered_segments rx_result.2 = received_segments pre /\
     chs_0 (ls_chs ls) = bytes_sum (concat (received_segments pre)) mod 256 /\
     last rx_result.2 = Some (Completed (Z.min (Z.of_nat (length (concat (received_segments pre)))) 4294967295)))).
Proof.
  split; [reflexivity|]. apply (receiver_integrity rx_inputs sample_nof sample_cfg); [|reflexivity].
  vm_compute. repeat constructor; discriminate.
Defined.

Lemma sender_stream_witness :
  ∃ segs closed,
    stream tx_result.2 = (inl <$> segs) ++
      (if (closed : bool) then [inr (bytes_sum (concat segs) mod 256)] else []) /\
    segs `sublist_of` chunks tx_inputs.*1 /\ Forall (fun d => d ≠ []) segs /\
    Forall (fun n => 1 <= n <= 255)%nat (requests tx_result.2) /\
    (length (requests tx_result.2) <= S (length segs))%nat /\
    (s_state tx_result.1 = FtCompleted -> closed = true /\
       last tx_result.2 = Some (Completed (Z.min (Z.of_nat (length (concat segs))) 4294967295))).
Proof.
  apply (sender_stream tx_inputs sample_nof sample_cfg); [|reflexivity].
  vm_compute. repeat constructor; discriminate.
Defined.

(** Both samples complete. *)
Lemma samples_complete : s_state rx_result.1 = FtCompleted /\ s_state tx_result.1 = FtCompleted /\
  stream tx_result.2 = [inl [1; 2; 3; 4]; inl [250; 251]; inr 255].
Proof. vm_compute. done. Qed.

(** The announced length is not enforced: a receiver that was told six octets
    accepts and delivers more, and completes. *)
Lemma announced_length_unchecked :
  let '(s, acts) := ft_session
    (take 3 rx_inputs ++ [(Segment (mkF_SG 0 sample_nof (mkNos 1) (replicate 200 0)), 30);
       (LastSection (mkF_LS 0 sample_nof (mkNos 1) FileWithoutDeactivate (mkChecksum 0)), 50)])
    (Session_new Receiver sample_nof sample_cfg) in
  s_state s = FtCompleted /\ file_length s = 6 /\ last acts = Some (Completed 200).
Proof. vm_compute. done. Qed.

(** A session that nobody started and that receives a file offer as its first
    input, as the service creates it, fails instead of accepting. *)
Lemma unsolicited_offer_fails :
  ft_session [(FileReady (mkF_FR 0 sample_nof (mkLof 6) Frq_READY), 0)] (Session_new Receiver sample_nof sample_cfg) =
  (mkSession Receiver sample_nof FtFailed sample_cfg 0 0 0 (mkChecksum 0) None false [],
   [FailedWith ProtocolViolation]).
Proof. vm_compute. done. Qed.
