(* ===== verification/FileTransfer.v ===== *)
(** * A file transfer end to end

    A sending and a receiving [Session] of [file_transfer/session.rs] joined by
    two first-in first-out channels, with the provider that reads the file in
    chunks on request. Either application may start, abort or tick its session
    at any time; ASDUs and chunks arrive in any interleaving. *)

From S2P Require Import Prelude AsduHeader AsduFile FileSession.

(** The input that an emitted ASDU becomes at the peer. *)
Definition message_of (a : SessionAction) : option SessionInput :=
  match a with
  | SendFileReady x => Some (FileReady x) | SendSectionReady x => Some (SectionReady x)
  | SendSelectCall x => Some (SelectCall x) | SendLastSection x => Some (LastSection x)
  | SendAckFile x => Some (AckFile x) | SendSegment x => Some (Segment x)
  | _ => None
  end.
Definition messages (acts : list SessionAction) : list SessionInput := omap message_of acts.

Definition local_input (i : SessionInput) : bool :=
  match i with Start _ | FtTick | FtAbort => true | _ => false end.
Definition is_message (i : SessionInput) : bool :=
  match i with Start _ | FtTick | FtAbort | SegmentReady _ => false | _ => true end.

Record xfer := mkXfer {
  xs : Session; xr : Session; s2r : list SessionInput; r2s : list SessionInput;
  inS : list SessionInput; outS : list SessionAction;
  inR : list SessionInput; outR : list SessionAction; rest : bytes }.

Definition xfer_init (nofS nofR : NameOfFile) (cfgS cfgR : SessionConfig) (file : bytes) : xfer :=
  mkXfer (Session_new Sender nofS cfgS) (Session_new Receiver nofR cfgR) [] [] [] [] [] [] file.

Definition snd_step (i : SessionInput) (now : Instant) (r2s' : list SessionInput) (rest' : bytes) (x : xfer) : xfer :=
  let '(s', acts) := step i now (xs x) in
  mkXfer s' (xr x) (s2r x ++ messages acts) r2s' (inS x ++ [i]) (outS x ++ acts) (inR x) (outR x) rest'.
Definition rcv_step (i : SessionInput) (now : Instant) (s2r' : list SessionInput) (x : xfer) : xfer :=
  let '(s', acts) := step i now (xr x) in
  mkXfer (xs x) s' s2r' (r2s x ++ messages acts) (inS x) (outS x) (inR x ++ [i]) (outR x ++ acts) (rest x).

(** A served file, as [on_incoming] of the file-transfer service prepares it:
    the session is told the length and the actions of that call are dropped. *)
Definition snd_load (len : Z) (now : Instant) (x : xfer) : xfer :=
  mkXfer (step (Start len) now (xs x)).1 (xr x) (s2r x) (r2s x) (inS x ++ [Start len]) (outS x)
         (inR x) (outR x) (rest x).

(** A chunk is wanted when the sender has asked more often than it was answered. *)
Definition wanted (x : xfer) : bool := (length (chunks (inS x)) <? length (requests (outS x)))%nat.

Inductive xfer_step : xfer -> xfer -> Prop :=
| x_snd_local x i now : local_input i = true -> xfer_step x (snd_step i now (r2s x) (rest x) x)
| x_snd_load x len now : s_state (xs x) = FtIdle -> xfer_step x (snd_load len now x)
| x_snd_recv x m ms now : r2s x = m :: ms -> xfer_step x (snd_step m now ms (rest x) x)
| x_provide x d r now : wanted x = true -> rest x = d ++ r -> (d = [] -> r = []) ->
    xfer_step x (snd_step (SegmentReady d) now (r2s x) r x)
| x_rcv_local x i now : local_input i = true -> xfer_step x (rcv_step i now (s2r x) x)
| x_rcv_recv x m ms now : s2r x = m :: ms -> xfer_step x (rcv_step m now ms x).

Definition xfer_reachable nofS nofR cfgS cfgR file (x : xfer) : Prop :=
  rtc xfer_step (xfer_init nofS nofR cfgS cfgR file) x.

(** ** The data path of the sender *)

Definition stream_in_of (i : SessionInput) : option (bytes + Z) :=
  match i with
  | Segment sg => Some (inl (sg_segment sg)) | LastSection ls => Some (inr (chs_0 (ls_chs ls)))
  | _ => None
  end.
Definition stream_in (ins : list SessionInput) : list (bytes + Z) := omap stream_in_of ins.

Lemma stream_messages acts : stream_in (messages acts) = stream acts.
Proof.
  unfold stream, stream_in, messages. induction acts as [|a acts IH]; [done|]. cbn.
  destruct a; cbn; rewrite ?IH; done.
Qed.

Definition starting (st : SessionState) : Prop := st = FtIdle \/ st = TxAwaitSelect \/ st = TxAwaitRequest.

(** Where the state of a sender can go without a chunk. *)
Definition quiet_move (st st' : SessionState) : Prop :=
  st' = FtFailed \/ st' = st \/ (starting st /\ (starting st' \/ st' = TxSendingSegments)) \/
  (st = TxAwaitAck /\ st' = FtCompleted).

Lemma timeout_move now s : stream (s_actions (check_timeout now s)) = stream (s_actions s) /\
  (s_state (check_timeout now s) = FtFailed \/ s_state (check_timeout now s) = s_state s).
Proof.
  unfold check_timeout, fail_session. destruct (is_terminal s) eqn:E; [auto|].
  destruct (bool_decide _); [auto|]. destruct (last_progress s); [|destruct s; auto].
  destruct (_ <=? _); [|auto]. destruct s; simpl. rewrite stream_other by done. auto.
Qed.

Lemma quiet_dispatch i now s : s_role s = Sender -> is_terminal s = false -> s_actions s = [] -> chunk_of i = None ->
  stream (s_actions (dispatch i now s)) = [] /\ quiet_move (s_state s) (s_state (dispatch i now s)).
Proof.
  destruct s as [ro nf st cf fl sl bt ch lp aw ac]. simpl. intros -> Ht -> Hi. unfold quiet_move, starting.
  destruct i; try done; ft_unfold; destruct st; simpl in *; try done;
  repeat case_match; simpl; (split; [done|tauto]).
Qed.

Lemma quiet_step i now s s' acts : s_role s = Sender -> s_actions s = [] -> chunk_of i = None ->
  step i now s = (s', acts) -> stream acts = [] /\ quiet_move (s_state s) (s_state s').
Proof.
  intros Hr Hac Hi Hs. destruct (is_terminal s) eqn:Ht.
  - rewrite step_terminal in Hs by done. injection Hs as <- <-. split; [done|]. unfold quiet_move. auto.
  - rewrite step_dispatch in Hs by done. injection Hs as <- <-.
    destruct (quiet_dispatch i now s Hr Ht Hac Hi) as [H1 H2].
    destruct (timeout_move now (dispatch i now s)) as [H3 H4]. rewrite H3, H1. split; [done|].
    assert (E : ∀ x, s_state (take_actions x) = s_state x) by (by intros []). rewrite E.
    destruct H4 as [-> | ->]; [by left|done].
Qed.

(** The answer of the provider. *)
Lemma chunk_step d now s s' acts : s_role s = Sender -> s_actions s = [] ->
  step (SegmentReady d) now s = (s', acts) ->
  (s_state s' = FtFailed \/
   s_state s' = if bool_decide (s_state s = TxSendingSegments)
                then match d with [] => TxAwaitAck | _ => TxSendingSegments end else s_state s) /\
  (if bool_decide (s_state s = TxSendingSegments)
   then match d with [] => ∃ c, stream acts = [inr c] | _ => stream acts = [inl d] end else stream acts = []).
Proof.
  intros Hr Hac Hs. destruct (is_terminal s) eqn:Ht.
  - rewrite step_terminal in Hs by done. injection Hs as <- <-. unfold is_terminal in Ht.
    by destruct (s_state s); try done; simpl; auto.
  - rewrite step_dispatch in Hs by done.
    destruct (timeout_move now (dispatch (SegmentReady d) now s)) as [H3 H4].
    injection Hs as <- <-. change (on_segment_ready d now s) with (dispatch (SegmentReady d) now s). rewrite H3.
    assert (E : ∀ x, s_state (take_actions x) = s_state x) by (by intros []). rewrite E.
    split.
    + destruct H4 as [-> | ->]; [by left|right]. clear -Hr Ht. unfold dispatch, on_segment_ready, request_next_segment.
      destruct s as [ro nf st cf fl sl bt ch lp aw ac]. simpl in *. subst.
      destruct st; try done. simpl. by destruct d.
    + clear -Hr Ht Hac. destruct s as [ro nf st cf fl sl bt ch lp aw ac]. simpl in *. subst.
      unfold on_segment_ready, request_next_segment. simpl.
      destruct st; try done. simpl. destruct d; simpl; eauto.
Qed.

Definition data_of (l : list (bytes + Z)) : list bytes :=
  omap (fun x => match x with inl d => Some d | inr _ => None end) l.

Lemma data_of_app a b : data_of (a ++ b) = data_of a ++ data_of b.
Proof. apply omap_app. Qed.
Lemma data_of_inl segs : data_of (inl <$> segs) = segs.
Proof. unfold data_of. induction segs as [|d segs IH]; [done|]. cbn. by rewrite IH. Qed.

Lemma received_stream ins : received_segments ins = data_of (stream_in ins).
Proof.
  unfold received_segments, data_of, stream_in. induction ins as [|i ins IH]; [done|]. cbn.
  destruct i; cbn; rewrite ?IH; done.
Qed.

(** What the sender has shipped, against the file and what is left of it. *)
Definition tx_data (file : bytes) (log : list SessionAction) (s : Session) (rest : bytes) : Prop :=
  let sentb := concat (data_of (stream log)) in
  sentb `prefix_of` file /\ (∀ c, inr c ∈ stream log -> sentb = file) /\
  (starting (s_state s) -> sentb = [] /\ rest = file) /\
  (s_state s = TxSendingSegments -> sentb ++ rest = file).

Lemma tx_data_quiet file log s s' acts rest : tx_data file log s rest ->
  stream acts = [] -> quiet_move (s_state s) (s_state s') -> tx_data file (log ++ acts) s' rest.
Proof.
  intros (H1 & H2 & H3 & H4) Hst Hm. unfold tx_data.
  assert (E : stream (log ++ acts) = stream log) by (unfold stream in *; by rewrite omap_app, Hst, app_nil_r).
  rewrite E. split_and!; try done.
  - intros Hs. apply H3. destruct Hm as [Hm | [Hm | [[? ?] | [? Hm]]]]; try done; rewrite Hm in Hs; try done;
    unfold starting in Hs; destruct_or! Hs; done.
  - intros Hs. destruct Hm as [Hm | [Hm | [[Hm ?] | [? Hm]]]]; try congruence.
    + apply H4. congruence.
    + by destruct (H3 Hm) as [-> ->].
Qed.

Lemma tx_data_chunk file ins log s s' acts d r : tx_data file log s (d ++ r) -> send_inv ins log s ->
  (starting (s_state s) -> False) -> (d = [] -> r = []) ->
  (s_state s' = FtFailed \/
   s_state s' = if bool_decide (s_state s = TxSendingSegments)
                then match d with [] => TxAwaitAck | _ => TxSendingSegments end else s_state s) ->
  (if bool_decide (s_state s = TxSendingSegments)
   then match d with [] => ∃ c, stream acts = [inr c] | _ => stream acts = [inl d] end else stream acts = []) ->
  tx_data file (log ++ acts) s' r.
Proof.
  intros (H1 & H2 & H3 & H4) (_ & _ & segs & closed & Hsh & _ & _ & Hst) Hns Hd Hs' Hstr.
  unfold tx_data. assert (E : stream (log ++ acts) = stream log ++ stream acts) by apply omap_app. rewrite E.
  destruct (bool_decide (s_state s = TxSendingSegments)) eqn:Es.
  - apply bool_decide_eq_true in Es. specialize (H4 Es). rewrite Es in Hst. destruct Hst as (-> & _).
    unfold shipped in Hsh. rewrite app_nil_r in Hsh. rewrite Hsh, data_of_app, data_of_inl in *.
    rewrite concat_app. destruct d as [|b d].
    + destruct Hstr as [c ->]. rewrite (Hd eq_refl), app_nil_r in H4. cbn. rewrite app_nil_r. split_and!; try done.
      * intros Hx. destruct Hs' as [Hs' | Hs']; rewrite Hs' in Hx; unfold starting in Hx; destruct_or! Hx; done.
      * intros Hx. destruct Hs' as [Hs' | Hs']; rewrite Hs' in Hx; done.
    + rewrite Hstr. cbn. rewrite app_nil_r. split_and!.
      * exists r. rewrite <- H4. by rewrite <- app_assoc.
      * intros c Hc. apply elem_of_app in Hc as [Hc|Hc]; [by apply list_elem_of_fmap in Hc as (? & ? & _)|].
        by apply list_elem_of_singleton in Hc.
      * intros Hx. destruct Hs' as [Hs' | Hs']; rewrite Hs' in Hx; unfold starting in Hx; destruct_or! Hx; done.
      * intros _. rewrite <- app_assoc. done.
  - apply bool_decide_eq_false in Es. rewrite Hstr, app_nil_r. split_and!; try done.
    + intros Hx. destruct Hs' as [Hs' | Hs']; rewrite Hs' in Hx; [|by destruct (Hns Hx)].
      unfold starting in Hx; destruct_or! Hx; done.
    + intros Hx. destruct Hs' as [Hs' | Hs']; congruence.
Qed.

(** An acknowledgement of the file that lets the sender complete. *)
Definition positive_ack (i : SessionInput) : bool :=
  match i with
  | AckFile a => match afq_action (af_afq a) with PositiveFile | PositiveSection => true | _ => false end
  | _ => false
  end.

Lemma sender_completes_on_ack i now s s' acts : s_role s = Sender -> s_actions s = [] ->
  step i now s = (s', acts) -> s_state s' = FtCompleted -> s_state s = FtCompleted \/ positive_ack i = true.
Proof.
  intros Hr Hac Hs Hc. destruct (is_terminal s) eqn:Ht.
  { rewrite step_terminal in Hs by done. injection Hs as <- <-. by left. }
  rewrite step_dispatch in Hs by done. destruct (timeout_move now (dispatch i now s)) as [_ H].
  assert (E : ∀ x, s_state (take_actions x) = s_state x) by (by intros []).
  assert (E' : s_state s' = s_state (check_timeout now (dispatch i now s))) by (rewrite <- E; congruence).
  rewrite E' in Hc. destruct H as [H|H]; rewrite H in Hc; [done|]. right. clear -Hr Hac Hc Ht.
  destruct s as [ro nf st cf fl sl bt ch lp aw ac]. simpl in *. subst.
  destruct i; try done; revert Hc; ft_unfold; destruct st; simpl in *; try done; repeat case_match; simpl; done.
Qed.

Lemma receiver_acks_when_complete i now s s' acts : s_role s = Receiver -> s_actions s = [] ->
  step i now s = (s', acts) -> existsb positive_ack (messages acts) = true -> s_state s' = FtCompleted.
Proof.
  intros Hr Hac Hs Hx. destruct (is_terminal s) eqn:Ht.
  { rewrite step_terminal in Hs by done. by injection Hs as <- <-. }
  rewrite step_dispatch in Hs by done.
  assert (Hm : messages acts = messages (s_actions (dispatch i now s)) /\
     (is_terminal (dispatch i now s) = true -> s_state s' = s_state (dispatch i now s))).
  { injection Hs as <- <-. generalize (dispatch i now s). clear. intros s. unfold check_timeout, fail_session.
    destruct (is_terminal s) eqn:E; [by destruct s|]. destruct (bool_decide _); [by destruct s|].
    destruct (last_progress s); [|by destruct s]. destruct (_ <=? _); [|by destruct s].
    destruct s; simpl. split; [|done]. unfold messages. rewrite omap_app. by rewrite app_nil_r. }
  destruct Hm as [Hm Hst]. rewrite Hm in Hx. clear -Hr Hac Hx Ht Hst.
  destruct s as [ro nf st cf fl sl bt ch lp aw ac]. simpl in *. subst.
  revert Hx Hst. destruct i; ft_unfold; destruct st; simpl in *; try done; repeat case_match; simpl;
  try (intros; discriminate); auto.
Qed.

(** ** The invariant of the transfer *)

Definition is_ack_of (i : SessionInput) : Prop := positive_ack i = true.

Record xfer_inv (file : bytes) (x : xfer) : Prop := {
  xi_send : send_inv (inS x) (outS x) (xs x);
  xi_sact : s_actions (xs x) = [];
  xi_recv : recv_inv (inR x) (outR x) (xr x);
  xi_ract : s_actions (xr x) = [];
  xi_data : tx_data file (outS x) (xs x) (rest x);
  xi_s2r : messages (outS x) = filter is_message (inR x) ++ s2r x;
  xi_r2s : messages (outR x) = filter is_message (inS x) ++ r2s x;
  xi_ack : existsb positive_ack (messages (outR x)) = true -> s_state (xr x) = FtCompleted;
  xi_done : s_state (xs x) = FtCompleted -> existsb positive_ack (inS x) = true;
}.

Lemma messages_are acts : Forall is_message (messages acts).
Proof.
  unfold messages. induction acts as [|a acts IH]; [constructor|]. cbn.
  destruct a; cbn; try done; by constructor.
Qed.

Lemma chan_message acts l m ms : messages acts = l ++ m :: ms -> is_message m = true.
Proof.
  intros E. pose proof (messages_are acts) as H. rewrite E in H. apply Forall_app in H as [_ H].
  inversion H. by apply Is_true_true.
Qed.

Lemma messages_app a b : messages (a ++ b) = messages a ++ messages b.
Proof. apply omap_app. Qed.

Lemma filter_snoc ins i : filter is_message (ins ++ [i]) = filter is_message ins ++ (if is_message i then [i] else []).
Proof. rewrite filter_app. f_equal. unfold filter. cbn. by destruct (is_message i). Qed.

(** A sender moves on an input that is not a chunk, or that is the one it asked for. *)
Lemma xfer_inv_snd file x i now r2s' rest' : xfer_inv file x ->
  filter is_message (inS x) ++ r2s x = filter is_message (inS x ++ [i]) ++ r2s' ->
  (chunk_of i = None /\ rest' = rest x) \/
  (∃ d, i = SegmentReady d /\ rest x = d ++ rest' /\ (d = [] -> rest' = []) /\ wanted x = true) ->
  xfer_inv file (snd_step i now r2s' rest' x).
Proof.
  intros [Hs Hsa Hr Hra Hd H1 H2 Ha Hdn] Hch Hi. unfold snd_step. destruct (step i now (xs x)) as [s' acts] eqn:E.
  pose proof (proj1 Hs) as Hrole. destruct (send_inv_step _ _ _ _ _ _ _ Hsa Hs E) as [Hs' Hsa'].
  split; simpl; try done.
  - destruct Hi as [[Hi ->]|(d & -> & Hrest & Hde & Hw)].
    + destruct (quiet_step _ _ _ _ _ Hrole Hsa Hi E) as [Hq Hm]. by eapply tx_data_quiet.
    + destruct (chunk_step _ _ _ _ _ Hrole Hsa E) as [Hst Hstr]. rewrite Hrest in Hd.
      eapply tx_data_chunk; try done. intros Hsx. destruct Hs as (_ & _ & segs & closed & _ & _ & _ & Hx).
      unfold wanted in Hw. assert (Hz : requests (outS x) = []).
      { unfold starting in Hsx. destruct_or! Hsx; rewrite Hsx in Hx; by destruct Hx as (_ & _ & _ & ?). }
      rewrite Hz in Hw. by apply Nat.ltb_lt, Nat.nlt_0_r in Hw.
  - rewrite messages_app, H1. by rewrite app_assoc.
  - by rewrite H2.
  - intros Hc. rewrite existsb_app. destruct (sender_completes_on_ack _ _ _ _ _ Hrole Hsa E Hc) as [Hx|Hx].
    + by rewrite (Hdn Hx).
    + simpl. rewrite Hx. by rewrite orb_true_r.
Qed.

Lemma xfer_inv_rcv file x i now s2r' : xfer_inv file x ->
  filter is_message (inR x) ++ s2r x = filter is_message (inR x ++ [i]) ++ s2r' ->
  xfer_inv file (rcv_step i now s2r' x).
Proof.
  intros [Hs Hsa Hr Hra Hd H1 H2 Ha Hdn] Hch. unfold rcv_step. destruct (step i now (xr x)) as [s' acts] eqn:E.
  pose proof (proj1 Hr) as Hrole. destruct (recv_inv_step _ _ _ _ _ _ _ Hra Hr E) as [Hr' Hra'].
  split; simpl; try done.
  - by rewrite H1.
  - rewrite messages_app, H2. by rewrite app_assoc.
  - rewrite messages_app, existsb_app, orb_true_iff. intros [Hx|Hx].
    + pose proof (Ha Hx) as Hc. rewrite step_terminal in E; [by injection E as <- <-|].
      unfold is_terminal. by rewrite Hc.
    + by eapply receiver_acks_when_complete.
Qed.

Lemma load_step len now s : s_role s = Sender -> s_state s = FtIdle -> s_actions s = [] ->
  let s' := (step (Start len) now s).1 in
  s_role s' = Sender /\ s_actions s' = [] /\ (s_state s' = TxAwaitSelect \/ s_state s' = FtFailed) /\
  awaiting_provider s' = awaiting_provider s.
Proof.
  destruct s as [ro nf st cf fl sl bt ch lp aw ac]. simpl. intros -> -> ->.
  unfold step. simpl. unfold check_timeout, fail_session. simpl.
  destruct lp; simpl; [destruct (_ <=? _)|]; simpl; auto.
Qed.

Lemma xfer_inv_load file x len now : xfer_inv file x -> s_state (xs x) = FtIdle ->
  xfer_inv file (snd_load len now x).
Proof.
  intros [Hs Hsa Hr Hra Hd H1 H2 Ha Hdn] Hi.
  destruct Hs as (Hrole & Hq & segs & closed & Hsh & Hsub & Hne & Hx). rewrite Hi in Hx.
  destruct Hx as (-> & -> & Haw & Hz).
  destruct (load_step len now (xs x) Hrole Hi Hsa) as (Hr' & Ha' & Hst & Haw'). rewrite Haw in Haw'.
  destruct Hd as (Hd1 & Hd2 & Hd3 & _). unfold snd_load.
  generalize dependent (step (Start len) now (xs x)).1. intros s' Hr' Ha' Hst Haw'. split; simpl; try done.
  - split_and!; [done..|]. exists [], false. unfold chunks. rewrite omap_app. cbn. rewrite app_nil_r.
    split_and!; try done. destruct Hst as [-> | ->]; [done|]. rewrite Hz. simpl. lia.
  - unfold tx_data. destruct (Hd3 (or_introl Hi)). split_and!; try done. by destruct Hst as [-> | ->].
  - rewrite filter_snoc. simpl. by rewrite app_nil_r.
  - by destruct Hst as [-> | ->].
Qed.

Lemma xfer_inv_step file x x' : xfer_step x x' -> xfer_inv file x -> xfer_inv file x'.
Proof.
  intros Hs H. pose proof (xi_s2r _ _ H) as H1. pose proof (xi_r2s _ _ H) as H2.
  destruct Hs as [x i now Hi|x len now Hi|x m ms now Em|x d r now Hw Hr Hd|x i now Hi|x m ms now Em].
  - apply xfer_inv_snd; [done| |left; split; [by destruct i|done]].
    rewrite filter_snoc. destruct i; try done; simpl; by rewrite app_nil_r.
  - by apply xfer_inv_load.
  - rewrite Em in H2. pose proof (chan_message _ _ _ _ H2) as Hm. apply xfer_inv_snd; [done| |left].
    + rewrite filter_snoc, Hm, <- app_assoc. by rewrite Em.
    + split; [by destruct m|done].
  - apply xfer_inv_snd; [done| |right; by exists d]. rewrite filter_snoc. simpl. by rewrite app_nil_r.
  - apply xfer_inv_rcv; [done|]. rewrite filter_snoc. destruct i; try done; simpl; by rewrite app_nil_r.
  - rewrite Em in H1. pose proof (chan_message _ _ _ _ H1) as Hm. apply xfer_inv_rcv; [done|].
    rewrite filter_snoc, Hm, <- app_assoc. by rewrite Em.
Qed.

Lemma recv_inv_new nof cfg : recv_inv [] [] (Session_new Receiver nof cfg).
Proof. by split_and!. Qed.

Lemma xfer_reachable_inv nofS nofR cfgS cfgR file x :
  xfer_reachable nofS nofR cfgS cfgR file x -> xfer_inv file x.
Proof.
  intros Hr. unfold xfer_reachable in Hr.
  assert (H : xfer_inv file (xfer_init nofS nofR cfgS cfgR file)).
  { split; simpl; try done; [apply send_inv_new|]. unfold tx_data. simpl. split_and!; try done.
    - apply prefix_nil.
    - intros c Hc. by apply elem_of_nil in Hc. }
  revert H. induction Hr as [|x1 x2 x3 Hs _ IH]; [done|]. intros H. apply IH. by eapply xfer_inv_step.
Qed.

(** ** The properties of the transfer *)

Lemma prefix_closed (segs : list bytes) c (l1 : list (bytes + Z)) x (l2 : list (bytes + Z)) closed :
  (inl <$> segs) ++ (if (closed : bool) then [inr c] else []) = l1 ++ inr x :: l2 ->
  closed = true /\ l1 = inl <$> segs.
Proof.
  revert l1. induction segs as [|d segs IH]; intros l1; simpl.
  - destruct closed; [|by destruct l1]. destruct l1 as [|y l1]; [done|]. intros [= _ H]. by destruct l1.
  - destruct l1 as [|y l1]; [done|]. intros [= <- H]. destruct (IH _ H) as [? ->]. done.
Qed.

Lemma filter_stream ins : stream_in (filter is_message ins) = stream_in ins.
Proof.
  unfold stream_in. induction ins as [|i ins IH]; [done|]. rewrite filter_cons.
  destruct (decide (is_message i)) as [Hm|Hm]; cbn.
  - destruct i; try done; cbn; by rewrite IH.
  - rewrite IH. destruct i; try done; by destruct Hm.
Qed.

Lemma channel_stream file x : xfer_inv file x -> stream (outS x) = stream_in (inR x) ++ stream_in (s2r x).
Proof.
  intros H. rewrite <- stream_messages, (xi_s2r _ _ H), <- (filter_stream (inR x)). apply omap_app.
Qed.

(** What has been delivered is a prefix of the file, and all of it once the
    receiver has completed. *)
Lemma xfer_delivered file x : xfer_inv file x ->
  concat (delivered_segments (outR x)) `prefix_of` file /\
  (s_state (xr x) = FtCompleted -> concat (delivered_segments (outR x)) = file).
Proof.
  intros H. pose proof (channel_stream _ _ H) as Hst.
  destruct (xi_recv _ _ H) as (_ & Hp & Hrs). destruct (xi_data _ _ H) as (Hpre & Hcl & _).
  assert (Hle : concat (received_segments (inR x)) `prefix_of` file).
  { etrans; [|exact Hpre]. rewrite Hst, data_of_app, concat_app, received_stream. by apply prefix_app_r. }
  split.
  - etrans; [|exact Hle]. destruct Hp as [k ->]. rewrite concat_app. by apply prefix_app_r.
  - intros Hc. rewrite Hc in Hrs. destruct Hrs as (pre & ls & post & Hin & Hd & _).
    destruct (xi_send _ _ H) as (_ & _ & segs & closed & Hsh & _). unfold shipped in Hsh.
    assert (Hsplit : stream (outS x) = stream_in pre ++ inr (chs_0 (ls_chs ls)) :: (stream_in post ++ stream_in (s2r x))).
    { rewrite Hst, Hin. unfold stream_in. rewrite omap_app. cbn. by rewrite <- app_assoc. }
    rewrite Hsh in Hsplit. apply prefix_closed in Hsplit as [-> Hpreq].
    rewrite Hd, received_stream, Hpreq, data_of_inl.
    rewrite <- (Hcl (chs_0 (Checksum_of (concat segs)))); rewrite Hsh.
    + rewrite data_of_app, data_of_inl. cbn. by rewrite app_nil_r.
    + apply elem_of_app. right. by apply list_elem_of_singleton.
Qed.

(** C9. End-to-end integrity of a transfer: over reliable channels, in every
    interleaving of application calls, clock ticks, timeouts, provider answers
    and arrivals, what the receiver has stored is a prefix of the file; once
    the receiver reports completion it is the whole file, and the sender
    reports completion only after the receiver has. *)
Theorem transfer_integrity nofS nofR cfgS cfgR file x :
  xfer_reachable nofS nofR cfgS cfgR file x ->
  concat (delivered_segments (outR x)) `prefix_of` file /\
  (s_state (xr x) = FtCompleted -> concat (delivered_segments (outR x)) = file) /\
  (s_state (xs x) = FtCompleted -> s_state (xr x) = FtCompleted).
Proof.
  intros Hr. pose proof (xfer_reachable_inv _ _ _ _ _ _ Hr) as H.
  destruct (xfer_delivered _ _ H) as [H1 H2]. split_and!; [done..|].
  intros Hc. apply (xi_ack _ _ H). rewrite (xi_r2s _ _ H), existsb_app.
  pose proof (xi_done _ _ H Hc) as Hx. apply existsb_exists in Hx as (i & Hi & Hp).
  apply orb_true_iff. left. apply existsb_exists. exists i. split; [|done].
  apply list_elem_of_In, list_elem_of_filter. split; [by destruct i|]. by apply list_elem_of_In.
Qed.

(** ** A transfer that runs to its end

    The receiver asks for the file, the other station serves it, every message
    arrives and the provider answers each request with as many octets as were
    asked for. *)

Section Pull.
Context (t : Instant) (nofS nofR : NameOfFile) (cfgS cfgR : SessionConfig).

Definition chunk_size : nat := clamp 1 MAX_SEGMENT_BYTES (max_segment_bytes cfgS).

Definition arriveS (x : xfer) : xfer :=
  match r2s x with m :: ms => snd_step m t ms (rest x) x | [] => x end.
Definition arriveR (x : xfer) : xfer :=
  match s2r x with m :: ms => rcv_step m t ms x | [] => x end.
Definition provide (x : xfer) : xfer :=
  if wanted x then snd_step (SegmentReady (take chunk_size (rest x))) t (r2s x) (drop chunk_size (rest x)) x else x.

Definition handshake (file : bytes) : xfer :=
  arriveR (arriveS (arriveR (arriveS (rcv_step (Start 0) t []
    (snd_load (Z.of_nat (length file)) t (xfer_init nofS nofR cfgS cfgR file)))))).

(** Chunks until the provider has nothing left, then the closing exchange. *)
Fixpoint pump (fuel : nat) (x : xfer) : xfer :=
  match fuel with
  | O => x
  | S fuel' =>
      match rest x with
      | [] => arriveS (arriveR (provide x))
      | _ => pump fuel' (arriveR (provide x))
      end
  end.

Definition pull (fuel : nat) (file : bytes) : xfer := pump fuel (handshake file).

Lemma arriveS_step x : rtc xfer_step x (arriveS x).
Proof. unfold arriveS. destruct (r2s x) eqn:E; [done|]. apply rtc_once. by apply x_snd_recv. Qed.
Lemma arriveR_step x : rtc xfer_step x (arriveR x).
Proof. unfold arriveR. destruct (s2r x) eqn:E; [done|]. apply rtc_once. by apply x_rcv_recv. Qed.
Lemma provide_step x : rtc xfer_step x (provide x).
Proof.
  unfold provide. destruct (wanted x) eqn:E; [|done]. apply rtc_once. apply x_provide; [done|by rewrite take_drop|].
  unfold chunk_size. pose proof (clamp_range (max_segment_bytes cfgS)) as Hc. destruct (rest x); [by rewrite drop_nil|].
  destruct (clamp 1 MAX_SEGMENT_BYTES (max_segment_bytes cfgS)) eqn:Ec; [lia|done].
Qed.

Lemma pump_steps fuel x : rtc xfer_step x (pump fuel x).
Proof.
  revert x. induction fuel as [|fuel IH]; intros x; simpl; [done|]. destruct (rest x).
  - etrans; [apply provide_step|]. etrans; [apply arriveR_step|apply arriveS_step].
  - etrans; [apply provide_step|]. etrans; [apply arriveR_step|apply IH].
Qed.

Lemma pull_reachable fuel file : xfer_reachable nofS nofR cfgS cfgR file (pull fuel file).
Proof.
  unfold xfer_reachable, pull, handshake.
  eapply rtc_l; [apply (x_snd_load _ (Z.of_nat (length file)) t); done|].
  eapply rtc_l; [apply (x_rcv_local _ (Start 0) t); done|].
  etrans; [|apply pump_steps]. etrans; [apply arriveS_step|]. etrans; [apply arriveR_step|].
  etrans; [apply arriveS_step|apply arriveR_step].
Qed.

Context (Hi : 0 < idle_timeout cfgS) (Hj : 0 < idle_timeout cfgR).

Lemma fresh_timer d : 0 < d -> (d <=? since t t) = false.
Proof. intros. unfold since. apply Z.leb_gt. lia. Qed.

(** Both sides in the data phase, nothing under way, one chunk asked for. *)
Record flowing (x : xfer) : Prop := {
  fl_s : ∃ fl sl bt ch, xs x = mkSession Sender nofS TxSendingSegments cfgS fl sl bt ch (Some t) true [] /\
    ∃ fl' sl' bt' aw', xr x = mkSession Receiver nofR RxReceivingSegments cfgR fl' sl' bt' ch (Some t) aw' [];
  fl_s2r : s2r x = []; fl_r2s : r2s x = [];
  fl_wanted : length (requests (outS x)) = S (length (chunks (inS x))) }.

Lemma flowing_wanted x : flowing x -> wanted x = true.
Proof. intros H. unfold wanted. rewrite (fl_wanted _ H). apply Nat.ltb_lt. lia. Qed.

Lemma flowing_round x : flowing x -> rest x <> [] ->
  flowing (arriveR (provide x)) /\ rest (arriveR (provide x)) = drop chunk_size (rest x).
Proof.
  intros H Hne. unfold provide. rewrite flowing_wanted by done.
  destruct H as [(fl & sl & bt & ch & Es & fl' & sl' & bt' & aw' & Er) H1 H2 H3].
  destruct x as [s r c1 c2 i1 o1 i2 o2 rs]. simpl in *. subst.
  assert (Hd : take chunk_size rs ≠ []).
  { unfold chunk_size. pose proof (clamp_range (max_segment_bytes cfgS)).
    destruct rs; [done|]. by destruct (clamp 1 MAX_SEGMENT_BYTES (max_segment_bytes cfgS)) eqn:E; [lia|]. }
  destruct (take chunk_size rs) as [|b d] eqn:Et; [done|].
  unfold snd_step, step. simpl. unfold request_next_segment, check_timeout. simpl.
  rewrite fresh_timer by done. unfold arriveR. simpl. unfold rcv_step, step. simpl.
  unfold check_timeout. simpl. rewrite fresh_timer by done. simpl. split; [|done]. split; simpl.
  - eexists _, _, _, _. split; [reflexivity|]. eexists _, _, _, _. reflexivity.
  - done.
  - done.
  - unfold requests, chunks in *. rewrite !omap_app, !length_app, H3. cbn. lia.
Qed.

Lemma flowing_end x : flowing x -> rest x = [] ->
  s_state (xs (arriveS (arriveR (provide x)))) = FtCompleted /\
  s_state (xr (arriveS (arriveR (provide x)))) = FtCompleted.
Proof.
  intros H Hne. unfold provide. rewrite flowing_wanted by done.
  destruct H as [(fl & sl & bt & ch & Es & fl' & sl' & bt' & aw' & Er) H1 H2 H3].
  destruct x as [s r c1 c2 i1 o1 i2 o2 rs]. simpl in *. subst. rewrite take_nil.
  unfold snd_step, step. simpl. unfold check_timeout. simpl. rewrite fresh_timer by done.
  unfold arriveR. simpl. unfold rcv_step, step. simpl. unfold on_last_section. simpl. rewrite Z.eqb_refl. simpl.
  unfold arriveS. simpl. unfold snd_step, step. simpl. done.
Qed.

Lemma arriveS_eq s r c1 m c2 i1 o1 i2 o2 rs s' acts : step m t s = (s', acts) ->
  arriveS (mkXfer s r c1 (m :: c2) i1 o1 i2 o2 rs) =
  mkXfer s' r (c1 ++ messages acts) c2 (i1 ++ [m]) (o1 ++ acts) i2 o2 rs.
Proof. intros E. unfold arriveS, snd_step. cbn [r2s xs rest s2r inS outS xr inR outR]. by rewrite E. Qed.
Lemma arriveR_eq s r m c1 c2 i1 o1 i2 o2 rs r' acts : step m t r = (r', acts) ->
  arriveR (mkXfer s r (m :: c1) c2 i1 o1 i2 o2 rs) =
  mkXfer s r' c1 (c2 ++ messages acts) i1 o1 (i2 ++ [m]) (o2 ++ acts) rs.
Proof. intros E. unfold arriveR, rcv_step. cbn [s2r xr rest r2s inR outR xs inS outS]. by rewrite E. Qed.

Ltac run_step := unfold step, on_select_call, on_file_ready, on_section_ready, request_next_segment; simpl;
  unfold check_timeout; simpl; rewrite ?fresh_timer by done; simpl; reflexivity.

Lemma handshake_flowing file : flowing (handshake file) /\ rest (handshake file) = file.
Proof.
  unfold handshake. set (len := Z.of_nat (length file)).
  assert (E0 : rcv_step (Start 0) t [] (snd_load len t (xfer_init nofS nofR cfgS cfgR file)) =
    mkXfer (mkSession Sender nofS TxAwaitSelect cfgS len len 0 (mkChecksum 0) (Some t) false [])
      (mkSession Receiver nofR RxAwaitFileReady cfgR 0 0 0 (mkChecksum 0) (Some t) false []) []
      [SelectCall (mkF_SC (sess_ioa cfgR) nofR WHOLE_FILE (Scq_new SelectFile 0))] [Start len] []
      [Start 0] [SendSelectCall (mkF_SC (sess_ioa cfgR) nofR WHOLE_FILE (Scq_new SelectFile 0))] file)
    by reflexivity.
  rewrite E0. erewrite arriveS_eq by run_step. unfold messages; cbn [app omap list_omap message_of].
  erewrite arriveR_eq by run_step. unfold messages; cbn [app omap list_omap message_of].
  erewrite arriveS_eq by run_step. unfold messages; cbn [app omap list_omap message_of].
  erewrite arriveR_eq by run_step. unfold messages; cbn [app omap list_omap message_of].
  split; [|done]. split; try done. eexists _, _, _, _. split; [reflexivity|]. eexists _, _, _, _. reflexivity.
Qed.

Lemma pump_completes fuel x : flowing x -> (length (rest x) < fuel)%nat ->
  s_state (xs (pump fuel x)) = FtCompleted /\ s_state (xr (pump fuel x)) = FtCompleted.
Proof.
  revert x. induction fuel as [|fuel IH]; intros x H Hf; [lia|]. simpl. destruct (rest x) as [|b r] eqn:E.
  - by apply flowing_end.
  - destruct (flowing_round x H) as [H1 H2]; [by rewrite E|]. apply IH; [done|].
    rewrite H2, length_drop, E. pose proof (clamp_range (max_segment_bytes cfgS)).
    unfold chunk_size. simpl in *. lia.
Qed.

(** C25. A file that is asked for arrives: when nothing is lost or late, the
    exchange terminates after at most one round per octet, both sessions
    complete, and the receiver holds exactly the octets of the file, whatever
    its size and whatever segment size is configured. *)
Theorem transfer_completes file fuel : (length file < fuel)%nat ->
  s_state (xs (pull fuel file)) = FtCompleted /\ s_state (xr (pull fuel file)) = FtCompleted /\
  concat (delivered_segments (outR (pull fuel file))) = file.
Proof.
  intros Hf. destruct (handshake_flowing file) as [H1 H2].
  destruct (pump_completes fuel (handshake file) H1) as [H3 H4]; [by rewrite H2|].
  split_and!; [done..|].
  by apply (xfer_delivered file (pull fuel file)); [eapply xfer_reachable_inv, pull_reachable|].
Qed.
End Pull.

(** A file of ten octets in chunks of four. *)
Definition sample_file : bytes := [1; 2; 3; 4; 5; 6; 7; 8; 9; 250].
Definition sample_pull : xfer := pull 0 sample_nof sample_nof sample_cfg sample_cfg 11 sample_file.

Lemma transfer_integrity_witness :
  concat (delivered_segments (outR sample_pull)) `prefix_of` sample_file /\
  (s_state (xr sample_pull) = FtCompleted -> concat (delivered_segments (outR sample_pull)) = sample_file) /\
  (s_state (xs sample_pull) = FtCompleted -> s_state (xr sample_pull) = FtCompleted).
Proof.
  apply (transfer_integrity sample_nof sample_nof sample_cfg sample_cfg). apply pull_reachable.
Defined.

Lemma transfer_completes_witness :
  s_state (xs sample_pull) = FtCompleted /\ s_state (xr sample_pull) = FtCompleted /\
  concat (delivered_segments (outR sample_pull)) = sample_file.
Proof.
  apply (transfer_completes 0 sample_nof sample_nof sample_cfg sample_cfg); simpl; lia.
Defined.

Lemma sample_pull_segments : delivered_segments (outR sample_pull) = [[1; 2; 3; 4]; [5; 6; 7; 8]; [9; 250]].
Proof. vm_compute. done. Qed.
