(* ===== verification/Float64.v ===== *)
(** * Binary floating point

    The [f32] and [f64] of Rust are the IEEE 754 binary formats; the Standard
    Library specifies their arithmetic (round to nearest, ties to even) on
    [spec_float], which this file instantiates for the operations the code
    uses. A NaN carries no payload here: no code modelled on top of this file
    looks at it. The file shows that integers of up to 53 bits are carried
    without rounding by conversion, subtraction, magnitude and comparison. *)

From S2P Require Import Prelude.
From Stdlib Require Import Floats.SpecFloat.

Abbreviation F32 := spec_float (only parsing).
Abbreviation F64 := spec_float (only parsing).

#[export] Instance spec_float_eq_dec : EqDecision spec_float.
Proof. solve_decision. Defined.

(** [f64::from(i16)] and [f64::from(f32)], both exact. *)
Definition f64_of_int (z : Z) : F64 := binary_normalize 53 1024 z 0 false.
Definition f64_of_f32 (x : F32) : F64 :=
  match x with
  | S754_finite s m e => binary_round 53 1024 s m e
  | _ => x
  end.

Definition f64_sub : F64 -> F64 -> F64 := SFsub 53 1024.
Definition f64_mul : F64 -> F64 -> F64 := SFmul 53 1024.
Definition f64_div : F64 -> F64 -> F64 := SFdiv 53 1024.
Definition f64_abs : F64 -> F64 := SFabs.
Definition f64_ge (a b : F64) : bool := SFleb b a.
Definition f64_gt (a b : F64) : bool := SFltb b a.
Definition is_nan (a : F64) : bool := match a with S754_nan => true | _ => false end.
Definition is_finite (a : F64) : bool :=
  match a with S754_zero _ | S754_finite _ _ _ => true | _ => false end.
(** [f64::max]: the number when the other operand is a NaN. *)
Definition f64_max (a b : F64) : F64 :=
  if is_nan a then b else if is_nan b then a else if SFltb a b then b else a.

(** ** Exact integers *)

(** The number of binary digits of a positive. *)
Definition digits (p : positive) : Z := Zpos (digits2_pos p).

Lemma digits_bounds p : 2 ^ (digits p - 1) <= Zpos p < 2 ^ digits p.
Proof.
  unfold digits. induction p as [p IH|p IH|]; simpl digits2_pos; [| |done];
    rewrite Pos2Z.inj_succ; rewrite Z.pow_succ_r by lia;
    replace (Z.succ (Zpos (digits2_pos p)) - 1) with (Z.succ (Zpos (digits2_pos p) - 1)) by lia;
    rewrite Z.pow_succ_r by lia; lia.
Qed.

Lemma digits_unique p d : 1 <= d -> 2 ^ (d - 1) <= Zpos p < 2 ^ d -> digits p = d.
Proof.
  intros Hd [Hl Hu]. pose proof (digits_bounds p) as [Hl' Hu'].
  destruct (Z.lt_trichotomy (digits p) d) as [H|[H|H]]; [|done|].
  - pose proof (Z.pow_le_mono_r 2 (digits p) (d - 1)). lia.
  - pose proof (Z.pow_le_mono_r 2 d (digits p - 1)). lia.
Qed.

Lemma digits_le p q : Zpos p <= Zpos q -> digits p <= digits q.
Proof.
  intros H. pose proof (digits_bounds p) as [Hl _]. pose proof (digits_bounds q) as [_ Hu].
  destruct (Z.le_gt_cases (digits p) (digits q)); [done|].
  pose proof (Z.pow_le_mono_r 2 (digits q) (digits p - 1)). lia.
Qed.

Lemma digits_small p n : 0 <= n -> Zpos p < 2 ^ n -> digits p <= n.
Proof.
  intros Hn H. pose proof (digits_bounds p) as [Hl _].
  destruct (Z.le_gt_cases (digits p) n); [done|].
  pose proof (Z.pow_le_mono_r 2 n (digits p - 1)). lia.
Qed.

(** Multiplication of a positive by a power of two. *)
Definition shl (p : positive) (k : Z) : positive := Z.to_pos (Zpos p * 2 ^ k).

Lemma shl_spec p k : 0 <= k -> Zpos (shl p k) = Zpos p * 2 ^ k.
Proof. intros. unfold shl. rewrite Z2Pos.id; [done|]. pose proof (Z.pow_pos_nonneg 2 k). nia. Qed.

Lemma shl_0 p : shl p 0 = p.
Proof. unfold shl. by rewrite Z.pow_0_r, Z.mul_1_r. Qed.

Lemma shl_digits p k : 0 <= k -> digits (shl p k) = digits p + k.
Proof.
  intros Hk. pose proof (digits_bounds p) as [Hl Hu].
  assert (1 <= digits p) by (unfold digits; lia).
  apply digits_unique; [lia|]. rewrite shl_spec by done.
  replace (digits p + k - 1) with (digits p - 1 + k) by lia.
  rewrite !Z.pow_add_r by lia. pose proof (Z.pow_pos_nonneg 2 k). nia.
Qed.

Lemma shl_shl p j k : 0 <= j -> 0 <= k -> shl (shl p j) k = shl p (j + k).
Proof.
  intros. enough (Zpos (shl (shl p j) k) = Zpos (shl p (j + k))) by congruence.
  rewrite !shl_spec, Z.pow_add_r by lia. lia.
Qed.

Lemma iter_xO p n : Pos.iter xO p n = shl p (Zpos n).
Proof.
  enough (Zpos (Pos.iter xO p n) = Zpos (shl p (Zpos n))) by congruence.
  rewrite shl_spec by lia. induction n as [|n IH] using Pos.peano_ind; [simpl; lia|].
  rewrite Pos.iter_succ, Pos2Z.inj_xO, IH, Pos2Z.inj_succ, Z.pow_succ_r by lia. lia.
Qed.

(** Shifting out zeros keeps the record exact. *)
Lemma shr_exact m n :
  iter_pos shr_1 n {| shr_m := Zpos (shl m (Zpos n)); shr_r := false; shr_s := false |} =
  {| shr_m := Zpos m; shr_r := false; shr_s := false |}.
Proof.
  assert (∀ q, shr_1 {| shr_m := Zpos q~0; shr_r := false; shr_s := false |} =
    {| shr_m := Zpos q; shr_r := false; shr_s := false |}) as H1 by done.
  assert (∀ q k, 0 <= k -> shl q (1 + k) = (shl q k)~0%positive) as H2.
  { intros q k Hk. enough (Zpos (shl q (1 + k)) = Zpos (shl q k)~0) by congruence.
    rewrite Pos2Z.inj_xO, !shl_spec, Z.pow_add_r by lia. lia. }
  revert m. induction n as [n IH|n IH|]; intros m; cbn [iter_pos].
  - rewrite Pos2Z.inj_xI. replace (2 * Zpos n + 1) with (1 + (Zpos n + Zpos n)) by lia.
    rewrite H2, H1 by lia. rewrite <- shl_shl by lia. by rewrite IH, IH.
  - rewrite Pos2Z.inj_xO. replace (2 * Zpos n) with (Zpos n + Zpos n) by lia.
    rewrite <- shl_shl by lia. by rewrite IH, IH.
  - rewrite <- (Z.add_0_r 1), H2, shl_0 by lia. apply H1.
Qed.

(** Rounding a mantissa of full length behind which only zeros are cut keeps
    the number; the format is any of more than one digit. *)
Lemma round_aux_canonical prec emax s m k e :
  digits m = prec -> 0 <= k -> emin prec emax <= e <= emax - prec ->
  binary_round_aux prec emax s (Zpos (shl m k)) (e - k) loc_Exact = S754_finite s m e.
Proof.
  intros Hm Hk He. unfold binary_round_aux, shr_fexp.
  change (Zdigits2 (Zpos (shl m k))) with (digits (shl m k)). rewrite shl_digits, Hm by lia.
  assert (fexp prec emax (prec + e) = e) as Hf by (unfold fexp; lia).
  replace (prec + k + (e - k)) with (prec + e) by lia. rewrite Hf.
  assert (shr (shr_record_of_loc (Zpos (shl m k)) loc_Exact) (e - k) (e - (e - k)) =
    ({| shr_m := Zpos m; shr_r := false; shr_s := false |}, e)) as ->.
  { replace (e - (e - k)) with k by lia. destruct k as [|n|n]; [| |lia]; simpl.
    - by rewrite shl_0, Z.sub_0_r.
    - rewrite shr_exact. f_equal. lia. }
  simpl shr_m. simpl loc_of_shr_record. unfold round_nearest_even.
  change (Zdigits2 (Zpos m)) with (digits m). rewrite Hm, Hf, Z.sub_diag. simpl.
  assert (Z.leb e (Z.sub emax prec) = true) as -> by lia. done.
Qed.

(** The normal form of an integer of at most 53 digits. *)
Definition f64_pos (s : bool) (p : positive) : F64 :=
  S754_finite s (shl p (53 - digits p)) (digits p - 53).
Definition f64_int (z : Z) : F64 :=
  match z with Z0 => S754_zero false | Zpos p => f64_pos false p | Zneg p => f64_pos true p end.

Lemma fexp_digits p : digits p <= 53 -> fexp 53 1024 (digits p) = digits p - 53.
Proof. intros. unfold fexp, emin, digits in *. lia. Qed.

Lemma round_aux_exact s p j :
  digits p <= 53 -> 53 - digits p <= j ->
  binary_round_aux 53 1024 s (Zpos (shl p j)) (- j) loc_Exact = f64_pos s p.
Proof.
  intros Hp Hj.
  pose proof (round_aux_canonical 53 1024 s (shl p (53 - digits p)) (j - (53 - digits p)) (digits p - 53)) as H.
  rewrite shl_digits, shl_shl in H by lia.
  replace (53 - digits p + (j - (53 - digits p))) with j in H by lia.
  replace (digits p - 53 - (j - (53 - digits p))) with (- j) in H by lia.
  apply H; [lia|lia|]. assert (1 <= digits p) by (unfold digits; lia). unfold emin. lia.
Qed.

Lemma round_exact s p j :
  digits p <= 53 -> 0 <= j -> binary_round 53 1024 s (shl p j) (- j) = f64_pos s p.
Proof.
  intros Hp Hj. unfold binary_round. fold (digits (shl p j)).
  rewrite shl_digits by lia. replace (digits p + j + - j) with (digits p) by lia.
  rewrite fexp_digits by done. unfold shl_align.
  destruct (digits p - 53 - - j) as [|n|n] eqn:E; [apply round_aux_exact; lia..|].
  rewrite iter_xO, shl_shl by lia.
  replace (digits p - 53) with (- (j + Zpos n)) by lia. apply round_aux_exact; lia.
Qed.

Lemma normalize_exact z j :
  Z.abs z < 2 ^ 53 -> 0 <= j -> binary_normalize 53 1024 (z * 2 ^ j) (- j) false = f64_int z.
Proof.
  intros Hz Hj. destruct z as [|p|p]; [done|..].
  - rewrite <- shl_spec by done. simpl. apply round_exact; [apply digits_small; lia|done].
  - change (Zneg p) with (- Zpos p). rewrite Z.mul_opp_l, <- shl_spec by done. simpl.
    apply round_exact; [apply digits_small; lia|done].
Qed.

Lemma f64_of_int_exact z : Z.abs z < 2 ^ 53 -> f64_of_int z = f64_int z.
Proof.
  intros Hz. unfold f64_of_int. rewrite <- (normalize_exact z 0) by lia.
  by rewrite Z.pow_0_r, Z.mul_1_r.
Qed.

Lemma f64_int_opp p s : f64_int (cond_Zopp s (Zpos p)) = f64_pos s p.
Proof. by destruct s. Qed.

Lemma sub_pos s p s' q :
  let z := cond_Zopp s (Zpos p) - cond_Zopp s' (Zpos q) in
  digits p <= 53 -> digits q <= 53 -> Z.abs z < 2 ^ 53 ->
  f64_sub (f64_pos s p) (f64_pos s' q) = f64_int z.
Proof.
  intros z Hp Hq Hz. unfold f64_sub, SFsub, f64_pos.
  set (ez := Z.min (digits p - 53) (digits q - 53)).
  assert (∀ r, digits r <= 53 -> ez <= digits r - 53 ->
    Zpos (shl_align (shl r (53 - digits r)) (digits r - 53) ez).1 = Zpos r * 2 ^ (- ez)) as H.
  { intros r Hr He. unfold shl_align. rewrite <- shl_spec by lia.
    destruct (ez - (digits r - 53)) as [|n|n] eqn:E; [|lia|]; simpl.
    - do 2 f_equal. lia.
    - rewrite iter_xO, shl_shl by lia. do 2 f_equal. lia. }
  rewrite !H by lia.
  replace (_ - _) with (z * 2 ^ (- ez)) by (unfold z; destruct s, s'; simpl; lia).
  rewrite <- (normalize_exact z (- ez)) by lia. f_equal. lia.
Qed.

(** Subtraction, magnitude and order of integers are exact. *)
Lemma f64_sub_int a b :
  Z.abs a < 2 ^ 53 -> Z.abs b < 2 ^ 53 -> Z.abs (a - b) < 2 ^ 53 ->
  f64_sub (f64_int a) (f64_int b) = f64_int (a - b).
Proof.
  intros Ha Hb Hab.
  assert (∀ p n, Z.abs (Zpos p) < 2 ^ n -> 0 <= n -> digits p <= n) as Hd
    by (intros; apply digits_small; lia).
  destruct a as [|p|p], b as [|q|q]; try done.
  all: try (rewrite ?Z.sub_0_l, ?Z.sub_0_r; done).
  - apply (sub_pos false p false q); [apply Hd; lia..|done].
  - apply (sub_pos false p true q); [apply Hd; lia..|done].
  - apply (sub_pos true p false q); [apply Hd; lia..|done].
  - apply (sub_pos true p true q); [apply Hd; lia..|done].
Qed.

Lemma f64_abs_int a : f64_abs (f64_int a) = f64_int (Z.abs a).
Proof. by destruct a. Qed.

Lemma f64_ge_int a b :
  0 <= a < 2 ^ 53 -> 0 <= b < 2 ^ 53 -> f64_ge (f64_int a) (f64_int b) = (b <=? a).
Proof.
  intros Ha Hb. unfold f64_ge, SFleb. destruct a as [|p|p], b as [|q|q]; try done; try lia.
  assert (digits p <= 53) by (apply digits_small; lia).
  assert (digits q <= 53) by (apply digits_small; lia).
  simpl. destruct (Z.compare_spec (digits q - 53) (digits p - 53)) as [E|E|E].
  - change (Pos.compare_cont Eq ?a ?b) with (Pos.compare a b).
    replace (digits p) with (digits q) by lia.
    set (k := 53 - digits q). assert (0 < 2 ^ k) by (apply Z.pow_pos_nonneg; lia).
    pose proof (shl_spec q k ltac:(lia)). pose proof (shl_spec p k ltac:(lia)).
    destruct (Pos.compare_spec (shl q k) (shl p k)); symmetry;
      [apply Z.leb_le|apply Z.leb_le|apply Z.leb_gt]; nia.
  - symmetry. apply Z.leb_le. destruct (Z.le_gt_cases (Zpos q) (Zpos p)) as [?|Hlt]; [done|].
    pose proof (digits_le p q). lia.
  - symmetry. apply Z.leb_gt. destruct (Z.le_gt_cases (Zpos q) (Zpos p)) as [Hle|?]; [|done].
    pose proof (digits_le q p Hle). lia.
Qed.

(** ** Not a number *)

Lemma binary_round_nan s m e : is_nan (binary_round 53 1024 s m e) = false.
Proof.
  unfold binary_round.
  destruct (shl_align _ _ _) as [mz ez]. unfold binary_round_aux.
  destruct (shr_fexp _ _ _ _ _) as [r1 e1] eqn:E1. destruct (shr_fexp _ _ _ e1 _) as [r2 e2] eqn:E2.
  assert (∀ n r, 0 <= shr_m r -> 0 <= shr_m (iter_pos shr_1 n r)) as Hi.
  { assert (∀ r, 0 <= shr_m r -> 0 <= shr_m (shr_1 r)) as H1
      by (intros [[|[]|] ? ?] ?; simpl in *; lia).
    induction n; simpl; eauto. }
  assert (∀ m e l, 0 <= m -> 0 <= shr_m (shr_fexp 53 1024 m e l).1) as Hs.
  { intros m' e' l Hm. unfold shr_fexp, shr.
    assert (0 <= shr_m (shr_record_of_loc m' l)) by (by destruct l as [|[]]).
    destruct (_ - e'); simpl; auto. }
  pose proof (Hs (Zpos mz) ez loc_Exact ltac:(lia)) as H1. rewrite E1 in H1. simpl in H1.
  assert (0 <= round_nearest_even (shr_m r1) (loc_of_shr_record r1)) as Hr
    by (unfold round_nearest_even; destruct (loc_of_shr_record r1) as [|[]], (Z.even (shr_m r1)); lia).
  pose proof (Hs _ e1 loc_Exact Hr) as H2. rewrite E2 in H2. simpl in H2.
  destruct (shr_m r2) as [|p|p]; [done| |lia]. by destruct (_ <=? _).
Qed.

Lemma f64_of_f32_nan x : is_nan (f64_of_f32 x) = is_nan x.
Proof. destruct x; [done..|]. apply binary_round_nan. Qed.
Lemma f64_of_int_nan z : is_nan (f64_of_int z) = false.
Proof. destruct z; [done|apply binary_round_nan..]. Qed.

Lemma SFeqb_refl x : SFeqb x x = negb (is_nan x).
Proof.
  unfold SFeqb, SFcompare. destruct x as [[]|[]| |[] m e]; [done..| |];
    rewrite Z.compare_refl, Pos.compare_cont_refl; done.
Qed.

(** The distance of a finite number to itself is zero, of an infinity a NaN. *)
Lemma f64_dist_refl x :
  f64_abs (f64_sub x x) = if is_finite x then S754_zero false else S754_nan.
Proof.
  destruct x as [[]|[]| |s m e]; [done..|]. unfold f64_sub, SFsub.
  by rewrite Z.sub_diag.
Qed.
