(* ===== verification/Deadband.v ===== *)
(** * The deadband filter

    [deadband.rs] of the tokio crate: the tracker that decides which
    spontaneous samples are sent. A [HashMap] is a [gmap], the floats are
    those of Float64.v. The peer's view of the points is the abstract state:
    the filter keeps an exact copy of it. *)

From S2P Require Import Prelude AsduHeader InfoElements Float64.
From Stdlib Require Import Floats.SpecFloat.

(** ** Data *)

(** deadband.rs 23-35, DeadbandPolicy. *)
Inductive DeadbandPolicy :=
| DbNone
| DbAbsolute (delta : F64)
| DbPercent (pct : F32) (floor : F64).

(** deadband.rs 38-46, MonitoredValue. *)
Inductive MonitoredValue :=
| MvSingle (b : bool)
| MvDouble (d : DoublePoint)
| MvNormalized (f : F32)
| MvScaled (i : Z)
| MvFloat (f : F32).

(** deadband.rs 48-55, ValueKind. *)
Inductive ValueKind := VkSingle | VkDouble | VkNormalized | VkScaled | VkFloat.

#[export] Instance ValueKind_eq_dec : EqDecision ValueKind.
Proof. solve_decision. Defined.
#[export] Instance MonitoredValue_eq_dec : EqDecision MonitoredValue.
Proof. solve_decision. Defined.

(** deadband.rs 58-66, MonitoredValue::kind. *)
Definition MonitoredValue_kind (v : MonitoredValue) : ValueKind :=
  match v with
  | MvSingle _ => VkSingle
  | MvDouble _ => VkDouble
  | MvNormalized _ => VkNormalized
  | MvScaled _ => VkScaled
  | MvFloat _ => VkFloat
  end.

(** deadband.rs 70-76, MonitoredValue::magnitude. *)
Definition MonitoredValue_magnitude (v : MonitoredValue) : F64 :=
  match v with
  | MvSingle _ | MvDouble _ => S754_zero false
  | MvNormalized f | MvFloat f => f64_abs (f64_of_f32 f)
  | MvScaled i => f64_abs (f64_of_int i)
  end.

(** The derived [PartialEq] of [MonitoredValue]: floats compare as floats. *)
Definition MonitoredValue_eqb (a b : MonitoredValue) : bool :=
  match a, b with
  | MvSingle x, MvSingle y => Bool.eqb x y
  | MvDouble x, MvDouble y => bool_decide (x = y)
  | MvNormalized x, MvNormalized y => SFeqb x y
  | MvScaled x, MvScaled y => x =? y
  | MvFloat x, MvFloat y => SFeqb x y
  | _, _ => false
  end.

(** deadband.rs 81-87, EmitDecision. *)
Inductive EmitDecision := Emit | Suppress.

(** deadband.rs 90-97, DeadbandError. *)
Inductive DeadbandError := KindMismatch (ioa : Ioa) (expected actual : ValueKind).

#[export] Instance EmitDecision_eq_dec : EqDecision EmitDecision.
Proof. solve_decision. Defined.

(** deadband.rs 107-110, Baseline. *)
Record Baseline := mkBaseline { bl_value : MonitoredValue; bl_quality : Qds }.

(** deadband.rs 101-104, DeadbandTracker. *)
Record DeadbandTracker := mkTracker {
  policies : gmap Ioa DeadbandPolicy; baselines : gmap Ioa Baseline }.

(** ** Operations *)

(** deadband.rs 113-115, DeadbandTracker::new. *)
Definition DeadbandTracker_new : DeadbandTracker := mkTracker ∅ ∅.

(** deadband.rs 117-119, DeadbandTracker::set_policy. *)
Definition Tracker_set_policy (ioa : Ioa) (p : DeadbandPolicy) (t : DeadbandTracker) : DeadbandTracker :=
  mkTracker (<[ioa := p]> (policies t)) (baselines t).

(** deadband.rs 121-126, DeadbandTracker::policy. *)
Definition Tracker_policy (t : DeadbandTracker) (ioa : Ioa) : DeadbandPolicy :=
  default DbNone (policies t !! ioa).

(** deadband.rs 128-130, DeadbandTracker::remove_policy. *)
Definition Tracker_remove_policy (ioa : Ioa) (t : DeadbandTracker) : option DeadbandPolicy * DeadbandTracker :=
  (policies t !! ioa, mkTracker (delete ioa (policies t)) (baselines t)).

(** deadband.rs 132-134, DeadbandTracker::forget. *)
Definition Tracker_forget (ioa : Ioa) (t : DeadbandTracker) : DeadbandTracker :=
  mkTracker (policies t) (delete ioa (baselines t)).

(** deadband.rs 136-138, DeadbandTracker::clear. *)
Definition Tracker_clear (t : DeadbandTracker) : DeadbandTracker := mkTracker (policies t) ∅.

(** [self.baselines.insert(ioa, Baseline { value, quality })]. *)
Definition set_baseline (ioa : Ioa) (v : MonitoredValue) (q : Qds) (t : DeadbandTracker) : DeadbandTracker :=
  mkTracker (policies t) (<[ioa := mkBaseline v q]> (baselines t)).

(** deadband.rs 217-253, threshold_crossed. [None] is its [unreachable!]. *)
Definition threshold_crossed (old new : MonitoredValue) (p : DeadbandPolicy) : option bool :=
  let numeric (a b : F64) : bool :=
    if negb (eqb (is_nan a) (is_nan b)) then true
    else if negb (eqb (is_finite a) (is_finite b)) then true
    else if is_nan a && is_nan b then false
    else
      let dist := f64_abs (f64_sub b a) in
      match p with
      | DbNone => f64_gt dist (S754_zero false)
      | DbAbsolute delta => f64_ge dist delta
      | DbPercent pct floor =>
          let ref_mag := f64_max (MonitoredValue_magnitude old) floor in
          f64_ge dist (f64_mul (f64_div (f64_of_f32 pct) (f64_of_int 100)) ref_mag)
      end in
  match old, new with
  | MvSingle a, MvSingle b => Some (negb (eqb a b))
  | MvDouble a, MvDouble b => Some (negb (bool_decide (a = b)))
  | MvNormalized a, MvNormalized b | MvFloat a, MvFloat b =>
      Some (numeric (f64_of_f32 a) (f64_of_f32 b))
  | MvScaled a, MvScaled b => Some (numeric (f64_of_int a) (f64_of_int b))
  | _, _ => None (* unreachable! *)
  end.

(** The outcome of a fallible call: [Panic] is the [unreachable!] above. *)
Inductive DbResult (A : Type) := DbOk (a : A) | DbErr (e : DeadbandError) | DbPanic.
Arguments DbOk {A} _.
Arguments DbErr {A} _.
Arguments DbPanic {A}.

(** deadband.rs 144-161, DeadbandTracker::observe. *)
Definition observe (ioa : Ioa) (v : MonitoredValue) (q : Qds) (t : DeadbandTracker)
  : DbResult unit * DeadbandTracker :=
  match baselines t !! ioa with
  | Some b =>
      if bool_decide (MonitoredValue_kind (bl_value b) ≠ MonitoredValue_kind v)
      then (DbErr (KindMismatch ioa (MonitoredValue_kind (bl_value b)) (MonitoredValue_kind v)), t)
      else (DbOk tt, set_baseline ioa v q t)
  | None => (DbOk tt, set_baseline ioa v q t)
  end.

(** deadband.rs 163-211, DeadbandTracker::evaluate. *)
Definition evaluate (ioa : Ioa) (v : MonitoredValue) (q : Qds) (t : DeadbandTracker)
  : DbResult EmitDecision * DeadbandTracker :=
  match baselines t !! ioa with
  | None => (DbOk Emit, set_baseline ioa v q t)
  | Some b =>
      if bool_decide (MonitoredValue_kind (bl_value b) ≠ MonitoredValue_kind v)
      then (DbErr (KindMismatch ioa (MonitoredValue_kind (bl_value b)) (MonitoredValue_kind v)), t)
      else if bool_decide (bl_quality b ≠ q) then (DbOk Emit, set_baseline ioa v q t)
      else
        match Tracker_policy t ioa with
        | DbNone =>
            if MonitoredValue_eqb (bl_value b) v then (DbOk Suppress, t)
            else (DbOk Emit, set_baseline ioa v q t)
        | p =>
            match threshold_crossed (bl_value b) v p with
            | None => (DbPanic, t)
            | Some true => (DbOk Emit, set_baseline ioa v q t)
            | Some false => (DbOk Suppress, t)
            end
        end
  end.

(** ** The peer's view

    [observe] is called for every sample that is sent anyway, [evaluate] for a
    sample that is sent when it answers [Emit]. The view holds, per address,
    the sample sent last; forgetting an address drops it. *)

Inductive DbOp :=
| OpObserve (ioa : Ioa) (v : MonitoredValue) (q : Qds)
| OpEvaluate (ioa : Ioa) (v : MonitoredValue) (q : Qds)
| OpSetPolicy (ioa : Ioa) (p : DeadbandPolicy)
| OpRemovePolicy (ioa : Ioa)
| OpForget (ioa : Ioa)
| OpClear.

Abbreviation View := (gmap Ioa (MonitoredValue * Qds)).

Definition db_apply (op : DbOp) (t : DeadbandTracker) : DbResult EmitDecision * DeadbandTracker :=
  match op with
  | OpObserve ioa v q =>
      match observe ioa v q t with
      | (DbOk _, t') => (DbOk Emit, t')
      | (DbErr e, t') => (DbErr e, t')
      | (DbPanic, t') => (DbPanic, t')
      end
  | OpEvaluate ioa v q => evaluate ioa v q t
  | OpSetPolicy ioa p => (DbOk Suppress, Tracker_set_policy ioa p t)
  | OpRemovePolicy ioa => (DbOk Suppress, (Tracker_remove_policy ioa t).2)
  | OpForget ioa => (DbOk Suppress, Tracker_forget ioa t)
  | OpClear => (DbOk Suppress, Tracker_clear t)
  end.

(** What the peer sees of a call and its result, without the tracker. *)
Definition view_after (op : DbOp) (r : DbResult EmitDecision) (view : View) : View :=
  match op, r with
  | OpObserve ioa v q, DbOk Emit | OpEvaluate ioa v q, DbOk Emit => <[ioa := (v, q)]> view
  | OpForget ioa, _ => delete ioa view
  | OpClear, _ => ∅
  | _, _ => view
  end.

Definition db_step (s : DeadbandTracker * View) (op : DbOp) : DeadbandTracker * View :=
  let r := db_apply op s.1 in (r.2, view_after op r.1 s.2).
Definition db_run (ops : list DbOp) : DeadbandTracker * View :=
  foldl db_step (DeadbandTracker_new, ∅) ops.

Definition pair_of (b : Baseline) : MonitoredValue * Qds := (bl_value b, bl_quality b).

(** The number a numeric sample stands for, and the width of its deadband. *)
Definition number (v : MonitoredValue) : option F64 :=
  match v with
  | MvSingle _ | MvDouble _ => None
  | MvNormalized f | MvFloat f => Some (f64_of_f32 f)
  | MvScaled i => Some (f64_of_int i)
  end.
Definition width (p : DeadbandPolicy) (old : MonitoredValue) : F64 :=
  match p with
  | DbNone => S754_zero false
  | DbAbsolute delta => delta
  | DbPercent pct floor =>
      f64_mul (f64_div (f64_of_f32 pct) (f64_of_int 100)) (f64_max (MonitoredValue_magnitude old) floor)
  end.

(** Two samples the policy lets the peer take for one another. *)
Definition indistinct (p : DeadbandPolicy) (old new : MonitoredValue) : Prop :=
  match p, number old, number new with
  | DbNone, _, _ => MonitoredValue_eqb old new = true
  | _, Some a, Some b =>
      is_nan a = is_nan b /\ is_finite a = is_finite b /\
      (is_nan a = true \/ f64_ge (f64_abs (f64_sub b a)) (width p old) = false)
  | _, _, _ => old = new
  end.

Lemma threshold_crossed_spec p old new :
  MonitoredValue_kind old = MonitoredValue_kind new -> p ≠ DbNone ->
  ∃ c, threshold_crossed old new p = Some c /\ (c = false <-> indistinct p old new).
Proof.
  intros Hk Hp.
  assert (∀ a b : F64,
    let c := if negb (eqb (is_nan a) (is_nan b)) then true
      else if negb (eqb (is_finite a) (is_finite b)) then true
      else if is_nan a && is_nan b then false
      else f64_ge (f64_abs (f64_sub b a)) (width p old) in
    c = false <-> is_nan a = is_nan b /\ is_finite a = is_finite b /\
      (is_nan a = true \/ f64_ge (f64_abs (f64_sub b a)) (width p old) = false)) as H.
  { intros a b. destruct (is_nan a), (is_nan b), (is_finite a), (is_finite b); simpl; intuition congruence. }
  destruct old, new; try discriminate; unfold threshold_crossed, indistinct; simpl number; cbn iota.
  1,2: eexists; split; [done|]; rewrite negb_false_iff;
    first [rewrite eqb_true_iff|rewrite bool_decide_eq_true];
    destruct p; [done|..]; split; congruence.
  all: eexists; split; [reflexivity|]; destruct p; [done|..]; apply H.
Qed.

Definition tracks (s : DeadbandTracker * View) : Prop := pair_of <$> baselines s.1 = s.2.

Lemma tracks_set ioa v q t view :
  tracks (t, view) -> tracks (set_baseline ioa v q t, <[ioa := (v, q)]> view).
Proof. unfold tracks. simpl. intros <-. by rewrite fmap_insert. Qed.

(** What one call of [evaluate] does, by case. *)
Variant evaluate_case (ioa : Ioa) (v : MonitoredValue) (q : Qds) (t : DeadbandTracker)
  : DbResult EmitDecision * DeadbandTracker -> Prop :=
| EvEmit : (∀ b, baselines t !! ioa = Some b -> MonitoredValue_kind (bl_value b) = MonitoredValue_kind v
      /\ (bl_quality b = q -> ~ indistinct (Tracker_policy t ioa) (bl_value b) v)) ->
    evaluate_case ioa v q t (DbOk Emit, set_baseline ioa v q t)
| EvSuppress v0 : baselines t !! ioa = Some (mkBaseline v0 q) ->
    MonitoredValue_kind v0 = MonitoredValue_kind v -> indistinct (Tracker_policy t ioa) v0 v ->
    evaluate_case ioa v q t (DbOk Suppress, t)
| EvMismatch b : baselines t !! ioa = Some b -> MonitoredValue_kind (bl_value b) ≠ MonitoredValue_kind v ->
    evaluate_case ioa v q t
      (DbErr (KindMismatch ioa (MonitoredValue_kind (bl_value b)) (MonitoredValue_kind v)), t).

Lemma evaluate_cases ioa v q t : evaluate_case ioa v q t (evaluate ioa v q t).
Proof.
  unfold evaluate. destruct (baselines t !! ioa) as [[v0 q0]|] eqn:Hb; [|constructor; congruence].
  simpl. case_bool_decide as Hk; [by apply (EvMismatch _ _ _ _ (mkBaseline v0 q0))|].
  case_bool_decide as Hq.
  { constructor. intros b Hb'. simplify_eq. done. }
  subst q0.
  assert (∀ c : bool, (c = false <-> indistinct (Tracker_policy t ioa) v0 v) ->
    evaluate_case ioa v q t (if c then (DbOk Emit, set_baseline ioa v q t) else (DbOk Suppress, t))) as H.
  { intros [] Hc; [constructor|by econstructor; eauto; apply Hc].
    intros b Hb'. simplify_eq. simpl. split; [done|]. intros _ Hi. apply Hc in Hi. done. }
  destruct (Tracker_policy t ioa) eqn:Hp.
  - specialize (H (negb (MonitoredValue_eqb v0 v))). unfold indistinct in H.
    rewrite negb_false_iff in H. destruct (MonitoredValue_eqb v0 v); by apply H.
  - destruct (threshold_crossed_spec (DbAbsolute delta) v0 v Hk) as (c & -> & Hc); [done|].
    specialize (H c Hc). by destruct c.
  - destruct (threshold_crossed_spec (DbPercent pct floor) v0 v Hk) as (c & -> & Hc); [done|].
    specialize (H c Hc). by destruct c.
Qed.

Lemma observe_cases ioa v q t :
  observe ioa v q t = (DbOk tt, set_baseline ioa v q t) /\
    (∀ b, baselines t !! ioa = Some b -> MonitoredValue_kind (bl_value b) = MonitoredValue_kind v) \/
  ∃ b, baselines t !! ioa = Some b /\ MonitoredValue_kind (bl_value b) ≠ MonitoredValue_kind v /\
    observe ioa v q t =
      (DbErr (KindMismatch ioa (MonitoredValue_kind (bl_value b)) (MonitoredValue_kind v)), t).
Proof.
  unfold observe. destruct (baselines t !! ioa) as [b|] eqn:Hb; [|by left].
  case_bool_decide; [right|left]; naive_solver.
Qed.

Lemma db_step_tracks s op : tracks s -> tracks (db_step s op).
Proof.
  destruct s as [t view]. intros Ht. unfold db_step. destruct op as [ioa v q|ioa v q|ioa p|ioa|ioa|]; simpl.
  - destruct (observe_cases ioa v q t) as [[-> _]|(b & _ & _ & ->)]; [by apply tracks_set|done].
  - destruct (evaluate_cases ioa v q t); simpl; [by apply tracks_set|done..].
  - done.
  - done.
  - unfold tracks in *; simpl in *. rewrite <- Ht. by rewrite fmap_delete.
  - unfold tracks. simpl. by rewrite fmap_empty.
Qed.

Lemma db_run_tracks ops : tracks (db_run ops).
Proof.
  unfold db_run. assert (tracks (DeadbandTracker_new, ∅)) as H by (unfold tracks; simpl; by rewrite fmap_empty).
  revert H. generalize (DeadbandTracker_new, ∅ : View).
  induction ops as [|op ops IH]; intros s Hs; [done|]. apply IH, db_step_tracks, Hs.
Qed.

Lemma tracks_lookup t view ioa : tracks (t, view) -> view !! ioa = pair_of <$> baselines t !! ioa.
Proof. unfold tracks. simpl. intros <-. by rewrite lookup_fmap. Qed.

(** C24. The filter keeps an exact copy of what the peer holds: after any
    sequence of calls the baselines are the samples sent last, no call panics,
    a sample is withheld only when the peer holds one of the same quality that
    the policy does not tell from it, [Emit] leaves the new sample with the
    peer, and a call that fails is a change of kind and changes nothing. *)
Theorem deadband_tracks_peer ops op :
  let s := db_run ops in let s' := db_step s op in
  pair_of <$> baselines s'.1 = s'.2 /\
  match op, (db_apply op s.1).1 with
  | _, DbPanic => False
  | _, DbErr (KindMismatch i expected actual) =>
      s' = s /\ expected ≠ actual /\ ∃ v0 q0, s.2 !! i = Some (v0, q0) /\ MonitoredValue_kind v0 = expected
  | OpEvaluate ioa v q, DbOk Suppress =>
      s' = s /\ ∃ v0, s.2 !! ioa = Some (v0, q) /\ MonitoredValue_kind v0 = MonitoredValue_kind v /\
        indistinct (Tracker_policy s.1 ioa) v0 v
  | OpEvaluate ioa v q, DbOk Emit =>
      s'.2 = <[ioa := (v, q)]> s.2 /\
      (∀ v0, s.2 !! ioa = Some (v0, q) -> ~ indistinct (Tracker_policy s.1 ioa) v0 v)
  | OpObserve ioa v q, DbOk d => d = Emit /\ s'.2 = <[ioa := (v, q)]> s.2
  | _, DbOk d => d = Suppress
  end.
Proof.
  intros s s'. split; [apply db_step_tracks, db_run_tracks|].
  pose proof (db_run_tracks ops) as Ht. fold s in Ht. unfold s'; clear s'. destruct s as [t view].
  assert (∀ ioa, view !! ioa = pair_of <$> baselines t !! ioa) as Hl
    by (intros; by apply tracks_lookup).
  destruct op as [ioa v q|ioa v q|ioa p|ioa|ioa|]; try done; unfold db_step; cbn [fst snd db_apply].
  - destruct (observe_cases ioa v q t) as [[-> _]|(b & Hb & Hk & ->)]; [done|].
    simpl. split; [done|]. split; [done|]. exists (bl_value b), (bl_quality b).
    split; [|done]. by rewrite Hl, Hb.
  - destruct (evaluate_cases ioa v q t) as [He|v0 Hb Hk Hi|b Hb Hk]; simpl.
    + split; [done|]. intros v0. rewrite Hl. intros Hv. apply fmap_Some in Hv as ([v1 q1] & Hb & [= -> ->]).
      by apply (He _ Hb).
    + split; [done|]. exists v0. by rewrite Hl, Hb.
    + split; [done|]. split; [done|]. exists (bl_value b), (bl_quality b). split; [|done]. by rewrite Hl, Hb.
Qed.

(** ** One kind per address *)

(** The samples of an address are all of the kind [G] gives it. *)
Definition op_typed (G : Ioa -> ValueKind) (op : DbOp) : Prop :=
  match op with
  | OpObserve ioa v _ | OpEvaluate ioa v _ => MonitoredValue_kind v = G ioa
  | _ => True
  end.
Definition tracker_typed (G : Ioa -> ValueKind) (t : DeadbandTracker) : Prop :=
  map_Forall (λ ioa b, MonitoredValue_kind (bl_value b) = G ioa) (baselines t).

Lemma tracker_typed_set G ioa v q t :
  tracker_typed G t -> MonitoredValue_kind v = G ioa -> tracker_typed G (set_baseline ioa v q t).
Proof. intros Ht Hv. by apply map_Forall_insert_2. Qed.

Lemma db_apply_typed G op t :
  op_typed G op -> tracker_typed G t ->
  (∃ d, (db_apply op t).1 = DbOk d) /\ tracker_typed G (db_apply op t).2.
Proof.
  intros Ho Ht. destruct op as [ioa v q|ioa v q|ioa p|ioa|ioa|]; simpl in *; [| |by eauto..| |].
  - destruct (observe_cases ioa v q t) as [[-> _]|(b & Hb & Hk & _)].
    + simpl. eauto using tracker_typed_set.
    + by rewrite (Ht _ _ Hb) in Hk.
  - destruct (evaluate_cases ioa v q t) as [He|v0 Hb Hk Hi|b Hb Hk]; simpl.
    + eauto using tracker_typed_set.
    + eauto.
    + by rewrite (Ht _ _ Hb) in Hk.
  - split; [eauto|]. by apply map_Forall_delete.
  - split; [eauto|]. by apply map_Forall_empty.
Qed.

(** Type soundness of the tracker: when every address is sampled with one
    kind of value, no call of any sequence fails or panics, and every baseline
    has the kind of its address. *)
Theorem deadband_type_sound G ops op :
  Forall (op_typed G) (ops ++ [op]) ->
  (∃ d, (db_apply op (db_run ops).1).1 = DbOk d) /\ tracker_typed G (db_run (ops ++ [op])).1.
Proof.
  rewrite Forall_app, Forall_singleton. intros [Hops Hop]. unfold db_run. rewrite foldl_app. simpl.
  assert (tracker_typed G (foldl db_step (DeadbandTracker_new, ∅) ops).1) as H.
  { clear op Hop. revert Hops. assert (tracker_typed G DeadbandTracker_new) as H by apply map_Forall_empty.
    change DeadbandTracker_new with (DeadbandTracker_new, ∅ : View).1 in H. revert H.
    generalize (DeadbandTracker_new, ∅ : View).
    induction ops as [|op ops IH]; intros s Hs; [done|]. intros [Ho Hops]%Forall_cons.
    apply IH; [|done]. apply (db_apply_typed G op s.1 Ho Hs). }
  by apply db_apply_typed.
Qed.

Definition q_ok : Qds := mkQds false (mkQuality false false false false).

Lemma deadband_type_sound_witness :
  let G ioa := if ioa =? 1 then VkScaled else VkSingle in
  let ops := [OpObserve 1 (MvScaled 10) q_ok; OpSetPolicy 1 (DbAbsolute (f64_of_int 5)); OpEvaluate 2 (MvSingle true) q_ok] in
  ∃ d, (db_apply (OpEvaluate 1 (MvScaled 14) q_ok) (db_run ops).1).1 = DbOk d.
Proof.
  intros G ops. refine (proj1 (deadband_type_sound G ops (OpEvaluate 1 (MvScaled 14) q_ok) _)).
  repeat constructor.
Defined.

(** ** Repeated samples *)

(** The policy withholds an exact repetition of [v]. *)
Definition quiet (p : DeadbandPolicy) (v : MonitoredValue) : bool :=
  match number v with
  | None => true
  | Some a =>
      match p with
      | DbNone => negb (is_nan a)
      | _ => negb (is_finite a) || negb (f64_ge (S754_zero false) (width p v))
      end
  end.

Lemma quiet_spec p v : quiet p v = true <-> indistinct p v v.
Proof.
  unfold quiet, indistinct.
  assert (∀ w, f64_ge S754_nan w = false) as Hnan by (by intros []).
  assert (∀ a w, negb (is_finite a) || negb (f64_ge (S754_zero false) w) = true <->
    is_nan a = is_nan a /\ is_finite a = is_finite a /\
    (is_nan a = true \/ f64_ge (f64_abs (f64_sub a a)) w = false)) as H.
  { intros a w. rewrite f64_dist_refl. destruct a; simpl; rewrite ?negb_true_iff, ?Hnan; intuition congruence. }
  destruct p as [|delta|pct floor]; [|destruct (number v); [apply H|done]..].
  destruct v; simpl; rewrite ?eqb_reflx, ?bool_decide_eq_true, ?Z.eqb_refl, ?f64_of_int_nan,
    ?f64_of_f32_nan, ?SFeqb_refl; done.
Qed.

(** A sample that was just sent and comes again is withheld exactly when
    the policy is [quiet] on it: under [None] unless it is a NaN, under a
    threshold unless the width of the deadband is zero or negative. Either way
    the tracker does not change. *)
Theorem deadband_repeat ioa v q t t' :
  evaluate ioa v q t = (DbOk Emit, t') ->
  evaluate ioa v q t' = (DbOk (if quiet (Tracker_policy t ioa) v then Suppress else Emit), t').
Proof.
  intros He. assert (t' = set_baseline ioa v q t) as ->
    by (destruct (evaluate_cases ioa v q t); by simplify_eq).
  assert (baselines (set_baseline ioa v q t) !! ioa = Some (mkBaseline v q)) as Hb
    by apply lookup_insert_eq.
  assert (set_baseline ioa v q (set_baseline ioa v q t) = set_baseline ioa v q t) as Hs
    by (unfold set_baseline; simpl; by rewrite insert_insert_eq).
  change (Tracker_policy t ioa) with (Tracker_policy (set_baseline ioa v q t) ioa).
  destruct (quiet _ v) eqn:Hq, (evaluate_cases ioa v q (set_baseline ioa v q t)) as [H|v0 H1 _ H|b H H1];
    rewrite ?Hs; try done; simplify_eq.
  - apply quiet_spec in Hq. destruct (H _ Hb) as [_ H']. by destruct H'.
  - apply quiet_spec in H. congruence.
Qed.

Lemma deadband_repeat_witness :
  let t := Tracker_set_policy 7 (DbAbsolute (f64_of_int 5)) DeadbandTracker_new in
  evaluate 7 (MvScaled 3) q_ok (set_baseline 7 (MvScaled 3) q_ok t) =
    (DbOk Suppress, set_baseline 7 (MvScaled 3) q_ok t).
Proof.
  intros t. exact (deadband_repeat 7 (MvScaled 3) q_ok t (set_baseline 7 (MvScaled 3) q_ok t) eq_refl).
Defined.

(** The documentation has [None] send every observation; it withholds an
    unchanged one, and sends every NaN. *)
Example none_withholds :
  let t := set_baseline 7 (MvScaled 3) q_ok DeadbandTracker_new in
  evaluate 7 (MvScaled 3) q_ok t = (DbOk Suppress, t).
Proof. reflexivity. Qed.
Example none_sends_nan :
  let t := set_baseline 7 (MvFloat S754_nan) q_ok DeadbandTracker_new in
  evaluate 7 (MvFloat S754_nan) q_ok t = (DbOk Emit, t).
Proof. reflexivity. Qed.

(** ** The error of a scaled point *)

Definition sample_i16 (v : MonitoredValue) : Prop :=
  match v with MvScaled i => is_i16 i | _ => True end.
Definition op_i16 (op : DbOp) : Prop :=
  match op with OpObserve _ v _ | OpEvaluate _ v _ => sample_i16 v | _ => True end.

Lemma db_run_i16 ops :
  Forall op_i16 ops -> map_Forall (λ _ s, sample_i16 s.1) (db_run ops).2.
Proof.
  unfold db_run. assert (map_Forall (λ _ s, sample_i16 s.1) (DeadbandTracker_new, ∅ : View).2) as H
    by apply map_Forall_empty.
  revert H. generalize (DeadbandTracker_new, ∅ : View).
  induction ops as [|op ops IH]; intros s Hs; [done|]. intros [Ho Hops]%Forall_cons.
  apply IH; [|done]. unfold db_step. cbn [snd]. destruct op; simpl in *;
    repeat case_match; try done;
    first [apply map_Forall_empty|by apply map_Forall_delete|by apply map_Forall_insert_2].
Qed.

Lemma indistinct_scaled d x y :
  is_i16 x -> is_i16 y -> 0 <= d < 2 ^ 53 ->
  indistinct (DbAbsolute (f64_of_int d)) (MvScaled y) (MvScaled x) <-> Z.abs (x - y) < d.
Proof.
  unfold is_i16, indistinct. intros Hx Hy Hd. simpl.
  rewrite !f64_of_int_exact, f64_sub_int, f64_abs_int, f64_ge_int, Z.leb_gt by lia.
  assert (∀ z, Z.abs z < 2 ^ 53 -> is_nan (f64_int z) = false /\ is_finite (f64_int z) = true) as H
    by (intros []; done).
  destruct (H x) as [-> ->]; [lia|]. destruct (H y) as [-> ->]; [lia|]. intuition congruence.
Qed.

(** C40. The deadband is exact on scaled points: with an absolute threshold of
    [d] units, whatever happened before, once a sample [x] has been evaluated
    the peer holds [x] itself or a value less than [d] away, with the quality
    of [x]; and [x] is withheld exactly when the value the peer held was that
    close. No rounding of the [f64] computation shows at any [i16]. *)
Theorem deadband_error_bound ops ioa x q d :
  let s := db_run ops in let r := evaluate ioa (MvScaled x) q s.1 in
  let s' := db_step s (OpEvaluate ioa (MvScaled x) q) in
  Forall op_i16 ops -> is_i16 x -> 0 <= d < 2 ^ 53 ->
  Tracker_policy s.1 ioa = DbAbsolute (f64_of_int d) ->
  (∀ e, r.1 ≠ DbErr e) ->
  (∃ y, s'.2 !! ioa = Some (MvScaled y, q) /\ (y = x \/ Z.abs (x - y) < d)) /\
  (r.1 = DbOk Suppress <-> ∃ y, s.2 !! ioa = Some (MvScaled y, q) /\ Z.abs (x - y) < d).
Proof.
  intros s r s' Hops Hx Hd Hp He. pose proof (db_run_i16 ops Hops) as Hi.
  pose proof (db_run_tracks ops) as Ht. unfold s', r in *; clear s' r. fold s in Ht, Hi. destruct s as [t view].
  assert (∀ ioa, view !! ioa = pair_of <$> baselines t !! ioa) as Hl
    by (intros; by apply tracks_lookup).
  unfold db_step. cbn [fst snd db_apply] in *.
  destruct (evaluate_cases ioa (MvScaled x) q t) as [H|v0 Hb Hk Hin|b Hb Hk]; cbn [fst snd view_after] in *.
  - split; [exists x; split; [apply lookup_insert_eq|by left]|]. split; [done|].
    intros (y & Hy & Hlt). pose proof (Hi _ _ Hy) as Hy'. rewrite Hl in Hy.
    apply fmap_Some in Hy as ([v1 q1] & Hb & [= <- <-]). destruct (H _ Hb) as [_ []]; [done|].
    rewrite Hp. by apply indistinct_scaled.
  - destruct v0 as [| | |y|]; try done. assert (view !! ioa = Some (MvScaled y, q)) as Hv by (by rewrite Hl, Hb).
    pose proof (Hi _ _ Hv) as Hy. rewrite Hp in Hin. apply indistinct_scaled in Hin; [|done..].
    split; [by exists y; eauto|]. split; [by exists y|done].
  - by destruct (He _ eq_refl).
Qed.

Lemma deadband_error_bound_witness :
  let ops := [OpSetPolicy 7 (DbAbsolute (f64_of_int 5)); OpEvaluate 7 (MvScaled 100) q_ok] in
  (evaluate 7 (MvScaled 104) q_ok (db_run ops).1).1 = DbOk Suppress.
Proof.
  intros ops. refine (proj2 (proj2 (deadband_error_bound ops 7 104 q_ok 5 _ _ _ _ _)) _).
  - repeat constructor; vm_compute; congruence.
  - vm_compute; split; congruence.
  - lia.
  - reflexivity.
  - vm_compute. congruence.
  - exists 100. split; [vm_compute; reflexivity|lia].
Defined.
