(* ===== verification/Policy.v ===== *)
(** * Acceptance rules at the edge of a station

    [policy.rs], the allow-lists an incoming ASDU is held against, and
    [security/ip_filter.rs], the addresses a server accepts connections from.
    A [HashSet] is a [gset]. The ipnet crate and the address parser are
    parameters: a network is whatever contains addresses, and a host address
    is the network that contains it alone. *)

From S2P Require Import Prelude.

(** ** The ASDU policy *)

(** policy.rs 46-50, AsduPolicy. *)
Record AsduPolicy := mkPolicy {
  allowed_type_ids : option (gset Z);
  allowed_causes : option (gset Z);
  allowed_common_addresses : option (gset Z) }.

(** policy.rs 54-56, AsduPolicy::new. *)
Definition AsduPolicy_new : AsduPolicy := mkPolicy None None None.

(** [get_or_insert_with(HashSet::new)]. *)
Definition or_new (s : option (gset Z)) : gset Z := default ∅ s.

(** policy.rs 60-65, AsduPolicy::allow_type_id. *)
Definition allow_type_id (type_id : Z) (p : AsduPolicy) : AsduPolicy :=
  mkPolicy (Some ({[type_id]} ∪ or_new (allowed_type_ids p)))
    (allowed_causes p) (allowed_common_addresses p).

(** policy.rs 68-74, AsduPolicy::allow_type_id_range. *)
Definition allow_type_id_range (lo hi : Z) (p : AsduPolicy) : AsduPolicy :=
  let set := or_new (allowed_type_ids p) in
  mkPolicy (Some (foldl (λ s t, {[t]} ∪ s) set (seqZ lo (hi - lo + 1))))
    (allowed_causes p) (allowed_common_addresses p).

(** policy.rs 77-82, AsduPolicy::allow_cause. *)
Definition allow_cause (cause : Z) (p : AsduPolicy) : AsduPolicy :=
  mkPolicy (allowed_type_ids p) (Some ({[cause]} ∪ or_new (allowed_causes p)))
    (allowed_common_addresses p).

(** policy.rs 85-90, AsduPolicy::allow_common_address. *)
Definition allow_common_address (ca : Z) (p : AsduPolicy) : AsduPolicy :=
  mkPolicy (allowed_type_ids p) (allowed_causes p)
    (Some ({[ca]} ∪ or_new (allowed_common_addresses p))).

(** policy.rs 93-97, AsduPolicy::is_restrictive. *)
Definition is_restrictive (p : AsduPolicy) : bool :=
  bool_decide (is_Some (allowed_type_ids p)) || bool_decide (is_Some (allowed_causes p))
  || bool_decide (is_Some (allowed_common_addresses p)).

(** policy.rs 100-117, AsduPolicy::allows. *)
Definition allows (type_id cause_raw ca : Z) (p : AsduPolicy) : bool :=
  let lists (s : option (gset Z)) (x : Z) : bool :=
    match s with Some s => bool_decide (x ∈ s) | None => true end in
  if negb (lists (allowed_type_ids p) type_id) then false
  else if negb (lists (allowed_causes p) cause_raw) then false
  else if negb (lists (allowed_common_addresses p) ca) then false
  else true.

(** What was asked for, in any order. *)
Inductive PolicyOp :=
| PoType (t : Z) | PoRange (lo hi : Z) | PoCause (c : Z) | PoAddress (ca : Z).

Definition policy_op (o : PolicyOp) : AsduPolicy -> AsduPolicy :=
  match o with
  | PoType t => allow_type_id t
  | PoRange lo hi => allow_type_id_range lo hi
  | PoCause c => allow_cause c
  | PoAddress ca => allow_common_address ca
  end.
Definition policy_of (ops : list PolicyOp) : AsduPolicy :=
  foldl (flip policy_op) AsduPolicy_new ops.

(** The requests that bear on an axis, and whether one of them names [x]. *)
Inductive Axis := AxType | AxCause | AxAddress.
Definition on_axis (a : Axis) (o : PolicyOp) : bool :=
  match a, o with
  | AxType, (PoType _ | PoRange _ _) | AxCause, PoCause _ | AxAddress, PoAddress _ => true
  | _, _ => false
  end.
Definition names (x : Z) (o : PolicyOp) : bool :=
  match o with
  | PoType t => x =? t
  | PoRange lo hi => (lo <=? x) && (x <=? hi)
  | PoCause c => x =? c
  | PoAddress ca => x =? ca
  end.
Definition axis (a : Axis) (p : AsduPolicy) : option (gset Z) :=
  match a with
  | AxType => allowed_type_ids p | AxCause => allowed_causes p
  | AxAddress => allowed_common_addresses p
  end.

Lemma elem_of_range_fold x l (s : gset Z) :
  x ∈ foldl (λ s t, {[t]} ∪ s) s l <-> x ∈ s \/ x ∈ l.
Proof.
  revert s. induction l as [|t l IH]; intros s; simpl; [set_solver|]. rewrite IH. set_solver.
Qed.

(** One request turns its own axis into the list extended by what it names. *)
Lemma axis_op a o p :
  if on_axis a o then
    ∃ s, axis a (policy_op o p) = Some s /\
      ∀ x, x ∈ s <-> x ∈ or_new (axis a p) \/ names x o = true
  else axis a (policy_op o p) = axis a p.
Proof.
  destruct a, o; simpl; try done; eexists; (split; [reflexivity|]); intros x;
    rewrite ?elem_of_range_fold, ?elem_of_seqZ, ?andb_true_iff, ?Z.eqb_eq, ?Z.leb_le;
    first [set_solver|intuition lia].
Qed.

Lemma axis_run a ops p :
  axis a (foldl (flip policy_op) p ops) = None /\ axis a p = None /\ Forall (λ o, on_axis a o = false) ops \/
  ∃ s, axis a (foldl (flip policy_op) p ops) = Some s /\
    (is_Some (axis a p) \/ Exists (λ o, on_axis a o = true) ops) /\
    ∀ x, x ∈ s <-> x ∈ or_new (axis a p) \/ Exists (λ o, on_axis a o = true /\ names x o = true) ops.
Proof.
  revert p. induction ops as [|o ops IH]; intros p; simpl.
  { destruct (axis a p) as [s|]; [right|by left; auto]. exists s. split; [done|]. split; [eauto|].
    intros x. rewrite Exists_nil. simpl. tauto. }
  pose proof (axis_op a o p) as Ho. setoid_rewrite Forall_cons. setoid_rewrite Exists_cons.
  destruct (IH (policy_op o p)) as [(Hn & Hp & Hf)|(s & Hs & He & Hx)]; destruct (on_axis a o) eqn:Ha.
  - destruct Ho as (s & Hs & _). congruence.
  - left. rewrite <- Ho. auto.
  - destruct Ho as (s' & Hs' & Hx'). rewrite Hs' in *. right. exists s. split; [done|]. split; [auto|].
    intros x. rewrite Hx. simpl. rewrite Hx'. naive_solver.
  - rewrite Ho in *. right. exists s. split; [done|]. split; [naive_solver|].
    intros x. rewrite Hx. naive_solver.
Qed.

(** The policy is the conjunction of three allow-lists: however it was
    built, an ASDU passes exactly when, on each of the three axes, nothing was
    listed or one of the requests on that axis names its value. *)
Theorem policy_exact ops type_id cause ca :
  allows type_id cause ca (policy_of ops) = true <->
  ∀ a, Forall (λ o, on_axis a o = false) ops \/
    Exists (λ o, on_axis a o = true /\
      names (match a with AxType => type_id | AxCause => cause | AxAddress => ca end) o = true) ops.
Proof.
  assert (∀ a x, match axis a (policy_of ops) with Some s => bool_decide (x ∈ s) | None => true end = true <->
    Forall (λ o, on_axis a o = false) ops \/
    Exists (λ o, on_axis a o = true /\ names x o = true) ops) as H.
  { intros a x. unfold policy_of.
    destruct (axis_run a ops AsduPolicy_new) as [(-> & _ & Hf)|(s & -> & He & Hx)]; [by intuition|].
    rewrite bool_decide_eq_true, Hx. assert (or_new (axis a AsduPolicy_new) = ∅) as -> by (by destruct a).
    assert (axis a AsduPolicy_new = None) as Hn by (by destruct a). rewrite Hn in He.
    destruct He as [[? ?]|He]; [done|]. split; [set_solver|].
    intros [Hf|?]; [|by right]. rewrite Forall_forall in Hf. apply Exists_exists in He as (o & Ho & Ht).
    rewrite (Hf _ Ho) in Ht. done. }
  pose proof (H AxType type_id) as Ht. pose proof (H AxCause cause) as Hc.
  pose proof (H AxAddress ca) as Hd. unfold allows. simpl in Ht, Hc, Hd.
  split.
  - intros Hall a. destruct a; [apply Ht|apply Hc|apply Hd];
      destruct (match allowed_type_ids _ with Some _ => _ | None => _ end),
        (match allowed_causes _ with Some _ => _ | None => _ end),
        (match allowed_common_addresses _ with Some _ => _ | None => _ end); done.
  - intros Hall. rewrite (proj2 Ht (Hall AxType)), (proj2 Hc (Hall AxCause)),
      (proj2 Hd (Hall AxAddress)). done.
Qed.

Lemma unrestricted_allows p t c ca : is_restrictive p = false -> allows t c ca p = true.
Proof.
  destruct p as [[?|] [?|] [?|]]; try done; unfold is_restrictive; simpl;
    rewrite ?bool_decide_eq_true_2; by eauto.
Qed.

(** An empty range lists no Type ID and yet turns the axis into an allow-list
    that rejects every one. *)
Example empty_range_rejects :
  let p := allow_type_id_range 40 1 AsduPolicy_new in
  is_restrictive p = true /\ allows 30 3 1 p = false.
Proof. split; reflexivity. Qed.

(** ** The address filter *)

Section IpFilter.
(** [std::net::IpAddr], [ipnet::IpNet] with its [contains] and [From<IpAddr>],
    and the two parsers, over any type of string with its [trim]. *)
Context {IpAddr IpNet Str : Type}.
Context (net_contains : IpNet -> IpAddr -> bool) (net_of_addr : IpAddr -> IpNet).
Context (trim : Str -> Str) (str_is_empty : Str -> bool).
Context (parse_net : Str -> option IpNet) (parse_addr : Str -> option IpAddr).

(** ip_filter.rs 37-41, Mode. *)
Inductive FilterMode :=
| AllowAny
| AllowNets (nets : list IpNet)
| DenyAll.

(** ip_filter.rs 32-34, IpFilter. *)
Record IpFilter := mkFilter { flt_mode : FilterMode }.

(** ip_filter.rs 51-55, IpFilter::allow_all. *)
Definition IpFilter_allow_all : IpFilter := mkFilter AllowAny.

(** ip_filter.rs 59-63, IpFilter::deny_all. *)
Definition IpFilter_deny_all : IpFilter := mkFilter DenyAll.

(** ip_filter.rs 143-146, IpFilterParseError. *)
Record IpFilterParseError := mkParseError { entry : Str }.

(** ip_filter.rs 80-85, IpFilter::from_strs (parsing of one entry). *)
Definition parse_entry (trimmed : Str) : IpNet + IpFilterParseError :=
  match parse_net trimmed with
  | Some net => inl net
  | None =>
      match parse_addr trimmed with
      | Some addr => inl (net_of_addr addr)
      | None => inr (mkParseError trimmed)
      end
  end.

(** ip_filter.rs 75-87, IpFilter::from_strs (loop). *)
Fixpoint parse_entries (entries : list Str) (nets : list IpNet) : list IpNet + IpFilterParseError :=
  match entries with
  | [] => inl nets
  | raw :: entries =>
      let trimmed := trim raw in
      if str_is_empty trimmed then parse_entries entries nets
      else
        match parse_entry trimmed with
        | inl net => parse_entries entries (nets ++ [net])
        | inr e => inr e
        end
  end.

(** ip_filter.rs 73-91, IpFilter::from_strs. *)
Definition IpFilter_from_strs (entries : list Str) : IpFilter + IpFilterParseError :=
  match parse_entries entries [] with
  | inl nets => inl (mkFilter (AllowNets nets))
  | inr e => inr e
  end.

(** ip_filter.rs 132-136, IpFilter::ensure_allow_mode. *)
Definition ensure_allow_mode (f : IpFilter) : IpFilter :=
  match flt_mode f with
  | AllowNets _ => f
  | _ => mkFilter (AllowNets [])
  end.

(** ip_filter.rs 95-100, IpFilter::push_cidr. *)
Definition push_cidr (net : IpNet) (f : IpFilter) : IpFilter :=
  let f := ensure_allow_mode f in
  match flt_mode f with
  | AllowNets nets => mkFilter (AllowNets (nets ++ [net]))
  | _ => f
  end.

(** ip_filter.rs 105-107, IpFilter::push_addr. *)
Definition push_addr (addr : IpAddr) (f : IpFilter) : IpFilter := push_cidr (net_of_addr addr) f.

(** ip_filter.rs 112-117, IpFilter::is_empty. *)
Definition IpFilter_is_empty (f : IpFilter) : bool :=
  match flt_mode f with
  | AllowAny | DenyAll => true
  | AllowNets nets => match nets with [] => true | _ => false end
  end.

(** ip_filter.rs 124-130, IpFilter::contains. *)
Definition IpFilter_contains (ip : IpAddr) (f : IpFilter) : bool :=
  match flt_mode f with
  | AllowAny => true
  | DenyAll => false
  | AllowNets nets => existsb (λ n, net_contains n ip) nets
  end.

(** What an entry stands for: the networks it contributes, or a bad entry. *)
Definition entry_nets (raw : Str) : option (list IpNet) :=
  if str_is_empty (trim raw) then Some []
  else match parse_entry (trim raw) with inl net => Some [net] | inr _ => None end.

Lemma parse_entries_spec entries nets :
  match parse_entries entries nets with
  | inl out => ∃ ns, mapM entry_nets entries = Some ns /\ out = nets ++ concat ns
  | inr e => ∃ pre raw post, entries = pre ++ raw :: post /\ is_Some (mapM entry_nets pre) /\
      str_is_empty (trim raw) = false /\ parse_net (trim raw) = None /\ parse_addr (trim raw) = None /\
      entry e = trim raw
  end.
Proof.
  revert nets. induction entries as [|raw entries IH]; intros nets; simpl.
  { exists []. by rewrite app_nil_r. }
  assert (∀ ns' nets', entry_nets raw = Some ns' -> nets' = nets ++ ns' ->
    match parse_entries entries nets' with
    | inl out => ∃ ns, mapM entry_nets (raw :: entries) = Some ns /\ out = nets ++ concat ns
    | inr e => ∃ pre raw' post, raw :: entries = pre ++ raw' :: post /\ is_Some (mapM entry_nets pre) /\
        str_is_empty (trim raw') = false /\ parse_net (trim raw') = None /\ parse_addr (trim raw') = None /\
        entry e = trim raw'
    end) as Hstep.
  { intros ns' nets' He ->. specialize (IH (nets ++ ns')). destruct (parse_entries entries (nets ++ ns')).
    - destruct IH as (ns & Hns & ->). exists (ns' :: ns). simpl. rewrite He. simpl. rewrite Hns. simpl.
      by rewrite app_assoc.
    - destruct IH as (pre & raw' & post & -> & [ns Hpre] & Hrest). exists (raw :: pre), raw', post.
      split; [done|]. split; [|done]. simpl. rewrite He. simpl. rewrite Hpre. by eexists. }
  assert (entry_nets raw = if str_is_empty (trim raw) then Some []
    else match parse_entry (trim raw) with inl net => Some [net] | inr _ => None end) as He by done.
  unfold parse_entry in *. destruct (str_is_empty (trim raw)) eqn:Hz.
  { apply (Hstep []); [done|by rewrite app_nil_r]. }
  destruct (parse_net (trim raw)) as [net|] eqn:Hn; [by apply (Hstep [net])|].
  destruct (parse_addr (trim raw)) as [addr|] eqn:Ha; [by apply (Hstep [net_of_addr addr])|].
  exists [], raw, entries. simpl. eauto 10.
Qed.

(** A filter built from strings and extended accepts exactly what it
    lists: an address passes when an entry is a network containing it or,
    failing to parse as one, is that host; entries that are blank are skipped
    and the first that is neither is the error. Extending a filter that was
    not a list starts from an empty one. *)
Theorem filter_exact entries pushed ip :
  (∀ a b, net_contains (net_of_addr a) b = true <-> a = b) ->
  match IpFilter_from_strs entries with
  | inl f =>
      IpFilter_contains ip (foldl (flip push_cidr) f pushed) = true <->
      Exists (λ raw, str_is_empty (trim raw) = false /\
        match parse_net (trim raw) with
        | Some n => net_contains n ip = true
        | None => parse_addr (trim raw) = Some ip
        end) entries \/
      Exists (λ n, net_contains n ip = true) pushed
  | inr e => ∃ pre raw post, entries = pre ++ raw :: post /\ is_Some (mapM entry_nets pre) /\
      str_is_empty (trim raw) = false /\ parse_net (trim raw) = None /\ parse_addr (trim raw) = None /\
      entry e = trim raw
  end /\
  (∀ net f, IpFilter_contains ip (push_cidr net f) = true <->
    net_contains net ip = true \/
    match flt_mode f with AllowNets _ => IpFilter_contains ip f = true | _ => False end).
Proof.
  intros Hhost. split.
  - unfold IpFilter_from_strs. pose proof (parse_entries_spec entries []) as H.
    destruct (parse_entries entries []) as [out|e]; [|done]. destruct H as (ns & Hns & ->). simpl.
    assert (∀ nets, foldl (flip push_cidr) (mkFilter (AllowNets nets)) pushed =
      mkFilter (AllowNets (nets ++ pushed))) as ->.
    { induction pushed as [|n pushed IH]; intros nets; simpl; [by rewrite app_nil_r|].
      unfold push_cidr, ensure_allow_mode at 2. simpl. rewrite IH. by rewrite <- app_assoc. }
    unfold IpFilter_contains. simpl. rewrite existsb_app, orb_true_iff.
    assert (∀ l, existsb (λ n, net_contains n ip) l = true <-> Exists (λ n, net_contains n ip = true) l) as Hb.
    { intros l. rewrite existsb_exists, Exists_exists. by setoid_rewrite list_elem_of_In. }
    rewrite !Hb. apply or_iff_compat_r. clear pushed Hb. revert ns Hns.
    induction entries as [|raw entries IH]; intros ns Hns; simpl in Hns.
    { injection Hns as <-. simpl. by rewrite !Exists_nil. }
    destruct (entry_nets raw) as [ns'|] eqn:He; [|done]. simpl in Hns.
    destruct (mapM entry_nets entries) as [ns0|] eqn:Hm; [|done]. simpl in Hns. injection Hns as <-. simpl.
    rewrite Exists_app, Exists_cons, IH by done. apply or_iff_compat_r.
    unfold entry_nets, parse_entry in He. destruct (str_is_empty (trim raw)); simplify_eq.
    { rewrite Exists_nil. intuition congruence. }
    destruct (parse_net (trim raw)) as [n|]; simplify_eq.
    { rewrite Exists_cons, Exists_nil. intuition. }
    destruct (parse_addr (trim raw)) as [a|]; simplify_eq.
    rewrite Exists_cons, Exists_nil, Hhost. intuition congruence.
  - intros net f. unfold push_cidr, ensure_allow_mode, IpFilter_contains.
    destruct (flt_mode f) as [|nets|] eqn:Hf; rewrite ?Hf; simpl; rewrite ?existsb_app; simpl;
      rewrite ?orb_true_iff; intuition congruence.
Qed.

End IpFilter.

(** Networks of an octet each, given by their low and high end, read from
    pairs of numbers; the empty pair is blank. *)
Lemma filter_exact_witness :
  let contains (n : Z * Z) (a : Z) := (n.1 <=? a) && (a <=? n.2) in
  let parse_net (s : list Z) := match s with [a; b] => Some (a, b) | _ => None end in
  let parse_addr (s : list Z) := match s with [a] => Some a | _ => None end in
  let host (a : Z) := (a, a) in let blank (s : list Z) := bool_decide (s = []) in
  match IpFilter_from_strs host id blank parse_net parse_addr [[10; 20]; []; [99]] with
  | inl f => IpFilter_contains contains 99 (foldl (flip push_cidr) f [(30, 40)]) = true
  | inr _ => False
  end.
Proof.
  intros contains parse_net parse_addr host blank.
  refine (proj2 (proj1 (filter_exact contains host id blank parse_net parse_addr [[10; 20]; []; [99]] [(30, 40)] 99 _)) _).
  - intros a b. unfold contains. simpl. rewrite andb_true_iff, !Z.leb_le. lia.
  - left. do 2 apply Exists_cons_tl. apply Exists_cons_hd. split; reflexivity.
Defined.
