(* ===== verification/Driver104.v ===== *)
(** * The 104 driver

    [driver.rs] of the tokio crate: the task that owns one connection, feeds
    the octets of the transport to the framing and the frames to the state
    machine, and carries out the actions the machine returns. A turn of the
    [select!] loop is a step on what completed: a command of the user, the
    timer, or a read. The environment is left open: [clock] is the sequence of
    instants successive calls of [Instant::now] return, and for each output in
    turn [write_ok] and [evt_open] say whether the transport takes it and
    whether the receiver of the event channel is still there. The hooks of the
    [EventHandler] observe and return nothing; they have no part here. *)

From S2P Require Import Prelude Bytes Codec AsduHeader Asdu Frame104 Conn104 Policy.

(** ** Data *)

(** driver.rs 27-27, MAX_RX_BUFFERED. *)
Definition MAX_RX_BUFFERED : nat := 4 * 1024.

(** driver.rs 31-35, Command. *)
Inductive Command := CmdSendAsdu (asdu : bytes) | CmdStartDt | CmdStopDt.

(** driver.rs 39-43, DriverEvent. *)
Inductive DriverEvent :=
| EvAsdu (asdu : bytes) | EvStateChanged (s : State) | EvClosed (r : option DisconnectReason).

(** iec60870/src/error.rs 9-30, Error. The variants the driver returns. *)
Inductive DrvError := ErrIo | ErrProtocol (e : Error).

(** What the task has produced, in order: octets written, events sent to the
    user, ASDUs handed to the file-transfer service. *)
Inductive Output :=
| OutBytes (b : bytes) | OutEvent (e : DriverEvent) | OutFt (ca : CommonAddress) (a : Asdu).

(** The local variables of [run]; [calls] counts the clock readings. *)
Record Driver := mkDriver {
  drv_conn : Connection; rx_buf : bytes; calls : nat; out : list Output }.

(** How the task ends. *)
Inductive Exit := ExitOk | ExitErr (e : DrvError) | ExitPanic.

Definition push_out (o : Output) (d : Driver) : Driver :=
  mkDriver (drv_conn d) (rx_buf d) (calls d) (out d ++ [o]).
Definition set_rx (b : bytes) (d : Driver) : Driver :=
  mkDriver (drv_conn d) b (calls d) (out d).
Definition advance (n : nat) (d : Driver) : Driver := set_rx (drop n (rx_buf d)) d.

(** driver.rs 152-160, asdu_passes_policy. *)
Definition asdu_passes_policy (asdu : bytes) (policy : AsduPolicy) : bool :=
  match asdu with
  | b0 :: _ :: b2 :: _ :: b4 :: b5 :: _ =>
      let type_id := b0 in
      let cause_raw := Z.land b2 0x3F in
      let ca := b4 + 256 * b5 in
      allows type_id cause_raw ca policy
  | _ => true
  end.

(** The range of the file-transfer types, [Some(120..=126)]. *)
Definition is_ft (asdu : bytes) : bool :=
  match asdu with b :: _ => (120 <=? b) && (b <=? 126) | [] => false end.

Section Driver.
Context `{BC : BytesCrate}.
Context (clock : nat -> Instant) (write_ok evt_open ft_open : nat -> bool).
Context (policy : AsduPolicy) (ft_tx : bool).

(** [evt_tx.send(e).await]: [false] when the receiver is gone. *)
Definition send_evt (e : DriverEvent) (d : Driver) : bool * Driver :=
  if evt_open (length (out d)) then (true, push_out (OutEvent e) d) else (false, d).

(** driver.rs 178-184, apply_actions (SendApdu). *)
Definition act_send_apdu (apdu : Apdu) (d : Driver) : option Exit * Driver :=
  match encode_apdu apdu [] with
  | (Ok _, buf) =>
      if write_ok (length (out d)) then (None, push_out (OutBytes buf) d) else (Some (ExitErr ErrIo), d)
  | (Err e, _) => (Some (ExitErr (ErrProtocol e)), d)
  | (Panic, _) => (Some ExitPanic, d)
  end.

(** driver.rs 185-211, apply_actions (DeliverAsdu). *)
Definition act_deliver (asdu : bytes) (d : Driver) : (Exit + bool) * Driver :=
  if is_restrictive policy && negb (asdu_passes_policy asdu policy) then (inr true, d)
  else if ft_tx && is_ft asdu then
    match run (Asdu_decode IEC104) asdu with
    | Ok parsed =>
        (inr true, if ft_open (length (out d)) then push_out (OutFt (asdu_ca parsed) parsed) d else d)
    | Err _ => (inr true, d)
    | Panic => (inl ExitPanic, d)
    end
  else let (sent, d) := send_evt (EvAsdu asdu) d in (inr sent, d).

(** driver.rs 163-226, apply_actions. The loop, with [keep_going] so far; an
    early return is the first component. *)
Fixpoint apply_actions (actions : list Action) (keep_going : bool) (d : Driver)
  : (Exit + bool) * Driver :=
  match actions with
  | [] => (inr keep_going, d)
  | action :: actions =>
      match action with
      | SendApdu apdu =>
          match act_send_apdu apdu d with
          | (None, d) => apply_actions actions keep_going d
          | (Some x, d) => (inl x, d)
          end
      | DeliverAsdu asdu =>
          match act_deliver asdu d with
          | (inr sent, d) => apply_actions actions (keep_going && sent) d
          | (inl x, d) => (inl x, d)
          end
      | StateChanged state =>
          let (sent, d) := send_evt (EvStateChanged state) d in
          apply_actions actions (keep_going && sent) d
      | Disconnect reason =>
          let (_, d) := send_evt (EvClosed (Some reason)) d in
          apply_actions actions false d
      end
  end.

(** driver.rs 96-102, run (one call of the state machine). The exit is [None]
    while the loop goes on. *)
Definition call (input : Input) (d : Driver) : option Exit * Driver :=
  let now := clock (calls d) in
  let (conn, actions) := handle input now (drv_conn d) in
  let d := mkDriver conn (rx_buf d) (S (calls d)) (out d) in
  match apply_actions actions true d with
  | (inl x, d) => (Some x, d)
  | (inr true, d) => (None, d)
  | (inr false, d) => (Some ExitOk, d)
  end.

(** driver.rs 111-119, run (decode loop). Each turn consumes a frame, so the
    length of the buffer bounds the turns; [None] would be a loop that has
    not ended. *)
Fixpoint drain (fuel : nat) (d : Driver) : option (option Exit * Driver) :=
  match fuel with
  | O => None
  | S fuel =>
      match decode_slice (rx_buf d) with
      | Ok None => Some (None, d)
      | Ok (Some (apdu, consumed)) =>
          match call (InApdu apdu) (advance consumed d) with
          | (None, d) => drain fuel d
          | (Some x, d) => Some (Some x, d)
          end
      | Err e => Some (Some (ExitErr (ErrProtocol e)), d)
      | Panic => Some (Some ExitPanic, d)
      end
  end.

(** What a turn of [select!] waits for. A read gives an error, or octets, none
    at the end of the stream; [None] for a command is the closed channel. *)
Inductive DrvInput :=
| RxCommand (c : option Command)
| RxTick
| RxRead (res : option bytes).

(** driver.rs 105-135, run (read arm). *)
Definition on_read (res : option bytes) (d : Driver) : option (option Exit * Driver) :=
  match res with
  | None => Some (Some (ExitErr ErrIo), d)
  | Some [] => let (_, d) := send_evt (EvClosed None) d in Some (Some ExitOk, d)
  | Some chunk =>
      let d := set_rx (rx_buf d ++ chunk) d in
      match drain (S (length (rx_buf d))) d with
      | Some (None, d) =>
          if (MAX_RX_BUFFERED <? length (rx_buf d))%nat then
            let (_, d) := send_evt (EvClosed None) d in Some (Some (ExitErr ErrIo), d)
          else Some (None, d)
      | r => r
      end
  end.

(** driver.rs 77-141, run (one turn of the loop). *)
Definition turn (i : DrvInput) (d : Driver) : option (option Exit * Driver) :=
  match i with
  | RxCommand None => Some (Some ExitOk, d)
  | RxCommand (Some (CmdSendAsdu asdu)) => Some (call (InSendAsdu asdu) d)
  | RxCommand (Some CmdStartDt) => Some (call InStartDt d)
  | RxCommand (Some CmdStopDt) => Some (call InStopDt d)
  | RxTick => Some (call InTick d)
  | RxRead res => on_read res d
  end.

(** driver.rs 54-143, run. *)
Fixpoint drv_run (inputs : list DrvInput) (d : Driver) : option (option Exit * Driver) :=
  match inputs with
  | [] => Some (None, d)
  | i :: inputs =>
      match turn i d with
      | Some (None, d) => drv_run inputs d
      | r => r
      end
  end.

Definition Driver_new (role : Role) (config : Config) : Driver :=
  mkDriver (Connection_new role config) [] 0 [].

(** ** What has been put out stays *)

Lemma push_grows o d : out d `prefix_of` out (push_out o d).
Proof. by apply prefix_app_r. Qed.

Lemma send_evt_grows e d : out d `prefix_of` out (send_evt e d).2.
Proof. unfold send_evt. destruct (evt_open _); [apply push_grows|done]. Qed.

Lemma act_deliver_grows a d : out d `prefix_of` out (act_deliver a d).2.
Proof.
  unfold act_deliver. destruct (is_restrictive policy && _); [done|]. destruct (ft_tx && _).
  - destruct (run _ a); [destruct (ft_open _); [apply push_grows|done]|done..].
  - pose proof (send_evt_grows (EvAsdu a) d) as H. by destruct (send_evt (EvAsdu a) d).
Qed.

Lemma actions_grow acts k d : out d `prefix_of` out (apply_actions acts k d).2.
Proof.
  revert k d. induction acts as [|a acts IH]; intros k d; [done|]. destruct a; cbn [apply_actions].
  - unfold act_send_apdu. destruct (encode_apdu a []) as [[] buf]; [destruct (write_ok _)|..]; cbn [snd]; try done.
    etrans; [apply push_grows|apply IH].
  - pose proof (act_deliver_grows asdu d) as H. destruct (act_deliver asdu d) as [[] d1]; [done|].
    etrans; [exact H|apply IH].
  - pose proof (send_evt_grows (EvStateChanged s) d) as H. destruct (send_evt (EvStateChanged s) d).
    etrans; [exact H|apply IH].
  - pose proof (send_evt_grows (EvClosed (Some r)) d) as H. destruct (send_evt (EvClosed (Some r)) d).
    etrans; [exact H|apply IH].
Qed.

Lemma call_grows i d : out d `prefix_of` out (call i d).2.
Proof.
  unfold call. destruct (handle i (clock (calls d)) (drv_conn d)) as [conn acts].
  pose proof (actions_grow acts true (mkDriver conn (rx_buf d) (S (calls d)) (out d))) as H.
  by destruct (apply_actions acts true _) as [[x|[]] d1].
Qed.

Lemma drain_grows fuel d x d' : drain fuel d = Some (x, d') -> out d `prefix_of` out d'.
Proof.
  revert d. induction fuel as [|fuel IH]; intros d; [done|]. cbn [drain].
  destruct (decode_slice (rx_buf d)) as [[[a k]|]|e|]; [|by intros [= _ <-]..].
  pose proof (call_grows (InApdu a) (advance k d)) as Hg.
  destruct (call (InApdu a) _) as [[y|] d1]; [by intros [= _ <-]|]. intros H. etrans; [exact Hg|by apply IH].
Qed.

Lemma turn_grows i d x d' : turn i d = Some (x, d') -> out d `prefix_of` out d'.
Proof.
  assert (∀ j, Some (call j d) = Some (x, d') -> out d `prefix_of` out d') as Hcall.
  { intros j. pose proof (call_grows j d) as H. destruct (call j d). by intros [= _ <-]. }
  destruct i as [[[asdu| |]|]| |[[|b c]|]]; cbn [turn]; try apply Hcall; try by intros [= _ <-].
  - unfold on_read. pose proof (send_evt_grows (EvClosed None) d) as H. destruct (send_evt _ d). by intros [= _ <-].
  - unfold on_read. destruct (drain _ _) as [[[y|] d1]|] eqn:E; [|destruct (_ <? _)%nat|done].
    1, 3: intros [= _ <-]; by apply drain_grows in E.
    pose proof (send_evt_grows (EvClosed None) d1) as H. destruct (send_evt _ d1). intros [= _ <-].
    etrans; [|exact H]. by apply drain_grows in E.
Qed.

(** ** The receive buffer *)

(** Nothing but the decode loop looks at the buffer. *)
Definition lift_rx (b : bytes) {X} (r : X * Driver) : X * Driver := (r.1, set_rx b r.2).

Lemma set_rx_set_rx a b d : set_rx a (set_rx b d) = set_rx a d.
Proof. done. Qed.
Lemma set_rx_id d : set_rx (rx_buf d) d = d.
Proof. by destruct d. Qed.

Lemma send_evt_rx e b d : send_evt e (set_rx b d) = lift_rx b (send_evt e d).
Proof. unfold send_evt. simpl. by case_match. Qed.

Lemma act_send_apdu_rx a b d : act_send_apdu a (set_rx b d) = lift_rx b (act_send_apdu a d).
Proof. unfold act_send_apdu. simpl. by repeat case_match. Qed.

Lemma act_deliver_rx a b d : act_deliver a (set_rx b d) = lift_rx b (act_deliver a d).
Proof.
  unfold act_deliver. rewrite send_evt_rx. destruct (send_evt (EvAsdu a) d).
  by repeat (case_match; simpl; try done).
Qed.

Lemma apply_actions_rx acts k b d : apply_actions acts k (set_rx b d) = lift_rx b (apply_actions acts k d).
Proof.
  revert k d. induction acts as [|a acts IH]; intros k d; [done|]. destruct a; simpl.
  - rewrite act_send_apdu_rx. destruct (act_send_apdu _ d) as [[x|] d']; simpl; [done|apply IH].
  - rewrite act_deliver_rx. destruct (act_deliver _ d) as [[x|ok] d']; simpl; [done|apply IH].
  - rewrite send_evt_rx. destruct (send_evt _ d) as [ok d']; simpl. apply IH.
  - rewrite send_evt_rx. destruct (send_evt _ d) as [ok d']; simpl. apply IH.
Qed.

Lemma call_rx i b d : call i (set_rx b d) = lift_rx b (call i d).
Proof.
  unfold call. cbn [drv_conn calls out rx_buf set_rx]. destruct (handle i (clock (calls d)) (drv_conn d)) as [conn acts].
  change (mkDriver conn b (S (calls d)) (out d))
    with (set_rx b (mkDriver conn (rx_buf d) (S (calls d)) (out d))).
  rewrite apply_actions_rx. by destruct (apply_actions acts true _) as [[x|[]] d'].
Qed.

Lemma call_keeps_rx i d : rx_buf (call i d).2 = rx_buf d.
Proof. rewrite <- (set_rx_id d) at 1. by rewrite call_rx. Qed.

(** A decoded frame is not empty. *)
Lemma decode_slice_pos b a n : decode_slice b = Ok (Some (a, n)) -> (0 < n <= length b)%nat.
Proof.
  destruct b as [|h0 [|h1 s]]; [done..|]. rewrite decode_slice_cons.
  destruct (negb (h0 =? START)); [done|]. cbv zeta. destruct (_ <? 4)%nat eqn:H4; [done|].
  destruct (Nat.ltb_spec (length s) (Z.to_nat h1)); [done|].
  destruct (run _ _); try done. cbn [mbind Result_bind]. intros [= _ <-]. simpl. lia.
Qed.

Lemma call_advance_shrinks a n d d' x :
  decode_slice (rx_buf d) = Ok (Some (a, n)) -> call (InApdu a) (advance n d) = (x, d') ->
  (length (rx_buf d') < length (rx_buf d))%nat /\ rx_buf d' = drop n (rx_buf d).
Proof.
  intros Hd Hc. apply decode_slice_pos in Hd.
  pose proof (call_keeps_rx (InApdu a) (advance n d)) as Hr. rewrite Hc in Hr. simpl in Hr.
  rewrite Hr, length_drop. split; [lia|done].
Qed.

(** The loop ends within its fuel, and more fuel changes nothing. *)
Lemma drain_fuel f f' d : (length (rx_buf d) < f)%nat -> (length (rx_buf d) < f')%nat -> drain f d = drain f' d.
Proof.
  revert f' d. induction f as [|f IH]; intros [|f'] d Hf Hf'; try lia. simpl.
  destruct (decode_slice (rx_buf d)) as [[[a n]|]| |] eqn:Hd; try done.
  destruct (call _ _) as [[x|] d'] eqn:Hc; [done|].
  destruct (call_advance_shrinks _ _ _ _ _ Hd Hc). apply IH; lia.
Qed.

Definition drain_all (d : Driver) : option (option Exit * Driver) := drain (S (length (rx_buf d))) d.

Lemma drain_all_eq d :
  drain_all d =
  match decode_slice (rx_buf d) with
  | Ok None => Some (None, d)
  | Ok (Some (apdu, consumed)) =>
      match call (InApdu apdu) (advance consumed d) with
      | (None, d) => drain_all d
      | (Some x, d) => Some (Some x, d)
      end
  | Err e => Some (Some (ExitErr (ErrProtocol e)), d)
  | Panic => Some (Some ExitPanic, d)
  end.
Proof.
  unfold drain_all at 1. cbn [drain]. destruct (decode_slice (rx_buf d)) as [[[a n]|]| |] eqn:Hd; try done.
  destruct (call _ _) as [[x|] d'] eqn:Hc; [done|].
  destruct (call_advance_shrinks _ _ _ _ _ Hd Hc). apply drain_fuel; lia.
Qed.

(** Induction over the turns of the loop. *)
Lemma drain_ind (P : Driver -> Prop) :
  (∀ d, (∀ d', (length (rx_buf d') < length (rx_buf d))%nat -> P d') -> P d) -> ∀ d, P d.
Proof.
  intros H d. remember (length (rx_buf d)) as n eqn:Hn. revert d Hn.
  induction n as [n IH] using lt_wf_ind. intros d ->. apply H. intros d' Hl. by apply (IH _ Hl).
Qed.

Lemma drain_all_total d : ∃ x d', drain_all d = Some (x, d') /\
  (x = None -> decode_slice (rx_buf d') = Ok None) /\ ∃ k, rx_buf d' = drop k (rx_buf d).
Proof.
  induction d as [d IH] using drain_ind. rewrite drain_all_eq.
  destruct (decode_slice (rx_buf d)) as [[[a n]|]|e|] eqn:Hd.
  - destruct (call _ _) as [x d'] eqn:Hc. destruct (call_advance_shrinks _ _ _ _ _ Hd Hc) as [Hl Hr].
    destruct x as [x|]; [exists (Some x), d'; split; [done|]; split; [done|]; by exists n|].
    destruct (IH d' Hl) as (x & d'' & H & Hx & k & Hk). exists x, d''. split; [done|]. split; [done|].
    exists (n + k)%nat. by rewrite Hk, Hr, drop_drop.
  - exists None, d. split; [done|]. split; [done|]. by exists 0%nat.
  - do 2 eexists. split; [done|]. split; [done|]. by exists 0%nat.
  - do 2 eexists. split; [done|]. split; [done|]. by exists 0%nat.
Qed.

(** Appending to the buffer: the loop goes on where it stopped. *)
Definition append (c : bytes) (d : Driver) : Driver := set_rx (rx_buf d ++ c) d.

Lemma append_nil d : append [] d = d.
Proof. unfold append. by rewrite app_nil_r, set_rx_id. Qed.

Lemma drain_all_append c d :
  drain_all (append c d) =
  match drain_all d with
  | Some (None, d') => drain_all (append c d')
  | Some (Some x, d') => Some (Some x, append c d')
  | None => None
  end.
Proof.
  induction d as [d IH] using drain_ind. rewrite (drain_all_eq d), (drain_all_eq (append c d)).
  change (rx_buf (append c d)) with (rx_buf d ++ c).
  destruct (decode_slice (rx_buf d)) as [[[a n]|]|e|] eqn:Hd.
  2: symmetry; apply (drain_all_eq (append c d)).
  all: rewrite (decode_slice_extend _ c _ Hd) by done; try done.
  pose proof (decode_slice_pos _ _ _ Hd) as Hp.
  replace (advance n (append c d)) with (set_rx (drop n (rx_buf d) ++ c) (advance n d))
    by (unfold advance, append; simpl; by rewrite drop_app_le by lia).
  rewrite call_rx. destruct (call (InApdu a) (advance n d)) as [x d'] eqn:Hc. unfold lift_rx. simpl.
  destruct (call_advance_shrinks _ _ _ _ _ Hd Hc) as [Hl Hr]. rewrite <- Hr.
  destruct x as [x|]; [done|]. by apply IH.
Qed.

(** ** Reading *)

(** Between two turns: the buffer holds the beginning of one frame at most. *)
Definition rx_ok (d : Driver) : Prop := octets (rx_buf d) /\ decode_slice (rx_buf d) = Ok None.

Lemma decode_none_short b : octets b -> decode_slice b = Ok None -> (length b <= 256)%nat.
Proof.
  intros Ho Hd. pose proof (decode_slice_total b Ho) as H. rewrite Hd in H.
  destruct H as [|H]; [lia|]. destruct b as [|h0 [|h1 s]]; simpl in *; try lia.
  rewrite !octets_cons in Ho. unfold is_u8 in Ho. lia.
Qed.

Lemma drain_all_ok d : octets (rx_buf d) -> ∃ x d', drain_all d = Some (x, d') /\
  octets (rx_buf d') /\ (x = None -> rx_ok d').
Proof.
  intros Ho. destruct (drain_all_total d) as (x & d' & Hd & Hx & k & Hk). exists x, d'. split; [done|].
  assert (octets (rx_buf d')) by (rewrite Hk; auto with iec). split; [done|]. intros ->. by split; auto.
Qed.

(** The cap on the buffer never comes into play. *)
Lemma on_read_drain chunk d : chunk ≠ [] -> octets (rx_buf d ++ chunk) ->
  on_read (Some chunk) d = drain_all (append chunk d).
Proof.
  intros Hne Ho. destruct chunk as [|b chunk]; [done|]. unfold on_read.
  change (drain (S _) _) with (drain_all (append (b :: chunk) d)).
  destruct (drain_all_ok (append (b :: chunk) d) Ho) as (x & d' & -> & Ho' & Hx).
  destruct x as [x|]; [done|]. destruct (Hx eq_refl) as [_ Hd].
  pose proof (decode_none_short _ Ho' Hd) as Hl.
  destruct (Nat.ltb_spec MAX_RX_BUFFERED (length (rx_buf d'))) as [Hgt|]; [|done].
  unfold MAX_RX_BUFFERED in Hgt. lia.
Qed.

Definition reads (chunks : list bytes) : list DrvInput := (λ c, RxRead (Some c)) <$> chunks.

#[local] Arguments append : simpl never.
#[local] Arguments set_rx : simpl never.

Lemma drv_run_reads chunks d :
  Forall (λ c, c ≠ [] /\ octets c) chunks -> rx_ok d ->
  ∃ x d1 d2, drv_run (reads chunks) d = Some (x, d1) /\
    drain_all (append (concat chunks) d) = Some (x, d2) /\ d2 = set_rx (rx_buf d2) d1 /\
    (x = None -> d1 = d2).
Proof.
  intros Hc. revert d. induction Hc as [|c chunks [Hne Ho] Hc IH]; intros d [Hr Hd].
  { exists None, d, d. rewrite append_nil, drain_all_eq, Hd, set_rx_id. done. }
  cbn [reads fmap list_fmap drv_run turn]. fold (reads chunks).
  assert (octets (rx_buf d ++ c)) as Hrc by (by apply octets_app).
  rewrite on_read_drain by done.
  assert (append (concat (c :: chunks)) d = append (concat chunks) (append c d)) as ->
    by (unfold append; simpl; by rewrite app_assoc).
  rewrite (drain_all_append (concat chunks) (append c d)).
  destruct (drain_all_ok (append c d) Hrc) as (x & d' & -> & Ho' & Hx).
  destruct x as [x|]; [|by apply IH, Hx].
  exists (Some x), d', (append (concat chunks) d'). split; [done|]. split; [done|]. done.
Qed.

(** C34. How the transport cuts the stream does not matter: two ways of reading
    the same octets in non-empty pieces end alike, with the same connection,
    the same outputs in the same order and the same number of calls of the
    state machine, and, if the task goes on, the same octets still buffered. *)
Theorem driver_chunking chunks chunks' d :
  Forall (λ c, c ≠ [] /\ octets c) chunks -> Forall (λ c, c ≠ [] /\ octets c) chunks' ->
  concat chunks = concat chunks' -> rx_ok d ->
  ∃ x d1 d2, drv_run (reads chunks) d = Some (x, d1) /\ drv_run (reads chunks') d = Some (x, d2) /\
    drv_conn d1 = drv_conn d2 /\ out d1 = out d2 /\ calls d1 = calls d2 /\
    (x = None -> rx_buf d1 = rx_buf d2).
Proof.
  intros Hc Hc' Heq Hr. destruct (drv_run_reads chunks d Hc Hr) as (x & d1 & d2 & -> & Hd & H & Hx).
  destruct (drv_run_reads chunks' d Hc' Hr) as (x' & d1' & d2' & -> & Hd' & H' & Hx').
  rewrite <- Heq, Hd in Hd'. injection Hd' as <- <-. exists x, d1, d1'. split; [done|]. split; [done|].
  assert (drv_conn d1 = drv_conn d1' /\ out d1 = out d1' /\ calls d1 = calls d1') as (? & ? & ?).
  { destruct d1, d1', d2. simpl in *. unfold set_rx in *. simpl in *. by simplify_eq. }
  split_and!; try done. intros ->. by rewrite Hx, Hx'.
Qed.

(** The state machine fed with frames directly. *)
Fixpoint feed_frames (frames : list Apdu) (d : Driver) : option Exit * Driver :=
  match frames with
  | [] => (None, d)
  | a :: frames => match call (InApdu a) d with (None, d) => feed_frames frames d | r => r end
  end.

Definition wire (frames : list Apdu) : bytes := concat (apdu_octets <$> frames).

Lemma drain_all_frames frames tail d :
  Forall (λ a, apdu_ok a /\ apdu_fits a) frames -> decode_slice tail = Ok None ->
  ∃ b, drain_all (set_rx (wire frames ++ tail) d) =
    Some ((feed_frames frames d).1, set_rx b (feed_frames frames d).2) /\
    ((feed_frames frames d).1 = None -> b = tail).
Proof.
  intros Hf Ht. revert d. induction Hf as [|a frames [Hok Hfit] Hf IH]; intros d.
  { exists tail. by rewrite drain_all_eq; simpl; rewrite Ht. }
  change (wire (a :: frames)) with (apdu_octets a ++ wire frames). rewrite <- app_assoc, drain_all_eq.
  set (b := apdu_octets a ++ wire frames ++ tail). change (rx_buf (set_rx b d)) with b.
  unfold b at 1. rewrite decode_slice_encode by done.
  change (advance ?n (set_rx b d)) with (set_rx (drop n b) d).
  unfold b. rewrite drop_app_length, call_rx. unfold lift_rx. cbn [feed_frames].
  destruct (call (InApdu a) d) as [[x|] d']; simpl; [by exists (wire frames ++ tail)|]. apply IH.
Qed.

(** C11. The octets of a sequence of frames, cut in any way and followed by at
    most the beginning of another, make the driver call the state machine on
    exactly these frames, in order, until one of them ends the task. *)
Theorem driver_frames_arrive frames tail chunks d :
  Forall (λ a, apdu_ok a /\ apdu_fits a) frames ->
  octets tail -> decode_slice tail = Ok None ->
  Forall (λ c, c ≠ [] /\ octets c) chunks -> concat chunks = wire frames ++ tail -> rx_buf d = [] ->
  ∃ b, drv_run (reads chunks) d =
    Some ((feed_frames frames d).1, set_rx b (feed_frames frames d).2) /\
    ((feed_frames frames d).1 = None -> b = tail).
Proof.
  intros Hf Ho Ht Hc Heq Hr.
  assert (rx_ok d) as Hrx by (split; rewrite Hr; [apply octets_nil|done]).
  destruct (drv_run_reads chunks d Hc Hrx) as (x & d1 & d2 & -> & Hd & H & Hx).
  unfold append in Hd. rewrite Hr, Heq in Hd. simpl in Hd.
  destruct (drain_all_frames frames tail d Hf Ht) as (b & Hb & Hbt). rewrite Hb in Hd. injection Hd as <- <-.
  destruct ((feed_frames frames d).1) as [x|] eqn:Hx'.
  - exists (rx_buf d1). split; [|done]. apply (f_equal (set_rx (rx_buf d1))) in H.
    rewrite !set_rx_set_rx, set_rx_id in H. by rewrite H.
  - exists b. rewrite Hx by done. split; [done|auto].
Qed.

(** ** The task as a whole *)

Definition input_octets (i : DrvInput) : Prop :=
  match i with RxRead (Some c) => octets c | _ => True end.

Lemma call_rx_ok i d x d' : rx_ok d -> call i d = (x, d') -> rx_ok d'.
Proof. intros H Hc. pose proof (call_keeps_rx i d) as Hr. rewrite Hc in Hr. simpl in Hr. unfold rx_ok. by rewrite Hr. Qed.

Lemma turn_ok i d : input_octets i -> rx_ok d -> ∃ x d', turn i d = Some (x, d') /\ (x = None -> rx_ok d').
Proof.
  intros Hi Hr.
  assert (∀ j, ∃ x d', Some (call j d) = Some (x, d') /\ (x = None -> rx_ok d')) as Hcall.
  { intros j. destruct (call j d) as [x d'] eqn:Hc. exists x, d'. split; [done|]. intros _.
    by eapply call_rx_ok. }
  destruct i as [[[asdu| |]|]| |[[|b c]|]]; cbn [turn]; try apply Hcall.
  - by do 2 eexists.
  - unfold on_read. destruct (send_evt _ d). by do 2 eexists.
  - destruct Hr as [Ho Hd]. rewrite on_read_drain by (try done; by apply octets_app).
    destruct (drain_all_ok (append (b :: c) d)) as (x & d' & H & _ & Hx); [by apply octets_app|].
    by exists x, d'.
  - by do 2 eexists.
Qed.

(** Only a transport that fails makes the task end with an I/O error. *)
Definition io_fails (r : option (option Exit * Driver)) : Prop :=
  match r with Some (Some (ExitErr ErrIo), _) => True | _ => False end.

Lemma act_deliver_io asdu d : (act_deliver asdu d).1 ≠ inl (ExitErr ErrIo).
Proof.
  unfold act_deliver. destruct (is_restrictive policy && _); [done|]. destruct (ft_tx && _).
  - by destruct (run _ asdu).
  - by destruct (send_evt _ d).
Qed.

Lemma apply_actions_io acts k d : (∀ n, write_ok n = true) -> (apply_actions acts k d).1 ≠ inl (ExitErr ErrIo).
Proof.
  intros Hw. revert k d. induction acts as [|a acts IH]; intros k d; [done|]. destruct a; simpl.
  - unfold act_send_apdu. destruct (encode_apdu a []) as [[]]; rewrite ?Hw; simpl; congruence || apply IH.
  - pose proof (act_deliver_io asdu d) as H. destruct (act_deliver asdu d) as [[x|ok] d']; [|apply IH].
    intros [= ->]. done.
  - destruct (send_evt _ d). apply IH.
  - destruct (send_evt _ d). apply IH.
Qed.

Lemma call_io i d : (∀ n, write_ok n = true) -> ~ io_fails (Some (call i d)).
Proof.
  intros Hw. unfold call. destruct (handle i (clock (calls d)) (drv_conn d)) as [conn acts].
  pose proof (apply_actions_io acts true (mkDriver conn (rx_buf d) (S (calls d)) (out d)) Hw) as H.
  destruct (apply_actions _ _ _) as [[x|[]] d']; simpl in *; repeat case_match; congruence || tauto.
Qed.

Lemma drain_io d : (∀ n, write_ok n = true) -> ~ io_fails (drain_all d).
Proof.
  intros Hw. induction d as [d IH] using drain_ind. rewrite drain_all_eq.
  destruct (decode_slice (rx_buf d)) as [[[a n]|]| |] eqn:Hd; try tauto.
  pose proof (call_io (InApdu a) (advance n d) Hw) as Hc.
  destruct (call _ _) as [[x|] d'] eqn:Hcall; [done|].
  apply IH, (call_advance_shrinks _ _ _ _ _ Hd Hcall).
Qed.

(** Whatever the peer sends, every read of the task ends, and between two
    turns at most 256 octets are buffered, the beginning of one frame. So the
    cap of 4096 octets is never reached: while the transport works, the task
    does not end with an I/O error of its own making. *)
Theorem driver_rx_bounded inputs d :
  Forall input_octets inputs -> rx_ok d ->
  ∃ x d', drv_run inputs d = Some (x, d') /\
    (x = None -> (length (rx_buf d') <= 256)%nat /\ decode_slice (rx_buf d') = Ok None) /\
    ((∀ n, write_ok n = true) -> RxRead None ∉ inputs -> x ≠ Some (ExitErr ErrIo)).
Proof.
  intros Hi. revert d. induction Hi as [|i inputs Hi Hall IH]; intros d Hr.
  { exists None, d. split; [done|]. split; [|done]. intros _. destruct Hr as [Ho Hd].
    split; [by apply decode_none_short|done]. }
  cbn [drv_run]. destruct (turn_ok i d Hi Hr) as (x & d' & Ht & Hx).
  assert ((∀ n, write_ok n = true) -> i ≠ RxRead None -> x ≠ Some (ExitErr ErrIo)) as Hio.
  { intros Hw Hne. enough (~ io_fails (turn i d)) as H by (rewrite Ht in H; by intros ->).
    destruct i as [[[asdu| |]|]| |[[|b c]|]]; cbn [turn]; try (by apply call_io); try tauto; try done.
    - unfold on_read. destruct (send_evt _ d). simpl. tauto.
    - destruct Hr as [Ho Hd]. rewrite on_read_drain by (try done; by apply octets_app). by apply drain_io. }
  rewrite Ht. destruct x as [x|].
  - exists (Some x), d'. split; [done|]. split; [done|]. intros Hw Hn. apply Hio; [done|set_solver].
  - destruct (IH d' (Hx eq_refl)) as (x & d'' & -> & H1 & H2). exists x, d''. split; [done|].
    split; [done|]. intros Hw Hn. apply H2; [done|set_solver].
Qed.

End Driver.

(** ** The header peek *)

Section Peek.
Context `{BC : BytesCrate}.

(** The three fields the policy looks at are those the decoder returns. *)
Lemma peek_agrees asdu a p :
  run (Asdu_decode IEC104) asdu = Ok a ->
  asdu_passes_policy asdu p = allows (type_id a) (cot_cause (asdu_cot a)) (asdu_ca a) p.
Proof.
  assert (∀ b, (length b < 6)%nat -> run (Asdu_decode IEC104) b ≠ Ok a) as Hs.
  { intros b Hb. unfold run, Asdu_decode. by erewrite dec_bind_err by (apply ensure_short; exact Hb). }
  intros H. destruct asdu as [|b0 [|b1 [|b2 [|b3 [|b4 [|b5 rest]]]]]].
  1-6: exfalso; revert H; apply Hs; simpl; lia.
  assert (∀ (n : nat) b, (n <= length b)%nat -> ensure n b = (Ok tt, b)) as He.
  { intros n b Hn. unfold ensure. rewrite remaining_spec. by rewrite decide_False by lia. }
  unfold run in H. erewrite Asdu_decode_run in H.
  3: { unfold Vsq_decode. erewrite dec_bind_ok by (apply He; simpl; unfold Vsq_LEN; lia).
       by erewrite dec_bind_ok by apply get_u8_spec. }
  3: { simpl. unfold Cot_decode_2. erewrite dec_bind_ok by (apply He; simpl; unfold Cot_LEN_2; lia).
       erewrite dec_bind_ok by apply get_u8_spec. by erewrite dec_bind_ok by apply get_u8_spec. }
  3: { simpl. unfold decode_ca. erewrite dec_bind_ok by (apply He; simpl; lia). apply get_u16_le_spec. }
  2: { change (header_len IEC104) with 6%nat. simpl. lia. }
  simpl in H. injection H as <-. simpl. f_equal. lia.
Qed.

End Peek.

(** ** The driver runs the state machine *)

(** Successive frames at the front of a buffer, and what is left. *)
Inductive parses `{BC : BytesCrate} : bytes -> list Apdu -> bytes -> Prop :=
| parses_nil b : parses b [] b
| parses_cons b a n fs rest : decode_slice b = Ok (Some (a, n)) ->
    parses (drop n b) fs rest -> parses b (a :: fs) rest.

Lemma parses_snoc `{BC : BytesCrate} b fs r a n :
  parses b fs r -> decode_slice r = Ok (Some (a, n)) -> parses b (fs ++ [a]) (drop n r).
Proof. induction 1; intros Hd; simpl; econstructor; eauto. constructor. Qed.

Lemma parses_app `{BC : BytesCrate} b fs r c : parses b fs r -> parses (b ++ c) fs (r ++ c).
Proof.
  induction 1 as [b|b a n fs r Hd Hp IH]; econstructor.
  - by rewrite (decode_slice_extend _ c _ Hd).
  - apply decode_slice_pos in Hd. by rewrite drop_app_le by lia.
Qed.

Definition frame_input (i : Input * Instant) : option Apdu :=
  match i.1 with InApdu a => Some a | _ => None end.
Definition command_asdu (i : DrvInput) : option bytes :=
  match i with RxCommand (Some (CmdSendAsdu asdu)) => Some asdu | _ => None end.
Definition read_octets (i : DrvInput) : bytes :=
  match i with RxRead (Some c) => c | _ => [] end.

Lemma session_snoc ins i t c :
  session (ins ++ [(i, t)]) c =
  ((handle i t (session ins c).1).1, (session ins c).2 ++ (handle i t (session ins c).1).2).
Proof.
  revert c. induction ins as [|[j u] ins IH]; intros c.
  - cbn [session app fst snd]. destruct (handle i t c) as [c1 a1]. by rewrite app_nil_r.
  - cbn [session app]. destruct (handle j u c) as [c1 a1]. rewrite IH.
    destruct (session ins c1) as [c2 a2]. simpl. by rewrite app_assoc.
Qed.

Section Open.
Context `{BC : BytesCrate}.
Context (clock : nat -> Instant) (write_ok evt_open ft_open : nat -> bool).
Context (policy : AsduPolicy) (ft_tx : bool).
Hypothesis writes : ∀ n, write_ok n = true.
Hypothesis events : ∀ n, evt_open n = true.
Hypothesis service : ∀ n, ft_open n = true.

#[local] Abbreviation call := (call clock write_ok evt_open ft_open policy ft_tx).
#[local] Abbreviation drv_run := (drv_run clock write_ok evt_open ft_open policy ft_tx).
#[local] Abbreviation drain_all := (drain_all clock write_ok evt_open ft_open policy ft_tx).

(** What an action comes to when everyone listens. *)
Definition performed (a : Action) : list Output :=
  match a with
  | SendApdu apdu => [OutBytes (encode_apdu apdu []).2]
  | DeliverAsdu asdu =>
      if is_restrictive policy && negb (asdu_passes_policy asdu policy) then []
      else if ft_tx && is_ft asdu then
        match run (Asdu_decode IEC104) asdu with Ok p => [OutFt (asdu_ca p) p] | _ => [] end
      else [OutEvent (EvAsdu asdu)]
  | StateChanged s => [OutEvent (EvStateChanged s)]
  | Disconnect r => [OutEvent (EvClosed (Some r))]
  end.

Definition add_outs (os : list Output) (d : Driver) : Driver :=
  mkDriver (drv_conn d) (rx_buf d) (calls d) (out d ++ os).

Lemma add_outs_add a b d : add_outs b (add_outs a d) = add_outs (a ++ b) d.
Proof. unfold add_outs. simpl. by rewrite app_assoc. Qed.

Lemma send_evt_open e d : send_evt evt_open e d = (true, add_outs [OutEvent e] d).
Proof. unfold send_evt. by rewrite events. Qed.

Lemma act_deliver_open asdu d :
  act_deliver evt_open ft_open policy ft_tx asdu d = (inl ExitPanic, d) \/
  act_deliver evt_open ft_open policy ft_tx asdu d = (inr true, add_outs (performed (DeliverAsdu asdu)) d).
Proof.
  assert (add_outs [] d = d) as Hd by (unfold add_outs; rewrite app_nil_r; by destruct d).
  unfold act_deliver, performed. rewrite send_evt_open, service.
  destruct (is_restrictive policy && _); [right; by rewrite Hd|].
  destruct (ft_tx && _); [|by right]. destruct (run _ asdu); [by right|right; by rewrite Hd|by left].
Qed.

Lemma apply_actions_open acts k k' d d' :
  apply_actions write_ok evt_open ft_open policy ft_tx acts k d = (inr k', d') ->
  d' = add_outs (flat_map performed acts) d.
Proof.
  revert k d. induction acts as [|a acts IH]; intros k d.
  { intros [= _ <-]. unfold add_outs. rewrite app_nil_r. by destruct d. }
  cbn [flat_map]. rewrite <- add_outs_add. destruct a; cbn [apply_actions].
  - unfold act_send_apdu. rewrite writes.
    destruct (encode_apdu a []) as [[n|e|] buf] eqn:He; try done. intros H. apply IH in H as ->.
    unfold performed at 3. by rewrite He.
  - destruct (act_deliver_open asdu d) as [-> | ->]; [done|]. apply IH.
  - rewrite send_evt_open. apply IH.
  - rewrite send_evt_open. apply IH.
Qed.

Lemma call_open i d d' : call i d = (None, d') ->
  let h := handle i (clock (calls d)) (drv_conn d) in
  d' = mkDriver h.1 (rx_buf d) (S (calls d)) (out d ++ flat_map performed h.2).
Proof.
  unfold Driver104.call. destruct (handle i (clock (calls d)) (drv_conn d)) as [conn acts].
  destruct (apply_actions _ _ _ _ _ _ _ _) as [[x|[]] d1] eqn:Ha; try done.
  intros [= <-]. by apply apply_actions_open in Ha as ->.
Qed.

Context (role : Role) (cfg : Config).

(** The driver after the inputs [ins] of the machine, commands [sent] and
    octets [rd]. *)
Record follows (ins : list (Input * Instant)) (sent : list bytes) (rd : bytes) (d : Driver) : Prop := {
  fo_conn : drv_conn d = (session ins (Connection_new role cfg)).1;
  fo_out : out d = flat_map performed (session ins (Connection_new role cfg)).2;
  fo_clock : ins.*2 = clock <$> seq 0 (calls d);
  fo_sent : submitted ins = sent;
  fo_read : parses rd (omap frame_input ins) (rx_buf d) }.

Lemma call_follows i d d' ins sent rd :
  follows ins sent rd d -> call i d = (None, d') ->
  drv_conn d' = (session (ins ++ [(i, clock (calls d))]) (Connection_new role cfg)).1 /\
  out d' = flat_map performed (session (ins ++ [(i, clock (calls d))]) (Connection_new role cfg)).2 /\
  (ins ++ [(i, clock (calls d))]).*2 = clock <$> seq 0 (calls d') /\
  submitted (ins ++ [(i, clock (calls d))]) = sent ++ option_list (submitted_of i) /\
  rx_buf d' = rx_buf d.
Proof.
  intros [Hc Ho Ht Hs _] Hcall. apply call_open in Hcall as ->. cbn [drv_conn out calls rx_buf].
  rewrite session_snoc. cbn [fst snd]. rewrite flat_map_app, <- Ho, <- Hc. split_and!; try done.
  - rewrite fmap_app, Ht, seq_S, fmap_app. done.
  - unfold submitted in *. rewrite omap_app, Hs. simpl. by destruct (submitted_of i).
Qed.

Lemma call_keeps_reads i d d' ins sent rd : frame_input (i, 0) = None ->
  follows ins sent rd d -> call i d = (None, d') ->
  ∃ ins', follows ins' (sent ++ option_list (submitted_of i)) rd d'.
Proof.
  intros Hi Hf Hc. destruct (call_follows _ _ _ _ _ _ Hf Hc) as (H1 & H2 & H3 & H4 & H5).
  eexists. constructor; [done..|]. rewrite H5, omap_app. simpl.
  assert (frame_input (i, clock (calls d)) = None) as -> by (by destruct i).
  rewrite app_nil_r. apply Hf.
Qed.

Lemma drain_follows d d' ins sent rd :
  follows ins sent rd d -> drain_all d = Some (None, d') -> ∃ ins', follows ins' sent rd d'.
Proof.
  revert ins. induction d as [d IH] using drain_ind. intros ins Hf. rewrite drain_all_eq.
  destruct (decode_slice (rx_buf d)) as [[[a n]|]| |] eqn:Hd; [|intros [= <-]; eauto|done..].
  destruct (call (InApdu a) (advance n d)) as [[x|] d1] eqn:Hc; [done|]. intros Hdr.
  destruct (call_advance_shrinks _ _ _ _ _ _ _ _ _ _ _ Hd Hc) as [Hl Hr].
  assert (Hf' : call (InApdu a) d = (None, set_rx (rx_buf d) d1)).
  { rewrite <- (set_rx_id d), <- (set_rx_set_rx _ (drop n (rx_buf d))), call_rx.
    change (set_rx (drop n (rx_buf d)) d) with (advance n d). by rewrite Hc. }
  destruct (call_follows _ _ _ _ _ _ Hf Hf') as (H1 & H2 & H3 & H4 & _). simpl in H4. rewrite app_nil_r in H4.
  eapply IH; [done| |done]. constructor; [exact H1|exact H2|exact H3|exact H4|].
  rewrite omap_app, Hr. simpl. eapply parses_snoc; [apply Hf|done].
Qed.

Lemma turn_follows i d d' ins sent rd :
  input_octets i -> rx_ok d -> follows ins sent rd d ->
  turn clock write_ok evt_open ft_open policy ft_tx i d = Some (None, d') ->
  ∃ ins', follows ins' (sent ++ option_list (command_asdu i)) (rd ++ read_octets i) d'.
Proof.
  intros Ho [Hr Hd] Hf. destruct i as [[[asdu| |]|]| |[[|b c]|]]; cbn [turn]; try done.
  1-4: intros [= Hc]; cbn [read_octets]; rewrite (app_nil_r rd);
    by refine (call_keeps_reads _ _ _ _ _ _ _ Hf Hc).
  - unfold on_read. by destruct (send_evt _ _ d).
  - rewrite on_read_drain by (try done; by apply octets_app). simpl. rewrite app_nil_r.
    apply drain_follows with ins. destruct Hf as [H1 H2 H3 H4 H5]. constructor; try done.
    by apply parses_app.
Qed.

(** C33. The task is a run of the verified state machine: while it has not
    ended, the connection is the one reached by a session of [Conn104] whose
    inputs are the commands in their order and the frames decoded from the
    octets read, at the instants the clock gave; what is left in the buffer is
    the beginning of one frame; and the outputs are what the actions of that
    session come to, in order. *)
Theorem driver_refines_session inputs d :
  Forall input_octets inputs -> drv_run inputs (Driver_new role cfg) = Some (None, d) ->
  ∃ ins, let s := session ins (Connection_new role cfg) in
    drv_conn d = s.1 /\ out d = flat_map performed s.2 /\
    ins.*2 = clock <$> seq 0 (calls d) /\
    submitted ins = omap command_asdu inputs /\
    parses (flat_map read_octets inputs) (omap frame_input ins) (rx_buf d) /\
    decode_slice (rx_buf d) = Ok None.
Proof.
  intros Ho Hrun.
  assert (∀ ins sent rd d0, rx_ok d0 -> follows ins sent rd d0 -> drv_run inputs d0 = Some (None, d) ->
    ∃ ins', follows ins' (sent ++ omap command_asdu inputs) (rd ++ flat_map read_octets inputs) d /\ rx_ok d)
    as H.
  { clear Hrun. induction Ho as [|i inputs Hi Ho IH]; intros ins sent rd d0 Hr Hf.
    - intros [= <-]. exists ins. simpl. by rewrite !app_nil_r.
    - cbn [Driver104.drv_run]. destruct (turn_ok clock write_ok evt_open ft_open policy ft_tx i d0 Hi Hr)
        as (x & d1 & Ht & Hx).
      rewrite Ht. destruct x as [x|]; [done|]. intros Hrun.
      destruct (turn_follows _ _ _ _ _ _ Hi Hr Hf Ht) as [ins1 Hf1].
      destruct (IH _ _ _ _ (Hx eq_refl) Hf1 Hrun) as [ins2 H2]. exists ins2. revert H2.
      rewrite <- !app_assoc. simpl. by destruct (command_asdu i). }
  destruct (H [] [] [] (Driver_new role cfg)) as (ins & [H1 H2 H3 H4 H5] & Hr).
  - split; [apply octets_nil|done].
  - constructor; try done. constructor.
  - done.
  - exists ins. simpl in *. split_and!; try done. apply Hr.
Qed.

End Open.

(** ** The policy filters what the user sees, and nothing else *)

Section Transparent.
Context `{BC : BytesCrate}.
Context (clock : nat -> Instant) (write_ok evt_open ft_open : nat -> bool).
Context (policy : AsduPolicy) (ft_tx : bool).
Hypothesis writes : ∀ n, write_ok n = true.
Hypothesis events : ∀ n, evt_open n = true.
Hypothesis service : ∀ n, ft_open n = true.

#[local] Abbreviation P f := (f clock write_ok evt_open ft_open policy ft_tx) (only parsing).
#[local] Abbreviation N f := (f clock write_ok evt_open ft_open AsduPolicy_new ft_tx) (only parsing).

(** The output carries no ASDU, or one that the policy lists. *)
Definition passes (o : Output) : bool :=
  match o with
  | OutEvent (EvAsdu asdu) => asdu_passes_policy asdu policy
  | OutFt ca a => allows (type_id a) (cot_cause (asdu_cot a)) ca policy
  | _ => true
  end.

Definition censor (d : Driver) : Driver :=
  mkDriver (drv_conn d) (rx_buf d) (calls d) (filter passes (out d)).

Lemma censor_push o d : passes o = true -> censor (push_out o d) = push_out o (censor d).
Proof.
  intros Ho. unfold censor, push_out. cbn [drv_conn rx_buf calls out].
  by rewrite filter_app, filter_cons_True, filter_nil by (by rewrite Ho).
Qed.
Lemma censor_drop o d : passes o = false -> censor (push_out o d) = censor d.
Proof.
  intros Ho. unfold censor, push_out. cbn [drv_conn rx_buf calls out].
  by rewrite filter_app, filter_cons_False, filter_nil, app_nil_r by (rewrite Ho; intros []).
Qed.

Lemma censor_evt e d : passes (OutEvent e) = true ->
  send_evt evt_open e (censor d) = (true, censor (send_evt evt_open e d).2).
Proof. intros He. unfold send_evt. rewrite !events. simpl. by rewrite censor_push. Qed.

Lemma rejects_spec asdu : is_restrictive policy && negb (asdu_passes_policy asdu policy) =
  negb (asdu_passes_policy asdu policy).
Proof.
  destruct (is_restrictive policy) eqn:Hr; [done|]. unfold asdu_passes_policy.
  repeat case_match; rewrite ?unrestricted_allows by done; done.
Qed.

Lemma censor_deliver asdu d :
  let r := act_deliver evt_open ft_open AsduPolicy_new ft_tx asdu d in
  r.1 ≠ inl ExitPanic ->
  act_deliver evt_open ft_open policy ft_tx asdu (censor d) = (inr true, censor r.2).
Proof.
  unfold act_deliver. rewrite rejects_spec, service. simpl. unfold send_evt. rewrite !events, service.
  destruct (ft_tx && is_ft asdu).
  - destruct (run (Asdu_decode IEC104) asdu) as [a|e|] eqn:Ha; simpl; intros Hp; [|by destruct (negb _)|done].
    rewrite (peek_agrees _ _ policy Ha). set (o := OutFt (asdu_ca a) a).
    destruct (allows _ _ _ policy) eqn:Hal; simpl; [by rewrite censor_push|by rewrite censor_drop].
  - intros _. simpl. destruct (asdu_passes_policy asdu policy) eqn:Hal; simpl;
      [by rewrite censor_push|by rewrite censor_drop].
Qed.

Lemma censor_actions acts k d :
  let r := apply_actions write_ok evt_open ft_open AsduPolicy_new ft_tx acts k d in
  r.1 ≠ inl ExitPanic ->
  apply_actions write_ok evt_open ft_open policy ft_tx acts k (censor d) = (r.1, censor r.2).
Proof.
  revert k d. induction acts as [|a acts IH]; intros k d; [done|]. destruct a; cbn [apply_actions].
  - unfold act_send_apdu. rewrite !writes. destruct (encode_apdu a []) as [[n|e|] buf]; try done.
    rewrite <- censor_push by done. apply IH.
  - pose proof (censor_deliver asdu d) as H.
    destruct (act_deliver_open evt_open ft_open AsduPolicy_new ft_tx events service asdu d) as [Hd|Hd];
      rewrite Hd in *; [done|]. intros Hr. rewrite H by done. by apply IH.
  - rewrite censor_evt by done. unfold send_evt. rewrite events. apply IH.
  - rewrite censor_evt by done. unfold send_evt. rewrite events. apply IH.
Qed.

Lemma censor_call i d : (N call i d).1 ≠ Some ExitPanic ->
  P call i (censor d) = ((N call i d).1, censor (N call i d).2).
Proof.
  unfold call. change (drv_conn (censor d)) with (drv_conn d). change (calls (censor d)) with (calls d).
  destruct (handle i (clock (calls d)) (drv_conn d)) as [conn acts].
  change (mkDriver conn (rx_buf (censor d)) (S (calls d)) (out (censor d)))
    with (censor (mkDriver conn (rx_buf d) (S (calls d)) (out d))).
  set (d0 := mkDriver conn (rx_buf d) (S (calls d)) (out d)).
  pose proof (censor_actions acts true d0) as H. cbv zeta in H.
  destruct (apply_actions _ _ _ AsduPolicy_new _ _ _ d0) as [[x|[]] d1]; simpl in *; intros Hx;
    rewrite H by congruence; done.
Qed.

(** The outcome of a turn, censored. *)
Definition censored (r : option (option Exit * Driver)) : option (option Exit * Driver) :=
  match r with Some (x, d) => Some (x, censor d) | None => None end.
Definition no_panic (r : option (option Exit * Driver)) : Prop :=
  match r with Some (Some ExitPanic, _) => False | _ => True end.

Lemma censor_some_call i d : no_panic (Some (N call i d)) -> Some (P call i (censor d)) = censored (Some (N call i d)).
Proof.
  intros Hn. rewrite censor_call; [by destruct (N call i d)|].
  destruct (N call i d) as [x d1]. simpl in *. by intros ->.
Qed.

Lemma censor_drain d : no_panic (N drain_all d) -> P drain_all (censor d) = censored (N drain_all d).
Proof.
  induction d as [d IH] using drain_ind. rewrite (drain_all_eq _ _ _ _ policy), (drain_all_eq _ _ _ _ AsduPolicy_new).
  change (rx_buf (censor d)) with (rx_buf d).
  destruct (decode_slice (rx_buf d)) as [[[a n]|]| |] eqn:Hd; try done.
  change (advance n (censor d)) with (censor (advance n d)).
  destruct (N call (InApdu a) (advance n d)) as [x d1] eqn:Hc.
  destruct (call_advance_shrinks _ _ _ _ _ _ _ _ _ _ _ Hd Hc) as [Hl _].
  intros Hn. rewrite censor_call, Hc by (rewrite Hc; destruct x as [[]|]; done). simpl.
  destruct x; [done|]. by apply IH.
Qed.

Lemma censor_turn i d : input_octets i -> rx_ok d -> no_panic (N turn i d) ->
  P turn i (censor d) = censored (N turn i d).
Proof.
  intros Ho [Hr Hd]. destruct i as [[[asdu| |]|]| |[[|b c]|]]; cbn [turn]; try done;
    try apply censor_some_call.
  - intros _. unfold on_read. rewrite censor_evt by done. by destruct (send_evt _ _ d).
  - rewrite !on_read_drain by (try done; by apply octets_app). intros Hn. rewrite <- censor_drain by done. done.
Qed.

(** A policy is invisible to the peer: the run with it and the run without
    it call the state machine alike, write the same octets, change state and
    end alike; the outputs differ by exactly the ASDUs, delivered to the user
    or to the file-transfer service, whose header the policy does not list. *)
Theorem policy_transparent inputs d x d' :
  Forall input_octets inputs -> rx_ok d ->
  N drv_run inputs d = Some (x, d') -> x ≠ Some ExitPanic ->
  P drv_run inputs (censor d) = Some (x, censor d').
Proof.
  intros Ho. revert d. induction Ho as [|i inputs Hi Ho IH]; intros d Hr; [by intros [= <- <-]|].
  cbn [drv_run]. destruct (turn_ok clock write_ok evt_open ft_open AsduPolicy_new ft_tx i d Hi Hr) as (y & d1 & Ht & Hy).
  rewrite Ht. intros Hrun Hx.
  assert (no_panic (N turn i d)) as Hn.
  { rewrite Ht. destruct y as [[]|]; simpl; try done. by injection Hrun as <- <-. }
  rewrite censor_turn, Ht by done. simpl. destruct y as [y|]; [by injection Hrun as <- <-|].
  by apply IH; auto.
Qed.

End Transparent.

(** ** Examples *)

Definition yes (n : nat) : bool := true.
Definition frozen (n : nat) : Instant := 0.

Lemma driver_chunking_witness :
  let d := Driver_new Server Config_default in
  ∃ x d1 d2, drv_run frozen yes yes yes AsduPolicy_new false (reads [[0x68; 4]; [7; 0; 0; 0]]) d = Some (x, d1) /\
    drv_run frozen yes yes yes AsduPolicy_new false (reads [[0x68]; [4; 7; 0; 0; 0]]) d = Some (x, d2) /\
    drv_conn d1 = drv_conn d2 /\ out d1 = out d2 /\ calls d1 = calls d2 /\
    (x = None -> rx_buf d1 = rx_buf d2).
Proof.
  intros d. apply (driver_chunking (BC := slice_bytes)); [| |done|].
  - repeat constructor; lia || done.
  - repeat constructor; lia || done.
  - split; [apply octets_nil|done].
Defined.

Lemma driver_frames_arrive_witness :
  let d := Driver_new Server Config_default in
  ∃ b, drv_run frozen yes yes yes AsduPolicy_new false
      (reads [[0x68; 4; 7; 0; 0]; [0; 0x68; 4; 0x43; 0; 0; 0; 0x68]]) d =
    Some (None, set_rx b (feed_frames frozen yes yes yes AsduPolicy_new false
      [ApduU StartDtAct; ApduU TestFrAct] d).2) /\ b = [0x68].
Proof.
  intros d.
  destruct (driver_frames_arrive (BC := slice_bytes) frozen yes yes yes AsduPolicy_new false
    [ApduU StartDtAct; ApduU TestFrAct] [0x68] [[0x68; 4; 7; 0; 0]; [0; 0x68; 4; 0x43; 0; 0; 0; 0x68]] d)
    as (b & Hb & Ht).
  - repeat constructor.
  - repeat constructor; lia.
  - reflexivity.
  - repeat constructor; lia || done.
  - reflexivity.
  - reflexivity.
  - exists b. split; [exact Hb|apply Ht; vm_compute; reflexivity].
Defined.

Lemma driver_rx_bounded_witness :
  ∃ x d', drv_run frozen yes yes yes AsduPolicy_new false [RxCommand (Some CmdStartDt); RxRead (Some [0x68; 200])]
      (Driver_new Client Config_default) = Some (x, d') /\
    (x = None -> (length (rx_buf d') <= 256)%nat /\ decode_slice (rx_buf d') = Ok None).
Proof.
  destruct (driver_rx_bounded (BC := slice_bytes) frozen yes yes yes AsduPolicy_new false
    [RxCommand (Some CmdStartDt); RxRead (Some [0x68; 200])] (Driver_new Client Config_default))
    as (x & d' & H1 & H2 & _).
  - repeat constructor; lia.
  - split; [apply octets_nil|done].
  - exists x, d'. by split.
Defined.

Definition start_and_send (asdu : bytes) : list DrvInput :=
  [RxCommand (Some CmdStartDt); RxRead (Some [0x68; 4; 0x0B; 0; 0; 0]); RxCommand (Some (CmdSendAsdu asdu))].
Definition start_and_send_end (asdu : bytes) : option (option Exit * Driver) :=
  drv_run frozen yes yes yes AsduPolicy_new true (start_and_send asdu) (Driver_new Client Config_default).

Lemma driver_refines_session_witness :
  let asdu := [100; 1; 6; 0; 1; 0; 0; 0; 0; 20] in
  ∃ d ins, start_and_send_end asdu = Some (None, d) /\
    out d = flat_map (performed AsduPolicy_new true) (session ins (Connection_new Client Config_default)).2 /\
    submitted ins = [asdu].
Proof.
  intros asdu. destruct (start_and_send_end asdu) as [[[x|] d]|] eqn:H; [by vm_compute in H| |by vm_compute in H].
  assert (Ho : Forall input_octets (start_and_send asdu)) by (repeat constructor; lia).
  destruct (driver_refines_session (BC := slice_bytes) frozen yes yes yes AsduPolicy_new true
    (λ _, eq_refl) (λ _, eq_refl) (λ _, eq_refl) Client Config_default (start_and_send asdu) d Ho H)
    as (ins & _ & H2 & _ & H4 & _).
  exists d, ins. split; [done|]. split; [exact H2|exact H4].
Defined.

Lemma policy_transparent_witness :
  let asdu := [45; 1; 6; 0; 1; 0; 9; 0; 0; 1] in
  let policy := allow_type_id 1 AsduPolicy_new in
  let inputs := [RxRead (Some [0x68; 4; 7; 0; 0; 0]); RxRead (Some ([0x68; 14; 0; 0; 0; 0] ++ asdu))] in
  ∃ d', drv_run frozen yes yes yes policy false inputs (Driver_new Server Config_default) =
    Some (None, censor policy d').
Proof.
  intros asdu policy inputs.
  destruct (drv_run frozen yes yes yes AsduPolicy_new false inputs (Driver_new Server Config_default))
    as [[[x|] d']|] eqn:H; [by vm_compute in H| |by vm_compute in H].
  exists d'. refine (policy_transparent (BC := slice_bytes) frozen yes yes yes policy false
    (λ _, eq_refl) (λ _, eq_refl) (λ _, eq_refl) inputs (Driver_new Server Config_default) None d' _ _ H _).
  - repeat constructor; lia.
  - split; [apply octets_nil|done].
  - done.
Defined.

(** The user interfaces refuse an ASDU of more than 249 octets; a command that
    reaches the driver with one (the file-transfer service puts 254 octets in
    it for a segment of the default size) ends the task, with the number
    assigned and no [Closed] event for the user. *)
Example oversize_send_ends_driver :
  match start_and_send_end (replicate 254 125) with
  | Some (x, d) => (x, omap (λ o, match o with OutEvent e => Some e | _ => None end) (out d)) =
      (Some (ExitErr (ErrProtocol (AsduTooLong 254 249))), [EvStateChanged Starting; EvStateChanged Active])
  | None => False
  end.
Proof. vm_compute. reflexivity. Qed.
