(* ===== verification/Driver101.v ===== *)
(** * The 101 driver

    [driver101.rs] of the tokio crate: the counterpart of Driver104.v for the
    FT 1.2 link. It differs in what it does with octets that are not a frame:
    it skips to the next octet that may start one and waits for more input.
    [clock], [write_ok] and [evt_open] are the environment as in Driver104.v. *)

From S2P Require Import Prelude Bytes Codec Frame101 Link101 Driver104.

(** ** Data *)

(** driver101.rs 35-35, MAX_RX_BUFFERED_101. *)
Definition MAX_RX_BUFFERED_101 : nat := 1024.

(** driver101.rs 39-39, FT12_START_BYTES. *)
Definition FT12_START_BYTES : list Z := [0x10; 0x68; 0xE5; 0xA2].

(** driver101.rs 43-52, Command101. *)
Inductive Command101 := Cmd101SendAsdu (asdu : bytes) | Cmd101ResetLink | Cmd101RequestClass1 | Cmd101RequestClass2.

(** driver101.rs 56-63, DriverEvent101. *)
Inductive DriverEvent101 :=
| Ev101Asdu (asdu : bytes) | Ev101LinkStateChanged (s : LinkState) | Ev101Closed (r : option Reason).

Inductive Output101 := Out101Bytes (b : bytes) | Out101Event (e : DriverEvent101).

(** The local variables of [run]. *)
Record Driver101 := mkDriver101 {
  d_link : Link; d_rx : bytes; d_calls : nat; d_out : list Output101 }.

Definition d_push (o : Output101) (d : Driver101) : Driver101 :=
  mkDriver101 (d_link d) (d_rx d) (d_calls d) (d_out d ++ [o]).
Definition d_set_rx (b : bytes) (d : Driver101) : Driver101 :=
  mkDriver101 (d_link d) b (d_calls d) (d_out d).

(** [iter().position(..)]. *)
Fixpoint position (p : Z -> bool) (b : bytes) : option nat :=
  match b with
  | [] => None
  | x :: b => if p x then Some 0%nat else S <$> position p b
  end.

Definition is_start (b : Z) : bool := bool_decide (b ∈ FT12_START_BYTES).

(** driver101.rs 144-155, run (skip). *)
Definition resync (rx : bytes) : bytes :=
  match rx with
  | [] => rx
  | _ :: after_first =>
      let next := match position is_start after_first with Some i => (i + 1)%nat | None => length rx end in
      drop next rx
  end.

Section Driver101.
Context `{BC : BytesCrate}.
Context (addr_size : LinkAddressSize) (clock : nat -> Instant) (write_ok evt_open : nat -> bool).

Definition d_send_evt (e : DriverEvent101) (d : Driver101) : bool * Driver101 :=
  if evt_open (length (d_out d)) then (true, d_push (Out101Event e) d) else (false, d).

(** driver101.rs 187-230, apply_actions101. The loop, with [keep_going] so
    far; an early return is the first component. *)
Fixpoint apply_actions101 (actions : list LkAction) (keep_going : bool) (d : Driver101)
  : (Exit + bool) * Driver101 :=
  match actions with
  | [] => (inr keep_going, d)
  | action :: actions =>
      match action with
      | SendFrame frame =>
          match encode101 frame addr_size [] with
          | Ok (_, buf) =>
              if write_ok (length (d_out d))
              then apply_actions101 actions keep_going (d_push (Out101Bytes buf) d)
              else (inl (ExitErr ErrIo), d)
          | Err e => (inl (ExitErr (ErrProtocol e)), d)
          | Panic => (inl ExitPanic, d)
          end
      | LkDeliver asdu =>
          let (sent, d) := d_send_evt (Ev101Asdu asdu) d in
          apply_actions101 actions (keep_going && sent) d
      | LinkStateChanged state =>
          let (sent, d) := d_send_evt (Ev101LinkStateChanged state) d in
          apply_actions101 actions (keep_going && sent) d
      | LinkError reason =>
          let (_, d) := d_send_evt (Ev101Closed (Some reason)) d in
          apply_actions101 actions false d
      end
  end.

(** driver101.rs 111-117, run (one call of the link layer). *)
Definition call101 (input : LkInput) (d : Driver101) : option Exit * Driver101 :=
  let now := clock (d_calls d) in
  let (lnk, actions) := lk_handle input now (d_link d) in
  let d := mkDriver101 lnk (d_rx d) (S (d_calls d)) (d_out d) in
  match apply_actions101 actions true d with
  | (inl x, d) => (Some x, d)
  | (inr true, d) => (None, d)
  | (inr false, d) => (Some ExitOk, d)
  end.

(** driver101.rs 126-166, run (decode loop). *)
Fixpoint drain101 (fuel : nat) (d : Driver101) : option (option Exit * Driver101) :=
  match fuel with
  | O => None
  | S fuel =>
      match decode_slice101 (d_rx d) addr_size with
      | Ok (Some (frame, consumed)) =>
          match call101 (FrameReceived frame) (d_set_rx (drop consumed (d_rx d)) d) with
          | (None, d) => drain101 fuel d
          | (Some x, d) => Some (Some x, d)
          end
      | Ok None => Some (None, d)
      | Err _ => Some (None, d_set_rx (resync (d_rx d)) d)
      | Panic => Some (Some ExitPanic, d)
      end
  end.

Inductive DrvInput101 :=
| Rx101Command (c : option Command101)
| Rx101Tick
| Rx101Read (res : option bytes).

(** driver101.rs 120-180, run (read arm). *)
Definition on_read101 (res : option bytes) (d : Driver101) : option (option Exit * Driver101) :=
  match res with
  | None => Some (Some (ExitErr ErrIo), d)
  | Some [] => let (_, d) := d_send_evt (Ev101Closed None) d in Some (Some ExitOk, d)
  | Some chunk =>
      let d := d_set_rx (d_rx d ++ chunk) d in
      match drain101 (S (length (d_rx d))) d with
      | Some (None, d) =>
          if (MAX_RX_BUFFERED_101 <? length (d_rx d))%nat then
            let (_, d) := d_send_evt (Ev101Closed None) d in Some (Some (ExitErr ErrIo), d)
          else Some (None, d)
      | r => r
      end
  end.

(** driver101.rs 91-182, run (one turn of the loop). *)
Definition turn101 (i : DrvInput101) (d : Driver101) : option (option Exit * Driver101) :=
  match i with
  | Rx101Command None => Some (Some ExitOk, d)
  | Rx101Command (Some (Cmd101SendAsdu asdu)) => Some (call101 (SendUserData asdu) d)
  | Rx101Command (Some Cmd101ResetLink) => Some (call101 InResetRemoteLink d)
  | Rx101Command (Some Cmd101RequestClass1) => Some (call101 InRequestClass1 d)
  | Rx101Command (Some Cmd101RequestClass2) => Some (call101 InRequestClass2 d)
  | Rx101Tick => Some (call101 LkTick d)
  | Rx101Read res => on_read101 res d
  end.

(** driver101.rs 71-184, run. *)
Fixpoint drv_run101 (inputs : list DrvInput101) (d : Driver101) : option (option Exit * Driver101) :=
  match inputs with
  | [] => Some (None, d)
  | i :: inputs =>
      match turn101 i d with
      | Some (None, d) => drv_run101 inputs d
      | r => r
      end
  end.

(** The driver before its first turn; balanced mode is not used. *)
Definition Driver101_new (role : LkRole) (config : LkConfig) : Result Driver101 :=
  match Link_new role Unbalanced config with
  | Ok lnk => Ok (mkDriver101 lnk [] 0 [])
  | Err e => Err e
  | Panic => Panic
  end.

(** ** The receive buffer *)

#[local] Arguments d_set_rx : simpl never.

Definition lift_rx101 (b : bytes) {X} (r : X * Driver101) : X * Driver101 := (r.1, d_set_rx b r.2).

Lemma d_send_evt_rx e b d : d_send_evt e (d_set_rx b d) = lift_rx101 b (d_send_evt e d).
Proof. unfold d_send_evt. change (d_out (d_set_rx b d)) with (d_out d). by case_match. Qed.

Lemma apply_actions101_rx acts k b d :
  apply_actions101 acts k (d_set_rx b d) = lift_rx101 b (apply_actions101 acts k d).
Proof.
  revert k d. induction acts as [|a acts IH]; intros k d; [done|]. destruct a; cbn [apply_actions101].
  - destruct (encode101 f addr_size []) as [[n buf]|e|]; [|done..].
    change (d_out (d_set_rx b d)) with (d_out d). destruct (write_ok _); [|done].
    change (d_push ?o (d_set_rx b d)) with (d_set_rx b (d_push o d)). apply IH.
  - rewrite d_send_evt_rx. destruct (d_send_evt _ d) as [ok d']. apply IH.
  - rewrite d_send_evt_rx. destruct (d_send_evt _ d) as [ok d']. apply IH.
  - rewrite d_send_evt_rx. destruct (d_send_evt _ d) as [ok d']. apply IH.
Qed.

Lemma call101_rx i b d : call101 i (d_set_rx b d) = lift_rx101 b (call101 i d).
Proof.
  unfold call101. change (d_calls (d_set_rx b d)) with (d_calls d). change (d_link (d_set_rx b d)) with (d_link d).
  destruct (lk_handle i (clock (d_calls d)) (d_link d)) as [lnk acts].
  change (mkDriver101 lnk (d_rx (d_set_rx b d)) ?n ?o) with (d_set_rx b (mkDriver101 lnk (d_rx d) n o)).
  rewrite apply_actions101_rx. by destruct (apply_actions101 acts true _) as [[x|[]] d'].
Qed.

Lemma d_set_rx_id d : d_set_rx (d_rx d) d = d.
Proof. by destruct d. Qed.

Lemma call101_keeps_rx i d x d' : call101 i d = (x, d') -> d_rx d' = d_rx d.
Proof.
  intros Hc. pose proof (call101_rx i (d_rx d) d) as H. rewrite d_set_rx_id, Hc in H.
  unfold lift_rx101 in H. simpl in H. injection H as H. rewrite H. done.
Qed.

Lemma resync_spec x b :
  ∃ skipped, x :: b = x :: skipped ++ resync (x :: b) /\ Forall (λ y, is_start y = false) skipped /\
    match resync (x :: b) with [] => True | y :: _ => is_start y = true end.
Proof.
  unfold resync.
  enough (∃ skipped, b = skipped ++ match position is_start b with Some i => drop i b | None => [] end /\
    Forall (λ y, is_start y = false) skipped /\
    match (match position is_start b with Some i => drop i b | None => [] end) with
    | [] => True | y :: _ => is_start y = true end) as (sk & H1 & H2 & H3).
  { exists sk. destruct (position is_start b) as [i|].
    - rewrite Nat.add_1_r. simpl. rewrite <- H1. done.
    - rewrite drop_ge by (simpl; lia). rewrite <- H1. done. }
  induction b as [|y b (sk & H1 & H2 & H3)]; [by exists []|]. simpl. destruct (is_start y) eqn:Hy.
  - exists []. simpl. by rewrite Hy.
  - exists (y :: sk). destruct (position is_start b) as [i|]; simpl in *.
    + split; [by rewrite <- H1|]. split; [by constructor|done].
    + split; [by rewrite <- H1|]. split; [by constructor|done].
Qed.

Lemma octets_resync b : octets b -> octets (resync b).
Proof.
  destruct b as [|x b]; [done|]. intros Ho. destruct (resync_spec x b) as (sk & Hs & _).
  rewrite Hs in Ho. apply octets_cons in Ho as [_ Ho]. by apply octets_app in Ho as [_ Ho].
Qed.

(** The loop ends within its fuel, and more fuel changes nothing. *)
Lemma drain101_total f d : octets (d_rx d) -> (length (d_rx d) < f)%nat ->
  ∃ x d', (∀ f', (length (d_rx d) < f')%nat -> drain101 f' d = Some (x, d')) /\ octets (d_rx d').
Proof.
  revert d. induction f as [|f IH]; intros d Ho Hf; [lia|].
  pose proof (decode101_total (d_rx d) addr_size Ho) as Ht.
  destruct (decode_slice101 (d_rx d) addr_size) as [[[a n]|]|e|] eqn:Hd; [| | |done].
  - destruct Ht as (_ & -> & Ht). assert (0 < length (frame_octets addr_size a) <= length (d_rx d))%nat as Hl.
    { split; [destruct a; simpl; lia|]. rewrite <- Ht, length_take. lia. }
    destruct (call101 (FrameReceived a) (d_set_rx (drop (length (frame_octets addr_size a)) (d_rx d)) d))
      as [x d1] eqn:Hc.
    pose proof (call101_keeps_rx _ _ _ _ Hc) as Hr. change (d_rx (d_set_rx ?b d)) with b in Hr.
    destruct x as [x|].
    + exists (Some x), d1. split; [|rewrite Hr; by apply octets_drop].
      intros [|f'] Hf'; [lia|]. cbn [drain101]. by rewrite Hd, Hc.
    + destruct (IH d1) as (x & d' & H1 & H2); [rewrite Hr; by apply octets_drop|rewrite Hr, length_drop; lia|].
      exists x, d'. split; [|done]. intros [|f'] Hf'; [lia|]. cbn [drain101]. rewrite Hd, Hc.
      apply H1. rewrite Hr, length_drop. lia.
  - exists None, d. split; [|done]. intros [|f'] Hf'; [lia|]. cbn [drain101]. by rewrite Hd.
  - exists None, (d_set_rx (resync (d_rx d)) d). split; [|by apply octets_resync].
    intros [|f'] Hf'; [lia|]. cbn [drain101]. by rewrite Hd.
Qed.

(** The whole loop, as [on_read101] runs it. *)
Definition drain101_all (d : Driver101) : option (option Exit * Driver101) := drain101 (S (length (d_rx d))) d.

Lemma drain101_all_eq d : octets (d_rx d) ->
  drain101_all d =
  match decode_slice101 (d_rx d) addr_size with
  | Ok (Some (frame, consumed)) =>
      match call101 (FrameReceived frame) (d_set_rx (drop consumed (d_rx d)) d) with
      | (None, d) => drain101_all d
      | (Some x, d) => Some (Some x, d)
      end
  | Ok None => Some (None, d)
  | Err _ => Some (None, d_set_rx (resync (d_rx d)) d)
  | Panic => Some (Some ExitPanic, d)
  end.
Proof.
  intros Ho. unfold drain101_all at 1. cbn [drain101].
  pose proof (decode101_total (d_rx d) addr_size Ho) as Ht.
  destruct (decode_slice101 (d_rx d) addr_size) as [[[a n]|]|e|] eqn:Hd; [|done..].
  destruct (call101 _ _) as [[x|] d1] eqn:Hc; [done|]. apply call101_keeps_rx in Hc.
  change (d_rx (d_set_rx ?b d)) with b in Hc. destruct Ht as (_ & -> & Ht).
  assert (0 < length (frame_octets addr_size a) <= length (d_rx d))%nat as Hl.
  { split; [destruct a; simpl; lia|]. rewrite <- Ht, length_take. lia. }
  destruct (drain101_total (S (length (d_rx d1))) d1) as (x & d' & H & _); [rewrite Hc; by apply octets_drop|lia|].
  unfold drain101_all. rewrite !H by (rewrite ?Hc, ?length_drop; lia). done.
Qed.

(** ** Frames that arrive undamaged *)

Lemma bind_not_none {A B} (m : Result A) (k : A -> Result (option B)) :
  (∀ a, k a ≠ Ok None) -> (m ≫= k) ≠ Ok None.
Proof. intros H. destruct m; [apply H|done..]. Qed.

(** A decoder body that has all its octets does not ask for more. *)
Ltac never_waits :=
  repeat match goal with
  | |- (_ ≫= _) ≠ Ok None => apply bind_not_none; intros
  | |- (if ?c then _ else _) ≠ Ok None => destruct c
  | |- match ?o with Some _ => _ | None => _ end ≠ Ok None => destruct o
  | |- _ => done
  end.

(** The decoder waits for at most a frame of 261 octets. *)
Lemma decode101_none_short b : octets b -> decode_slice101 b addr_size = Ok None -> (length b <= 260)%nat.
Proof.
  intros Ho Hd. destruct b as [|b0 b]; [simpl; lia|]. unfold decode_slice101 in Hd.
  destruct (SingleChar_from_byte b0); [done|]. destruct (b0 =? START_FIXED).
  - unfold decode_fixed_arm in Hd. destruct (Nat.ltb_spec (length (b0 :: b)) (1 + 1 + la_len addr_size + 1 + 1)) as [Hl|_].
    + destruct addr_size; simpl in *; lia.
    + exfalso. match type of Hd with ?r = _ => enough (r ≠ Ok None) by congruence end. never_waits.
  - destruct (b0 =? START_VAR); [|done]. unfold decode_var_arm in Hd.
    destruct (Nat.ltb_spec (length (b0 :: b)) 6) as [Hl|Hl]; [lia|].
    destruct b as [|l1 [|l2 b]]; [simpl in Hl; lia..|]. cbn [index lookup list_lookup mbind Result_bind] in Hd.
    destruct (negb (l1 =? l2)); [done|]. destruct (Z.to_nat l1 <? _)%nat; [done|].
    destruct (Nat.ltb_spec (length (b0 :: l1 :: l2 :: b)) 4) as [Hl4|_]; [lia|].
    destruct (Nat.ltb_spec (length (b0 :: l1 :: l2 :: b)) (4 + Z.to_nat l1 + 2)) as [Hl'|_].
    + rewrite !octets_cons in Ho. unfold is_u8 in Ho. lia.
    + exfalso. unfold decode_var_body in Hd.
      match type of Hd with ?r = _ => enough (r ≠ Ok None) by congruence end. never_waits.
Qed.

Fixpoint feed_frames101 (frames : list Frame101) (d : Driver101) : option Exit * Driver101 :=
  match frames with
  | [] => (None, d)
  | f :: frames =>
      match call101 (FrameReceived f) d with (None, d) => feed_frames101 frames d | r => r end
  end.

Lemma feed_frames101_app f1 f2 d :
  feed_frames101 (f1 ++ f2) d =
  match feed_frames101 f1 d with (None, d) => feed_frames101 f2 d | r => r end.
Proof.
  revert d. induction f1 as [|f f1 IH]; intros d; [done|]. cbn [app feed_frames101].
  destruct (call101 (FrameReceived f) d) as [[x|] d']; [done|apply IH].
Qed.

Lemma feed_frames101_rx frames b d :
  feed_frames101 frames (d_set_rx b d) = lift_rx101 b (feed_frames101 frames d).
Proof.
  revert d. induction frames as [|f frames IH]; intros d; [done|]. cbn [feed_frames101].
  rewrite call101_rx. destruct (call101 (FrameReceived f) d) as [[x|] d']; [done|apply IH].
Qed.

Definition wire101 (frames : list Frame101) : bytes := concat (frame_octets addr_size <$> frames).

(** A beginning of the stream is some whole frames and the beginning of the
    next one, which the decoder waits for. *)
Lemma wire101_split frames tail p s :
  Forall (frame_ok addr_size) frames -> octets tail -> decode_slice101 tail addr_size = Ok None ->
  p ++ s = wire101 frames ++ tail ->
  ∃ f1 f2 q, frames = f1 ++ f2 /\ p = wire101 f1 ++ q /\ q ++ s = wire101 f2 ++ tail /\
    decode_slice101 q addr_size = Ok None.
Proof.
  intros Hf Ho Ht. revert p. induction Hf as [|f frames Hok Hf IH]; intros p Heq.
  { exists [], [], p. split; [done|]. split; [done|]. split; [done|]. simpl in Heq.
    destruct (decide (decode_slice101 p addr_size = Ok None)) as [|Hne]; [done|].
    exfalso. apply Hne. rewrite <- Heq in Ht, Ho. rewrite <- Ht. symmetry. by apply decode101_extend. }
  change (wire101 (f :: frames)) with (frame_octets addr_size f ++ wire101 frames) in Heq.
  rewrite <- app_assoc in Heq.
  destruct (decide (length (frame_octets addr_size f) <= length p)%nat) as [Hl|Hl].
  - assert (p = frame_octets addr_size f ++ drop (length (frame_octets addr_size f)) p) as Hp.
    { rewrite <- (take_drop (length (frame_octets addr_size f)) p) at 1. f_equal.
      apply (f_equal (take (length (frame_octets addr_size f)))) in Heq.
      by rewrite take_app_length, take_app_le in Heq by done. }
    rewrite Hp, <- app_assoc in Heq. apply app_inv_head in Heq.
    destruct (IH _ Heq) as (f1 & f2 & q & -> & Hq & Hs & Hd). exists (f :: f1), f2, q.
    split; [done|]. split; [|done]. rewrite Hp, Hq. simpl. by rewrite app_assoc.
  - exists [], (f :: frames), p. split; [done|]. split; [done|]. split; [rewrite Heq; apply app_assoc|].
    apply (f_equal (take (length p))) in Heq. rewrite take_app_length, take_app_le in Heq by lia.
    rewrite Heq. apply frame101_waits; [done|lia].
Qed.

Lemma octets_wire101 frames : Forall (frame_ok addr_size) frames -> octets (wire101 frames).
Proof.
  induction 1 as [|f frames Hok Hf IH]; [apply octets_nil|]. apply octets_app. split; [|done].
  by apply octets_frame_octets.
Qed.

Lemma drain101_frames frames q d :
  Forall (frame_ok addr_size) frames -> octets q -> decode_slice101 q addr_size = Ok None ->
  ∃ b, drain101_all (d_set_rx (wire101 frames ++ q) d) =
    Some ((feed_frames101 frames d).1, d_set_rx b (feed_frames101 frames d).2) /\
    ((feed_frames101 frames d).1 = None -> b = q).
Proof.
  intros Hf Ho Hq. revert d. induction Hf as [|f frames Hok Hf IH]; intros d.
  { exists q. rewrite drain101_all_eq by done. change (d_rx (d_set_rx _ d)) with q. by rewrite Hq. }
  assert (octets (wire101 (f :: frames) ++ q)) as Hw by (apply octets_app; split; [apply octets_wire101; by constructor|done]).
  rewrite drain101_all_eq by done.
  change (wire101 (f :: frames)) with (frame_octets addr_size f ++ wire101 frames). rewrite <- app_assoc.
  change (d_rx (d_set_rx ?b d)) with b. rewrite decode_frame_octets, drop_app_length by done.
  change (d_set_rx ?b (d_set_rx _ d)) with (d_set_rx b d). rewrite call101_rx. cbn [feed_frames101].
  destruct (call101 (FrameReceived f) d) as [[x|] d']; [|apply IH].
  by exists (wire101 frames ++ q).
Qed.

Lemma on_read101_drain chunk d : chunk ≠ [] -> octets (d_rx d ++ chunk) ->
  on_read101 (Some chunk) d =
  match drain101_all (d_set_rx (d_rx d ++ chunk) d) with
  | Some (None, d) =>
      if (MAX_RX_BUFFERED_101 <? length (d_rx d))%nat then
        let (_, d) := d_send_evt (Ev101Closed None) d in Some (Some (ExitErr ErrIo), d)
      else Some (None, d)
  | r => r
  end.
Proof. by destruct chunk. Qed.

Definition reads101 (chunks : list bytes) : list DrvInput101 := (λ c, Rx101Read (Some c)) <$> chunks.

(** The octets of a sequence of FT 1.2 frames, cut in any way and followed
    by at most the beginning of another, make the driver call the link layer
    on exactly these frames, in order, until one of them ends the task; the
    cap on the buffer does not come into play. *)
Theorem driver101_frames_arrive frames tail chunks d :
  Forall (frame_ok addr_size) frames -> octets tail -> decode_slice101 tail addr_size = Ok None ->
  Forall (λ c, c ≠ []) chunks -> decode_slice101 (d_rx d) addr_size = Ok None ->
  d_rx d ++ concat chunks = wire101 frames ++ tail ->
  ∃ b, drv_run101 (reads101 chunks) d =
    Some ((feed_frames101 frames d).1, d_set_rx b (feed_frames101 frames d).2) /\
    ((feed_frames101 frames d).1 = None -> b = tail).
Proof.
  intros Hf Ho Ht Hc. revert frames d Hf. induction Hc as [|c chunks Hne Hc IH]; intros frames d Hf Hd Heq.
  - simpl in Heq. rewrite app_nil_r in Heq. destruct Hf as [|f frames Hok Hf].
    + exists tail. simpl. simpl in Heq. rewrite <- Heq, d_set_rx_id. done.
    + exfalso. rewrite Heq in Hd. change (wire101 (f :: frames)) with (frame_octets addr_size f ++ wire101 frames) in Hd.
      rewrite <- app_assoc, decode_frame_octets in Hd by done. done.
  - cbn [concat] in Heq. rewrite app_assoc in Heq.
    assert (octets ((d_rx d ++ c) ++ concat chunks)) as Hoo
      by (rewrite Heq; apply octets_app; split; [by apply octets_wire101|done]).
    apply octets_app in Hoo as [Hoc _].
    destruct (wire101_split frames tail _ _ Hf Ho Ht Heq) as (f1 & f2 & q & -> & Hp & Hs & Hq).
    apply Forall_app in Hf as [Hf1 Hf2]. assert (octets q) as Hoq by (rewrite Hp in Hoc; by apply octets_app in Hoc as [_ ?]).
    cbn [reads101 fmap list_fmap drv_run101 turn101]. fold (reads101 chunks).
    rewrite on_read101_drain, Hp by done. destruct (drain101_frames f1 q d Hf1 Hoq Hq) as (b & -> & Hb).
    rewrite feed_frames101_app. destruct (feed_frames101 f1 d) as [[x|] d1]; cbn [fst snd] in *.
    + by exists b.
    + rewrite (Hb eq_refl). change (d_rx (d_set_rx q d1)) with q.
      pose proof (decode101_none_short q Hoq Hq).
      destruct (Nat.ltb_spec MAX_RX_BUFFERED_101 (length q)) as [Hgt|_]; [unfold MAX_RX_BUFFERED_101 in Hgt; lia|].
      destruct (IH f2 (d_set_rx q d1) Hf2 Hq Hs) as (b' & Hr & Hb'). rewrite feed_frames101_rx in Hr, Hb'.
      exists b'. by split.
Qed.

(** ** Octets that are no frame *)

(** When the buffered octets cannot be a frame the driver drops the first
    of them and all up to the next one that may start a frame, tells the link
    layer nothing, and waits for the next read; it never drops an octet that
    may start a frame except the first, and it fails only when what is left
    exceeds the cap. *)
Theorem driver101_resynchronises chunk e d :
  chunk ≠ [] -> octets (d_rx d ++ chunk) -> decode_slice101 (d_rx d ++ chunk) addr_size = Err e ->
  ∃ x skipped rest, d_rx d ++ chunk = x :: skipped ++ rest /\
    Forall (λ y, is_start y = false) skipped /\
    match rest with [] => True | y :: _ => is_start y = true end /\
    on_read101 (Some chunk) d =
      if (MAX_RX_BUFFERED_101 <? length rest)%nat
      then Some (Some (ExitErr ErrIo), (d_send_evt (Ev101Closed None) (d_set_rx rest d)).2)
      else Some (None, d_set_rx rest d).
Proof.
  intros Hne Ho Hd. rewrite on_read101_drain, drain101_all_eq by done.
  change (d_rx (d_set_rx ?b d)) with b. rewrite Hd.
  destruct (d_rx d ++ chunk) as [|x b] eqn:Hb; [done|]. destruct (resync_spec x b) as (sk & H1 & H2 & H3).
  exists x, sk, (resync (x :: b)). split; [done|]. split; [done|]. split; [done|].
  change (d_set_rx ?b (d_set_rx _ d)) with (d_set_rx b d). change (d_rx (d_set_rx ?b d)) with b.
  by destruct (d_send_evt _ _).
Qed.

End Driver101.

(** ** Examples *)

(** A reset of the link, as an outstation with address 0 receives it. *)
Definition reset_frame : bytes := [0x10; 0x40; 0; 0x40; 0x16].
Definition outstation_driver : Driver101 :=
  match Driver101_new Outstation LkConfig_default with
  | Ok d => d
  | _ => mkDriver101 (mkLink Outstation Unbalanced LkConfig_default NotReady false None None [] []) [] 0 []
  end.

Lemma driver101_frames_arrive_witness :
  ∃ b, drv_run101 LaOne frozen yes yes (reads101 [[0x10; 0x40]; [0; 0x40; 0x16; 0x10]]) outstation_driver =
    Some (None, d_set_rx b (feed_frames101 LaOne frozen yes yes [FFixed 0x40 0] outstation_driver).2) /\ b = [0x10].
Proof.
  destruct (driver101_frames_arrive (BC := slice_bytes) LaOne frozen yes yes [FFixed 0x40 0] [0x10]
    [[0x10; 0x40]; [0; 0x40; 0x16; 0x10]] outstation_driver) as (b & Hb & Ht).
  - repeat constructor; lia.
  - repeat constructor; lia.
  - reflexivity.
  - repeat constructor; done.
  - reflexivity.
  - reflexivity.
  - exists b. split; [exact Hb|apply Ht; vm_compute; reflexivity].
Defined.

Lemma driver101_resynchronises_witness :
  ∃ x skipped rest, [0; 1; 2; 0x10; 0x40] = x :: skipped ++ rest /\
    Forall (λ y, is_start y = false) skipped /\
    match rest with [] => True | y :: _ => is_start y = true end.
Proof.
  destruct (driver101_resynchronises (BC := slice_bytes) LaOne frozen yes yes [0; 1; 2; 0x10; 0x40]
    (InvalidStartByte 0x10 0) outstation_driver) as (x & sk & rest & H1 & H2 & H3 & _).
  - done.
  - repeat constructor; lia.
  - reflexivity.
  - by exists x, sk, rest.
Defined.

(** After the skip the loop stops: a whole frame that follows a stray octet in
    the same read stays unread until more octets arrive, while in a read of
    its own it is answered at once. *)
Example frame_behind_junk_waits :
  match drv_run101 LaOne frozen yes yes (reads101 [0 :: reset_frame]) outstation_driver,
        drv_run101 LaOne frozen yes yes (reads101 [[0]; reset_frame]) outstation_driver with
  | Some (x1, d1), Some (x2, d2) =>
      (x1, d_rx d1, d_calls d1, length (d_out d1)) = (None, reset_frame, 0%nat, 0%nat) /\
      (x2, d_rx d2, d_calls d2, length (d_out d2)) = (None, [], 1%nat, 2%nat)
  | _, _ => False
  end.
Proof. vm_compute. split; reflexivity. Qed.

(** For the same reason the cap is hit by good frames: one stray octet before
    more than 1024 octets of them in one read closes the link. *)
Example good_frames_overflow :
  match drv_run101 LaOne frozen yes yes (reads101 [0 :: concat (replicate 205 reset_frame)]) outstation_driver with
  | Some (x, d) => (x, d_calls d) = (Some (ExitErr ErrIo), 0%nat)
  | None => False
  end.
Proof. vm_compute. reflexivity. Qed.
