(* ===== verification/Redundancy.v ===== *)
(** * The redundancy group

    [redundancy.rs]: several 104 connections of which at most one owns the
    data link. The group keeps the accepted peers and the active one under a
    lock; the accept loop inserts peers, and one task per connection takes the
    events of its connection in order and promotes, forwards or removes. Each
    locked section is one step here, and the tasks interleave in any order.
    A sender handle is known by the number of its connection; dropping it ends
    the connection. *)

From S2P Require Import Prelude Frame104 Conn104.

(** A [std::net::SocketAddr] is only compared. *)
Abbreviation SocketAddr := Z.

(** ** Data *)

(** redundancy.rs 43-54, RedundancyConfig. *)
Record RedundancyConfig := mkRedundancyConfig {
  max_peers : nat; promote_filter : option (SocketAddr -> bool) }.

(** redundancy.rs 56-63, RedundancyConfig::default. *)
Definition RedundancyConfig_default : RedundancyConfig := mkRedundancyConfig 8 None.

(** redundancy.rs 88-97, Inner. *)
Record Inner := mkInner { peers : gmap SocketAddr nat; active : option SocketAddr }.

(** server104.rs 254-258, ServerEvent. *)
Inductive ServerEvent :=
| SeAsdu (b : bytes) | SeStateChanged (s : State) | SeClosed (r : option DisconnectReason).

(** ** Operations *)

(** redundancy.rs 228-240, accept_loop (one accepted connection). The count is
    read and the peer inserted in two locked sections; only this loop inserts,
    so the count has not grown in between. *)
Definition accept_peer (config : RedundancyConfig) (peer : SocketAddr) (sender : nat) (st : Inner) : option Inner :=
  if (max_peers config <=? size (peers st))%nat then None
  else Some (mkInner (<[peer := sender]> (peers st)) (active st)).

(** redundancy.rs 273-279, drive_peer (promotion). *)
Definition promote (peer : SocketAddr) (st : Inner) : Inner :=
  let prev := active st in
  let st := mkInner (peers st) (Some peer) in
  match prev with
  | Some p => if bool_decide (p ≠ peer) then mkInner (delete p (peers st)) (active st) else st
  | None => st
  end.

(** redundancy.rs 255-293, drive_peer (one event). Whether the loop goes on,
    the state, and what is forwarded; [rx_open] says whether the receiver of
    the forwarded ASDUs is still there. *)
Definition drive_event (config : RedundancyConfig) (rx_open : bool) (peer : SocketAddr) (evt : ServerEvent)
    (st : Inner) : bool * Inner * option (SocketAddr * bytes) :=
  match evt with
  | SeStateChanged Active =>
      if match promote_filter config with Some filter => negb (filter peer) | None => false end
      then (false, mkInner (delete peer (peers st)) (active st), None)
      else (true, promote peer st, None)
  | SeAsdu b =>
      if bool_decide (active st = Some peer)
      then if rx_open then (true, st, Some (peer, b)) else (false, st, None)
      else (true, st, None)
  | SeClosed _ => (false, st, None)
  | SeStateChanged _ => (true, st, None)
  end.

(** redundancy.rs 294-300, drive_peer (cleanup). *)
Definition drive_cleanup (peer : SocketAddr) (st : Inner) : Inner :=
  let st := mkInner (delete peer (peers st)) (active st) in
  if bool_decide (active st = Some peer) then mkInner (peers st) None else st.

(** redundancy.rs 144-155, RedundancyServer::send_active. The sender that is
    used, or [NoActivePeer]. *)
Definition send_active (st : Inner) : option nat :=
  match active st with
  | None => None
  | Some peer => peers st !! peer
  end.

(** redundancy.rs 168-181, RedundancyServer::drop. *)
Definition group_drop (st : Inner) : Inner := mkInner ∅ None.

(** ** The group as a transition system *)

(** The task of a connection: its peer, the events waiting, and whether it
    has left its loop. [tk_promoted] is history: the task has promoted its
    peer. *)
Record PeerTask := mkTask {
  tk_peer : SocketAddr; tk_queue : list ServerEvent; tk_left : bool; tk_promoted : bool }.

Record Group := mkGroup {
  g_inner : Inner;
  g_tasks : gmap nat PeerTask;
  g_forwarded : list (SocketAddr * bytes) }.

Definition Group_new : Group := mkGroup (mkInner ∅ None) ∅ [].

Definition set_task (n : nat) (t : PeerTask) (g : Group) : Group :=
  mkGroup (g_inner g) (<[n := t]> (g_tasks g)) (g_forwarded g).

Section Group.
Context (config : RedundancyConfig).

(** One locked section, or one event arriving. *)
Inductive group_step : Group -> Group -> Prop :=
| step_accept g n peer st :
    g_tasks g !! n = None -> accept_peer config peer n (g_inner g) = Some st ->
    group_step g (mkGroup st (<[n := mkTask peer [] false false]> (g_tasks g)) (g_forwarded g))
| step_arrive g n t evt :
    g_tasks g !! n = Some t ->
    group_step g (set_task n (mkTask (tk_peer t) (tk_queue t ++ [evt]) (tk_left t) (tk_promoted t)) g)
| step_drive g n t evt queue rx_open goes_on st fwd :
    g_tasks g !! n = Some t -> tk_left t = false -> tk_queue t = evt :: queue ->
    drive_event config rx_open (tk_peer t) evt (g_inner g) = (goes_on, st, fwd) ->
    group_step g (mkGroup st
      (<[n := mkTask (tk_peer t) queue (negb goes_on)
          (tk_promoted t || goes_on && match evt with SeStateChanged Active => true | _ => false end)]>
        (g_tasks g))
      (g_forwarded g ++ option_list fwd))
| step_end g n t :
    g_tasks g !! n = Some t -> tk_left t = true \/ tk_queue t = [] ->
    group_step g (mkGroup (drive_cleanup (tk_peer t) (g_inner g)) (delete n (g_tasks g)) (g_forwarded g))
| step_drop g :
    group_step g (mkGroup (group_drop (g_inner g)) (g_tasks g) (g_forwarded g)).

Definition group_reachable (g : Group) : Prop := rtc group_step Group_new g.

(** Rule induction over the steps that lead to a state. *)
Lemma group_invariant (P : Group -> Prop) :
  P Group_new -> (∀ g g', P g -> group_step g g' -> P g') -> ∀ g, group_reachable g -> P g.
Proof.
  intros H0 Hs g Hr. unfold group_reachable in Hr. revert H0. induction Hr as [|g g1 g2 Hg Hr IH]; [done|].
  intros HP. apply IH. by eapply Hs.
Qed.

(** ** One owner of the data link *)

(** The table holds at most [max_peers] connections, each with a task of its
    peer, and one that has been promoted is the active one. *)
Record group_ok (g : Group) : Prop := {
  go_size : (size (peers (g_inner g)) <= max_peers config)%nat;
  go_task p n : peers (g_inner g) !! p = Some n -> ∃ t, g_tasks g !! n = Some t /\ tk_peer t = p;
  go_owner p n t : peers (g_inner g) !! p = Some n -> g_tasks g !! n = Some t -> tk_promoted t = true ->
    active (g_inner g) = Some p }.

(** What a step does to the table, apart from an insertion. *)
Lemma size_delete_le (m : gmap SocketAddr nat) p k : (size m <= k)%nat -> (size (delete p m) <= k)%nat.
Proof. intros H. rewrite map_size_delete. destruct (m !! p); simpl; lia. Qed.

Lemma drive_event_spec rx_open peer evt st b st' fwd :
  drive_event config rx_open peer evt st = (b, st', fwd) ->
  (∀ p n, peers st' !! p = Some n -> peers st !! p = Some n) /\
  (size (peers st') <= size (peers st))%nat /\
  (∀ p n, active st = Some p -> peers st' !! p = Some n -> active st' = Some p) /\
  (b && match evt with SeStateChanged Active => true | _ => false end = true ->
     active st' = Some peer /\ ∀ p n, peers st' !! p = Some n -> active st = Some p -> p = peer) /\
  (∀ p, active st' = Some p -> active st = Some p \/
     p = peer /\ b && match evt with SeStateChanged Active => true | _ => false end = true) /\
  (∀ x, fwd = Some x -> active st = Some peer /\ active st' = active st /\ ∃ bs, evt = SeAsdu bs /\ x = (peer, bs)).
Proof.
  assert (∀ (m : gmap SocketAddr nat) p q n, delete q m !! p = Some n -> p ≠ q /\ m !! p = Some n) as Hdel
    by (intros m p q n [? ?]%lookup_delete_Some; auto).
  assert (∀ (m : gmap SocketAddr nat) q, (size (delete q m) <= size m)%nat) as Hsz
    by (intros; by apply size_delete_le).
  destruct evt as [bs|s|r]; simpl.
  - case_bool_decide; [destruct rx_open|]; intros [= <- <- <-]; split_and!; try done; naive_solver.
  - destruct s; try (intros [= <- <- <-]; split_and!; try done; naive_solver).
    destruct (match promote_filter config with Some f => _ | None => false end); intros [= <- <- <-]; simpl.
    { split_and!; try done; naive_solver. }
    unfold promote. destruct (active st) as [q|] eqn:Ha; simpl; [case_bool_decide; simpl|];
      split_and!; try done; naive_solver.
  - intros [= <- <- <-]. split_and!; try done; naive_solver.
Qed.

Lemma group_ok_step g g' : group_ok g -> group_step g g' -> group_ok g'.
Proof.
  intros [Hsz Ht Ho] Hs. destruct Hs as [g n peer st Hn Ha|g n t evt Hn|g n t evt queue rx_open b st fwd Hn Hl Hq Hd|g n t Hn He|g].
  - unfold accept_peer in Ha. destruct (Nat.leb_spec (max_peers config) (size (peers (g_inner g)))); [done|].
    injection Ha as <-. constructor; simpl.
    + rewrite map_size_insert. case_match; unfold id; lia.
    + intros p m [[<- <-]|[Hne Hp]]%lookup_insert_Some; [rewrite lookup_insert_eq; eauto|].
      destruct (Ht _ _ Hp) as (t & Htm & Hpeer). exists t. rewrite lookup_insert_ne by congruence. done.
    + intros p m t [[<- <-]|[Hne Hp]]%lookup_insert_Some; [by rewrite lookup_insert_eq; intros [= <-]|].
      destruct (Ht _ _ Hp) as (t' & Htm & _). rewrite lookup_insert_ne by congruence. by apply Ho.
  - constructor; simpl; [done| |].
    + intros p m Hp. destruct (Ht _ _ Hp) as (t' & Htm & Hpeer). destruct (decide (m = n)) as [->|Hne].
      * rewrite lookup_insert_eq. simplify_eq. eauto.
      * rewrite lookup_insert_ne by done. eauto.
    + intros p m t' Hp [[<- <-]|[Hne Hm]]%lookup_insert_Some; [simpl; by eapply Ho|by eapply Ho].
  - destruct (drive_event_spec _ _ _ _ _ _ _ Hd) as (Hsub & Hsz' & Hact & Hprom & _ & _).
    constructor; simpl; [lia| |].
    + intros p m Hp%Hsub. destruct (Ht _ _ Hp) as (t' & Htm & Hpeer). destruct (decide (m = n)) as [->|Hne].
      * rewrite lookup_insert_eq. simplify_eq. eauto.
      * rewrite lookup_insert_ne by done. eauto.
    + intros p m t' Hp [[<- <-]|[Hne Hm]]%lookup_insert_Some Hpr.
      * simpl in Hpr. destruct (Ht _ _ (Hsub _ _ Hp)) as (t' & Htm & Hpeer). simplify_eq.
        apply orb_true_iff in Hpr as [Hpr|Hpr]; [|by apply Hprom].
        eapply Hact; [|done]. by eapply Ho; [apply Hsub|..].
      * eapply Hact; [|done]. by eapply Ho; [apply Hsub|..].
  - assert (peers (drive_cleanup (tk_peer t) (g_inner g)) = delete (tk_peer t) (peers (g_inner g))) as Hp
      by (unfold drive_cleanup; by case_match).
    constructor; simpl; rewrite Hp; [by apply size_delete_le| |].
    + intros p m [Hne Hm]%lookup_delete_Some. destruct (Ht _ _ Hm) as (t' & Htm & Hpeer).
      exists t'. rewrite lookup_delete_ne by (intros ->; simplify_eq). done.
    + intros p m t' [Hne Hm]%lookup_delete_Some [_ Htm]%lookup_delete_Some Hpr.
      pose proof (Ho _ _ _ Hm Htm Hpr) as Ha. unfold drive_cleanup. simpl. case_bool_decide; [congruence|done].
  - constructor; simpl; [rewrite map_size_empty; lia|done|done].
Qed.

Lemma group_ok_reachable g : group_reachable g -> group_ok g.
Proof.
  apply group_invariant; [|intros; by eapply group_ok_step].
  constructor; simpl; [rewrite map_size_empty; lia|done|done].
Qed.

(** C35. Redundancy is safe under every interleaving of accepts, events and
    tasks: at most [max_peers] connections are kept, every kept connection is
    driven under its own peer, and at most one of them has ever been promoted
    to own the data link, namely that of the active peer; it is the only
    promoted connection [send_active] can reach. *)
Theorem redundancy_single_owner g : group_reachable g ->
  (size (peers (g_inner g)) <= max_peers config)%nat /\
  (∀ p n, peers (g_inner g) !! p = Some n -> ∃ t, g_tasks g !! n = Some t /\ tk_peer t = p) /\
  (∀ p n t, peers (g_inner g) !! p = Some n -> g_tasks g !! n = Some t -> tk_promoted t = true ->
     active (g_inner g) = Some p /\ send_active (g_inner g) = Some n) /\
  (∀ p1 n1 t1 p2 n2 t2, peers (g_inner g) !! p1 = Some n1 -> peers (g_inner g) !! p2 = Some n2 ->
     g_tasks g !! n1 = Some t1 -> g_tasks g !! n2 = Some t2 ->
     tk_promoted t1 = true -> tk_promoted t2 = true -> p1 = p2 /\ n1 = n2).
Proof.
  intros [Hsz Ht Ho]%group_ok_reachable. split; [done|]. split; [done|]. split.
  - intros p n t Hp Hn Hpr. pose proof (Ho _ _ _ Hp Hn Hpr) as Ha. split; [done|].
    unfold send_active. by rewrite Ha.
  - intros p1 n1 t1 p2 n2 t2 Hp1 Hp2 Ht1 Ht2 Hr1 Hr2.
    pose proof (Ho _ _ _ Hp1 Ht1 Hr1). pose proof (Ho _ _ _ Hp2 Ht2 Hr2). simplify_eq. done.
Qed.

(** The slot belongs to a connection whose task has promoted it and is still
    there to give it up. *)
Definition slot_ok (g : Group) : Prop :=
  ∀ p, active (g_inner g) = Some p ->
    ∃ n t, g_tasks g !! n = Some t /\ tk_peer t = p /\ tk_promoted t = true.

Lemma slot_ok_step g g' : slot_ok g -> group_step g g' -> slot_ok g'.
Proof.
  intros Hs. unfold slot_ok.
  destruct 1 as [g n peer st Hn Ha|g n t evt Hn|g n t evt queue rx_open b st fwd Hn Hl Hq Hd|g n t Hn He|g];
    intros p Hp; simpl in Hp.
  - unfold accept_peer in Ha. destruct (_ <=? _)%nat; [done|]. injection Ha as <-.
    destruct (Hs p Hp) as (m & t & Hm & Ht). exists m, t. simpl. rewrite lookup_insert_ne by congruence. done.
  - destruct (Hs p Hp) as (m & t' & Hm & Ht). simpl. destruct (decide (m = n)) as [->|Hne].
    + simplify_eq. eexists n, _. rewrite lookup_insert_eq. done.
    + exists m, t'. by rewrite lookup_insert_ne by done.
  - destruct (drive_event_spec _ _ _ _ _ _ _ Hd) as (_ & _ & _ & _ & Hact & _). simpl.
    destruct (Hact p Hp) as [Hb|[-> Hpr]].
    + destruct (Hs p Hb) as (m & t' & Hm & Ht & Hpr). destruct (decide (m = n)) as [->|Hne].
      * simplify_eq. eexists n, _. rewrite lookup_insert_eq. split; [done|]. simpl. by rewrite Hpr.
      * exists m, t'. by rewrite lookup_insert_ne by done.
    + eexists n, _. rewrite lookup_insert_eq. split; [done|]. simpl. by rewrite Hpr, orb_true_r.
  - unfold drive_cleanup in Hp. simpl in Hp. case_bool_decide as Hc; [done|]. simpl in Hp.
    destruct (Hs p Hp) as (m & t' & Hm & Ht & Hpr). exists m, t'. simpl.
    rewrite lookup_delete_ne by (intros ->; simplify_eq). done.
  - done.
Qed.

Definition distinct_peers (g : Group) : Prop :=
  ∀ n m t u, g_tasks g !! n = Some t -> g_tasks g !! m = Some u -> tk_peer t = tk_peer u -> n = m.

(** Only the owner of the data link is heard: in a reachable state in which
    no two connections come from the same address, a step that forwards an
    ASDU forwards the next event of a connection that was promoted and whose
    peer is the active one. *)
Theorem redundancy_forwards_owner g g' x :
  group_reachable g -> distinct_peers g -> group_step g g' -> g_forwarded g' = g_forwarded g ++ [x] ->
  ∃ n t queue, g_tasks g !! n = Some t /\ tk_queue t = SeAsdu x.2 :: queue /\ tk_peer t = x.1 /\
    tk_promoted t = true /\ active (g_inner g) = Some x.1.
Proof.
  intros Hr Hdist Hs Hf. assert (slot_ok g) as Hslot by (revert g Hr Hdist Hs Hf; intros g Hr _ _ _;
    revert Hr; apply group_invariant; [done|intros; by eapply slot_ok_step]).
  assert (∀ l : list (SocketAddr * bytes), l ≠ l ++ [x]) as Hne
    by (intros l Hl; apply (f_equal length) in Hl; rewrite length_app in Hl; simpl in Hl; lia).
  destruct Hs as [| |g n t evt queue rx_open b st fwd Hn Hl Hq Hd| |]; simpl in Hf; try by destruct (Hne _ Hf).
  apply app_inv_head in Hf. destruct fwd as [y|]; [|done]. injection Hf as ->.
  destruct (drive_event_spec _ _ _ _ _ _ _ Hd) as (_ & _ & _ & _ & _ & Hfw).
  destruct (Hfw x eq_refl) as (Ha & _ & bs & -> & ->). simpl.
  destruct (Hslot _ Ha) as (m & u & Hm & Hu & Hpr). pose proof (Hdist _ _ _ _ Hm Hn Hu) as ->.
  simplify_eq. exists n, t, queue. done.
Qed.

End Group.

(** ** Interleavings *)

#[local] Abbreviation cfg := RedundancyConfig_default.

(** Building a run: the next step, then the rest. *)
Lemma reach_step config g g' : group_reachable config g -> group_step config g g' -> group_reachable config g'.
Proof. intros Hr Hs. eapply rtc_r; [exact Hr|exact Hs]. Qed.

(** One more connection, one more event, one event handled; each is a step
    when it applies. *)
Definition do_accept (n : nat) (peer : SocketAddr) (g : Group) : option Group :=
  match g_tasks g !! n, accept_peer cfg peer n (g_inner g) with
  | None, Some st => Some (mkGroup st (<[n := mkTask peer [] false false]> (g_tasks g)) (g_forwarded g))
  | _, _ => None
  end.
Definition do_arrive (n : nat) (evt : ServerEvent) (g : Group) : option Group :=
  t ← g_tasks g !! n;
  Some (set_task n (mkTask (tk_peer t) (tk_queue t ++ [evt]) (tk_left t) (tk_promoted t)) g).
Definition do_drive (n : nat) (g : Group) : option Group :=
  t ← g_tasks g !! n;
  match tk_left t, tk_queue t with
  | false, evt :: queue =>
      let '(goes_on, st, fwd) := drive_event cfg true (tk_peer t) evt (g_inner g) in
      Some (mkGroup st
        (<[n := mkTask (tk_peer t) queue (negb goes_on)
          (tk_promoted t || goes_on && match evt with SeStateChanged Active => true | _ => false end)]> (g_tasks g))
        (g_forwarded g ++ option_list fwd))
  | _, _ => None
  end.
Definition do_end (n : nat) (g : Group) : option Group :=
  t ← g_tasks g !! n;
  if tk_left t || bool_decide (tk_queue t = []) then
    Some (mkGroup (drive_cleanup (tk_peer t) (g_inner g)) (delete n (g_tasks g)) (g_forwarded g))
  else None.

#[export] Instance ServerEvent_eq_dec : EqDecision ServerEvent.
Proof. solve_decision. Defined.

Inductive Move := MvAccept (n : nat) (peer : SocketAddr) | MvArrive (n : nat) (evt : ServerEvent) | MvDrive (n : nat) | MvEnd (n : nat).
Definition do_move (m : Move) : Group -> option Group :=
  match m with
  | MvAccept n peer => do_accept n peer | MvArrive n evt => do_arrive n evt
  | MvDrive n => do_drive n | MvEnd n => do_end n
  end.
Fixpoint play (moves : list Move) (g : Group) : option Group :=
  match moves with [] => Some g | m :: moves => do_move m g ≫= play moves end.

Lemma do_group_move_step m g g' : do_move m g = Some g' -> group_step cfg g g'.
Proof.
  destruct m as [n peer|n evt|n|n]; simpl.
  - unfold do_accept. destruct (g_tasks g !! n) eqn:Hn; [done|].
    destruct (accept_peer cfg peer n (g_inner g)) eqn:Ha; [|done]. intros [= <-]. by constructor.
  - unfold do_arrive. destruct (g_tasks g !! n) as [t|] eqn:Hn; [|done]. intros [= <-]. by constructor.
  - unfold do_drive. destruct (g_tasks g !! n) as [t|] eqn:Hn; [|done]. simpl.
    destruct (tk_left t) eqn:Hl; [done|]. destruct (tk_queue t) as [|evt queue] eqn:Hq; [done|].
    destruct (drive_event cfg true (tk_peer t) evt (g_inner g)) as [[b st] fwd] eqn:Hd. intros [= <-].
    by eapply step_drive.
  - unfold do_end. destruct (g_tasks g !! n) as [t|] eqn:Hn; [|done]. simpl.
    destruct (tk_left t) eqn:Hl; simpl; [intros [= <-]; eapply step_end; [exact Hn|auto]|].
    case_bool_decide; [|done]. intros [= <-]. eapply step_end; [exact Hn|auto].
Qed.

Lemma play_reachable moves g g' : group_reachable cfg g -> play moves g = Some g' -> group_reachable cfg g'.
Proof.
  revert g. induction moves as [|m moves IH]; intros g Hr; simpl; [by intros [= <-]|].
  destruct (do_move m g) as [g1|] eqn:Hm; [|done]. apply IH. eapply reach_step; [done|by eapply do_group_move_step].
Qed.

Definition played (moves : list Move) : Group := default Group_new (play moves Group_new).

Lemma played_reachable moves : group_reachable cfg (played moves).
Proof.
  unfold played. destruct (play moves Group_new) as [g|] eqn:H; [|apply rtc_refl].
  eapply play_reachable; [apply rtc_refl|exact H].
Qed.

Definition two_peers : list Move := [MvAccept 1 10; MvAccept 2 20].
Definition up : ServerEvent := SeStateChanged Active.
Definition down : ServerEvent := SeStateChanged Stopped.

Lemma redundancy_single_owner_witness :
  let g := played (two_peers ++ [MvArrive 1 up; MvDrive 1; MvArrive 2 up; MvDrive 2]) in
  active (g_inner g) = Some 20 /\ send_active (g_inner g) = Some 2%nat.
Proof.
  intros g.
  destruct (redundancy_single_owner cfg g (played_reachable _)) as (_ & _ & H & _).
  apply (H 20 2%nat (mkTask 20 [] false true)); vm_compute; reflexivity.
Defined.

Lemma redundancy_forwards_owner_witness :
  let g := played (two_peers ++ [MvArrive 1 up; MvDrive 1; MvArrive 1 (SeAsdu [7])]) in
  let g' := played (two_peers ++ [MvArrive 1 up; MvDrive 1; MvArrive 1 (SeAsdu [7]); MvDrive 1]) in
  ∃ n t queue, g_tasks g !! n = Some t /\ tk_queue t = SeAsdu [7] :: queue /\ tk_peer t = 10 /\
    tk_promoted t = true /\ active (g_inner g) = Some 10.
Proof.
  intros g g'. refine (redundancy_forwards_owner cfg g g' (10, [7]) (played_reachable _) _ _ _).
  - assert (Hall : forallb (λ x, ((x.1 =? 1)%nat && (tk_peer x.2 =? 10)) || ((x.1 =? 2)%nat && (tk_peer x.2 =? 20)))
      (map_to_list (g_tasks g)) = true) by (vm_compute; reflexivity).
    rewrite forallb_forall in Hall.
    assert (Ht : ∀ n t, g_tasks g !! n = Some t -> n = 1%nat /\ tk_peer t = 10 \/ n = 2%nat /\ tk_peer t = 20).
    { intros n t Hn%elem_of_map_to_list%list_elem_of_In%Hall. simpl in Hn.
      rewrite orb_true_iff, !andb_true_iff, !Nat.eqb_eq, !Z.eqb_eq in Hn. exact Hn. }
    intros n m t u Hn%Ht Hm%Ht Hp. lia.
  - apply (do_group_move_step (MvDrive 1)). vm_compute. reflexivity.
  - vm_compute. reflexivity.
Defined.

(** A peer that toggles quickly is demoted while an activation of it is still
    queued; handling that activation takes the slot back for a connection that
    is being closed and closes the one that owns the link. No connection is
    left, and [send_active] finds no peer although one is active. *)
Example demoted_peer_takes_over :
  let g := played (two_peers ++ [MvArrive 1 up; MvArrive 1 down; MvArrive 1 up; MvArrive 2 up;
    MvDrive 1; MvDrive 2; MvDrive 1; MvDrive 1]) in
  active (g_inner g) = Some 10 /\ map_to_list (peers (g_inner g)) = [] /\ send_active (g_inner g) = None.
Proof. vm_compute. done. Qed.

(** A peer that reconnects from the same address before the old connection's
    task has ended loses the new connection to the cleanup of the old one. *)
Example cleanup_removes_successor :
  let g := played [MvAccept 1 10; MvArrive 1 up; MvDrive 1; MvAccept 2 10; MvArrive 2 up; MvDrive 2; MvEnd 1] in
  active (g_inner g) = None /\ map_to_list (peers (g_inner g)) = [] /\ is_Some (g_tasks g !! 2%nat).
Proof. vm_compute. split; [done|]. split; [done|]. by eexists. Qed.

(** After STOPDT the peer keeps the slot: [send_active] reports success for an
    ASDU that the connection only queues. *)
Example stopped_peer_stays_active :
  let g := played [MvAccept 1 10; MvArrive 1 up; MvArrive 1 down; MvDrive 1; MvDrive 1] in
  send_active (g_inner g) = Some 1%nat /\
  let c := Connection_new Server Config_default in
  state c = Stopped /\ handle (InSendAsdu [7]) 0 c = (set_pending [[7]] c, []).
Proof. vm_compute. done. Qed.
