(* ===== verification/FtService.v ===== *)
(** * The file-transfer service

    [file_transfer/service.rs], [provider.rs] and [events.rs] of the tokio
    crate: one task per connection that keeps a session of FileSession.v for
    each transfer, keyed by common address and name of file, routes incoming
    ASDUs and the user's requests to it, and carries out its actions with a
    storage provider. The provider is the user's: it is the class [Provider]
    of its operations over a state [W] of the storage, of which nothing is
    assumed, except for termination that a reader comes to an end. A reply
    channel is known by a number. *)

From S2P Require Import Prelude Bytes Codec AsduHeader InfoElements Asdu AsduFile FileSession.

(** ** Data *)

(** provider.rs 30-47, FileTransferConfig. *)
Record FileTransferConfig := mkFtConfig {
  ft_max_segment_bytes : nat; ft_max_section_bytes : Z; ft_idle_timeout : Duration;
  max_concurrent_sessions : nat; max_inbound_file_bytes : Z }.

(** provider.rs 49-61, FileTransferConfig::default. *)
Definition FileTransferConfig_default : FileTransferConfig :=
  mkFtConfig 240 4294967295 30000 8 (16 * 1024 * 1024).

(** provider.rs 65-81, FileTransferError. *)
Inductive FileTransferError :=
| NotFound (nof : NameOfFile)
| PermissionDenied
| FtIo
| InvalidState (msg : string)
| FtChecksumMismatch
| Collision (nof : NameOfFile)
| FtOther (msg : string).

(** provider.rs 130-138, FileMetadata. *)
Record FileMetadata := mkMetadata {
  md_length : Z; md_status : Sof; md_modified : Z; md_modified_cp56 : Cp56Time2a }.

(** provider.rs 112-115, DirectoryEntry. *)
Record ProviderEntry := mkProviderEntry { pe_nof : NameOfFile; pe_meta : FileMetadata }.

(** provider.rs 118-125, DirectoryEntry::into_wire. *)
Definition into_wire (e : ProviderEntry) : DirectoryEntry :=
  mkDirEntry (pe_nof e) (mkLof (md_length (pe_meta e))) (md_status (pe_meta e)) (md_modified_cp56 (pe_meta e)).

(** events.rs 33-36, FileTransferOutcome. *)
Inductive FileTransferOutcome := OutcomeCompleted (nbytes : Z) | OutcomeFailed (r : FailureReason).

(** events.rs 9-29, FileTransferEvent. *)
Inductive FileTransferEvent :=
| FteStarted (peer : CommonAddress) (nof : NameOfFile) (role : FtRole)
| FteSegmentTransferred (peer : CommonAddress) (nof : NameOfFile) (bytes_total : Z)
| FteFinished (peer : CommonAddress) (nof : NameOfFile) (outcome : FileTransferOutcome).

(** service.rs 122-134, Intent. *)
Inductive Intent :=
| IntentFetch (ca : CommonAddress) (nof : NameOfFile) (reply : nat)
| IntentPush (ca : CommonAddress) (nof : NameOfFile) (reply : nat).

(** provider.rs 84-108, FileTransferProvider. The traits of the provider, its
    readers and its writers; an error of a read or write is only logged. *)
Class Provider (W Reader Writer : Type) := {
  pv_lookup : NameOfFile -> W -> (option FileMetadata + FileTransferError) * W;
  pv_open_read : NameOfFile -> W -> (Reader + FileTransferError) * W;
  pv_open_write : NameOfFile -> Z -> W -> (Writer + FileTransferError) * W;
  pv_read_segment : Reader -> nat -> W -> (option bytes + FileTransferError) * Reader * W;
  pv_write_segment : Writer -> bytes -> W -> bool * Writer * W;
  pv_finalize : Writer -> bool -> W -> bool * W }.

(** The key of a session: common address and number of the file. *)
Abbreviation Key := (Z * Z)%type.

(** What the service does to the outside, in order. *)
Inductive SvOut :=
| SvSend (asdu : bytes)
| SvEvent (e : FileTransferEvent)
| SvReply (id : nat) (r : Z + FileTransferError)
| SvWrite (key : Key) (data : bytes) (ok : bool)
| SvFinalize (key : Key) (success ok : bool).

(** service.rs 570-581, failure_to_error. *)
Definition failure_to_error (reason : FailureReason) : FileTransferError :=
  match reason with
  | FtTimeout => FtOther "idle timeout"
  | PeerRejected => FtOther "peer rejected transfer"
  | LocallyRejected => FtOther "locally rejected transfer"
  | ChecksumMismatch => FtChecksumMismatch
  | ProtocolViolation => FtOther "protocol violation"
  | Aborted => FtOther "aborted"
  end.

(** service.rs 585-592, peek_nof. *)
Definition peek_nof (asdu : Asdu) : option NameOfFile :=
  match payload asdu with
  | _ :: _ :: _ :: b3 :: b4 :: _ => Some (mkNof (b3 + 256 * b4))
  | _ => None
  end.

Section Service.
Context `{BC : BytesCrate} {W Reader Writer : Type} `{PV : !Provider W Reader Writer}.
Context (config : FileTransferConfig) (clock : nat -> Instant).

(** service.rs 594-605, decode_ft_asdu. *)
Definition decode_ft_asdu (asdu : Asdu) : option SessionInput :=
  match type_id asdu with
  | 120 => FileReady <$> res_ok (decode_payload F_FR_NA_1 asdu IEC104)
  | 121 => SectionReady <$> res_ok (decode_payload F_SR_NA_1 asdu IEC104)
  | 122 => SelectCall <$> res_ok (decode_payload F_SC_NA_1 asdu IEC104)
  | 123 => LastSection <$> res_ok (decode_payload F_LS_NA_1 asdu IEC104)
  | 124 => AckFile <$> res_ok (decode_payload F_AF_NA_1 asdu IEC104)
  | 125 => Segment <$> res_ok (decode_payload F_SG_NA_1 asdu IEC104)
  | _ => None
  end.

(** service.rs 163-171, ActiveSession. *)
Record ActiveSession := mkActive {
  as_session : Session; as_ca : CommonAddress; as_reader : option Reader; as_writer : option Writer;
  as_reply : option nat; as_last_tick : Instant }.

(** service.rs 175-183, FileTransferService. The storage, the table, the
    number of clock readings and the effects so far. *)
Record Service := mkService {
  sv_prov : W; sv_sessions : gmap Key ActiveSession; sv_reads : nat; sv_log : list SvOut }.

Definition set_prov (w : W) (sv : Service) : Service :=
  mkService w (sv_sessions sv) (sv_reads sv) (sv_log sv).
Definition set_sessions (m : gmap Key ActiveSession) (sv : Service) : Service :=
  mkService (sv_prov sv) m (sv_reads sv) (sv_log sv).
Definition log (o : SvOut) (sv : Service) : Service :=
  mkService (sv_prov sv) (sv_sessions sv) (sv_reads sv) (sv_log sv ++ [o]).
(** [Instant::now()]. *)
Definition read_clock (sv : Service) : Instant * Service :=
  (clock (sv_reads sv), mkService (sv_prov sv) (sv_sessions sv) (S (sv_reads sv)) (sv_log sv)).
Definition set_session (s : Session) (a : ActiveSession) : ActiveSession :=
  mkActive s (as_ca a) (as_reader a) (as_writer a) (as_reply a) (as_last_tick a).
Definition set_reader (r : option Reader) (a : ActiveSession) : ActiveSession :=
  mkActive (as_session a) (as_ca a) r (as_writer a) (as_reply a) (as_last_tick a).
Definition set_writer (w : option Writer) (a : ActiveSession) : ActiveSession :=
  mkActive (as_session a) (as_ca a) (as_reader a) w (as_reply a) (as_last_tick a).
Definition set_last_tick (t : Instant) (a : ActiveSession) : ActiveSession :=
  mkActive (as_session a) (as_ca a) (as_reader a) (as_writer a) (as_reply a) t.

(** service.rs 206-212, FileTransferService::session_config. *)
Definition session_config : SessionConfig :=
  mkSessionConfig (ft_max_segment_bytes config) (ft_idle_timeout config) 0.

(** service.rs 479-490, FileTransferService::send. *)
Definition send_payload {P} `{!AsduPayload P} (ca : CommonAddress) (p : P) (sv : Service) : Service :=
  let asdu := from_payload (Cot_with FILE_TRANSFER) ca (Vsq_single 1) p IEC104 in
  log (SvSend (Asdu_encode asdu IEC104 [])) sv.

(** service.rs 492-514, FileTransferService::pump_reader. *)
Definition pump_reader (key : Key) (max_bytes : nat) (sv : Service) : list SessionAction * Service :=
  match sv_sessions sv !! key with
  | None => ([], sv)
  | Some active =>
      match as_reader active with
      | None => ([], sv)
      | Some r =>
          let '(res, r, w) := pv_read_segment r max_bytes (sv_prov sv) in
          let chunk := match res with inl (Some c) => c | inl None => [] | inr _ => [] end in
          let (now, sv) := read_clock (set_prov w sv) in
          let (s, acts) := step (SegmentReady chunk) now (as_session active) in
          (acts, set_sessions (<[key := set_session s (set_reader (Some r) active)]> (sv_sessions sv)) sv)
      end
  end.

(** service.rs 516-532, FileTransferService::deliver_segment. *)
Definition deliver_segment (key : Key) (data : bytes) (sv : Service) : Service :=
  match sv_sessions sv !! key with
  | None => sv
  | Some active =>
      let sv :=
        match as_writer active with
        | Some wr =>
            let '(ok, wr, w) := pv_write_segment wr data (sv_prov sv) in
            log (SvWrite key data ok)
              (set_sessions (<[key := set_writer (Some wr) active]> (sv_sessions sv)) (set_prov w sv))
        | None => sv
        end in
      log (SvEvent (FteSegmentTransferred key.1 (mkNof key.2) (as_u32 (Z.of_nat (length data))))) sv
  end.

(** service.rs 534-563, FileTransferService::finalize_session. *)
Definition finalize_session (key : Key) (outcome : FileTransferOutcome) (sv : Service) : Service :=
  match sv_sessions sv !! key with
  | None => sv
  | Some active =>
      let sv := set_sessions (delete key (sv_sessions sv)) sv in
      let success := match outcome with OutcomeCompleted _ => true | _ => false end in
      let sv :=
        match as_writer active with
        | Some wr =>
            let (ok, w) := pv_finalize wr success (sv_prov sv) in
            log (SvFinalize key success ok) (set_prov w sv)
        | None => sv
        end in
      let result :=
        match outcome with
        | OutcomeCompleted n => inl n
        | OutcomeFailed reason => inr (failure_to_error reason)
        end in
      let sv := match as_reply active with Some id => log (SvReply id result) sv | None => sv end in
      log (SvEvent (FteFinished key.1 (mkNof key.2) outcome)) sv
  end.

(** service.rs 453-475, FileTransferService::apply_actions (one action). What
    is added to the queue, and the service. *)
Definition apply_action (key : Key) (action : SessionAction) (sv : Service) : list SessionAction * Service :=
  match action with
  | SendFileReady a => ([], send_payload key.1 a sv)
  | SendSectionReady a => ([], send_payload key.1 a sv)
  | SendSelectCall a => ([], send_payload key.1 a sv)
  | SendLastSection a => ([], send_payload key.1 a sv)
  | SendAckFile a => ([], send_payload key.1 a sv)
  | SendSegment a => ([], send_payload key.1 a sv)
  | RequestNextSegment max_bytes => pump_reader key max_bytes sv
  | DeliverSegment data => ([], deliver_segment key data sv)
  | Completed n => ([], finalize_session key (OutcomeCompleted n) sv)
  | FailedWith reason => ([], finalize_session key (OutcomeFailed reason) sv)
  end.

(** service.rs 440-477, FileTransferService::apply_actions. [None] is a loop
    that has not ended within [fuel] actions. *)
Fixpoint sv_apply_actions (fuel : nat) (key : Key) (queue : list SessionAction) (sv : Service) : option Service :=
  match queue with
  | [] => Some sv
  | action :: queue =>
      match fuel with
      | O => None
      | S fuel =>
          let (extra, sv) := apply_action key action sv in
          sv_apply_actions fuel key (queue ++ extra) sv
      end
  end.

Definition refuse (id : nat) (e : FileTransferError) (sv : Service) : Service := log (SvReply id (inr e)) sv.

(** The two refusals both requests begin with. *)
Definition refused (key : Key) (sv : Service) : option FileTransferError :=
  if bool_decide (is_Some (sv_sessions sv !! key))
  then Some (InvalidState "another transfer is already in progress for this (ca, nof)")
  else if (max_concurrent_sessions config <=? size (sv_sessions sv))%nat
  then Some (InvalidState "max_concurrent_sessions reached")
  else None.

(** service.rs 239-262, FileTransferService::on_intent (a session that is
    opened: its first step, its place in the table, its first actions). *)
Definition open_session (fuel : nat) (key : Key) (role : FtRole) (length : Z) (reader : option Reader)
    (writer : option Writer) (reply : nat) (sv : Service) : option Service :=
  let (now, sv) := read_clock sv in
  let sv := log (SvEvent (FteStarted key.1 (mkNof key.2) role)) sv in
  let (s, acts) := step (Start length) now (Session_new role (mkNof key.2) session_config) in
  let active := mkActive s key.1 reader writer (Some reply) now in
  sv_apply_actions fuel key acts (set_sessions (<[key := active]> (sv_sessions sv)) sv).

(** service.rs 214-313, FileTransferService::on_intent. *)
Definition on_intent (fuel : nat) (intent : Intent) (sv : Service) : option Service :=
  match intent with
  | IntentFetch ca nof reply =>
      let key := (ca, nof_0 nof) in
      match refused key sv with
      | Some e => Some (refuse reply e sv)
      | None =>
          let (writer, w) := pv_open_write nof 0 (sv_prov sv) in
          let sv := set_prov w sv in
          match writer with
          | inr e => Some (refuse reply e sv)
          | inl writer => open_session fuel key Receiver 0 None (Some writer) reply sv
          end
      end
  | IntentPush ca nof reply =>
      let key := (ca, nof_0 nof) in
      match refused key sv with
      | Some e => Some (refuse reply e sv)
      | None =>
          let (meta, w) := pv_lookup nof (sv_prov sv) in
          let sv := set_prov w sv in
          match meta with
          | inl None => Some (refuse reply (NotFound nof) sv)
          | inr e => Some (refuse reply e sv)
          | inl (Some meta) =>
              let (reader, w) := pv_open_read nof (sv_prov sv) in
              let sv := set_prov w sv in
              match reader with
              | inr e => Some (refuse reply e sv)
              | inl reader => open_session fuel key Sender (md_length meta) (Some reader) None reply sv
              end
          end
      end
  end.

(** service.rs 361-374, FileTransferService::on_incoming (a passive session:
    its place in the table). *)
Definition add_passive (key : Key) (s : Session) (role : FtRole) (reader : option Reader) (writer : option Writer)
    (sv : Service) : Service :=
  let (now, sv) := read_clock sv in
  let sv := log (SvEvent (FteStarted key.1 (mkNof key.2) role)) sv in
  set_sessions (<[key := mkActive s key.1 reader writer None now]> (sv_sessions sv)) sv.

(** service.rs 337-375, FileTransferService::on_incoming (type 120). Whether
    there is a session now. *)
Definition accept_offer (key : Key) (asdu : Asdu) (sv : Service) : bool * Service :=
  match decode_payload F_FR_NA_1 asdu IEC104 with
  | Ok fr =>
      if max_inbound_file_bytes config <? lof_0 (fr_lof fr) then (false, sv)
      else
        let (writer, w) := pv_open_write (mkNof key.2) 0 (sv_prov sv) in
        let sv := set_prov w sv in
        match writer with
        | inr _ => (false, sv)
        | inl writer =>
            (true, add_passive key (Session_new Receiver (mkNof key.2) session_config) Receiver None (Some writer) sv)
        end
  | _ => (false, sv)
  end.

(** service.rs 376-412, FileTransferService::on_incoming (type 122). *)
Definition accept_select (key : Key) (sv : Service) : bool * Service :=
  let (meta, w) := pv_lookup (mkNof key.2) (sv_prov sv) in
  let sv := set_prov w sv in
  match meta with
  | inl (Some meta) =>
      let (reader, w) := pv_open_read (mkNof key.2) (sv_prov sv) in
      let sv := set_prov w sv in
      match reader with
      | inr _ => (false, sv)
      | inl reader =>
          let (now, sv) := read_clock sv in
          let (s, _) := step (Start (md_length meta)) now (Session_new Sender (mkNof key.2) session_config) in
          (true, add_passive key s Sender (Some reader) None sv)
      end
  | _ => (false, sv)
  end.

(** service.rs 322-415, FileTransferService::on_incoming (session lookup). *)
Definition find_or_create (key : Key) (asdu : Asdu) (sv : Service) : bool * Service :=
  if bool_decide (is_Some (sv_sessions sv !! key)) then (true, sv)
  else if (max_concurrent_sessions config <=? size (sv_sessions sv))%nat then (false, sv)
  else
    match type_id asdu with
    | 120 => accept_offer key asdu sv
    | 122 => accept_select key sv
    | _ => (false, sv)
    end.

(** service.rs 315-424, FileTransferService::on_incoming. *)
Definition on_incoming (fuel : nat) (ca : CommonAddress) (asdu : Asdu) (sv : Service) : option Service :=
  match peek_nof asdu with
  | None => Some sv
  | Some nof =>
      let key := (ca, nof_0 nof) in
      match find_or_create key asdu sv with
      | (false, sv) => Some sv
      | (true, sv) =>
          match decode_ft_asdu asdu with
          | None => Some sv
          | Some input =>
              match sv_sessions sv !! key with
              | None => Some sv (* expect: a session was inserted above *)
              | Some active =>
                  let (now, sv) := read_clock sv in
                  let (s, acts) := step input now (as_session active) in
                  let active := set_session s (set_last_tick now active) in
                  sv_apply_actions fuel key acts (set_sessions (<[key := active]> (sv_sessions sv)) sv)
              end
          end
      end
  end.

(** service.rs 429-437, FileTransferService::on_tick (loop). *)
Fixpoint tick_all (fuel : nat) (now : Instant) (keys : list Key) (sv : Service) : option Service :=
  match keys with
  | [] => Some sv
  | key :: keys =>
      match sv_sessions sv !! key with
      | None => tick_all fuel now keys sv
      | Some active =>
          let (s, acts) := step FtTick now (as_session active) in
          let sv := set_sessions (<[key := set_session s active]> (sv_sessions sv)) sv in
          match acts with
          | [] => tick_all fuel now keys sv
          | _ => sv_apply_actions fuel key acts sv ≫= tick_all fuel now keys
          end
      end
  end.

(** service.rs 426-438, FileTransferService::on_tick. The order in which a
    [HashMap] yields its keys is not specified: [keys] is that order. *)
Definition sv_on_tick (fuel : nat) (keys : list Key) (sv : Service) : option Service :=
  let (now, sv) := read_clock sv in tick_all fuel now keys sv.

(** What a turn of the [select!] loop of [run] takes. *)
Inductive SvInput :=
| SvIntent (i : Intent) | SvIncoming (ca : CommonAddress) (asdu : Asdu) | SvTick (keys : list Key).

(** service.rs 186-204, FileTransferService::run. *)
Definition sv_turn (fuel : nat) (i : SvInput) (sv : Service) : option Service :=
  match i with
  | SvIntent intent => on_intent fuel intent sv
  | SvIncoming ca asdu => on_incoming fuel ca asdu sv
  | SvTick keys => sv_on_tick fuel keys sv
  end.
Fixpoint sv_run (fuel : nat) (inputs : list SvInput) (sv : Service) : option Service :=
  match inputs with [] => Some sv | i :: inputs => sv_turn fuel i sv ≫= sv_run fuel inputs end.

(** service.rs 139-160, build. *)
Definition Service_new (w : W) : Service := mkService w ∅ 0 [].

(** ** The table *)

#[local] Arguments set_sessions : simpl never.
#[local] Arguments session_config : simpl never.

(** A session of the table is a run of the verified session machine, under the
    name of its key, and holds what its role needs. *)
Definition active_ok (key : Key) (a : ActiveSession) : Prop :=
  as_ca a = key.1 /\
  ∃ role ins acts,
    ft_session ins (Session_new role (mkNof key.2) session_config) = (as_session a, acts) /\
    match role with
    | Receiver => as_reader a = None /\ is_Some (as_writer a)
    | Sender => is_Some (as_reader a) /\ as_writer a = None
    end.

Definition open_ok (key : Key) (a : ActiveSession) : Prop :=
  active_ok key a /\ is_terminal (as_session a) = false.

(** While the actions of [key] are being carried out its session may have
    ended; then its end is still in the queue. *)
Definition busy_ok (key : Key) (queue : list SessionAction) (sv : Service) : Prop :=
  ∀ k a, sv_sessions sv !! k = Some a -> active_ok k a /\
    (is_terminal (as_session a) = true -> k = key /\ Exists (λ x, ends x = true) queue).

Definition table_ok (sv : Service) : Prop := map_Forall open_ok (sv_sessions sv).

(** One more step of a session in the table. *)
Lemma session_step key a i now s acts :
  active_ok key a -> step i now (as_session a) = (s, acts) ->
  active_ok key (set_session s a) /\
  (is_terminal s = true -> is_terminal (as_session a) = true \/ Exists (λ x, ends x = true) acts).
Proof.
  intros (Hca & role & ins & log & Hs & Hw) Hstep. split.
  - split; [done|]. exists role, (ins ++ [(i, now)]), (log ++ acts). split; [|done].
    rewrite ft_session_app, Hs. cbn [ft_session]. rewrite Hstep. by rewrite app_nil_r.
  - intros Ht. destruct (is_terminal (as_session a)) eqn:Ha; [by left|right].
    assert (ft_session (ins ++ [(i, now)]) (Session_new role (mkNof key.2) session_config) = (s, log ++ acts)) as Hs'.
    { rewrite ft_session_app, Hs. cbn [ft_session]. rewrite Hstep. by rewrite app_nil_r. }
    pose proof (end_inv_session _ _ _ _ _ _ Hs) as H. pose proof (end_inv_session _ _ _ _ _ _ Hs') as H'.
    unfold end_inv, is_terminal in *.
    assert (quiet log) as Hq by (by destruct (s_state (as_session a))).
    assert (∃ x, last (log ++ acts) = Some x /\ ends x = true) as (x & Hl & Hx).
    { destruct (s_state s); try done; destruct H' as (pre & y & -> & _); rewrite last_snoc; eauto. }
    destruct acts as [|y acts] using rev_ind.
    + rewrite app_nil_r in Hl. apply last_Some in Hl as [l' ->]. apply Forall_app in Hq as [_ Hq].
      rewrite Forall_singleton in Hq. congruence.
    + rewrite app_assoc, last_snoc in Hl. injection Hl as ->. apply Exists_app. right. by constructor.
Qed.

Lemma busy_insert key queue queue' a a' sv sv' :
  busy_ok key queue sv -> sv_sessions sv !! key = Some a -> sv_sessions sv' = <[key := a']> (sv_sessions sv) ->
  active_ok key a' -> (is_terminal (as_session a') = true -> Exists (λ x, ends x = true) queue') ->
  (Exists (λ x, ends x = true) queue -> Exists (λ x, ends x = true) queue') ->
  busy_ok key queue' sv'.
Proof.
  intros Hb Ha Hs Ha' Ht Hq k b. rewrite Hs. intros [[<- <-]|[Hne Hk]]%lookup_insert_Some; [by auto|].
  destruct (Hb _ _ Hk) as [Hok Hend]. split; [done|]. intros [? ?]%Hend. congruence.
Qed.

Lemma sessions_send {P} `{!AsduPayload P} ca (p : P) sv : sv_sessions (send_payload ca p sv) = sv_sessions sv.
Proof. done. Qed.

Lemma sessions_finalize key outcome sv :
  sv_sessions (finalize_session key outcome sv) = delete key (sv_sessions sv).
Proof.
  unfold finalize_session. destruct (sv_sessions sv !! key) as [a|] eqn:Ha; [|by rewrite delete_id].
  destruct (as_writer a); [destruct (pv_finalize _ _ _)|]; destruct (as_reply a); done.
Qed.

Lemma sessions_deliver key data sv :
  (sv_sessions (deliver_segment key data sv) = sv_sessions sv /\ sv_prov (deliver_segment key data sv) = sv_prov sv) \/
  ∃ a w, sv_sessions sv !! key = Some a /\ is_Some (as_writer a) /\
    sv_sessions (deliver_segment key data sv) = <[key := set_writer (Some w) a]> (sv_sessions sv).
Proof.
  unfold deliver_segment. destruct (sv_sessions sv !! key) as [a|] eqn:Ha; [|by left].
  destruct (as_writer a) as [wr|] eqn:Hw; [|by left]. destruct (pv_write_segment _ _ _) as [[ok wr'] w].
  right. exists a, wr'. split; [done|]. split; [by eexists|done].
Qed.

Lemma sessions_pump key max sv extra sv' :
  pump_reader key max sv = (extra, sv') ->
  (extra = [] /\ sv' = sv) \/
  ∃ a r r' w chunk now s, sv_sessions sv !! key = Some a /\ as_reader a = Some r /\
    pv_read_segment r max (sv_prov sv) = (chunk, r', w) /\
    step (SegmentReady (match chunk with inl (Some c) => c | _ => [] end)) now (as_session a) = (s, extra) /\
    sv_sessions sv' = <[key := set_session s (set_reader (Some r') a)]> (sv_sessions sv) /\ sv_log sv' = sv_log sv /\
    sv_prov sv' = w.
Proof.
  unfold pump_reader. destruct (sv_sessions sv !! key) as [a|] eqn:Ha; [|intros [= <- <-]; by left].
  destruct (as_reader a) as [r|] eqn:Hr; [|intros [= <- <-]; by left].
  destruct (pv_read_segment r max (sv_prov sv)) as [[chunk r'] w] eqn:Hp. simpl.
  destruct (step _ _ _) as [s acts] eqn:Hs. intros [= <- <-]. right.
  by exists a, r, r', w, chunk, (clock (sv_reads sv)), s.
Qed.

Lemma apply_action_busy key action queue sv extra sv' :
  busy_ok key (action :: queue) sv -> apply_action key action sv = (extra, sv') ->
  busy_ok key (queue ++ extra) sv'.
Proof.
  intros Hb. assert (∀ sv1, sv_sessions sv1 = sv_sessions sv -> ends action = false -> busy_ok key (queue ++ []) sv1) as Hsame.
  { intros sv1 Hs He k a Hk. rewrite Hs in Hk. destruct (Hb _ _ Hk) as [Hok Ht]. split; [done|].
    intros [-> Hex]%Ht. split; [done|]. rewrite app_nil_r. apply Exists_cons in Hex as [Hex|Hex]; [congruence|done]. }
  assert (∀ outcome, busy_ok key (queue ++ []) (finalize_session key outcome sv)) as Hfin.
  { intros outcome k a. rewrite sessions_finalize. intros [Hne Hk]%lookup_delete_Some.
    destruct (Hb _ _ Hk) as [Hok Ht]. split; [done|]. intros [? ?]%Ht. congruence. }
  destruct action; cbn [apply_action]; try (intros [= <- <-]; by apply Hsame);
    try (intros [= <- <-]; apply Hfin).
  - intros Hp. destruct (sessions_pump _ _ _ _ _ Hp) as [[-> ->]|(a & r & r' & w & chunk & now & s & Ha & Hr & _ & Hs & Hm & _ & _)];
      [by apply Hsame|].
    destruct (Hb _ _ Ha) as [Hok Hend]. destruct (session_step _ (set_reader (Some r') a) _ _ _ _ ltac:(
      destruct Hok as (? & role & ? & ? & ? & Hw); split; [done|]; exists role; do 2 eexists; split; [done|];
      destruct role; simpl; [by destruct Hw as [Hw _]; rewrite Hr in Hw|by destruct Hw]) Hs) as [Hok' Ht].
    eapply busy_insert; [exact Hb|exact Ha|exact Hm|done| |].
    + simpl. intros Hs'. apply Exists_app. destruct (Ht Hs') as [Hta|He]; [left|by right].
      destruct (Hend Hta) as [_ He]. apply Exists_cons in He as [He|He]; [done|done].
    + intros He. apply Exists_app. left. by apply Exists_cons in He as [He|He].
  - intros [= <- <-]. destruct (sessions_deliver key data sv) as [[Hs _]|(a & w & Ha & [wr Hwr] & Hs)]; [by apply Hsame|].
    destruct (Hb _ _ Ha) as [Hok Hend]. eapply busy_insert; [exact Hb|exact Ha|exact Hs| | |].
    + destruct Hok as (? & role & ins & acts & ? & Hw). split; [done|]. exists role, ins, acts. split; [done|].
      destruct role; simpl; [split; [apply Hw|by eexists]|]. destruct Hw as [_ Hw]. congruence.
    + simpl. intros [_ He]%Hend. rewrite app_nil_r. by apply Exists_cons in He as [He|He].
    + intros He. rewrite app_nil_r. by apply Exists_cons in He as [He|He].
Qed.

Lemma apply_actions_table fuel key queue sv sv' :
  busy_ok key queue sv -> sv_apply_actions fuel key queue sv = Some sv' -> table_ok sv'.
Proof.
  revert queue sv. induction fuel as [|fuel IH]; intros queue sv Hb; destruct queue as [|action queue]; cbn [sv_apply_actions];
    try done.
  1,2: intros [= <-] k a Hk; destruct (Hb _ _ Hk) as [Hok Ht]; split; [done|];
    destruct (is_terminal (as_session a)); [|done]; destruct (Ht eq_refl) as [_ He]; by apply Exists_nil in He.
  destruct (apply_action key action sv) as [extra sv1] eqn:Ha. apply IH. by eapply apply_action_busy.
Qed.

(** ** The accounts: each request is answered, each session ends *)

(** The identifiers of the replies, and the keys of the sessions announced as
    started and as finished. *)
Definition answered_in (l : list SvOut) : list nat :=
  omap (λ o, match o with SvReply id _ => Some id | _ => None end) l.
Definition started_in (l : list SvOut) : list Key :=
  omap (λ o, match o with SvEvent (FteStarted ca nof _) => Some (ca, nof_0 nof) | _ => None end) l.
Definition finished_in (l : list SvOut) : list Key :=
  omap (λ o, match o with SvEvent (FteFinished ca nof _) => Some (ca, nof_0 nof) | _ => None end) l.
Definition pending_in (m : gmap Key ActiveSession) : list nat := omap (λ p, as_reply p.2) (map_to_list m).
Definition keys_of (m : gmap Key ActiveSession) : list Key := (map_to_list m).*1.

Definition owed (sv : Service) : list nat := answered_in (sv_log sv) ++ pending_in (sv_sessions sv).
Definition opened (sv : Service) : list Key := finished_in (sv_log sv) ++ keys_of (sv_sessions sv).

(** [asked] has been asked for so far. *)
Definition account (asked : list nat) (sv : Service) : Prop :=
  asked ≡ₚ owed sv /\ started_in (sv_log sv) ≡ₚ opened sv.

(** From [sv] to [sv'] nothing is asked and nothing is opened. *)
Record settled (sv sv' : Service) : Prop := {
  st_owed : owed sv' ≡ₚ owed sv;
  st_opened : opened sv' ≡ₚ opened sv;
  st_started : started_in (sv_log sv') = started_in (sv_log sv);
  st_size : (size (sv_sessions sv') <= size (sv_sessions sv))%nat }.

#[local] Instance settled_preorder : PreOrder settled.
Proof.
  split; [by split|]. intros a b c [H1 H2 H3 H4] [H5 H6 H7 H8].
  split; [by rewrite H5|by rewrite H6|congruence|lia].
Qed.

Lemma settled_account asked sv sv' : settled sv sv' -> account asked sv -> account asked sv'.
Proof. intros [H1 H2 H3 _] [Ha Hs]. split; [by rewrite H1|by rewrite H3, H2]. Qed.

(** An effect that no account counts. *)
Definition neutral (o : SvOut) : bool :=
  match o with SvReply _ _ | SvEvent (FteStarted _ _ _) | SvEvent (FteFinished _ _ _) => false | _ => true end.

Lemma neutral_counts l : Forall (λ o, neutral o = true) l ->
  answered_in l = [] /\ started_in l = [] /\ finished_in l = [].
Proof.
  unfold answered_in, started_in, finished_in.
  induction 1 as [|o l Ho _ (IH1 & IH2 & IH3)]; [done|]. destruct o as [|[]| | |]; try done; simpl; done.
Qed.

Lemma pending_insert m k a : m !! k = None ->
  pending_in (<[k := a]> m) ≡ₚ option_list (as_reply a) ++ pending_in m /\ keys_of (<[k := a]> m) ≡ₚ k :: keys_of m.
Proof.
  intros H. unfold pending_in, keys_of. rewrite (map_to_list_insert m k a H). cbn. by destruct (as_reply a).
Qed.

Lemma pending_delete m k a : m !! k = Some a ->
  pending_in m ≡ₚ option_list (as_reply a) ++ pending_in (delete k m) /\ keys_of m ≡ₚ k :: keys_of (delete k m).
Proof.
  intros H. destruct (pending_insert (delete k m) k a) as [H1 H2]; [by rewrite lookup_delete_eq|].
  by rewrite insert_delete_id in H1, H2.
Qed.

Lemma settled_neutral extra sv sv' : sv_sessions sv' = sv_sessions sv -> sv_log sv' = sv_log sv ++ extra ->
  Forall (λ o, neutral o = true) extra -> settled sv sv'.
Proof.
  intros Hs Hl (Ha & Hb & Hc)%neutral_counts. unfold answered_in, started_in, finished_in in *.
  split; unfold owed, opened, answered_in, started_in, finished_in; rewrite ?Hs, ?Hl, ?omap_app, ?Ha, ?Hb, ?Hc, ?app_nil_r; done.
Qed.

Lemma settled_update key a a' extra sv sv' : sv_sessions sv !! key = Some a -> as_reply a' = as_reply a ->
  sv_sessions sv' = <[key := a']> (sv_sessions sv) -> sv_log sv' = sv_log sv ++ extra ->
  Forall (λ o, neutral o = true) extra -> settled sv sv'.
Proof.
  intros Hk Hr Hs Hl (Ha & Hb & Hc)%neutral_counts. unfold answered_in, started_in, finished_in in *.
  destruct (pending_delete _ _ _ Hk) as [H1 H2].
  destruct (pending_insert (delete key (sv_sessions sv)) key a') as [H3 H4]; [by rewrite lookup_delete_eq|].
  rewrite insert_delete_eq in H3, H4.
  split; unfold owed, opened, answered_in, started_in, finished_in; rewrite ?Hs, ?Hl, ?omap_app, ?Ha, ?Hb, ?Hc, ?app_nil_r.
  - by rewrite H3, Hr, <- H1.
  - by rewrite H4, <- H2.
  - done.
  - rewrite map_size_insert_Some by done. done.
Qed.

Lemma settled_deliver key data sv : settled sv (deliver_segment key data sv).
Proof.
  unfold deliver_segment. destruct (sv_sessions sv !! key) as [a|] eqn:Ha; [|done].
  destruct (as_writer a) as [wr|]; [destruct (pv_write_segment _ _ _) as [[ok wr'] w]|].
  - eapply (settled_update _ _ _ [_; _]); [exact Ha| |reflexivity|cbn; rewrite <- app_assoc; reflexivity|repeat constructor]. done.
  - eapply (settled_neutral [_]); [done|done|repeat constructor].
Qed.

(** The end of a session: its key leaves the table, its reply is sent. *)
Lemma settled_finalize key outcome sv : settled sv (finalize_session key outcome sv).
Proof.
  pose proof (sessions_finalize key outcome sv) as Hs. revert Hs.
  unfold finalize_session. destruct (sv_sessions sv !! key) as [a|] eqn:Ha; [|done].
  destruct (pending_delete _ _ _ Ha) as [H1 H2].
  set (pre := match as_writer a with Some _ => _ | None => _ end).
  assert (answered_in (sv_log pre) = answered_in (sv_log sv) /\ started_in (sv_log pre) = started_in (sv_log sv) /\
    finished_in (sv_log pre) = finished_in (sv_log sv)) as (Hp1 & Hp2 & Hp3).
  { subst pre. destruct (as_writer a); [destruct (pv_finalize _ _ _)|done]. cbn.
    unfold answered_in, started_in, finished_in. by rewrite !omap_app, !app_nil_r. }
  clearbody pre. intros Hs. unfold answered_in, started_in, finished_in in *.
  split; unfold owed, opened, answered_in, started_in, finished_in; rewrite ?Hs, ?H1, ?H2; clear Hs.
  - destruct (as_reply a); cbn; rewrite !omap_app, Hp1; cbn; rewrite ?app_nil_r; [|done].
    by rewrite <- app_assoc.
  - destruct (as_reply a); cbn; rewrite !omap_app, Hp3; cbn; rewrite ?app_nil_r, <- app_assoc; by destruct key.
  - destruct (as_reply a); cbn; rewrite !omap_app, Hp2; cbn; by rewrite !app_nil_r.
  - rewrite map_size_delete, Ha. lia.
Qed.

Lemma settled_action key action sv extra sv' : apply_action key action sv = (extra, sv') -> settled sv sv'.
Proof.
  destruct action; cbn [apply_action];
    try (intros [= <- <-]; eapply (settled_neutral [_]); [done|done|repeat constructor]);
    try (intros [= <- <-]; apply settled_finalize).
  - intros [[-> ->]|(a & r & r' & w & chunk & now & s & Ha & Hr & _ & Hs & Hm & Hl & _)]%sessions_pump; [done|].
    eapply (settled_update _ _ _ []); [exact Ha| |exact Hm|by rewrite app_nil_r|constructor]. done.
  - intros [= <- <-]. apply settled_deliver.
Qed.

Lemma settled_actions fuel key queue sv sv' : sv_apply_actions fuel key queue sv = Some sv' -> settled sv sv'.
Proof.
  revert queue sv. induction fuel as [|fuel IH]; intros [|action queue] sv; cbn [sv_apply_actions]; try done;
    try (intros [= <-]; done).
  destruct (apply_action key action sv) as [extra sv1] eqn:Ha. intros H%IH.
  etrans; [by eapply settled_action|done].
Qed.

(** ** The queue of actions is worked off *)

(** A reader of the storage has a number of octets left, and gives some of
    them or none. *)
Definition gives (left : Reader -> W -> nat) (n : nat) (given : (option bytes + FileTransferError) * Reader * W) : Prop :=
  match given with
  | (inl (Some (_ :: _)), r', w') => (left r' w' < n)%nat
  | (_, r', w') => (left r' w' <= n)%nat
  end.
Definition readers_end : Prop := ∃ left : Reader -> W -> nat, ∀ r n w, gives left (left r w) (pv_read_segment r n w).

Section Termination.
Context (left : Reader -> W -> nat).
Hypothesis reader_ends : ∀ r n w, gives left (left r w) (pv_read_segment r n w).

Definition key_left (key : Key) (sv : Service) : nat :=
  match sv_sessions sv !! key with
  | Some a => from_option (λ r, left r (sv_prov sv)) 0%nat (as_reader a)
  | None => 0%nat
  end.

(** A request of a segment stands for what its answer adds. *)
Definition action_weight (n : nat) (a : SessionAction) : nat :=
  match a with RequestNextSegment _ => 4 + 4 * n | _ => 1 end.
Definition queue_weight (n : nat) (queue : list SessionAction) : nat := list_sum (action_weight n <$> queue).

Lemma queue_weight_app n a b : queue_weight n (a ++ b) = (queue_weight n a + queue_weight n b)%nat.
Proof. unfold queue_weight. by rewrite fmap_app, list_sum_app. Qed.

Lemma queue_weight_mono n n' queue : (n' <= n)%nat -> (queue_weight n' queue <= queue_weight n queue)%nat.
Proof.
  intros H. unfold queue_weight, list_sum. induction queue as [|a queue IH]; cbn [fmap list_fmap foldr]; [done|].
  enough (action_weight n' a <= action_weight n a)%nat by lia. destruct a; cbn; lia.
Qed.

(** What a session makes of a segment. *)
Lemma segment_weight data now n s s' acts : s_actions s = [] -> step (SegmentReady data) now s = (s', acts) ->
  (queue_weight n acts <= match data with [] => 3 | _ => 4 * n + 6 end)%nat.
Proof.
  intros Ha Hs. unfold step in Hs. destruct (is_terminal s); [injection Hs as _ <-; cbn; destruct data; lia|].
  injection Hs as _ <-. destruct s as [ro nf st cf fl sl bt ch lp aw ac]. cbn in Ha. subst ac.
  unfold check_timeout, on_segment_ready, request_next_segment, fail_session.
  destruct data; destruct ro, st; cbn; repeat case_match; cbn; lia.
Qed.

(** A session that writes has no reader. *)
Lemma action_left key action queue sv extra sv' : busy_ok key queue sv -> apply_action key action sv = (extra, sv') ->
  match action with RequestNextSegment _ => True | _ => extra = [] /\ (key_left key sv' <= key_left key sv)%nat end.
Proof.
  intros Hb. destruct action; cbn [apply_action]; try done; try (intros [= <- <-]; done);
    intros [= <- <-]; (split; [done|]); unfold key_left; try (rewrite sessions_finalize, lookup_delete_eq; lia).
  destruct (sessions_deliver key data sv) as [[-> ->]|(a & w & Ha & [wr Hw] & ->)]; [done|].
  destruct (Hb _ _ Ha) as [(_ & role & _ & _ & _ & Hrole) _]. rewrite lookup_insert_eq. cbn.
  destruct role; [destruct Hrole as [-> _]; cbn; lia|destruct Hrole; congruence].
Qed.

Lemma apply_action_weight key action queue sv extra sv' : busy_ok key (action :: queue) sv ->
  apply_action key action sv = (extra, sv') ->
  (queue_weight (key_left key sv') (queue ++ extra) < queue_weight (key_left key sv) (action :: queue))%nat.
Proof.
  intros Hb Hact. pose proof (action_left _ _ _ _ _ _ Hb Hact) as Hl. rewrite queue_weight_app.
  change (queue_weight ?n (action :: queue)) with (action_weight n action + queue_weight n queue)%nat.
  assert ((key_left key sv' <= key_left key sv)%nat -> extra = [] ->
    (queue_weight (key_left key sv') queue + queue_weight (key_left key sv') extra <
     action_weight (key_left key sv) action + queue_weight (key_left key sv) queue)%nat) as Hquiet.
  { intros Hle ->. pose proof (queue_weight_mono _ _ queue Hle). assert (1 <= action_weight (key_left key sv) action)%nat
      by (destruct action; cbn; lia). cbn. lia. }
  destruct action; try (by apply Hquiet; apply Hl). cbn [apply_action] in Hact.
  apply sessions_pump in Hact as [[-> ->]|(a & r & r' & w & chunk & now & s & Ha & Hr & Hp & Hs & Hm & _ & Hw)]; [by apply Hquiet|].
  destruct (Hb _ _ Ha) as [(_ & role & ins & acts & Hrun & _) _]. apply session_held in Hrun.
  pose proof (reader_ends r max_bytes (sv_prov sv)) as He. rewrite Hp in He. unfold gives in He.
  assert (key_left key sv = left r (sv_prov sv) /\ key_left key sv' = left r' w) as [-> ->].
  { unfold key_left. rewrite Ha, Hm, lookup_insert_eq, Hw. cbn. by rewrite Hr. }
  pose proof (segment_weight _ _ (left r' w) _ _ _ Hrun Hs) as Hsw.
  assert (left r' w <= left r (sv_prov sv))%nat as Hle by (destruct chunk as [[[|]|]|]; lia).
  pose proof (queue_weight_mono _ _ queue Hle). cbn [action_weight]. destruct chunk as [[[|]|]|]; lia.
Qed.

Lemma sv_apply_actions_end fuel key queue sv : busy_ok key queue sv ->
  (queue_weight (key_left key sv) queue <= fuel)%nat -> is_Some (sv_apply_actions fuel key queue sv).
Proof.
  revert queue sv. induction fuel as [|fuel IH]; intros [|action queue] sv Hb Hw; cbn [sv_apply_actions]; try by eexists.
  - unfold queue_weight in Hw. cbn in Hw. destruct action; cbn in Hw; lia.
  - destruct (apply_action key action sv) as [extra sv'] eqn:Ha. apply IH; [by eapply apply_action_busy|].
    pose proof (apply_action_weight _ _ _ _ _ _ Hb Ha). lia.
Qed.

End Termination.

Lemma sv_apply_actions_mono fuel fuel' key queue sv sv' : (fuel <= fuel')%nat ->
  sv_apply_actions fuel key queue sv = Some sv' -> sv_apply_actions fuel' key queue sv = Some sv'.
Proof.
  revert fuel' queue sv. induction fuel as [|fuel IH]; intros fuel' [|action queue] sv Hle; cbn [sv_apply_actions]; try done;
    (destruct fuel' as [|fuel']; [lia||done|]); cbn [sv_apply_actions]; [done|done|].
  destruct (apply_action key action sv) as [extra sv1]. apply IH. lia.
Qed.

(** With enough fuel there is a result, and more fuel does not change it. *)
Definition settles {A} (f : nat -> option A) : Prop := ∃ n x, ∀ m, (n <= m)%nat -> f m = Some x.

Lemma settles_ret {A} (x : A) : settles (λ _, Some x).
Proof. by exists 0%nat, x. Qed.

Lemma settles_bind {A B} (f : nat -> option A) (g : nat -> A -> option B) : settles f ->
  (∀ n x, f n = Some x -> settles (λ m, g m x)) -> settles (λ m, f m ≫= g m).
Proof.
  intros (n & x & Hf) Hg. destruct (Hg n x) as (n' & y & Hy); [by apply Hf|].
  exists (n `max` n')%nat, y. intros m Hm. rewrite Hf by lia. cbn. apply Hy. lia.
Qed.

Lemma actions_settle key queue sv : readers_end -> busy_ok key queue sv ->
  settles (λ fuel, sv_apply_actions fuel key queue sv).
Proof.
  intros [left He] Hb. destruct (sv_apply_actions_end left He _ key queue sv Hb (reflexivity _)) as [sv' H].
  eexists _, sv'. intros m Hm. by eapply sv_apply_actions_mono.
Qed.

(** Between turns: the table is well formed and within its bound, and the
    accounts are right. *)
Definition service_ok (asked : list nat) (sv : Service) : Prop :=
  table_ok sv /\ (size (sv_sessions sv) <= max_concurrent_sessions config)%nat /\ account asked sv.

(** Whatever the fuel, the end of a turn is a good state; and there is one if
    the readers end. *)
Definition turn_ok (asked : list nat) (f : nat -> option Service) : Prop :=
  (∀ fuel sv, f fuel = Some sv -> service_ok asked sv) /\ (readers_end -> settles f).

Lemma turn_ok_ret asked sv : service_ok asked sv -> turn_ok asked (λ _, Some sv).
Proof. intros H. split; [by intros _ ? [= <-]|intros _; apply settles_ret]. Qed.

Lemma turn_ok_bind asked asked' f g : turn_ok asked f ->
  (∀ sv, service_ok asked sv -> turn_ok asked' (λ n, g n sv)) -> turn_ok asked' (λ n, f n ≫= g n).
Proof.
  intros [Hf Hs] Hg. split.
  - intros fuel sv. destruct (f fuel) as [sv1|] eqn:H1; [|done]. cbn. apply Hg. by eapply Hf.
  - intros He. apply settles_bind; [by apply Hs|]. intros n x Hx. apply Hg; [by eapply Hf|done].
Qed.

(** The same session of the table, up to its state and its last use. *)
Definition kin (a a' : ActiveSession) : Prop :=
  as_ca a' = as_ca a /\ as_reader a' = as_reader a /\ as_writer a' = as_writer a /\ as_reply a' = as_reply a.

(** A step of the session under [key], already in the table, and its actions. *)
Lemma actions_ok key asked a i now s acts a' sv1 sv :
  service_ok asked sv -> sv_sessions sv !! key = Some a -> step i now (as_session a) = (s, acts) ->
  as_session a' = s -> kin a a' -> sv_sessions sv1 = <[key := a']> (sv_sessions sv) -> sv_log sv1 = sv_log sv ->
  turn_ok asked (λ fuel, sv_apply_actions fuel key acts sv1).
Proof.
  intros (Ht & Hz & Hacc) Ha Hstep Hs1 (Hca & Hr & Hw & Hre) Hm Hl.
  assert (busy_ok key acts sv1) as Hb.
  { destruct (Ht _ _ Ha) as [Hok Hopen]. destruct (session_step _ _ _ _ _ _ Hok Hstep) as [Hok' Hend].
    eapply (busy_insert key [] acts); [|exact Ha|exact Hm| | |].
    - intros k b Hk. destruct (Ht _ _ Hk) as [? Hb]. split; [done|]. intros ?. congruence.
    - destruct Hok' as (? & role & ins & log & ? & ?). cbn in *. split; [by rewrite Hca|]. exists role, ins, log.
      by rewrite Hs1, Hr, Hw.
    - rewrite Hs1. intros [?|?]%Hend; [congruence|done].
    - by intros ?%Exists_nil. }
  split; [|intros He; by apply actions_settle]. intros fuel sv' Hrun.
  assert (settled sv sv') as Hset.
  { transitivity sv1; [|by eapply settled_actions]. eapply (settled_update _ _ _ []); try done. by rewrite app_nil_r. }
  split_and!; [by eapply apply_actions_table|destruct Hset; lia|by eapply settled_account].
Qed.

(** Effects that touch neither the table nor the log. *)
Lemma service_ok_same asked sv sv' : sv_sessions sv' = sv_sessions sv -> sv_log sv' = sv_log sv ->
  service_ok asked sv -> service_ok asked sv'.
Proof.
  intros Hs Hl (Ht & Hz & Ha). unfold service_ok, table_ok, account, owed, opened. by rewrite Hs, Hl.
Qed.

Lemma refuse_ok asked id e sv : service_ok asked sv -> service_ok (asked ++ [id]) (refuse id e sv).
Proof.
  intros (Ht & Hz & Ha & Hs). split_and!; [done|done|].
  unfold account, owed, opened, refuse, answered_in, started_in, finished_in in *. cbn in *.
  rewrite !omap_app. cbn. rewrite !app_nil_r. split; [|done]. rewrite Ha. cbn.
  rewrite <- !app_assoc. apply Permutation_app_head, Permutation_app_comm.
Qed.

(** A session is opened under a free key while there is room. *)
Lemma started_ok asked key a role sv sv' : service_ok asked sv -> sv_sessions sv !! key = None ->
  (size (sv_sessions sv) < max_concurrent_sessions config)%nat -> open_ok key a ->
  sv_sessions sv' = <[key := a]> (sv_sessions sv) ->
  sv_log sv' = sv_log sv ++ [SvEvent (FteStarted key.1 (mkNof key.2) role)] ->
  service_ok (asked ++ option_list (as_reply a)) sv'.
Proof.
  intros (Ht & Hz & Ha & Hs) Hk Hroom Hok Hm Hl. destruct (pending_insert _ _ a Hk) as [H1 H2].
  unfold service_ok, table_ok, account, owed, opened, answered_in, started_in, finished_in in *.
  rewrite Hm, Hl, !omap_app, H1, H2. cbn. rewrite !app_nil_r. split_and!.
  - by apply map_Forall_insert_2.
  - rewrite map_size_insert_None by done. lia.
  - rewrite Ha, <- app_assoc. apply Permutation_app_head, Permutation_app_comm.
  - rewrite Hs, <- app_assoc. apply Permutation_app_head. rewrite Permutation_app_comm. by destruct key.
Qed.

Lemma refused_none key sv : refused key sv = None ->
  sv_sessions sv !! key = None /\ (size (sv_sessions sv) < max_concurrent_sessions config)%nat.
Proof.
  unfold refused. case_bool_decide as Hk; [done|]. destruct (_ <=? _)%nat eqn:Hz; [done|]. intros _.
  apply Nat.leb_gt in Hz. split; [|done]. destruct (sv_sessions sv !! key); [|done]. destruct Hk. by eexists.
Qed.

(** What a session of a role holds. *)
Definition role_ok (role : FtRole) (reader : option Reader) (writer : option Writer) : Prop :=
  match role with
  | Receiver => reader = None /\ is_Some writer
  | Sender => is_Some reader /\ writer = None
  end.

Lemma open_session_ok asked key role len reader writer reply sv : service_ok asked sv ->
  sv_sessions sv !! key = None -> (size (sv_sessions sv) < max_concurrent_sessions config)%nat ->
  role_ok role reader writer ->
  turn_ok (asked ++ [reply]) (λ fuel, open_session fuel key role len reader writer reply sv).
Proof.
  intros Hok Hk Hroom Hrole. unfold open_session, read_clock. cbn [sv_reads].
  destruct (step _ _ _) as [s acts] eqn:Hs.
  set (a0 := mkActive (Session_new role (mkNof key.2) session_config) key.1 reader writer (Some reply) (clock (sv_reads sv))).
  set (sv0 := set_sessions (<[key := a0]> (sv_sessions sv)) (log (SvEvent (FteStarted key.1 (mkNof key.2) role)) sv)).
  assert (service_ok (asked ++ [reply]) sv0) as Hok0.
  { eapply (started_ok asked key a0 role sv); try done. split; [|by destruct role]. split; [done|]. by exists role, [], []. }
  eapply (actions_ok key _ a0 _ _ s acts (set_session s a0)); [exact Hok0|apply lookup_insert_eq|exact Hs|..]; try done.
  unfold sv0, set_sessions. cbn. by rewrite insert_insert_eq.
Qed.

Lemma on_intent_ok asked intent sv : service_ok asked sv ->
  turn_ok (asked ++ [match intent with IntentFetch _ _ id | IntentPush _ _ id => id end])
    (λ fuel, on_intent fuel intent sv).
Proof.
  intros Hok. destruct intent as [ca nof id|ca nof id]; cbn [on_intent];
    (destruct (refused _ _) as [e|] eqn:Hr; [by apply turn_ok_ret, refuse_ok|apply refused_none in Hr as [Hk Hroom]]).
  - destruct (pv_open_write _ _ _) as [[writer|e] w]; [|by apply turn_ok_ret, refuse_ok].
    apply (open_session_ok asked (ca, nof_0 nof)); [by apply (service_ok_same asked sv)|done|done|by split].
  - destruct (pv_lookup _ _) as [[[meta|]|e] w]; try (by apply turn_ok_ret, refuse_ok).
    cbn [set_prov sv_prov]. destruct (pv_open_read _ _) as [[reader|e] w']; [|by apply turn_ok_ret, refuse_ok].
    apply (open_session_ok asked (ca, nof_0 nof)); [by apply (service_ok_same asked sv)|done|done|by split].
Qed.

Lemma add_passive_ok asked key s role reader writer acts ins sv : service_ok asked sv ->
  sv_sessions sv !! key = None -> (size (sv_sessions sv) < max_concurrent_sessions config)%nat ->
  role_ok role reader writer -> ft_session ins (Session_new role (mkNof key.2) session_config) = (s, acts) ->
  is_terminal s = false -> service_ok asked (add_passive key s role reader writer sv).
Proof.
  intros Hok Hk Hroom Hrole Hs Hterm. pattern asked at 1. rewrite <- (app_nil_r asked).
  eapply (started_ok asked key (mkActive s key.1 reader writer None (clock (sv_reads sv))) role sv); try done.
  split; [|done]. split; [done|]. by exists role, ins, acts.
Qed.

(** A session is found or opened, or the table stays as it is: the [expect]
    of the caller holds. *)
Lemma find_or_create_ok asked key asdu sv found sv' : service_ok asked sv ->
  find_or_create key asdu sv = (found, sv') ->
  service_ok asked sv' /\ (found = true -> is_Some (sv_sessions sv' !! key)).
Proof.
  intros Hok. unfold find_or_create. case_bool_decide as Hk; [by intros [= <- <-]|].
  destruct (_ <=? _)%nat eqn:Hroom; [by intros [= <- <-]|]. apply Nat.leb_gt in Hroom.
  apply eq_None_not_Some in Hk.
  assert (∀ s role reader writer sv1, sv_sessions sv1 = sv_sessions sv -> sv_log sv1 = sv_log sv ->
    role_ok role reader writer -> (∃ ins acts, ft_session ins (Session_new role (mkNof key.2) session_config) = (s, acts)) ->
    is_terminal s = false -> service_ok asked (add_passive key s role reader writer sv1) /\
    (true = true -> is_Some (sv_sessions (add_passive key s role reader writer sv1) !! key))) as Hnew.
  { intros s role reader writer sv1 Hs Hl Hrole (ins & acts & Hrun) Hterm. split.
    - eapply add_passive_ok; [by eapply service_ok_same|by rewrite Hs|by rewrite Hs|done..].
    - intros _. unfold add_passive, set_sessions. cbn. rewrite lookup_insert_eq. by eexists. }
  assert (∀ sv1, sv_sessions sv1 = sv_sessions sv -> sv_log sv1 = sv_log sv ->
    service_ok asked sv1 /\ (false = true -> is_Some (sv_sessions sv1 !! key))) as Hno.
  { intros sv1 Hs Hl. split; [by eapply service_ok_same|done]. }
  assert (∀ b, (false, sv) = (b, sv') -> service_ok asked sv' /\ (b = true -> is_Some (sv_sessions sv' !! key))) as Hsame.
  { intros b [= <- <-]. by apply Hno. }
  destruct (Z.eq_dec (type_id asdu) 120) as [->|H120]; [|destruct (Z.eq_dec (type_id asdu) 122) as [->|H122]].
  - unfold accept_offer. destruct (decode_payload _ _ _) as [fr| |]; [|by apply Hsame..].
    destruct (_ <? _); [by apply Hsame|]. destruct (pv_open_write _ _ _) as [[writer|e] w]; intros [= <- <-].
    + apply Hnew; try done. by exists [], [].
    + by apply Hno.
  - unfold accept_select. destruct (pv_lookup _ _) as [[[meta|]|e] w]; [|intros [= <- <-]; by apply Hno..].
    cbn [set_prov sv_prov]. destruct (pv_open_read _ _) as [[reader|e] w']; [|intros [= <- <-]; by apply Hno].
    destruct (read_clock _) as [now sv2] eqn:Hc. injection Hc as <- <-.
    destruct (step _ _ _) as [s acts] eqn:Hs. intros [= <- <-]. apply Hnew; try done; [|by eapply start_open].
    exists [(Start (md_length meta), clock (sv_reads sv))], acts. cbn [ft_session]. cbn in Hs. rewrite Hs. by rewrite app_nil_r.
  - repeat (case_match; try done); by apply Hsame.
Qed.

Lemma on_incoming_ok asked ca asdu sv : service_ok asked sv -> turn_ok asked (λ fuel, on_incoming fuel ca asdu sv).
Proof.
  intros Hok. unfold on_incoming. destruct (peek_nof asdu) as [nof|]; [|by apply turn_ok_ret].
  destruct (find_or_create _ _ _) as [found sv1] eqn:Hf.
  destruct (find_or_create_ok _ _ _ _ _ _ Hok Hf) as [Hok1 Hsome].
  destruct found; [|by apply turn_ok_ret]. destruct (decode_ft_asdu asdu) as [input|]; [|by apply turn_ok_ret].
  destruct (Hsome eq_refl) as [a Ha]. rewrite Ha. destruct (read_clock sv1) as [now sv2] eqn:Hc. injection Hc as <- <-.
  destruct (step _ _ _) as [s acts] eqn:Hs.
  by eapply (actions_ok _ _ a _ _ s acts (set_session s (set_last_tick (clock (sv_reads sv1)) a)));
    [exact Hok1|exact Ha|exact Hs|..].
Qed.

Lemma tick_all_ok asked now keys sv : service_ok asked sv -> turn_ok asked (λ fuel, tick_all fuel now keys sv).
Proof.
  revert sv. induction keys as [|key keys IH]; intros sv Hok; cbn [tick_all]; [by apply turn_ok_ret|].
  destruct (sv_sessions sv !! key) as [a|] eqn:Ha; [|by apply IH].
  destruct (step FtTick now (as_session a)) as [s acts] eqn:Hs.
  assert (turn_ok asked (λ fuel,
    sv_apply_actions fuel key acts (set_sessions (<[key := set_session s a]> (sv_sessions sv)) sv))) as H1.
  { by eapply (actions_ok _ _ a _ _ s acts (set_session s a)); [exact Hok|exact Ha|exact Hs|..]. }
  destruct acts as [|x acts]; [|by apply (turn_ok_bind asked)]. apply IH. by apply (proj1 H1 0%nat).
Qed.

(** The requests among the inputs, by their reply channels. *)
Definition requested (inputs : list SvInput) : list nat :=
  omap (λ i, match i with SvIntent (IntentFetch _ _ id) | SvIntent (IntentPush _ _ id) => Some id | _ => None end) inputs.

Lemma sv_turn_ok asked i sv : service_ok asked sv -> turn_ok (asked ++ requested [i]) (λ fuel, sv_turn fuel i sv).
Proof.
  intros Hok. destruct i as [intent|ca asdu|keys]; cbn [sv_turn].
  - apply (on_intent_ok _ intent) in Hok. by destruct intent.
  - cbn. rewrite app_nil_r. by apply on_incoming_ok.
  - cbn. rewrite app_nil_r. unfold sv_on_tick. cbn. apply tick_all_ok. by apply (service_ok_same asked sv).
Qed.

Lemma sv_run_ok asked inputs sv : service_ok asked sv -> turn_ok (asked ++ requested inputs) (λ fuel, sv_run fuel inputs sv).
Proof.
  revert asked sv. induction inputs as [|i inputs IH]; intros asked sv Hok; cbn [sv_run].
  - rewrite app_nil_r. by apply turn_ok_ret.
  - apply (turn_ok_bind (asked ++ requested [i])); [by apply sv_turn_ok|]. intros sv1 H1.
    specialize (IH _ _ H1). unfold requested in *. by rewrite <- app_assoc, <- omap_app in IH.
Qed.

Lemma Service_new_ok w : service_ok [] (Service_new w).
Proof. split_and!; [apply map_Forall_empty|cbn; rewrite map_size_empty; lia|]. split; done. Qed.

Lemma service_run_ok inputs w : turn_ok (requested inputs) (λ fuel, sv_run fuel inputs (Service_new w)).
Proof. apply (sv_run_ok []), Service_new_ok. Qed.

(** C26. At every moment between turns of a service that began with an empty
    table, whatever its storage did and whatever was asked and received: the
    table holds no more sessions than configured; each of its sessions is the
    state a run of the session machine from [Session::new] reaches, under the
    address and name of its key, in the role whose reader or writer it holds,
    and has not ended. *)
Theorem service_table fuel inputs w sv :
  sv_run fuel inputs (Service_new w) = Some sv ->
  (size (sv_sessions sv) <= max_concurrent_sessions config)%nat /\
  ∀ ca nof a, sv_sessions sv !! (ca, nof) = Some a ->
    as_ca a = ca /\ is_terminal (as_session a) = false /\
    ∃ role ins acts, ft_session ins (Session_new role (mkNof nof) session_config) = (as_session a, acts) /\
      role_ok role (as_reader a) (as_writer a).
Proof.
  intros (Ht & Hz & _)%(proj1 (service_run_ok inputs w)). split; [done|].
  intros ca nof a ([Hca Hex] & Hterm)%Ht. split_and!; done.
Qed.

(** C15. Every request is answered exactly once: the reply channels of the
    fetches and pushes so far are, counted with multiplicity, those that got
    a reply and those of the sessions in the table; and every session that
    was announced as started is either in the table or was announced as
    finished, once. *)
Theorem service_answers fuel inputs w sv :
  sv_run fuel inputs (Service_new w) = Some sv ->
  requested inputs ≡ₚ answered_in (sv_log sv) ++ pending_in (sv_sessions sv) /\
  started_in (sv_log sv) ≡ₚ finished_in (sv_log sv) ++ keys_of (sv_sessions sv).
Proof. intros (_ & _ & Ha)%(proj1 (service_run_ok inputs w)). exact Ha. Qed.

(** The service never hangs on its work queue: when every reader of the
    storage comes to an end (each segment it yields leaves less to read), a
    run of turns over any inputs comes to a result, which more fuel does not
    change; the loop of [apply_actions] terminates although the answer to a
    request for a segment is a new request. *)
Theorem service_turns_end inputs w :
  readers_end ->
  ∃ n sv, ∀ fuel, (n <= fuel)%nat -> sv_run fuel inputs (Service_new w) = Some sv.
Proof. intros He. exact (proj2 (service_run_ok inputs w) He). Qed.

(** ** The effects are never taken back *)

Definition log_grows (sv sv' : Service) : Prop := sv_log sv `prefix_of` sv_log sv'.

#[local] Instance log_grows_preorder : PreOrder log_grows.
Proof. unfold log_grows. split; [by intros ?|]. intros a b c. by etrans. Qed.

Lemma log_grows_eq sv sv' : sv_log sv' = sv_log sv -> log_grows sv sv'.
Proof. unfold log_grows. by intros ->. Qed.
Lemma log_grows_app sv sv' extra : sv_log sv' = sv_log sv ++ extra -> log_grows sv sv'.
Proof. unfold log_grows. intros ->. by apply prefix_app_r. Qed.
(** One more effect after those of [sv1]. *)
Lemma log_grows_log o sv sv1 : log_grows sv sv1 -> log_grows sv (log o sv1).
Proof. intros H. etrans; [exact H|]. by eapply log_grows_app. Qed.

Lemma log_grows_finalize key outcome sv : log_grows sv (finalize_session key outcome sv).
Proof.
  unfold finalize_session. destruct (sv_sessions sv !! key) as [a|]; [|done].
  apply log_grows_log. destruct (as_reply a) as [id|]; [apply log_grows_log|];
    (destruct (as_writer a) as [wr0|]; [|by apply log_grows_eq]; destruct (pv_finalize _ _ _) as [ok w];
     apply log_grows_log; by apply log_grows_eq).
Qed.

Lemma log_grows_action key action sv extra sv' : apply_action key action sv = (extra, sv') -> log_grows sv sv'.
Proof.
  destruct action; cbn [apply_action]; try (intros [= <- <-]; by eapply log_grows_app).
  - intros [[-> ->]|(a & r & r' & w & chunk & now & s & _ & _ & _ & _ & _ & Hl & _)]%sessions_pump; [done|].
    by apply log_grows_eq.
  - intros [= <- <-]. unfold deliver_segment. destruct (sv_sessions sv !! key) as [a|]; [|done].
    apply log_grows_log. destruct (as_writer a) as [wr0|]; [|done]. destruct (pv_write_segment _ _ _) as [[ok wr] w].
    apply log_grows_log. by apply log_grows_eq.
  - intros [= <- <-]. apply log_grows_finalize.
  - intros [= <- <-]. apply log_grows_finalize.
Qed.

Lemma log_grows_actions fuel key queue sv sv' : sv_apply_actions fuel key queue sv = Some sv' -> log_grows sv sv'.
Proof.
  revert queue sv. induction fuel as [|fuel IH]; intros [|action queue] sv; cbn [sv_apply_actions]; try done;
    try (intros [= <-]; done).
  destruct (apply_action key action sv) as [extra sv1] eqn:Ha. intros H%IH. etrans; [by eapply log_grows_action|done].
Qed.

Lemma log_grows_intent fuel intent sv sv' : on_intent fuel intent sv = Some sv' -> log_grows sv sv'.
Proof.
  assert (∀ id e sv1, log_grows sv sv1 -> Some (refuse id e sv1) = Some sv' -> log_grows sv sv') as Hr.
  { intros id e sv1 H [= <-]. by apply log_grows_log. }
  assert (∀ key role len r w id sv1, sv_log sv1 = sv_log sv -> open_session fuel key role len r w id sv1 = Some sv' ->
    log_grows sv sv') as Ho.
  { intros key role len r w id sv1 H. unfold open_session, read_clock. destruct (step _ _ _) as [s acts].
    intros Ha%log_grows_actions. etrans; [|exact Ha]. by eapply log_grows_app; cbn; rewrite H. }
  destruct intent as [ca nof id|ca nof id]; cbn [on_intent]; (destruct (refused _ _); [by apply Hr|]).
  - destruct (pv_open_write _ _ _) as [[wr|e] w]; [by apply Ho|by apply Hr, log_grows_eq].
  - destruct (pv_lookup _ _) as [[[meta|]|e] w]; [|by apply Hr, log_grows_eq..].
    destruct (pv_open_read _ _) as [[rd|e] w']; [by apply Ho|by apply Hr, log_grows_eq].
Qed.

Lemma log_grows_find key asdu sv found sv' : find_or_create key asdu sv = (found, sv') -> log_grows sv sv'.
Proof.
  unfold find_or_create. case_bool_decide as Hk; [by intros [= _ <-]|]. destruct (_ <=? _)%nat; [by intros [= _ <-]|].
  assert (∀ b, (b, sv) = (found, sv') -> log_grows sv sv') as Hsame by (by intros b [= _ <-]).
  assert (∀ s role r w sv1, sv_log sv1 = sv_log sv -> log_grows sv (add_passive key s role r w sv1)) as Hnew.
  { intros s role r w sv1 H. unfold add_passive. cbn. by eapply log_grows_app; cbn; rewrite H. }
  destruct (Z.eq_dec (type_id asdu) 120) as [->|H120]; [|destruct (Z.eq_dec (type_id asdu) 122) as [->|H122]].
  - unfold accept_offer. destruct (decode_payload _ _ _); [|by eapply Hsame..]. destruct (_ <? _); [by eapply Hsame|].
    destruct (pv_open_write _ _ _) as [[wr|e] w]; intros [= _ <-]; [by apply Hnew|by apply log_grows_eq].
  - unfold accept_select. destruct (pv_lookup _ _) as [[[meta|]|e] w]; [|intros [= _ <-]; by apply log_grows_eq..].
    destruct (pv_open_read _ _) as [[rd|e] w']; [|intros [= _ <-]; by apply log_grows_eq].
    destruct (read_clock _) as [now sv2] eqn:Hc. injection Hc as <- <-.
    destruct (step _ _ _) as [s acts]. intros [= _ <-]. by apply Hnew.
  - repeat (case_match; try done); by eapply Hsame.
Qed.

Lemma log_grows_tick fuel now keys sv sv' : tick_all fuel now keys sv = Some sv' -> log_grows sv sv'.
Proof.
  revert sv. induction keys as [|key keys IH]; intros sv; cbn [tick_all]; [by intros [= <-]|].
  destruct (sv_sessions sv !! key) as [a|]; [|apply IH]. destruct (step FtTick now (as_session a)) as [s [|x acts]].
  - intros H%IH. etrans; [|exact H]. by apply log_grows_eq.
  - destruct (sv_apply_actions _ _ _ _) as [sv1|] eqn:Ha; [|done]. cbn. intros H%IH. etrans; [|exact H].
    apply log_grows_actions in Ha. etrans; [|exact Ha]. by apply log_grows_eq.
Qed.

Lemma log_grows_turn fuel i sv sv' : sv_turn fuel i sv = Some sv' -> log_grows sv sv'.
Proof.
  destruct i as [intent|ca asdu|keys]; cbn [sv_turn].
  - apply log_grows_intent.
  - unfold on_incoming. destruct (peek_nof asdu) as [nof|]; [|by intros [= <-]].
    destruct (find_or_create _ _ _) as [found sv1] eqn:Hf. apply log_grows_find in Hf.
    destruct found; [|by intros [= <-]]. destruct (decode_ft_asdu asdu) as [input|]; [|by intros [= <-]].
    destruct (sv_sessions sv1 !! _) as [a|]; [|by intros [= <-]]. destruct (read_clock sv1) as [now sv2] eqn:Hc.
    injection Hc as <- <-. destruct (step _ _ _) as [s acts]. intros Ha%log_grows_actions.
    etrans; [exact Hf|]. etrans; [|exact Ha]. by apply log_grows_eq.
  - unfold sv_on_tick. cbn. intros H%log_grows_tick. etrans; [|exact H]. by apply log_grows_eq.
Qed.

(** ** Progress: a silent transfer is given up *)

Lemma apply_action_other key k action sv extra sv' : k ≠ key -> apply_action key action sv = (extra, sv') ->
  sv_sessions sv' !! k = sv_sessions sv !! k.
Proof.
  intros Hk. destruct action; cbn [apply_action]; try (intros [= <- <-]; done);
    try (intros [= <- <-]; rewrite sessions_finalize; by rewrite lookup_delete_ne).
  - intros [[-> ->]|(a & r & r' & w & chunk & now & s & _ & _ & _ & _ & -> & _ & _)]%sessions_pump; [done|].
    by rewrite lookup_insert_ne.
  - intros [= <- <-]. destruct (sessions_deliver key data sv) as [[-> _]|(a & w & _ & _ & ->)]; [done|].
    by rewrite lookup_insert_ne.
Qed.

Lemma apply_actions_other fuel key k queue sv sv' : k ≠ key -> sv_apply_actions fuel key queue sv = Some sv' ->
  sv_sessions sv' !! k = sv_sessions sv !! k.
Proof.
  intros Hk. revert queue sv. induction fuel as [|fuel IH]; intros [|action queue] sv; cbn [sv_apply_actions]; try done;
    try (by intros [= <-]).
  destruct (apply_action key action sv) as [extra sv1] eqn:Ha. intros ->%IH. by eapply apply_action_other.
Qed.

Lemma apply_action_log key action sv extra sv' : apply_action key action sv = (extra, sv') ->
  sv_log sv `prefix_of` sv_log sv'.
Proof.
  destruct action; cbn [apply_action]; try (intros [= <- <-]; by eexists).
  - by intros [[-> ->]|(? & ? & ? & ? & ? & ? & ? & _ & _ & _ & _ & _ & -> & _)]%sessions_pump.
  - intros [= <- <-]. unfold deliver_segment. destruct (sv_sessions sv !! key) as [a|]; [|done].
    destruct (as_writer a); [destruct (pv_write_segment _ _ _) as [[? ?] ?]|]; cbn; rewrite <- ?app_assoc; by eexists.
  - intros [= <- <-]. unfold finalize_session. destruct (sv_sessions sv !! key) as [a|]; [|done].
    destruct (as_writer a); [destruct (pv_finalize _ _ _)|]; destruct (as_reply a); cbn; rewrite <- ?app_assoc; by eexists.
  - intros [= <- <-]. unfold finalize_session. destruct (sv_sessions sv !! key) as [a|]; [|done].
    destruct (as_writer a); [destruct (pv_finalize _ _ _)|]; destruct (as_reply a); cbn; rewrite <- ?app_assoc; by eexists.
Qed.

Lemma apply_actions_log fuel key queue sv sv' : sv_apply_actions fuel key queue sv = Some sv' ->
  sv_log sv `prefix_of` sv_log sv'.
Proof.
  revert queue sv. induction fuel as [|fuel IH]; intros [|action queue] sv; cbn [sv_apply_actions]; try done;
    try (by intros [= <-]).
  destruct (apply_action key action sv) as [extra sv1] eqn:Ha. intros H%IH. etrans; [by eapply apply_action_log|done].
Qed.

(** The session under [key] was given up: it left the table, and the peer's
    silence was reported. *)
Definition given_up (key : Key) (a : ActiveSession) (sv : Service) : Prop :=
  sv_sessions sv !! key = None /\
  SvEvent (FteFinished key.1 (mkNof key.2) (OutcomeFailed FtTimeout)) ∈ sv_log sv /\
  ∀ id, as_reply a = Some id -> SvReply id (inr (FtOther "idle timeout")) ∈ sv_log sv.

Lemma finalize_given_up key a sv : sv_sessions sv !! key = Some a ->
  given_up key a (finalize_session key (OutcomeFailed FtTimeout) sv).
Proof.
  intros Ha. split; [by rewrite sessions_finalize, lookup_delete_eq|].
  unfold finalize_session. rewrite Ha. split.
  - cbn. apply elem_of_app. right. by constructor.
  - intros id Hid. rewrite Hid. cbn. apply elem_of_app. left. apply elem_of_app. right. by constructor.
Qed.

Lemma tick_all_given_up fuel now keys key a sv sv' : given_up key a sv -> tick_all fuel now keys sv = Some sv' ->
  given_up key a sv'.
Proof.
  revert sv. induction keys as [|k keys IH]; intros sv Hg; cbn [tick_all]; [by intros [= <-]|].
  destruct (sv_sessions sv !! k) as [b|] eqn:Hb; [|by apply IH].
  assert (key ≠ k) as Hne by (destruct Hg as [Hg _]; congruence).
  assert (∀ acts s sv1, sv_apply_actions fuel k acts (set_sessions (<[k := set_session s b]> (sv_sessions sv)) sv) = Some sv1 ->
    given_up key a sv1) as Hk.
  { intros acts s sv1 Hrun. pose proof (apply_actions_other _ _ _ _ _ _ Hne Hrun) as Hs. apply apply_actions_log in Hrun.
    destruct Hg as (Hg & Hf & Hr). split; [rewrite Hs; unfold set_sessions; cbn; by rewrite lookup_insert_ne|].
    split; [|intros id Hid]; eapply elem_of_prefix; [by apply Hf|done|by apply Hr|done]. }
  destruct (step FtTick now (as_session b)) as [s acts]. destruct acts as [|x acts].
  - apply IH. apply (Hk [] s). by destruct fuel.
  - destruct (sv_apply_actions _ _ _ _) as [sv1|] eqn:Hrun; [|done]. cbn. apply IH. by eapply Hk.
Qed.

Lemma tick_all_expires fuel now keys key a sv sv' : key ∈ keys -> sv_sessions sv !! key = Some a ->
  (step FtTick now (as_session a)).2 = [FailedWith FtTimeout] ->
  tick_all fuel now keys sv = Some sv' -> given_up key a sv'.
Proof.
  revert sv. induction keys as [|k keys IH]; intros sv Hin Ha Ht; [by apply not_elem_of_nil in Hin|]. cbn [tick_all].
  destruct (decide (k = key)) as [->|Hne].
  - rewrite Ha. destruct (step FtTick now (as_session a)) as [s acts]. cbn in Ht. subst acts.
    destruct fuel as [|fuel]; [done|]. cbn [sv_apply_actions apply_action].
    replace (sv_apply_actions fuel key ([] ++ []) _) with
      (Some (finalize_session key (OutcomeFailed FtTimeout) (set_sessions (<[key := set_session s a]> (sv_sessions sv)) sv)))
      by (by destruct fuel). cbn. apply tick_all_given_up.
    apply (finalize_given_up _ (set_session s a)). unfold set_sessions. cbn. apply lookup_insert_eq.
  - apply elem_of_cons in Hin as [->|Hin]; [done|]. destruct (sv_sessions sv !! k) as [b|]; [|by apply IH].
    destruct (step FtTick now (as_session b)) as [s acts].
    assert (∀ sv1, sv_apply_actions fuel k acts (set_sessions (<[k := set_session s b]> (sv_sessions sv)) sv) = Some sv1 ->
      sv_sessions sv1 !! key = Some a) as Hk.
    { intros sv1 ->%(apply_actions_other _ _ key); [|done]. unfold set_sessions. cbn. by rewrite lookup_insert_ne. }
    destruct acts as [|x acts]; [apply IH; try done; apply Hk; by destruct fuel|].
    destruct (sv_apply_actions _ _ _ _) as [sv1|]; [|done]. cbn. apply IH; try done. by apply Hk.
Qed.


(** No session of the table is in [Idle] between turns. *)
Definition awake (sv : Service) : Prop := map_Forall (λ _ a, s_state (as_session a) ≠ FtIdle) (sv_sessions sv).

Lemma apply_action_awake key action sv extra sv' : awake sv -> apply_action key action sv = (extra, sv') -> awake sv'.
Proof.
  unfold awake. intros Hs. destruct action; cbn [apply_action]; try (intros [= <- <-]; done);
    try (intros [= <- <-]; rewrite sessions_finalize; by apply map_Forall_delete).
  - intros [[-> ->]|(a & r & r' & w & chunk & now & s & Ha & _ & _ & Hstep & -> & _ & _)]%sessions_pump; [done|].
    apply map_Forall_insert_2; [|done]. eapply step_awake; [exact Hstep|by apply (Hs key)].
  - intros [= <- <-]. destruct (sessions_deliver key data sv) as [[-> _]|(a & w & Ha & _ & ->)]; [done|].
    apply map_Forall_insert_2; [|done]. exact (Hs key a Ha).
Qed.

Lemma apply_actions_awake fuel key queue sv sv' : awake sv -> sv_apply_actions fuel key queue sv = Some sv' -> awake sv'.
Proof.
  revert queue sv. induction fuel as [|fuel IH]; intros [|action queue] sv Hs; cbn [sv_apply_actions]; try done;
    try (by intros [= <-]).
  destruct (apply_action key action sv) as [extra sv1] eqn:Ha. apply IH. by eapply apply_action_awake.
Qed.

Lemma open_session_awake fuel key role len reader writer reply sv sv' : awake sv ->
  open_session fuel key role len reader writer reply sv = Some sv' -> awake sv'.
Proof.
  intros Hs. unfold open_session. cbn. destruct (step _ _ _) as [s acts] eqn:Hstep. apply apply_actions_awake.
  apply map_Forall_insert_2; [|done]. by eapply start_awake.
Qed.

Lemma on_intent_awake fuel intent sv sv' : awake sv -> on_intent fuel intent sv = Some sv' -> awake sv'.
Proof.
  intros Hs. destruct intent as [ca nof id|ca nof id]; cbn [on_intent]; (destruct (refused _ _); [by intros [= <-]|]).
  - destruct (pv_open_write _ _ _) as [[?|?] w]; [by apply open_session_awake|by intros [= <-]].
  - destruct (pv_lookup _ _) as [[[meta|]|e] w]; [|by intros [= <-]..].
    destruct (pv_open_read _ _) as [[?|?] w']; [by apply open_session_awake|by intros [= <-]].
Qed.

(** A session found or opened leaves [Idle] with the ASDU that is routed to
    it; one that was offered a file does so by failing. *)
Lemma find_or_create_awake key asdu sv found sv' : awake sv -> find_or_create key asdu sv = (found, sv') ->
  awake sv' \/
  ∃ fr a m, found = true /\ decode_ft_asdu asdu = Some (FileReady fr) /\ sv_sessions sv' = <[key := a]> m /\
    map_Forall (λ _ b, s_state (as_session b) ≠ FtIdle) m /\
    as_session a = Session_new Receiver (mkNof key.2) session_config.
Proof.
  intros Hs. unfold find_or_create. case_bool_decide; [intros [= <- <-]; by left|].
  destruct (_ <=? _)%nat; [intros [= <- <-]; by left|].
  destruct (Z.eq_dec (type_id asdu) 120) as [Hid|H120]; [|destruct (Z.eq_dec (type_id asdu) 122) as [->|H122]].
  - rewrite Hid. unfold accept_offer. destruct (decode_payload _ _ _) as [fr| |] eqn:Hd; [|intros [= <- <-]; by left..].
    destruct (_ <? _); [intros [= <- <-]; by left|]. destruct (pv_open_write _ _ _) as [[writer|e] w]; intros [= <- <-]; [|by left].
    right. eexists fr, _, _. split; [done|]. split; [unfold decode_ft_asdu; by rewrite Hid, Hd|]. split; [reflexivity|done].
  - unfold accept_select. destruct (pv_lookup _ _) as [[[meta|]|e] w]; [|intros [= <- <-]; by left..].
    destruct (pv_open_read _ _) as [[reader|e] w']; [|intros [= <- <-]; by left].
    destruct (read_clock _) as [now sv2] eqn:Hc. injection Hc as <- <-. destruct (step _ _ _) as [s acts] eqn:Hstep.
    intros [= <- <-]. left. apply map_Forall_insert_2; [|done]. by eapply start_awake.
  - repeat (case_match; try done); intros [= <- <-]; by left.
Qed.

Lemma on_incoming_awake fuel ca asdu sv sv' : awake sv -> on_incoming fuel ca asdu sv = Some sv' -> awake sv'.
Proof.
  intros Hs. unfold on_incoming. destruct (peek_nof asdu) as [nof|]; [|by intros [= <-]].
  destruct (find_or_create _ _ _) as [found sv1] eqn:Hf.
  destruct (find_or_create_awake _ _ _ _ _ Hs Hf) as [H1|(fr & a & m & -> & -> & Hm & Hall & Ha)].
  - destruct found; [|by intros [= <-]]. destruct (decode_ft_asdu asdu) as [input|]; [|by intros [= <-]].
    destruct (sv_sessions sv1 !! _) as [a|] eqn:Ha; [|by intros [= <-]]. cbn.
    destruct (step _ _ _) as [s acts] eqn:Hstep. apply apply_actions_awake. apply map_Forall_insert_2; [|done].
    eapply step_awake; [exact Hstep|by apply (H1 _ _ Ha)].
  - rewrite Hm, lookup_insert_eq, Ha. cbn [read_clock].
    destruct (step _ _ _) as [s acts] eqn:Hstep. apply apply_actions_awake. unfold awake, set_sessions. cbn.
    rewrite Hm, insert_insert_eq. apply map_Forall_insert_2; [|done]. by injection Hstep as <- _.
Qed.

Lemma tick_all_awake fuel now keys sv sv' : awake sv -> tick_all fuel now keys sv = Some sv' -> awake sv'.
Proof.
  revert sv. induction keys as [|k keys IH]; intros sv Hs; cbn [tick_all]; [by intros [= <-]|].
  destruct (sv_sessions sv !! k) as [a|] eqn:Ha; [|by apply IH]. destruct (step _ _ _) as [s acts] eqn:Hstep.
  assert (awake (set_sessions (<[k := set_session s a]> (sv_sessions sv)) sv)) as H1.
  { apply map_Forall_insert_2; [|done]. eapply step_awake; [exact Hstep|exact (Hs k a Ha)]. }
  destruct acts as [|x acts]; [by apply IH|].
  destruct (sv_apply_actions _ _ _ _) as [sv1|] eqn:Hr; [|done]. cbn. apply IH. by eapply apply_actions_awake.
Qed.

Lemma sv_run_awake fuel inputs sv sv' : awake sv -> sv_run fuel inputs sv = Some sv' -> awake sv'.
Proof.
  revert sv. induction inputs as [|i inputs IH]; intros sv Hs; cbn [sv_run]; [by intros [= <-]|].
  destruct (sv_turn fuel i sv) as [sv1|] eqn:Ht; [|done]. cbn. apply IH. destruct i as [intent|ca asdu|keys]; cbn [sv_turn] in Ht.
  - by eapply on_intent_awake.
  - by eapply on_incoming_awake.
  - eapply tick_all_awake; [|exact Ht]. exact Hs.
Qed.

(** C27. No transfer waits for ever on a silent peer: at any moment of a
    service that began with an empty table, each session of the table has a
    time of last progress, and once [idle_timeout] has passed since, the next
    tick ends it: it leaves the table, its end is announced as a timeout, and
    a user who asked for it is told so. *)
Theorem service_times_out fuel inputs w sv ca nof a :
  sv_run fuel inputs (Service_new w) = Some sv ->
  sv_sessions sv !! (ca, nof) = Some a ->
  ∃ t, last_progress (as_session a) = Some t /\
    ∀ fuel' keys sv', (ca, nof) ∈ keys -> sv_turn fuel' (SvTick keys) sv = Some sv' ->
    ft_idle_timeout config <= since (clock (sv_reads sv)) t ->
    sv_sessions sv' !! (ca, nof) = None /\
    SvEvent (FteFinished ca (mkNof nof) (OutcomeFailed FtTimeout)) ∈ sv_log sv' /\
    ∀ id, as_reply a = Some id -> SvReply id (inr (FtOther "idle timeout")) ∈ sv_log sv'.
Proof.
  intros Hrun Ha. destruct (proj1 (service_run_ok inputs w) _ _ Hrun) as (Ht & _ & _).
  destruct (Ht _ _ Ha) as [(_ & role & ins & acts & Hs & _) Hopen].
  assert (s_state (as_session a) ≠ FtIdle) as Hawake.
  { eapply (sv_run_awake fuel inputs (Service_new w) sv); [apply map_Forall_empty|exact Hrun|exact Ha]. }
  destruct (ft_session_progress _ _ _ _ _ _ Hs Hawake Hopen) as [t Hp]. exists t. split; [done|].
  intros fuel' keys sv' Hin Htick Hi.
  refine (tick_all_expires fuel' _ keys (ca, nof) a _ sv' Hin _ _ Htick); [exact Ha|].
  eapply tick_expires; try done; [by eapply session_held|].
  by replace (idle_timeout (s_config (as_session a))) with (ft_idle_timeout config) by (symmetry; exact (session_keeps_config _ _ _ _ _ _ Hs)).
Qed.

End Service.

(** ** Sample runs *)

Module Sample.

(** A storage of files in memory. What is written is kept as a list. Readers
    with no more than [bad_read] octets left and writers, if [bad_write],
    report an error. *)
Section Storage.
Context (files : list (Z * bytes)) (bad_read : option nat) (bad_write : bool).

Definition find_file (nof : NameOfFile) : option bytes :=
  snd <$> find (λ f, f.1 =? nof_0 nof) files.

Definition sample_meta (data : bytes) : FileMetadata :=
  mkMetadata (Z.of_nat (length data)) (mkSof 0 false false false) 0 (mkCp56 0 0 0 1 0 1 24 false false false).

#[local] Instance memory : Provider (list bytes) bytes unit := {
  pv_lookup nof w := (inl (sample_meta <$> find_file nof), w);
  pv_open_read nof w := (match find_file nof with Some d => inl d | None => inr (NotFound nof) end, w);
  pv_open_write nof _ w := (inl tt, w);
  pv_read_segment r n w :=
    match bad_read with
    | Some k => if (length r <=? k)%nat then (inr FtIo, r, w) else (inl (Some (take n r)), drop n r, w)
    | None => match r with [] => (inl None, r, w) | _ => (inl (Some (take n r)), drop n r, w) end
    end;
  pv_write_segment _ data w := if bad_write then (false, tt, w) else (true, tt, w ++ [data]);
  pv_finalize _ _ w := (true, w) }.

Lemma memory_ends : readers_end.
Proof.
  exists (λ r _, length r). intros r n w. unfold gives. cbn.
  assert (∀ x l, take n r = x :: l -> (length (drop n r) < length r)%nat) as H.
  { intros x l Hr. rewrite length_drop. destruct n, r; try done. cbn. lia. }
  assert (length (drop n r) <= length r)%nat by (rewrite length_drop; lia).
  destruct bad_read as [k|]; [destruct (_ <=? _)%nat|destruct r]; try done; cbn [fst snd];
    (destruct (take n _) as [|x l] eqn:Ht; [done|by eapply H]).
Qed.

Definition sample_config : FileTransferConfig := mkFtConfig 2 4294967295 30000 2 100.
Definition from_peer {P} `{!AsduPayload P} (p : P) : SvInput :=
  SvIncoming 5 (from_payload (Cot_with FILE_TRANSFER) 5 (Vsq_single 1) p IEC104).

Definition sv_sample (inputs : list SvInput) : option Service :=
  sv_run (BC := slice_bytes) sample_config (λ n, Z.of_nat n) 20 inputs (Service_new []).

End Storage.
#[local] Existing Instance memory.

(** File 7 is fetched, file 8 pushed, by a user who also asks for both again. *)
Definition fetch_and_push : list SvInput :=
  let seven := mkNof 7 in let eight := mkNof 8 in
  [SvIntent (IntentFetch 5 seven 1); SvIntent (IntentFetch 5 seven 2); SvIntent (IntentPush 5 eight 3);
   SvIntent (IntentPush 5 (mkNof 9) 4);
   from_peer (mkF_FR 0 seven (mkLof 3) Frq_READY); from_peer (mkF_SR 0 seven (mkNos 1) (mkLos 3) Srq_READY);
   from_peer (mkF_SG 0 seven (mkNos 1) [1; 2]); SvTick [(5, 8); (5, 7)];
   from_peer (mkF_SC 0 eight WHOLE_FILE (Scq_new SelectFile 0));
   from_peer (mkF_SC 0 eight WHOLE_FILE (Scq_new RequestFile 0));
   from_peer (mkF_SG 0 seven (mkNos 1) [3]);
   from_peer (mkF_LS 0 seven (mkNos 1) FileWithoutDeactivate (mkChecksum 6))].

Definition replies (sv : @Service (list bytes) bytes unit) : list (nat * (Z + FileTransferError)) :=
  omap (λ o, match o with SvReply id r => Some (id, r) | _ => None end) (sv_log sv).

Example fetch_and_push_runs :
  match sv_sample [(8, [10; 20; 30])] None false fetch_and_push with
  | Some sv => sv_prov sv = [[1; 2]; [3]] /\
      replies sv = [(2%nat, inr (InvalidState "another transfer is already in progress for this (ca, nof)"));
                    (4%nat, inr (InvalidState "max_concurrent_sessions reached")); (1%nat, inl 3)] /\
      (s_state ∘ as_session <$> sv_sessions sv !! (5, 8)) = Some TxAwaitAck
  | None => False
  end.
Proof. vm_compute. done. Qed.

(** The receiver of file 7 when the writer fails at every segment: the user
    gets the number of octets that were not written. *)
Example write_errors_are_ignored :
  match sv_sample [] None true (take 1 fetch_and_push ++ drop 4 fetch_and_push) with
  | Some sv => sv_prov sv = [] /\ replies sv = [(1%nat, inl 3)] /\
      omap (λ o, match o with SvFinalize _ _ _ => Some o | _ => None end) (sv_log sv) = [SvFinalize (5, 7) true true]
  | None => False
  end.
Proof. vm_compute. done. Qed.

(** The sender of file 8 when the reader fails after two octets: the failure
    reads as the end of the file, its checksum is that of the two octets, and
    once the peer confirms it the user is told that two octets were sent. *)
Example read_error_truncates :
  match sv_sample [(8, [10; 20; 30])] (Some 1%nat) false
    [SvIntent (IntentPush 5 (mkNof 8) 3); from_peer (mkF_SC 0 (mkNof 8) WHOLE_FILE (Scq_new SelectFile 0));
     from_peer (mkF_SC 0 (mkNof 8) WHOLE_FILE (Scq_new RequestFile 0));
     from_peer (mkF_AF 0 (mkNof 8) (mkNos 1) (Afq_new PositiveFile 0))] with
  | Some sv => replies sv = [(3%nat, inl 2)] /\ sv_sessions sv = ∅
  | None => False
  end.
Proof. vm_compute. done. Qed.

(** An offer that nobody asked for opens a session that fails at once: the
    peer cannot push a file. *)
Example unsolicited_push_fails :
  match sv_sample [] None false [from_peer (mkF_FR 0 (mkNof 7) (mkLof 3) Frq_READY)] with
  | Some sv => sv_sessions sv = ∅ /\
      omap (λ o, match o with SvEvent _ => Some o | _ => None end) (sv_log sv) =
      [SvEvent (FteStarted 5 (mkNof 7) Receiver); SvEvent (FteFinished 5 (mkNof 7) (OutcomeFailed ProtocolViolation))]
  | None => False
  end.
Proof. vm_compute. done. Qed.

Lemma service_table_witness : ∃ sv,
  sv_sample [(8, [10; 20; 30])] None false (take 9 fetch_and_push) = Some sv /\
  ((size (sv_sessions sv) <= 2)%nat /\
   ∀ ca nof a, sv_sessions sv !! (ca, nof) = Some a ->
     as_ca a = ca /\ is_terminal (as_session a) = false /\
     ∃ role ins acts, ft_session ins (Session_new role (mkNof nof) (session_config sample_config)) = (as_session a, acts) /\
       role_ok role (as_reader a) (as_writer a)).
Proof.
  destruct (sv_sample [(8, [10; 20; 30])] None false (take 9 fetch_and_push)) as [sv|] eqn:H; [|by vm_compute in H].
  exists sv. split; [done|]. exact (service_table _ _ _ _ _ _ H).
Defined.

Lemma service_answers_witness : ∃ sv,
  sv_sample [(8, [10; 20; 30])] None false fetch_and_push = Some sv /\
  (requested fetch_and_push ≡ₚ answered_in (sv_log sv) ++ pending_in (sv_sessions sv) /\
   started_in (sv_log sv) ≡ₚ finished_in (sv_log sv) ++ keys_of (sv_sessions sv)).
Proof.
  destruct (sv_sample [(8, [10; 20; 30])] None false fetch_and_push) as [sv|] eqn:H; [|by vm_compute in H].
  exists sv. split; [done|]. exact (service_answers _ _ _ _ _ _ H).
Defined.

Lemma service_turns_end_witness :
  let files := [(8, [10; 20; 30])] in
  @readers_end _ _ _ (memory files None false) /\
  ∃ n sv, ∀ fuel, (n <= fuel)%nat ->
    sv_run (PV := memory files None false) sample_config (λ n, Z.of_nat n) fuel fetch_and_push (Service_new []) = Some sv.
Proof. split; [apply memory_ends|]. exact (service_turns_end _ _ _ _ (memory_ends _ None false)). Defined.

Lemma service_times_out_witness : ∃ sv a,
  sv_sample [(8, [10; 20; 30])] None false (take 9 fetch_and_push) = Some sv /\ sv_sessions sv !! (5, 8) = Some a /\
  ∃ t, last_progress (as_session a) = Some t /\
    ∀ fuel' keys sv', (5, 8) ∈ keys ->
    sv_turn (PV := memory [(8, [10; 20; 30])] None false) sample_config (λ n, Z.of_nat n) fuel' (SvTick keys) sv = Some sv' ->
    ft_idle_timeout sample_config <= since (Z.of_nat (sv_reads sv)) t ->
    sv_sessions sv' !! (5, 8) = None /\
    SvEvent (FteFinished 5 (mkNof 8) (OutcomeFailed FtTimeout)) ∈ sv_log sv' /\
    ∀ id, as_reply a = Some id -> SvReply id (inr (FtOther "idle timeout")) ∈ sv_log sv'.
Proof.
  destruct (sv_sample [(8, [10; 20; 30])] None false (take 9 fetch_and_push)) as [sv|] eqn:H; [|by vm_compute in H].
  destruct (sv_sessions sv !! (5, 8)) as [a|] eqn:Ha.
  - exists sv, a. split; [done|]. split; [done|]. exact (service_times_out _ _ _ _ _ _ _ _ _ H Ha).
  - vm_compute in H. injection H as <-. by vm_compute in Ha.
Defined.

(** A peer that falls silent, with an idle timeout of two ticks of the clock. *)
Example silent_peer_times_out :
  match sv_run (BC := slice_bytes) (PV := memory [(8, [10; 20; 30])] None false) (mkFtConfig 2 0 2 2 100) (λ n, Z.of_nat n) 20
    [SvIntent (IntentPush 5 (mkNof 8) 3); SvTick [(5, 8)]; SvTick [(5, 8)]] (Service_new []) with
  | Some sv => sv_sessions sv = ∅ /\ replies sv = [(3%nat, inr (FtOther "idle timeout"))]
  | None => False
  end.
Proof. vm_compute. done. Qed.

End Sample.
