(* ===== verification/Calendar.v ===== *)
(** * The calendar

    Two functions of the code turn a number of seconds since 1970 into a
    [Cp56Time2a]: [system_time_to_cp56] of [file_transfer/fs.rs], over
    [days_to_ymd], and [now_cp56] of [points.rs] of the test tools. They use
    different algorithms. Here both are shown to be the Gregorian calendar,
    given as the successor function [next_day] on dates, and hence equal.

    Both count years from 1 March of year 0: day [doy] of year [Y] is day
    [year_start Y + doy] ([march_unique]). *)

From S2P Require Import Prelude Bytes Codec InfoElements.

(** ** The code *)

(** fs.rs 428-444, days_to_ymd. Year, month, day, day of week. *)
Definition days_to_ymd (days : Z) : Z * Z * Z * Z :=
  let dow := as_u8 ((days + 3) mod 7 + 1) in
  let z := days + 719468 in
  let era := Z.quot (if 0 <=? z then z else z - 146096) 146097 in
  let doe := z - era * 146097 in
  let yoe := (doe - doe / 1460 + doe / 36524 - doe / 146096) / 365 in
  let y := yoe + era * 400 in
  let doy := doe - (365 * yoe + yoe / 4 - yoe / 100) in
  let mp := (5 * doy + 2) / 153 in
  let d := as_u8 (doy - (153 * mp + 2) / 5 + 1) in
  let m := as_u8 (if mp <? 10 then mp + 3 else mp - 9) in
  let y := if m <=? 2 then y + 1 else y in
  (as_i32 y, m, d, dow).

(** fs.rs 401-425, system_time_to_cp56. The argument is the duration since
    the epoch in seconds and milliseconds, [None] before it. *)
Definition system_time_to_cp56 (t : option (Z * Z)) : Cp56Time2a :=
  match t with
  | None => mkCp56 0 0 0 0 0 0 0 false false false
  | Some (total_secs, millis_in_sec) =>
      let days := total_secs / 86400 in
      let secs_of_day := total_secs mod 86400 in
      let hour := as_u8 (secs_of_day / 3600) in
      let minute := as_u8 (secs_of_day mod 3600 / 60) in
      let second := as_u8 (secs_of_day mod 60) in
      let millis := second * 1000 + millis_in_sec in
      let '(year, month, day, day_of_week) := days_to_ymd days in
      mkCp56 millis minute hour day day_of_week month (as_u8 (as_u32 year mod 100)) false false false
  end.

(** points.rs 26-76, now_cp56. The clock, which reads 0 before the epoch, is
    an argument. *)
Definition now_cp56 (total_secs subsec_ms : Z) : Cp56Time2a :=
  let days := total_secs / 86400 in
  let secs_of_day := total_secs mod 86400 in
  let hour := as_u8 (secs_of_day / 3600) in
  let minute := as_u8 (secs_of_day mod 3600 / 60) in
  let second := as_u8 (secs_of_day mod 60) in
  let milliseconds := second * 1000 + subsec_ms in
  let jdn := days + 2440588 in
  let a := jdn + 32044 in
  let b := (4 * a + 3) / 146097 in
  let c := a - 146097 * b / 4 in
  let d := (4 * c + 3) / 1461 in
  let e := c - 1461 * d / 4 in
  let m := (5 * e + 2) / 153 in
  let day := as_u8 (e - (153 * m + 2) / 5 + 1) in
  let month := as_u8 (m + 3 - 12 * (m / 10)) in
  let year_full := 100 * b + d - 4800 + m / 10 in
  let year := as_u8 (year_full mod 100) in
  let dow := as_u8 ((jdn + 1) mod 7) in
  let day_of_week := if dow =? 0 then 7 else dow in
  mkCp56 milliseconds minute hour day day_of_week month year false false false.

(** ** Years that begin in March *)

Definition year_start (y : Z) : Z := 365 * y + y / 4 - y / 100 + y / 400.

(** The length of such a year, which has a leap day at its end when the
    calendar year of that day is a leap year. *)
Definition leap (y : Z) : bool := (y mod 4 =? 0) && (negb (y mod 100 =? 0) || (y mod 400 =? 0)).
Definition year_len (y : Z) : Z := if leap (y + 1) then 366 else 365.

(** Everything repeats after 400 years. *)
Lemma year_start_era q r : year_start (400 * q + r) = 146097 * q + year_start r.
Proof. unfold year_start. lia. Qed.

Lemma year_len_era q r : year_len (400 * q + r) = year_len r.
Proof.
  unfold year_len, leap. replace (400 * q + r + 1) with (r + 1 + q * 100 * 4) by lia. rewrite Z.mod_add by lia.
  replace (r + 1 + q * 100 * 4) with (r + 1 + q * 4 * 100) by lia. rewrite Z.mod_add by lia.
  replace (r + 1 + q * 4 * 100) with (r + 1 + q * 400) by lia. by rewrite Z.mod_add by lia.
Qed.

Lemma year_start_next y : year_start (y + 1) = year_start y + year_len y.
Proof.
  rewrite (Z.div_mod y 400) by lia. rewrite <- Z.add_assoc, !year_start_era, year_len_era.
  enough (year_start (y mod 400 + 1) = year_start (y mod 400) + year_len (y mod 400)) by lia.
  assert (0 <= y mod 400 < 400) as H by lia. revert H. generalize (y mod 400). intros r H. enum r.
Qed.

Lemma year_len_pos y : 365 <= year_len y <= 366.
Proof. unfold year_len. destruct (leap _); lia. Qed.

Lemma year_start_mono y y' : y < y' -> year_start y + year_len y <= year_start y'.
Proof.
  intros H. rewrite <- year_start_next. remember (y' - (y + 1)) as k eqn:Hk.
  assert (0 <= k) as H0 by lia. replace y' with (y + 1 + k) by lia. clear Hk H y'.
  revert k H0. apply natlike_ind; [by rewrite Z.add_0_r|].
  intros k H0 IH. replace (y + 1 + Z.succ k) with (y + 1 + k + 1) by lia.
  rewrite (year_start_next (y + 1 + k)). pose proof (year_len_pos (y + 1 + k)). lia.
Qed.

Lemma march_unique y doy y' doy' : 0 <= doy < year_len y -> 0 <= doy' < year_len y' ->
  year_start y + doy = year_start y' + doy' -> y = y' /\ doy = doy'.
Proof.
  intros H H' E. destruct (Z.lt_trichotomy y y') as [Hlt|[->|Hlt]]; [|lia|].
  - pose proof (year_start_mono _ _ Hlt). lia.
  - pose proof (year_start_mono _ _ Hlt). lia.
Qed.

(** ** The Gregorian calendar *)

Definition month_len (leap_year : bool) (m : Z) : Z :=
  if m =? 2 then (if leap_year then 29 else 28)
  else if (m =? 4) || (m =? 6) || (m =? 9) || (m =? 11) then 30 else 31.

(** The day after: year, month, day, and day of the week with Monday as 1. *)
Definition next_day (date : Z * Z * Z * Z) : Z * Z * Z * Z :=
  let '(y, m, d, dow) := date in
  let dow := dow mod 7 + 1 in
  if d <? month_len (leap y) m then (y, m, d + 1, dow)
  else if m <? 12 then (y, m + 1, 1, dow) else (y + 1, 1, 1, dow).

(** The date of day [doy] of a year from March on: how many years later,
    month and day. *)
Definition march_date (doy : Z) : Z * Z * Z :=
  let mp := (5 * doy + 2) / 153 in
  let m := if mp <? 10 then mp + 3 else mp - 9 in
  (if m <=? 2 then 1 else 0, m, doy - (153 * mp + 2) / 5 + 1).

Lemma march_date_range doy : 0 <= doy < 366 ->
  let '(dy, m, d) := march_date doy in 0 <= dy <= 1 /\ 1 <= m <= 12 /\ 1 <= d <= 31.
Proof.
  intros H. enough (let '(dy, m, d) := march_date doy in
    (0 <=? dy) && (dy <=? 1) && (1 <=? m) && (m <=? 12) && (1 <=? d) && (d <=? 31) = true) as E.
  { destruct (march_date doy) as [[dy m] d]. rewrite !andb_true_iff, !Z.leb_le in E. lia. }
  enum doy.
Qed.

(** [next_day] on dates of that form, [b] telling whether the second of the
    two calendar years is a leap year. *)
Lemma march_date_next doy (b : bool) : 0 <= doy < (if b then 366 else 365) ->
  let '(dy, m, d) := march_date doy in
  (if doy + 1 <? (if b then 366 else 365) then march_date (doy + 1) else let '(dy', m', d') := march_date 0 in (dy' + 1, m', d')) =
  (if d <? month_len b m then (dy, m, d + 1) else if m <? 12 then (dy, m + 1, 1) else (dy + 1, 1, 1)).
Proof. destruct b; intros H; enum doy. Qed.

(** Only February asks for the kind of the year, and it is in the second. *)
Lemma month_len_february doy b b' : 0 <= doy < 366 ->
  let '(dy, m, d) := march_date doy in dy = 0 -> month_len b m = month_len b' m.
Proof.
  intros H. destruct (march_date doy) as [[dy m] d] eqn:E. intros ->. unfold march_date in E.
  injection E as E1 E2 _. rewrite E2 in E1. unfold month_len.
  destruct (Z.leb_spec m 2); [done|]. by destruct (Z.eqb_spec m 2); [lia|].
Qed.

(** The date of a day counted from 1 March of year 0. *)
Definition date_of (y doy dow : Z) : Z * Z * Z * Z := let '(dy, m, d) := march_date doy in (y + dy, m, d, dow).

Lemma next_day_date y doy dow : 0 <= doy < year_len y ->
  next_day (date_of y doy dow) =
  if doy + 1 <? year_len y then date_of y (doy + 1) (dow mod 7 + 1) else date_of (y + 1) 0 (dow mod 7 + 1).
Proof.
  intros H. assert (year_len y = if leap (y + 1) then 366 else 365) as Hl by done.
  pose proof (march_date_next doy (leap (y + 1)) ltac:(by rewrite <- Hl)) as Hn.
  pose proof (month_len_february doy (leap y) (leap (y + 1)) ltac:(pose proof (year_len_pos y); lia)) as Hf.
  pose proof (march_date_range doy ltac:(pose proof (year_len_pos y); lia)) as Hr.
  unfold date_of, next_day. rewrite <- Hl in Hn. destruct (march_date doy) as [[dy m] d].
  assert (month_len (leap (y + dy)) m = month_len (leap (y + 1)) m) as ->.
  { destruct (decide (dy = 0)) as [->|]; [rewrite Z.add_0_r; by apply Hf|]. by replace dy with 1 by lia. }
  destruct (doy + 1 <? year_len y).
  - destruct (march_date (doy + 1)) as [[dy' m'] d']. destruct (d <? _); [|destruct (m <? 12)]; injection Hn as Hy -> ->; do 3 f_equal; lia.
  - destruct (march_date 0) as [[dy' m'] d']. destruct (d <? _); [|destruct (m <? 12)]; injection Hn as Hy -> ->; do 3 f_equal; lia.
Qed.

(** ** The algorithms *)

Lemma as_u8_small z : 0 <= z < 256 -> as_u8 z = z.
Proof. unfold as_u8. lia. Qed.

(** [days_to_ymd] finds the March year and the day of it. *)
Lemma hinnant_march n : 0 <= n -> ∃ y doy, 0 <= doy < year_len y /\ year_start y + doy = n + 719468 /\
  days_to_ymd n = let '(yy, m, d, w) := date_of y doy ((n + 3) mod 7 + 1) in (as_i32 yy, m, d, w).
Proof.
  intros Hn. unfold days_to_ymd. destruct (Z.leb_spec 0 (n + 719468)); [|lia].
  rewrite Z.quot_div_nonneg by lia. remember ((n + 719468) / 146097) as era eqn:Hera.
  remember (n + 719468 - era * 146097) as doe eqn:Hdoe. assert (0 <= doe < 146097) as Hd by lia.
  remember ((doe - doe / 1460 + doe / 36524 - doe / 146096) / 365) as yoe eqn:Hyoe.
  assert (0 <= yoe < 400) as Hy by (clear Hera Hdoe; lia).
  remember (doe - (365 * yoe + yoe / 4 - yoe / 100)) as doy eqn:Hdoy.
  assert (0 <= doy < year_len yoe /\ year_start yoe + doy = doe) as [Hlen Hsum].
  { clear Hera Hdoe. assert (year_start yoe + doy = doe) as E by (unfold year_start; lia). split; [|done]. split; [lia|].
    pose proof (year_start_next yoe) as Hnext. enough (doe < year_start (yoe + 1)) by lia.
    clear Hnext E. unfold year_start. lia. }
  exists (yoe + era * 400), doy. replace (yoe + era * 400) with (400 * era + yoe) by lia.
  rewrite year_len_era, year_start_era. split; [done|]. split; [lia|].
  pose proof (march_date_range doy ltac:(pose proof (year_len_pos yoe); lia)) as Hr.
  unfold date_of, march_date in *. clear - Hr.
  rewrite (as_u8_small ((n + 3) mod 7 + 1)) by lia.
  remember (if (5 * doy + 2) / 153 <? 10 then _ else _) as m. destruct Hr as (_ & Hm & Hd).
  rewrite (as_u8_small m), as_u8_small by lia. destruct (m <=? 2); do 4 f_equal; lia.
Qed.

(** So does [now_cp56], whose years begin 4800 years earlier. *)
Lemma julian_march a b c d e : 0 <= a -> b = (4 * a + 3) / 146097 -> c = a - 146097 * b / 4 -> d = (4 * c + 3) / 1461 ->
  e = c - 1461 * d / 4 -> 0 <= e < year_len (100 * b + d) /\ year_start (100 * b + d) + e = a.
Proof.
  intros Ha Hb Hc Hd He. assert (year_start (100 * b + d) + e = a) as E by (unfold year_start; lia). split; [|done].
  split; [lia|]. pose proof (year_start_next (100 * b + d)). enough (a < year_start (100 * b + d + 1)) by lia.
  unfold year_start. lia.
Qed.

(** The tag of any clock reading can be sent. *)
Lemma now_cp56_wf secs ms : 0 <= secs -> 0 <= ms < 1000 -> Cp56_wf (now_cp56 secs ms).
Proof.
  intros Hs Hms. unfold now_cp56.
  destruct (julian_march (secs / 86400 + 2440588 + 32044) _ _ _ _ ltac:(lia) eq_refl eq_refl eq_refl eq_refl) as [He _].
  set (b := (4 * (secs / 86400 + 2440588 + 32044) + 3) / 146097) in *.
  set (c := secs / 86400 + 2440588 + 32044 - 146097 * b / 4) in *.
  set (d := (4 * c + 3) / 1461) in *. set (e := c - 1461 * d / 4) in *. clearbody e.
  pose proof (year_len_pos (100 * b + d)). unfold Cp56_wf, is_u16, as_u8.
  cbn [cp56_ms cp56_minute cp56_hour cp56_day cp56_day_of_week cp56_month cp56_year]. split_and!; try lia.
  - destruct (Z.eqb_spec ((secs / 86400 + 2440588 + 1) mod 7 mod 256) 0); lia.
  - destruct (Z.eqb_spec ((secs / 86400 + 2440588 + 1) mod 7 mod 256) 0); lia.
Qed.

Lemma as_i32_small y : is_i32 y -> as_i32 y = y.
Proof. unfold is_i32, as_i32. lia. Qed.

(** The last day of which both are shown: the year still fits in an [i32]. *)
Definition last_day : Z := 780000000000.

Lemma march_year_bound y doy n : 0 <= doy < year_len y -> year_start y + doy = n + 719468 -> 0 <= n <= last_day ->
  1969 <= y < 2147483646.
Proof. pose proof (year_len_pos y). unfold year_start, last_day. lia. Qed.

(** [days_to_ymd] without its cast of the year. *)
Lemma days_to_ymd_date n : 0 <= n <= last_day -> ∃ y doy, 0 <= doy < year_len y /\ year_start y + doy = n + 719468 /\
  days_to_ymd n = date_of y doy ((n + 3) mod 7 + 1) /\ 1969 <= y < 2147483646.
Proof.
  intros Hn. destruct (hinnant_march n) as (y & doy & Hd & Hs & E); [lia|]. exists y, doy.
  pose proof (march_year_bound _ _ _ Hd Hs Hn) as Hy. split_and!; try done; try lia. rewrite E. unfold date_of.
  pose proof (march_date_range doy ltac:(pose proof (year_len_pos y); lia)) as Hr.
  destruct (march_date doy) as [[dy m] d]. rewrite as_i32_small; [done|]. unfold is_i32. lia.
Qed.

(** ** What the code computes *)

(** [days_to_ymd] is the Gregorian calendar: 1 January 1970 was a
    Thursday, and the date of each later day is the day after the date before
    it, leap years, ends of months and weekdays included, up to the last day
    of which the year fits its type. *)
Theorem calendar_correct n :
  days_to_ymd 0 = (1970, 1, 1, 4) /\
  (0 <= n < last_day -> days_to_ymd (n + 1) = next_day (days_to_ymd n)).
Proof.
  split; [done|]. intros Hn. destruct (days_to_ymd_date n) as (y & doy & Hd & Hs & -> & _); [lia|].
  destruct (days_to_ymd_date (n + 1)) as (y' & doy' & Hd' & Hs' & -> & _); [lia|].
  rewrite next_day_date by done. replace (((n + 3) mod 7 + 1) mod 7 + 1) with ((n + 1 + 3) mod 7 + 1) by lia.
  destruct (Z.ltb_spec (doy + 1) (year_len y)).
  - destruct (march_unique y (doy + 1) y' doy') as [<- <-]; [lia|done|lia|done].
  - destruct (march_unique (y + 1) 0 y' doy') as [<- <-]; [pose proof (year_len_pos (y + 1)); lia|done| |done].
    rewrite year_start_next. lia.
Qed.

(** The time tags of the file-system provider and of the test tools are
    the same, although their calendars are computed differently: at every
    clock reading after 1970 (up to the last day) [now_cp56] and
    [system_time_to_cp56] agree in every field. *)
Theorem clocks_agree secs ms :
  0 <= secs / 86400 <= last_day ->
  now_cp56 secs ms = system_time_to_cp56 (Some (secs, ms)).
Proof.
  intros Hn. destruct (days_to_ymd_date _ Hn) as (y & doy & Hd & Hs & E & Hy).
  unfold now_cp56, system_time_to_cp56. rewrite E.
  destruct (julian_march (secs / 86400 + 2440588 + 32044) _ _ _ _ ltac:(lia) eq_refl eq_refl eq_refl eq_refl) as [He Hj].
  set (b := (4 * (secs / 86400 + 2440588 + 32044) + 3) / 146097) in *.
  set (c := secs / 86400 + 2440588 + 32044 - 146097 * b / 4) in *.
  set (d := (4 * c + 3) / 1461) in *. set (e := c - 1461 * d / 4) in *.
  destruct (march_unique (100 * b + d) e (400 * 12 + y) doy) as [Hyb He'].
  { done. } { by rewrite year_len_era. } { rewrite year_start_era. lia. }
  clearbody e d b. subst e. clear He Hj.
  unfold date_of, march_date. pose proof (march_date_range doy ltac:(pose proof (year_len_pos y); lia)) as Hr.
  unfold march_date in Hr. assert (0 <= (5 * doy + 2) / 153 <= 11) as Hm by (pose proof (year_len_pos y); lia).
  set (mp := (5 * doy + 2) / 153) in *. clearbody mp.
  assert (mp + 3 - 12 * (mp / 10) = (if mp <? 10 then mp + 3 else mp - 9)) as -> by (destruct (Z.ltb_spec mp 10); lia).
  assert (mp / 10 = (if (if mp <? 10 then mp + 3 else mp - 9) <=? 2 then 1 else 0)) as ->
    by (destruct (Z.ltb_spec mp 10); destruct (Z.leb_spec (mp + 3) 2); destruct (Z.leb_spec (mp - 9) 2); lia).
  set (mm := (if mp <? 10 then mp + 3 else mp - 9)) in *. set (dy := (if mm <=? 2 then 1 else 0)) in *. clearbody mm dy.
  rewrite !(as_u8_small mm), (as_u8_small (doy - _ + 1)) by lia. f_equal.
  - rewrite as_u8_small by lia. destruct (Z.eqb_spec ((secs / 86400 + 2440588 + 1) mod 7) 0); lia.
  - f_equal. unfold as_u32. lia.
Qed.

(** The reference point, a leap day and the last day of a year. *)
Example calendar_samples :
  days_to_ymd 0 = (1970, 1, 1, 4) /\ days_to_ymd 11016 = (2000, 2, 29, 2) /\ days_to_ymd 20453 = (2025, 12, 31, 3).
Proof. vm_compute. done. Qed.

(** A time tag made from a clock reading [secs] seconds and [ms]
    milliseconds after 1970 names that instant: its time of day is the
    remainder of the day to the millisecond, its date is the date of the day
    with the year cut to two digits, every field is in its range, and the
    seven octets it is encoded in are decoded to the same tag. *)
Theorem timestamp_exact `{BC : BytesCrate} secs ms rest :
  0 <= secs / 86400 <= last_day -> 0 <= ms < 1000 ->
  let t := system_time_to_cp56 (Some (secs, ms)) in
  let '(y, m, d, dow) := days_to_ymd (secs / 86400) in
  cp56_hour t * 3600000 + cp56_minute t * 60000 + cp56_ms t = secs mod 86400 * 1000 + ms /\
  (cp56_year t, cp56_month t, cp56_day t, cp56_day_of_week t) = (y mod 100, m, d, dow) /\
  0 <= cp56_hour t < 24 /\ 0 <= cp56_minute t < 60 /\ 0 <= cp56_ms t < 60000 /\
  1 <= cp56_day t <= 31 /\ 1 <= cp56_day_of_week t <= 7 /\ 1 <= cp56_month t <= 12 /\ 0 <= cp56_year t < 100 /\
  Cp56_decode (Cp56_encode t [] ++ rest) = (Ok t, rest).
Proof.
  intros Hn Hms. destruct (days_to_ymd_date _ Hn) as (y & doy & Hd & Hs & E & Hy).
  unfold system_time_to_cp56. rewrite E. unfold date_of.
  pose proof (march_date_range doy ltac:(pose proof (year_len_pos y); lia)) as Hr.
  destruct (march_date doy) as [[dy m] d]. cbn.
  assert (as_u32 (y + dy) = y + dy) as -> by (unfold as_u32; lia). rewrite !as_u8_small by lia.
  split_and!; try done; try lia. apply (fc_roundtrip _ _ _ _ Cp56_codec). unfold Cp56_wf, is_u16. cbn. lia.
Qed.

Lemma calendar_correct_witness :
  0 <= 19781 < last_day /\ days_to_ymd 19781 = (2024, 2, 28, 3) /\
  (days_to_ymd 0 = (1970, 1, 1, 4) /\
   (0 <= 19781 < last_day -> days_to_ymd (19781 + 1) = next_day (days_to_ymd 19781))).
Proof. split; [by unfold last_day|]. split; [done|]. apply (calendar_correct 19781). Defined.

Lemma clocks_agree_witness :
  0 <= 1709164800 / 86400 <= last_day /\
  now_cp56 1709164800 7 = system_time_to_cp56 (Some (1709164800, 7)).
Proof. split; [by vm_compute|]. apply (clocks_agree 1709164800 7). by vm_compute. Defined.

Lemma timestamp_exact_witness :
  let t := system_time_to_cp56 (Some (1709164805, 7)) in
  let '(y, m, d, dow) := days_to_ymd (1709164805 / 86400) in
  cp56_hour t * 3600000 + cp56_minute t * 60000 + cp56_ms t = 1709164805 mod 86400 * 1000 + 7 /\
  (cp56_year t, cp56_month t, cp56_day t, cp56_day_of_week t) = (y mod 100, m, d, dow) /\
  0 <= cp56_hour t < 24 /\ 0 <= cp56_minute t < 60 /\ 0 <= cp56_ms t < 60000 /\
  1 <= cp56_day t <= 31 /\ 1 <= cp56_day_of_week t <= 7 /\ 1 <= cp56_month t <= 12 /\ 0 <= cp56_year t < 100 /\
  Cp56_decode (Cp56_encode t [] ++ [1]) = (Ok t, [1]).
Proof. apply (timestamp_exact (BC := slice_bytes) 1709164805 7 [1]); by vm_compute. Defined.
