(* ===== verification/Crc16.v ===== *)
(** * The hash that names files

    [crc16_ibm] of [file_transfer/fs.rs], with its table. It is shown to be
    the bit-by-bit CRC-16 of polynomial [0xA001], and to tell apart any two
    names of the same length that differ in one octet. *)

From S2P Require Import Prelude.

(** fs.rs 385-391, CRC16_IBM_TABLE (one bit). *)
Definition crc_bit (c : Z) : Z :=
  if negb (Z.land c 1 =? 0) then Z.lxor (Z.shiftr c 1) 0xA001 else Z.shiftr c 1.

(** fs.rs 380-398, CRC16_IBM_TABLE. *)
Definition CRC16_IBM_TABLE : list Z := (λ i, Nat.iter 8 crc_bit i) <$> seqZ 0 256.

(** fs.rs 374-376, crc16_ibm (loop). An index beyond the table, which the
    theorem excludes, would be a panic. *)
Definition crc_step (crc b : Z) : Z :=
  Z.lxor (Z.shiftr crc 8) (default 0 (CRC16_IBM_TABLE !! Z.to_nat (Z.lxor (as_u8 crc) b))).
(** fs.rs 372-378, crc16_ibm. *)
Definition crc16_ibm (data : bytes) : Z := fold_left crc_step data 0.

(** ** Bit by bit *)

(** The CRC of a string, an octet at a time and each bit of it in turn. *)
Definition crc_bitwise (data : bytes) : Z := fold_left (λ crc b, Nat.iter 8 crc_bit (Z.lxor crc b)) data 0.

Lemma lxor_range k a b : 0 <= k -> 0 <= a < 2 ^ k -> 0 <= b < 2 ^ k -> 0 <= Z.lxor a b < 2 ^ k.
Proof.
  intros Hk Ha Hb. split; [apply Z.lxor_nonneg; lia|].
  enough (Z.lxor a b mod 2 ^ k = Z.lxor a b) by (pose proof (Z.mod_pos_bound (Z.lxor a b) (2 ^ k)); lia).
  rewrite <- Z.land_ones by done. apply Z.bits_inj'. intros n Hn. rewrite Z.land_spec, Z.testbit_ones_nonneg by done.
  destruct (Z.ltb_spec n k); [by rewrite andb_true_r|]. rewrite andb_false_r, Z.lxor_spec.
  rewrite <- (Z.mod_small a (2 ^ k)), <- (Z.mod_small b (2 ^ k)) by done. by rewrite !Z.mod_pow2_bits_high by lia.
Qed.

(** [crc_bit] is linear. *)
Lemma crc_bit_lxor a b : crc_bit (Z.lxor a b) = Z.lxor (crc_bit a) (crc_bit b).
Proof.
  unfold crc_bit. assert (∀ c, Z.land c 1 = Z.b2z (Z.odd c)) as Hodd.
  { intros c. change 1 with (Z.ones 1). rewrite Z.land_ones by lia. rewrite Zmod_odd. by destruct (Z.odd c). }
  rewrite !Hodd, Z.shiftr_lxor, <- (Z.bit0_odd (Z.lxor a b)), Z.lxor_spec, !Z.bit0_odd.
  destruct (Z.odd a), (Z.odd b); cbn [xorb Z.b2z negb Z.eqb]; rewrite ?Z.lxor_assoc; try done.
  - f_equal. rewrite (Z.lxor_comm (Z.shiftr b 1)), <- Z.lxor_assoc, Z.lxor_nilpotent. by rewrite Z.lxor_0_l.
  - f_equal. apply Z.lxor_comm.
Qed.

Lemma crc_bits_lxor k a b : Nat.iter k crc_bit (Z.lxor a b) = Z.lxor (Nat.iter k crc_bit a) (Nat.iter k crc_bit b).
Proof. induction k as [|k IH]; [done|]. by rewrite !Nat.iter_succ, IH, crc_bit_lxor. Qed.

(** The upper octet is only shifted. *)
Lemma crc_bits_high h : 0 <= h < 256 -> Nat.iter 8 crc_bit (256 * h) = h.
Proof. intros H. enum h. Qed.

Lemma crc_table x : 0 <= x < 256 -> CRC16_IBM_TABLE !! Z.to_nat x = Some (Nat.iter 8 crc_bit x).
Proof.
  intros H. unfold CRC16_IBM_TABLE. rewrite list_lookup_fmap, lookup_seqZ_lt by lia. cbn [option_fmap option_map fmap].
  by rewrite Z2Nat.id, Z.add_0_l by lia.
Qed.

(** A number is its low octet and the rest. *)
Lemma lxor_split c : c = Z.lxor (256 * (c / 256)) (c mod 256).
Proof.
  change (256 * (c / 256)) with (2 ^ 8 * (c / 2 ^ 8)). change (c mod 256) with (c mod 2 ^ 8).
  rewrite Z.mul_comm, <- Z.shiftl_mul_pow2, <- Z.shiftr_div_pow2 by lia. apply Z.bits_inj'. intros n Hn.
  rewrite Z.lxor_spec. destruct (Z.ltb_spec n 8).
  - by rewrite Z.shiftl_spec_low, Z.mod_pow2_bits_low by lia.
  - rewrite Z.shiftl_spec, Z.shiftr_spec, Z.mod_pow2_bits_high by lia. rewrite xorb_false_r. f_equal. lia.
Qed.

(** A step of the table is eight steps of a bit. *)
Lemma crc_step_bits crc b : is_u16 crc -> is_u8 b -> crc_step crc b = Nat.iter 8 crc_bit (Z.lxor crc b).
Proof.
  intros Hc Hb. unfold is_u16, is_u8 in *. unfold crc_step.
  assert (0 <= Z.lxor (as_u8 crc) b < 256) as Hx by (apply (lxor_range 8); unfold as_u8; lia).
  rewrite crc_table by done. cbn [default from_option id].
  assert (Z.lxor crc b = Z.lxor (256 * (crc / 256)) (Z.lxor (as_u8 crc) b)) as ->
    by (rewrite <- Z.lxor_assoc; f_equal; apply lxor_split).
  rewrite (crc_bits_lxor 8 (256 * _)), crc_bits_high by lia.
  by rewrite Z.shiftr_div_pow2 by lia.
Qed.

Lemma crc_step_range crc b : is_u16 crc -> is_u8 b -> is_u16 (crc_step crc b).
Proof.
  intros Hc Hb. unfold is_u16, is_u8 in *. unfold crc_step.
  assert (0 <= Z.lxor (as_u8 crc) b < 256) as Hx by (apply (lxor_range 8); unfold as_u8; lia).
  rewrite crc_table by done. cbn [default from_option id]. apply (lxor_range 16); [lia| |].
  - rewrite Z.shiftr_div_pow2 by lia. lia.
  - revert Hx. generalize (Z.lxor (as_u8 crc) b). intros x Hx.
    enough ((0 <=? Nat.iter 8 crc_bit x) && (Nat.iter 8 crc_bit x <? 2 ^ 16) = true) as H by lia. enum x.
Qed.

Lemma lxor_inj_l a b c : Z.lxor a b = Z.lxor c b -> a = c.
Proof. intros E. by rewrite <- (Z.lxor_0_r a), <- (Z.lxor_nilpotent b), <- Z.lxor_assoc, E, Z.lxor_assoc, Z.lxor_nilpotent, Z.lxor_0_r. Qed.

Lemma lxor_inj_r a b c : Z.lxor a b = Z.lxor a c -> b = c.
Proof. rewrite !(Z.lxor_comm a). apply lxor_inj_l. Qed.

(** The upper octets of the table are all different. *)
Lemma table_high x y : 0 <= x < 256 -> 0 <= y < 256 ->
  Z.shiftr (Nat.iter 8 crc_bit x) 8 = Z.shiftr (Nat.iter 8 crc_bit y) 8 -> x = y.
Proof.
  intros Hx Hy E. assert (NoDup ((λ i, Z.shiftr (Nat.iter 8 crc_bit i) 8) <$> seqZ 0 256)) as Hn.
  { apply (bool_decide_unpack _). vm_compute. done. }
  assert (Z.to_nat x = Z.to_nat y) as ->%Z2Nat.inj; [|done|lia..].
  eapply (NoDup_lookup _ _ _ (Z.shiftr (Nat.iter 8 crc_bit x) 8) Hn).
  - rewrite list_lookup_fmap, lookup_seqZ_lt by lia. cbn. by rewrite Z2Nat.id, Z.add_0_l by lia.
  - rewrite list_lookup_fmap, lookup_seqZ_lt, E by lia. cbn. by rewrite Z2Nat.id, Z.add_0_l by lia.
Qed.

(** A step can be undone: it loses nothing of the state or of the octet. *)
Lemma crc_step_inj crc crc' b b' : is_u16 crc -> is_u16 crc' -> is_u8 b -> is_u8 b' ->
  crc_step crc b = crc_step crc' b' -> (crc = crc' <-> b = b').
Proof.
  intros Hc Hc' Hb Hb'. unfold is_u16, is_u8 in *. unfold crc_step.
  assert (0 <= Z.lxor (as_u8 crc) b < 256) as Hx by (apply (lxor_range 8); unfold as_u8; lia).
  assert (0 <= Z.lxor (as_u8 crc') b' < 256) as Hx' by (apply (lxor_range 8); unfold as_u8; lia).
  rewrite !crc_table by done. cbn [default from_option id]. intros E.
  assert (Z.lxor (as_u8 crc) b = Z.lxor (as_u8 crc') b') as Ex.
  { apply table_high; try done. apply (f_equal (λ z, Z.shiftr z 8)) in E. rewrite !Z.shiftr_lxor in E.
    assert (∀ c, 0 <= c < 65536 -> Z.shiftr (Z.shiftr c 8) 8 = 0) as H0.
    { intros c H. rewrite !Z.shiftr_div_pow2 by lia. lia. }
    rewrite !H0, !Z.lxor_0_l in E by lia. done. }
  rewrite Ex in E. apply lxor_inj_l in E. rewrite !Z.shiftr_div_pow2 in E by lia.
  split; intros ->.
  - by apply lxor_inj_r in Ex.
  - apply lxor_inj_l in Ex. unfold as_u8 in Ex. lia.
Qed.

(** The name of a file is hashed as intended: the table-driven
    [crc16_ibm] is, for every string of octets, the bit-by-bit CRC-16 with
    polynomial [0xA001] and initial value 0; the table is never indexed out
    of range and the result fits in 16 bits; and two names of the same length
    that differ in exactly one octet never get the same number. *)
Theorem crc16_exact data :
  octets data ->
  crc16_ibm data = crc_bitwise data /\ is_u16 (crc16_ibm data) /\
  ∀ pre b b' post, data = pre ++ b :: post -> is_u8 b' ->
    crc16_ibm (pre ++ b' :: post) = crc16_ibm data -> b' = b.
Proof.
  intros Hd. assert (∀ l c, octets l -> is_u16 c ->
    fold_left crc_step l c = fold_left (λ crc b, Nat.iter 8 crc_bit (Z.lxor crc b)) l c /\ is_u16 (fold_left crc_step l c)) as Hrun.
  { induction l as [|b l IH]; intros c Hl Hc; [done|]. autorewrite with octets in Hl. destruct Hl as [Hb Hl].
    cbn [fold_left]. rewrite <- crc_step_bits by done. apply IH; [done|]. by apply crc_step_range. }
  split; [by apply Hrun|]. split; [by apply Hrun|]. intros pre b b' post -> Hb'.
  autorewrite with octets in Hd. destruct Hd as (Hpre & Hb & Hpost). unfold crc16_ibm. rewrite !fold_left_app. cbn [fold_left].
  assert (∀ l c c', octets l -> is_u16 c -> is_u16 c' -> fold_left crc_step l c = fold_left crc_step l c' -> c = c') as Hinj.
  { induction l as [|x l IH]; intros c c' Hl Hc Hc'; [done|]. autorewrite with octets in Hl. destruct Hl as [Hx Hl].
    cbn [fold_left]. intros E%IH; try done; try by apply crc_step_range.
    destruct (crc_step_inj c c' x x Hc Hc' Hx Hx E) as [_ H]. by apply H. }
  destruct (Hrun pre 0 Hpre ltac:(by unfold is_u16)) as [_ Hc].
  intros E%Hinj; [|done|by apply crc_step_range..].
  destruct (crc_step_inj _ _ _ _ Hc Hc Hb' Hb E) as [H _]. by apply H.
Qed.

(** The check value of the algorithm, on the string 123456789. *)
Example crc16_check : crc16_ibm [0x31; 0x32; 0x33; 0x34; 0x35; 0x36; 0x37; 0x38; 0x39] = 0xBB3D.
Proof. vm_compute. done. Qed.

Lemma crc16_exact_witness :
  octets [0x61; 0x2e; 0x62] /\
  (crc16_ibm [0x61; 0x2e; 0x62] = crc_bitwise [0x61; 0x2e; 0x62] /\ is_u16 (crc16_ibm [0x61; 0x2e; 0x62]) /\
   ∀ pre b b' post, [0x61; 0x2e; 0x62] = pre ++ b :: post -> is_u8 b' ->
     crc16_ibm (pre ++ b' :: post) = crc16_ibm [0x61; 0x2e; 0x62] -> b' = b).
Proof.
  assert (octets [0x61; 0x2e; 0x62]) as H by (repeat constructor; done). split; [done|].
  apply (crc16_exact [0x61; 0x2e; 0x62] H).
Defined.
