(* ===== verification/FsProvider.v ===== *)
(** * The file-system provider

    [file_transfer/fs.rs]: the storage provider that keeps the files of one
    directory, found by the hash of their names (Crc16.v). The directory and
    the calls of [std::fs] and [tokio::fs] the code makes are modelled as far
    as the code uses them: names lead to regular files (by inode), to
    directories or through symbolic links out of the directory; an open file
    is an inode with an offset. What the system decides is a parameter: which
    calls fail ([fault], by the number of the call, and [lstat_fault] for those
    that look at a link), how much a read returns and a write that fails has
    written, the order in which a directory is listed and the time stamps. Errors carry
    no text. *)

From S2P Require Import Prelude Bytes Codec AsduHeader InfoElements Asdu AsduFile FileSession FtService Calendar Crc16.
From stdpp Require Import sorting.
From Stdlib Require Import Ascii.
#[local] Open Scope Z_scope.
#[local] Set Default Proof Using "Type".

(** ** The directory *)

(** A name of the base directory. A link leads to an inode or nowhere. *)
Inductive Node :=
| NFile (ino : nat)
| NDir (len mtime : Z)
| NLink (target : option nat).

#[export] Instance Node_eq_dec : EqDecision Node.
Proof. solve_decision. Defined.

(** fs.rs 41-49, CollisionStrategy. *)
Inductive CollisionStrategy := CsError | KeepFirst | KeepLast.

(** fs.rs 58-64, Inner. The index, with the directory it is of: names,
    contents and time stamps of files, and the number of calls made. *)
Record FsWorld := mkFs {
  fs_names : gmap string Node; fs_inodes : gmap nat (bytes * Z); fs_index : gmap Z string; fs_calls : nat }.

(** fs.rs 247-249, FsFileReader. An inode and an offset. *)
Record FsFileReader := mkFsReader { fr_ino : nat; fr_off : nat }.

(** fs.rs 273-278, FsFileWriter. *)
Record FsFileWriter := mkFsWriter {
  fw_file : option (nat * nat); fw_partial : string; fw_final : string; fw_provider : bool }.

(** ** Names *)

Definition string_octets (s : string) : bytes := (λ a, Z.of_N (Ascii.N_of_ascii a)) <$> String.list_ascii_of_string s.

(** A name cut at its last dot. *)
Fixpoint last_dot (s : string) : option (string * string) :=
  match s with
  | EmptyString => None
  | String c s' =>
      match last_dot s' with
      | Some (b, e) => Some (String c b, e)
      | None => if Ascii.eqb c "."%char then Some (EmptyString, s') else None
      end
  end.
(** [Path::extension]. *)
Definition extension (s : string) : option string :=
  match last_dot s with
  | Some (EmptyString, _) | None => None
  | Some (_, e) => Some e
  end.

(** fs.rs 314-318, with_partial_suffix. *)
Definition with_partial_suffix (name : string) : string := (name ++ ".partial")%string.

Definition hex_digit (z : Z) : string :=
  match String.get (Z.to_nat z) "0123456789ABCDEF" with Some c => String c EmptyString | None => EmptyString end.
(** fs.rs 133-137, FsFileTransferProvider::upload_target. *)
Definition upload_target (nof : NameOfFile) : string :=
  let n := nof_0 nof in
  ("upload_" ++ hex_digit (n / 4096) ++ hex_digit (n / 256 mod 16) ++ hex_digit (n / 16 mod 16) ++
   hex_digit (n mod 16) ++ ".bin")%string.

(** fs.rs 320-322, clamp_u32. *)
Definition clamp_u32 (v : Z) : Z := Z.min v 4294967295.

(** The number a name is found by. *)
Definition nof_of_name (name : string) : Z := crc16_ibm (string_octets name).

(** The order of the listing, by number. *)
Definition nof_le (a b : Z * string) : Prop := a.1 <= b.1.
#[export] Instance nof_le_dec a b : Decision (nof_le a b).
Proof. unfold nof_le. apply _. Defined.
#[export] Instance nof_le_total : Total nof_le.
Proof. intros a b. unfold nof_le. lia. Qed.

(** ** The provider *)

Section Provider.
Context (collision : CollisionStrategy).
Context (fault lstat_fault : nat -> bool) (read_len : nat -> nat -> nat) (torn : nat -> nat) (stamp : nat -> Z).
Context (read_dir : gmap string Node -> list (string * Node)).

Definition set_names (m : gmap string Node) (w : FsWorld) : FsWorld :=
  mkFs m (fs_inodes w) (fs_index w) (fs_calls w).
Definition set_inodes (m : gmap nat (bytes * Z)) (w : FsWorld) : FsWorld :=
  mkFs (fs_names w) m (fs_index w) (fs_calls w).
Definition set_index (m : gmap Z string) (w : FsWorld) : FsWorld :=
  mkFs (fs_names w) (fs_inodes w) m (fs_calls w).

(** *** Calls of the system *)

(** Whether a call succeeds as far as the system is concerned. *)
Definition call_ok (w : FsWorld) : bool * FsWorld :=
  (negb (fault (fs_calls w)), mkFs (fs_names w) (fs_inodes w) (fs_index w) (S (fs_calls w))).

(** [tokio::fs::symlink_metadata], which does not follow a link: of it only
    the kind is used. It fails when there is no such name, or when the system
    lets it fail. *)
Definition symlink_metadata (name : string) (w : FsWorld) : option Node * FsWorld :=
  (if lstat_fault (fs_calls w) then None else fs_names w !! name,
   mkFs (fs_names w) (fs_inodes w) (fs_index w) (S (fs_calls w))).

(** [tokio::fs::metadata], which follows: length and time stamp. *)
Definition metadata (name : string) (w : FsWorld) : option (Z * Z) * FsWorld :=
  let (ok, w) := call_ok w in
  (if negb ok then None else
   match fs_names w !! name with
   | Some (NFile i) | Some (NLink (Some i)) =>
       match fs_inodes w !! i with Some (data, t) => Some (Z.of_nat (length data), t) | None => None end
   | Some (NDir len t) => Some (len, t)
   | _ => None
   end, w).

(** [tokio::fs::File::open], which follows a link. A directory cannot be read. *)
Definition file_open (name : string) (w : FsWorld) : option nat * FsWorld :=
  let (ok, w) := call_ok w in
  (if negb ok then None else
   match fs_names w !! name with
   | Some (NFile i) | Some (NLink (Some i)) => Some i
   | _ => None
   end, w).

(** [tokio::fs::File::create], which truncates a file, also at the end of a
    link, or makes a new one, also at the end of a dangling link. *)
Definition file_create (name : string) (w : FsWorld) : option nat * FsWorld :=
  let (ok, w) := call_ok w in
  let t := stamp (fs_calls w) in
  if negb ok then (None, w) else
  let i := fresh (dom (fs_inodes w)) in
  match fs_names w !! name with
  | Some (NFile j) | Some (NLink (Some j)) => (Some j, set_inodes (<[j := ([], t)]> (fs_inodes w)) w)
  | Some (NDir _ _) => (None, w)
  | Some (NLink None) =>
      (Some i, set_names (<[name := NLink (Some i)]> (fs_names w)) (set_inodes (<[i := ([], t)]> (fs_inodes w)) w))
  | None => (Some i, set_names (<[name := NFile i]> (fs_names w)) (set_inodes (<[i := ([], t)]> (fs_inodes w)) w))
  end.

(** [AsyncReadExt::read] into [max] octets: some of what is left, at least
    one octet if there is one. *)
Definition file_read (i off max : nat) (w : FsWorld) : option bytes * FsWorld :=
  let (ok, w) := call_ok w in
  if negb ok then (None, w) else
  let data := drop off (from_option fst [] (fs_inodes w !! i)) in
  let n := Nat.min (Nat.min max (length data)) (Nat.max 1 (read_len (fs_calls w) max)) in
  (Some (take n data), w).

(** [AsyncWriteExt::write_all] at an offset, with the number of octets that
    are written: all of them, or any part when the call fails. *)
Definition splice (off : nat) (new data : bytes) : bytes :=
  take off data ++ replicate (off - length data) 0%Z ++ new ++ drop (off + length new) data.
Definition file_write (i off : nat) (new : bytes) (w : FsWorld) : bool * nat * FsWorld :=
  let (ok, w) := call_ok w in
  let new := if ok then new else take (torn (fs_calls w)) new in
  (ok, length new,
   set_inodes (<[i := (splice off new (from_option fst [] (fs_inodes w !! i)), stamp (fs_calls w))]> (fs_inodes w)) w).

(** [tokio::fs::rename], which replaces what has the new name unless it is a
    directory, and moves a link as it is. *)
Definition file_rename (from to : string) (w : FsWorld) : bool * FsWorld :=
  let (ok, w) := call_ok w in
  if negb ok then (false, w) else
  match fs_names w !! from, fs_names w !! to with
  | None, _ => (false, w)
  | Some (NFile _ as node), Some (NDir _ _) | Some (NLink _ as node), Some (NDir _ _) => (false, w)
  | Some (NDir _ _ as node), Some (NFile _) | Some (NDir _ _ as node), Some (NLink _) => (false, w)
  | Some node, _ => (true, set_names (<[to := node]> (delete from (fs_names w))) w)
  end.

(** [tokio::fs::remove_file]. *)
Definition file_remove (name : string) (w : FsWorld) : bool * FsWorld :=
  let (ok, w) := call_ok w in
  if negb ok then (false, w) else
  match fs_names w !! name with
  | Some (NFile _) | Some (NLink _) => (true, set_names (delete name (fs_names w)) w)
  | _ => (false, w)
  end.

(** *** Index *)

(** Whether a name is indexed: a regular file that is not an upload in
    progress. What a regular file of the (canonical) base directory is called
    there is its canonical and its relative path. *)
Definition indexable (name : string) (node : Node) : bool :=
  match node with NFile _ => negb (bool_decide (extension name = Some "partial"%string)) | _ => false end.

(** fs.rs 329-363, scan_dir (loop). For each entry: the entry itself, its
    file type, and if it is to be indexed its canonical path. *)
Fixpoint scan_entries (entries : list (string * Node)) (idx : gmap Z string) (w : FsWorld) :
    (gmap Z string + FileTransferError) * FsWorld :=
  match entries with
  | [] => (inl idx, w)
  | (name, node) :: entries =>
      let (ok, w) := call_ok w in if negb ok then (inr FtIo, w) else
      let (ok, w) := call_ok w in if negb ok then (inr FtIo, w) else
      if negb (indexable name node) then scan_entries entries idx w else
      let (ok, w) := call_ok w in if negb ok then (inr FtIo, w) else
      let nof := nof_of_name name in
      match idx !! nof, collision with
      | None, _ => scan_entries entries (<[nof := name]> idx) w
      | Some _, CsError => (inr (Collision (mkNof nof)), w)
      | Some _, KeepFirst => scan_entries entries idx w
      | Some _, KeepLast => scan_entries entries (<[nof := name]> idx) w
      end
  end.

(** fs.rs 324-365, scan_dir. *)
Definition scan_dir (w : FsWorld) : (gmap Z string + FileTransferError) * FsWorld :=
  let (ok, w) := call_ok w in
  if negb ok then (inr FtIo, w) else scan_entries (read_dir (fs_names w)) ∅ w.

(** fs.rs 76-101, FsFileTransferProvider::with_collision_strategy. [base] is
    what [canonicalize] and [is_dir] say of the base directory. *)
Definition with_collision_strategy (base : option bool) (w : FsWorld) : FsWorld + FileTransferError :=
  match base with
  | None => inr (FtOther "cannot canonicalise base_dir")
  | Some false => inr (FtOther "base_dir is not a directory")
  | Some true =>
      match scan_dir w with
      | (inl idx, w) => inl (set_index idx w)
      | (inr e, _) => inr e
      end
  end.

(** fs.rs 110-120, FsFileTransferProvider::rescan. *)
Definition rescan (w : FsWorld) : (nat + FileTransferError) * FsWorld :=
  match scan_dir w with
  | (inl idx, w) => (inl (size idx), set_index idx w)
  | (inr e, w) => (inr e, w)
  end.

(** fs.rs 122-128, FsFileTransferProvider::resolve. *)
Definition resolve (nof : NameOfFile) (w : FsWorld) : string + FileTransferError :=
  match fs_index w !! nof_0 nof with Some p => inl p | None => inr (NotFound nof) end.

(** *** FileTransferProvider *)

(** A time stamp in milliseconds since 1970, as the calendar takes it. *)
Definition since_epoch (t : Z) : option (Z * Z) := if t <? 0 then None else Some (t / 1000, t mod 1000).

(** fs.rs 155-172, FsFileTransferProvider::list_directory (loop). *)
Fixpoint list_entries (total i : nat) (entries : list (Z * string)) (w : FsWorld) : list ProviderEntry * FsWorld :=
  match entries with
  | [] => ([], w)
  | (nof, path) :: entries =>
      let (meta, w) := metadata path w in
      match meta with
      | None => list_entries total (S i) entries w
      | Some (len, modified) =>
          let last := bool_decide (S i = total) in
          let entry := mkProviderEntry (mkNof nof)
            (mkMetadata (clamp_u32 len) (mkSof 0 last false false) modified (system_time_to_cp56 (since_epoch modified))) in
          let (out, w) := list_entries total (S i) entries w in (entry :: out, w)
      end
  end.

(** fs.rs 142-175, FsFileTransferProvider::list_directory. *)
Definition list_directory (w : FsWorld) : list ProviderEntry * FsWorld :=
  let entries := merge_sort nof_le (map_to_list (fs_index w)) in
  list_entries (length entries) 0 entries w.

(** fs.rs 177-191, FsFileTransferProvider::lookup. *)
Definition fs_lookup (nof : NameOfFile) (w : FsWorld) : (option FileMetadata + FileTransferError) * FsWorld :=
  match resolve nof w with
  | inr (NotFound _) => (inl None, w)
  | inr e => (inr e, w)
  | inl path =>
      match metadata path w with
      | (None, w) => (inr FtIo, w)
      | (Some (len, modified), w) =>
          (inl (Some (mkMetadata (clamp_u32 len) (mkSof 0 false false false) modified
                        (system_time_to_cp56 (since_epoch modified)))), w)
      end
  end.

(** fs.rs 193-207, FsFileTransferProvider::open_read. *)
Definition fs_open_read (nof : NameOfFile) (w : FsWorld) : (FsFileReader + FileTransferError) * FsWorld :=
  match resolve nof w with
  | inr e => (inr e, w)
  | inl path =>
      match symlink_metadata path w with
      | (None, w) => (inr FtIo, w)
      | (Some (NLink _), w) => (inr PermissionDenied, w)
      | (Some _, w) =>
          match file_open path w with
          | (None, w) => (inr FtIo, w)
          | (Some i, w) => (inl (mkFsReader i 0), w)
          end
      end
  end.

(** [if let Ok(m) = ..] and [is_symlink]: a failure is no link. *)
Definition is_link (n : option Node) : bool := match n with Some (NLink _) => true | _ => false end.

(** fs.rs 209-243, FsFileTransferProvider::open_write. *)
Definition fs_open_write (nof : NameOfFile) (_expected_length : Z) (w : FsWorld) :
    (FsFileWriter + FileTransferError) * FsWorld :=
  let final_path :=
    match resolve nof w with
    | inl p => inl p
    | inr (NotFound _) => inl (upload_target nof)
    | inr e => inr e
    end in
  match final_path with
  | inr e => (inr e, w)
  | inl final_path =>
      let (m, w) := symlink_metadata final_path w in
      if is_link m then (inr PermissionDenied, w) else
      let partial := with_partial_suffix final_path in
      let (m, w) := symlink_metadata partial w in
      if is_link m then (inr PermissionDenied, w) else
      match file_create partial w with
      | (None, w) => (inr FtIo, w)
      | (Some i, w) => (inl (mkFsWriter (Some (i, 0%nat)) partial final_path true), w)
      end
  end.

(** fs.rs 253-268, FsFileReader::read_segment. *)
Definition fs_read_segment (r : FsFileReader) (max_bytes : nat) (w : FsWorld) :
    (option bytes + FileTransferError) * FsFileReader * FsWorld :=
  match max_bytes with
  | O => (inl (Some []), r, w)
  | _ =>
      match file_read (fr_ino r) (fr_off r) max_bytes w with
      | (None, w) => (inr FtIo, r, w)
      | (Some [], w) => (inl None, r, w)
      | (Some buf, w) => (inl (Some buf), mkFsReader (fr_ino r) (fr_off r + length buf), w)
      end
  end.

(** fs.rs 282-289, FsFileWriter::write_segment. Whether it succeeds. *)
Definition fs_write_segment (wr : FsFileWriter) (data : bytes) (w : FsWorld) : bool * FsFileWriter * FsWorld :=
  match fw_file wr with
  | None => (false, wr, w)
  | Some (i, off) =>
      match file_write i off data w with
      | (ok, n, w) => (ok, mkFsWriter (Some (i, off + n)%nat) (fw_partial wr) (fw_final wr) (fw_provider wr), w)
      end
  end.

(** fs.rs 291-307, FsFileWriter::finalize. *)
Definition fs_finalize (wr : FsFileWriter) (success : bool) (w : FsWorld) : bool * FsWorld :=
  let '(flushed, w) := match fw_file wr with None => (true, w) | Some _ => call_ok w end in
  if negb flushed then (false, w) else
  if success then
    match file_rename (fw_partial wr) (fw_final wr) w with
    | (false, w) => (false, w)
    | (true, w) => (true, if fw_provider wr then (rescan w).2 else w)
    end
  else (true, (file_remove (fw_partial wr) w).2).

(** The trait [FileTransferProvider], without the listing. *)
#[export] Instance fs_provider : Provider FsWorld FsFileReader FsFileWriter := {
  pv_lookup := fs_lookup; pv_open_read := fs_open_read; pv_open_write := fs_open_write;
  pv_read_segment := fs_read_segment; pv_write_segment := fs_write_segment; pv_finalize := fs_finalize }.

(** ** The index *)

Definition same_files (w w' : FsWorld) : Prop := fs_names w' = fs_names w /\ fs_inodes w' = fs_inodes w.

(** The files of a listing that are to be indexed, and those among them (and
    in an index so far) that hash to a number. *)
Definition files_of (entries : list (string * Node)) : list string :=
  (filter (λ e, indexable e.1 e.2 = true) entries).*1.
Definition claims (idx : gmap Z string) (entries : list (string * Node)) (nof : Z) : list string :=
  option_list (idx !! nof) ++ filter (λ f, nof_of_name f = nof) (files_of entries).

(** Which of them the strategy takes. *)
Definition pick (l : list string) : option string :=
  match collision with KeepLast => last l | _ => head l end.

Definition scan_spec (idx : gmap Z string) (entries : list (string * Node)) (r : gmap Z string + FileTransferError) : Prop :=
  match r with
  | inl idx' => ∀ n, idx' !! n = pick (claims idx entries n) /\
      (collision = CsError -> (length (claims idx entries n) <= 1)%nat)
  | inr e => (∃ n, e = Collision (mkNof n) /\ collision = CsError /\ (2 <= length (claims idx entries n))%nat) \/
      (e = FtIo /\ ∃ k, fault k = true)
  end.

Lemma files_cons name node entries :
  files_of ((name, node) :: entries) = (if indexable name node then [name] else []) ++ files_of entries.
Proof. unfold files_of. rewrite filter_cons. cbn. by destruct (indexable name node); case_decide. Qed.

Lemma claims_skip idx name node entries n : indexable name node = false ->
  claims idx ((name, node) :: entries) n = claims idx entries n.
Proof. intros H. unfold claims. by rewrite files_cons, H. Qed.

Lemma claims_take idx name node entries n : indexable name node = true ->
  claims idx ((name, node) :: entries) n =
  option_list (idx !! n) ++ (if decide (nof_of_name name = n) then [name] else []) ++
  filter (λ f, nof_of_name f = n) (files_of entries).
Proof. intros H. unfold claims. rewrite files_cons, H. cbn [app]. rewrite filter_cons. by case_decide. Qed.

Lemma call_ok_spec w ok w' : call_ok w = (ok, w') -> same_files w w' /\ fs_index w' = fs_index w /\
  (ok = false -> ∃ k, fault k = true).
Proof. intros [= <- <-]. split; [done|]. split; [done|]. intros H. exists (fs_calls w). by destruct (fault _). Qed.

(** Taking an entry into the index, and leaving one that is not wanted, does
    not change what is claimed. *)
Lemma scan_spec_ext idx entries idx' entries' r :
  (∀ n, pick (claims idx entries n) = pick (claims idx' entries' n)) ->
  (∀ n, collision = CsError -> claims idx entries n = claims idx' entries' n) ->
  scan_spec idx' entries' r -> scan_spec idx entries r.
Proof.
  intros Hp Hc. destruct r as [idx2|e]; cbn.
  - intros H n. destruct (H n) as [H1 H2]. split; [by rewrite Hp|]. intros E. rewrite (Hc n E). by apply H2.
  - intros [(n & -> & E & Hl)|H]; [|by right]. left. exists n. by rewrite (Hc n E).
Qed.

Lemma claims_insert idx name node entries n : indexable name node = true -> idx !! nof_of_name name = None ->
  claims idx ((name, node) :: entries) n = claims (<[nof_of_name name := name]> idx) entries n.
Proof.
  intros Hi Hn. rewrite claims_take by done. unfold claims. case_decide as E.
  - subst n. by rewrite Hn, lookup_insert_eq.
  - by rewrite lookup_insert_ne.
Qed.

Lemma scan_entries_spec entries idx w r w' : scan_entries entries idx w = (r, w') ->
  scan_spec idx entries r /\ same_files w w' /\ fs_index w' = fs_index w.
Proof.
  revert idx w. induction entries as [|[name node] entries IH]; intros idx w; cbn [scan_entries].
  { intros [= <- <-]. split; [|done]. intros n. unfold claims. cbn. rewrite app_nil_r.
    destruct (idx !! n); unfold pick; destruct collision; split; cbn; try done; lia. }
  destruct (call_ok w) as [ok1 w1] eqn:H1. destruct (call_ok_spec _ _ _ H1) as (Hs1 & Hi1 & Hf1).
  destruct ok1; cbn [negb]; [|intros [= <- <-]; split; [right; by auto|done]].
  destruct (call_ok w1) as [ok2 w2] eqn:H2. destruct (call_ok_spec _ _ _ H2) as (Hs2 & Hi2 & Hf2).
  assert (same_files w w2 /\ fs_index w2 = fs_index w) as [Hs Hi] by (unfold same_files in *; naive_solver congruence).
  clear Hs1 Hi1 Hs2 Hi2 H1 H2. destruct ok2; cbn [negb]; [|intros [= <- <-]; split; [right; by auto|done]].
  assert (∀ idx' w3, same_files w w3 /\ fs_index w3 = fs_index w ->
    (∀ n, pick (claims idx ((name, node) :: entries) n) = pick (claims idx' entries n)) ->
    (∀ n, collision = CsError -> claims idx ((name, node) :: entries) n = claims idx' entries n) ->
    scan_entries entries idx' w3 = (r, w') ->
    scan_spec idx ((name, node) :: entries) r /\ same_files w w' /\ fs_index w' = fs_index w) as Hgo.
  { intros idx' w3 [Hs3 Hi3] Hp Hc (Hspec & Hs' & Hi')%IH. split; [by eapply scan_spec_ext|].
    unfold same_files in *. naive_solver congruence. }
  destruct (indexable name node) eqn:Hix; cbn [negb]; [|apply Hgo; [done|by intros; rewrite claims_skip..]].
  destruct (call_ok w2) as [ok3 w3] eqn:H3. destruct (call_ok_spec _ _ _ H3) as (Hs3 & Hi3 & Hf3).
  assert (same_files w w3 /\ fs_index w3 = fs_index w) as [Hs' Hi'] by (unfold same_files in *; naive_solver congruence).
  destruct ok3; cbn [negb]; [|intros [= <- <-]; split; [right; by auto|done]].
  destruct (idx !! nof_of_name name) as [old|] eqn:Hold; [|apply Hgo; [done|by intros; rewrite claims_insert..]].
  assert (∀ n, claims idx ((name, node) :: entries) n =
    option_list (idx !! n) ++ (if decide (nof_of_name name = n) then [name] else []) ++
    filter (λ f, nof_of_name f = n) (files_of entries)) as Hc by (intros n; by apply claims_take).
  destruct collision eqn:Hcol.
  - intros [= <- <-]. split; [|done]. left. exists (nof_of_name name). split; [done|]. split; [done|].
    rewrite Hc, Hold, decide_True by done. cbn. lia.
  - apply Hgo; [done| |intros ? ?; congruence]. intros n. rewrite Hc. unfold pick, claims. rewrite Hcol.
    case_decide as E; [|done]. subst n. by rewrite Hold.
  - apply Hgo; [done| |intros ? ?; congruence]. intros n. rewrite Hc. unfold pick, claims. rewrite Hcol.
    case_decide as E; [|by rewrite lookup_insert_ne]. subst n. by rewrite Hold, lookup_insert_eq.
Qed.

Definition indexed_file (w : FsWorld) (name : string) : Prop :=
  extension name ≠ Some "partial"%string /\ ∃ i, fs_names w !! name = Some (NFile i).

Lemma files_of_listing w name : (∀ m, read_dir m ≡ₚ map_to_list m) ->
  name ∈ files_of (read_dir (fs_names w)) <-> indexed_file w name.
Proof.
  intros Hr. unfold files_of, indexed_file. rewrite list_elem_of_fmap. split.
  - intros ([n node] & -> & H). apply list_elem_of_filter in H as [Hi Hin].
    rewrite Hr in Hin. apply elem_of_map_to_list in Hin. cbn in *. destruct node as [j|j|j]; try done.
    cbn in Hi. apply negb_true_iff, bool_decide_eq_false in Hi. eauto.
  - intros (He & j & Hj). exists (name, NFile j). split; [done|]. apply list_elem_of_filter. split.
    + cbn. by rewrite bool_decide_eq_false_2.
    + rewrite Hr. by apply elem_of_map_to_list.
Qed.

Lemma files_of_NoDup w : (∀ m, read_dir m ≡ₚ map_to_list m) -> NoDup (files_of (read_dir (fs_names w))).
Proof.
  intros Hr. apply (sublist_NoDup _ (read_dir (fs_names w)).*1); [|apply fmap_sublist, sublist_filter].
  rewrite Hr. apply NoDup_fst_map_to_list.
Qed.

(** The index of the directory is exact. Scanning changes nothing on
    disk. An index maps a number only to a regular file of the directory that
    hashes to it and is no upload in progress, and every such file's number is
    indexed: under the strategy [Error] to that very file, otherwise to the
    first or the last of the files listed with that number. A scan that fails
    found two different files of one number under [Error], or a call of the
    system failed. *)
Theorem index_exact w r w' :
  (∀ m, read_dir m ≡ₚ map_to_list m) ->
  scan_dir w = (r, w') ->
  same_files w w' /\
  match r with
  | inl idx =>
      (∀ nof name, idx !! nof = Some name -> nof_of_name name = nof /\ indexed_file w name) /\
      (∀ name, indexed_file w name -> ∃ name', idx !! nof_of_name name = Some name' /\
         (collision = CsError -> name' = name)) /\
      (∀ nof, let same := filter (λ f, nof_of_name f = nof) (files_of (read_dir (fs_names w))) in
         idx !! nof = match collision with KeepLast => last same | _ => head same end)
  | inr e =>
      (∃ name name', name ≠ name' /\ nof_of_name name = nof_of_name name' /\ indexed_file w name /\ indexed_file w name' /\
         e = Collision (mkNof (nof_of_name name)) /\ collision = CsError) \/
      (e = FtIo /\ ∃ k, fault k = true)
  end.
Proof.
  intros Hr. unfold scan_dir. destruct (call_ok w) as [ok w1] eqn:Hc. destruct (call_ok_spec _ _ _ Hc) as (Hs & _ & Hf).
  destruct ok; cbn [negb]; [|intros [= <- <-]; split; [done|right; by auto]].
  intros (Hspec & Hs' & _)%scan_entries_spec. split; [unfold same_files in *; naive_solver congruence|].
  destruct Hs as [Hn _]. rewrite Hn in Hspec.
  assert (∀ n, claims ∅ (read_dir (fs_names w)) n = filter (λ f, nof_of_name f = n) (files_of (read_dir (fs_names w)))) as Hcl.
  { intros n. unfold claims. by rewrite lookup_empty. }
  pose proof (λ name, files_of_listing w name Hr) as Hin. pose proof (files_of_NoDup w Hr) as Hnd.
  unfold scan_spec in Hspec. set (files := files_of (read_dir (fs_names w))) in *.
  destruct r as [idx|e]; setoid_rewrite Hcl in Hspec.
  - split_and!.
    + intros nof name H. destruct (Hspec nof) as [Hp _]. rewrite H in Hp. symmetry in Hp.
      assert (name ∈ filter (λ f, nof_of_name f = nof) files) as Hel.
      { unfold pick in Hp. destruct collision; [..|by apply last_Some_elem_of in Hp];
          (destruct (filter _ files); [done|]); injection Hp as ->; by constructor. }
      apply list_elem_of_filter in Hel as [? ?]. split; [done|]. by apply Hin.
    + intros name Hname. apply Hin in Hname. destruct (Hspec (nof_of_name name)) as [Hp Hlen].
      assert (name ∈ filter (λ f, nof_of_name f = nof_of_name name) files) as Hel by (by apply list_elem_of_filter).
      rewrite Hp. destruct (filter _ files) as [|x l] eqn:Hl; [by apply elem_of_nil in Hel|]. unfold pick. destruct collision.
      * exists x. split; [done|]. intros _. specialize (Hlen eq_refl). destruct l; [|cbn in Hlen; lia].
        by apply list_elem_of_singleton in Hel.
      * by exists x.
      * destruct (last (x :: l)) as [y|] eqn:Hy; [by exists y|]. by apply last_None in Hy.
    + intros nof. destruct (Hspec nof) as [-> _]. done.
  - destruct Hspec as [(n & -> & Hcol & Hlen)|H]; [left|by right].
    destruct (filter (λ f, nof_of_name f = n) files) as [|x [|y l]] eqn:Hl; cbn in Hlen; try lia.
    assert (x ∈ filter (λ f, nof_of_name f = n) files /\ y ∈ filter (λ f, nof_of_name f = n) files) as [Hx Hy]
      by (rewrite Hl; split; repeat constructor).
    apply list_elem_of_filter in Hx as [Hnx Hx], Hy as [Hny Hy]. exists x, y. rewrite Hnx. split_and!; try done; try (by apply Hin).
    intros ->. apply (NoDup_filter (λ f, nof_of_name f = n)) in Hnd. rewrite Hl in Hnd.
    apply NoDup_cons in Hnd as [Hnd _]. apply Hnd. by constructor.
Qed.

(** ** Reading *)

Lemma take_nonnil {A} n (l : list A) : l ≠ [] -> (0 < n)%nat -> take n l ≠ [].
Proof. by destruct l, n; try done; lia. Qed.

(** One read: some of what is left from the offset. *)
Lemma read_segment_spec r n w res r' w' : fs_read_segment r n w = (res, r', w') ->
  same_files w w' /\ fr_ino r' = fr_ino r /\
  let rest := drop (fr_off r) (from_option fst [] (fs_inodes w !! fr_ino r)) in
  match res with
  | inl (Some chunk) => (n = 0%nat /\ chunk = [] /\ fr_off r' = fr_off r) \/
      (chunk ≠ [] /\ (length chunk <= n)%nat /\ fr_off r' = (fr_off r + length chunk)%nat /\
       rest = chunk ++ drop (fr_off r') (from_option fst [] (fs_inodes w !! fr_ino r)))
  | inl None => rest = [] /\ r' = r
  | inr _ => r' = r /\ ∃ k, fault k = true
  end.
Proof.
  clear stamp torn lstat_fault.
  unfold fs_read_segment. destruct n as [|n]; [intros [= <- <- <-]; split; [done|]; split; [done|]; by left|].
  unfold file_read. destruct (call_ok w) as [ok w1] eqn:Hc. destruct (call_ok_spec _ _ _ Hc) as ([Hn Hi] & _ & Hf).
  destruct ok; cbn [negb]; [|intros [= <- <- <-]; split; [done|]; split; [done|]; cbn; auto].
  rewrite Hi. set (rest := drop (fr_off r) (from_option fst [] (fs_inodes w !! fr_ino r))).
  set (k := Nat.min (Nat.min (S n) (length rest)) (Nat.max 1 (read_len (fs_calls w1) (S n)))).
  destruct (take k rest) as [|x l] eqn:Ht; intros [= <- <- <-]; (split; [done|]; split; [done|]); cbn zeta.
  - split; [|done]. destruct (decide (rest = [])) as [He|Hne]; [done|]. exfalso. revert Ht. apply take_nonnil; [done|].
    assert (length rest ≠ 0%nat) by (by intros ?%nil_length_inv). lia.
  - right. assert (length (x :: l) = k) as Hk by (rewrite <- Ht, length_take; lia).
    split; [done|]. split; [lia|]. split; [done|]. rewrite <- Ht. cbn [fr_off].
    change (S (length l)) with (length (x :: l)). rewrite Hk. rewrite <- drop_drop. fold rest. by rewrite take_drop.
Qed.

(** What a reader yields until it says that the file is at its end, or
    nothing if it fails or [fuel] segments are not enough. *)
Fixpoint read_to_end (fuel max : nat) (r : FsFileReader) (w : FsWorld) : option (list bytes) :=
  match fuel with
  | O => None
  | S fuel =>
      match fs_read_segment r max w with
      | (inl None, _, _) => Some []
      | (inl (Some chunk), r, w) => cons chunk <$> read_to_end fuel max r w
      | (inr _, _, _) => None
      end
  end.

Lemma read_to_end_spec max r w fuel : (∀ k, fault k = false) -> (0 < max)%nat ->
  let rest := drop (fr_off r) (from_option fst [] (fs_inodes w !! fr_ino r)) in
  (length rest < fuel)%nat ->
  ∃ chunks, read_to_end fuel max r w = Some chunks /\ concat chunks = rest /\
    Forall (λ c, c ≠ [] /\ (length c <= max)%nat) chunks.
Proof.
  clear stamp torn lstat_fault.
  intros Hok Hmax. revert r w. induction fuel as [|fuel IH]; intros r w rest Hlen; [lia|]. cbn [read_to_end].
  destruct (fs_read_segment r max w) as [[res r'] w'] eqn:Hr.
  destruct (read_segment_spec _ _ _ _ _ _ Hr) as ([_ Hi] & Hino & Hres). fold rest in Hres.
  destruct res as [[chunk|]|e].
  - destruct Hres as [(-> & _)|(Hne & Hcl & Hoff & Hrest)]; [lia|].
    assert (length rest = (length chunk + length (drop (fr_off r') (from_option fst [] (fs_inodes w !! fr_ino r))))%nat) as Hl
      by (rewrite Hrest at 1; by rewrite length_app).
    destruct chunk as [|x l]; [done|]. cbn [length] in Hl.
    destruct (IH r' w') as (chunks & -> & Hc & Hall); [rewrite Hi, Hino; lia|].
    exists ((x :: l) :: chunks). split; [done|]. split; [|by constructor]. rewrite Hi, Hino in Hc.
    cbn [concat]. by rewrite Hc, <- Hrest.
  - destruct Hres as [-> _]. by exists [].
  - destruct Hres as [_ [k Hk]]. by rewrite Hok in Hk.
Qed.

Lemma symlink_metadata_spec name w m w' : symlink_metadata name w = (m, w') ->
  same_files w w' /\ fs_index w' = fs_index w /\ (m = fs_names w !! name \/ m = None /\ ∃ k, lstat_fault k = true).
Proof.
  intros [= <- <-]. split; [done|]. split; [done|]. destruct (lstat_fault (fs_calls w)) eqn:E; [right; eauto|by left].
Qed.

(** A reader is opened only for a regular file of the directory. *)
Lemma open_read_spec nof w r w' : fs_open_read nof w = (inl r, w') ->
  ∃ name node, fs_index w !! nof_0 nof = Some name /\ fs_names w !! name = Some (NFile node) /\
    r = mkFsReader node 0 /\ same_files w w'.
Proof.
  unfold fs_open_read, resolve, file_open. destruct (fs_index w !! nof_0 nof) as [name|]; [|done].
  destruct (symlink_metadata name w) as [m w1] eqn:Hl. destruct (symlink_metadata_spec _ _ _ _ Hl) as ([Hn1 Hi1] & _ & Hm).
  destruct m as [node|]; [|done]. destruct Hm as [Hm|[? _]]; [|done]. rewrite <- Hn1 in Hm.
  destruct (call_ok w1) as [ok w2] eqn:Hc. destruct (call_ok_spec _ _ _ Hc) as ([Hn2 Hi2] & _ & _). rewrite Hn2, <- Hm.
  destruct node as [i|? ?|tgt]; destruct ok; cbn [negb]; try done. intros [= <- <-].
  exists name, i. split; [done|]. rewrite <- Hn1. split; [done|]. split; [done|]. split; congruence.
Qed.

(** A file is read as it is: a reader opened for a number gives, in
    segments of at least one and at most [max] octets, however little each
    call of the system returns, exactly the contents of the regular file the
    number is indexed to, and then says that the file is at its end. *)
Theorem read_exact nof max w r w' :
  (∀ k, fault k = false) -> (0 < max)%nat ->
  fs_open_read nof w = (inl r, w') ->
  ∃ name node, fs_index w !! nof_0 nof = Some name /\ fs_names w !! name = Some (NFile node) /\
    ∀ data t, fs_inodes w !! node = Some (data, t) ->
    ∃ chunks, read_to_end (S (length data)) max r w' = Some chunks /\ concat chunks = data /\
      Forall (λ c, c ≠ [] /\ (length c <= max)%nat) chunks.
Proof.
  clear stamp torn.
  intros Hok Hmax Hopen. destruct (open_read_spec _ _ _ _ Hopen) as (name & node & Hx & Hn & -> & [_ Hi1]).
  exists name, node. split; [done|]. split; [done|]. intros data t Hi.
  pose proof (read_to_end_spec max (mkFsReader node 0) w' (S (length data)) Hok Hmax) as H. cbn in H.
  rewrite Hi1, Hi in H. cbn in H. rewrite drop_0 in H. apply H. lia.
Qed.

(** The readers of the directory end, so a service over it never hangs. *)
Lemma fs_readers_end : readers_end (PV := fs_provider).
Proof.
  exists (λ r w, length (drop (fr_off r) (from_option fst [] (fs_inodes w !! fr_ino r)))). intros r n w.
  unfold gives. cbn [pv_read_segment fs_provider]. destruct (fs_read_segment r n w) as [[res r'] w'] eqn:Hr.
  destruct (read_segment_spec _ _ _ _ _ _ Hr) as ([_ Hi] & Hino & Hres). cbn zeta in Hres. rewrite Hi, Hino.
  destruct res as [[chunk|]|e].
  - destruct Hres as [(_ & -> & ->)|(Hne & _ & Hoff & Hrest)]; [done|]. destruct chunk as [|x l]; [done|].
    rewrite Hrest, length_app. cbn [length]. lia.
  - by destruct Hres as [_ ->].
  - by destruct Hres as [-> _].
Qed.

(** ** Writing *)

(** A writer is given segments, and whether it accepts all of them. One that
    has refused a segment is given the next, as [deliver_segment] of
    FtService.v does. *)
Fixpoint write_segments (segs : list bytes) (wr : FsFileWriter) (w : FsWorld) : bool * FsFileWriter * FsWorld :=
  match segs with
  | [] => (true, wr, w)
  | data :: segs =>
      let '(ok, wr, w) := fs_write_segment wr data w in
      let '(all, wr, w) := write_segments segs wr w in (ok && all, wr, w)
  end.

(** Different names of files lead to different inodes, and an inode that has
    a name exists: there are no hard links. *)
Definition one_name (w : FsWorld) : Prop :=
  ∀ n n' i, fs_names w !! n = Some (NFile i) -> fs_names w !! n' = Some (NFile i) -> n = n'.
Definition inodes_exist (w : FsWorld) : Prop :=
  ∀ n i, fs_names w !! n = Some (NFile i) -> is_Some (fs_inodes w !! i).

Lemma splice_end data new : splice (length data) new data = data ++ new.
Proof.
  unfold splice. rewrite firstn_all, Nat.sub_diag, drop_ge by lia. cbn. by rewrite app_nil_r.
Qed.

(** What is written goes to the end of the file, and nothing else changes. *)
Lemma write_segments_spec segs i data t partial final p w all wr' w' :
  fs_inodes w !! i = Some (data, t) ->
  write_segments segs (mkFsWriter (Some (i, length data)) partial final p) w = (all, wr', w') ->
  fs_names w' = fs_names w /\ fs_index w' = fs_index w /\ (∀ j, j ≠ i -> fs_inodes w' !! j = fs_inodes w !! j) /\
  ∃ data' t', fs_inodes w' !! i = Some (data', t') /\ wr' = mkFsWriter (Some (i, length data')) partial final p /\
    (all = true -> data' = data ++ concat segs).
Proof.
  revert data t w all. induction segs as [|new segs IH]; intros data t w all Hi; cbn [write_segments concat].
  - intros [= <- <- <-]. rewrite app_nil_r. by eauto 10.
  - unfold fs_write_segment. cbn [fw_file]. unfold file_write. destruct (call_ok w) as [ok w1] eqn:Hc.
    destruct (call_ok_spec _ _ _ Hc) as ([Hn1 Hi1] & Hx1 & _). rewrite Hi1, Hi. cbn [from_option fst].
    set (part := if ok then new else take _ new). rewrite splice_end. cbn [fw_partial fw_final fw_provider].
    rewrite <- length_app. destruct (write_segments segs _ _) as [[all' wr2] w2] eqn:Hw. intros [= <- <- <-].
    apply (IH _ (stamp (fs_calls w1))) in Hw as (Hn' & Hx' & Hoth & data' & t' & Hi' & -> & Hall);
      [|cbn; by rewrite lookup_insert_eq].
    split; [by rewrite Hn'|]. split; [by rewrite Hx'|].
    split; [intros j Hj; rewrite Hoth by done; cbn; by rewrite lookup_insert_ne|].
    exists data', t'. split; [done|]. split; [done|]. intros [Hok Ha]%andb_true_iff. subst part. rewrite Hok in Hall.
    by rewrite app_assoc, (Hall Ha).
Qed.

(** What a name stands for: the contents of a file, or something else. *)
Definition view (w : FsWorld) (name : string) : option (bytes + Node) :=
  match fs_names w !! name with
  | Some (NFile i) => Some (inl (from_option fst [] (fs_inodes w !! i)))
  | Some node => Some (inr node)
  | None => None
  end.

Lemma view_ext w w' name : fs_names w' !! name = fs_names w !! name ->
  (∀ i, fs_names w !! name = Some (NFile i) -> fs_inodes w' !! i = fs_inodes w !! i) -> view w' name = view w name.
Proof. intros Hn Hi. unfold view. rewrite Hn. destruct (fs_names w !! name) as [[i| |]|]; try done. by rewrite (Hi i). Qed.

(** Where an upload goes. *)
Definition final_name (nof : NameOfFile) (w : FsWorld) : string := default (upload_target nof) (fs_index w !! nof_0 nof).

Lemma partial_differs name : with_partial_suffix name ≠ name.
Proof.
  unfold with_partial_suffix. induction name as [|c name IH]; [done|]. cbn. intros [= H]. done.
Qed.

(** A writer is what [File::create] makes of the partial name, which is no
    link unless the call that looks has failed. *)
Lemma open_write_creates nof len w wr w1 : fs_open_write nof len w = (inl wr, w1) ->
  let final := final_name nof w in let partial := with_partial_suffix final in
  ∃ w2 i, same_files w w2 /\ file_create partial w2 = (Some i, w1) /\ wr = mkFsWriter (Some (i, 0%nat)) partial final true /\
    (is_link (fs_names w !! partial) = false \/ ∃ k, lstat_fault k = true).
Proof.
  unfold fs_open_write, final_name, resolve. cbn zeta. intros H.
  replace (match match fs_index w !! nof_0 nof with Some p => inl p | None => inr (NotFound nof) end with
    | inl p => inl p | inr (NotFound _) => inl (upload_target nof) | inr e => inr e end)
    with (@inl string FileTransferError (default (upload_target nof) (fs_index w !! nof_0 nof))) in H
    by (by destruct (fs_index w !! nof_0 nof)).
  set (final := default _ _) in *. set (partial := with_partial_suffix final) in *.
  destruct (symlink_metadata final w) as [m1 v1] eqn:H1. destruct (symlink_metadata_spec _ _ _ _ H1) as ([Hn1 Hi1] & _ & _).
  destruct (is_link m1); [done|]. destruct (symlink_metadata partial v1) as [m2 v2] eqn:H2.
  destruct (symlink_metadata_spec _ _ _ _ H2) as ([Hn2 Hi2] & _ & Hm). destruct (is_link m2) eqn:Hl; [done|].
  destruct (file_create partial v2) as [[i|] v3] eqn:Hcr; [|done]. injection H as <- <-. exists v2, i.
  split; [split; congruence|]. split; [done|]. split; [done|]. destruct Hm as [-> |[_ Hk]]; [|by right]. left. congruence.
Qed.

(** A writer has an empty file of its own under the partial name. *)
Lemma open_write_spec nof len w wr w1 : (∀ k, lstat_fault k = false) -> one_name w -> inodes_exist w -> fs_open_write nof len w = (inl wr, w1) ->
  let final := final_name nof w in let partial := with_partial_suffix final in
  ∃ i t, wr = mkFsWriter (Some (i, 0%nat)) partial final true /\
    fs_names w1 = <[partial := NFile i]> (fs_names w) /\ fs_inodes w1 = <[i := ([], t)]> (fs_inodes w) /\
    (∀ n, fs_names w !! n = Some (NFile i) -> n = partial) /\ (fs_inodes w !! i = None \/ fs_names w !! partial = Some (NFile i)).
Proof.
  intros Hls Hone Hex Hopen. cbn zeta. unfold final_name. set (final := default (upload_target nof) (fs_index w !! nof_0 nof)).
  destruct (open_write_creates _ _ _ _ _ Hopen) as (w2 & i0 & [Hn2 Hi2] & E & -> & Hl). unfold final_name in E, Hl |- *.
  fold final in E, Hl |- *. clearbody final. clear Hopen. set (partial := with_partial_suffix final) in *.
  unfold file_create in E. destruct (call_ok w2) as [ok w0] eqn:Hc. destruct (call_ok_spec _ _ _ Hc) as ([Hn0 Hi0] & _ & _).
  rewrite Hn2 in Hn0. rewrite Hi2 in Hi0.
  destruct ok; cbn [negb] in E; [|done]. rewrite Hn0, Hi0 in E.
  destruct Hl as [Hl|[k Hk]]; [|by rewrite Hls in Hk].
  destruct (fs_names w !! partial) as [[i|? ?|?]|] eqn:Hp; try done.
  - injection E as <- <-. exists i, (stamp (fs_calls w0)). split; [done|]. cbn. rewrite ?Hn0.
    split; [by rewrite insert_id|]. split; [done|]. split; [|by right]. intros n Hn. by eapply Hone.
  - injection E as <- <-. exists (fresh (dom (fs_inodes w))), (stamp (fs_calls w0)). split; [done|]. cbn. rewrite ?Hn0.
    split; [done|]. split; [done|]. assert (fs_inodes w !! fresh (dom (fs_inodes w)) = None) as Hf.
    { apply not_elem_of_dom. apply is_fresh. }
    split; [|by left]. intros n [x Hn]%Hex. congruence.
Qed.

Lemma scan_dir_same w r w' : scan_dir w = (r, w') -> same_files w w'.
Proof.
  unfold scan_dir. destruct (call_ok w) as [ok w1] eqn:Hc. destruct (call_ok_spec _ _ _ Hc) as (Hs & _ & _).
  destruct ok; cbn [negb]; [|by intros [= <- <-]]. intros (_ & [? ?] & _)%scan_entries_spec. destruct Hs. split; congruence.
Qed.

Lemma rescan_same w : same_files w (rescan w).2.
Proof. unfold rescan. destruct (scan_dir w) as [[idx|e] w'] eqn:Hs; by apply scan_dir_same in Hs. Qed.

(** The end of an upload of [data] by the writer of [open_write_spec]. *)
Lemma finalize_spec i off partial final data t w ok success w' : partial ≠ final ->
  fs_names w !! partial = Some (NFile i) -> fs_inodes w !! i = Some (data, t) ->
  fs_finalize (mkFsWriter (Some (i, off)) partial final true) success w = (ok, w') ->
  (∀ name, name ≠ partial -> name ≠ final -> view w' name = view w name) /\
  (if ok && success then view w' final = Some (inl data) /\ view w' partial = None
   else view w' final = view w final /\ (view w' partial = None \/ ok = false \/ ∃ k, fault k = true)).
Proof.
  intros Hne Hp Hi. unfold fs_finalize. cbn [fw_file fw_partial fw_final fw_provider].
  assert (∀ w1, same_files w w1 -> ∀ name, view w1 name = view w name) as Hsame.
  { intros w1 [H1 H2] name. apply view_ext; intros; by rewrite ?H1, ?H2. }
  destruct (call_ok w) as [flushed w1] eqn:Hc. destruct (call_ok_spec _ _ _ Hc) as (Hs1 & _ & Hf1).
  destruct flushed; cbn [negb]; [|intros [= <- <-]; cbn; by auto].
  pose proof (Hsame _ Hs1) as Hv1. destruct Hs1 as [Hn1 Hi1]. destruct success.
  - unfold file_rename. destruct (call_ok w1) as [ok2 w2] eqn:Hc2. destruct (call_ok_spec _ _ _ Hc2) as ([Hn2 Hi2] & _ & _).
    assert (∀ name, view w2 name = view w name) as Hv2 by (apply Hsame; split; congruence).
    destruct ok2; cbn [negb]; [|intros [= <- <-]; cbn; by auto].
    rewrite Hn2, Hn1, Hp. set (w3 := set_names _ _).
    assert (∀ name, name ≠ partial -> name ≠ final -> view w3 name = view w name) as Hoth.
    { intros name H1 H2. apply view_ext; cbn; [by rewrite lookup_insert_ne, lookup_delete_ne|]. intros; congruence. }
    destruct (fs_names w !! final) as [[j|? ?|?]|] eqn:Hfin; intros [= <- <-]; cbn [andb]; [|by auto|..].
    all: destruct (rescan_same w3) as [Hn3 Hi3];
      assert (∀ name, view (rescan w3).2 name = view w3 name) as Hv3 by (intros name; apply view_ext; intros; by rewrite ?Hn3, ?Hi3);
      split; [intros; rewrite Hv3; by apply Hoth|]; rewrite !Hv3; unfold view; cbn;
      rewrite lookup_insert_eq, lookup_insert_ne, lookup_delete_eq, Hi2, Hi1, Hi by done; done.
  - unfold file_remove. destruct (call_ok w1) as [ok2 w2] eqn:Hc2. destruct (call_ok_spec _ _ _ Hc2) as ([Hn2 Hi2] & _ & Hf2).
    assert (∀ name, view w2 name = view w name) as Hv2 by (apply Hsame; split; congruence).
    rewrite Hn2, Hn1, Hp. intros [= <- <-]. cbn [andb]. destruct ok2; cbn [negb snd].
    + assert (∀ name, name ≠ partial -> view (set_names (delete partial (fs_names w)) w2) name = view w name) as Hoth.
      { intros name H. apply view_ext; cbn; [by rewrite lookup_delete_ne|]. intros; congruence. }
      split; [by auto|]. split; [by auto|]. left. unfold view. cbn. by rewrite lookup_delete_eq.
    + split; [by auto|]. split; [by auto|]. right. right. by apply Hf2.
Qed.


(** ** Nothing outside the directory is touched *)

(** What can happen to the directory: the provider's own operations, on the
    readers and writers it has handed out, and someone else who, between two
    of them, puts anything under a name of the directory, links included, but
    no hard link to a file outside, or takes a name away. *)
Inductive fs_move (outside : gset nat) :
    FsWorld * list FsFileReader * list FsFileWriter -> FsWorld * list FsFileReader * list FsFileWriter -> Prop :=
| mv_lookup nof w rs ws : fs_move outside (w, rs, ws) ((fs_lookup nof w).2, rs, ws)
| mv_list w rs ws : fs_move outside (w, rs, ws) ((list_directory w).2, rs, ws)
| mv_rescan w rs ws : fs_move outside (w, rs, ws) ((rescan w).2, rs, ws)
| mv_open_read nof r w w' rs ws : fs_open_read nof w = (r, w') ->
    fs_move outside (w, rs, ws) (w', match r with inl r => r :: rs | inr _ => rs end, ws)
| mv_open_write nof len wr w w' rs ws : fs_open_write nof len w = (wr, w') ->
    fs_move outside (w, rs, ws) (w', rs, match wr with inl wr => wr :: ws | inr _ => ws end)
| mv_read r n res r' w w' rs ws : r ∈ rs -> fs_read_segment r n w = (res, r', w') ->
    fs_move outside (w, rs, ws) (w', r' :: rs, ws)
| mv_write wr data ok wr' w w' rs ws : wr ∈ ws -> fs_write_segment wr data w = (ok, wr', w') ->
    fs_move outside (w, rs, ws) (w', rs, wr' :: ws)
| mv_finalize wr success ok w w' rs ws : wr ∈ ws -> fs_finalize wr success w = (ok, w') ->
    fs_move outside (w, rs, ws) (w', rs, ws)
| mv_put name node w rs ws : (∀ i, node = NFile i -> i ∉ outside) ->
    fs_move outside (w, rs, ws) (set_names (<[name := node]> (fs_names w)) w, rs, ws)
| mv_take name w rs ws : fs_move outside (w, rs, ws) (set_names (delete name (fs_names w)) w, rs, ws).

Section Outside.
Context (outside : gset nat) (before : gmap nat (bytes * Z)).

(** The names lead to files inside, the handles too, and what is outside is
    as it was before. *)
Definition inside (w : FsWorld) : Prop :=
  (∀ name i, fs_names w !! name = Some (NFile i) -> i ∉ outside) /\
  outside ⊆ dom (fs_inodes w) /\ (∀ i, i ∈ outside -> fs_inodes w !! i = before !! i).
Definition writer_inside (wr : FsFileWriter) : Prop := ∀ i off, fw_file wr = Some (i, off) -> i ∉ outside.
Definition all_inside (st : FsWorld * list FsFileReader * list FsFileWriter) : Prop :=
  let '(w, rs, ws) := st in
  inside w /\ Forall (λ r, fr_ino r ∉ outside) rs /\ Forall writer_inside ws.

Lemma inside_same w w' : same_files w w' -> inside w -> inside w'.
Proof. intros [H1 H2]. unfold inside. by rewrite H1, H2. Qed.

Lemma inside_inode w w' i x : fs_names w' = fs_names w -> fs_inodes w' = <[i := x]> (fs_inodes w) -> i ∉ outside ->
  inside w -> inside w'.
Proof.
  clear stamp torn read_len fault lstat_fault.
  intros H1 H2 Hi (Hn & Hd & Hb). unfold inside. rewrite H1, H2. split_and!; [done|set_solver|].
  intros j Hj. rewrite lookup_insert_ne by (by intros ->). by apply Hb.
Qed.

Lemma inside_name w w' name node : fs_names w' = <[name := node]> (fs_names w) -> fs_inodes w' = fs_inodes w ->
  (∀ i, node = NFile i -> i ∉ outside) -> inside w -> inside w'.
Proof.
  intros H1 H2 Hi (Hn & Hd & Hb). unfold inside. rewrite H1, H2. split_and!; try done.
  intros n i [[_ H]|[_ H]]%lookup_insert_Some; [by eapply Hi|by eapply Hn].
Qed.

Lemma inside_delete w w' name : fs_names w' = delete name (fs_names w) -> fs_inodes w' = fs_inodes w -> inside w -> inside w'.
Proof.
  intros H1 H2 (Hn & Hd & Hb). unfold inside. rewrite H1, H2. split_and!; try done.
  intros n i [_ H]%lookup_delete_Some. by eapply Hn.
Qed.

Lemma metadata_same name w r w' : metadata name w = (r, w') -> same_files w w'.
Proof. unfold metadata. destruct (call_ok w) as [ok w1] eqn:Hc. intros [= _ <-]. by destruct (call_ok_spec _ _ _ Hc). Qed.

Lemma list_entries_same total i entries w out w' : list_entries total i entries w = (out, w') -> same_files w w'.
Proof.
  revert i w out. induction entries as [|[nof path] entries IH]; intros i w out; cbn [list_entries]; [by intros [= _ <-]|].
  destruct (metadata path w) as [[[len t]|] w1] eqn:Hm; apply metadata_same in Hm as [Hn Hi].
  - destruct (list_entries total (S i) entries w1) as [o w2] eqn:Hl. intros [= _ <-].
    apply IH in Hl as [Hn2 Hi2]. split; congruence.
  - intros [Hn2 Hi2]%IH. split; congruence.
Qed.

Lemma finalize_inside wr success ok w w' : inside w -> fs_finalize wr success w = (ok, w') -> inside w'.
Proof.
  intros Hw. unfold fs_finalize. destruct (match fw_file wr with Some _ => call_ok w | None => (true, w) end) as [fl w1] eqn:H1.
  assert (inside w1) as Hw1.
  { destruct (fw_file wr); [|congruence]. destruct (call_ok_spec _ _ _ H1) as (Hs & _). by eapply inside_same. }
  destruct fl; cbn [negb]; [|by intros [= _ <-]]. destruct success.
  - unfold file_rename. destruct (call_ok w1) as [ok2 w2] eqn:Hc. destruct (call_ok_spec _ _ _ Hc) as (Hs & _).
    assert (inside w2) as Hw2 by (by eapply inside_same). destruct ok2; cbn [negb]; [|by intros [= _ <-]].
    destruct (fs_names w2 !! fw_partial wr) as [node|] eqn:Hp; [|by intros [= _ <-]].
    set (w3 := set_names (<[fw_final wr := node]> (delete (fw_partial wr) (fs_names w2))) w2).
    assert (inside w3) as Hw3.
    { eapply (inside_name (set_names (delete (fw_partial wr) (fs_names w2)) w2)); try done; [|by eapply inside_delete].
      intros i ->. by apply (proj1 Hw2 _ _ Hp). }
    assert (inside (if fw_provider wr then (rescan w3).2 else w3)) as Hw4.
    { destruct (fw_provider wr); [|done]. eapply inside_same; [apply rescan_same|done]. }
    destruct node, (fs_names w2 !! fw_final wr) as [[]|]; intros [= _ <-]; done.
  - intros [= _ <-]. unfold file_remove. destruct (call_ok w1) as [ok2 w2] eqn:Hc. destruct (call_ok_spec _ _ _ Hc) as (Hs & _).
    assert (inside w2) as Hw2 by (by eapply inside_same). destruct ok2; cbn [negb]; [|done].
    destruct (fs_names w2 !! fw_partial wr) as [[]|]; try done; by eapply inside_delete.
Qed.

Lemma open_read_refused nof w e w1 : fs_open_read nof w = (inr e, w1) -> inside w -> inside w1.
Proof.
  unfold fs_open_read, file_open. destruct (resolve nof w) as [name|e']; [|by intros [= _ <-]].
  destruct (symlink_metadata name w) as [m v1] eqn:Hl. destruct (symlink_metadata_spec _ _ _ _ Hl) as (Hs1 & _).
  intros H Hw. assert (inside v1) as Hv1 by (by eapply inside_same).
  destruct (call_ok v1) as [ok v2] eqn:Hc. destruct (call_ok_spec _ _ _ Hc) as (Hs2 & _).
  assert (inside v2) as Hv2 by (by eapply inside_same).
  repeat case_match; by simplify_eq.
Qed.

(** A writer that is refused leaves the directory as it is. *)
Lemma open_write_refused nof len w e w1 : fs_open_write nof len w = (inr e, w1) -> inside w -> inside w1.
Proof.
  unfold fs_open_write. intros H Hw. destruct (match resolve nof w with inl p => inl p | inr (NotFound _) => _ | inr e => inr e end) as [final|e'];
    [|by injection H as _ <-].
  destruct (symlink_metadata final w) as [m1 v1] eqn:H1. destruct (symlink_metadata_spec _ _ _ _ H1) as (Hs1 & _).
  assert (inside v1) as Hv1 by (by eapply inside_same). destruct (is_link m1); [by injection H as _ <-|].
  destruct (symlink_metadata _ v1) as [m2 v2] eqn:H2. destruct (symlink_metadata_spec _ _ _ _ H2) as (Hs2 & _).
  assert (inside v2) as Hv2 by (by eapply inside_same). destruct (is_link m2); [by injection H as _ <-|].
  unfold file_create in H. destruct (call_ok v2) as [ok v3] eqn:Hc. destruct (call_ok_spec _ _ _ Hc) as (Hs3 & _).
  assert (inside v3) as Hv3 by (by eapply inside_same). destruct ok; cbn [negb] in H; [|by injection H as _ <-].
  destruct (fs_names v3 !! _) as [[| |[|]]|]; try done. by injection H as _ <-.
Qed.

Lemma open_write_inside nof len wr w w' : (∀ k, lstat_fault k = false) -> inside w -> fs_open_write nof len w = (wr, w') ->
  inside w' /\ match wr with inl wr => writer_inside wr | inr _ => True end.
Proof.
  intros Hls Hw Hopen. destruct wr as [wr|e]; [|split; [|done]; by eapply open_write_refused].
  destruct (open_write_creates _ _ _ _ _ Hopen) as (w2 & i & [Hn2 Hi2] & Hcr & -> & [Hl|[k Hk]]); [|by rewrite Hls in Hk].
  assert (inside w2) as Hw2 by (by eapply inside_same). rewrite <- Hn2 in Hl. clear Hopen.
  revert Hl Hcr. generalize (with_partial_suffix (final_name nof w)). intros partial Hl Hcr. unfold file_create in Hcr.
  destruct (call_ok w2) as [ok w3] eqn:Hc. destruct (call_ok_spec _ _ _ Hc) as ([Hn3 Hi3] & _).
  assert (inside w3) as Hw3 by (by eapply inside_same). rewrite <- Hn3 in Hl. destruct ok; cbn [negb] in Hcr; [|done].
  destruct (fs_names w3 !! partial) as [[j| |]|] eqn:Hp; try done; injection Hcr as <- <-.
  - assert (j ∉ outside) by (by apply (proj1 Hw3 _ _ Hp)). split; [|by intros i off [= <- _]].
    by eapply (inside_inode w3); [reflexivity|reflexivity|..].
  - assert (fresh (dom (fs_inodes w3)) ∉ outside) as Hf.
    { intros Hin. apply (is_fresh (dom (fs_inodes w3))). by apply Hw3. }
    split; [|by intros i off [= <- _]]. eapply (inside_name (set_inodes _ w3)); [reflexivity|reflexivity|by intros i [= <-]|].
    by eapply (inside_inode w3); [reflexivity|reflexivity|..].
Qed.

Lemma fs_move_inside st st' : (∀ k, lstat_fault k = false) -> fs_move outside st st' -> all_inside st -> all_inside st'.
Proof.
  intros Hls Hmove. destruct Hmove; intros (Hw & Hrs & Hws).
  - split; [|done]. unfold fs_lookup. destruct (resolve nof w) as [path|[]]; try done.
    destruct (metadata path w) as [[[len t]|] w1] eqn:Hm; apply metadata_same in Hm; by eapply inside_same.
  - split; [|done]. unfold list_directory. destruct (list_entries _ _ _ _) as [out w1] eqn:Hl.
    apply list_entries_same in Hl. by eapply inside_same.
  - split; [|done]. eapply inside_same; [apply rescan_same|done].
  - destruct r as [r|e]; [|split; [|done]; by eapply open_read_refused].
    destruct (open_read_spec _ _ _ _ H) as (name & j & _ & Hp & -> & Hs). split; [by eapply inside_same|].
    split; [|done]. constructor; [|done]. by apply (proj1 Hw _ _ Hp).
  - destruct (open_write_inside _ _ _ _ _ Hls Hw H) as [Hw' Hwr]. split; [done|]. split; [done|].
    destruct wr; [by constructor|done].
  - destruct (read_segment_spec _ _ _ _ _ _ H0) as (Hs & Hino & _). split; [by eapply inside_same|]. split; [|done].
    constructor; [|done]. rewrite Hino. by eapply Forall_forall in Hrs.
  - unfold fs_write_segment in H0. assert (writer_inside wr) as Hwr by (by eapply Forall_forall in Hws).
    destruct (fw_file wr) as [[i off]|] eqn:Hf; [|simplify_eq; split; [done|]; split; [done|]; by constructor].
    unfold file_write in H0. destruct (call_ok w) as [ok1 w1] eqn:Hc. destruct (call_ok_spec _ _ _ Hc) as (Hs & _).
    assert (inside w1) by (by eapply inside_same). assert (i ∉ outside) by (by eapply Hwr). injection H0 as <- <- <-.
    split; [by eapply (inside_inode w1); [reflexivity|reflexivity|..]|]. split; [done|]. constructor; [|done].
    by intros j o [= <- _].
  - split; [|done]. by eapply finalize_inside.
  - split; [|done]. by eapply inside_name.
  - split; [|done]. by eapply inside_delete.
Qed.

End Outside.

(** C21. Path safety: whatever links someone drops into the base directory
    between two operations of the provider, however these are interleaved and
    whatever calls fail except the one that looks whether a name is a link,
    no file outside the directory is ever changed, and every reader and writer
    the provider hands out is of a file that is not outside. (When that call
    fails, [open_write] goes on and writes through the link, see
    [lstat_failure_escapes].) *)
Theorem path_safe outside w w' rs ws :
  (∀ k, lstat_fault k = false) ->
  (∀ name i, fs_names w !! name = Some (NFile i) -> i ∉ outside) -> outside ⊆ dom (fs_inodes w) ->
  rtc (fs_move outside) (w, [], []) (w', rs, ws) ->
  (∀ i, i ∈ outside -> fs_inodes w' !! i = fs_inodes w !! i) /\
  Forall (λ r, fr_ino r ∉ outside) rs /\
  Forall (λ wr, ∀ i off, fw_file wr = Some (i, off) -> i ∉ outside) ws.
Proof.
  intros Hls Hn Hd Hrun. assert (all_inside outside (fs_inodes w) (w', rs, ws)) as ((_ & _ & Hb) & Hrs & Hws).
  { eapply (rtc_ind_l (λ st, all_inside outside (fs_inodes w) st -> all_inside outside (fs_inodes w) (w', rs, ws)));
      [done| |exact Hrun|split_and!; done]. intros x y Hm _ IH Hx. apply IH. by eapply fs_move_inside. }
  done.
Qed.

End Provider.

(** ** Sample directory *)

Module FsSample.

Definition never (n : nat) : bool := false.
Definition two_at_most (n max : nat) : nat := 2.
Definition none_of_it (n : nat) : nat := 0.
Definition at_zero (n : nat) : Z := 0.
Definition listing (m : gmap string Node) : list (string * Node) := map_to_list m.

(** Two files, an upload in progress, and inode 9 outside. *)
Definition directory : FsWorld :=
  mkFs (<["a.bin" := NFile 0]> (<["b.bin" := NFile 1]> (<["c.bin.partial" := NFile 2]> ∅)))
    (<[0%nat := ([1; 2; 3; 4; 5], 1000)]> (<[1%nat := ([6], 2000)]> (<[2%nat := ([], 0)]> (<[9%nat := ([42; 42; 42], 0)]> ∅))))
    ∅ 0.
Definition provided (c : CollisionStrategy) : FsWorld :=
  match with_collision_strategy c never listing (Some true) directory with inl w => w | inr _ => directory end.
Definition nof_a : NameOfFile := mkNof (nof_of_name "a.bin").

Lemma listing_ok m : listing m ≡ₚ map_to_list m.
Proof. done. Qed.

Example sample_index : fs_index (provided CsError) = <[nof_of_name "a.bin" := "a.bin"]> (<[nof_of_name "b.bin" := "b.bin"]> ∅).
Proof. vm_compute. done. Qed.

Example sample_listing : (λ e, (nof_0 (pe_nof e), md_length (pe_meta e), sof_last_file (md_status (pe_meta e)))) <$>
    (list_directory never (provided CsError)).1 =
  [(nof_of_name "b.bin", 1, false); (nof_of_name "a.bin", 5, true)] \/
  (λ e, (nof_0 (pe_nof e), md_length (pe_meta e), sof_last_file (md_status (pe_meta e)))) <$>
    (list_directory never (provided CsError)).1 =
  [(nof_of_name "a.bin", 5, false); (nof_of_name "b.bin", 1, true)].
Proof. vm_compute. auto. Qed.

Lemma index_exact_witness :
  let '(r, w') := scan_dir CsError never listing directory in
  same_files directory w' /\
  match r with
  | inl idx =>
      (∀ nof name, idx !! nof = Some name -> nof_of_name name = nof /\ indexed_file directory name) /\
      (∀ name, indexed_file directory name -> ∃ name', idx !! nof_of_name name = Some name' /\
         (CsError = CsError -> name' = name)) /\
      (∀ nof, let same := filter (λ f, nof_of_name f = nof) (files_of (listing (fs_names directory))) in
         idx !! nof = head same)
  | inr e =>
      (∃ name name', name ≠ name' /\ nof_of_name name = nof_of_name name' /\ indexed_file directory name /\
         indexed_file directory name' /\ e = Collision (mkNof (nof_of_name name)) /\ CsError = CsError) \/
      (e = FtIo /\ ∃ k, never k = true)
  end.
Proof.
  destruct (scan_dir CsError never listing directory) as [r w'] eqn:H.
  exact (index_exact CsError never listing directory r w' listing_ok H).
Defined.

Lemma read_exact_witness : ∃ r w',
  fs_open_read never never nof_a (provided CsError) = (inl r, w') /\
  ∃ name node, fs_index (provided CsError) !! nof_0 nof_a = Some name /\ fs_names (provided CsError) !! name = Some (NFile node) /\
    ∀ data t, fs_inodes (provided CsError) !! node = Some (data, t) ->
    ∃ chunks, read_to_end never two_at_most (S (length data)) 3 r w' = Some chunks /\ concat chunks = data /\
      Forall (λ c, c ≠ [] /\ (length c <= 3)%nat) chunks.
Proof.
  destruct (fs_open_read never never nof_a (provided CsError)) as [[r|e] w'] eqn:H; [|by vm_compute in H].
  exists r, w'. split; [done|]. apply (read_exact never never two_at_most nof_a 3 _ r w' (λ _, eq_refl) ltac:(lia) H).
Defined.

(** A new file of number 7 is uploaded in two segments. *)
Definition upload (success : bool) : option (FsWorld * FsWorld * bool * FsWorld) :=
  match fs_open_write never never at_zero (mkNof 7) 0 (provided CsError) with
  | (inl wr, w1) =>
      let '(_, wr2, w2) := write_segments never none_of_it at_zero [[1; 2]; [3]] wr w1 in
      let (ok, w3) := fs_finalize CsError never listing wr2 success w2 in Some (w1, w2, ok, w3)
  | _ => None
  end.

Lemma provided_names n i : fs_names (provided CsError) !! n = Some (NFile i) ->
  (n = "a.bin" /\ i = 0%nat) \/ (n = "b.bin" /\ i = 1%nat) \/ (n = "c.bin.partial" /\ i = 2%nat).
Proof.
  change (fs_names (provided CsError)) with (fs_names directory). unfold directory. cbn.
  intros [[<- [= <-]]|[_ [[<- [= <-]]|[_ [[<- [= <-]]|[_ H]]%lookup_insert_Some]]%lookup_insert_Some]]%lookup_insert_Some;
    by auto.
Qed.

Lemma provided_one_name : one_name (provided CsError).
Proof. intros n n' i [[-> ->]|[[-> ->]|[-> ->]]]%provided_names H%provided_names; naive_solver. Qed.

Lemma provided_exist : inodes_exist (provided CsError).
Proof. intros n i [[-> ->]|[[-> ->]|[-> ->]]]%provided_names; vm_compute; by eexists. Qed.


(** A link to the file outside is put where the partial file would go, and an
    upload is refused; file [a.bin] is opened and read all the same. *)
Definition intruded : FsWorld :=
  set_names (<["upload_0007.bin.partial" := NLink (Some 9%nat)]> (fs_names (provided CsError))) (provided CsError).
Definition refused_upload := fs_open_write never never at_zero (mkNof 7) 0 intruded.
Definition opened := fs_open_read never never nof_a refused_upload.2.

Example upload_through_link_refused : refused_upload.1 = inr PermissionDenied.
Proof. vm_compute. done. Qed.

Lemma path_safe_witness :
  let outside : gset nat := {[9%nat]} in
  ∃ w' rs, length rs = 1%nat /\
  rtc (fs_move CsError never never two_at_most none_of_it at_zero listing outside) (provided CsError, [], []) (w', rs, []) /\
  ((∀ i, i ∈ outside -> fs_inodes w' !! i = fs_inodes (provided CsError) !! i) /\
   Forall (λ r, fr_ino r ∉ outside) rs /\
   Forall (λ wr, ∀ i off, fw_file wr = Some (i, off) -> i ∉ outside) []).
Proof.
  intros outside. destruct opened as [[r|e] w'] eqn:H; [|by vm_compute in H].
  assert (rtc (fs_move CsError never never two_at_most none_of_it at_zero listing outside) (provided CsError, [], []) (w', [r], [])) as Hrun.
  { eapply rtc_l; [apply (mv_put _ _ _ _ _ _ _ _ "upload_0007.bin.partial" (NLink (Some 9%nat))); done|].
    eapply rtc_l; [apply (mv_open_write _ _ _ _ _ _ _ _ (mkNof 7) 0 _ _ _ _ _ (surjective_pairing refused_upload))|].
    eapply rtc_l; [|apply rtc_refl].
    pose proof (mv_open_read CsError never never two_at_most none_of_it at_zero listing outside nof_a (inl r) refused_upload.2 w' [] [] H) as Hm.
    exact Hm. }
  exists w', [r]. split; [done|]. split; [done|].
  apply (path_safe CsError never never two_at_most none_of_it at_zero listing outside (provided CsError) w' [r] []).
  - done.
  - intros name i Hn. apply provided_names in Hn.
    destruct Hn as [[_ ->]|[[_ ->]|[_ ->]]]; by intros Hi%elem_of_singleton.
  - intros i Hi. apply elem_of_singleton in Hi as ->. apply elem_of_dom. vm_compute. by eexists.
  - exact Hrun.
Defined.

(** When the call that looks for a link fails, [open_write] opens the partial
    file all the same: file 9 outside is emptied through the link. *)
Example lstat_failure_escapes :
  match fs_open_write never (λ n, true) at_zero (mkNof 7) 0 intruded with
  | (inl wr, w) => fw_file wr = Some (9%nat, 0%nat) /\ fst <$> fs_inodes intruded !! 9%nat = Some [42; 42; 42] /\
      fst <$> fs_inodes w !! 9%nat = Some []
  | _ => False
  end.
Proof. vm_compute. done. Qed.

(** The length and the time of a file outside can be asked for: [lookup]
    follows a link that took the place of an indexed file. *)
Example lookup_follows_links :
  let w := set_names (<["a.bin" := NLink (Some 9%nat)]> (fs_names (provided CsError))) (provided CsError) in
  (λ m, md_length m) <$> (match (fs_lookup never nof_a w).1 with inl m => m | inr _ => None end) = Some 3.
Proof. vm_compute. done. Qed.

(** An uploaded file is indexed under the hash of the name it was given, not
    under the number it was sent with: it cannot be fetched by that number. *)
Example upload_not_found_again :
  match upload true with
  | Some (_, _, ok, w3) => ok = true /\ view w3 "upload_0007.bin" = Some (inl [1; 2; 3]) /\
      (fs_lookup never (mkNof 7) w3).1 = inl None /\ fs_index w3 !! nof_of_name "upload_0007.bin" = Some "upload_0007.bin"
  | None => False
  end.
Proof. vm_compute. done. Qed.

(** Two uploads of one number, as two stations with different common addresses
    can have at once, share the partial file: the second writer empties it,
    their segments overwrite each other, and the second rename fails. *)
Example two_uploads_collide :
  match fs_open_write never never at_zero (mkNof 7) 0 (provided CsError) with
  | (inl wr, w) =>
      let '(_, wr, w) := fs_write_segment never none_of_it at_zero wr [1; 2; 3] w in
      match fs_open_write never never at_zero (mkNof 7) 0 w with
      | (inl wr', w) =>
          let '(_, wr', w) := fs_write_segment never none_of_it at_zero wr' [9] w in
          let '(_, wr, w) := fs_write_segment never none_of_it at_zero wr [4] w in
          let (ok, w) := fs_finalize CsError never listing wr true w in
          let (ok', w) := fs_finalize CsError never listing wr' true w in
          ok = true /\ ok' = false /\ view w "upload_0007.bin" = Some (inl [9; 0; 0; 4])
      | _ => False
      end
  | _ => False
  end.
Proof. vm_compute. done. Qed.

(** When the file listed last is gone, no entry carries the last-file flag. *)
Example last_flag_lost :
  existsb (λ e, sof_last_file (md_status (pe_meta e)))
    (list_directory never (set_names (delete (if nof_of_name "a.bin" <? nof_of_name "b.bin" then "b.bin" else "a.bin")
       (fs_names (provided CsError))) (provided CsError))).1 = false.
Proof. vm_compute. done. Qed.

(** A service over the directory that fetches file 7: its contents are stored
    and the reply is their number. *)
Example fetch_into_directory :
  match sv_run (BC := slice_bytes) (PV := fs_provider CsError never never two_at_most none_of_it at_zero listing)
    FtService.Sample.sample_config (λ n, Z.of_nat n) 20
    (take 1 FtService.Sample.fetch_and_push ++ drop 4 FtService.Sample.fetch_and_push) (Service_new (provided CsError)) with
  | Some sv => view (sv_prov sv) "upload_0007.bin" = Some (inl [1; 2; 3]) /\ SvReply 1 (inl 3) ∈ sv_log sv
  | None => False
  end.
Proof. vm_compute. split; [done|]. repeat (constructor || (apply elem_of_cons; right)). Qed.

End FsSample.
