(* ===== verification/Float32.v ===== *)
(** * Single precision

    The [f32] values of the test tools and of [Nva] ([asdu/ie.rs]). An [f32]
    that is stored or sent is its 32 bits, an [f32] that is computed with is a
    number of Float64.v in the format of 24 digits; the two conversions are
    inverse on numbers. The file shows that the 65536 normalized values pass
    through [as_f32] and [from_f32] unchanged. *)

From S2P Require Import Prelude InfoElements Float64.
From Stdlib Require Import Floats.SpecFloat.

Definition f32_add : F32 -> F32 -> F32 := SFadd 24 128.
Definition f32_mul : F32 -> F32 -> F32 := SFmul 24 128.
Definition f32_div : F32 -> F32 -> F32 := SFdiv 24 128.
Definition f32_neg : F32 -> F32 := SFopp.
(** [i16 as f32], exact. *)
Definition f32_of_int (z : Z) : F32 := binary_normalize 24 128 z 0 false.
(** [f64 as f32], rounded to nearest. *)
Definition f32_of_f64 (x : F64) : F32 :=
  match x with S754_finite s m e => binary_round 24 128 s m e | _ => x end.

(** [f32::from_bits] and [f32::to_bits]; every NaN that is computed has the
    bits of the quiet one, which Rust leaves open. *)
Definition f32_of_bits (b : Z) : F32 :=
  let s := 2147483648 <=? b in
  let e := b / 8388608 mod 256 in
  let m := b mod 8388608 in
  if e =? 255 then (if m =? 0 then S754_infinity s else S754_nan)
  else if e =? 0 then (if m =? 0 then S754_zero s else S754_finite s (Z.to_pos m) (-149))
  else S754_finite s (Z.to_pos (m + 8388608)) (e - 150).
Definition bits_of_f32 (x : F32) : Z :=
  let sgn (s : bool) := if s then 2147483648 else 0 in
  match x with
  | S754_zero s => sgn s
  | S754_infinity s => sgn s + 2139095040
  | S754_nan => 2143289344
  | S754_finite s m e =>
      if Zpos m <? 8388608 then sgn s + Zpos m
      else sgn s + (e + 150) * 8388608 + (Zpos m - 8388608)
  end.

(** [f32::clamp]: a NaN stays a NaN; bounds that are not ordered panic. *)
Definition clamp_to (lo hi x : F32) : F32 :=
  let x := if SFltb x lo then lo else x in
  if SFltb hi x then hi else x.
Definition f32_clamp (lo hi x : F32) : Result F32 :=
  if SFleb lo hi then Ok (clamp_to lo hi x) else Panic.

(** [f32::round], half away from zero, and the saturating [f32 as i32]. *)
Definition f32_round (x : F32) : F32 :=
  match x with
  | S754_finite s m e =>
      if 0 <=? e then x
      else match (Zpos m + 2 ^ (- e - 1)) / 2 ^ (- e) with
           | Zpos n => binary_round 24 128 s n 0
           | _ => S754_zero s
           end
  | _ => x
  end.
Definition saturate_i32 (z : Z) : Z := Z.max (-2147483648) (Z.min 2147483647 z).
Definition f32_as_i32 (x : F32) : Z :=
  match x with
  | S754_nan | S754_zero _ => 0
  | S754_infinity s => if s then -2147483648 else 2147483647
  | S754_finite s m e =>
      saturate_i32 (cond_Zopp s (if 0 <=? e then Zpos m * 2 ^ e else Zpos m / 2 ^ (- e)))
  end.

Definition f32_32768 : F32 := S754_finite false 8388608 (-8).
Definition f32_minus_1 : F32 := S754_finite true 8388608 (-23).
Definition f32_1 : F32 := S754_finite false 8388608 (-23).
(** [1.0 - 2.0_f32.powi(-15)]. *)
Definition f32_nva_max : F32 := SFsub 24 128 f32_1 (S754_finite false 8388608 (-38)).

(** asdu/ie.rs 202-204, Nva::as_f32. *)
Definition Nva_as_f32 (v : Nva) : F32 := f32_div (f32_of_int (nva_0 v)) f32_32768.

(** asdu/ie.rs 207-210, Nva::from_f32. The bounds of the clamp are ordered. *)
Definition Nva_from_f32 (v : F32) : Nva :=
  let scaled := f32_as_i32 (f32_round (f32_mul (clamp_to f32_minus_1 f32_nva_max v) f32_32768)) in
  mkNva (as_i16 (Z.max (-32768) (Z.min 32767 scaled))).

(** ** Bits *)

(** The numbers of the format. *)
Definition f32_ok (x : F32) : Prop := valid_binary 24 128 x = true.

Lemma f32_finite_cases s m e : f32_ok (S754_finite s m e) ->
  (Zpos m < 8388608 /\ e = -149) \/ (8388608 <= Zpos m < 16777216 /\ -149 <= e <= 104).
Proof.
  unfold f32_ok. simpl. unfold bounded, canonical_mantissa.
  rewrite andb_true_iff, Z.eqb_eq, Z.leb_le. fold (digits m). intros [H1 H2].
  unfold fexp, emin in H1. pose proof (digits_bounds m) as Hd.
  destruct (Z.eq_dec (digits m) 24) as [E|E].
  - rewrite E in *. change (2 ^ (24 - 1)) with 8388608 in Hd. change (2 ^ 24) with 16777216 in Hd. lia.
  - assert (digits m < 24) by lia.
    pose proof (Z.pow_le_mono_r 2 (digits m) 23 ltac:(lia) ltac:(lia)) as Hp.
    change (2 ^ 23) with 8388608 in Hp. lia.
Qed.

Lemma f32_of_bits_of x : f32_ok x -> f32_of_bits (bits_of_f32 x) = x.
Proof.
  destruct x as [s|s| |s m e]; intros Hx; [by destruct s|by destruct s|done|].
  - apply f32_finite_cases in Hx. unfold bits_of_f32.
    set (sg := if s then 2147483648 else 0).
    assert (sg = 0 /\ s = false \/ sg = 2147483648 /\ s = true) as Hs by (destruct s; auto).
    unfold f32_of_bits. destruct (Z.ltb_spec (Zpos m) 8388608) as [Hm|Hm].
    + destruct Hx as [[_ ->]|[? _]]; [|lia].
      assert ((sg + Zpos m) / 8388608 mod 256 = 0) as -> by lia.
      assert ((sg + Zpos m) mod 8388608 = Zpos m) as -> by lia.
      assert ((2147483648 <=? sg + Zpos m) = s) as ->
        by (destruct Hs as [[-> ->]|[-> ->]]; [apply Z.leb_gt|apply Z.leb_le]; lia). done.
    + destruct Hx as [[? _]|[Hm' He]]; [lia|].
      set (b := sg + (e + 150) * 8388608 + (Zpos m - 8388608)).
      assert (b / 8388608 mod 256 = e + 150) as -> by (unfold b; lia).
      assert (b mod 8388608 = Zpos m - 8388608) as -> by (unfold b; lia).
      assert ((2147483648 <=? b) = s) as ->
        by (unfold b; destruct Hs as [[-> ->]|[-> ->]]; [apply Z.leb_gt|apply Z.leb_le]; lia).
      rewrite (proj2 (Z.eqb_neq _ _)), (proj2 (Z.eqb_neq _ _)) by lia.
      replace (Zpos m - 8388608 + 8388608) with (Zpos m) by lia. f_equal. lia.
Qed.

Lemma bits_of_f32_range x : f32_ok x -> is_u32 (bits_of_f32 x).
Proof.
  unfold is_u32. destruct x as [[]|[]| |s m e]; simpl; try lia.
  intros Hx. apply f32_finite_cases in Hx. destruct s, (Z.ltb_spec (Zpos m) 8388608); lia.
Qed.

(** ** Rounding yields numbers of the format *)

Lemma shr_1_m r : 0 <= shr_m r -> shr_m (shr_1 r) = shr_m r / 2.
Proof. destruct r as [[|[p|p|]|p] ? ?]; simpl; intros; lia. Qed.

Lemma iter_shr_m n r : 0 <= shr_m r -> shr_m (iter_pos shr_1 n r) = shr_m r / 2 ^ Zpos n.
Proof.
  assert (∀ r, 0 <= shr_m r -> 0 <= shr_m (shr_1 r)) as H0 by (intros; rewrite shr_1_m; lia).
  assert (∀ m a b, 0 <= m -> 0 <= a -> 0 <= b -> m / 2 ^ a / 2 ^ b = m / 2 ^ (a + b)) as Hdd.
  { intros. rewrite Z.pow_add_r, Z.div_div by (try apply Z.pow_nonzero; try apply Z.pow_pos_nonneg; lia). done. }
  assert (∀ m a, 0 <= m -> 0 <= a -> 0 <= m / 2 ^ a) as Hnn by (intros; apply Z.div_pos; [|apply Z.pow_pos_nonneg]; lia).
  revert r. induction n as [n IH|n IH|]; intros r Hr; cbn [iter_pos].
  - pose proof (IH (shr_1 r) (H0 _ Hr)) as H1. rewrite shr_1_m in H1 by done.
    rewrite IH, H1 by (rewrite H1; apply Hnn; lia).
    change (shr_m r / 2) with (shr_m r / 2 ^ 1). rewrite !Hdd by lia. do 2 f_equal. lia.
  - pose proof (IH r Hr) as H1. rewrite IH, H1 by (rewrite H1; apply Hnn; lia).
    rewrite Hdd by lia. do 2 f_equal. lia.
  - by apply shr_1_m.
Qed.

Lemma shr_spec m l e n : 0 <= m -> 0 <= n ->
  shr_m (shr (shr_record_of_loc m l) e n).1 = m / 2 ^ n /\ (shr (shr_record_of_loc m l) e n).2 = e + n.
Proof.
  intros Hm Hn. assert (shr_m (shr_record_of_loc m l) = m) as E by (by destruct l as [|[]]).
  destruct n as [|n|n]; [| |lia]; simpl.
  - rewrite E, Z.div_1_r. lia.
  - split; [|done]. rewrite iter_shr_m; by rewrite E.
Qed.

Lemma round_nearest_even_range m l : m <= round_nearest_even m l <= m + 1.
Proof. unfold round_nearest_even. destruct l as [|[]]; try lia. destruct (Z.even m); lia. Qed.

(** The first shift leaves a mantissa of at most 24 digits, of exactly 24
    above the smallest exponent. *)
Lemma shift_mantissa m e : e <= fexp 24 128 (digits m + e) ->
  let e1 := fexp 24 128 (digits m + e) in
  0 <= Zpos m / 2 ^ (e1 - e) < 16777216 /\ -149 <= e1 /\ (-149 < e1 -> 8388608 <= Zpos m / 2 ^ (e1 - e)).
Proof.
  intros He e1. pose proof (digits_bounds m) as Hb.
  assert (e1 = Z.max (digits m + e - 24) (-149)) as He1 by (unfold e1, fexp, emin; lia).
  assert (0 < 2 ^ (e1 - e)) as Hp by (apply Z.pow_pos_nonneg; lia).
  split_and!; [apply Z.div_pos; lia| |lia|].
  - apply Z.div_lt_upper_bound; [lia|]. change 16777216 with (2 ^ 24). rewrite <- Z.pow_add_r by lia.
    eapply Z.lt_le_trans; [apply Hb|]. apply Z.pow_le_mono_r; lia.
  - intros Hlt. apply Z.div_le_lower_bound; [lia|]. change 8388608 with (2 ^ 23). rewrite <- Z.pow_add_r by lia.
    etrans; [|apply Hb]. apply Z.pow_le_mono_r; lia.
Qed.

Lemma f32_ok_intro s m e : e <= 104 ->
  (8388608 <= Zpos m < 16777216 /\ -149 <= e) \/ (Zpos m < 8388608 /\ e = -149) -> f32_ok (S754_finite s m e).
Proof.
  intros He Hm. unfold f32_ok. simpl. unfold bounded, canonical_mantissa. fold (digits m).
  rewrite andb_true_iff, Z.eqb_eq, Z.leb_le. unfold fexp, emin. split; [|lia].
  destruct Hm as [[Hm ?]|[Hm ->]].
  - rewrite (digits_unique m 24) by (change (2 ^ (24 - 1)) with 8388608; change (2 ^ 24) with 16777216; lia). lia.
  - pose proof (digits_small m 23 ltac:(lia)) as H. change (2 ^ 23) with 8388608 in H. lia.
Qed.

Lemma binary_round_aux_ok s m e : e <= fexp 24 128 (digits m + e) ->
  f32_ok (binary_round_aux 24 128 s (Zpos m) e loc_Exact).
Proof.
  intros He. unfold binary_round_aux, shr_fexp. change (Zdigits2 (Zpos m)) with (digits m).
  set (e1 := fexp 24 128 (digits m + e)) in *. destruct (shift_mantissa m e He) as (Hm & He1 & Hn).
  fold e1 in Hm, He1, Hn. destruct (shr_spec (Zpos m) loc_Exact e (e1 - e)) as [H1 H2]; [lia..|].
  destruct (shr (shr_record_of_loc (Zpos m) loc_Exact) e (e1 - e)) as [r1 e1']. simpl in H1, H2.
  replace (e + (e1 - e)) with e1 in H2 by lia. subst e1'.
  pose proof (round_nearest_even_range (shr_m r1) (loc_of_shr_record r1)) as Hr. rewrite H1 in *.
  set (q := round_nearest_even _ _) in *. destruct q as [|q|q]; [| |lia].
  { destruct (shr _ e1 _) as [r2 e2] eqn:E2. assert (shr_m r2 = 0) as ->; [|done].
    replace r2 with (shr (shr_record_of_loc 0 loc_Exact) e1 (fexp 24 128 (Zdigits2 0 + e1) - e1)).1 by (by rewrite E2).
    destruct (_ - e1); simpl; [done| |done]. rewrite iter_shr_m by done. apply Z.div_0_l, Z.pow_nonzero; lia. }
  change (Zdigits2 (Zpos q)) with (digits q).
  destruct (Z.eq_dec (Zpos q) 16777216) as [Eq|Eq].
  - injection Eq as ->. change (digits 16777216) with 25.
    assert (fexp 24 128 (25 + e1) - e1 = 1) as -> by (unfold fexp, emin; lia). simpl.
    change (128 - 24) with 104. destruct (Z.leb_spec (e1 + 1) 104); [|done]. apply f32_ok_intro; lia.
  - assert (fexp 24 128 (digits q + e1) - e1 <= 0) as Hle.
    { pose proof (digits_small q 24 ltac:(lia)) as H. change (2 ^ 24) with 16777216 in H. unfold fexp, emin. lia. }
    destruct (_ - e1) as [|n|n]; [|lia|]; simpl; change (128 - 24) with 104.
    all: destruct (Z.leb_spec e1 104); [|done]; apply f32_ok_intro; lia.
Qed.

Lemma binary_round_ok s m e : f32_ok (binary_round 24 128 s m e).
Proof.
  unfold binary_round, shl_align. fold (digits m). set (f := fexp 24 128 (digits m + e)).
  destruct (f - e) as [|n|n] eqn:E; [apply binary_round_aux_ok; unfold f in E; lia..|].
  rewrite iter_xO. apply binary_round_aux_ok. rewrite shl_digits by lia.
  replace (digits m + Zpos n + f) with (digits m + e) by lia. done.
Qed.

Lemma binary_normalize_ok z e s : f32_ok (binary_normalize 24 128 z e s).
Proof. destruct z; [done|apply binary_round_ok..]. Qed.

Lemma f32_add_ok x y : f32_ok x -> f32_ok y -> f32_ok (f32_add x y).
Proof.
  unfold f32_add, SFadd.
  destruct x as [[]|[]| |[] m e], y as [[]|[]| |[] m' e']; intros; try done; apply binary_normalize_ok.
Qed.
Lemma f32_neg_ok x : f32_ok x -> f32_ok (f32_neg x).
Proof. by destruct x. Qed.
Lemma f32_of_f64_ok x : f32_ok (f32_of_f64 x).
Proof. destruct x; [done..|]. apply binary_round_ok. Qed.
Lemma clamp_to_ok lo hi x : f32_ok lo -> f32_ok hi -> f32_ok x -> f32_ok (clamp_to lo hi x).
Proof. unfold clamp_to. intros. destruct (SFltb x lo); destruct (SFltb hi _); done. Qed.

Lemma f32_of_bits_ok b : is_u32 b -> f32_ok (f32_of_bits b).
Proof.
  unfold is_u32, f32_of_bits. intros Hb.
  destruct (Z.eqb_spec (b / 8388608 mod 256) 255); [by destruct (_ =? 0)|].
  destruct (Z.eqb_spec (b / 8388608 mod 256) 0).
  - destruct (Z.eqb_spec (b mod 8388608) 0); [done|]. apply f32_ok_intro; [lia|]. rewrite Z2Pos.id; lia.
  - apply f32_ok_intro; [lia|]. rewrite Z2Pos.id; lia.
Qed.

(** ** Normalized values are exact *)

(** The number [p * 2 ^ -x] for a [p] of at most 24 digits. *)
Definition f32_scaled (s : bool) (p : positive) (x : Z) : F32 :=
  S754_finite s (shl p (24 - digits p)) (digits p - 24 - x).

Lemma digits_pos p : 1 <= digits p.
Proof. unfold digits. lia. Qed.

Lemma f32_round_canonical s p x k : digits p <= 24 -> 0 <= k -> -100 <= digits p - x <= 100 ->
  binary_round_aux 24 128 s (Zpos (shl (shl p (24 - digits p)) k)) (digits p - 24 - x - k) loc_Exact
    = f32_scaled s p x.
Proof.
  intros Hp Hk Hx. apply round_aux_canonical; [rewrite shl_digits; lia|done|]. unfold emin. lia.
Qed.

Lemma f32_scaled_ok s p x : digits p <= 24 -> -100 <= digits p - x <= 100 -> f32_ok (f32_scaled s p x).
Proof.
  intros Hp Hx. unfold f32_ok, f32_scaled. simpl. unfold bounded, canonical_mantissa.
  fold (digits (shl p (24 - digits p))). rewrite shl_digits by lia.
  unfold fexp, emin. rewrite andb_true_iff, Z.eqb_eq, Z.leb_le. lia.
Qed.

Lemma binary_round_small s p : digits p <= 24 -> binary_round 24 128 s p 0 = f32_scaled s p 0.
Proof.
  intros Hp. pose proof (digits_pos p). unfold binary_round. fold (digits p).
  assert (fexp 24 128 (digits p + 0) = digits p - 24) as -> by (unfold fexp, emin; lia).
  rewrite <- (f32_round_canonical s p 0 0) by lia. rewrite shl_0. unfold shl_align.
  destruct (digits p - 24 - 0) as [|n|n] eqn:E; [|lia|].
  - replace (24 - digits p) with 0 by lia. by rewrite shl_0.
  - rewrite iter_xO. replace (24 - digits p) with (Zpos n) by lia. f_equal. lia.
Qed.

(** The number a normalized value stands for. *)
Definition nva_f32 (n : Z) : F32 :=
  match n with
  | Z0 => S754_zero false
  | Zpos p => f32_scaled false p 15
  | Zneg p => f32_scaled true p 15
  end.

Lemma f32_div_32768 s p : digits p <= 24 -> f32_div (f32_scaled s p 0) f32_32768 = f32_scaled s p 15.
Proof.
  intros Hp. pose proof (digits_pos p). unfold f32_div, SFdiv, f32_scaled, f32_32768, SFdiv_core_binary.
  set (m := shl p (24 - digits p)).
  assert (digits m = 24) as Hm by (unfold m; rewrite shl_digits; lia).
  change (Zdigits2 (Zpos m)) with (digits m). rewrite Hm. change (Zdigits2 8388608) with 24.
  assert (fexp 24 128 (24 + (digits p - 24 - 0) - (24 + -8)) = digits p - 40) as -> by (unfold fexp, emin; lia).
  rewrite Z.min_l by lia. replace (_ - -8 - _) with 24 by lia.
  assert (Z.shiftl (Zpos m) 24 = Zpos (shl m 1) * 8388608) as ->.
  { rewrite Z.shiftl_mul_pow2, shl_spec by lia. change (2 ^ 24) with 16777216. lia. }
  assert (Z.div_eucl (Zpos (shl m 1) * 8388608) 8388608 = (Zpos (shl m 1), 0)) as ->.
  { pose proof (Z.div_mul (Zpos (shl m 1)) 8388608 ltac:(lia)) as Hd.
    pose proof (Z.mod_mul (Zpos (shl m 1)) 8388608 ltac:(lia)) as Hr.
    unfold Z.div, Z.modulo in Hd, Hr. destruct (Z.div_eucl _ _). by subst. }
  change (new_location 8388608 0) with loc_Exact. rewrite xorb_false_r.
  replace (digits p - 40) with (digits p - 24 - 15 - 1) by lia. apply f32_round_canonical; lia.
Qed.

Lemma f32_mul_32768 s p x : digits p <= 24 -> -50 <= x <= 50 ->
  f32_mul (f32_scaled s p x) f32_32768 = f32_scaled s p (x - 15).
Proof.
  intros Hp Hx. pose proof (digits_pos p). unfold f32_mul, SFmul, f32_scaled, f32_32768.
  rewrite xorb_false_r. set (m := shl p (24 - digits p)).
  replace (m * 8388608)%positive with (shl m 23).
  2:{ enough (Zpos (shl m 23) = Zpos (m * 8388608)) by congruence.
      rewrite shl_spec, Pos2Z.inj_mul by lia. by change (2 ^ 23) with 8388608. }
  replace (digits p - 24 - x + -8) with (digits p - 24 - (x - 15) - 23) by lia.
  apply f32_round_canonical; lia.
Qed.

Lemma Nva_as_f32_exact n : is_i16 n -> Nva_as_f32 (mkNva n) = nva_f32 n.
Proof.
  unfold is_i16, Nva_as_f32. simpl. intros Hn.
  assert (∀ p, Zpos p <= 32768 -> digits p <= 24) as Hd
    by (intros; apply digits_small; [lia|]; change (2 ^ 24) with 16777216; lia).
  destruct n as [|p|p]; [done|..]; unfold f32_of_int, binary_normalize;
    rewrite binary_round_small by (apply Hd; lia); apply f32_div_32768, Hd; lia.
Qed.

(** Comparison of numbers at one scale follows the integers. *)
Lemma f32_scaled_compare s p q x : digits p <= 24 -> digits q <= 24 ->
  SFcompare (f32_scaled s p x) (f32_scaled s q x) =
    Some (if s then Z.compare (Zpos q) (Zpos p) else Z.compare (Zpos p) (Zpos q)).
Proof.
  intros Hp Hq. unfold f32_scaled, SFcompare.
  change (Pos.compare_cont Eq ?a ?b) with (Pos.compare a b).
  assert ((digits p < digits q -> Zpos p < Zpos q) /\ (digits q < digits p -> Zpos q < Zpos p)) as [H1 H2].
  { split; intros H.
    - destruct (Z.le_gt_cases (Zpos q) (Zpos p)) as [Hl|?]; [|done]. apply digits_le in Hl. lia.
    - destruct (Z.le_gt_cases (Zpos p) (Zpos q)) as [Hl|?]; [|done]. apply digits_le in Hl. lia. }
  destruct (Z.compare_spec (digits p - 24 - x) (digits q - 24 - x)) as [E|E|E].
  - replace (digits q) with (digits p) by lia. set (k := 24 - digits p).
    assert (0 < 2 ^ k) by (apply Z.pow_pos_nonneg; lia).
    change (Pos.compare ?a ?b) with (Z.compare (Zpos a) (Zpos b)).
    rewrite !shl_spec, <- (Zmult_compare_compat_r (Zpos p) (Zpos q)) by lia.
    rewrite (Z.compare_antisym (Zpos p) (Zpos q)). by destruct s.
  - destruct s; f_equal; symmetry; [apply Z.compare_gt_iff|apply Z.compare_lt_iff]; auto with lia.
  - destruct s; f_equal; symmetry; [apply Z.compare_lt_iff|apply Z.compare_gt_iff]; auto with lia.
Qed.

Lemma f32_nva_max_scaled : f32_nva_max = f32_scaled false 32767 15.
Proof. by vm_compute. Qed.
Lemma f32_minus_1_scaled : f32_minus_1 = f32_scaled true 32768 15.
Proof. by vm_compute. Qed.

Lemma nva_f32_clamp n : is_i16 n -> clamp_to f32_minus_1 f32_nva_max (nva_f32 n) = nva_f32 n.
Proof.
  unfold is_i16. intros Hn.
  assert (∀ p, Zpos p <= 32768 -> digits p <= 24) as Hd
    by (intros; apply digits_small; [lia|]; change (2 ^ 24) with 16777216; lia).
  rewrite f32_minus_1_scaled, f32_nva_max_scaled. unfold clamp_to, SFltb.
  destruct n as [|p|p]; [done|..]; cbn [nva_f32].
  - rewrite (f32_scaled_compare false 32767 p) by (apply Hd; lia).
    change (SFcompare (f32_scaled false p 15) (f32_scaled true 32768 15)) with (Some Gt). cbn match.
    destruct (Z.compare_spec 32767 (Zpos p)); [done|lia|done].
  - rewrite (f32_scaled_compare true p 32768) by (apply Hd; lia).
    destruct (Z.compare_spec 32768 (Zpos p)); [| lia|]; done.
Qed.

Lemma f32_round_int s p : digits p <= 24 -> f32_round (f32_scaled s p 0) = f32_scaled s p 0.
Proof.
  intros Hp. unfold f32_round, f32_scaled at 1.
  destruct (Z.leb_spec 0 (digits p - 24 - 0)) as [He|He]; [done|].
  set (k := 24 - digits p). replace (- (digits p - 24 - 0)) with k by lia.
  rewrite shl_spec by lia. assert (2 ^ k = 2 * 2 ^ (k - 1)) as E
    by (rewrite <- Z.pow_succ_r by lia; f_equal; lia).
  assert (0 < 2 ^ (k - 1)) by (apply Z.pow_pos_nonneg; lia).
  assert ((Zpos p * 2 ^ k + 2 ^ (k - 1)) / 2 ^ k = Zpos p) as ->.
  { rewrite Z.add_comm, Z.div_add by lia. rewrite Z.div_small by lia. lia. }
  by apply binary_round_small.
Qed.

Lemma f32_as_i32_int s p : digits p <= 24 -> f32_as_i32 (f32_scaled s p 0) = cond_Zopp s (Zpos p).
Proof.
  intros Hp. unfold f32_as_i32, f32_scaled. pose proof (digits_bounds p) as Hb.
  pose proof (Z.pow_le_mono_r 2 (digits p) 24 ltac:(lia) ltac:(lia)) as Hp'. change (2 ^ 24) with 16777216 in Hp'.
  assert ((if 0 <=? digits p - 24 - 0 then Zpos (shl p (24 - digits p)) * 2 ^ (digits p - 24 - 0)
    else Zpos (shl p (24 - digits p)) / 2 ^ (- (digits p - 24 - 0))) = Zpos p) as ->.
  { destruct (Z.leb_spec 0 (digits p - 24 - 0)).
    - replace (24 - digits p) with 0 by lia. replace (digits p - 24 - 0) with 0 by lia. rewrite shl_0. lia.
    - rewrite shl_spec by lia. replace (- (digits p - 24 - 0)) with (24 - digits p) by lia.
      apply Z.div_mul. apply Z.pow_nonzero; lia. }
  unfold saturate_i32. destruct s; simpl; lia.
Qed.

Lemma Nva_from_f32_exact n : is_i16 n -> Nva_from_f32 (nva_f32 n) = mkNva n.
Proof.
  intros Hn. pose proof Hn as Hn'. unfold is_i16 in Hn'. unfold Nva_from_f32. rewrite nva_f32_clamp by done.
  assert (∀ p, Zpos p <= 32768 -> digits p <= 24) as Hd
    by (intros; apply digits_small; [lia|]; change (2 ^ 24) with 16777216; lia).
  assert (f32_as_i32 (f32_round (f32_mul (nva_f32 n) f32_32768)) = n) as ->.
  { destruct n as [|p|p]; [done|..]; cbn [nva_f32];
      rewrite f32_mul_32768, f32_round_int, f32_as_i32_int by (try apply Hd; lia); done. }
  f_equal. unfold as_i16. lia.
Qed.

Lemma nva_f32_ok n : is_i16 n -> f32_ok (nva_f32 n).
Proof.
  unfold is_i16. intros Hn. destruct n as [|p|p]; [done|..]; apply f32_scaled_ok.
  all: assert (digits p <= 24) by (apply digits_small; [lia|]; change (2 ^ 24) with 16777216; lia).
  all: pose proof (digits_pos p); lia.
Qed.

Lemma Nva_from_f32_range x : Nva_wf (Nva_from_f32 x).
Proof. unfold Nva_wf, is_i16, Nva_from_f32, as_i16. cbn [nva_0]. lia. Qed.

(** The conversions are computed only on concrete numbers. *)
#[global] Opaque Nva_as_f32 Nva_from_f32 f32_of_bits bits_of_f32.
