(* ===== verification/Points.v ===== *)
(** * The process image of the test tools

    [wire.rs] (the data of the control socket), [points.rs] (the process image
    and the ASDUs made from it) and [cache.rs] (the client's last-value store)
    of crates/iec60870-test-tools. An [f32] that is stored is its bits, as in
    [R32]; the deadband filter is given the number it stands for. A [HashMap]
    is a [gmap]; where the code iterates over one, the order is an argument or
    is sorted away. *)

From S2P Require Import Prelude Bytes Codec AsduHeader InfoElements IoList Asdu AsduTypes.
From S2P Require Import Float64 Float32 Deadband Calendar.
From stdpp Require Import sorting.
From Stdlib Require Import Floats.SpecFloat.

#[local] Open Scope Z_scope.

(** ** The data of the control socket *)

(** wire.rs 11-32, PointKind. *)
Inductive PointKind := SpNa | DpNa | MeNa | MeNb | MeNc | SpTb | DpTb | MeTd | MeTe | MeTf.

#[export] Instance PointKind_eq_dec : EqDecision PointKind.
Proof. solve_decision. Defined.

(** wire.rs 35-46, PointKind::ALL. *)
Definition PointKind_ALL : list PointKind :=
  [SpNa; DpNa; MeNa; MeNb; MeNc; SpTb; DpTb; MeTd; MeTe; MeTf].

(** wire.rs 48-61, PointKind::type_id. *)
Definition PointKind_type_id (k : PointKind) : Z :=
  match k with
  | SpNa => 1 | DpNa => 3 | MeNa => 9 | MeNb => 11 | MeNc => 13
  | SpTb => 30 | DpTb => 31 | MeTd => 34 | MeTe => 35 | MeTf => 36
  end.

(** wire.rs 63-65, PointKind::from_type_id. *)
Definition PointKind_from_type_id (t : Z) : option PointKind :=
  snd <$> list_find (fun k => PointKind_type_id k = t) PointKind_ALL.

(** wire.rs 82-87, PointKind::has_timestamp. *)
Definition PointKind_has_timestamp (k : PointKind) : bool :=
  match k with SpTb | DpTb | MeTd | MeTe | MeTf => true | _ => false end.

Lemma PointKind_from_type_id_spec k : PointKind_from_type_id (PointKind_type_id k) = Some k.
Proof. by destruct k; vm_compute. Qed.

#[export] Instance PointKind_type_id_inj : Inj (=) (=) PointKind_type_id.
Proof. by intros [] []. Qed.
#[export] Instance PointKind_countable : Countable PointKind :=
  inj_countable PointKind_type_id PointKind_from_type_id PointKind_from_type_id_spec.

(** wire.rs 93-99, DoublePointWire. *)
Inductive DoublePointWire := DwIntermediate | DwOff | DwOn | DwIndeterminate.

(** wire.rs 105-111, PointValue. *)
Inductive PointValue :=
| PvSingle (b : bool)
| PvDouble (d : DoublePointWire)
| PvNormalized (f : Z)
| PvScaled (i : Z)
| PvFloat (f : Z).

(** wire.rs 115-126, QualityWire. *)
Record QualityWire := mkQw {
  qw_overflow : bool; qw_blocked : bool; qw_substituted : bool; qw_not_topical : bool; qw_invalid : bool }.
Definition QualityWire_default : QualityWire := mkQw false false false false false.

(** wire.rs 130-133, StepDir. *)
Inductive StepDir := SdLower | SdHigher.

(** wire.rs 137-141, SetpointKind. *)
Inductive SetpointKind := SkNormalized | SkScaled | SkFloat.

(** wire.rs 147-180, SimSchedule. *)
Inductive SimSchedule :=
| SsNone
| SsToggle (interval_ms phase_ms : Z)
| SsRotate (interval_ms : Z)
| SsRandomWalk (interval_ms : Z) (step min max : Z)
| SsStepUp (interval_ms step wrap_at : Z)
| SsSine (interval_ms period_ms : Z) (amplitude offset : Z).

(** wire.rs 186-193, DeadbandPolicyWire. *)
Inductive DeadbandPolicyWire :=
| DwNone
| DwAbsolute (delta : F64)
| DwPercent (pct : F32) (floor : F64).

(** wire.rs 198-206, DeadbandPolicyWire::into_policy. *)
Definition into_policy (p : DeadbandPolicyWire) : DeadbandPolicy :=
  match p with
  | DwNone => DbNone
  | DwAbsolute delta => DbAbsolute delta
  | DwPercent pct floor => DbPercent pct floor
  end.

(** wire.rs 209-217, DeadbandPolicyWire::from_policy. *)
Definition from_policy (p : DeadbandPolicy) : DeadbandPolicyWire :=
  match p with
  | DbNone => DwNone
  | DbAbsolute delta => DwAbsolute delta
  | DbPercent pct floor => DwPercent pct floor
  end.

Lemma from_into_policy p : from_policy (into_policy p) = p.
Proof. by destruct p. Qed.

#[export] Instance DoublePointWire_eq_dec : EqDecision DoublePointWire.
Proof. solve_decision. Defined.
#[export] Instance PointValue_eq_dec : EqDecision PointValue.
Proof. solve_decision. Defined.
#[export] Instance QualityWire_eq_dec : EqDecision QualityWire.
Proof. solve_decision. Defined.
#[export] Instance SimSchedule_eq_dec : EqDecision SimSchedule.
Proof. solve_decision. Defined.

(** ** Conversions *)

(** points.rs 81-88, quality_from_wire. *)
Definition quality_from_wire (q : QualityWire) : Quality :=
  mkQuality (qw_blocked q) (qw_substituted q) (qw_not_topical q) (qw_invalid q).

(** points.rs 90-98, quality_to_wire. *)
Definition quality_to_wire (q : Quality) : QualityWire :=
  mkQw false (q_blocked q) (q_substituted q) (q_not_topical q) (q_invalid q).

(** points.rs 100-108, qds_to_wire. *)
Definition qds_to_wire (q : Qds) : QualityWire :=
  mkQw (qds_overflow q) (q_blocked (qds_quality q)) (q_substituted (qds_quality q))
    (q_not_topical (qds_quality q)) (q_invalid (qds_quality q)).

(** points.rs 110-120, qds_from_wire. *)
Definition qds_from_wire (q : QualityWire) : Qds :=
  mkQds (qw_overflow q)
    (mkQuality (qw_blocked q) (qw_substituted q) (qw_not_topical q) (qw_invalid q)).

(** points.rs 122-129, dp_from_wire. *)
Definition dp_from_wire (d : DoublePointWire) : DoublePoint :=
  match d with
  | DwIntermediate => Intermediate
  | DwOff => DpOff
  | DwOn => DpOn
  | DwIndeterminate => Indeterminate
  end.

(** ** The image *)

(** points.rs 137-142, PointEntry. *)
Record PointEntry := mkEntry {
  pe_kind : PointKind; pe_value : PointValue; pe_quality : QualityWire; pe_schedule : SimSchedule }.

(** points.rs 146-160, PointEntry::new. *)
Definition PointEntry_new (kind : PointKind) (schedule : SimSchedule) : PointEntry :=
  let value :=
    match kind with
    | SpNa | SpTb => PvSingle false
    | DpNa | DpTb => PvDouble DwOff
    | MeNa | MeTd => PvNormalized 0
    | MeNb | MeTe => PvScaled 0
    | MeNc | MeTf => PvFloat 0
    end in
  mkEntry kind value QualityWire_default schedule.

(** points.rs 169-171, ProcessImage. *)
Abbreviation ProcessImage := (gmap Ioa PointEntry).

(** points.rs 178-180, ProcessImage::insert. *)
Definition Image_insert (ioa : Ioa) (entry : PointEntry) (image : ProcessImage) : ProcessImage :=
  <[ioa := entry]> image.

(** points.rs 191-201, ProcessImage::set. *)
Definition Image_set (ioa : Ioa) (value : PointValue) (quality : option QualityWire) (image : ProcessImage)
  : bool * ProcessImage :=
  match image !! ioa with
  | Some entry =>
      (true, <[ioa := mkEntry (pe_kind entry) value (default (pe_quality entry) quality) (pe_schedule entry)]> image)
  | None => (false, image)
  end.

(** [get_mut], used to replace the schedule. *)
Definition Image_set_schedule (ioa : Ioa) (schedule : SimSchedule) (image : ProcessImage) : ProcessImage :=
  alter (fun e => mkEntry (pe_kind e) (pe_value e) (pe_quality e) schedule) ioa image.

(** [sort_unstable] on distinct addresses. *)
Definition sort_ioas (ioas : list Ioa) : list Ioa := merge_sort Z.le ioas.

(** points.rs 225-229, ProcessImage::sorted_ioas. *)
Definition sorted_ioas (image : ProcessImage) : list Ioa := sort_ioas (fst <$> map_to_list image).

(** points.rs 217-222, ProcessImage::iter_kind. *)
Definition iter_kind (kind : PointKind) (image : ProcessImage) : list (Ioa * PointEntry) :=
  filter (fun p => pe_kind p.2 = kind) (map_to_list image).

(** points.rs 560-574, kind_for_group. *)
Definition kind_for_group (group : Z) : option PointKind :=
  match group with
  | 1 => Some SpNa | 2 => Some DpNa | 3 => Some MeNa | 4 => Some MeNb | 5 => Some MeNc
  | 6 => Some SpTb | 7 => Some DpTb | 8 => Some MeTd | 9 => Some MeTe | 10 => Some MeTf
  | _ => None
  end.

(** points.rs 528-556, entry_to_monitored. *)
Definition entry_to_monitored (entry : PointEntry) : MonitoredValue * Qds :=
  let value :=
    match pe_kind entry, pe_value entry with
    | (SpNa | SpTb), PvSingle b => MvSingle b
    | (DpNa | DpTb), PvDouble d => MvDouble (dp_from_wire d)
    | (MeNa | MeTd), PvNormalized f => MvNormalized (f32_of_bits f)
    | (MeNb | MeTe), PvScaled s => MvScaled s
    | (MeNc | MeTf), PvFloat f => MvFloat (f32_of_bits f)
    | _, _ => MvSingle false
    end in
  (value, qds_from_wire (pe_quality entry)).

(** The five points of one [for] loop of [populate_default]. *)
Definition insert_five (base : Ioa) (kind : PointKind) (schedule : Z -> SimSchedule) (image : ProcessImage)
  : ProcessImage :=
  foldl (fun im i => Image_insert (base + i) (PointEntry_new kind (schedule i)) im) image [0; 1; 2; 3; 4].

(** The single precision constants [0.05], [-1.0], [1.0] and [50.0]. *)
Definition f32b_0_05 : Z := 0x3D4CCCCD.
Definition f32b_minus_1 : Z := 0xBF800000.
Definition f32b_1 : Z := 0x3F800000.
Definition f32b_50 : Z := 0x42480000.

(** points.rs 395-524, populate_default. *)
Definition populate_default (image : ProcessImage) : ProcessImage :=
  let image := insert_five 100 SpNa (fun i => SsToggle 5000 (i * 1000)) image in
  let image := insert_five 200 DpNa (fun _ => SsRotate 7000) image in
  let image := insert_five 300 MeNa (fun _ => SsRandomWalk 1000 f32b_0_05 f32b_minus_1 f32b_1) image in
  let image := insert_five 400 MeNb (fun _ => SsStepUp 2000 1 100) image in
  let image := insert_five 500 MeNc (fun _ => SsSine 500 10000 f32b_50 0) image in
  let image := insert_five 1100 SpTb (fun i => SsToggle 5000 (i * 1000)) image in
  let image := insert_five 1200 DpTb (fun _ => SsRotate 7000) image in
  let image := insert_five 1300 MeTd (fun _ => SsRandomWalk 1000 f32b_0_05 f32b_minus_1 f32b_1) image in
  let image := insert_five 1400 MeTe (fun _ => SsStepUp 2000 1 100) image in
  insert_five 1500 MeTf (fun _ => SsSine 500 10000 f32b_50 0) image.

Section WithBytes.
Context `{BC : BytesCrate}.

(** points.rs 236-243, encode_asdu. *)
Definition encode_asdu {P} `{!AsduPayload P} (payload : P) (cot : Cot) (ca : CommonAddress) : bytes :=
  let vsq := Vsq_single 1 in
  let asdu := from_payload cot ca vsq payload IEC104 in
  Asdu_encode asdu IEC104 [].

(** points.rs 247-378, encode_point. The clock is read once per call. *)
Definition encode_point (clock : Z * Z) (ioa : Ioa) (entry : PointEntry) (cot : Cot) (ca : CommonAddress)
  : option bytes :=
  let ts := now_cp56 clock.1 clock.2 in
  let q := pe_quality entry in
  let single (v : PointValue) := match v with PvSingle true => true | _ => false end in
  let double (v : PointValue) := match v with PvDouble d => dp_from_wire d | _ => DpOff end in
  let normalized (v : PointValue) :=
    match v with PvNormalized f => Nva_from_f32 (f32_of_bits f) | _ => mkNva 0 end in
  let scaled (v : PointValue) := match v with PvScaled s => mkSva s | _ => mkSva 0 end in
  let float (v : PointValue) := match v with PvFloat f => mkR32 f | _ => mkR32 0 end in
  let v := pe_value entry in
  match pe_kind entry with
  | SpNa => Some (encode_asdu (P := M_SP_NA_1) (mkIoPayload [(ioa, mkSiq (single v) (quality_from_wire q))]) cot ca)
  | DpNa => Some (encode_asdu (P := M_DP_NA_1) (mkIoPayload [(ioa, mkDiq (double v) (quality_from_wire q))]) cot ca)
  | MeNa => Some (encode_asdu (P := M_ME_NA_1) (mkIoPayload [(ioa, (normalized v, qds_from_wire q))]) cot ca)
  | MeNb => Some (encode_asdu (P := M_ME_NB_1) (mkIoPayload [(ioa, (scaled v, qds_from_wire q))]) cot ca)
  | MeNc => Some (encode_asdu (P := M_ME_NC_1) (mkIoPayload [(ioa, (float v, qds_from_wire q))]) cot ca)
  | SpTb => Some (encode_asdu (P := M_SP_TB_1) (mkIoPayload [(ioa, (mkSiq (single v) (quality_from_wire q), ts))]) cot ca)
  | DpTb => Some (encode_asdu (P := M_DP_TB_1) (mkIoPayload [(ioa, (mkDiq (double v) (quality_from_wire q), ts))]) cot ca)
  | MeTd => Some (encode_asdu (P := M_ME_TD_1) (mkIoPayload [(ioa, (normalized v, qds_from_wire q, ts))]) cot ca)
  | MeTe => Some (encode_asdu (P := M_ME_TE_1) (mkIoPayload [(ioa, (scaled v, qds_from_wire q, ts))]) cot ca)
  | MeTf => Some (encode_asdu (P := M_ME_TF_1) (mkIoPayload [(ioa, (float v, qds_from_wire q, ts))]) cot ca)
  end.


(** ** Points on the wire *)

(** An ASDU of one object that is in range is decoded to what was encoded. *)
Lemma decode_encode_asdu {P} `{!AsduPayload P} (p : P) cot ca :
  payload_ok (Vsq_single 1) IEC104 p -> cot_ok CotTwo cot -> ca_ok CaTwo ca ->
  Asdu_decode IEC104 (encode_asdu p cot ca) = (Ok (from_payload cot ca (Vsq_single 1) p IEC104), []).
Proof.
  intros Hp Hcot Hca. apply Asdu_decode_encode_ok. split_and!; try done.
  - apply payload_type_id.
  - by apply payload_octets.
Qed.

Lemma decode_from_payload {P} `{!AsduPayload P} (p : P) vsq cot ca ad :
  payload_ok vsq ad p -> decode_payload P (from_payload cot ca vsq p ad) ad = Ok p.
Proof.
  intros Hp. unfold decode_payload, from_payload. simpl. rewrite Z.eqb_refl. simpl. unfold run.
  rewrite <- (app_nil_r (encode_information_objects _ _ _ _)). by rewrite payload_roundtrip.
Qed.

End WithBytes.

(** A list of one object. *)
Lemma one_object_ok `{BC : BytesCrate} {tid V} `{!InfoElement V} ioa (v : V) :
  is_u24 ioa -> ie_wf v -> IoPayload_ok (tid := tid) (Vsq_single 1) IEC104 (mkIoPayload [(ioa, v)]).
Proof. intros Hi Hv. unfold IoPayload_ok. simpl. split_and!; try done; by constructor. Qed.

(** ** Well-typed images *)

(** A value that its kind can have. *)
Definition value_typed (k : PointKind) (v : PointValue) : Prop :=
  match k, v with
  | (SpNa | SpTb), PvSingle _ => True
  | (DpNa | DpTb), PvDouble _ => True
  | (MeNa | MeTd), PvNormalized f => is_u32 f
  | (MeNb | MeTe), PvScaled s => is_i16 s
  | (MeNc | MeTf), PvFloat f => is_u32 f
  | _, _ => False
  end.
Definition entry_typed (e : PointEntry) : Prop := value_typed (pe_kind e) (pe_value e).
Definition image_typed (image : ProcessImage) : Prop :=
  map_Forall (fun ioa e => is_u24 ioa /\ entry_typed e) image.

#[export] Instance is_i16_dec z : Decision (is_i16 z).
Proof. unfold is_i16. apply _. Defined.
#[export] Instance value_typed_dec k v : Decision (value_typed k v).
Proof. destruct k, v; simpl; apply _. Defined.
#[export] Instance entry_typed_dec e : Decision (entry_typed e).
Proof. unfold entry_typed. apply _. Defined.

(** What a peer can see of a value: normalized values have 16 bits. *)
Definition seen_value (v : PointValue) : PointValue :=
  match v with
  | PvNormalized f => PvNormalized (bits_of_f32 (Nva_as_f32 (Nva_from_f32 (f32_of_bits f))))
  | v => v
  end.
(** Single and double points have no overflow bit. *)
Definition seen_quality (k : PointKind) (q : QualityWire) : QualityWire :=
  match k with
  | SpNa | SpTb | DpNa | DpTb =>
      mkQw false (qw_blocked q) (qw_substituted q) (qw_not_topical q) (qw_invalid q)
  | _ => q
  end.
(** The kinds with a time tag carry one. *)
Definition seen_time (k : PointKind) (clock : Z * Z) : option Cp56Time2a :=
  if PointKind_has_timestamp k then Some (now_cp56 clock.1 clock.2) else None.

(** Seeing is idempotent: what a peer sees, it can send on unchanged. *)
Lemma seen_value_seen v : seen_value (seen_value v) = seen_value v.
Proof.
  destruct v as [b|d|f|i|f]; [done|done| |done|done]. unfold seen_value.
  destruct (Nva_from_f32 (f32_of_bits f)) as [n] eqn:E.
  assert (is_i16 n) as Hn by (pose proof (Nva_from_f32_range (f32_of_bits f)) as H; by rewrite E in H).
  rewrite !Nva_as_f32_exact by done. rewrite f32_of_bits_of by (by apply nva_f32_ok).
  by rewrite Nva_from_f32_exact, Nva_as_f32_exact by done.
Qed.

Lemma seen_value_typed k v : value_typed k v -> value_typed k (seen_value v).
Proof.
  destruct k, v; simpl; try done; intros _; apply bits_of_f32_range.
  all: destruct (Nva_from_f32 (f32_of_bits f)) as [n] eqn:E.
  all: assert (is_i16 n) as Hn by (pose proof (Nva_from_f32_range (f32_of_bits f)) as H; by rewrite E in H).
  all: rewrite Nva_as_f32_exact by done; by apply nva_f32_ok.
Qed.

Lemma PointEntry_new_typed kind schedule : entry_typed (PointEntry_new kind schedule).
Proof. by destruct kind. Qed.

Lemma populate_default_typed : image_typed (populate_default ∅).
Proof.
  assert (∀ base kind sched im, 0 <= base <= 2000 -> image_typed im ->
    image_typed (insert_five base kind sched im)) as H.
  { intros base kind sched im Hb Him. unfold insert_five. simpl.
    repeat (apply map_Forall_insert_2; [split; [unfold is_u24; lia|apply PointEntry_new_typed]|]). done. }
  unfold populate_default. do 10 (apply H; [lia|]). apply map_Forall_empty.
Qed.

Lemma Image_set_typed ioa v q im e : im !! ioa = Some e -> value_typed (pe_kind e) v -> image_typed im ->
  image_typed (Image_set ioa v q im).2.
Proof.
  intros Hi Hv Him. unfold Image_set. rewrite Hi. simpl.
  apply map_Forall_insert_2; [|done]. split; [by apply (Him ioa e)|done].
Qed.

Lemma Image_set_schedule_typed ioa s im : image_typed im -> image_typed (Image_set_schedule ioa s im).
Proof.
  intros Him i e. unfold Image_set_schedule. rewrite lookup_alter_Some.
  intros [(-> & e' & E & ->)|[_ E]]; apply (Him _ _ E).
Qed.

(** The image sorted by address. *)
Lemma sort_ioas_spec l : Sorted Z.le (sort_ioas l) /\ sort_ioas l ≡ₚ l.
Proof. split; [apply (Sorted_merge_sort _)|apply merge_sort_Permutation]. Qed.

Lemma elem_of_sort_ioas l ioa : ioa ∈ sort_ioas l <-> ioa ∈ l.
Proof. by rewrite (proj2 (sort_ioas_spec l)). Qed.

Lemma sorted_ioas_spec im : NoDup (sorted_ioas im) /\ ∀ ioa, ioa ∈ sorted_ioas im <-> is_Some (im !! ioa).
Proof.
  unfold sorted_ioas. split.
  - rewrite (proj2 (sort_ioas_spec _)). apply NoDup_fst_map_to_list.
  - intros ioa. rewrite elem_of_sort_ioas, list_elem_of_fmap. split.
    + intros ([i e] & -> & H). apply elem_of_map_to_list in H. eauto.
    + intros [e H]. exists (ioa, e). by rewrite elem_of_map_to_list.
Qed.
