(* ===== verification/Simulator.v ===== *)
(** * The simulator of the test server

    [sim.rs] of crates/iec60870-test-tools: how a scheduled point evolves from
    one tick to the next. The random bit of a step and the sine of the
    platform are arguments. A schedule comes from the control socket as it is,
    so that a computation can panic; the file states which schedules fit a
    point and that these never do. *)

From S2P Require Import Prelude Float64 Float32 Points.
From Stdlib Require Import Floats.SpecFloat.

#[local] Open Scope Z_scope.

Definition f64_add : F64 -> F64 -> F64 := SFadd 53 1024.
(** [2.0] and [std::f64::consts::PI]. *)
Definition f64_2 : F64 := f64_of_int 2.
Definition f64_PI : F64 := S754_finite false 7074237752028440 (-51).

(** sim.rs 131-140, schedule_interval_ms. *)
Definition schedule_interval_ms (sched : SimSchedule) : option Z :=
  match sched with
  | SsNone => None
  | SsToggle interval_ms _ | SsRotate interval_ms | SsRandomWalk interval_ms _ _ _
  | SsStepUp interval_ms _ _ | SsSine interval_ms _ _ _ => Some interval_ms
  end.

(** sim.rs 143-148, schedule_phase_ms. *)
Definition schedule_phase_ms (sched : SimSchedule) : Z :=
  match sched with SsToggle _ phase_ms => phase_ms | _ => 0 end.

(** [i32] addition and [i32::rem_euclid]; both panic on overflow, the second
    on a zero divisor too. *)
Definition i32_add (a b : Z) : Result Z :=
  if decide (is_i32 (a + b)) then Ok (a + b) else Panic.
Definition rem_euclid (a b : Z) : Result Z :=
  if decide (b = 0 \/ (a = -2147483648 /\ b = -1)) then Panic else Ok (a mod (Z.abs b)).

Section Sim.
Context (sin : F64 -> F64).

(** sim.rs 153-237, advance. [coin] is [rng.gen_bool(0.5)]. *)
Definition advance (coin : bool) (schedule : SimSchedule) (current : option PointValue) (elapsed_ticks : Z)
  : Result (option PointValue) :=
  match schedule with
  | SsNone => Ok None
  | SsToggle _ _ =>
      let on := match current with Some (PvSingle b) => negb b | _ => true end in
      Ok (Some (PvSingle on))
  | SsRotate _ =>
      let next :=
        match current with
        | Some (PvDouble DwOff) => DwOn
        | Some (PvDouble DwOn) => DwOff
        | _ => DwOff
        end in
      Ok (Some (PvDouble next))
  | SsRandomWalk _ step min max =>
      let current_f :=
        match current with
        | Some (PvNormalized f) => f32_of_bits f
        | Some (PvFloat f) => f32_of_bits f
        | _ => S754_zero false
        end in
      let delta := if coin then f32_of_bits step else f32_neg (f32_of_bits step) in
      match f32_clamp (f32_of_bits min) (f32_of_bits max) (f32_add current_f delta) with
      | Ok new_val =>
          match current with
          | Some (PvNormalized _) => Ok (Some (PvNormalized (bits_of_f32 new_val)))
          | _ => Ok (Some (PvFloat (bits_of_f32 new_val)))
          end
      | _ => Panic
      end
  | SsStepUp _ step wrap_at =>
      let current_i := match current with Some (PvScaled s) => s | _ => 0 end in
      match i32_add current_i step with
      | Ok sum =>
          match rem_euclid sum wrap_at with
          | Ok new_val => Ok (Some (PvScaled (as_i16 (Z.max (-32768) (Z.min 32767 new_val)))))
          | _ => Panic
          end
      | _ => Panic
      end
  | SsSine interval_ms period_ms amplitude offset =>
      let ticks_per_period := Z.max period_ms 1 / Z.max interval_ms 1 in
      let phase :=
        if ticks_per_period =? 0 then S754_zero false
        else f64_div (f64_of_int (elapsed_ticks mod ticks_per_period)) (f64_of_int ticks_per_period) in
      let val :=
        f32_of_f64 (f64_add
          (f64_mul (f64_of_f32 (f32_of_bits amplitude)) (sin (f64_mul (f64_mul f64_2 f64_PI) phase)))
          (f64_of_f32 (f32_of_bits offset))) in
      match current with
      | Some (PvNormalized _) => Ok (Some (PvNormalized (bits_of_f32 (clamp_to f32_minus_1 f32_1 val))))
      | _ => Ok (Some (PvFloat (bits_of_f32 val)))
      end
  end.

(** bin/server.rs 951-1025, advance_value. The daemon's copy of [advance],
    the same expression for expression. *)
Definition advance_value := advance.

(** sim.rs 92-104, spawn_simulator (the locked section of a tick). [None] ends
    the task. *)
Definition sim_tick (coin : bool) (ioa : Z) (elapsed_ticks : Z) (image : ProcessImage)
  : Result (option ProcessImage) :=
  match image !! ioa with
  | None => Ok None
  | Some e =>
      match advance coin (pe_schedule e) (Some (pe_value e)) elapsed_ticks with
      | Ok (Some new_value) => Ok (Some (Image_set ioa new_value None image).2)
      | Ok None => Ok (Some image)
      | _ => Panic
      end
  end.

(** ** Schedules that fit a point *)

Definition schedule_fits (k : PointKind) (s : SimSchedule) : Prop :=
  match s with
  | SsNone => True
  | SsToggle _ _ => k = SpNa \/ k = SpTb
  | SsRotate _ => k = DpNa \/ k = DpTb
  | SsRandomWalk _ step min max =>
      k ∈ [MeNa; MeNc; MeTd; MeTf] /\ is_u32 step /\ is_u32 min /\ is_u32 max /\
      SFleb (f32_of_bits min) (f32_of_bits max) = true
  | SsStepUp _ step wrap_at =>
      (k = MeNb \/ k = MeTe) /\ -2147450880 <= step <= 2147450880 /\ is_i32 wrap_at /\ 0 < wrap_at
  | SsSine _ _ amplitude offset => k ∈ [MeNa; MeNc; MeTd; MeTf]
  end.

#[export] Instance schedule_fits_dec k s : Decision (schedule_fits k s).
Proof. unfold schedule_fits. destruct s; unfold is_i32; apply _. Defined.

Lemma f32_clamp_ok lo hi x : SFleb lo hi = true -> f32_clamp lo hi x = Ok (clamp_to lo hi x).
Proof. intros H. unfold f32_clamp. by rewrite H. Qed.

(** A tick of a fitting schedule yields a value of the point's kind. *)
Lemma advance_typed coin k s v n : value_typed k v -> schedule_fits k s ->
  ∃ r, advance coin s (Some v) n = Ok r /\ (if r is Some v' then value_typed k v' else True).
Proof.
  intros Hv Hs. assert (∀ f, is_u32 f -> f32_ok (f32_of_bits f)) as Hb by apply f32_of_bits_ok.
  destruct s as [| | |iv step lo hi|iv step wrap|iv per amp off]; cbn [advance schedule_fits] in *.
  - eauto.
  - eexists. split; [done|]. by destruct Hs as [-> | ->].
  - eexists. split; [done|]. by destruct Hs as [-> | ->].
  - destruct Hs as (Hk & H1 & H2 & H3 & Hle). rewrite (f32_clamp_ok _ _ _ Hle).
    assert (∀ x, f32_ok x -> is_u32 (bits_of_f32 (clamp_to (f32_of_bits lo) (f32_of_bits hi)
      (f32_add x (if coin then f32_of_bits step else f32_neg (f32_of_bits step)))))) as Hok.
    { intros x Hx. apply bits_of_f32_range, clamp_to_ok; [auto..|].
      apply f32_add_ok; [done|]. destruct coin; [|apply f32_neg_ok]; auto. }
    destruct k, v; simpl in Hv; try done; try (exfalso; clear - Hk; set_solver); eexists; split; try done.
    all: simpl; apply Hok; auto.
  - destruct Hs as (Hk & Hst & Hw & Hpos).
    assert (∃ i, (match v with PvScaled s => s | _ => 0 end) = i /\ is_i16 i) as (i & -> & Hi)
      by (destruct Hk as [-> | ->], v; simpl in *; eauto; done).
    unfold i32_add. rewrite decide_True by (unfold is_i32, is_i16 in *; lia).
    unfold rem_euclid. rewrite decide_False by lia. eexists; split; [done|]. simpl.
    assert (is_i16 (as_i16 (Z.max (-32768) (Z.min 32767 ((i + step) mod Z.abs wrap)))))
      by (unfold is_i16, as_i16; lia).
    by destruct Hk as [-> | ->].
  - assert (∀ x, is_u32 (bits_of_f32 (f32_of_f64 x)) /\
      is_u32 (bits_of_f32 (clamp_to f32_minus_1 f32_1 (f32_of_f64 x)))) as Hok.
    { intros x. pose proof (f32_of_f64_ok x). split; apply bits_of_f32_range; [done|by apply clamp_to_ok]. }
    destruct k, v; simpl in Hv; try done; try (exfalso; clear - Hs; set_solver); eexists; split; try done.
    all: simpl; apply Hok.
Qed.

Lemma populate_default_fits :
  map_Forall (fun _ e => schedule_fits (pe_kind e) (pe_schedule e)) (populate_default ∅).
Proof. apply (bool_decide_unpack _). by vm_compute. Qed.

(** A step-up point counts modulo its wrap, from any start. *)
Lemma step_up_range coin iv step wrap v n v' : 0 < wrap <= 32768 ->
  advance coin (SsStepUp iv step wrap) v n = Ok (Some v') -> ∃ i, v' = PvScaled i /\ 0 <= i < wrap.
Proof.
  intros Hw. cbn [advance]. unfold i32_add, rem_euclid.
  destruct (decide (is_i32 _)); [|done]. rewrite decide_False by lia. intros [= <-].
  eexists; split; [done|]. unfold as_i16. set (c := match v with Some (PvScaled s) => s | _ => 0 end).
  pose proof (Z.mod_pos_bound (c + step) (Z.abs wrap) ltac:(lia)). lia.
Qed.

End Sim.

(** ** Schedules that do not fit *)

(** A wrap of zero, which the control socket accepts, panics at the next
    tick and ends the point's task. *)
Lemma step_up_zero_panics sin coin iv step n :
  advance sin coin (SsStepUp iv step 0) (Some (PvScaled 7)) n = Panic.
Proof. cbn [advance]. unfold i32_add. by destruct (decide (is_i32 _)). Qed.

(** So do the bounds of a random walk in the wrong order. *)
Lemma random_walk_bounds_panic sin coin :
  advance sin coin (SsRandomWalk 1000 f32b_0_05 f32b_1 f32b_minus_1) (Some (PvFloat 0)) 1 = Panic.
Proof. by destruct coin; vm_compute. Qed.

(** A schedule for another kind of point changes the value's kind. *)
Lemma toggle_retypes sin coin iv ph n :
  advance sin coin (SsToggle iv ph) (Some (PvScaled 7)) n = Ok (Some (PvSingle true)).
Proof. done. Qed.
