(* ===== verification/TestServer.v ===== *)
(** * The test server

    [bin/server.rs] of crates/iec60870-test-tools: an outstation that answers
    interrogations and commands from its process image, lets the image evolve,
    and reports changes through the deadband filter. A section of code that
    holds the state's lock is one function; what it leaves to be broadcast
    after the lock is released is returned, since other tasks can run in
    between. The clock is read once per encoded point, as the argument. *)

From S2P Require Import Prelude Bytes Codec AsduHeader InfoElements IoList Asdu AsduTypes.
From S2P Require Import Float64 Float32 Deadband Calendar Points Simulator.

#[local] Open Scope Z_scope.

(** ** Data *)

(** wire.rs 223-314, Request. *)
Inductive Request :=
| RqGet (ioa : Ioa)
| RqSet (ioa : Ioa) (value : PointValue) (quality : option QualityWire)
| RqList (type_id : option Z)
| RqSimGet (ioa : Ioa)
| RqSimSet (ioa : Ioa) (schedule : SimSchedule)
| RqSetDeadband (ioa : Ioa) (policy : DeadbandPolicyWire)
| RqGetDeadband (ioa : Ioa)
| RqInterrogate (group ca timeout_ms : option Z)
| RqCmdSingle (ioa : Ioa) (on : bool) (ca : option Z)
| RqCmdDouble (ioa : Ioa) (on : bool) (ca : option Z)
| RqCmdRegulating (ioa : Ioa) (step : StepDir) (ca : option Z)
| RqCmdSetpoint (ioa : Ioa) (kind : SetpointKind) (value : F64) (ca : option Z)
| RqRead (ioa : Ioa) (type_id : option Z)
| RqFileGet (nof : Z) (out : string) (ca : option Z)
| RqFilePut (nof : Z) (input : string) (ca : option Z)
| RqStatus
| RqShutdown
| RqEvents.

(** The two transports, [TransportKind] of [transport.rs]. *)
Inductive TransportKind := Tcp | Serial.

(** A row of a list of points. *)
Record PointRow := mkRow {
  row_ioa : Ioa; row_kind : PointKind; row_value : PointValue; row_quality : QualityWire }.

(** The data of a successful response; its JSON text is a library's. *)
Inductive RespData :=
| RdEmpty
| RdPoint (row : PointRow)
| RdPoints (rows : list PointRow)
| RdSchedule (ioa : Ioa) (schedule : SimSchedule)
| RdPolicy (ioa : Ioa) (policy : DeadbandPolicyWire)
| RdServerStatus (transport : TransportKind) (peers points : nat)
| RdInterrogated (rows : list PointRow) (count : nat)
| RdCommand
| RdCached (row : PointRow) (timestamp : option Cp56Time2a)
| RdClientStatus (cached : nat)
| RdBytes (n : Z)
| RdSubscribed
| RdFetched (bytes : Z) (path : string).
Inductive RespError := ReNotFound (ioa : Ioa) | ReText (message : string).

(** wire.rs 320-326, Response. *)
Inductive Response := RespOk (data : RespData) | RespErr (e : RespError).

(** wire.rs 365-396, Event. The cause is the number that is printed. *)
Inductive ToolEvent :=
| EvAsduSent (cot : Z) (type_id : Z) (ioa : Ioa)
| EvAsduReceived (cot : Z) (type_id : Z) (ioa : Ioa) (value : option PointValue)
| EvStateChanged (state : string)
| EvSimTick (ioa : Ioa) (kind : PointKind)
| EvConnected
| EvDisconnected.

(** bin/server.rs 184-195, DaemonState. A peer is its address. *)
Record ServerState := mkServer {
  ss_image : ProcessImage; ss_tracker : DeadbandTracker; ss_peers : list Z; ss_outstation : bool;
  ss_transport : TransportKind; ss_coa : CommonAddress }.

(** bin/server.rs 198-210, DaemonState::new. *)
Definition ServerState_new (kind : TransportKind) (coa : Z) : ServerState :=
  mkServer (populate_default ∅) DeadbandTracker_new [] false kind coa.

Definition set_image (im : ProcessImage) (st : ServerState) : ServerState :=
  mkServer im (ss_tracker st) (ss_peers st) (ss_outstation st) (ss_transport st) (ss_coa st).
Definition set_tracker (t : DeadbandTracker) (st : ServerState) : ServerState :=
  mkServer (ss_image st) t (ss_peers st) (ss_outstation st) (ss_transport st) (ss_coa st).
Definition set_peers (ps : list Z) (st : ServerState) : ServerState :=
  mkServer (ss_image st) (ss_tracker st) ps (ss_outstation st) (ss_transport st) (ss_coa st).

(** What a section does to the outside. *)
Inductive ServerOut :=
| SoSend (asdu : bytes)
| SoEvent (e : ToolEvent)
| SoSleep (ms : Z)
| SoDeadbandError (ioa : Ioa)
| SoBroadcast (asdu : bytes).

(** Where a broadcast goes. *)
Inductive Dest := ToOutstation | ToPeer (addr : Z).

(** bin/server.rs 213-221, DaemonState::broadcast. *)
Definition broadcast (st : ServerState) (asdu : bytes) : list (Dest * bytes) :=
  if ss_outstation st then [(ToOutstation, asdu)]
  else map (fun addr => (ToPeer addr, asdu)) (ss_peers st).

(** [if let Err(e) = tracker.observe(..) { tracing::error!(..) }] *)
Definition observe_logged (ioa : Ioa) (sample : MonitoredValue * Qds) (t : DeadbandTracker)
  : list ServerOut * DeadbandTracker :=
  match observe ioa sample.1 sample.2 t with
  | (DbErr _, t') => ([SoDeadbandError ioa], t')
  | (_, t') => ([], t')
  end.

Section Server.
Context `{BC : BytesCrate} (sin : F64 -> F64).

(** ** The control socket *)

Definition row_of (ioa : Ioa) (e : PointEntry) : PointRow :=
  mkRow ioa (pe_kind e) (pe_value e) (pe_quality e).

(** bin/server.rs 288-302, ServerHandler::handle_get. *)
Definition handle_get (ioa : Ioa) (st : ServerState) : Response :=
  match ss_image st !! ioa with
  | None => RespErr (ReNotFound ioa)
  | Some entry => RespOk (RdPoint (row_of ioa entry))
  end.

(** bin/server.rs 304-335, ServerHandler::handle_set. The ASDU is broadcast
    when the lock has been released. *)
Definition handle_set (clock : Z * Z) (ioa : Ioa) (value : PointValue) (quality : option QualityWire)
    (st : ServerState) : Result (Response * list ServerOut * option bytes * ServerState) :=
  match Image_set ioa value quality (ss_image st) with
  | (false, _) => Ok (RespErr (ReNotFound ioa), [], None, st)
  | (true, image) =>
      match image !! ioa with
      | None => Panic (* unwrap *)
      | Some entry =>
          let asdu := encode_point clock ioa entry (Cot_with SPONTANEOUS) (ss_coa st) in
          let '(logs, tracker) := observe_logged ioa (entry_to_monitored entry) (ss_tracker st) in
          Ok (RespOk RdEmpty, logs, asdu, set_tracker tracker (set_image image st))
      end
  end.

(** bin/server.rs 337-363, ServerHandler::handle_list. *)
Definition handle_list (type_id : option Z) (st : ServerState) : Response :=
  let filter_kind := type_id ≫= PointKind_from_type_id in
  let selected :=
    filter (fun p => match filter_kind with None => true | Some k => bool_decide (pe_kind p.2 = k) end = true)
      (map_to_list (ss_image st)) in
  let ioas := sort_ioas (fst <$> selected) in
  RespOk (RdPoints (omap (fun ioa => row_of ioa <$> ss_image st !! ioa) ioas)).

(** bin/server.rs 365-374, ServerHandler::handle_sim_get. *)
Definition handle_sim_get (ioa : Ioa) (st : ServerState) : Response :=
  match ss_image st !! ioa with
  | None => RespErr (ReNotFound ioa)
  | Some entry => RespOk (RdSchedule ioa (pe_schedule entry))
  end.

(** bin/server.rs 376-385, ServerHandler::handle_sim_set. *)
Definition handle_sim_set (ioa : Ioa) (schedule : SimSchedule) (st : ServerState) : Response * ServerState :=
  match ss_image st !! ioa with
  | None => (RespErr (ReNotFound ioa), st)
  | Some _ => (RespOk RdEmpty, set_image (Image_set_schedule ioa schedule (ss_image st)) st)
  end.

(** bin/server.rs 387-402, ServerHandler::handle_status. Without the uptime. *)
Definition server_status (st : ServerState) : Response :=
  RespOk (RdServerStatus (ss_transport st) (length (ss_peers st)) (size (ss_image st))).

(** bin/server.rs 404-414, ServerHandler::handle_set_deadband. *)
Definition handle_set_deadband (ioa : Ioa) (policy : DeadbandPolicyWire) (st : ServerState)
  : Response * ServerState :=
  (RespOk RdEmpty, set_tracker (Tracker_set_policy ioa (into_policy policy) (ss_tracker st)) st).

(** bin/server.rs 416-422, ServerHandler::handle_get_deadband. *)
Definition handle_get_deadband (ioa : Ioa) (st : ServerState) : Response :=
  RespOk (RdPolicy ioa (from_policy (Tracker_policy (ss_tracker st) ioa))).

(** bin/server.rs 236-265, ServerHandler::handle. *)
Definition server_handle (clock : Z * Z) (req : Request) (st : ServerState)
  : Result (Response * list ServerOut * option bytes * ServerState) :=
  let pure r := Ok (r, [], None, st) in
  match req with
  | RqGet ioa => pure (handle_get ioa st)
  | RqSet ioa value quality => handle_set clock ioa value quality st
  | RqList type_id => pure (handle_list type_id st)
  | RqSimGet ioa => pure (handle_sim_get ioa st)
  | RqSimSet ioa schedule => let '(r, st') := handle_sim_set ioa schedule st in Ok (r, [], None, st')
  | RqStatus => pure (server_status st)
  | RqShutdown => pure (RespOk RdEmpty)
  | RqInterrogate _ _ _ | RqCmdSingle _ _ _ | RqCmdDouble _ _ _ | RqCmdRegulating _ _ _
  | RqCmdSetpoint _ _ _ _ | RqRead _ _ | RqFileGet _ _ _ | RqFilePut _ _ _ =>
      pure (RespErr (ReText "not a server op"))
  | RqEvents => pure (RespErr (ReText "use subscribe_events"))
  | RqSetDeadband ioa policy => let '(r, st') := handle_set_deadband ioa policy st in Ok (r, [], None, st')
  | RqGetDeadband ioa => pure (handle_get_deadband ioa st)
  end.

(** bin/server.rs 1087-1124, run_daemon (the locked section of a simulator
    tick). [None] ends the task; otherwise what is to be broadcast and the
    event that follows. *)
Definition server_tick (coin : bool) (clock : Z * Z) (ioa : Ioa) (elapsed : Z) (st : ServerState)
  : Result (option (list ServerOut * option bytes * ToolEvent) * ServerState) :=
  match ss_image st !! ioa with
  | None => Ok (None, st)
  | Some e0 =>
      match advance_value sin coin (pe_schedule e0) (Some (pe_value e0)) elapsed with
      | Ok next =>
          let image := match next with
                       | Some v => (Image_set ioa v None (ss_image st)).2
                       | None => ss_image st
                       end in
          match image !! ioa with
          | None => Ok (None, set_image image st)
          | Some e =>
              let sample := entry_to_monitored e in
              match evaluate ioa sample.1 sample.2 (ss_tracker st) with
              | (DbPanic, _) => Panic
              | (decision, tracker) =>
                  let logs := match decision with DbErr _ => [SoDeadbandError ioa] | _ => [] end in
                  let asdu := match decision with
                              | DbOk Emit => encode_point clock ioa e (Cot_with SPONTANEOUS) (ss_coa st)
                              | _ => None
                              end in
                  Ok (Some (logs, asdu, EvSimTick ioa (pe_kind e)), set_tracker tracker (set_image image st))
              end
          end
      | _ => Panic
      end
  end.

(** ** Interrogation *)

(** bin/server.rs 430-436, encode_asdu_bytes. *)
Definition encode_asdu_bytes {P} `{!AsduPayload P} (payload : P) (cot : Cot) (ca : CommonAddress) : bytes :=
  let vsq := Vsq_single 1 in
  let asdu := from_payload cot ca vsq payload IEC104 in
  Asdu_encode asdu IEC104 [].

(** bin/server.rs 544-554, encode_asdu_bytes_list. *)
Definition encode_asdu_bytes_list (payload : C_IC_NA_1) (cot : Cot) (ca : CommonAddress) : bytes :=
  let vsq := Vsq_single (as_u8 (Z.of_nat (length (objects payload)))) in
  let asdu := from_payload cot ca vsq payload IEC104 in
  Asdu_encode asdu IEC104 [].

(** bin/server.rs 459-478, respond_interrogation_general (the loop over the
    addresses). The loop of a group has the same body. *)
Fixpoint report_points (clock : Ioa -> Z * Z) (cot : Cot) (ioas : list Ioa) (st : ServerState)
  : list ServerOut * ServerState :=
  match ioas with
  | [] => ([], st)
  | ioa :: ioas' =>
      match ss_image st !! ioa with
      | None => report_points clock cot ioas' st
      | Some entry =>
          let asdu := encode_point (clock ioa) ioa entry cot (ss_coa st) in
          let '(logs, tracker) := observe_logged ioa (entry_to_monitored entry) (ss_tracker st) in
          let sent := match asdu with Some b => [SoSend b] | None => [] end in
          let '(rest, st') := report_points clock cot ioas' (set_tracker tracker st) in
          (logs ++ sent ++ rest, st')
      end
  end.

(** bin/server.rs 442-493, respond_interrogation_general. *)
Definition respond_interrogation_general (clock : Ioa -> Z * Z) (st : ServerState)
  : list ServerOut * ServerState :=
  let ca := ss_coa st in
  let ic : C_IC_NA_1 := mkIoPayload [(0, Qoi_GENERAL)] in
  let ack := encode_asdu_bytes_list ic (Cot_with ACTIVATION_CON) ca in
  let ioas := sort_ioas (fst <$> map_to_list (ss_image st)) in
  let '(points, st') := report_points clock (Cot_with INTERROGATED_GENERAL) ioas st in
  let term := encode_asdu_bytes_list ic (Cot_with ACTIVATION_TERMINATION) ca in
  ([SoSend ack] ++ points ++ [SoSend term; SoEvent (EvAsduSent INTERROGATED_GENERAL 100 0)], st').

(** bin/server.rs 495-541, respond_interrogation_group. *)
Definition respond_interrogation_group (clock : Ioa -> Z * Z) (group : Z) (st : ServerState)
  : Result (list ServerOut * ServerState) :=
  let ca := ss_coa st in
  match Qoi_group group with
  | Ok qoi =>
      let ic : C_IC_NA_1 := mkIoPayload [(0, qoi)] in
      let ack := encode_asdu_bytes_list ic (Cot_with ACTIVATION_CON) ca in
      let term := encode_asdu_bytes_list ic (Cot_with ACTIVATION_TERMINATION) ca in
      match kind_for_group group with
      | Some kind =>
          match interrogated_group group with
          | Ok cause =>
              let ioas := sort_ioas (fst <$> iter_kind kind (ss_image st)) in
              let '(points, st') := report_points clock (Cot_with cause) ioas st in
              Ok ([SoSend ack] ++ points ++ [SoSend term], st')
          | _ => Panic
          end
      | None => Ok ([SoSend ack; SoSend term], st)
      end
  | _ => Panic
  end.

(** ** Commands *)

(** bin/server.rs 757-811, handle_command_list. *)
Definition handle_command_list {tid V} `{!TypeId tid, !InfoElement V} (asdu : Asdu) (ca : CommonAddress)
  : list ServerOut :=
  let cot_in := asdu_cot asdu in
  match res_ok (decode_payload (IoPayload tid V) asdu IEC104) with
  | None => []
  | Some payload =>
      let vsq := Vsq_single (as_u8 (Z.of_nat (length (objects payload)))) in
      let answer cause := Asdu_encode (from_payload (Cot_with cause) ca vsq payload IEC104) IEC104 [] in
      [SoSend (answer ACTIVATION_CON); SoEvent (EvAsduReceived (cot_cause cot_in) tid 0 None); SoSleep 50;
       SoSend (answer ACTIVATION_TERMINATION)]
  end.

(** bin/server.rs 597-727, handle_incoming_asdu. *)
Definition handle_incoming_asdu (clock : Ioa -> Z * Z) (b : bytes) (st : ServerState)
  : Result (list ServerOut * ServerState) :=
  match run (Asdu_decode IEC104) b with
  | Panic => Panic
  | Err _ => Ok ([], st)
  | Ok asdu =>
      let ca := ss_coa st in
      let ioa_raw := match drop 6 b with
                     | b6 :: b7 :: b8 :: _ => Z.lor (Z.lor b6 (Z.shiftl b7 8)) (Z.shiftl b8 16)
                     | _ => 0
                     end in
      let received := SoEvent (EvAsduReceived (cot_cause (asdu_cot asdu)) (type_id asdu) ioa_raw None) in
      let reply outs := Ok (received :: outs, st) in
      match type_id asdu with
      | 100 =>
          match res_ok (decode_payload C_IC_NA_1 asdu IEC104) with
          | None => reply []
          | Some ic =>
              let qoi := default Qoi_GENERAL (snd <$> head (objects ic)) in
              if decide (qoi = Qoi_GENERAL) then
                let '(outs, st') := respond_interrogation_general clock st in Ok (received :: outs, st')
              else
                let group := Z.max 0 (qoi_0 qoi - 20) in
                match respond_interrogation_group clock group st with
                | Ok (outs, st') => Ok (received :: outs, st')
                | _ => Panic
                end
          end
      | 101 =>
          match res_ok (decode_payload C_CI_NA_1 asdu IEC104) with
          | Some ci => reply [SoSend (encode_asdu_bytes (mkC_CI_NA_1 (ci_ioa ci) (ci_qcc ci)) (Cot_with ACTIVATION_CON) ca)]
          | None => reply []
          end
      | 102 =>
          match res_ok (decode_payload C_RD_NA_1 asdu IEC104) with
          | Some rd => reply [SoSend (encode_asdu_bytes (mkC_RD_NA_1 (rd_ioa rd)) (Cot_with REQUEST) ca)]
          | None => reply []
          end
      | 103 =>
          match res_ok (decode_payload C_CS_NA_1 asdu IEC104) with
          | Some cs => reply [SoSend (encode_asdu_bytes (mkC_CS_NA_1 (cs_ioa cs) (cs_time cs)) (Cot_with ACTIVATION_CON) ca)]
          | None => reply []
          end
      | 105 =>
          match res_ok (decode_payload C_RP_NA_1 asdu IEC104) with
          | Some rp => reply [SoSend (encode_asdu_bytes (mkC_RP_NA_1 (rp_ioa rp) (rp_qrp rp)) (Cot_with ACTIVATION_CON) ca)]
          | None => reply []
          end
      | 45 => reply (handle_command_list (tid := 45) (V := Sco) asdu ca)
      | 46 => reply (handle_command_list (tid := 46) (V := Dco) asdu ca)
      | 47 => reply (handle_command_list (tid := 47) (V := Rco) asdu ca)
      | 48 => reply (handle_command_list (tid := 48) (V := Nva * Qos) asdu ca)
      | 49 => reply (handle_command_list (tid := 49) (V := Sva * Qos) asdu ca)
      | 50 => reply (handle_command_list (tid := 50) (V := R32 * Qos) asdu ca)
      | 58 => reply (handle_command_list (tid := 58) (V := Sco * Cp56Time2a) asdu ca)
      | 61 => reply (handle_command_list (tid := 61) (V := Nva * Qos * Cp56Time2a) asdu ca)
      | 62 => reply (handle_command_list (tid := 62) (V := Sva * Qos * Cp56Time2a) asdu ca)
      | 63 => reply (handle_command_list (tid := 63) (V := R32 * Qos * Cp56Time2a) asdu ca)
      | _ => reply []
      end
  end.

(** ** Connections *)

(** bin/server.rs 826-834, run_104_peer (registration). *)
Definition peer_connected (addr : Z) (st : ServerState) : ServerState :=
  set_peers (if decide (addr ∈ ss_peers st) then ss_peers st else addr :: ss_peers st) st.

(** bin/server.rs 859-862, run_104_peer (removal). *)
Definition peer_closed (addr : Z) (st : ServerState) : ServerState :=
  set_peers (filter (fun a => a ≠ addr) (ss_peers st)) st.

(** bin/server.rs 907-910, run_101_outstation (registration). *)
Definition outstation_opened (st : ServerState) : ServerState :=
  mkServer (ss_image st) (ss_tracker st) (ss_peers st) true (ss_transport st) (ss_coa st).

(** ** Runs of the server *)

Inductive ServerInput :=
| SiRequest (clock : Z * Z) (req : Request)
| SiTick (coin : bool) (clock : Z * Z) (ioa : Ioa) (elapsed : Z)
| SiAsdu (clock : Ioa -> Z * Z) (asdu : bytes)
| SiConnected (addr : Z)
| SiClosed (addr : Z)
| SiOpened.

Definition to_broadcast (asdu : option bytes) : list ServerOut :=
  match asdu with Some b => [SoBroadcast b] | None => [] end.

(** One locked section, and what it leaves to be broadcast right after it: the
    run in which no other task comes in between the release of the lock and
    the broadcast. [async_run] below is without this restriction. *)
Definition server_step (st : ServerState) (i : ServerInput) : Result (list ServerOut * ServerState) :=
  match i with
  | SiRequest clock req =>
      match server_handle clock req st with
      | Ok (_, outs, asdu, st') => Ok (outs ++ to_broadcast asdu, st')
      | _ => Panic
      end
  | SiTick coin clock ioa elapsed =>
      match server_tick coin clock ioa elapsed st with
      | Ok (Some (outs, asdu, ev), st') => Ok (outs ++ to_broadcast asdu ++ [SoEvent ev], st')
      | Ok (None, st') => Ok ([], st')
      | _ => Panic
      end
  | SiAsdu clock b => handle_incoming_asdu clock b st
  | SiConnected addr => Ok ([], peer_connected addr st)
  | SiClosed addr => Ok ([], peer_closed addr st)
  | SiOpened => Ok ([], outstation_opened st)
  end.

Fixpoint server_run (st : ServerState) (inputs : list ServerInput) : Result (list ServerOut * ServerState) :=
  match inputs with
  | [] => Ok ([], st)
  | i :: inputs' =>
      match server_step st i with
      | Ok (outs, st') =>
          match server_run st' inputs' with
          | Ok (outs', st'') => Ok (outs ++ outs', st'')
          | _ => Panic
          end
      | _ => Panic
      end
  end.

Lemma handle_incoming_no_err clock b st e : handle_incoming_asdu clock b st ≠ Err e.
Proof. unfold handle_incoming_asdu. by repeat case_match. Qed.

Lemma server_run_snoc st inputs i outs st' outs' st'' :
  server_run st inputs = Ok (outs, st') -> server_step st' i = Ok (outs', st'') ->
  server_run st (inputs ++ [i]) = Ok (outs ++ outs', st'').
Proof.
  revert st outs. induction inputs as [|j inputs IH]; intros st outs; cbn [server_run app].
  - intros [= <- <-] ->. by rewrite app_nil_r.
  - intros E Hi. destruct (server_step st j) as [[o st1]| |]; [|done..].
    destruct (server_run st1 inputs) as [[o' st2]| |] eqn:E'; [|done..]. injection E as <- <-.
    by rewrite (IH _ _ E' Hi), app_assoc.
Qed.

(** ** Broadcasts after the lock is released *)

(** bin/server.rs 1126-1137, run_daemon (what follows the section of a tick). What
    is done under the lock, and what follows when it has been released; a set
    is broadcast in the same way (329-332). *)
Definition server_section (st : ServerState) (i : ServerInput)
  : Result (list ServerOut * list ServerOut * ServerState) :=
  match i with
  | SiRequest clock req =>
      match server_handle clock req st with
      | Ok (_, outs, asdu, st') => Ok (outs, to_broadcast asdu, st')
      | _ => Panic
      end
  | SiTick coin clock ioa elapsed =>
      match server_tick coin clock ioa elapsed st with
      | Ok (Some (outs, asdu, ev), st') => Ok (outs, to_broadcast asdu ++ [SoEvent ev], st')
      | Ok (None, st') => Ok ([], [], st')
      | _ => Panic
      end
  | SiAsdu clock b =>
      match handle_incoming_asdu clock b st with Ok (outs, st') => Ok (outs, [], st') | _ => Panic end
  | SiConnected addr => Ok ([], [], peer_connected addr st)
  | SiClosed addr => Ok ([], [], peer_closed addr st)
  | SiOpened => Ok ([], [], outstation_opened st)
  end.

(** A task takes the lock, or one that has released it goes on. *)
Inductive AsyncMove := AsSection (i : ServerInput) | AsAfter (n : nat).

(** The tasks in any order; [waiting] is what the tasks that have released the
    lock have still to do. *)
Fixpoint async_run (st : ServerState) (waiting : list (list ServerOut)) (moves : list AsyncMove)
  : Result (list ServerOut * ServerState * list (list ServerOut)) :=
  match moves with
  | [] => Ok ([], st, waiting)
  | AsSection i :: moves =>
      match server_section st i with
      | Ok (outs, after, st') =>
          match async_run st' (waiting ++ [after]) moves with
          | Ok (outs', st'', waiting') => Ok (outs ++ outs', st'', waiting')
          | _ => Panic
          end
      | _ => Panic
      end
  | AsAfter n :: moves =>
      match async_run st (delete n waiting) moves with
      | Ok (outs', st'', waiting') => Ok (default [] (waiting !! n) ++ outs', st'', waiting')
      | _ => Panic
      end
  end.

Definition sections (moves : list AsyncMove) : list ServerInput :=
  omap (fun m => match m with AsSection i => Some i | AsAfter _ => None end) moves.

Lemma server_step_section st i : server_step st i =
  match server_section st i with Ok (outs, after, st') => Ok (outs ++ after, st') | _ => Panic end.
Proof.
  destruct i as [clock req|coin clock ioa n|clock b| | |]; try done; cbn [server_step server_section].
  - by destruct (server_handle clock req st) as [[[[]]]| |].
  - by destruct (server_tick coin clock ioa n st) as [[[[[]]|]]| |].
  - assert (∀ e, handle_incoming_asdu clock b st ≠ Err e) as He by (intros e; apply handle_incoming_no_err).
    destruct (handle_incoming_asdu clock b st) as [[]|e|]; [by rewrite app_nil_r|by destruct (He e)|done].
Qed.

Lemma delete_concat {A} (ls : list (list A)) n : concat ls ≡ₚ default [] (ls !! n) ++ concat (delete n ls).
Proof.
  revert n. induction ls as [|l ls IH]; intros n; [done|]. destruct n as [|n]; [done|].
  cbn [concat delete list_delete lookup list_lookup]. rewrite (IH n) at 1. apply Permutation_app_swap_app.
Qed.

(** In whatever order the tasks go on, the state is that of the sections alone,
    and everything that is left to be done is done once, or waits. *)
Theorem async_run_sections st waiting moves outs st' waiting' :
  async_run st waiting moves = Ok (outs, st', waiting') ->
  ∃ outs0, server_run st (sections moves) = Ok (outs0, st') /\ outs ++ concat waiting' ≡ₚ concat waiting ++ outs0.
Proof.
  revert st waiting outs. induction moves as [|[i|n] moves IH]; intros st waiting outs; cbn [async_run].
  - intros [= <- <- <-]. exists []. by rewrite app_nil_r.
  - change (sections (AsSection i :: moves)) with (i :: sections moves). cbn [server_run]. rewrite server_step_section.
    destruct (server_section st i) as [[[o after] st1]| |]; [|done..].
    destruct (async_run st1 (waiting ++ [after]) moves) as [[[o' st2] w']| |] eqn:E; [|done..]. intros [= <- <- <-].
    destruct (IH _ _ _ E) as (o0 & -> & Hp). exists ((o ++ after) ++ o0). split; [done|].
    rewrite concat_app in Hp. cbn [concat] in Hp. rewrite app_nil_r in Hp. rewrite <- app_assoc, Hp. solve_Permutation.
  - change (sections (AsAfter n :: moves)) with (sections moves).
    destruct (async_run st (delete n waiting) moves) as [[[o' st2] w']| |] eqn:E; [|done..]. intros [= <- <- <-].
    destruct (IH _ _ _ E) as (o0 & -> & Hp). exists o0. split; [done|].
    by rewrite (delete_concat waiting n), <- !app_assoc, Hp.
Qed.

(** A run of the server is the run of its tasks in which each goes on as soon
    as it has released the lock. *)
Lemma server_run_async st inputs :
  async_run st [] (concat ((fun i => [AsSection i; AsAfter 0]) <$> inputs)) =
  match server_run st inputs with Ok (outs, st') => Ok (outs, st', []) | _ => Panic end.
Proof.
  revert st. induction inputs as [|i inputs IH]; intros st; [done|].
  cbn [fmap list_fmap concat app async_run server_run]. rewrite server_step_section.
  destruct (server_section st i) as [[[o after] st1]| |]; [|done..].
  cbn [app delete list_delete lookup list_lookup default from_option id]. rewrite IH.
  destruct (server_run st1 inputs) as [[o' st2]| |]; [|done..]. by rewrite <- app_assoc.
Qed.

(** ** Every point keeps its kind *)

Definition kind_value (k : PointKind) : ValueKind :=
  match k with
  | SpNa | SpTb => VkSingle
  | DpNa | DpTb => VkDouble
  | MeNa | MeTd => VkNormalized
  | MeNb | MeTe => VkScaled
  | MeNc | MeTf => VkFloat
  end.

Definition kinds (im : ProcessImage) : gmap Ioa PointKind := pe_kind <$> im.
(** The kind of value the tracker is given for an address. *)
Definition tracked_kind (K : gmap Ioa PointKind) (ioa : Ioa) : ValueKind := kind_value (default SpNa (K !! ioa)).

(** The state with the kinds [K]: every value is of its point's kind, every
    schedule fits its point, and so do the baselines of the filter. *)
Definition server_typed (K : gmap Ioa PointKind) (st : ServerState) : Prop :=
  kinds (ss_image st) = K /\ image_typed (ss_image st) /\
  map_Forall (fun _ e => schedule_fits (pe_kind e) (pe_schedule e)) (ss_image st) /\
  tracker_typed (tracked_kind K) (ss_tracker st).

(** Requests that respect the kinds; any octets may be received. *)
Definition input_typed (K : gmap Ioa PointKind) (i : ServerInput) : Prop :=
  match i with
  | SiRequest _ (RqSet ioa v _) => ∀ k, K !! ioa = Some k -> value_typed k v
  | SiRequest _ (RqSimSet ioa s) => ∀ k, K !! ioa = Some k -> schedule_fits k s
  | SiAsdu _ b => octets b
  | _ => True
  end.

Definition no_error (outs : list ServerOut) : Prop := Forall (fun o => ∀ ioa, o ≠ SoDeadbandError ioa) outs.

Lemma no_error_app a b : no_error a -> no_error b -> no_error (a ++ b).
Proof. unfold no_error. rewrite Forall_app. auto. Qed.
Lemma no_error_broadcast b : no_error (to_broadcast b).
Proof. destruct b; repeat constructor. done. Qed.

Lemma entry_sample_kind e : entry_typed e -> MonitoredValue_kind (entry_to_monitored e).1 = kind_value (pe_kind e).
Proof. destruct e as [[] [] q s]; done. Qed.

Lemma kinds_lookup st K ioa e : kinds (ss_image st) = K -> ss_image st !! ioa = Some e -> K !! ioa = Some (pe_kind e).
Proof. intros <- He. unfold kinds. by rewrite lookup_fmap, He. Qed.

Lemma tracked_kind_entry st K ioa e : kinds (ss_image st) = K -> ss_image st !! ioa = Some e ->
  tracked_kind K ioa = kind_value (pe_kind e).
Proof. intros HK He. unfold tracked_kind. by rewrite (kinds_lookup _ _ _ _ HK He). Qed.

(** Observing a well-typed point succeeds. *)
Lemma observe_typed K st ioa e : server_typed K st -> ss_image st !! ioa = Some e ->
  (observe_logged ioa (entry_to_monitored e) (ss_tracker st)).1 = [] /\
  tracker_typed (tracked_kind K) (observe_logged ioa (entry_to_monitored e) (ss_tracker st)).2.
Proof.
  intros (HK & Him & _ & Ht) He.
  destruct (db_apply_typed (tracked_kind K) (OpObserve ioa (entry_to_monitored e).1 (entry_to_monitored e).2)
    (ss_tracker st)) as [[d Hd] Hk]; [|done|].
  - simpl. rewrite (tracked_kind_entry _ _ _ _ HK He). apply entry_sample_kind, (Him _ _ He).
  - unfold observe_logged. cbn [db_apply] in Hd, Hk. by destruct (observe _ _ _ _) as [[]].
Qed.

(** A new value of the right kind. *)
Lemma set_value_typed K st ioa e v q : server_typed K st -> ss_image st !! ioa = Some e -> value_typed (pe_kind e) v ->
  server_typed K (set_image (Image_set ioa v q (ss_image st)).2 st).
Proof.
  intros (HK & Him & Hf & Ht) He Hv. unfold Image_set. rewrite He. cbn [snd]. split_and!; cbn [ss_image set_image ss_tracker].
  - unfold kinds. rewrite fmap_insert. cbn [pe_kind]. rewrite insert_id; [exact HK|]. by rewrite lookup_fmap, He.
  - apply map_Forall_insert_2; [|done]. split; [by apply (Him _ _ He)|done].
  - apply map_Forall_insert_2; [|done]. apply (Hf _ _ He).
  - done.
Qed.

Lemma tracker_set_typed K st t : server_typed K st -> tracker_typed (tracked_kind K) t -> server_typed K (set_tracker t st).
Proof. intros (HK & Him & Hf & _) Ht. by split_and!. Qed.

Lemma handle_set_typed K clock ioa v q st : server_typed K st -> (∀ k, K !! ioa = Some k -> value_typed k v) ->
  ∃ r outs b st', handle_set clock ioa v q st = Ok (r, outs, b, st') /\ no_error outs /\ server_typed K st'.
Proof.
  intros Hst Hv. unfold handle_set. destruct (ss_image st !! ioa) as [e|] eqn:He.
  - pose proof (set_value_typed K st ioa e v q Hst He (Hv _ (kinds_lookup _ _ _ _ (proj1 Hst) He))) as Hs.
    unfold Image_set in *. rewrite He in *. cbn [snd] in Hs. rewrite lookup_insert_eq.
    set (e' := mkEntry _ _ _ _) in *. destruct (observe_typed K _ ioa e' Hs) as [H1 H2]; [apply lookup_insert_eq|].
    cbn [ss_tracker set_image] in *. destruct (observe_logged _ _ _) as [logs t]. cbn [fst snd] in *. subst logs.
    do 4 eexists. split; [done|]. split; [constructor|]. by apply tracker_set_typed.
  - unfold Image_set. rewrite He. do 4 eexists. split; [done|]. by split; [constructor|].
Qed.

Lemma server_tick_typed K coin clock ioa n st : server_typed K st ->
  ∃ r st', server_tick coin clock ioa n st = Ok (r, st') /\ server_typed K st' /\
    match r with Some (outs, _, _) => no_error outs | None => True end.
Proof.
  intros Hst. unfold server_tick. destruct (ss_image st !! ioa) as [e|] eqn:He; [|by do 2 eexists; split].
  pose proof Hst as (HK & Him & Hf & Ht).
  destruct (advance_typed sin coin (pe_kind e) (pe_schedule e) (pe_value e) n) as (next & Ha & Hv);
    [apply (Him _ _ He)|apply (Hf _ _ He)|].
  unfold advance_value. rewrite Ha.
  set (image := match next with Some v => (Image_set ioa v None (ss_image st)).2 | None => ss_image st end).
  assert (server_typed K (set_image image st)) as Hs.
  { unfold image. destruct next as [v|]; [by eapply set_value_typed|]. by destruct st. }
  destruct (image !! ioa) as [e'|] eqn:He'; [|by do 2 eexists; split].
  destruct (db_apply_typed (tracked_kind K) (OpEvaluate ioa (entry_to_monitored e').1 (entry_to_monitored e').2)
    (ss_tracker st)) as [[d Hd] Hk]; [|apply Hs|].
  { destruct Hs as (HK' & Him' & _). simpl. rewrite (tracked_kind_entry (set_image image st) K ioa e' HK' He').
    apply entry_sample_kind, (Him' _ _ He'). }
  cbn [db_apply] in Hd, Hk. destruct (evaluate _ _ _ _) as [dec t]. cbn [fst snd] in *. subst dec.
  do 2 eexists. split; [done|]. split; [|constructor]. by apply (tracker_set_typed K (set_image image st)).
Qed.

Lemma report_points_typed K clock cot ioas st : server_typed K st ->
  no_error (report_points clock cot ioas st).1 /\ server_typed K (report_points clock cot ioas st).2.
Proof.
  revert st. induction ioas as [|ioa ioas IH]; intros st Hst; [by split; [constructor|]|]. cbn [report_points].
  destruct (ss_image st !! ioa) as [e|] eqn:He; [|by apply IH].
  destruct (observe_typed K st ioa e Hst He) as [H1 H2]. destruct (observe_logged _ _ _) as [logs t].
  cbn [fst snd] in *. subst logs. specialize (IH _ (tracker_set_typed K st t Hst H2)).
  destruct (report_points _ _ _ _) as [rest st']. cbn [fst snd] in *. destruct IH as [IH1 IH2]. split; [|done].
  apply (no_error_app []); [constructor|]. apply no_error_app; [|done].
  destruct (encode_point _ _ _ _ _); repeat constructor; done.
Qed.

(** The elements of a decoded list are in range. *)
Lemma decoded_objects_wf {tid V} `{!TypeId tid, !InfoElement V} a p : octets (payload a) ->
  decode_payload (IoPayload tid V) a IEC104 = Ok p -> Forall (fun o => ie_wf o.2) (objects p).
Proof.
  intros Ho. unfold decode_payload. destruct (negb _); [done|]. unfold run.
  change (decode_information_objects ?v ?ad) with (IoPayload_decode (tid := tid) v ad). unfold IoPayload_decode.
  assert (dec_total (decode_io_list (E := V) ie_read (asdu_vsq a) IEC104 ≫= fun objects => mret (mkIoPayload (tid := tid) objects))
    (fun p => Forall (fun o => ie_wf o.2) (objects p))) as H.
  { eapply dec_total_bind; [apply (decode_io_list_total ie_lawful)|]. intros l [_ Hl]. by apply dec_total_ret. }
  specialize (H _ Ho).
  match type of H with let (_, _) := ?x in _ => destruct x as [[p'|[]|] b'] end; try done. intros [= ->]. apply H.
Qed.

Lemma respond_group_typed K clock g st : server_typed K st -> 0 <= g < 236 ->
  ∃ outs st', respond_interrogation_group clock g st = Ok (outs, st') /\ no_error outs /\ server_typed K st'.
Proof.
  intros Hst Hg. unfold respond_interrogation_group, Qoi_group. rewrite decide_True by lia.
  destruct (kind_for_group g) as [k|] eqn:Hk.
  - assert (20 + g < 256) by lia. unfold interrogated_group. rewrite decide_True by lia.
    pose proof (report_points_typed K clock (Cot_with (20 + g)) (sort_ioas (fst <$> iter_kind k (ss_image st))) st Hst) as [H1 H2].
    destruct (report_points _ _ _ _) as [points st']. do 2 eexists. split; [done|]. split; [|done].
    apply no_error_app; [repeat constructor; done|]. apply no_error_app; [done|repeat constructor; done].
  - do 2 eexists. split; [done|]. split; [repeat constructor; done|done].
Qed.

Lemma respond_general_typed K clock st : server_typed K st ->
  no_error (respond_interrogation_general clock st).1 /\ server_typed K (respond_interrogation_general clock st).2.
Proof.
  intros Hst. unfold respond_interrogation_general.
  pose proof (report_points_typed K clock (Cot_with INTERROGATED_GENERAL)
    (sort_ioas (fst <$> map_to_list (ss_image st))) st Hst) as [H1 H2].
  destruct (report_points _ _ _ _) as [points st']. split; [|done]. cbn [fst].
  apply no_error_app; [repeat constructor; done|]. apply no_error_app; [done|repeat constructor; done].
Qed.

Lemma ic_group_range a ic : octets (payload a) -> res_ok (decode_payload C_IC_NA_1 a IEC104) = Some ic ->
  0 <= Z.max 0 (qoi_0 (default Qoi_GENERAL (snd <$> head (objects ic))) - 20) < 236.
Proof.
  intros Hp H. destruct (decode_payload C_IC_NA_1 a IEC104) as [p| |] eqn:E; [|done..]. injection H as ->.
  apply decoded_objects_wf in E; [|done]. destruct (objects ic) as [|[i q] l]; [done|].
  apply Forall_cons in E as [Hq _]. cbn in *. unfold Qoi_wf, is_u8 in Hq. lia.
Qed.

Lemma command_list_no_error {tid V} `{!TypeId tid, !InfoElement V} a ca :
  no_error (handle_command_list (tid := tid) (V := V) a ca).
Proof. unfold handle_command_list. destruct (res_ok _); repeat constructor; done. Qed.

(** Any octets are handled: the server neither panics nor logs an error. *)
Lemma handle_incoming_typed K clock b st : server_typed K st -> octets b ->
  ∃ outs st', handle_incoming_asdu clock b st = Ok (outs, st') /\ no_error outs /\ server_typed K st'.
Proof.
  intros Hst Hb. unfold handle_incoming_asdu, run. pose proof (Asdu_decode_exact IEC104 b Hb) as Hd.
  destruct (_ <? _)%nat; [rewrite Hd; cbn; do 2 eexists; split; [done|]; by split; [constructor|]|].
  destruct Hd as (a & -> & (_ & _ & _ & _ & Hp) & _). cbn [fst].
  set (rcv := SoEvent _).
  assert (∀ outs, no_error outs -> ∃ outs' st', Ok (rcv :: outs, st) = Ok (outs', st') /\ no_error outs' /\ server_typed K st') as Hr.
  { intros outs Ho. do 2 eexists. split; [done|]. split; [|done]. by apply (no_error_app [rcv]); [repeat constructor; done|]. }
  assert (∀ x : bytes, no_error [SoSend x]) as H1 by (intros; repeat constructor; done).
  assert (no_error []) as H0 by constructor.
  assert (∀ outs st', no_error outs -> server_typed K st' ->
    ∃ outs' st'', Ok (rcv :: outs, st') = Ok (outs', st'') /\ no_error outs' /\ server_typed K st'') as Hs.
  { intros outs st' Ho Hst'. do 2 eexists. split; [done|]. split; [|done].
    by apply (no_error_app [rcv]); [repeat constructor; done|]. }
  repeat case_match; subst; try (by apply Hr); try (apply Hr, command_list_no_error).
  - destruct (respond_general_typed K clock st Hst). simplify_eq/=.
    match goal with H : respond_interrogation_general _ _ = _ |- _ => rewrite H in * end. by apply Hs.
  - edestruct (respond_group_typed K clock) as (outs & st' & E & Ho & Hst'); [exact Hst|by eapply ic_group_range|].
    match goal with H : respond_interrogation_group _ _ _ = Ok (?l, ?s) |- context [Ok (rcv :: ?l, ?s)] =>
      assert ((l, s) = (outs, st')) as [= -> ->] by congruence end.
    by apply Hs.
  - edestruct (respond_group_typed K clock) as (outs & st' & E & _); [exact Hst|by eapply ic_group_range|congruence].
  - edestruct (respond_group_typed K clock) as (outs & st' & E & _); [exact Hst|by eapply ic_group_range|congruence].
Qed.

Lemma server_step_typed K st i : server_typed K st -> input_typed K i ->
  ∃ outs st', server_step st i = Ok (outs, st') /\ no_error outs /\ server_typed K st'.
Proof.
  intros Hst Hi. destruct i as [clock req|coin clock ioa n|clock b|addr|addr|]; cbn [server_step].
  - assert (∀ r : Response, ∃ outs st', Ok (outs, st') = Ok ([] ++ [], st) /\ no_error outs /\ server_typed K st') as Hpure
      by (intros; do 2 eexists; split; [done|]; by split; [constructor|]).
    destruct req as [|ioa v q| | |ioa s|ioa p|ioa| | | | | | | | | | |]; cbn [server_handle];
      try (do 2 eexists; split; [done|]; by split; [constructor|]).
    + destruct (handle_set_typed K clock ioa v q st Hst Hi) as (r & outs & b & st' & -> & Ho & Hst').
      do 2 eexists. split; [done|]. split; [|done]. apply no_error_app; [done|apply no_error_broadcast].
    + unfold handle_sim_set. destruct (ss_image st !! ioa) as [e|] eqn:He;
        do 2 eexists; (split; [done|]); (split; [constructor|]); [|done].
      pose proof Hst as (HK & Him & Hf & Ht). pose proof (Hi _ (kinds_lookup _ _ _ _ HK He)) as Hs.
      split_and!; cbn [ss_image set_image ss_tracker]; [|by apply Image_set_schedule_typed| |done].
      * apply map_eq. intros i. rewrite <- HK. unfold kinds, Image_set_schedule. rewrite !lookup_fmap.
        destruct (decide (i = ioa)) as [->|Hne]; [rewrite lookup_alter_eq|by rewrite lookup_alter_ne].
        by destruct (ss_image st !! ioa).
      * intros i e'. unfold Image_set_schedule. rewrite lookup_alter_Some.
        intros [(-> & e0 & E & ->)|[_ E]]; [|apply (Hf _ _ E)]. simplify_eq/=. done.
  - destruct (server_tick_typed K coin clock ioa n st Hst) as (r & st' & -> & Hst' & Hr).
    destruct r as [[[outs b] ev]|]; do 2 eexists; (split; [done|]); (split; [|done]); [|constructor].
    apply no_error_app; [done|]. apply no_error_app; [apply no_error_broadcast|repeat constructor; done].
  - by apply handle_incoming_typed.
  - do 2 eexists. split; [done|]. by split; [constructor|].
  - do 2 eexists. split; [done|]. by split; [constructor|].
  - do 2 eexists. split; [done|]. by split; [constructor|].
Qed.

Lemma server_new_typed kind coa : server_typed (kinds (populate_default ∅)) (ServerState_new kind coa).
Proof.
  split_and!; [done|apply populate_default_typed|apply populate_default_fits|apply map_Forall_empty].
Qed.

(** C28. Type soundness of the test server: started on its default image, and
    given only values and schedules that fit the points they are for, it
    completes every request, every tick of its simulator and the handling of
    any octets it receives, in every order and with every choice of the
    simulator, without a panic and without the deadband filter ever reporting
    a mismatch; every point keeps its kind, every value its type. *)
Theorem server_type_sound kind coa inputs :
  Forall (input_typed (kinds (populate_default ∅))) inputs ->
  ∃ outs st, server_run (ServerState_new kind coa) inputs = Ok (outs, st) /\ no_error outs /\
    kinds (ss_image st) = kinds (populate_default ∅) /\ image_typed (ss_image st) /\
    tracker_typed (tracked_kind (kinds (populate_default ∅))) (ss_tracker st).
Proof.
  intros Hi. set (K := kinds (populate_default ∅)) in *.
  assert (∀ st, server_typed K st -> ∃ outs st', server_run st inputs = Ok (outs, st') /\ no_error outs /\ server_typed K st') as H.
  { induction Hi as [|i inputs Hi Hs IH]; intros st Hst; [by exists [], st; split; [|split; [constructor|]]|].
    destruct (server_step_typed K st i Hst Hi) as (outs & st' & E & Ho & Hst').
    destruct (IH st' Hst') as (outs' & st'' & E' & Ho' & Hst''). exists (outs ++ outs'), st''.
    cbn [server_run]. rewrite E, E'. split; [done|]. split; [by apply no_error_app|done]. }
  destruct (H _ (server_new_typed kind coa)) as (outs & st & E & Ho & HK & Him & Hf & Ht). exists outs, st. by split_and!.
Qed.

End Server.
