(* ===== verification/TestClient.v ===== *)
(** * The test client

    [cache.rs] and [bin/client.rs] of crates/iec60870-test-tools: a master that
    keeps the last value of every point, and whose control requests wait for
    what the outstation answers. A channel between the task that receives
    ASDUs and a waiting request is a numbered object of the state: a request
    is one function up to its wait and another one after it, and any other
    function can run in between. *)

From S2P Require Import Prelude Bytes Codec AsduHeader InfoElements IoList Asdu AsduTypes.
From S2P Require Import Float64 Float32 Deadband Calendar Points Simulator TestServer.
From stdpp Require Import sorting.
From Stdlib Require Import Floats.SpecFloat.

#[local] Open Scope Z_scope.

(** ** The last-value store *)

(** cache.rs 18-27, CachedPoint. *)
Record CachedPoint := mkCached {
  cp_value : PointValue; cp_quality : QualityWire; cp_timestamp : option Cp56Time2a; cp_received_at : Instant }.

(** cache.rs 39-41, PointCache. *)
Abbreviation PointCache := (gmap (PointKind * Ioa) CachedPoint).

(** cache.rs 52-71, PointCache::update. *)
Definition cache_update (kind : PointKind) (ioa : Ioa) (value : PointValue) (quality : QualityWire)
    (timestamp : option Cp56Time2a) (now : Instant) (c : PointCache) : PointCache :=
  <[(kind, ioa) := mkCached value quality timestamp now]> c.

(** cache.rs 74-80, PointCache::get. *)
Definition cache_get (kind : PointKind) (ioa : Ioa) (c : PointCache) : option CachedPoint := c !! (kind, ioa).

(** cache.rs 88-102, PointCache::get_by_ioa (the body of the loop). *)
Definition better (ioa : Ioa) (type_id : option Z) (best : option (PointKind * CachedPoint))
    (entry : PointKind * Ioa * CachedPoint) : option (PointKind * CachedPoint) :=
  let '(kind, k_ioa, point) := entry in
  if negb (k_ioa =? ioa) then best
  else if match type_id with Some tid => negb (PointKind_type_id kind =? tid) | None => false end then best
  else
    let is_newer := match best with
                    | None => true
                    | Some (_, b) => cp_received_at b <? cp_received_at point
                    end in
    if is_newer then Some (kind, point) else best.

(** [sort_by] of [list_all]. *)
Definition entry_le (a b : PointKind * Ioa * CachedPoint) : Prop :=
  a.1.2 < b.1.2 \/ (a.1.2 = b.1.2 /\ PointKind_type_id a.1.1 <= PointKind_type_id b.1.1).
#[export] Instance entry_le_dec : RelDecision entry_le.
Proof. intros a b. unfold entry_le. apply _. Defined.

(** cache.rs 108-119, PointCache::list_all. *)
Definition list_all (c : PointCache) : list (PointKind * Ioa * CachedPoint) :=
  merge_sort entry_le (map_to_list c).

(** ** Conversions *)

(** bin/client.rs 252-260, qds_to_wire. *)
Definition client_qds_to_wire (q : Qds) : QualityWire :=
  mkQw (qds_overflow q) (q_blocked (qds_quality q)) (q_substituted (qds_quality q))
    (q_not_topical (qds_quality q)) (q_invalid (qds_quality q)).

(** bin/client.rs 262-270, siq_to_wire. *)
Definition siq_to_wire (s : Siq) : QualityWire :=
  mkQw false (q_blocked (siq_quality s)) (q_substituted (siq_quality s))
    (q_not_topical (siq_quality s)) (q_invalid (siq_quality s)).

(** bin/client.rs 272-280, diq_to_wire. *)
Definition diq_to_wire (d : Diq) : QualityWire :=
  mkQw false (q_blocked (diq_quality d)) (q_substituted (diq_quality d))
    (q_not_topical (diq_quality d)) (q_invalid (diq_quality d)).

(** bin/client.rs 282-289, dp_to_wire. *)
Definition dp_to_wire (d : DoublePoint) : DoublePointWire :=
  match d with
  | Intermediate => DwIntermediate
  | DpOff => DwOff
  | DpOn => DwOn
  | Indeterminate => DwIndeterminate
  end.

(** ** State *)

(** A one-shot channel, seen from its receiver. *)
Inductive Signal (A : Type) := Pending | Sent (a : A) | Dropped.
Arguments Pending {A}.
Arguments Sent {A} _.
Arguments Dropped {A}.

(** bin/client.rs 299-304, InterrogateCollector. The two channels of one
    interrogation. *)
Record Collector := mkCollector { col_items : list PointRow; col_done : Signal unit }.

(** The capacity of the first one. *)
Definition collector_capacity : nat := 256.

(** bin/client.rs 314-329, DaemonState. [cl_collectors] and [cl_acks] are the
    channels, [cl_next] the number of the next one, [cl_reads] the number of
    clock readings so far. *)
Record ClientState := mkClient {
  cl_coa : Z; cl_addressing : AsduAddressing; cl_cache : PointCache;
  cl_interrogations : gmap (Z * Z) nat; cl_cmd_waiters : gmap (Z * Z) nat;
  cl_collectors : gmap nat Collector; cl_acks : gmap nat (Signal bool);
  cl_next : nat; cl_reads : nat; cl_shutdown : bool }.

(** bin/client.rs 332-345, DaemonState::new. *)
Definition ClientState_new (coa : Z) : ClientState :=
  mkClient coa IEC104 ∅ ∅ ∅ ∅ ∅ 0 0 false.

Definition with_cache (c : PointCache) (st : ClientState) : ClientState :=
  mkClient (cl_coa st) (cl_addressing st) c (cl_interrogations st) (cl_cmd_waiters st)
    (cl_collectors st) (cl_acks st) (cl_next st) (S (cl_reads st)) (cl_shutdown st).
Definition with_collectors (m : gmap (Z * Z) nat) (cs : gmap nat Collector) (st : ClientState) : ClientState :=
  mkClient (cl_coa st) (cl_addressing st) (cl_cache st) m (cl_cmd_waiters st)
    cs (cl_acks st) (cl_next st) (cl_reads st) (cl_shutdown st).
Definition with_waiters (m : gmap (Z * Z) nat) (acks : gmap nat (Signal bool)) (st : ClientState) : ClientState :=
  mkClient (cl_coa st) (cl_addressing st) (cl_cache st) (cl_interrogations st) m
    (cl_collectors st) acks (cl_next st) (cl_reads st) (cl_shutdown st).
Definition with_next (st : ClientState) : ClientState :=
  mkClient (cl_coa st) (cl_addressing st) (cl_cache st) (cl_interrogations st) (cl_cmd_waiters st)
    (cl_collectors st) (cl_acks st) (S (cl_next st)) (cl_reads st) (cl_shutdown st).

(** The collectors of the interrogations of one station. *)
Definition collectors_of (ca : Z) (st : ClientState) : list nat :=
  snd <$> filter (fun p : Z * Z * nat => p.1.1 = ca) (map_to_list (cl_interrogations st)).

(** [done_tx.take()] and [send]. *)
Definition signal_done (c : Collector) : Collector :=
  match col_done c with Pending => mkCollector (col_items c) (Sent tt) | _ => c end.
(** [tx.try_send], which drops the item when the channel is full. *)
Definition push_item (row : PointRow) (c : Collector) : Collector :=
  if decide (length (col_items c) < collector_capacity)%nat
  then mkCollector (col_items c ++ [row]) (col_done c) else c.
(** The sender of a channel is dropped. *)
Definition drop_done (c : Collector) : Collector :=
  match col_done c with Pending => mkCollector (col_items c) Dropped | _ => c end.
Definition drop_signal {A} (s : Signal A) : Signal A := match s with Pending => Dropped | s => s end.

(** bin/client.rs 561-580, feed_interrogation. *)
Definition feed_interrogation (ca : Z) (row : PointRow) (st : ClientState) : ClientState :=
  with_collectors (cl_interrogations st)
    (foldr (alter (push_item row)) (cl_collectors st) (collectors_of ca st)) st.

(** bin/client.rs 379-394, process_asdu (activation termination). *)
Definition interrogation_done (ca : Z) (st : ClientState) : ClientState :=
  with_collectors (cl_interrogations st)
    (foldr (alter signal_done) (cl_collectors st) (collectors_of ca st)) st.

(** The types whose confirmation a command waits for. *)
Definition cmd_type_ids : list Z := [45; 46; 47; 48; 49; 50].

(** bin/client.rs 397-420, process_asdu (activation confirmation). *)
Definition command_confirmed (asdu : Asdu) (st : ClientState) : ClientState :=
  match payload asdu with
  | p0 :: p1 :: p2 :: _ =>
      let ioa_raw := Z.lor (Z.lor p0 (Z.shiftl p1 8)) (Z.shiftl p2 16) in
      match cl_cmd_waiters st !! (type_id asdu, ioa_raw) with
      | Some id =>
          with_waiters (delete (type_id asdu, ioa_raw) (cl_cmd_waiters st))
            (<[id := Sent (cot_negative (asdu_cot asdu))]> (cl_acks st)) st
      | None => st
      end
  | _ => st
  end.

Section Client.
Context `{BC : BytesCrate} (clock : nat -> Instant).
(** The order in which a hash map is iterated over. *)
Context (shuffle : ∀ A : Type, list A -> list A).

(** cache.rs 84-104, PointCache::get_by_ioa. *)
Definition get_by_ioa (ioa : Ioa) (type_id : option Z) (c : PointCache) : option (PointKind * CachedPoint) :=
  foldl (better ioa type_id) None (shuffle _ (map_to_list c)).

(** ** Incoming ASDUs *)

(** What the ten loops of [process_asdu] do with an object: cache, event,
    interrogation. *)
Definition on_point (asdu : Asdu) (kind : PointKind) (ioa : Ioa) (value : PointValue) (quality : QualityWire)
    (timestamp : option Cp56Time2a) (s : ClientState * list ToolEvent) : ClientState * list ToolEvent :=
  let '(st, events) := s in
  let st := with_cache (cache_update kind ioa value quality timestamp (clock (cl_reads st)) (cl_cache st)) st in
  let event := EvAsduReceived (cot_cause (asdu_cot asdu)) (type_id asdu) ioa (Some value) in
  (feed_interrogation (asdu_ca asdu) (mkRow ioa kind value quality) st, events ++ [event]).

(** [if let Ok(p) = asdu.decode_payload(..) { for .. in p.objects { .. } }] *)
Definition on_objects {tid V} `{!TypeId tid, !InfoElement V} (asdu : Asdu)
    (each : Ioa * V -> ClientState * list ToolEvent -> ClientState * list ToolEvent) (st : ClientState)
  : ClientState * list ToolEvent :=
  match res_ok (decode_payload (IoPayload tid V) asdu (cl_addressing st)) with
  | Some p => foldl (fun s o => each o s) (st, []) (objects p)
  | None => (st, [])
  end.

(** bin/client.rs 423-555, process_asdu (monitor direction). *)
Definition process_monitor (asdu : Asdu) (st : ClientState) : ClientState * list ToolEvent :=
  match type_id asdu with
  | 1 => on_objects (tid := 1) (V := Siq) asdu (fun '(ioa, siq) =>
      on_point asdu SpNa ioa (PvSingle (siq_on siq)) (siq_to_wire siq) None) st
  | 3 => on_objects (tid := 3) (V := Diq) asdu (fun '(ioa, diq) =>
      on_point asdu DpNa ioa (PvDouble (dp_to_wire (diq_state diq))) (diq_to_wire diq) None) st
  | 9 => on_objects (tid := 9) (V := Nva * Qds) asdu (fun '(ioa, (nva, qds)) =>
      on_point asdu MeNa ioa (PvNormalized (bits_of_f32 (Nva_as_f32 nva))) (client_qds_to_wire qds) None) st
  | 11 => on_objects (tid := 11) (V := Sva * Qds) asdu (fun '(ioa, (sva, qds)) =>
      on_point asdu MeNb ioa (PvScaled (sva_0 sva)) (client_qds_to_wire qds) None) st
  | 13 => on_objects (tid := 13) (V := R32 * Qds) asdu (fun '(ioa, (r32, qds)) =>
      on_point asdu MeNc ioa (PvFloat (r32_0 r32)) (client_qds_to_wire qds) None) st
  | 30 => on_objects (tid := 30) (V := Siq * Cp56Time2a) asdu (fun '(ioa, (siq, ts)) =>
      on_point asdu SpTb ioa (PvSingle (siq_on siq)) (siq_to_wire siq) (Some ts)) st
  | 31 => on_objects (tid := 31) (V := Diq * Cp56Time2a) asdu (fun '(ioa, (diq, ts)) =>
      on_point asdu DpTb ioa (PvDouble (dp_to_wire (diq_state diq))) (diq_to_wire diq) (Some ts)) st
  | 34 => on_objects (tid := 34) (V := Nva * Qds * Cp56Time2a) asdu (fun '(ioa, (nva, qds, ts)) =>
      on_point asdu MeTd ioa (PvNormalized (bits_of_f32 (Nva_as_f32 nva))) (client_qds_to_wire qds) (Some ts)) st
  | 35 => on_objects (tid := 35) (V := Sva * Qds * Cp56Time2a) asdu (fun '(ioa, (sva, qds, ts)) =>
      on_point asdu MeTe ioa (PvScaled (sva_0 sva)) (client_qds_to_wire qds) (Some ts)) st
  | 36 => on_objects (tid := 36) (V := R32 * Qds * Cp56Time2a) asdu (fun '(ioa, (r32, qds, ts)) =>
      on_point asdu MeTf ioa (PvFloat (r32_0 r32)) (client_qds_to_wire qds) (Some ts)) st
  | _ => (st, [])
  end.

(** bin/client.rs 359-558, process_asdu. *)
Definition process_asdu (asdu : Asdu) (st : ClientState) : ClientState * list ToolEvent :=
  let cause := cot_cause (asdu_cot asdu) in
  if (cause =? ACTIVATION_TERMINATION) && (type_id asdu =? 100) then
    (interrogation_done (asdu_ca asdu) st, [])
  else if (cause =? ACTIVATION_CON) && bool_decide (type_id asdu ∈ cmd_type_ids) then
    (command_confirmed asdu st, [])
  else process_monitor asdu st.

(** bin/client.rs 1097-1110, run_daemon (one ASDU in the dispatch task). *)
Definition client_receive (b : bytes) (st : ClientState) : ClientState * list ToolEvent :=
  match run (Asdu_decode (cl_addressing st)) b with
  | Ok asdu => process_asdu asdu st
  | _ => (st, [])
  end.

(** ** Control requests *)

(** bin/client.rs 1057-1060, ClientHandler::resolve_ca. *)
Definition resolve_ca (ca : option Z) (st : ClientState) : Z := default (cl_coa st) ca.

(** Removing or replacing an entry drops the senders in it. *)
Definition drop_collector (key : Z * Z) (st : ClientState) : ClientState :=
  match cl_interrogations st !! key with
  | Some id => with_collectors (delete key (cl_interrogations st)) (alter drop_done id (cl_collectors st)) st
  | None => st
  end.
Definition drop_waiter (key : Z * Z) (st : ClientState) : ClientState :=
  match cl_cmd_waiters st !! key with
  | Some id => with_waiters (delete key (cl_cmd_waiters st)) (alter drop_signal id (cl_acks st)) st
  | None => st
  end.

(** bin/client.rs 683-726, ClientHandler::handle_interrogate (up to the send).
    The key, the channel and the ASDU. *)
Definition interrogate_begin (group ca : option Z) (st : ClientState)
  : Result (Z * Z * nat * bytes * ClientState) :=
  match (match group with None => Ok Qoi_GENERAL | Some g => Qoi_group g end) with
  | Ok qoi =>
      let ca_val := default (cl_coa st) ca in
      let key := (ca_val, qoi_0 qoi) in
      let id := cl_next st in
      let st := with_next (drop_collector key st) in
      let st := with_collectors (<[key := id]> (cl_interrogations st))
                  (<[id := mkCollector [] Pending]> (cl_collectors st)) st in
      let ic : C_IC_NA_1 := mkIoPayload [(0, qoi)] in
      let asdu := encode_to_vec
        (from_payload (Cot_with ACTIVATION) ca_val (Vsq_single 1) ic (cl_addressing st)) (cl_addressing st) in
      Ok (key, id, asdu, st)
  | _ => Panic
  end.

(** bin/client.rs 726-730, ClientHandler::handle_interrogate (failed send). *)
Definition interrogate_failed (key : Z * Z) (id : nat) (st : ClientState) : Response * ClientState :=
  let st := drop_collector key st in
  (RespErr (ReText "send failed"), with_collectors (cl_interrogations st) (delete id (cl_collectors st)) st).

(** [sort_by_key] on the addresses. *)
Definition row_le (a b : PointRow) : Prop := row_ioa a <= row_ioa b.
#[export] Instance row_le_dec : RelDecision row_le.
Proof. intros a b. unfold row_le. apply _. Defined.
#[export] Instance row_le_total : Total row_le.
Proof. intros a b. unfold row_le. lia. Qed.

(** bin/client.rs 752-757, ClientHandler::handle_interrogate (the last entry
    of every point). *)
Definition last_rows (collected : list PointRow) : gmap (Z * Z) PointRow :=
  foldl (fun seen row => <[(PointKind_type_id (row_kind row), row_ioa row) := row]> seen) ∅ collected.

(** bin/client.rs 739-777, ClientHandler::handle_interrogate (after the
    wait). *)
Definition interrogate_finish (key : Z * Z) (id : nat) (st : ClientState) : Response * ClientState :=
  let collected := match cl_collectors st !! id with Some c => col_items c | None => [] end in
  let st := drop_collector key st in
  let st := with_collectors (cl_interrogations st) (delete id (cl_collectors st)) st in
  let points := merge_sort row_le (shuffle _ (snd <$> map_to_list (last_rows collected))) in
  (RespOk (RdInterrogated points (length points)), st).

(** bin/client.rs 874-901, ClientHandler::send_command_and_wait (up to the
    send). *)
Definition command_begin {P} `{!AsduPayload P} (type_id : Z) (ioa : Ioa) (ca : Z) (p : P) (st : ClientState)
  : Z * Z * nat * bytes * ClientState :=
  let key := (type_id, ioa) in
  let id := cl_next st in
  let st := with_next (drop_waiter key st) in
  let st := with_waiters (<[key := id]> (cl_cmd_waiters st)) (<[id := Pending]> (cl_acks st)) st in
  let asdu := encode_to_vec
    (from_payload (Cot_with ACTIVATION) ca (Vsq_single 1) p (cl_addressing st)) (cl_addressing st) in
  (key, id, asdu, st).

(** bin/client.rs 901-905, ClientHandler::send_command_and_wait (failed
    send). *)
Definition command_failed (key : Z * Z) (id : nat) (st : ClientState) : Response * ClientState :=
  let st := drop_waiter key st in
  (RespErr (ReText "send failed"), with_waiters (cl_cmd_waiters st) (delete id (cl_acks st)) st).

(** bin/client.rs 907-925, ClientHandler::send_command_and_wait (after the
    wait). A channel that is still empty has timed out. *)
Definition command_finish (key : Z * Z) (id : nat) (st : ClientState) : Response * ClientState :=
  let forget st := with_waiters (cl_cmd_waiters st) (delete id (cl_acks st)) st in
  match cl_acks st !! id with
  | Some (Sent true) => (RespErr (ReText "negative ACTIVATION_CON"), forget st)
  | Some (Sent false) => (RespOk RdCommand, forget st)
  | Some Pending => (RespErr (ReText "timeout waiting for ACTIVATION_CON"), forget (drop_waiter key st))
  | _ => (RespErr (ReText "command waiter dropped"), forget st)
  end.

(** bin/client.rs 779-793, ClientHandler::handle_cmd_single. *)
Definition cmd_single (ioa : Ioa) (on : bool) (ca : option Z) (st : ClientState) :=
  let p : C_SC_NA_1 := mkIoPayload [(ioa, mkSco on 0 false)] in
  command_begin 45 ioa (resolve_ca ca st) p st.

(** bin/client.rs 795-814, ClientHandler::handle_cmd_double. *)
Definition cmd_double (ioa : Ioa) (on : bool) (ca : option Z) (st : ClientState) :=
  let state := if on then DpOn else DpOff in
  let p : C_DC_NA_1 := mkIoPayload [(ioa, mkDco state 0 false)] in
  command_begin 46 ioa (resolve_ca ca st) p st.

(** bin/client.rs 816-834, ClientHandler::handle_cmd_regulating. *)
Definition cmd_regulating (ioa : Ioa) (step : StepDir) (ca : option Z) (st : ClientState) :=
  let direction := match step with SdLower => Lower | SdHigher => Higher end in
  let p : C_RC_NA_1 := mkIoPayload [(ioa, mkRco direction 0 false)] in
  command_begin 47 ioa (resolve_ca ca st) p st.

(** [f64 as i16], truncated and saturating. *)
Definition f64_as_i16 (x : F64) : Z :=
  match x with
  | S754_nan | S754_zero _ => 0
  | S754_infinity s => if s then -32768 else 32767
  | S754_finite s m e =>
      Z.max (-32768) (Z.min 32767 (cond_Zopp s (if 0 <=? e then Zpos m * 2 ^ e else Zpos m / 2 ^ (- e))))
  end.

(** bin/client.rs 836-872, ClientHandler::handle_cmd_setpoint. *)
Definition cmd_setpoint (ioa : Ioa) (kind : SetpointKind) (value : F64) (ca : option Z) (st : ClientState) :=
  let ca_val := resolve_ca ca st in
  let qos := mkQos 0 false in
  match kind with
  | SkNormalized =>
      let p : C_SE_NA_1 := mkIoPayload [(ioa, (Nva_from_f32 (f32_of_f64 value), qos))] in
      command_begin 48 ioa ca_val p st
  | SkScaled =>
      let p : C_SE_NB_1 := mkIoPayload [(ioa, (mkSva (f64_as_i16 value), qos))] in
      command_begin 49 ioa ca_val p st
  | SkFloat =>
      let p : C_SE_NC_1 := mkIoPayload [(ioa, (mkR32 (bits_of_f32 (f32_of_f64 value)), qos))] in
      command_begin 50 ioa ca_val p st
  end.

(** bin/client.rs 927-962, ClientHandler::handle_read. Without the age. *)
Definition handle_read (ioa : Ioa) (type_id : option Z) (st : ClientState) : Response :=
  match get_by_ioa ioa type_id (cl_cache st) with
  | Some (kind, pt) => RespOk (RdCached (mkRow ioa kind (cp_value pt) (cp_quality pt)) (cp_timestamp pt))
  | None => RespErr (ReNotFound ioa)
  end.

(** bin/client.rs 1037-1045, ClientHandler::handle_status. *)
Definition client_status (st : ClientState) : Response :=
  RespOk (RdClientStatus (length (list_all (cl_cache st)))).

(** bin/client.rs 1047-1053, ClientHandler::handle_shutdown. *)
Definition client_shutdown (st : ClientState) : Response * ClientState :=
  (RespOk RdEmpty, mkClient (cl_coa st) (cl_addressing st) (cl_cache st) (cl_interrogations st)
    (cl_cmd_waiters st) (cl_collectors st) (cl_acks st) (cl_next st) (cl_reads st) true).

(** What a request is waiting for. *)
Inductive Waiting :=
| WaitInterrogation (key : Z * Z) (id : nat) (asdu : bytes)
| WaitCommand (key : Z * Z) (id : nat) (asdu : bytes)
| WaitFile
| Answered (r : Response).

(** bin/client.rs 619-655, ClientHandler::handle (up to the first wait). The
    file requests are those of the file-transfer service. *)
Definition client_handle (req : Request) (st : ClientState) : Result (Waiting * ClientState) :=
  let command '(key, id, asdu, st') := Ok (WaitCommand key id asdu, st') in
  match req with
  | RqInterrogate group ca _ =>
      match interrogate_begin group ca st with
      | Ok (key, id, asdu, st') => Ok (WaitInterrogation key id asdu, st')
      | _ => Panic
      end
  | RqCmdSingle ioa on ca => command (cmd_single ioa on ca st)
  | RqCmdDouble ioa on ca => command (cmd_double ioa on ca st)
  | RqCmdRegulating ioa step ca => command (cmd_regulating ioa step ca st)
  | RqCmdSetpoint ioa kind value ca => command (cmd_setpoint ioa kind value ca st)
  | RqRead ioa type_id => Ok (Answered (handle_read ioa type_id st), st)
  | RqFileGet _ _ _ | RqFilePut _ _ _ => Ok (WaitFile, st)
  | RqStatus => Ok (Answered (client_status st), st)
  | RqShutdown => let '(r, st') := client_shutdown st in Ok (Answered r, st')
  | RqGet _ | RqSet _ _ _ | RqList _ | RqSimGet _ | RqSimSet _ _ | RqSetDeadband _ _ | RqGetDeadband _ =>
      Ok (Answered (RespErr (ReText "not a client op")), st)
  | RqEvents => Ok (Answered (RespErr (ReText "internal: events handled by serve loop")), st)
  end.

(** ** The newest value of an address *)

Definition of_type (type_id : option Z) (k : PointKind) : Prop :=
  match type_id with Some tid => PointKind_type_id k = tid | None => True end.

(** The best of the entries seen so far. *)
Definition newest (ioa : Ioa) (type_id : option Z) (l : list (PointKind * Ioa * CachedPoint))
    (best : option (PointKind * CachedPoint)) : Prop :=
  match best with
  | Some (k, p) => (k, ioa, p) ∈ l /\ of_type type_id k /\
      ∀ k' p', (k', ioa, p') ∈ l -> of_type type_id k' -> cp_received_at p' <= cp_received_at p
  | None => ∀ k p, (k, ioa, p) ∈ l -> ¬ of_type type_id k
  end.

Lemma better_newest ioa type_id l best e : newest ioa type_id l best ->
  newest ioa type_id (l ++ [e]) (better ioa type_id best e).
Proof.
  intros Hn. destruct e as [[k i] p]. unfold better.
  assert (∀ b, newest ioa type_id l b -> (i ≠ ioa \/ ¬ of_type type_id k) -> newest ioa type_id (l ++ [(k, i, p)]) b) as Hskip.
  { intros [[k0 p0]|] Hb Hno; unfold newest in *.
    - destruct Hb as (H1 & H2 & H3). split_and!; [set_solver|done|]. intros k' p' Hin Ht.
      apply elem_of_app in Hin as [Hin|Hin]; [eauto|]. apply list_elem_of_singleton in Hin. simplify_eq. tauto.
    - intros k' p' Hin Ht. apply elem_of_app in Hin as [Hin|Hin]; [by eapply Hb|].
      apply list_elem_of_singleton in Hin. simplify_eq. tauto. }
  destruct (Z.eqb_spec i ioa) as [->|Hi]; cbn [negb]; [|by apply Hskip; [|left]].
  destruct (match type_id with Some tid => negb (PointKind_type_id k =? tid) | None => false end) eqn:Et.
  { apply Hskip; [done|]. right. unfold of_type. destruct type_id; [|done]. lia. }
  assert (of_type type_id k) as Hk by (unfold of_type; destruct type_id; [lia|done]).
  destruct best as [[k0 p0]|]; [destruct (Z.ltb_spec (cp_received_at p0) (cp_received_at p)) as [Hlt|Hle]|]; unfold newest in *.
  - destruct Hn as (H1 & H2 & H3). split_and!; [set_solver|done|]. intros k' p' Hin Ht.
    apply elem_of_app in Hin as [Hin|Hin]; [specialize (H3 _ _ Hin Ht); lia|].
    apply list_elem_of_singleton in Hin. simplify_eq. lia.
  - destruct Hn as (H1 & H2 & H3). split_and!; [set_solver|done|]. intros k' p' Hin Ht.
    apply elem_of_app in Hin as [Hin|Hin]; [eauto|]. apply list_elem_of_singleton in Hin. by simplify_eq.
  - split_and!; [set_solver|done|]. intros k' p' Hin Ht.
    apply elem_of_app in Hin as [Hin|Hin]; [by destruct (Hn _ _ Hin)|].
    apply list_elem_of_singleton in Hin. simplify_eq. lia.
Qed.

(** A read without a poll: in whatever order the hash map is iterated over,
    [get_by_ioa] finds a value of the address (and type) if there is one, and
    no other value of the address (and type) has been received later. *)
Theorem cache_newest ioa type_id c : (∀ A (l : list A), shuffle A l ≡ₚ l) ->
  match get_by_ioa ioa type_id c with
  | Some (k, p) => c !! (k, ioa) = Some p /\ of_type type_id k /\
      ∀ k' p', c !! (k', ioa) = Some p' -> of_type type_id k' -> cp_received_at p' <= cp_received_at p
  | None => ∀ k p, c !! (k, ioa) = Some p -> ¬ of_type type_id k
  end.
Proof.
  intros Hsh. unfold get_by_ioa.
  assert (∀ l, newest ioa type_id l (foldl (better ioa type_id) None l)) as H.
  { intros l. induction l as [|e l IH] using rev_ind; [by intros k p ?%not_elem_of_nil|].
    rewrite foldl_app. by apply better_newest. }
  specialize (H (shuffle _ (map_to_list c))).
  assert (∀ k p, (k, ioa, p) ∈ shuffle _ (map_to_list c) <-> c !! (k, ioa) = Some p) as He
    by (intros; rewrite Hsh; apply elem_of_map_to_list).
  unfold newest in H. destruct (foldl _ _ _) as [[k p]|].
  - destruct H as (H1 & H2 & H3). split_and!; [by apply He|done|]. intros k' p' Hc. apply H3. by apply He.
  - intros k p Hc. apply (H k p). by apply He.
Qed.

(** ** Runs of the client *)

Inductive ClientInput :=
| CiReceive (asdu : bytes)
| CiRequest (req : Request)
| CiSendFailed (w : Waiting)
| CiFinish (w : Waiting).

Definition client_step (st : ClientState) (i : ClientInput) : ClientState :=
  match i with
  | CiReceive b => (client_receive b st).1
  | CiRequest req => match client_handle req st with Ok (_, st') => st' | _ => st end
  | CiSendFailed (WaitInterrogation key id _) => (interrogate_failed key id st).2
  | CiSendFailed (WaitCommand key id _) => (command_failed key id st).2
  | CiFinish (WaitInterrogation key id _) => (interrogate_finish key id st).2
  | CiFinish (WaitCommand key id _) => (command_finish key id st).2
  | _ => st
  end.
Definition client_run (coa : Z) (inputs : list ClientInput) : ClientState :=
  foldl client_step (ClientState_new coa) inputs.

(** The numbers of the channels in use are distinct and taken. *)
Definition client_ok (st : ClientState) : Prop :=
  (∀ k id, cl_interrogations st !! k = Some id -> (id < cl_next st)%nat) /\
  (∀ k k' id, cl_interrogations st !! k = Some id -> cl_interrogations st !! k' = Some id -> k = k') /\
  cl_addressing st = IEC104.

(** A step that leaves the table of interrogations alone. *)
Definition same_channels (st st' : ClientState) : Prop :=
  cl_interrogations st' = cl_interrogations st /\ cl_next st' = cl_next st /\ cl_addressing st' = cl_addressing st.

Lemma same_channels_ok st st' : same_channels st st' -> client_ok st -> client_ok st'.
Proof. intros (H1 & H2 & H3). unfold client_ok. by rewrite H1, H2, H3. Qed.

Lemma on_objects_same {tid V} `{!TypeId tid, !InfoElement V} asdu each st :
  (∀ o s, same_channels s.1 (each o s).1) ->
  same_channels st (on_objects (tid := tid) (V := V) asdu each st).1.
Proof.
  intros He. unfold on_objects. destruct (res_ok _) as [p|]; [|done].
  assert (∀ l s, same_channels s.1 (foldl (fun s o => each o s) s l).1) as H.
  { induction l as [|o l IH]; intros s; [done|]. cbn [foldl].
    destruct (He o s) as (H1 & H2 & H3), (IH (each o s)) as (H1' & H2' & H3'). split_and!; congruence. }
  apply (H _ (st, [])).
Qed.

Lemma on_point_same asdu k ioa v q ts s : same_channels s.1 (on_point asdu k ioa v q ts s).1.
Proof. by destruct s. Qed.

Lemma process_monitor_same asdu st : same_channels st (process_monitor asdu st).1.
Proof.
  unfold process_monitor.
  repeat case_match; try done.
  all: apply on_objects_same; intros; repeat case_match; apply on_point_same.
Qed.

Lemma client_receive_same b st : same_channels st (client_receive b st).1.
Proof.
  unfold client_receive. destruct (run _ _) as [asdu| |]; [|done..]. unfold process_asdu.
  repeat case_match; try done; [|apply process_monitor_same].
  unfold command_confirmed. cbn [fst]. repeat case_match; done.
Qed.

Lemma drop_collector_ok key st : client_ok st -> client_ok (drop_collector key st).
Proof.
  intros (H1 & H2 & H3). unfold drop_collector. destruct (cl_interrogations st !! key); [|done].
  split_and!; cbn [cl_interrogations with_collectors cl_next]; [| |done].
  - intros k id Hk. apply lookup_delete_Some in Hk as [_ Hk]. eauto.
  - intros k k' id Hk Hk'. apply lookup_delete_Some in Hk as [_ Hk]. apply lookup_delete_Some in Hk' as [_ Hk']. eauto.
Qed.

Lemma drop_collector_lookup key st : cl_interrogations (drop_collector key st) !! key = None.
Proof.
  unfold drop_collector. destruct (cl_interrogations st !! key) eqn:E; [|done].
  cbn [cl_interrogations with_collectors]. apply lookup_delete_eq.
Qed.

Lemma drop_collector_next key st : cl_next (drop_collector key st) = cl_next st.
Proof. unfold drop_collector. by destruct (cl_interrogations st !! key). Qed.

(** A fresh channel goes into the table. *)
Lemma new_interrogation_ok key cs st : client_ok st ->
  client_ok (with_collectors (<[key := cl_next st]> (cl_interrogations st)) cs (with_next st)).
Proof.
  intros (H1 & H2 & H3). split_and!; cbn [cl_interrogations with_collectors with_next cl_next]; [| |done].
  - intros k id Hk. apply lookup_insert_Some in Hk as [[_ <-]|[_ Hk]]; [lia|]. apply H1 in Hk. lia.
  - intros k k' id Hk Hk'. apply lookup_insert_Some in Hk as [[<- <-]|[_ Hk]];
      apply lookup_insert_Some in Hk' as [[<- E]|[_ Hk']]; try done.
    + apply H1 in Hk'. lia.
    + apply H1 in Hk. lia.
    + eauto.
Qed.

Lemma interrogate_begin_ok group ca st r st' : client_ok st ->
  interrogate_begin group ca st = Ok (r, st') -> client_ok st'.
Proof.
  intros Hok. unfold interrogate_begin. 
  destruct (match group with None => Ok Qoi_GENERAL | Some g => Qoi_group g end) as [qoi|e|]; [|done..].
  intros [= _ <-]. set (key := (_, _)).
  pose proof (drop_collector_ok key st Hok) as Hd. rewrite <- (drop_collector_next key st).
  by apply new_interrogation_ok.
Qed.

Lemma drop_waiter_same key st : same_channels st (drop_waiter key st).
Proof. unfold drop_waiter. by destruct (cl_cmd_waiters st !! key). Qed.

Lemma client_ok_next st m acks : client_ok st -> client_ok (with_waiters m acks (with_next st)).
Proof. intros (H1 & H2 & H3). split_and!; [|exact H2|done]. intros k id Hk. cbn. apply H1 in Hk. lia. Qed.

Lemma command_begin_ok {P} `{!AsduPayload P} tid ioa ca (p : P) st r st' : client_ok st ->
  command_begin tid ioa ca p st = (r, st') -> client_ok st'.
Proof.
  intros Hok [= _ <-]. apply client_ok_next. by eapply same_channels_ok; [apply drop_waiter_same|].
Qed.

Lemma client_handle_ok req st w st' : client_ok st -> client_handle req st = Ok (w, st') -> client_ok st'.
Proof.
  intros Hok. destruct req; cbn [client_handle]; try (by intros [= _ <-]).
  - destruct (interrogate_begin group ca st) as [[[[key id] b] st1]| |] eqn:E; [|done..].
    intros [= _ <-]. by eapply interrogate_begin_ok.
  - unfold cmd_single. destruct (command_begin _ _ _ _ _) as [[[k id] b] st1] eqn:E.
    intros [= _ <-]. exact (command_begin_ok _ _ _ _ _ _ _ Hok E).
  - unfold cmd_double. destruct (command_begin _ _ _ _ _) as [[[k id] b] st1] eqn:E.
    intros [= _ <-]. exact (command_begin_ok _ _ _ _ _ _ _ Hok E).
  - unfold cmd_regulating. destruct (command_begin _ _ _ _ _) as [[[k id] b] st1] eqn:E.
    intros [= _ <-]. exact (command_begin_ok _ _ _ _ _ _ _ Hok E).
  - unfold cmd_setpoint. destruct kind;
      destruct (command_begin _ _ _ _ _) as [[[k id] b] st1] eqn:E; intros [= _ <-]; exact (command_begin_ok _ _ _ _ _ _ _ Hok E).
Qed.

Lemma client_step_ok st i : client_ok st -> client_ok (client_step st i).
Proof.
  intros Hok. destruct i as [b|req|w|w]; cbn [client_step].
  - eapply same_channels_ok; [apply client_receive_same|done].
  - destruct (client_handle req st) as [[w st']| |] eqn:E; [|done..]. by eapply client_handle_ok.
  - destruct w as [key id ?|key id ?| |?]; [by apply drop_collector_ok| |done..].
    eapply same_channels_ok; [apply drop_waiter_same|done].
  - destruct w as [key id ?|key id ?| |?]; [by apply drop_collector_ok| |done..].
    unfold command_finish. destruct (cl_acks st !! id) as [[|[]|]|]; try done.
    eapply same_channels_ok; [apply drop_waiter_same|done].
Qed.

Lemma client_run_ok coa inputs : client_ok (client_run coa inputs).
Proof.
  unfold client_run. assert (client_ok (ClientState_new coa)) as H by (split_and!; done).
  revert H. generalize (ClientState_new coa). induction inputs as [|i inputs IH]; intros st H; [done|].
  by apply IH, client_step_ok.
Qed.

End Client.
