(* ===== verification/TestRig.v ===== *)
(** * The test rig

    The client of TestClient.v and the server of TestServer.v talking to each
    other: what the server reports is what the client sees. *)

From S2P Require Import Prelude Bytes Codec AsduHeader InfoElements IoList Asdu AsduTypes.
From S2P Require Import Float64 Float32 Deadband Calendar Points Simulator TestServer TestClient.
From stdpp Require Import sorting.

#[local] Open Scope Z_scope.

Lemma filter_true {A} (P : A -> Prop) `{∀ x, Decision (P x)} (l : list A) : (∀ x, P x) -> filter P l = l.
Proof. intros HP. induction l; [done|]. by rewrite filter_cons_True, IHl. Qed.
Lemma filter_false {A} (P : A -> Prop) `{∀ x, Decision (P x)} (l : list A) : (∀ x, ¬ P x) -> filter P l = [].
Proof. intros HP. induction l; [done|]. by rewrite filter_cons_False. Qed.

(** ** One point on its way *)

(** The clock of the server reads a time after 1970. *)
Definition clock_ok (c : Z * Z) : Prop := 0 <= c.1 /\ 0 <= c.2 < 1000.

Definition row_seen (ioa : Ioa) (e : PointEntry) : PointRow :=
  mkRow ioa (pe_kind e) (seen_value (pe_value e)) (seen_quality (pe_kind e) (pe_quality e)).

Lemma dp_wire d : dp_to_wire (dp_from_wire d) = d.
Proof. by destruct d. Qed.
Lemma qds_wire q : client_qds_to_wire (qds_from_wire q) = q.
Proof. by destruct q. Qed.
Lemma siq_wire on q : siq_to_wire (mkSiq on (quality_from_wire q)) =
  mkQw false (qw_blocked q) (qw_substituted q) (qw_not_topical q) (qw_invalid q).
Proof. done. Qed.
Lemma diq_wire d q : diq_to_wire (mkDiq d (quality_from_wire q)) =
  mkQw false (qw_blocked q) (qw_substituted q) (qw_not_topical q) (qw_invalid q).
Proof. done. Qed.

(** The elements of one object are in range. *)
Ltac wire_wf := simpl; repeat match goal with |- _ /\ _ => split end;
  first [exact I | eassumption | apply Nva_from_f32_range].

Section Rig.
Context `{BC : BytesCrate} (clock : nat -> Instant).

(** What the receipt of a row does to the client. *)
Definition row_received (ca : Z) (row : PointRow) (ts : option Cp56Time2a) (st : ClientState) : ClientState :=
  feed_interrogation ca row
    (with_cache (cache_update (row_kind row) (row_ioa row) (row_value row) (row_quality row) ts
      (clock (cl_reads st)) (cl_cache st)) st).

Definition report_cause (cot : Cot) : Prop := cot_ok CotTwo cot /\ cot_cause cot ≠ ACTIVATION_CON.

Lemma on_objects_one {tid V} `{!TypeId tid, !InfoElement V} ioa (v : V) cot ca each st :
  cl_addressing st = IEC104 -> is_u24 ioa -> ie_wf v ->
  on_objects (tid := tid) (V := V)
    (from_payload cot ca (Vsq_single 1) (mkIoPayload [(ioa, v)] : IoPayload tid V) IEC104) each st
  = each (ioa, v) (st, []).
Proof.
  intros Ha Hi Hv. unfold on_objects. rewrite Ha, decode_from_payload by (by apply one_object_ok). done.
Qed.

Lemma point_arrives ck ioa e cot ca st :
  entry_typed e -> is_u24 ioa -> clock_ok ck -> report_cause cot -> is_u16 ca -> cl_addressing st = IEC104 ->
  ∃ b, encode_point ck ioa e cot ca = Some b /\
    client_receive clock b st =
      (row_received ca (row_seen ioa e) (seen_time (pe_kind e) ck) st,
       [EvAsduReceived (cot_cause cot) (PointKind_type_id (pe_kind e)) ioa (Some (seen_value (pe_value e)))]).
Proof.
  intros He Hi Hck [Hcot Hcause] Hca Hst. destruct e as [k v q s]. unfold entry_typed in He. cbn [pe_kind pe_value] in *.
  pose proof (now_cp56_wf ck.1 ck.2 (proj1 Hck) (proj2 Hck)) as Hts.
  apply Z.eqb_neq in Hcause.
  destruct k, v; try done; (eexists; split; [done|]).
  all: unfold client_receive; rewrite Hst; unfold run.
  all: rewrite decode_encode_asdu; [|apply one_object_ok; [done|]; wire_wf|done|done].
  all: cbn [fst]; unfold process_asdu, process_monitor.
  all: lazymatch goal with |- context [from_payload ?c ?a ?v ?p ?ad] =>
    change (asdu_cot (from_payload c a v p ad)) with c;
    lazymatch goal with |- context [seen_time ?k _] =>
      change (type_id (from_payload c a v p ad)) with (PointKind_type_id k) end end.
  all: rewrite Hcause, andb_false_r; cbn [andb PointKind_type_id].
  all: unfold M_SP_NA_1, M_DP_NA_1, M_ME_NA_1, M_ME_NB_1, M_ME_NC_1, M_SP_TB_1, M_DP_TB_1, M_ME_TD_1, M_ME_TE_1, M_ME_TF_1.
  all: cbn [pe_value pe_quality]; rewrite on_objects_one by (first [done | wire_wf]).
  all: unfold on_point; cbn [siq_on diq_state nva_0 sva_0 r32_0].
  all: rewrite ?siq_wire, ?diq_wire, ?qds_wire, ?dp_wire; try destruct b; reflexivity.
Qed.

(** ** Sequences of rows *)

Definition receive_all (bs : list bytes) (st : ClientState) : ClientState :=
  foldl (fun st b => (client_receive clock b st).1) st bs.
Definition sent (outs : list ServerOut) : list bytes :=
  omap (fun o => match o with SoSend b => Some b | _ => None end) outs.

(** The rows and time tags of the points reported. *)
Definition reported (ck : Ioa -> Z * Z) (im : ProcessImage) (ioas : list Ioa)
  : list (PointRow * option Cp56Time2a) :=
  omap (fun ioa => (fun e => (row_seen ioa e, seen_time (pe_kind e) (ck ioa))) <$> im !! ioa) ioas.
Definition rows_received (ca : Z) (rows : list (PointRow * option Cp56Time2a)) (st : ClientState) : ClientState :=
  foldl (fun st r => row_received ca r.1 r.2 st) st rows.

Lemma row_received_addressing ca row ts st : cl_addressing (row_received ca row ts st) = cl_addressing st.
Proof. done. Qed.

Lemma sent_app a b : sent (a ++ b) = sent a ++ sent b.
Proof. apply omap_app. Qed.

Lemma observe_logged_sent ioa s t : sent (observe_logged ioa s t).1 = [].
Proof. unfold observe_logged. by destruct (observe _ _ _ _) as [[]]. Qed.

(** Reporting points: the image stays, and a client that receives the ASDUs
    has received the rows. *)
Lemma report_points_seen ck cot ioas sv st :
  image_typed (ss_image sv) -> (∀ ioa, clock_ok (ck ioa)) -> report_cause cot -> is_u16 (ss_coa sv) ->
  cl_addressing st = IEC104 ->
  let r := report_points ck cot ioas sv in
  ss_image r.2 = ss_image sv /\ ss_coa r.2 = ss_coa sv /\ ss_peers r.2 = ss_peers sv /\
  receive_all (sent r.1) st = rows_received (ss_coa sv) (reported ck (ss_image sv) ioas) st.
Proof.
  intros Him Hck Hcot Hca. revert sv st Him Hca.
  induction ioas as [|ioa ioas IH]; intros sv st Him Hca Hst; [done|]. cbn [report_points reported omap list_omap].
  destruct (ss_image sv !! ioa) as [e|] eqn:He; [|by apply IH]. cbn [fmap option_fmap option_map].
  destruct (Him _ _ He) as [Hi Ht].
  destruct (point_arrives (ck ioa) ioa e cot (ss_coa sv) st Ht Hi (Hck ioa) Hcot Hca Hst) as (b & Eb & Hb).
  rewrite Eb. pose proof (observe_logged_sent ioa (entry_to_monitored e) (ss_tracker sv)) as Hs.
  destruct (observe_logged _ _ _) as [logs t]. cbn [fst] in Hs.
  specialize (IH (set_tracker t sv) (row_received (ss_coa sv) (row_seen ioa e) (seen_time (pe_kind e) (ck ioa)) st)
    Him Hca Hst). destruct (report_points ck cot ioas (set_tracker t sv)) as [rest sv'].
  destruct IH as (H1 & H2 & H3 & H4). cbn [fst snd] in *. split_and!; [done..|].
  rewrite !sent_app, Hs. cbn [app sent omap list_omap]. unfold receive_all. cbn [foldl]. rewrite Hb. exact H4.
Qed.

(** As many ASDUs as points. *)
Lemma report_points_length ck cot ioas sv : image_typed (ss_image sv) -> (∀ ioa, clock_ok (ck ioa)) -> report_cause cot ->
  is_u16 (ss_coa sv) -> length (sent (report_points ck cot ioas sv).1) = length (reported ck (ss_image sv) ioas).
Proof.
  intros Him Hck Hcot Hca. revert sv Him Hca. induction ioas as [|ioa ioas IH]; intros sv Him Hca; [done|].
  cbn [report_points reported omap list_omap]. destruct (ss_image sv !! ioa) as [e|] eqn:He; [|by apply IH].
  cbn [fmap option_fmap option_map]. destruct (Him _ _ He) as [Hi Ht].
  destruct (point_arrives (ck ioa) ioa e cot (ss_coa sv) (ClientState_new 0) Ht Hi (Hck ioa) Hcot Hca eq_refl) as (b & -> & _).
  pose proof (observe_logged_sent ioa (entry_to_monitored e) (ss_tracker sv)) as Hs.
  destruct (observe_logged _ _ _) as [logs t]. cbn [fst] in Hs. specialize (IH (set_tracker t sv) Him Hca).
  destruct (report_points ck cot ioas (set_tracker t sv)) as [rest sv']. cbn [fst] in *.
  rewrite !sent_app, Hs. cbn [app sent omap list_omap length]. exact (f_equal S IH).
Qed.

Lemma foldr_alter_lookup {A} (f : A -> A) (ids : list nat) (m : gmap nat A) i : NoDup ids ->
  foldr (alter f) m ids !! i = if decide (i ∈ ids) then f <$> m !! i else m !! i.
Proof.
  induction 1 as [|j ids Hj Hnd IH]; simpl; [done|].
  destruct (decide (i = j)) as [->|Hij].
  - rewrite lookup_alter_eq, IH, decide_False, decide_True by (done || set_solver). done.
  - rewrite lookup_alter_ne, IH by done.
    destruct (decide (i ∈ ids)); [rewrite decide_True by set_solver|rewrite decide_False by set_solver]; done.
Qed.

Lemma collectors_of_spec ca st id :
  id ∈ collectors_of ca st <-> ∃ q, cl_interrogations st !! (ca, q) = Some id.
Proof.
  unfold collectors_of. rewrite list_elem_of_fmap. split.
  - intros ([[c q] id'] & -> & H). apply list_elem_of_filter in H as [Hc H].
    apply elem_of_map_to_list in H. simpl in *. subst c. eauto.
  - intros [q H]. exists (ca, q, id). split; [done|]. apply list_elem_of_filter. by rewrite elem_of_map_to_list.
Qed.

Lemma collectors_of_NoDup ca st : client_ok st -> NoDup (collectors_of ca st).
Proof.
  intros (_ & Hinj & _). apply NoDup_fmap_2_strong; [|apply NoDup_filter, NoDup_map_to_list].
  intros [k id] [k' id'] H H' Hid. simpl in Hid. subst id'.
  apply list_elem_of_filter in H as [_ H]. apply list_elem_of_filter in H' as [_ H'].
  apply elem_of_map_to_list in H. apply elem_of_map_to_list in H'. by rewrite (Hinj _ _ _ H H').
Qed.

Lemma row_received_collector ca row ts st id c : client_ok st -> id ∈ collectors_of ca st ->
  cl_collectors st !! id = Some c ->
  cl_collectors (row_received ca row ts st) !! id = Some (push_item row c).
Proof.
  intros Hok Hid Hc. unfold row_received, feed_interrogation. cbn [cl_collectors with_collectors with_cache].
  change (collectors_of ca (with_cache _ st)) with (collectors_of ca st).
  rewrite foldr_alter_lookup by (by apply collectors_of_NoDup). by rewrite decide_True, Hc by done.
Qed.

Lemma rows_received_collector ca rows st id c : client_ok st -> id ∈ collectors_of ca st ->
  cl_collectors st !! id = Some c ->
  cl_collectors (rows_received ca rows st) !! id = Some (foldl (fun c r => push_item r.1 c) c rows).
Proof.
  revert st c. induction rows as [|r rows IH]; intros st c Hok Hid Hc; [done|]. cbn [rows_received foldl].
  apply IH; [done|done|]. by apply row_received_collector.
Qed.

Lemma push_items (rows : list (PointRow * option Cp56Time2a)) c :
  (length (col_items c) + length rows <= collector_capacity)%nat ->
  foldl (fun c r => push_item r.1 c) c rows = mkCollector (col_items c ++ rows.*1) (col_done c).
Proof.
  revert c. induction rows as [|r rows IH]; intros c Hl; simpl in *.
  { rewrite app_nil_r. by destruct c. }
  unfold push_item at 2. rewrite decide_True by lia. rewrite IH by (simpl; rewrite length_app; simpl; lia).
  simpl. by rewrite <- app_assoc.
Qed.

Lemma push_items_done (rows : list (PointRow * option Cp56Time2a)) c :
  col_done (foldl (fun c r => push_item r.1 c) c rows) = col_done c.
Proof.
  revert c. induction rows as [|r rows IH]; intros c; [done|]. cbn [foldl]. rewrite IH.
  unfold push_item. by destruct (decide _).
Qed.

(** The fields that receiving points does not touch. *)
Lemma rows_received_frame ca rows st :
  let st' := rows_received ca rows st in
  cl_interrogations st' = cl_interrogations st /\ cl_addressing st' = cl_addressing st /\
  cl_coa st' = cl_coa st /\ cl_next st' = cl_next st /\ cl_cmd_waiters st' = cl_cmd_waiters st /\
  cl_acks st' = cl_acks st.
Proof. revert st. induction rows as [|r rows IH]; intros st; [done|]. apply (IH (row_received ca r.1 r.2 st)). Qed.

Definition row_key (r : PointRow * option Cp56Time2a) : PointKind * Ioa := (row_kind r.1, row_ioa r.1).
Definition caches (c : PointCache) (r : PointRow * option Cp56Time2a) : Prop :=
  ∃ now, c !! row_key r = Some (mkCached (row_value r.1) (row_quality r.1) r.2 now).

Lemma rows_received_other ca rows st key : key ∉ row_key <$> rows ->
  cl_cache (rows_received ca rows st) !! key = cl_cache st !! key.
Proof.
  revert st. induction rows as [|r rows IH]; intros st Hk; [done|]. cbn [rows_received foldl].
  rewrite fmap_cons, not_elem_of_cons in Hk. destruct Hk as [Hk Hr]. etrans; [by apply IH|].
  unfold row_received, feed_interrogation. cbn [cl_cache with_collectors with_cache]. unfold cache_update.
  by rewrite lookup_insert_ne.
Qed.

Lemma rows_received_cached ca rows st : NoDup (row_key <$> rows) ->
  Forall (caches (cl_cache (rows_received ca rows st))) rows.
Proof.
  revert st. induction rows as [|r rows IH]; intros st Hnd; [constructor|].
  rewrite fmap_cons in Hnd. apply NoDup_cons in Hnd as [Hr Hnd].
  constructor; [|by apply (IH (row_received ca r.1 r.2 st))].
  eexists. change (rows_received ca (r :: rows) st) with (rows_received ca rows (row_received ca r.1 r.2 st)).
  rewrite rows_received_other by done.
  unfold row_received, feed_interrogation. cbn [cl_cache with_collectors with_cache]. unfold cache_update, row_key.
  by rewrite lookup_insert_eq.
Qed.

(** ** The points an interrogation asks for *)

Definition selects (group : option Z) (e : PointEntry) : bool :=
  match group with
  | None | Some 0 => true
  | Some g => bool_decide (kind_for_group g = Some (pe_kind e))
  end.
Definition selection (group : option Z) (im : ProcessImage) : list (Ioa * PointEntry) :=
  filter (fun p => selects group p.2 = true) (map_to_list im).

Lemma elem_of_selection group im ioa e :
  (ioa, e) ∈ selection group im <-> im !! ioa = Some e /\ selects group e = true.
Proof. unfold selection. rewrite list_elem_of_filter, elem_of_map_to_list. simpl. tauto. Qed.

Lemma NoDup_selection group im : NoDup (fst <$> selection group im).
Proof.
  apply NoDup_fmap_2_strong; [|apply NoDup_filter, NoDup_map_to_list].
  intros [i e] [i' e'] H H' Hi. simpl in Hi. subst i'.
  apply elem_of_selection in H as [H _]. apply elem_of_selection in H' as [H' _]. by simplify_eq.
Qed.

Lemma reported_perm ck im l l' : l ≡ₚ l' -> reported ck im l ≡ₚ reported ck im l'.
Proof. apply omap_Permutation. Qed.

Lemma reported_selection ck im l : (∀ p, p ∈ l -> im !! p.1 = Some p.2) ->
  reported ck im (fst <$> l) =
    (fun p : Ioa * PointEntry => (row_seen p.1 p.2, seen_time (pe_kind p.2) (ck p.1))) <$> l.
Proof.
  induction l as [|p l IH]; intros H; [done|]. rewrite !fmap_cons. unfold reported. cbn [omap list_omap].
  rewrite (H p) by set_solver. cbn [fmap option_fmap option_map]. f_equal. apply IH. set_solver.
Qed.

Lemma reported_keys ck im l : NoDup l -> NoDup (row_key <$> reported ck im l).
Proof.
  induction 1 as [|i l Hi Hnd IH]; [constructor|]. unfold reported. cbn [omap list_omap].
  destruct (im !! i) as [e|]; cbn [fmap option_fmap option_map]; [|done]. rewrite fmap_cons. constructor; [|done].
  rewrite list_elem_of_fmap. intros ([r ts] & Hk & H).
  apply list_elem_of_omap in H as (j & Hj & H). destruct (im !! j); [|done]. simplify_eq/=. unfold row_key in Hk. by simplify_eq/=.
Qed.

Lemma report_selection_length ck cot group sv : image_typed (ss_image sv) -> (∀ ioa, clock_ok (ck ioa)) ->
  report_cause cot -> is_u16 (ss_coa sv) ->
  length (sent (report_points ck cot (sort_ioas (fst <$> selection group (ss_image sv))) sv).1) =
    length (selection group (ss_image sv)).
Proof.
  intros Him Hck Hcot Hca. rewrite report_points_length by done.
  rewrite (reported_perm ck _ _ _ (proj2 (sort_ioas_spec _))), reported_selection; [by rewrite length_fmap|].
  intros [i e] H. by apply elem_of_selection in H as [H _].
Qed.

(** ** The interrogation's own ASDUs *)

Definition ic_asdu (qoi : Qoi) (cause : Cause) (ca : Z) : bytes :=
  encode_asdu_bytes_list (mkIoPayload [(0, qoi)]) (Cot_with cause) ca.

Lemma ic_ok qoi : is_u8 (qoi_0 qoi) ->
  IoPayload_ok (tid := 100) (Vsq_single 1) IEC104 (mkIoPayload [(0, qoi)]).
Proof. intros H. by apply one_object_ok. Qed.

Lemma ic_decode qoi cause ca : is_u8 (qoi_0 qoi) -> 0 <= cause < 64 -> is_u16 ca ->
  Asdu_decode IEC104 (ic_asdu qoi cause ca) =
    (Ok (from_payload (Cot_with cause) ca (Vsq_single 1) (mkIoPayload [(0, qoi)] : C_IC_NA_1) IEC104), []).
Proof.
  intros Hq Hc Hca. apply (decode_encode_asdu (P := C_IC_NA_1)); [by apply ic_ok| |done].
  split; [done|]. split; done.
Qed.

Lemma ic_received qoi cause ca st : is_u8 (qoi_0 qoi) -> 0 <= cause < 64 -> is_u16 ca -> cl_addressing st = IEC104 ->
  (client_receive clock (ic_asdu qoi cause ca) st).1 =
    if cause =? ACTIVATION_TERMINATION then interrogation_done ca st else st.
Proof.
  intros Hq Hc Hca Hst. unfold client_receive. rewrite Hst. unfold run. rewrite ic_decode by done. cbn [fst].
  unfold process_asdu. cbn [from_payload asdu_cot Cot_with cot_cause type_id TYPE_ID IoPayload_payload asdu_ca].
  rewrite andb_true_r. destruct (cause =? ACTIVATION_TERMINATION); [done|].
  rewrite (bool_decide_false (100 ∈ cmd_type_ids)) by (unfold cmd_type_ids; set_solver). by rewrite andb_false_r.
Qed.

(** The qualifiers a client can ask for. *)
Definition group_ok (group : option Z) : Prop := match group with None => True | Some g => 0 <= g < 236 end.
Definition group_qoi (group : option Z) : Qoi := mkQoi (20 + default 0 group).

Lemma group_qoi_ok group : group_ok group ->
  match group with None => Ok Qoi_GENERAL | Some g => Qoi_group g end = Ok (group_qoi group) /\
  is_u8 (qoi_0 (group_qoi group)).
Proof.
  unfold group_qoi, group_ok, is_u8. destruct group as [g|]; simpl; [|done]. intros H.
  unfold Qoi_group. rewrite decide_True by lia. split; [done|lia].
Qed.

Lemma kind_for_group_range g k : kind_for_group g = Some k -> 1 <= g <= 10.
Proof. destruct g as [|p|p]; try done. repeat (destruct p as [p|p|]; try done); lia. Qed.

Lemma selection_all group im : default 0 group = 0 -> selection group im = map_to_list im.
Proof.
  intros Hg. unfold selection. apply filter_true. intros [i e].
  destruct group as [[| |]|]; simpl in *; done.
Qed.
Lemma selection_kind g k im : kind_for_group g = Some k -> selection (Some g) im = iter_kind k im.
Proof.
  intros Hk. pose proof (kind_for_group_range _ _ Hk). unfold selection, iter_kind. apply list_filter_iff.
  intros [i e]. simpl. destruct g; [lia| |lia]. rewrite Hk, bool_decide_eq_true. split; congruence.
Qed.
Lemma selection_none g im : kind_for_group g = None -> g ≠ 0 -> selection (Some g) im = [].
Proof.
  intros Hk Hg. unfold selection. apply filter_false. intros [i e]. simpl.
  destruct g; [done|..]; by rewrite Hk.
Qed.

(** The server's treatment of an interrogation that has been decoded. *)
Lemma handle_ic ck qoi ca sv : is_u8 (qoi_0 qoi) -> is_u16 ca ->
  ∃ ev, handle_incoming_asdu ck (ic_asdu qoi ACTIVATION ca) sv =
    if decide (qoi = Qoi_GENERAL) then
      let '(outs, sv') := respond_interrogation_general ck sv in Ok (SoEvent ev :: outs, sv')
    else match respond_interrogation_group ck (Z.max 0 (qoi_0 qoi - 20)) sv with
         | Ok (outs, sv') => Ok (SoEvent ev :: outs, sv')
         | _ => Panic
         end.
Proof.
  intros Hq Hca. eexists. unfold handle_incoming_asdu, run. rewrite ic_decode by done. cbn [fst].
  change (type_id (from_payload _ _ _ _ _)) with 100. cbn match.
  rewrite decode_from_payload by (by apply ic_ok). cbn [res_ok objects head fmap option_fmap option_map snd default].
  reflexivity.
Qed.

Lemma report_cause_intro c : 0 <= c < 64 -> c ≠ ACTIVATION_CON -> report_cause (Cot_with c).
Proof. intros Hc Hn. split; [split; done|done]. Qed.

Lemma interrogation_answer ck group sv ca : group_ok group -> is_u16 ca ->
  ∃ cot outs, report_cause cot /\
    let ioas := sort_ioas (fst <$> selection group (ss_image sv)) in
    handle_incoming_asdu ck (ic_asdu (group_qoi group) ACTIVATION ca) sv =
      Ok (outs, (report_points ck cot ioas sv).2) /\
    sent outs = [ic_asdu (group_qoi group) ACTIVATION_CON (ss_coa sv)] ++
      sent (report_points ck cot ioas sv).1 ++
      [ic_asdu (group_qoi group) ACTIVATION_TERMINATION (ss_coa sv)].
Proof.
  intros Hg Hca. destruct (group_qoi_ok group Hg) as [_ Hq].
  destruct (handle_ic ck (group_qoi group) ca sv Hq Hca) as [ev ->].
  destruct (decide (group_qoi group = Qoi_GENERAL)) as [E|E].
  - assert (default 0 group = 0) as H0 by (unfold group_qoi, Qoi_GENERAL in E; injection E; lia).
    rewrite E, (selection_all _ _ H0). unfold respond_interrogation_general.
    exists (Cot_with INTERROGATED_GENERAL). destruct (report_points _ _ _ _) as [points sv'].
    eexists. split; [by apply report_cause_intro|]. cbn zeta. split; [done|].
    cbn [fst]. change (sent (SoEvent ev :: ?l)) with (sent l). rewrite !sent_app. done.
  - destruct group as [g|]; [|done]. simpl in Hg. unfold group_qoi in *. cbn [default qoi_0] in *.
    change (default 0 (Some g)) with g in *. change (from_option id 0 (Some g)) with g in *. change (id g) with g in *.
    assert (g ≠ 0) as Hg0 by (intros ->; done).
    replace (Z.max 0 (20 + g - 20)) with g by lia. unfold respond_interrogation_group, Qoi_group.
    rewrite decide_True by lia. destruct (kind_for_group g) as [k|] eqn:Hk.
    + pose proof (kind_for_group_range _ _ Hk). unfold interrogated_group. rewrite decide_True by lia.
      rewrite (selection_kind _ _ _ Hk). exists (Cot_with (20 + g)). destruct (report_points _ _ _ _) as [points sv'].
      eexists. split; [apply report_cause_intro; unfold ACTIVATION_CON; lia|]. cbn zeta. split; [done|].
      cbn [fst]. change (sent (SoEvent ev :: ?l)) with (sent l). rewrite !sent_app. done.
    + rewrite (selection_none _ _ Hk Hg0). exists (Cot_with 20). eexists.
      split; [by apply report_cause_intro|]. cbn zeta. by split.
Qed.

(** ** Interrogation, end to end *)

Lemma interrogate_begin_spec group ca st : group_ok group -> cl_addressing st = IEC104 ->
  ∃ st1, interrogate_begin group (Some ca) st =
      Ok ((ca, qoi_0 (group_qoi group)), cl_next st, ic_asdu (group_qoi group) ACTIVATION ca, st1) /\
    cl_interrogations st1 !! (ca, qoi_0 (group_qoi group)) = Some (cl_next st) /\
    cl_collectors st1 !! cl_next st = Some (mkCollector [] Pending) /\
    cl_cache st1 = cl_cache st.
Proof.
  intros Hg Hst. unfold interrogate_begin. rewrite (proj1 (group_qoi_ok group Hg)).
  change (default (cl_coa st) (Some ca)) with ca.
  assert (cl_addressing (drop_collector (ca, qoi_0 (group_qoi group)) st) = IEC104) as Ha
    by (unfold drop_collector; by destruct (cl_interrogations st !! _)).
  eexists. split; [|split_and!].
  - cbn [cl_addressing with_collectors with_next]. rewrite Ha. reflexivity.
  - apply lookup_insert_eq.
  - apply lookup_insert_eq.
  - unfold drop_collector. by destruct (cl_interrogations st !! _).
Qed.

(** An answer to an interrogation of the group: the confirmation, [n] ASDUs of
    points, and the termination. *)
Definition framed (group : option Z) (ca : Z) (n : nat) (answer : list bytes) : Prop :=
  ∃ points, answer = [ic_asdu (group_qoi group) ACTIVATION_CON ca] ++ points ++
      [ic_asdu (group_qoi group) ACTIVATION_TERMINATION ca] /\
    length points = n.

(** What a client has received when its interrogation is over. *)
Lemma interrogation_run ck group cl sv :
  group_ok group -> image_typed (ss_image sv) -> is_u16 (ss_coa sv) -> (∀ ioa, clock_ok (ck ioa)) -> client_ok cl ->
  ∃ st1 outs sv', interrogate_begin group (Some (ss_coa sv)) cl =
      Ok ((ss_coa sv, qoi_0 (group_qoi group)), cl_next cl, ic_asdu (group_qoi group) ACTIVATION (ss_coa sv), st1) /\
    handle_incoming_asdu ck (ic_asdu (group_qoi group) ACTIVATION (ss_coa sv)) sv = Ok (outs, sv') /\
    framed group (ss_coa sv) (length (selection group (ss_image sv))) (sent outs) /\
    ss_image sv' = ss_image sv /\ client_ok st1 /\ cl_cache st1 = cl_cache cl /\
    cl_next cl ∈ collectors_of (ss_coa sv) st1 /\ cl_collectors st1 !! cl_next cl = Some (mkCollector [] Pending) /\
    receive_all (sent outs) st1 =
      interrogation_done (ss_coa sv) (rows_received (ss_coa sv)
        (reported ck (ss_image sv) (sort_ioas (fst <$> selection group (ss_image sv)))) st1).
Proof.
  intros Hg Him Hca Hck Hcl. destruct (group_qoi_ok group Hg) as [_ Hq].
  destruct (interrogate_begin_spec group (ss_coa sv) cl Hg (proj2 (proj2 Hcl))) as (st1 & E1 & Hi & Hc & Hcache).
  destruct (interrogation_answer ck group sv (ss_coa sv) Hg Hca) as (cot & outs & Hcot & E2 & Hsent).
  assert (client_ok st1) as Hok1 by (by eapply interrogate_begin_ok). pose proof (proj2 (proj2 Hok1)) as Ha.
  destruct (report_points_seen ck cot (sort_ioas (fst <$> selection group (ss_image sv))) sv st1 Him Hck Hcot Hca Ha)
    as (H1 & H2 & H3 & H4).
  exists st1, outs. eexists. split_and!; try done.
  - exists (sent (report_points ck cot (sort_ioas (fst <$> selection group (ss_image sv))) sv).1). split; [exact Hsent|].
    by apply report_selection_length.
  - apply collectors_of_spec. eauto.
  - rewrite Hsent. unfold receive_all in *. rewrite !foldl_app. cbn [foldl].
    rewrite (ic_received _ ACTIVATION_CON) by done. change (ACTIVATION_CON =? ACTIVATION_TERMINATION) with false.
    cbn match. rewrite H4. rewrite (ic_received _ ACTIVATION_TERMINATION); [done..|].
    by rewrite (proj1 (proj2 (rows_received_frame _ _ _))).
Qed.

Lemma done_collector ca st id c : client_ok st -> id ∈ collectors_of ca st -> cl_collectors st !! id = Some c ->
  cl_collectors (interrogation_done ca st) !! id = Some (signal_done c).
Proof.
  intros Hok Hid Hc. cbn [interrogation_done cl_collectors with_collectors].
  rewrite foldr_alter_lookup by (by apply collectors_of_NoDup). by rewrite decide_True, Hc by done.
Qed.

Lemma rows_received_ok ca rows st : client_ok st -> client_ok (rows_received ca rows st).
Proof.
  destruct (rows_received_frame ca rows st) as (H1 & H2 & _ & H3 & _).
  apply same_channels_ok. by split_and!.
Qed.

Lemma rows_received_collectors_of ca rows st : collectors_of ca (rows_received ca rows st) = collectors_of ca st.
Proof. unfold collectors_of. by rewrite (proj1 (rows_received_frame ca rows st)). Qed.

(** The collector at the end: signalled, and with the rows it had room for. *)
Lemma interrogation_collector ca rows st id : client_ok st -> id ∈ collectors_of ca st ->
  cl_collectors st !! id = Some (mkCollector [] Pending) ->
  ∃ items, cl_collectors (interrogation_done ca (rows_received ca rows st)) !! id = Some (mkCollector items (Sent tt)) /\
    ((length rows <= collector_capacity)%nat -> items = rows.*1).
Proof.
  intros Hok Hid Hc. pose proof (rows_received_collector ca rows st id _ Hok Hid Hc) as H.
  apply (done_collector ca) in H; [|by apply rows_received_ok|by rewrite rows_received_collectors_of].
  rewrite H. unfold signal_done. rewrite push_items_done. cbn [col_done]. eexists. split; [done|].
  intros Hl. by rewrite push_items.
Qed.

Lemma selected_rows ck group im :
  let rows := reported ck im (sort_ioas (fst <$> selection group im)) in
  rows ≡ₚ (fun p : Ioa * PointEntry => (row_seen p.1 p.2, seen_time (pe_kind p.2) (ck p.1))) <$> selection group im /\
  NoDup (row_key <$> rows).
Proof.
  cbn zeta. split.
  - rewrite (reported_perm ck im _ _ (proj2 (sort_ioas_spec _))), reported_selection; [done|].
    intros [i e] H. by apply elem_of_selection in H as [H _].
  - apply reported_keys. rewrite (proj2 (sort_ioas_spec _)). apply NoDup_selection.
Qed.

(** C23. The server's answer makes the client's store the server's image: an
    interrogation of any group, addressed to the server's common address in
    any state the client can reach, is answered with its confirmation, one
    ASDU for every point of the group and its termination, in this order;
    when these have been received the waiting request is woken, the store
    holds every point of the group with the value, the quality and the time
    tag the protocol can carry, and every other entry of the store is as
    before. The image itself is not changed. *)
Theorem interrogation_mirrors shuffle ck group coa inputs sv :
  group_ok group -> image_typed (ss_image sv) -> is_u16 (ss_coa sv) -> (∀ ioa, clock_ok (ck ioa)) ->
  let cl := client_run clock shuffle coa inputs in
  ∃ key id req cl1 outs sv',
    interrogate_begin group (Some (ss_coa sv)) cl = Ok (key, id, req, cl1) /\
    handle_incoming_asdu ck req sv = Ok (outs, sv') /\
    framed group (ss_coa sv) (length (selection group (ss_image sv))) (sent outs) /\ ss_image sv' = ss_image sv /\
    let cl2 := receive_all (sent outs) cl1 in
    col_done <$> cl_collectors cl2 !! id = Some (Sent tt) /\
    (∀ ioa e, ss_image sv !! ioa = Some e -> selects group e = true ->
       ∃ now, cache_get (pe_kind e) ioa (cl_cache cl2) =
         Some (mkCached (seen_value (pe_value e)) (seen_quality (pe_kind e) (pe_quality e))
           (seen_time (pe_kind e) (ck ioa)) now)) /\
    (∀ k ioa, (∀ e, ss_image sv !! ioa = Some e -> selects group e = true -> pe_kind e ≠ k) ->
       cache_get k ioa (cl_cache cl2) = cache_get k ioa (cl_cache cl)).
Proof.
  intros Hg Him Hca Hck cl.
  destruct (interrogation_run ck group cl sv Hg Him Hca Hck (client_run_ok _ _ _ _))
    as (cl1 & outs & sv' & E1 & E2 & Hfr & Hsv & Hok & Hcache & Hid & Hc & Hrecv).
  do 6 eexists. split_and!; [exact E1|exact E2|exact Hfr|exact Hsv|]. cbn zeta. rewrite Hrecv.
  destruct (selected_rows ck group (ss_image sv)) as [Hperm Hnd]. cbn zeta in *.
  set (rows := reported _ _ _) in *. split_and!.
  - destruct (interrogation_collector (ss_coa sv) rows cl1 _ Hok Hid Hc) as (items & -> & _). done.
  - intros ioa e He Hs. pose proof (rows_received_cached (ss_coa sv) rows cl1 Hnd) as H.
    rewrite Forall_forall in H. apply (H (row_seen ioa e, seen_time (pe_kind e) (ck ioa))). rewrite Hperm.
    apply list_elem_of_fmap. exists (ioa, e). split; [done|]. by apply elem_of_selection.
  - intros k ioa Hno. unfold cache_get. cbn [interrogation_done cl_cache with_collectors].
    rewrite rows_received_other; [by rewrite Hcache|]. rewrite Hperm, list_elem_of_fmap.
    intros (r & Hk & H). apply list_elem_of_fmap in H as ([i e] & -> & H). apply elem_of_selection in H as [He Hs].
    injection Hk as -> ->. by apply (Hno e).
Qed.

(** Rows of distinct points are kept as they are. *)
Lemma last_rows_perm rows : NoDup ((fun r => (row_kind r, row_ioa r)) <$> rows) ->
  snd <$> map_to_list (last_rows rows) ≡ₚ rows.
Proof.
  unfold last_rows. induction rows as [|r rows IH] using rev_ind; intros Hnd; [done|].
  rewrite fmap_app, NoDup_app in Hnd. destruct Hnd as (Hnd & Hr & _). rewrite foldl_app. cbn [foldl].
  specialize (IH Hnd). set (m := foldl _ _ _) in *.
  assert (m !! (PointKind_type_id (row_kind r), row_ioa r) = None) as Hnone.
  { destruct (m !! _) as [r'|] eqn:E; [|done]. exfalso.
    assert (∀ key row, m !! key = Some row -> key = (PointKind_type_id (row_kind row), row_ioa row)) as Hkey.
    { unfold m. clear. induction rows as [|r rows IH] using rev_ind; [done|]. rewrite foldl_app. cbn [foldl].
      intros key row H. apply lookup_insert_Some in H as [[<- <-]|[_ H]]; eauto. }
    apply Hkey in E as Hk. injection Hk as Hk Hi. apply PointKind_type_id_inj in Hk.
    apply (Hr (row_kind r', row_ioa r')); [|by rewrite <- Hk, <- Hi; apply list_elem_of_fmap; exists r; set_solver].
    apply list_elem_of_fmap. exists r'. split; [done|]. rewrite <- IH. apply list_elem_of_fmap.
    exists (PointKind_type_id (row_kind r), row_ioa r, r'). split; [done|]. by apply elem_of_map_to_list. }
  rewrite map_to_list_insert by done. rewrite fmap_cons, IH. cbn [snd]. apply Permutation_cons_append.
Qed.

(** C14. An interrogation of at most 256 points is answered with exactly them:
    once the ASDUs of the server's answer have been received, the response to
    the request lists the points of the group, each once, sorted by address,
    with the value and the quality that the protocol can carry; and the
    channels of the request are gone. *)
Theorem interrogation_complete shuffle ck group coa inputs sv :
  (∀ A (l : list A), shuffle A l ≡ₚ l) ->
  group_ok group -> image_typed (ss_image sv) -> is_u16 (ss_coa sv) -> (∀ ioa, clock_ok (ck ioa)) ->
  (length (selection group (ss_image sv)) <= collector_capacity)%nat ->
  let cl := client_run clock shuffle coa inputs in
  ∃ key id req cl1 outs sv' rows cl3,
    interrogate_begin group (Some (ss_coa sv)) cl = Ok (key, id, req, cl1) /\
    handle_incoming_asdu ck req sv = Ok (outs, sv') /\
    interrogate_finish shuffle key id (receive_all (sent outs) cl1) = (RespOk (RdInterrogated rows (length rows)), cl3) /\
    rows ≡ₚ (fun p => row_seen p.1 p.2) <$> selection group (ss_image sv) /\ Sorted row_le rows /\
    cl_collectors cl3 !! id = None /\ cl_interrogations cl3 !! key = None.
Proof.
  intros Hsh Hg Him Hca Hck Hcap cl.
  destruct (interrogation_run ck group cl sv Hg Him Hca Hck (client_run_ok _ _ _ _))
    as (cl1 & outs & sv' & E1 & E2 & Hfr & Hsv & Hok & Hcache & Hid & Hc & Hrecv).
  do 8 eexists. split; [exact E1|]. split; [exact E2|]. split; [reflexivity|]. rewrite Hrecv.
  destruct (selected_rows ck group (ss_image sv)) as [Hperm Hnd]. cbn zeta in *.
  set (rows := reported _ _ _) in *.
  destruct (interrogation_collector (ss_coa sv) rows cl1 _ Hok Hid Hc) as (items & -> & Hitems).
  rewrite Hitems by (by rewrite Hperm, length_fmap). cbn [col_items]. split_and!.
  - rewrite merge_sort_Permutation, Hsh, last_rows_perm.
    + rewrite Hperm, <- list_fmap_compose. done.
    + rewrite <- list_fmap_compose. exact Hnd.
  - apply (Sorted_merge_sort _).
  - apply lookup_delete_eq.
  - cbn [cl_interrogations with_collectors]. apply drop_collector_lookup.
Qed.

(** ** Commands, end to end *)

Lemma ioa_octets ioa : is_u24 ioa ->
  Z.lor (Z.lor (as_u8 ioa) (Z.shiftl (as_u8 (Z.shiftr ioa 8)) 8)) (Z.shiftl (as_u8 (Z.shiftr ioa 16)) 16) = ioa.
Proof.
  intros Hi. rewrite ioa3_join by apply as_u8_u8. unfold as_u8, is_u24 in *.
  rewrite !Z.shiftr_div_pow2 by lia. lia.
Qed.

Lemma object_payload {tid V} `{!InfoElement V} ioa (v : V) :
  ∃ rest, IoPayload_encode (tid := tid) (mkIoPayload [(ioa, v)]) (Vsq_single 1) IEC104 [] =
    as_u8 ioa :: as_u8 (Z.shiftr ioa 8) :: as_u8 (Z.shiftr ioa 16) :: rest.
Proof.
  unfold IoPayload_encode, encode_io_list. cbn [objects vsq_sequence Vsq_single encode_objects ioa_size IEC104].
  rewrite (fc_append _ _ _ _ ie_lawful). unfold encode_ioa. rewrite !put_u8_spec. by eexists.
Qed.

Section OneCommand.
Context {tid : Z} {V : Type} `{!TypeId tid, !InfoElement V}.
Context (Htid : tid ∈ cmd_type_ids).

Definition command_asdu (ioa : Ioa) (v : V) (cause : Cause) (ca : Z) : bytes :=
  encode_to_vec (from_payload (Cot_with cause) ca (Vsq_single 1)
    (mkIoPayload [(ioa, v)] : IoPayload tid V) IEC104) IEC104.

Lemma command_decode ioa v cause ca : is_u24 ioa -> ie_wf v -> 0 <= cause < 64 -> is_u16 ca ->
  run (Asdu_decode IEC104) (command_asdu ioa v cause ca) =
    Ok (from_payload (Cot_with cause) ca (Vsq_single 1) (mkIoPayload [(ioa, v)] : IoPayload tid V) IEC104).
Proof.
  intros Hi Hv Hc Hca. unfold run, command_asdu, encode_to_vec.
  assert (payload_ok (Vsq_single 1) IEC104 (mkIoPayload [(ioa, v)] : IoPayload tid V)) as Hp by (by apply one_object_ok).
  pose proof (decode_encode_asdu (mkIoPayload [(ioa, v)] : IoPayload tid V) (Cot_with cause) ca Hp) as H.
  unfold encode_asdu in H. rewrite H; [done|split; [done|split; done]|done].
Qed.

(** The server's two answers. *)
Lemma command_answers ioa v ca ca' : is_u24 ioa -> ie_wf v ->
  sent (handle_command_list (tid := tid) (V := V)
    (from_payload (Cot_with ACTIVATION) ca (Vsq_single 1) (mkIoPayload [(ioa, v)] : IoPayload tid V) IEC104) ca') =
  [command_asdu ioa v ACTIVATION_CON ca'; command_asdu ioa v ACTIVATION_TERMINATION ca'].
Proof.
  intros Hi Hv. unfold handle_command_list. rewrite decode_from_payload by (by apply one_object_ok). done.
Qed.

Lemma cmd_not_monitored asdu st : type_id asdu ∈ cmd_type_ids -> process_monitor clock asdu st = (st, []).
Proof.
  unfold process_monitor, cmd_type_ids. rewrite !elem_of_cons, elem_of_nil.
  intros [->|[->|[->|[->|[->|[->|[]]]]]]]; done.
Qed.

(** The confirmation wakes the request that waits for it. *)
Lemma con_received ioa v ca st id : is_u24 ioa -> ie_wf v -> is_u16 ca -> cl_addressing st = IEC104 ->
  cl_cmd_waiters st !! (tid, ioa) = Some id ->
  (client_receive clock (command_asdu ioa v ACTIVATION_CON ca) st).1 =
    with_waiters (delete (tid, ioa) (cl_cmd_waiters st)) (<[id := Sent false]> (cl_acks st)) st.
Proof.
  intros Hi Hv Hca Hst Hw. unfold client_receive. rewrite Hst, command_decode by done.
  unfold process_asdu. change (type_id (from_payload _ _ _ _ _)) with tid.
  cbn [from_payload asdu_cot Cot_with cot_cause]. change (ACTIVATION_CON =? ACTIVATION_TERMINATION) with false.
  rewrite (bool_decide_true _ Htid). cbn [andb]. change (ACTIVATION_CON =? ACTIVATION_CON) with true. cbn [andb fst].
  unfold command_confirmed.
  cbn [from_payload payload type_id asdu_cot Cot_with cot_negative TYPE_ID IoPayload_payload encode_information_objects].
  destruct (object_payload (tid := tid) ioa v) as [rest E]. rewrite E, ioa_octets by done.
  by rewrite Hw.
Qed.

Lemma term_received ioa v ca st : is_u24 ioa -> ie_wf v -> is_u16 ca -> cl_addressing st = IEC104 ->
  (client_receive clock (command_asdu ioa v ACTIVATION_TERMINATION ca) st).1 = st.
Proof.
  intros Hi Hv Hca Hst. unfold client_receive. rewrite Hst, command_decode by done.
  unfold process_asdu. change (type_id (from_payload _ _ _ _ _)) with tid.
  cbn [from_payload asdu_cot Cot_with cot_cause]. assert ((tid =? 100) = false) as ->.
  { apply Z.eqb_neq. intros ->. revert Htid. unfold cmd_type_ids. set_solver. }
  change (ACTIVATION_TERMINATION =? ACTIVATION_CON) with false. rewrite andb_false_r. cbn [andb].
  by rewrite cmd_not_monitored.
Qed.

(** From the request to its response. *)
Lemma command_round ioa v ca ca' st : is_u24 ioa -> ie_wf v -> is_u16 ca' -> cl_addressing st = IEC104 ->
  ∃ id st1, command_begin tid ioa ca (mkIoPayload [(ioa, v)] : IoPayload tid V) st =
      ((tid, ioa), id, command_asdu ioa v ACTIVATION ca, st1) /\ cl_cache st1 = cl_cache st /\
    let st2 := receive_all [command_asdu ioa v ACTIVATION_CON ca'; command_asdu ioa v ACTIVATION_TERMINATION ca'] st1 in
    cl_cache st2 = cl_cache st /\ cl_cmd_waiters st2 !! (tid, ioa) = None /\
    ∃ st3, command_finish (tid, ioa) id st2 = (RespOk RdCommand, st3) /\ cl_acks st3 !! id = None.
Proof.
  intros Hi Hv Hca Hst. unfold command_begin.
  assert (cl_addressing (drop_waiter (tid, ioa) st) = IEC104 /\ cl_cache (drop_waiter (tid, ioa) st) = cl_cache st) as [Ha Hc]
    by (unfold drop_waiter; by destruct (cl_cmd_waiters st !! _)).
  do 2 eexists. split; [cbn [cl_addressing with_waiters with_next]; rewrite Ha; reflexivity|].
  split; [exact Hc|]. cbn zeta. unfold receive_all. cbn [foldl].
  rewrite (con_received _ _ _ _ (cl_next st)) by (first [done | apply lookup_insert_eq]).
  rewrite term_received by done. split_and!; [exact Hc|apply lookup_delete_eq|].
  unfold command_finish. cbn [cl_acks with_waiters]. rewrite lookup_insert_eq. eexists. split; [reflexivity|].
  apply lookup_delete_eq.
Qed.

End OneCommand.

(** The requests that send a command, and its address. *)
Definition is_command (req : Request) (ioa : Ioa) (ca : option Z) : Prop :=
  match req with
  | RqCmdSingle i _ c | RqCmdDouble i _ c | RqCmdRegulating i _ c | RqCmdSetpoint i _ _ c => i = ioa /\ c = ca
  | _ => False
  end.

(** The type and the element a command request sends. *)
Definition sends_command (req : Request) (ioa : Ioa) (ca : option Z) (tid : Z) (V : Type)
    `{!TypeId tid, !InfoElement V} (v : V) : Prop :=
  ie_wf v /\ tid ∈ cmd_type_ids /\
  (∀ shuffle st, client_handle shuffle req st =
    let '(key, id, asdu, st') :=
      command_begin tid ioa (resolve_ca ca st) (mkIoPayload [(ioa, v)] : IoPayload tid V) st in
    Ok (WaitCommand key id asdu, st')) /\
  (∀ ck b sv a, run (Asdu_decode IEC104) b = Ok a -> type_id a = tid ->
    ∃ ev, handle_incoming_asdu ck b sv = Ok (SoEvent ev :: handle_command_list (tid := tid) (V := V) a (ss_coa sv), sv)).

Ltac sends_command := split_and!;
  [repeat split; try done; try apply Nva_from_f32_range
  |unfold cmd_type_ids; set_solver
  |intros; reflexivity
  |intros ck b sv a Ha Ht; eexists; unfold handle_incoming_asdu; rewrite Ha, Ht; reflexivity].

Lemma f64_as_i16_range x : is_i16 (f64_as_i16 x).
Proof. unfold is_i16, f64_as_i16. destruct x as [|[]| |]; lia. Qed.

Lemma command_sends req ioa ca : is_command req ioa ca ->
  ∃ tid V (HT : TypeId tid) (HI : InfoElement V) (v : V), sends_command req ioa ca tid V v.
Proof.
  destruct req as [| | | | | | | |i on c|i on c|i step c|i kind value c| | | | | |]; try done; intros [-> ->].
  - exists 45, Sco, _, _, (mkSco on 0 false). sends_command.
  - exists 46, Dco, _, _, (mkDco (if on then DpOn else DpOff) 0 false). sends_command.
  - exists 47, Rco, _, _, (mkRco (match step with SdLower => Lower | SdHigher => Higher end) 0 false). sends_command.
  - destruct kind.
    + exists 48, (Nva * Qos)%type, _, _, (Nva_from_f32 (f32_of_f64 value), mkQos 0 false). sends_command.
    + exists 49, (Sva * Qos)%type, _, _, (mkSva (f64_as_i16 value), mkQos 0 false). sends_command; apply f64_as_i16_range.
    + exists 50, (R32 * Qos)%type, _, _, (mkR32 (bits_of_f32 (f32_of_f64 value)), mkQos 0 false).
      sends_command; apply bits_of_f32_range, f32_of_f64_ok.
Qed.

(** [b] is the ASDU [a] with another cause and common address. *)
Definition answers_with (cause : Cause) (ca : Z) (a : Asdu) (b : bytes) : Prop :=
  run (Asdu_decode IEC104) b = Ok (mkAsdu (type_id a) (asdu_vsq a) (Cot_with cause) ca (payload a)).

(** C31. Every command is confirmed: in any state the client can reach, a request
    to send a command to an address of three octets leads to one ASDU, an
    activation. The server answers it with two ASDUs of the same type, the
    same qualifier and the same objects, under its own common address: a
    positive confirmation and, 50 ms later, a termination, without touching
    its own state. When the client has received them its request is answered
    positively, nothing waits for the command any more, and the store of
    values is as before. *)
Theorem commands_confirmed shuffle ck coa inputs sv req ioa ca :
  is_command req ioa ca -> is_u24 ioa -> is_u16 (ss_coa sv) ->
  let cl := client_run clock shuffle coa inputs in
  is_u16 (resolve_ca ca cl) ->
  ∃ key id asdu a cl1 outs con term ev ev',
    client_handle shuffle req cl = Ok (WaitCommand key id asdu, cl1) /\
    handle_incoming_asdu ck asdu sv = Ok (outs, sv) /\
    outs = [SoEvent ev; SoSend con; SoEvent ev'; SoSleep 50; SoSend term] /\
    run (Asdu_decode IEC104) asdu = Ok a /\ asdu_cot a = Cot_with ACTIVATION /\ asdu_ca a = resolve_ca ca cl /\
    answers_with ACTIVATION_CON (ss_coa sv) a con /\ answers_with ACTIVATION_TERMINATION (ss_coa sv) a term /\
    let cl2 := receive_all [con; term] cl1 in
    cl_cache cl2 = cl_cache cl /\ cl_cmd_waiters cl2 !! key = None /\
    ∃ cl3, command_finish key id cl2 = (RespOk RdCommand, cl3) /\ cl_acks cl3 !! id = None.
Proof.
  intros Hreq Hi Hsca cl Hca. pose proof (proj2 (proj2 (client_run_ok clock shuffle coa inputs))) as Hst. fold cl in Hst.
  destruct (command_sends _ _ _ Hreq) as (tid & V & HT & HI & v & Hv & Htid & Hh & Hd).
  destruct (command_round Htid ioa v (resolve_ca ca cl) (ss_coa sv) cl Hi Hv Hsca Hst)
    as (id & st1 & Eb & _ & Hcache & Hw & Hfin).
  destruct (Hd ck _ sv _ (command_decode (tid := tid) ioa v ACTIVATION _ Hi Hv ltac:(done) Hca) eq_refl) as [ev Ed].
  do 10 eexists. split; [rewrite Hh, Eb; reflexivity|]. split; [exact Ed|].
  split; [unfold handle_command_list; rewrite decode_from_payload by (by apply one_object_ok); reflexivity|].
  split; [by apply command_decode|]. do 2 (split; [reflexivity|]).
  split; [by apply (command_decode (tid := tid))|]. split; [by apply (command_decode (tid := tid))|].
  split_and!; [exact Hcache|exact Hw|exact Hfin].
Qed.

(** ** A value set by hand, end to end *)

(** A value that is set arrives: the request succeeds, exactly the point's
    value (and its quality, when one is given) changes in the image, and one
    ASDU is left to be broadcast, after whose receipt any client has cached
    the new value as far as the protocol can carry it. *)
Theorem set_mirrors ck ioa v q sv e :
  ss_image sv !! ioa = Some e -> image_typed (ss_image sv) -> value_typed (pe_kind e) v ->
  is_u16 (ss_coa sv) -> clock_ok ck ->
  let e' := mkEntry (pe_kind e) v (default (pe_quality e) q) (pe_schedule e) in
  ∃ outs b sv', server_handle ck (RqSet ioa v q) sv = Ok (RespOk RdEmpty, outs, Some b, sv') /\
    ss_image sv' = <[ioa := e']> (ss_image sv) /\
    ∀ st, cl_addressing st = IEC104 -> ∃ now,
      cache_get (pe_kind e) ioa (cl_cache (client_receive clock b st).1) =
        Some (mkCached (seen_value v) (seen_quality (pe_kind e) (pe_quality e')) (seen_time (pe_kind e) ck) now).
Proof.
  intros He Him Hv Hca Hck e'. cbn [server_handle]. unfold handle_set, Image_set. rewrite He, lookup_insert_eq.
  assert (report_cause (Cot_with SPONTANEOUS)) as Hcot by (by apply report_cause_intro).
  pose proof (point_arrives ck ioa e' (Cot_with SPONTANEOUS) (ss_coa sv)) as Hp.
  destruct (observe_logged _ _ _) as [logs t]. fold e'.
  destruct (Hp (ClientState_new 0) Hv (proj1 (Him _ _ He)) Hck Hcot Hca eq_refl) as (b & Eb & _). rewrite Eb.
  do 3 eexists. split; [done|]. split; [done|]. intros st Hst.
  destruct (Hp st Hv (proj1 (Him _ _ He)) Hck Hcot Hca Hst) as (b' & Eb' & Hr). rewrite Eb in Eb'. injection Eb' as <-.
  rewrite Hr.
  eexists. cbn [fst row_received feed_interrogation cl_cache with_collectors with_cache row_seen row_kind row_ioa row_value
    row_quality]. unfold cache_get, cache_update. apply lookup_insert_eq.
Qed.

End Rig.

(** ** Sample runs *)

Module RigSample.

#[local] Existing Instance slice_bytes.

Definition steps (n : nat) : Instant := Z.of_nat n.
Definition now : Z * Z := (1709164800, 7).
Definition in_order (A : Type) (l : list A) : list A := l.
(** A hash map that is iterated over backwards. *)
Definition backwards (A : Type) (l : list A) : list A := rev l.
Definition server : ServerState := ServerState_new Tcp 1.
Definition server_with (im : ProcessImage) : ServerState := mkServer im DeadbandTracker_new [] false Tcp 1.

Lemma backwards_perm A (l : list A) : backwards A l ≡ₚ l.
Proof. symmetry. apply Permutation_rev. Qed.

Lemma now_ok : clock_ok now.
Proof. done. Qed.
Lemma group_4_ok : group_ok (Some 4).
Proof. done. Qed.
Lemma coa_ok : is_u16 (ss_coa server).
Proof. done. Qed.

Lemma interrogation_mirrors_witness :
  group_ok (Some 4) /\ ∃ st t, cache_get MeNb 402 (cl_cache st) = Some (mkCached (PvScaled 0) QualityWire_default None t).
Proof.
  split; [done|].
  destruct (interrogation_mirrors steps in_order (fun _ => now) (Some 4) 1 [] server group_4_ok populate_default_typed
    coa_ok (fun _ => now_ok)) as (key & id & req & cl1 & outs & sv' & _ & _ & _ & _ & _ & H & _).
  destruct (H 402 (PointEntry_new MeNb (SsStepUp 2000 1 100))) as [t Ht]; [by vm_compute|done|].
  eexists _, t. exact Ht.
Defined.

Lemma interrogation_complete_witness :
  (length (selection (Some 4%Z) (ss_image server)) <= collector_capacity)%nat /\
  ∃ rows, Sorted row_le rows /\ length rows = 5%nat.
Proof.
  assert (length (selection (Some 4) (ss_image server)) = 5%nat) as Hl by (by vm_compute).
  assert (length (selection (Some 4%Z) (ss_image server)) <= collector_capacity)%nat as Hcap
    by (rewrite Hl; unfold collector_capacity; lia).
  split; [exact Hcap|].
  destruct (interrogation_complete steps backwards (fun _ => now) (Some 4) 1 [] server backwards_perm group_4_ok
    populate_default_typed coa_ok (fun _ => now_ok) Hcap)
    as (key & id & req & cl1 & outs & sv' & rows & cl3 & _ & _ & _ & Hp & Hs & _).
  exists rows. split; [exact Hs|]. by rewrite Hp, length_fmap.
Defined.

Lemma commands_confirmed_witness :
  is_command (RqCmdDouble 2100 true None) 2100 None /\
  ∃ asdu outs, handle_incoming_asdu (fun _ => now) asdu server = Ok (outs, server) /\ length outs = 5%nat.
Proof.
  split; [done|].
  destruct (commands_confirmed steps in_order (fun _ => now) 1 [] server (RqCmdDouble 2100 true None) 2100 None
    ltac:(done) ltac:(done) ltac:(done) ltac:(done))
    as (key & id & asdu & a & cl1 & outs & con & term & ev & ev' & _ & H & -> & _).
  eexists _, _. split; [exact H|done].
Defined.

Lemma set_mirrors_witness :
  value_typed MeNb (PvScaled (-7)) /\ ∃ st t,
    cache_get MeNb 400 (cl_cache st) = Some (mkCached (PvScaled (-7)) QualityWire_default None t).
Proof.
  split; [done|].
  destruct (set_mirrors steps now 400 (PvScaled (-7)) None server (PointEntry_new MeNb (SsStepUp 2000 1 100))
    ltac:(by vm_compute) populate_default_typed ltac:(done) ltac:(done) now_ok) as (outs & b & sv' & _ & _ & H).
  destruct (H (ClientState_new 1) eq_refl) as [t Ht]. eexists _, t. exact Ht.
Defined.

Lemma cache_newest_witness :
  let c := <[(SpNa, 7) := mkCached (PvSingle true) QualityWire_default None 5]>
           (<[(MeNb, 7) := mkCached (PvScaled 3) QualityWire_default None 9]> ∅) in
  (∀ A (l : list A), backwards A l ≡ₚ l) /\
  match get_by_ioa backwards 7 None c with
  | Some (k, p) => ∀ k' p', c !! (k', 7) = Some p' -> cp_received_at p' <= cp_received_at p
  | None => False
  end.
Proof.
  intros c. split; [exact backwards_perm|]. pose proof (cache_newest backwards 7 None c backwards_perm) as H.
  destruct (get_by_ioa backwards 7 None c) as [[k p]|].
  - intros k' p' Hc. destruct H as (_ & _ & H). by apply (H k' p').
  - by apply (H SpNa (mkCached (PvSingle true) QualityWire_default None 5)).
Defined.

(** The set-up of an evening at the rig: a value is set, the simulator ticks,
    a client interrogates and then sends junk. *)
Definition evening : list ServerInput :=
  [SiConnected 1; SiRequest now (RqSet 400 (PvScaled 41) None); SiTick true now 400 1; SiTick false now 300 1;
   SiRequest now (RqSimSet 100 SsNone); SiTick true now 500 9;
   SiAsdu (fun _ => now) (ic_asdu Qoi_GENERAL ACTIVATION 1); SiAsdu (fun _ => now) [104; 0; 255]].

Lemma server_type_sound_witness :
  Forall (input_typed (kinds (populate_default ∅))) evening /\
  ∃ outs st, server_run (fun x => x) server evening = Ok (outs, st) /\ no_error outs.
Proof.
  assert (Forall (input_typed (kinds (populate_default ∅))) evening) as H.
  { assert (kinds (populate_default ∅) !! 400 = Some MeNb) as H400 by (by vm_compute).
    unfold evening. revert H400. generalize (kinds (populate_default ∅)). intros K H400.
    rewrite !Forall_cons. split_and!; try exact I; [..|by apply Forall_nil].
    - intros k. rewrite H400. by intros [= <-].
    - intros k _. exact I.
    - change (octets (ic_asdu Qoi_GENERAL ACTIVATION 1)). apply (bool_decide_unpack _). by vm_compute.
    - change (octets [104; 0; 255]). apply (bool_decide_unpack _). by vm_compute. }
  split; [exact H|]. destruct (server_type_sound (fun x => x) Tcp 1 evening H) as (outs & st & E & Ho & _).
  exists outs, st. by split.
Defined.

(** ** Where the rig differs from what it says *)

(** The tasks of two requests for one point, of which the second one broadcasts
    first. *)
Definition crossed : list AsyncMove :=
  [AsSection (SiRequest now (RqSet 400 (PvScaled 1) None)); AsSection (SiRequest now (RqSet 400 (PvScaled 2) None));
   AsAfter 1; AsAfter 0].

(** A broadcast is made after the lock has been released, so two requests for
    one point can be broadcast in the other order: the client is left with
    the value that has been overwritten. *)
Example crossed_broadcasts :
  match async_run (fun x => x) server [] crossed with
  | Ok (outs, st, []) =>
      let received := omap (fun o => match o with SoBroadcast b => Some b | _ => None end) outs in
      (cp_value <$> cache_get MeNb 400 (cl_cache (receive_all steps received (ClientState_new 1))),
       pe_value <$> ss_image st !! 400) = (Some (PvScaled 1), Some (PvScaled 2))
  | _ => False
  end.
Proof. vm_compute. done. Qed.

(** The termination of one interrogation ends every other one of the station,
    whatever its qualifier. *)
Example foreign_termination :
  match interrogate_begin (Some 1) None (ClientState_new 1) with
  | Ok (_, _, _, st1) =>
      match interrogate_begin (Some 2) None st1 with
      | Ok (_, id2, _, st2) =>
          col_done <$> cl_collectors (receive_all steps [ic_asdu (mkQoi 21) ACTIVATION_TERMINATION 1] st2) !! id2
            = Some (Sent tt)
      | _ => False
      end
  | _ => False
  end.
Proof. vm_compute. done. Qed.

(** Of two equal interrogations at a time the first one to finish removes the
    collector of the other one, which is woken with what it has so far. *)
Example twin_interrogations :
  match interrogate_begin None None (ClientState_new 1) with
  | Ok (key, id1, _, st1) =>
      match interrogate_begin None None st1 with
      | Ok (_, id2, _, st2) =>
          let st3 := (interrogate_finish in_order key id1 st2).2 in
          (col_done <$> cl_collectors st3 !! id2, cl_interrogations st3 !! key) = (Some Dropped, None)
      | _ => False
      end
  | _ => False
  end.
Proof. vm_compute. done. Qed.

(** The control socket takes addresses of 32 bits. A command to one that does
    not fit three octets is confirmed by the server for the address cut to
    24 bits, and the request times out. *)
Example wide_address_unconfirmed :
  match client_handle in_order (RqCmdSingle 16777221 true None) (ClientState_new 1) with
  | Ok (WaitCommand key id asdu, cl1) =>
      match handle_incoming_asdu (fun _ => now) asdu server with
      | Ok (outs, _) =>
          (length (sent outs), (command_finish key id (receive_all steps (sent outs) cl1)).1)
            = (2%nat, RespErr (ReText "timeout waiting for ACTIVATION_CON"))
      | _ => False
      end
  | _ => False
  end.
Proof. vm_compute. done. Qed.

End RigSample.

(** The 257th point of an answer is dropped. *)
Lemma full_collector_drops row c : (collector_capacity <= length (col_items c))%nat -> push_item row c = c.
Proof. intros H. unfold push_item. by rewrite decide_False by lia. Qed.

(** An interrogation with a qualifier below 20 is confirmed, positively, as a
    station interrogation, and terminated without a point. *)
Lemma low_qualifier_rewritten `{BC : BytesCrate} ck q ca sv : 0 <= q < 20 -> is_u16 ca ->
  ∃ outs, handle_incoming_asdu ck (ic_asdu (mkQoi q) ACTIVATION ca) sv = Ok (outs, sv) /\
    sent outs = [ic_asdu Qoi_GENERAL ACTIVATION_CON (ss_coa sv); ic_asdu Qoi_GENERAL ACTIVATION_TERMINATION (ss_coa sv)].
Proof.
  intros Hq Hca. destruct (handle_ic ck (mkQoi q) ca sv) as [ev ->]; [unfold is_u8; cbn; lia|done|].
  rewrite decide_False by (unfold Qoi_GENERAL; intros [= ->]; lia). cbn [qoi_0].
  replace (Z.max 0 (q - 20)) with 0 by lia. eexists. by split.
Qed.

(** A value that does not match the kind of its point is encoded as zero,
    although [encode_point] is documented to return [None]. *)
Lemma mistyped_encodes `{BC : BytesCrate} clock ioa q s b cot ca :
  encode_point clock ioa (mkEntry MeNb (PvSingle b) q s) cot ca = encode_point clock ioa (mkEntry MeNb (PvScaled 0) q s) cot ca.
Proof. done. Qed.

(** A filter for a type that no point has lists every point. *)
Lemma unknown_filter_lists_all st : handle_list (Some 99) st = handle_list None st.
Proof. done. Qed.

(** [set], documented as update or insert, does not insert. *)
Lemma set_does_not_insert ioa v q im : im !! ioa = None -> Image_set ioa v q im = (false, im).
Proof. intros H. unfold Image_set. by rewrite H. Qed.
