(* ===== verification/RigView.v ===== *)
(** * The client's store and the server's filter

    The deadband filter of the test server keeps what it takes its peer to
    have. Here the peer is the client of TestClient.v, connected all the time
    and receiving everything in order: its store is what the filter believes,
    and so it is within the deadband of the image after every tick. *)

From S2P Require Import Prelude Bytes Codec AsduHeader InfoElements IoList Asdu AsduTypes.
From S2P Require Import Float64 Float32 Deadband Calendar Points Simulator TestServer TestClient TestRig.

#[local] Open Scope Z_scope.

(** ** ASDUs that carry no point *)

Definition monitored_types : list Z := [1; 3; 9; 11; 13; 30; 31; 34; 35; 36].

(** The type is the first octet. *)
Definition no_point (b : bytes) : Prop := ∃ tid rest, b = tid :: rest /\ tid ∉ monitored_types.

Section View.
Context `{BC : BytesCrate} (clock : nat -> Instant).

Lemma Asdu_decode_type ad t b a : run (Asdu_decode ad) (t :: b) = Ok a -> type_id a = t.
Proof.
  unfold run, Asdu_decode. destruct (le_lt_dec (header_len ad) (length (t :: b))) as [Hl|Hl].
  - erewrite dec_bind_ok by (by apply ensure_long). erewrite dec_bind_ok by apply get_u8_spec.
    unfold mbind, Dec_bind. destruct (Vsq_decode b) as [[v| |] b1]; try done.
    destruct (Cot_decode _ b1) as [[c| |] b2]; try done. destruct (decode_ca _ b2) as [[ca| |] b3]; try done.
    destruct (get_rest b3) as [[p| |] b4]; try done. by intros [= <-].
  - by erewrite dec_bind_err by (by apply ensure_short).
Qed.

Lemma no_point_received b st : no_point b ->
  cl_cache (client_receive clock b st).1 = cl_cache st /\
  cl_addressing (client_receive clock b st).1 = cl_addressing st.
Proof.
  intros (tid & rest & -> & Hm). unfold client_receive.
  destruct (run _ _) as [a| |] eqn:E; [|done..]. apply Asdu_decode_type in E. subst tid.
  assert (process_monitor clock a st = (st, [])) as Hp.
  { unfold process_monitor. unfold monitored_types in Hm. rewrite !not_elem_of_cons in Hm.
    repeat case_match; try done; tauto. }
  unfold process_asdu. rewrite Hp. repeat case_match; try done.
  unfold command_confirmed. repeat case_match; done.
Qed.

Lemma Asdu_encode_no_point a ad : type_id a ∉ monitored_types -> no_point (Asdu_encode a ad []).
Proof. intros H. rewrite Asdu_encode_app. by do 2 eexists. Qed.

(** The ASDUs a client of the server receives. *)
Definition asdus (outs : list ServerOut) : list bytes :=
  omap (fun o => match o with SoSend b | SoBroadcast b => Some b | _ => None end) outs.

Lemma asdus_app a b : asdus (a ++ b) = asdus a ++ asdus b.
Proof. apply omap_app. Qed.

Lemma no_points_received bs st : Forall no_point bs ->
  cl_cache (receive_all clock bs st) = cl_cache st /\
  cl_addressing (receive_all clock bs st) = cl_addressing st.
Proof.
  revert st. induction bs as [|b bs IH]; intros st Hb; [done|]. apply Forall_cons in Hb as [Hb Hbs].
  destruct (no_point_received b st Hb) as [H1 H2]. cbn [receive_all foldl].
  destruct (IH (client_receive clock b st).1 Hbs) as [H3 H4].
  split; [by etrans; [exact H3|]|by etrans; [exact H4|]].
Qed.

(** ** The filter's view *)

(** Every baseline is what the client has for the point, up to the wire. *)
Definition synced (K : gmap Ioa PointKind) (t : DeadbandTracker) (c : PointCache) : Prop :=
  ∀ ioa b, baselines t !! ioa = Some b -> ∃ k v q ts now,
    K !! ioa = Some k /\ value_typed k v /\
    c !! (k, ioa) = Some (mkCached (seen_value v) (seen_quality k q) ts now) /\
    entry_to_monitored (mkEntry k v q SsNone) = (bl_value b, bl_quality b).

Definition view_ok (K : gmap Ioa PointKind) (st : ServerState) (cl : ClientState) : Prop :=
  server_typed K st /\ is_u16 (ss_coa st) /\ cl_addressing cl = IEC104 /\ synced K (ss_tracker st) (cl_cache cl).

(** ** Points that are settled *)

(** The sample of a point of the image. *)
Definition sample (ioa : Ioa) (st : ServerState) : option (MonitoredValue * Qds) :=
  entry_to_monitored <$> ss_image st !! ioa.

(** The filter's baseline of the point is the image's sample, or one of its
    quality whose value the policy of the point does not tell from it. *)
Definition settled (ioa : Ioa) (st : ServerState) : Prop :=
  ∃ s b, sample ioa st = Some s /\ baselines (ss_tracker st) !! ioa = Some b /\ bl_quality b = s.2 /\
    (bl_value b = s.1 \/ indistinct (Tracker_policy (ss_tracker st) ioa) (bl_value b) s.1).
(** It is the sample itself. *)
Definition pinned (ioa : Ioa) (st : ServerState) : Prop :=
  ∃ s, sample ioa st = Some s /\ baselines (ss_tracker st) !! ioa = Some (mkBaseline s.1 s.2).
(** Nothing of the point is touched. *)
Definition untouched (ioa : Ioa) (st st' : ServerState) : Prop :=
  sample ioa st' = sample ioa st /\ baselines (ss_tracker st') !! ioa = baselines (ss_tracker st) !! ioa /\
  policies (ss_tracker st') !! ioa = policies (ss_tracker st) !! ioa.
Definition moved (ioa : Ioa) (st st' : ServerState) : Prop := untouched ioa st st' \/ pinned ioa st'.
(** What every section does that leaves the policies alone. *)
Definition kept (st st' : ServerState) : Prop := ss_coa st' = ss_coa st /\ ∀ ioa, moved ioa st st'.

Lemma untouched_refl ioa st : untouched ioa st st.
Proof. done. Qed.
Lemma moved_trans ioa st1 st2 st3 : moved ioa st1 st2 -> moved ioa st2 st3 -> moved ioa st1 st3.
Proof.
  intros H [(H1 & H2 & H3)|H']; [|by right]. destruct H as [(H4 & H5 & H6)|(s & Hs & Hb)].
  - left. split_and!; congruence.
  - right. exists s. split; congruence.
Qed.
Lemma kept_refl st : kept st st.
Proof. split; [done|]. intros ioa. left. apply untouched_refl. Qed.
Lemma kept_trans st1 st2 st3 : kept st1 st2 -> kept st2 st3 -> kept st1 st3.
Proof. intros [H1 H2] [H3 H4]. split; [congruence|]. intros ioa. by eapply moved_trans. Qed.
Lemma pinned_settled ioa st : pinned ioa st -> settled ioa st.
Proof. intros (s & Hs & Hb). exists s, (mkBaseline s.1 s.2). split_and!; try done. by left. Qed.
Lemma moved_settled ioa st st' : settled ioa st -> moved ioa st st' -> settled ioa st'.
Proof.
  intros (s & b & Hs & Hb & Hq & Hv) [(H1 & H2 & H3)|H]; [|by apply pinned_settled].
  exists s, b. unfold Tracker_policy in *. rewrite H1, H2, H3. by split_and!.
Qed.

(** A baseline is set to the sample of its point. *)
Lemma kept_baseline ioa st e : ss_image st !! ioa = Some e ->
  kept st (set_tracker (set_baseline ioa (entry_to_monitored e).1 (entry_to_monitored e).2 (ss_tracker st)) st).
Proof.
  intros He. split; [done|]. intros i. destruct (decide (i = ioa)) as [->|Hne].
  - right. exists (entry_to_monitored e). unfold sample. cbn [ss_image set_tracker ss_tracker set_baseline baselines].
    rewrite He, lookup_insert_eq. done.
  - left. split_and!; [done| |done]. cbn [ss_tracker set_tracker set_baseline baselines]. by rewrite lookup_insert_ne.
Qed.

(** A point that is reported and observed. *)
Lemma synced_point K st cl ioa e ck cot : view_ok K st cl -> ss_image st !! ioa = Some e -> clock_ok ck ->
  report_cause cot ->
  ∃ b, encode_point ck ioa e cot (ss_coa st) = Some b /\
    view_ok K (set_tracker (set_baseline ioa (entry_to_monitored e).1 (entry_to_monitored e).2 (ss_tracker st)) st)
      (client_receive clock b cl).1.
Proof.
  intros (Hst & Hca & Ha & Hs) He Hck Hcot. pose proof Hst as (HK & Him & _ & Ht). destruct (Him _ _ He) as [Hi Hty].
  destruct (point_arrives clock ck ioa e cot (ss_coa st) cl Hty Hi Hck Hcot Hca Ha) as (b & Eb & Hr).
  exists b. split; [done|]. rewrite Hr. split_and!; [|done|done|].
  - apply tracker_set_typed; [done|]. apply tracker_typed_set; [done|].
    rewrite (tracked_kind_entry _ _ _ _ HK He). by apply entry_sample_kind.
  - intros i b'. cbn [ss_tracker set_tracker baselines set_baseline]. intros Hb. apply lookup_insert_Some in Hb.
    cbn [fst row_received feed_interrogation cl_cache with_collectors with_cache row_seen row_kind row_ioa row_value
      row_quality]. unfold cache_update. destruct Hb as [[<- <-]|[Hne Hb]].
    + destruct e as [k v q s]. do 5 eexists. split_and!; [by apply (kinds_lookup _ _ _ _ HK He)|exact Hty|
        apply lookup_insert_eq|apply surjective_pairing].
    + destruct (Hs _ _ Hb) as (k & v & q & ts & now & H1 & H2 & H3 & H4). exists k, v, q, ts, now.
      split_and!; [done|done| |done]. rewrite lookup_insert_ne by congruence. done.
Qed.

Lemma observe_baseline K st ioa e : server_typed K st -> ss_image st !! ioa = Some e ->
  observe_logged ioa (entry_to_monitored e) (ss_tracker st) =
    ([], set_baseline ioa (entry_to_monitored e).1 (entry_to_monitored e).2 (ss_tracker st)).
Proof.
  intros (HK & Him & _ & Ht) He. unfold observe_logged.
  destruct (observe_cases ioa (entry_to_monitored e).1 (entry_to_monitored e).2 (ss_tracker st))
    as [[-> _]|(b & Hb & Hk & _)]; [done|].
  exfalso. apply Hk. rewrite (Ht _ _ Hb), (tracked_kind_entry _ _ _ _ HK He). symmetry. apply entry_sample_kind, (Him _ _ He).
Qed.

Lemma view_quiet K st st' cl bs : view_ok K st cl -> Forall no_point bs -> server_typed K st' ->
  ss_coa st' = ss_coa st -> baselines (ss_tracker st') = baselines (ss_tracker st) ->
  view_ok K st' (receive_all clock bs cl).
Proof.
  intros (Hst & Hca & Ha & Hs) Hq Hst' Hcoa Hb. destruct (no_points_received bs cl Hq) as [H1 H2].
  split_and!; [done|by rewrite Hcoa|by rewrite H2|]. intros ioa b. rewrite Hb, H1. apply Hs.
Qed.

Lemma report_points_view K ck cot ioas st cl : view_ok K st cl -> (∀ i, clock_ok (ck i)) -> report_cause cot ->
  view_ok K (report_points ck cot ioas st).2 (receive_all clock (asdus (report_points ck cot ioas st).1) cl) /\
  kept st (report_points ck cot ioas st).2.
Proof.
  intros Hv Hck Hcot. revert st cl Hv. induction ioas as [|ioa ioas IH]; intros st cl Hv; [split; [done|apply kept_refl]|].
  cbn [report_points].
  destruct (ss_image st !! ioa) as [e|] eqn:He; [|by apply IH].
  rewrite (observe_baseline K st ioa e (proj1 Hv) He).
  destruct (synced_point K st cl ioa e (ck ioa) cot Hv He (Hck ioa) Hcot) as (b & -> & Hv').
  destruct (IH _ _ Hv') as [H1 H2]. destruct (report_points _ _ _ _) as [rest st']. cbn [fst snd] in *. split; [done|].
  eapply kept_trans; [|exact H2]. by apply kept_baseline.
Qed.

(** ** Every input of the server *)

(** The ASDUs of [outs] have been received. *)
Definition seen_by (outs : list ServerOut) (cl : ClientState) : ClientState := receive_all clock (asdus outs) cl.

Lemma seen_by_app a b cl : seen_by (a ++ b) cl = seen_by b (seen_by a cl).
Proof. unfold seen_by, receive_all. by rewrite asdus_app, foldl_app. Qed.

Definition quiet_outs (outs : list ServerOut) : Prop := Forall no_point (asdus outs).

Lemma ic_no_point qoi cause ca : no_point (ic_asdu qoi cause ca).
Proof. apply Asdu_encode_no_point. unfold monitored_types. cbn. set_solver. Qed.

Lemma view_refl K st cl outs : view_ok K st cl -> quiet_outs outs -> view_ok K st (seen_by outs cl).
Proof. intros Hv Hq. apply (view_quiet K st st cl); try done. apply Hv. Qed.

(** An answer between two ASDUs of its own. *)
Lemma answer_view K ck cot ioas ack term st cl : view_ok K st cl -> (∀ i, clock_ok (ck i)) -> report_cause cot ->
  quiet_outs ack -> quiet_outs term ->
  view_ok K (report_points ck cot ioas st).2 (seen_by (ack ++ (report_points ck cot ioas st).1 ++ term) cl) /\
  kept st (report_points ck cot ioas st).2.
Proof.
  intros Hv Hck Hcot Ha Ht. rewrite !seen_by_app.
  destruct (report_points_view K ck cot ioas st (seen_by ack cl) (view_refl _ _ _ _ Hv Ha) Hck Hcot) as [H1 H2].
  split; [|done]. by apply view_refl.
Qed.

Lemma command_quiet {tid V} `{!TypeId tid, !InfoElement V} a ca : tid ∉ monitored_types ->
  quiet_outs (handle_command_list (tid := tid) (V := V) a ca).
Proof.
  intros Hm. unfold handle_command_list. destruct (res_ok _); [|constructor].
  repeat constructor; by apply Asdu_encode_no_point.
Qed.

Lemma general_view K ck st cl : view_ok K st cl -> (∀ i, clock_ok (ck i)) ->
  view_ok K (respond_interrogation_general ck st).2 (seen_by (respond_interrogation_general ck st).1 cl) /\
  kept st (respond_interrogation_general ck st).2.
Proof.
  intros Hv Hck. unfold respond_interrogation_general. set (ioas := sort_ioas _).
  set (ack := [SoSend _]). set (term := [SoSend _; _]).
  destruct (answer_view K ck (Cot_with INTERROGATED_GENERAL) ioas ack term st cl Hv Hck) as [H1 H2];
    [by apply report_cause_intro|repeat constructor; apply ic_no_point..|].
  destruct (report_points _ _ _ _) as [points st']. by split.
Qed.

Lemma group_view K ck g st cl : view_ok K st cl -> (∀ i, clock_ok (ck i)) -> 0 <= g < 236 ->
  ∃ outs st', respond_interrogation_group ck g st = Ok (outs, st') /\ view_ok K st' (seen_by outs cl) /\
    kept st st'.
Proof.
  intros Hv Hck Hg. unfold respond_interrogation_group, Qoi_group. rewrite decide_True by lia.
  set (ack := SoSend (encode_asdu_bytes_list _ (Cot_with ACTIVATION_CON) _)).
  set (term := SoSend (encode_asdu_bytes_list _ (Cot_with ACTIVATION_TERMINATION) _)).
  destruct (kind_for_group g) as [k|] eqn:Hk.
  - pose proof (kind_for_group_range _ _ Hk). unfold interrogated_group. rewrite decide_True by lia.
    destruct (answer_view K ck (Cot_with (20 + g)) (sort_ioas (fst <$> iter_kind k (ss_image st))) [ack] [term] st cl Hv Hck)
      as [H1 H2]; [apply report_cause_intro; unfold ACTIVATION_CON; lia|repeat constructor; apply ic_no_point..|].
    destruct (report_points _ _ _ _) as [points st']. by do 2 eexists.
  - do 2 eexists. split; [done|]. split; [|apply kept_refl]. apply view_refl; [done|]. repeat constructor; apply ic_no_point.
Qed.

Lemma handle_incoming_view K ck b st cl : view_ok K st cl -> octets b -> (∀ i, clock_ok (ck i)) ->
  ∃ outs st', handle_incoming_asdu ck b st = Ok (outs, st') /\ view_ok K st' (seen_by outs cl) /\ kept st st'.
Proof.
  intros Hv Hb Hck. pose proof (kept_refl st) as Hk0. unfold handle_incoming_asdu, run. pose proof (Asdu_decode_exact IEC104 b Hb) as Hd.
  destruct (_ <? _)%nat; [rewrite Hd; cbn [fst]; by do 2 eexists|].
  destruct Hd as (a & -> & (_ & _ & _ & _ & Hp) & _). cbn [fst].
  set (rcv := SoEvent _).
  assert (∀ outs, quiet_outs outs -> ∃ outs' st', Ok (rcv :: outs, st) = Ok (outs', st') /\
    view_ok K st' (seen_by outs' cl) /\ kept st st') as Hr.
  { intros outs Hq. do 2 eexists. split; [done|]. split; [|done]. by apply view_refl. }
  assert (∀ {P} `{!AsduPayload P} (p : P) cot ca, TYPE_ID (P := P) ∉ monitored_types ->
    quiet_outs [SoSend (encode_asdu_bytes p cot ca)]) as H1
    by (intros; repeat constructor; by apply Asdu_encode_no_point).
  assert (quiet_outs []) as H0 by constructor.
  repeat case_match; subst; try (by apply Hr);
    try (apply Hr, command_quiet; unfold monitored_types; set_solver);
    try (apply Hr, H1; unfold monitored_types; cbn; set_solver).
  - destruct (general_view K ck st cl Hv Hck) as [H2 H3].
    match goal with H : respond_interrogation_general _ _ = _ |- _ => rewrite H in H2, H3 end.
    do 2 eexists. split; [done|]. by split.
  - edestruct (group_view K ck) as (outs & st' & E & H2 & H3); [exact Hv|exact Hck|by eapply ic_group_range|].
    match goal with H : respond_interrogation_group _ _ _ = Ok (?l, ?s) |- context [Ok (rcv :: ?l, ?s)] =>
      assert ((l, s) = (outs, st')) as [= -> ->] by congruence end.
    do 2 eexists. split; [done|]. by split.
  - edestruct (group_view K ck) as (outs & st' & E & _); [exact Hv|exact Hck|by eapply ic_group_range|congruence].
  - edestruct (group_view K ck) as (outs & st' & E & _); [exact Hv|exact Hck|by eapply ic_group_range|congruence].
Qed.

Lemma qds_from_wire_inj q q' : qds_from_wire q = qds_from_wire q' -> q = q'.
Proof. by destruct q as [[] [] [] [] []], q' as [[] [] [] [] []]. Qed.

(** The client's entry for [e] has its quality, and its value is that of [e]
    or one that the policy of the point does not tell from it. *)
Definition within (p : DeadbandPolicy) (ioa : Ioa) (e : PointEntry) (c : PointCache) : Prop :=
  ∃ v ts now, value_typed (pe_kind e) v /\
    c !! (pe_kind e, ioa) = Some (mkCached (seen_value v) (seen_quality (pe_kind e) (pe_quality e)) ts now) /\
    let old := (entry_to_monitored (mkEntry (pe_kind e) v (pe_quality e) SsNone)).1 in
    let new := (entry_to_monitored e).1 in
    old = new \/ indistinct p old new.

(** A baseline that the policy does not tell from the image is within. *)
Lemma synced_within K st cl ioa e b : view_ok K st cl -> ss_image st !! ioa = Some e ->
  baselines (ss_tracker st) !! ioa = Some b -> bl_quality b = (entry_to_monitored e).2 ->
  bl_value b = (entry_to_monitored e).1 \/
    indistinct (Tracker_policy (ss_tracker st) ioa) (bl_value b) (entry_to_monitored e).1 ->
  within (Tracker_policy (ss_tracker st) ioa) ioa e (cl_cache cl).
Proof.
  intros ((HK & _) & _ & _ & Hs) He Hb Hq Hv. destruct (Hs _ _ Hb) as (k & v & q & ts & now & Hk & Hty & Hc & Hm).
  rewrite (kinds_lookup _ _ _ _ HK He) in Hk. injection Hk as <-.
  assert (q = pe_quality e) as ->.
  { apply qds_from_wire_inj. unfold entry_to_monitored in Hm, Hq. cbn [snd pe_quality] in *. by injection Hm as _ ->. }
  exists v, ts, now. split; [done|]. split; [done|]. cbn zeta. by rewrite Hm.
Qed.

Lemma settled_within K st cl ioa e : view_ok K st cl -> ss_image st !! ioa = Some e -> settled ioa st ->
  within (Tracker_policy (ss_tracker st) ioa) ioa e (cl_cache cl).
Proof.
  intros Hv He (s & b & Hs & Hb & Hq & Hval). unfold sample in Hs. rewrite He in Hs. injection Hs as <-.
  by eapply synced_within.
Qed.

(** Clocks that can be read. *)
Definition clocks_ok (i : ServerInput) : Prop :=
  match i with
  | SiRequest ck _ => clock_ok ck
  | SiTick _ ck _ _ => clock_ok ck
  | SiAsdu ck _ => ∀ ioa, clock_ok (ck ioa)
  | _ => True
  end.

Lemma spontaneous_ok : report_cause (Cot_with SPONTANEOUS).
Proof. by apply report_cause_intro. Qed.

Lemma view_set_image K st cl im : view_ok K st cl -> server_typed K (set_image im st) -> view_ok K (set_image im st) cl.
Proof. intros (_ & Hca & Ha & Hs) Hst. by split_and!. Qed.

(** The sections of a set and of a tick: a point gets a new entry and perhaps
    a new baseline. *)
Lemma untouched_other i st im t : im !! i = ss_image st !! i ->
  baselines t !! i = baselines (ss_tracker st) !! i -> policies t = policies (ss_tracker st) ->
  untouched i st (set_tracker t (set_image im st)).
Proof.
  intros Him Hb Hp. unfold untouched, sample. cbn [ss_image set_tracker set_image ss_tracker].
  rewrite Him, Hb, Hp. done.
Qed.

Lemma set_view K ck ioa v q st cl : view_ok K st cl -> clock_ok ck -> (∀ k, K !! ioa = Some k -> value_typed k v) ->
  ∃ r outs b st', handle_set ck ioa v q st = Ok (r, outs, b, st') /\
    view_ok K st' (seen_by (outs ++ to_broadcast b) cl) /\ kept st st' /\
    (is_Some (ss_image st !! ioa) -> settled ioa st').
Proof.
  intros Hv Hck Hty. pose proof Hv as (Hst & _). unfold handle_set.
  destruct (ss_image st !! ioa) as [e|] eqn:He; unfold Image_set; rewrite He.
  2: { do 4 eexists. split; [done|]. split; [exact Hv|]. split; [apply kept_refl|by intros []]. }
  pose proof (set_value_typed K st ioa e v q Hst He (Hty _ (kinds_lookup _ _ _ _ (proj1 Hst) He))) as Hs.
  unfold Image_set in Hs. rewrite He in Hs. cbn [snd] in Hs. rewrite lookup_insert_eq. set (e' := mkEntry _ _ _ _) in *.
  assert (ss_image (set_image (<[ioa:=e']> (ss_image st)) st) !! ioa = Some e') as He' by apply lookup_insert_eq.
  pose proof (observe_baseline K _ ioa e' Hs He') as Ho. cbn [ss_tracker set_image] in Ho. rewrite Ho.
  destruct (synced_point K _ cl ioa e' ck _ (view_set_image _ _ _ _ Hv Hs) He' Hck spontaneous_ok) as (b & Eb & Hv').
  cbn [ss_coa set_image] in Eb. rewrite Eb. do 4 eexists. split; [done|]. split; [exact Hv'|].
  assert (pinned ioa (set_tracker (set_baseline ioa (entry_to_monitored e').1 (entry_to_monitored e').2 (ss_tracker st))
    (set_image (<[ioa:=e']> (ss_image st)) st))) as Hp.
  { exists (entry_to_monitored e'). unfold sample. cbn [ss_image set_tracker set_image ss_tracker set_baseline baselines].
    by rewrite !lookup_insert_eq. }
  split; [split; [done|]|by intros _; apply pinned_settled]. intros i.
  destruct (decide (i = ioa)) as [->|Hne]; [by right|]. left.
  apply untouched_other; cbn [set_baseline baselines policies]; [by rewrite lookup_insert_ne..|done].
Qed.

Lemma tick_view sin K coin ck ioa n st cl : view_ok K st cl -> clock_ok ck ->
  (server_tick sin coin ck ioa n st = Ok (None, st) /\ ss_image st !! ioa = None) \/
  ∃ outs b ev e st', server_tick sin coin ck ioa n st = Ok (Some (outs, b, ev), st') /\
    view_ok K st' (seen_by (outs ++ to_broadcast b ++ [SoEvent ev]) cl) /\ ss_coa st' = ss_coa st /\
    ss_image st' !! ioa = Some e /\ settled ioa st' /\ (∀ i, i ≠ ioa -> untouched i st st').
Proof.
  intros Hv Hck. pose proof Hv as (Hst & _). unfold server_tick.
  destruct (ss_image st !! ioa) as [e|] eqn:He; [|by left]. right. pose proof Hst as (HK & Him & Hf & Ht).
  destruct (advance_typed sin coin (pe_kind e) (pe_schedule e) (pe_value e) n) as (next & Ha & Hn);
    [apply (Him _ _ He)|apply (Hf _ _ He)|].
  unfold advance_value. rewrite Ha.
  set (image := match next with Some v => (Image_set ioa v None (ss_image st)).2 | None => ss_image st end).
  assert (server_typed K (set_image image st)) as Hs.
  { unfold image. destruct next as [v|]; [by eapply set_value_typed|]. by destruct st. }
  assert (∃ e', image !! ioa = Some e') as [e' He'].
  { unfold image. destruct next as [v|]; [|by eauto]. unfold Image_set. rewrite He. cbn [snd]. rewrite lookup_insert_eq. eauto. }
  assert (∀ i, i ≠ ioa -> image !! i = ss_image st !! i) as Hother.
  { intros i Hne. unfold image. destruct next as [v|]; [|done]. unfold Image_set. rewrite He. cbn [snd].
    by rewrite lookup_insert_ne. }
  rewrite He'. set (st1 := set_image image st) in *. change (ss_tracker st) with (ss_tracker st1).
  pose proof (view_set_image K st cl image Hv Hs) as Hv1. fold st1 in Hv1. change (image !! ioa) with (ss_image st1 !! ioa) in He'.
  destruct (evaluate_cases ioa (entry_to_monitored e').1 (entry_to_monitored e').2 (ss_tracker st1)) as [_|v0 Hb Hk Hi|b Hb Hk].
  - destruct (synced_point K st1 cl ioa e' ck _ Hv1 He' Hck spontaneous_ok) as (b & Eb & Hv').
    change (ss_coa st1) with (ss_coa st) in Eb. rewrite Eb. do 5 eexists. split; [done|].
    split; [exact Hv'|]. split; [done|]. split; [exact He'|]. split.
    + apply pinned_settled. exists (entry_to_monitored e'). unfold sample.
      cbn [ss_image set_tracker ss_tracker set_baseline baselines]. by rewrite He', lookup_insert_eq.
    + intros i Hne. apply untouched_other; [by apply Hother| |done]. cbn [set_baseline baselines]. by rewrite lookup_insert_ne.
  - do 5 eexists. split; [done|]. split; [exact Hv1|]. split; [done|]. split; [exact He'|].
    split; [|intros i Hne; apply untouched_other; [by apply Hother|done..]].
    exists (entry_to_monitored e'), (mkBaseline v0 (entry_to_monitored e').2). unfold sample.
    cbn [ss_image set_tracker ss_tracker]. rewrite He'. split_and!; [done|exact Hb|done|by right].
  - exfalso. destruct Hs as (HK' & Him' & _ & Ht'). apply Hk.
    rewrite (Ht' _ _ Hb), (tracked_kind_entry _ _ _ _ HK' He'). symmetry. apply entry_sample_kind, (Him' _ _ He').
Qed.

(** The inputs that set the value of the point or let it tick, and those that
    change its policy. *)
Definition renews (ioa : Ioa) (i : ServerInput) : bool :=
  match i with
  | SiTick _ _ i' _ | SiRequest _ (RqSet i' _ _) => i' =? ioa
  | _ => false
  end.
Definition retunes (ioa : Ioa) (i : ServerInput) : bool :=
  match i with SiRequest _ (RqSetDeadband i' _) => i' =? ioa | _ => false end.

(** What one input does to the points that are settled. *)
Definition settles (i : ServerInput) (st st' : ServerState) : Prop :=
  ∀ ioa, is_Some (ss_image st !! ioa) -> retunes ioa i = false -> settled ioa st \/ renews ioa i = true ->
  settled ioa st'.

Lemma moved_settles i st st' : (∀ ioa, moved ioa st st' \/ retunes ioa i = true) ->
  (∀ ioa, is_Some (ss_image st !! ioa) -> renews ioa i = true -> settled ioa st') -> settles i st st'.
Proof.
  intros Hm Hr ioa Him Ht [Hs|H]; [|by apply Hr]. destruct (Hm ioa) as [H|H]; [by eapply moved_settled|congruence].
Qed.
Lemma quiet_settles i st st' : (∀ ioa, moved ioa st st' \/ retunes ioa i = true) -> (∀ ioa, renews ioa i = false) ->
  settles i st st'.
Proof. intros Hm Hr. apply moved_settles; [done|]. intros ioa _. by rewrite Hr. Qed.

Lemma sim_set_untouched ioa s st i : untouched i st (set_image (Image_set_schedule ioa s (ss_image st)) st).
Proof.
  split_and!; [|done..]. unfold sample, Image_set_schedule. cbn [ss_image set_image].
  destruct (decide (i = ioa)) as [->|Hne]; [rewrite lookup_alter_eq|by rewrite lookup_alter_ne].
  by destruct (ss_image st !! ioa).
Qed.

Lemma request_view sin K ck req st cl : view_ok K st cl -> clock_ok ck -> input_typed K (SiRequest ck req) ->
  ∃ outs st', server_step sin st (SiRequest ck req) = Ok (outs, st') /\ view_ok K st' (seen_by outs cl) /\
    settles (SiRequest ck req) st st'.
Proof.
  intros Hv Hck Hi. destruct (server_step_typed sin K st _ (proj1 Hv) Hi) as (outs & st' & E & _ & Hst').
  destruct req as [|ioa v q| | |ioa s|ioa p|ioa| | | | | | | | | | |];
    try (do 2 eexists; split; [reflexivity|]; split; [exact Hv|apply quiet_settles; [|done]; intros ?; left; apply kept_refl]).
  - destruct (set_view K ck ioa v q st cl Hv Hck Hi) as (r & outs' & b & st'' & Es & Hv' & [_ Hk] & Hs).
    cbn [server_step server_handle]. rewrite Es. do 2 eexists. split; [done|]. split; [exact Hv'|].
    apply moved_settles; [by left|]. intros i Him Hr. apply Z.eqb_eq in Hr as <-. by apply Hs.
  - exists outs, st'. split; [exact E|]. cbn [server_step server_handle] in E. unfold handle_sim_set in E.
    destruct (ss_image st !! ioa); injection E as <- <-.
    + split; [by apply view_set_image|]. apply quiet_settles; [|done]. intros i. left. left. apply sim_set_untouched.
    + split; [done|]. apply quiet_settles; [|done]. intros i. left. apply kept_refl.
  - do 2 eexists. split; [reflexivity|]. split; [exact Hv|]. apply quiet_settles; [|done]. intros i.
    destruct (Z.eqb_spec ioa i) as [->|Hne]; [right; apply Z.eqb_refl|]. left. left. split_and!; [done..|].
    cbn [ss_tracker set_tracker Tracker_set_policy policies]. by rewrite lookup_insert_ne.
Qed.

Lemma step_view sin K i st cl : view_ok K st cl -> clocks_ok i -> input_typed K i ->
  ∃ outs st', server_step sin st i = Ok (outs, st') /\ view_ok K st' (seen_by outs cl) /\ settles i st st'.
Proof.
  intros Hv Hck Hi.
  assert (∀ i st', untouched i st st' -> moved i st st') as Hu by (by left).
  destruct i as [ck req|coin ck ioa n|ck b|addr|addr|].
  - by apply request_view.
  - cbn [server_step]. destruct (tick_view sin K coin ck ioa n st cl Hv Hck)
      as [[-> Hn]|(outs & b & ev & e & st' & -> & H & _ & _ & Hs & Ho)]; do 2 eexists; (split; [done|]); (split; [done|]).
    + apply moved_settles; [left; apply kept_refl|]. intros i Him Hr. apply Z.eqb_eq in Hr as <-. rewrite Hn in Him. by destruct Him.
    + intros i Him _ Hor. destruct (decide (i = ioa)) as [->|Hne]; [done|].
      destruct Hor as [Hi'|Hr]; [|by apply Z.eqb_eq in Hr]. eapply moved_settled; [done|]. apply Hu, (Ho i Hne).
  - destruct (handle_incoming_view K ck b st cl Hv Hi Hck) as (outs & st' & E & H & _ & Hm). do 2 eexists.
    split; [exact E|]. split; [exact H|]. apply quiet_settles; [by left|done].
  - do 2 eexists. split; [done|]. split; [done|]. apply quiet_settles; [left; by apply Hu|done].
  - do 2 eexists. split; [done|]. split; [done|]. apply quiet_settles; [left; by apply Hu|done].
  - do 2 eexists. split; [done|]. split; [done|]. apply quiet_settles; [left; by apply Hu|done].
Qed.

(** Whether the point has been set or has ticked since its policy was last
    changed; [b] says so for the inputs before. *)
Definition renewed (ioa : Ioa) (b : bool) (i : ServerInput) : bool :=
  renews ioa i || b && negb (retunes ioa i).
Definition up_to_date (ioa : Ioa) (inputs : list ServerInput) : bool := foldl (renewed ioa) false inputs.

Lemma run_view sin K inputs st cl : view_ok K st cl -> Forall clocks_ok inputs -> Forall (input_typed K) inputs ->
  ∃ outs st', server_run sin st inputs = Ok (outs, st') /\ view_ok K st' (seen_by outs cl) /\
    ∀ ioa k b, K !! ioa = Some k -> (b = true -> settled ioa st) -> foldl (renewed ioa) b inputs = true -> settled ioa st'.
Proof.
  intros Hv Hck Hi. revert st cl Hv. induction Hck as [|i inputs Hck _ IH]; intros st cl Hv.
  { do 2 eexists. split; [done|]. split; [done|]. intros ioa k b _ Hb H. by apply Hb. }
  apply Forall_cons in Hi as [Hi Hs]. destruct (step_view sin K i st cl Hv Hck Hi) as (outs & st1 & E & Hv1 & Hst).
  destruct (IH Hs _ _ Hv1) as (outs' & st2 & E' & Hv2 & Hst2). exists (outs ++ outs'), st2. cbn [server_run].
  rewrite E, E', seen_by_app. split; [done|]. split; [done|]. intros ioa k b Hk Hb. cbn [foldl]. intros H.
  apply (Hst2 ioa k _ Hk) in H; [done|]. unfold renewed. intros Hr. apply Hst.
  - destruct Hv as ((HK & _) & _). rewrite <- HK in Hk. unfold kinds in Hk. rewrite lookup_fmap in Hk.
    by destruct (ss_image st !! ioa).
  - destruct i as [ck []| | | | |]; try done. revert Hr. cbn. by destruct (_ =? _), b.
  - apply orb_true_iff in Hr as [Hr|Hr]; [by right|]. apply andb_true_iff in Hr as [Hr _]. left. by apply Hb.
Qed.

Lemma view_new kind coa : is_u16 coa -> view_ok (kinds (populate_default ∅)) (ServerState_new kind coa) (ClientState_new coa).
Proof. intros Hca. split_and!; [apply server_new_typed|done|done|]. intros ioa b Hb. done. Qed.

Lemma view_within sin kind coa inputs coin ck ioa n k :
  let K := kinds (populate_default ∅) in
  is_u16 coa -> Forall clocks_ok inputs -> Forall (input_typed K) inputs -> clock_ok ck -> K !! ioa = Some k ->
  ∃ outs st e, server_run sin (ServerState_new kind coa) (inputs ++ [SiTick coin ck ioa n]) = Ok (outs, st) /\
    ss_image st !! ioa = Some e /\ pe_kind e = k /\
    within (Tracker_policy (ss_tracker st) ioa) ioa e (cl_cache (seen_by outs (ClientState_new coa))).
Proof.
  intros K Hca Hcks Hi Hck Hk. destruct (run_view sin K inputs _ _ (view_new kind coa Hca) Hcks Hi) as (outs & st & E & Hv & _).
  destruct (tick_view sin K coin ck ioa n st _ Hv Hck) as [[_ He]|(outs' & b & ev & e & st' & E' & Hv' & _ & He & Hs & _)].
  - exfalso. destruct Hv as ((HK & _) & _). revert Hk. rewrite <- HK. unfold kinds. by rewrite lookup_fmap, He.
  - exists (outs ++ (outs' ++ to_broadcast b ++ [SoEvent ev])), st', e. split; [|split; [done|]].
    + eapply server_run_snoc; [exact E|]. cbn [server_step]. by rewrite E'.
    + split; [|rewrite seen_by_app; by eapply settled_within]. destruct Hv' as ((HK & _) & _).
      pose proof (kinds_lookup _ _ _ _ HK He) as Hk'. congruence.
Qed.

(** The same for every point that is up to date. *)
Lemma all_within sin kind coa inputs :
  let K := kinds (populate_default ∅) in
  is_u16 coa -> Forall clocks_ok inputs -> Forall (input_typed K) inputs ->
  ∃ outs st, server_run sin (ServerState_new kind coa) inputs = Ok (outs, st) /\
    ∀ ioa e, ss_image st !! ioa = Some e -> up_to_date ioa inputs = true ->
      within (Tracker_policy (ss_tracker st) ioa) ioa e (cl_cache (seen_by outs (ClientState_new coa))).
Proof.
  intros K Hca Hcks Hi.
  destruct (run_view sin K inputs _ _ (view_new kind coa Hca) Hcks Hi) as (outs & st & E & Hv & Hs).
  exists outs, st. split; [exact E|]. intros ioa e He Hu. apply (settled_within K); [done..|].
  apply (Hs ioa (pe_kind e) false); [|done..]. destruct Hv as ((HK & _) & _). by apply (kinds_lookup st).
Qed.


End View.

(** ** A sample run *)

Module ViewSample.

#[local] Existing Instance slice_bytes.

Definition noon : Z * Z := (1709164800, 7).
(** A threshold of 3 for the scaled point 400, which then moves by 2: the
    client is left with what it has. *)
Definition morning : list ServerInput :=
  [SiConnected 1; SiRequest noon (RqSet 400 (PvScaled 41) None);
   SiRequest noon (RqSetDeadband 400 (DwAbsolute (f64_of_int 3)));
   SiRequest noon (RqSimSet 400 (SsStepUp 1000 2 100));
   SiAsdu (fun _ => noon) [104; 0; 255]].

Lemma morning_ok : Forall clocks_ok morning /\ Forall (input_typed (kinds (populate_default ∅))) morning /\
  kinds (populate_default ∅) !! 400 = Some MeNb.
Proof.
  assert (kinds (populate_default ∅) !! 400 = Some MeNb) as H400 by (by vm_compute).
  split; [by repeat constructor|]. split; [|exact H400]. unfold morning. revert H400.
  generalize (kinds (populate_default ∅)). intros K H400.
  rewrite !Forall_cons. split_and!; try exact I; [..|by apply Forall_nil].
  - intros k. rewrite H400. by intros [= <-].
  - intros k. rewrite H400. intros [= <-]. cbn. unfold is_i32. split; [by left|lia].
  - change (octets [104; 0; 255]). apply (bool_decide_unpack _). by vm_compute.
Qed.


(** In this run the image has 43 and the client 41. *)
Example morning_withheld :
  match server_run (fun x => x) (ServerState_new Tcp 1) (morning ++ [SiTick false noon 400 1]) with
  | Ok (outs, st) =>
      (pe_value <$> ss_image st !! 400,
       cp_value <$> cl_cache (seen_by (fun n => Z.of_nat n) outs (ClientState_new 1)) !! (MeNb, 400))
      = (Some (PvScaled 43), Some (PvScaled 41))
  | _ => False
  end.
Proof. vm_compute. done. Qed.

End ViewSample.
