(* ===== verification/Channels.v ===== *)
(** * Bounded channels

    The tasks of the tokio crate talk through [tokio::sync::mpsc]. That crate
    is not part of the repository: [Mpsc] holds the operations the handles
    use, on the state both ends share, and the documented behaviour of each as
    a law. A [send] on a full channel and a [recv] on an empty one wait, which
    is [None]; what a receiver that is gone leaves in the channel is not said.
    [list_channels] shows that the laws can hold. *)

From S2P Require Import Prelude.

Class Mpsc := {
  chan : Type -> Type;
  mpsc_channel : ∀ {A}, nat -> chan A;
  (* [Sender::send]: whether the receiver is still there *)
  mpsc_send : ∀ {A}, A -> chan A -> option (bool * chan A);
  (* [Receiver::recv]: the next item, or that every sender is gone *)
  mpsc_recv : ∀ {A}, chan A -> option (option A * chan A);
  mpsc_drop_tx : ∀ {A}, chan A -> chan A;
  mpsc_drop_rx : ∀ {A}, chan A -> chan A;

  queued : ∀ {A}, chan A -> list A;
  capacity : ∀ {A}, chan A -> nat;
  tx_alive : ∀ {A}, chan A -> bool;
  rx_alive : ∀ {A}, chan A -> bool;

  channel_law : ∀ {A} n, let c := mpsc_channel (A := A) n in
    queued c = [] /\ capacity c = n /\ tx_alive c = true /\ rx_alive c = true;
  send_law : ∀ {A} (x : A) c,
    match mpsc_send x c with
    | None => rx_alive c = true /\ (capacity c <= length (queued c))%nat
    | Some (true, c') => rx_alive c = true /\ (length (queued c) < capacity c)%nat /\
        queued c' = queued c ++ [x] /\ capacity c' = capacity c /\
        tx_alive c' = tx_alive c /\ rx_alive c' = true
    | Some (false, c') => rx_alive c = false /\ c' = c
    end;
  recv_law : ∀ {A} (c : chan A),
    match mpsc_recv c with
    | None => queued c = [] /\ tx_alive c = true
    | Some (Some x, c') => queued c = x :: queued c' /\ capacity c' = capacity c /\
        tx_alive c' = tx_alive c /\ rx_alive c' = rx_alive c
    | Some (None, c') => queued c = [] /\ tx_alive c = false /\ c' = c
    end;
  drop_tx_law : ∀ {A} (c : chan A), let c' := mpsc_drop_tx c in
    queued c' = queued c /\ capacity c' = capacity c /\ tx_alive c' = false /\ rx_alive c' = rx_alive c;
  drop_rx_law : ∀ {A} (c : chan A), let c' := mpsc_drop_rx c in
    capacity c' = capacity c /\ tx_alive c' = tx_alive c /\ rx_alive c' = false }.

(** ** The laws can hold *)

Record ListChan (A : Type) := mkListChan {
  lc_queue : list A; lc_cap : nat; lc_tx : bool; lc_rx : bool }.
Arguments mkListChan {A}.
Arguments lc_queue {A}.
Arguments lc_cap {A}.
Arguments lc_tx {A}.
Arguments lc_rx {A}.

#[refine] Instance list_channels : Mpsc := {
  chan := ListChan;
  mpsc_channel A n := mkListChan [] n true true;
  mpsc_send A x c :=
    if negb (lc_rx c) then Some (false, c)
    else if (length (lc_queue c) <? lc_cap c)%nat
    then Some (true, mkListChan (lc_queue c ++ [x]) (lc_cap c) (lc_tx c) (lc_rx c))
    else None;
  mpsc_recv A c :=
    match lc_queue c with
    | x :: q => Some (Some x, mkListChan q (lc_cap c) (lc_tx c) (lc_rx c))
    | [] => if lc_tx c then None else Some (None, c)
    end;
  mpsc_drop_tx A c := mkListChan (lc_queue c) (lc_cap c) false (lc_rx c);
  mpsc_drop_rx A c := mkListChan [] (lc_cap c) (lc_tx c) false;
  queued A := lc_queue; capacity A := lc_cap; tx_alive A := lc_tx; rx_alive A := lc_rx }.
Proof.
  - done.
  - intros A x [q n t r]. simpl. destruct r; simpl; [|done]. destruct (Nat.ltb_spec (length q) n); simpl; auto.
    by split_and!.
  - intros A [[|x q] n t r]; simpl; [by destruct t|by split_and!].
  - done.
  - done.
Defined.

Section Channels.
Context `{MP : Mpsc} {A : Type}.
Implicit Types c : chan A.

Lemma send_queued x c c' : mpsc_send x c = Some (true, c') -> queued c' = queued c ++ [x].
Proof. intros E. pose proof (send_law x c) as H. rewrite E in H. apply H. Qed.

Lemma send_refused x c c' : mpsc_send x c = Some (false, c') -> c' = c /\ rx_alive c = false.
Proof. intros E. pose proof (send_law x c) as H. rewrite E in H. destruct H. by split. Qed.

(** A message fits. *)
Lemma send_fits x c : rx_alive c = true -> (length (queued c) < capacity c)%nat ->
  ∃ c', mpsc_send x c = Some (true, c').
Proof.
  intros Hr Hc. pose proof (send_law x c) as H. destruct (mpsc_send x c) as [[[] c']|]; [by exists c'| |lia].
  destruct H. congruence.
Qed.

Lemma recv_queued x c c' : mpsc_recv c = Some (Some x, c') -> queued c = x :: queued c'.
Proof. intros E. pose proof (recv_law c) as H. rewrite E in H. apply H. Qed.

Lemma recv_cons c x q : queued c = x :: q -> ∃ c', mpsc_recv c = Some (Some x, c') /\ queued c' = q /\
  tx_alive c' = tx_alive c.
Proof.
  intros E. pose proof (recv_law c) as H. destruct (mpsc_recv c) as [[[y|] c']|].
  - destruct H as (H & _ & Ht & _). rewrite H in E. injection E as -> <-. by exists c'.
  - destruct H. congruence.
  - destruct H. congruence.
Qed.

Lemma recv_nil c : queued c = [] -> tx_alive c = false -> mpsc_recv c = Some (None, c).
Proof.
  intros E Ht. pose proof (recv_law c) as H. destruct (mpsc_recv c) as [[[y|] c']|].
  - destruct H as [H _]. congruence.
  - by destruct H as (_ & _ & ->).
  - destruct H. congruence.
Qed.

Lemma recv_wait c : queued c = [] -> tx_alive c = true -> mpsc_recv c = None.
Proof.
  intros E Ht. pose proof (recv_law c) as H. destruct (mpsc_recv c) as [[[y|] c']|]; [|destruct H..].
  - destruct H as [H _]. congruence.
  - destruct H0. congruence.
  - done.
Qed.

End Channels.
