(* ===== verification/Handles.v ===== *)
(** * The handles of the tokio crate

    [client104.rs], [server104.rs], [master101.rs] and [outstation101.rs]: a
    handle is the user's end of two channels, one with the commands for the
    driver task, one with its events. A method of a handle is a function on
    the channel it uses; [None] is a call that waits. Connecting, the listener
    and the serial port are parameters or the environment. *)

From S2P Require Import Prelude Bytes Codec AsduHeader Asdu Frame104 Conn104 Frame101 Link101.
From S2P Require Import Policy Driver104 Driver101 Redundancy Channels.

#[local] Open Scope Z_scope.

(** ** Data *)

(** iec60870/src/error.rs 7-29, Error. *)
Inductive ApiError :=
| ApiIo | ApiProtocol (e : Error) | ApiConnectionClosed (r : DisconnectReason) | ApiDriverGone
| ApiNoActivePeer | ApiInvalidTransport | ApiTls.

(** client104.rs 270-274, ClientEvent. *)
Inductive ClientEvent :=
| CeAsdu (b : bytes) | CeStateChanged (s : State) | CeClosed (r : option DisconnectReason).

(** master101.rs 162-169, Master101Event. *)
Inductive Master101Event :=
| MaAsdu (b : bytes) | MaLinkStateChanged (s : LinkState) | MaClosed (r : option Reason).

(** outstation101.rs 140-147, Outstation101Event. *)
Inductive Outstation101Event :=
| OuAsdu (b : bytes) | OuLinkStateChanged (s : LinkState) | OuClosed (r : option Reason).

(** iec60870/src/transport.rs 13-24, Transport. *)
Inductive Transport (ClientConfig : Type) :=
| TransportTcp (addr : SocketAddr)
| TransportTls (addr : SocketAddr) (server_name : string) (client_config : ClientConfig).
Arguments TransportTcp {_} addr.
Arguments TransportTls {_} addr server_name client_config.

(** iec60870/src/transport.rs 32-38, Transport::addr. *)
Definition Transport_addr {ClientConfig} (t : Transport ClientConfig) : SocketAddr :=
  match t with TransportTcp addr => addr | TransportTls addr _ _ => addr end.

(** The next item of a loop that calls [recv] until it finds one. [wanted]
    says what an event means for the loop: an answer, or go on. *)
Section Drain.
Context `{MP : Mpsc} {E R : Type} (wanted : E -> option R).

(** [loop { match self.recv().await? { .. } }]. Each turn takes an event out
    of the channel, so the number of queued events bounds the turns; [None]
    waits in the state that is returned. *)
Fixpoint recv_loop (fuel : nat) (c : chan E) : option (option R) * chan E :=
  match fuel with
  | O => (None, c)
  | S fuel =>
      match mpsc_recv c with
      | None => (None, c)
      | Some (None, c') => (Some None, c')
      | Some (Some e, c') =>
          match wanted e with
          | Some r => (Some (Some r), c')
          | None => recv_loop fuel c'
          end
      end
  end.

Definition recv_until (c : chan E) : option (option R) * chan E := recv_loop (S (length (queued c))) c.
End Drain.

Section Handles.
Context `{BC : BytesCrate} `{MP : Mpsc}.

(** client104.rs 25-31, Client104. Without the tasks. *)
Record Client104 := mkClient104 { c_cmd_tx : chan Command; c_evt_rx : chan DriverEvent; c_ft : bool }.

(** server104.rs 130-133, ServerSender. *)
Record ServerSender := mkServerSender { ss_peer : SocketAddr; ss_cmd_tx : chan Command }.

(** server104.rs 138-141, ServerEvents. *)
Record ServerEvents := mkServerEvents { sv_peer : SocketAddr; sv_evt_rx : chan DriverEvent }.

(** ** The client *)

(** client104.rs 202-214, Client104::send_asdu. *)
Definition client_send_asdu (asdu : bytes) (cmd_tx : chan Command) : option ((unit + ApiError) * chan Command) :=
  if (MAX_ASDU_LEN <? length asdu)%nat
  then Some (inr (ApiProtocol (AsduTooLong (length asdu) MAX_ASDU_LEN)), cmd_tx)
  else match mpsc_send (CmdSendAsdu asdu) cmd_tx with
       | None => None
       | Some (true, c) => Some (inl tt, c)
       | Some (false, c) => Some (inr ApiDriverGone, c)
       end.

(** client104.rs 224-234, Client104::send. *)
Definition client_send {P} `{!AsduPayload P} (cot : Cot) (ca : CommonAddress) (vsq : Vsq) (payload : P)
    (cmd_tx : chan Command) : option ((unit + ApiError) * chan Command) :=
  let bytes := encode_to_vec (from_payload cot ca vsq payload IEC104) IEC104 in
  client_send_asdu bytes cmd_tx.

(** client104.rs 238-244, Client104::recv. *)
Definition client_recv (evt_rx : chan DriverEvent) : option (option ClientEvent * chan DriverEvent) :=
  match mpsc_recv evt_rx with
  | None => None
  | Some (None, c) => Some (None, c)
  | Some (Some (EvAsdu bytes), c) => Some (Some (CeAsdu bytes), c)
  | Some (Some (EvStateChanged state), c) => Some (Some (CeStateChanged state), c)
  | Some (Some (EvClosed reason), c) => Some (Some (CeClosed reason), c)
  end.

(** client104.rs 247-255, Client104::recv_asdu. The outer [option] is [None]
    while the call waits. *)
Definition client_recv_asdu (evt_rx : chan DriverEvent) : option (option bytes) * chan DriverEvent :=
  let r := recv_until (fun e => match e with
                                | EvAsdu bytes => Some (Some bytes)
                                | EvClosed _ => Some None
                                | _ => None
                                end) evt_rx in
  (option_map (fun o => match o with Some r => r | None => None end) r.1, r.2).

(** client104.rs 259-264, Client104::stop. *)
Definition client_stop (cmd_tx : chan Command) : option ((unit + ApiError) * chan Command) :=
  match mpsc_send CmdStopDt cmd_tx with
  | None => None
  | Some (true, c) => Some (inl tt, c)
  | Some (false, c) => Some (inr ApiDriverGone, c)
  end.

(** client104.rs 113-117, Client104::connect_with_file_provider_and_policy
    (the policy). *)
Definition client_widen (policy : AsduPolicy) : AsduPolicy :=
  if is_restrictive policy
  then foldl (fun policy tid => allow_type_id tid policy) policy (seqZ 120 7)
  else policy.

(** client104.rs 276-292, open_stream. [connect] is the connection attempt
    with its time limit. *)
Definition open_stream {ClientConfig Stream} (connect : SocketAddr -> option Stream)
    (transport : Transport ClientConfig) : Stream + ApiError :=
  match transport with
  | TransportTcp addr => match connect addr with Some stream => inl stream | None => inr ApiIo end
  | TransportTls _ _ _ => inr ApiInvalidTransport
  end.

(** client104.rs 144-189, Client104::spawn_with_ft. The handle, the driver,
    and the far ends of the channels it shares with the handle. [None] would
    be a wait for the channel to take the first command. *)
Definition client_spawn_with_ft (config : Config) (ft : bool) : option ((Client104 + ApiError) * Driver) :=
  let cmd := mpsc_channel 32 in
  let evt := mpsc_channel 64 in
  match mpsc_send CmdStartDt cmd with
  | None => None
  | Some (true, cmd) => Some (inl (mkClient104 cmd evt ft), Driver_new Client config)
  | Some (false, _) => Some (inr ApiDriverGone, Driver_new Client config)
  end.

(** ** The server *)

(** server104.rs 197-209, ServerSender::send_asdu. *)
Definition server_send_asdu (asdu : bytes) (cmd_tx : chan Command) : option ((unit + ApiError) * chan Command) :=
  if (MAX_ASDU_LEN <? length asdu)%nat
  then Some (inr (ApiProtocol (AsduTooLong (length asdu) MAX_ASDU_LEN)), cmd_tx)
  else match mpsc_send (CmdSendAsdu asdu) cmd_tx with
       | None => None
       | Some (true, c) => Some (inl tt, c)
       | Some (false, c) => Some (inr ApiDriverGone, c)
       end.

(** server104.rs 215-225, ServerSender::send. *)
Definition server_send {P} `{!AsduPayload P} (cot : Cot) (ca : CommonAddress) (vsq : Vsq) (payload : P)
    (cmd_tx : chan Command) : option ((unit + ApiError) * chan Command) :=
  let bytes := encode_to_vec (from_payload cot ca vsq payload IEC104) IEC104 in
  server_send_asdu bytes cmd_tx.

(** server104.rs 233-239, ServerEvents::recv. *)
Definition server_recv (evt_rx : chan DriverEvent) : option (option ServerEvent * chan DriverEvent) :=
  match mpsc_recv evt_rx with
  | None => None
  | Some (None, c) => Some (None, c)
  | Some (Some (EvAsdu bytes), c) => Some (Some (SeAsdu bytes), c)
  | Some (Some (EvStateChanged state), c) => Some (Some (SeStateChanged state), c)
  | Some (Some (EvClosed reason), c) => Some (Some (SeClosed reason), c)
  end.

(** server104.rs 241-249, ServerEvents::recv_asdu. *)
Definition server_recv_asdu (evt_rx : chan DriverEvent) : option (option bytes) * chan DriverEvent :=
  let r := recv_until (fun e => match e with
                                | EvAsdu bytes => Some (Some bytes)
                                | EvClosed _ => Some None
                                | _ => None
                                end) evt_rx in
  (option_map (fun o => match o with Some r => r | None => None end) r.1, r.2).

(** server104.rs 85-92, Server104::accept_with_policy_and_handler (the loop).
    [incoming] is what the listener returns, in order: a peer, or an error.
    The loop ends with the first peer the filter lets through, or with the
    error; [None] waits for more. *)
Fixpoint accept_loop (contains : SocketAddr -> bool) (incoming : list (option SocketAddr))
  : option ((SocketAddr + ApiError) * list (option SocketAddr)) :=
  match incoming with
  | [] => None
  | None :: incoming => Some (inr ApiIo, incoming)
  | Some peer :: incoming => if contains peer then Some (inl peer, incoming) else accept_loop contains incoming
  end.

(** server104.rs 94-99, Server104::accept_with_policy_and_handler (the
    policy). *)
Definition server_widen (file_provider : bool) (policy : AsduPolicy) : AsduPolicy :=
  if file_provider && is_restrictive policy
  then foldl (fun policy tid => allow_type_id tid policy) policy (seqZ 120 7)
  else policy.

(** server104.rs 261-301, ServerConnection::spawn_with_ft. *)
Definition server_spawn_with_ft (peer : SocketAddr) (config : Config)
  : ServerSender * ServerEvents * Driver :=
  let cmd := mpsc_channel 32 in
  let evt := mpsc_channel 64 in
  (mkServerSender peer cmd, mkServerEvents peer evt, Driver_new Server config).

(** server104.rs 80-108, Server104::accept_with_policy_and_handler. *)
Definition accept_with_policy_and_handler (contains : SocketAddr -> bool) (set_nodelay : SocketAddr -> bool)
    (file_provider : bool) (config : Config) (policy : AsduPolicy) (incoming : list (option SocketAddr))
  : option ((ServerSender * ServerEvents * Driver * AsduPolicy + ApiError) * list (option SocketAddr)) :=
  match accept_loop contains incoming with
  | None => None
  | Some (inr e, incoming) => Some (inr e, incoming)
  | Some (inl peer, incoming) =>
      if set_nodelay peer then
        let policy := server_widen file_provider policy in
        Some (inl (server_spawn_with_ft peer config, policy), incoming)
      else Some (inr ApiIo, incoming)
  end.

(** ** The 101 stations *)

(** master101.rs 51-55, Master101. *)
Record Master101 := mkMaster101 { m_cmd_tx : chan Command101; m_evt_rx : chan DriverEvent101 }.
(** outstation101.rs 52-56, Outstation101. *)
Record Outstation101 := mkOutstation101 { o_cmd_tx : chan Command101; o_evt_rx : chan DriverEvent101 }.

(** [self.cmd_tx.send(c).await.map_err(|_| Error::DriverGone)] *)
Definition send_101 (c : Command101) (cmd_tx : chan Command101) : option ((unit + ApiError) * chan Command101) :=
  match mpsc_send c cmd_tx with
  | None => None
  | Some (true, c) => Some (inl tt, c)
  | Some (false, c) => Some (inr ApiDriverGone, c)
  end.

(** master101.rs 82-94, Master101::spawn. *)
Definition master_spawn (config : LkConfig) : Master101 * Result Driver101 :=
  let cmd := mpsc_channel 32 in
  let evt := mpsc_channel 64 in
  (mkMaster101 cmd evt, Driver101_new Master config).

(** master101.rs 97-102, Master101::send_asdu. *)
Definition master_send_asdu (asdu : bytes) := send_101 (Cmd101SendAsdu asdu).
(** master101.rs 105-110, Master101::reset_link. *)
Definition master_reset_link := send_101 Cmd101ResetLink.
(** master101.rs 113-118, Master101::request_class1. *)
Definition master_request_class1 := send_101 Cmd101RequestClass1.
(** master101.rs 121-126, Master101::request_class2. *)
Definition master_request_class2 := send_101 Cmd101RequestClass2.

(** master101.rs 130-138, Master101::recv. *)
Definition master_recv (evt_rx : chan DriverEvent101) : option (option Master101Event * chan DriverEvent101) :=
  match mpsc_recv evt_rx with
  | None => None
  | Some (None, c) => Some (None, c)
  | Some (Some (Ev101Asdu bytes), c) => Some (Some (MaAsdu bytes), c)
  | Some (Some (Ev101LinkStateChanged state), c) => Some (Some (MaLinkStateChanged state), c)
  | Some (Some (Ev101Closed reason), c) => Some (Some (MaClosed reason), c)
  end.

(** master101.rs 142-150, Master101::recv_asdu. *)
Definition master_recv_asdu (evt_rx : chan DriverEvent101) : option (option bytes) * chan DriverEvent101 :=
  let r := recv_until (fun e => match e with
                                | Ev101Asdu bytes => Some (Some bytes)
                                | Ev101Closed _ => Some None
                                | _ => None
                                end) evt_rx in
  (option_map (fun o => match o with Some r => r | None => None end) r.1, r.2).

(** outstation101.rs 83-95, Outstation101::spawn. *)
Definition outstation_spawn (config : LkConfig) : Outstation101 * Result Driver101 :=
  let cmd := mpsc_channel 32 in
  let evt := mpsc_channel 64 in
  (mkOutstation101 cmd evt, Driver101_new Outstation config).

(** outstation101.rs 101-106, Outstation101::send_asdu. *)
Definition outstation_send_asdu (asdu : bytes) := send_101 (Cmd101SendAsdu asdu).

(** outstation101.rs 109-117, Outstation101::recv. *)
Definition outstation_recv (evt_rx : chan DriverEvent101)
  : option (option Outstation101Event * chan DriverEvent101) :=
  match mpsc_recv evt_rx with
  | None => None
  | Some (None, c) => Some (None, c)
  | Some (Some (Ev101Asdu bytes), c) => Some (Some (OuAsdu bytes), c)
  | Some (Some (Ev101LinkStateChanged state), c) => Some (Some (OuLinkStateChanged state), c)
  | Some (Some (Ev101Closed reason), c) => Some (Some (OuClosed reason), c)
  end.

(** outstation101.rs 121-129, Outstation101::recv_asdu. *)
Definition outstation_recv_asdu (evt_rx : chan DriverEvent101) : option (option bytes) * chan DriverEvent101 :=
  let r := recv_until (fun e => match e with
                                | Ev101Asdu bytes => Some (Some bytes)
                                | Ev101Closed _ => Some None
                                | _ => None
                                end) evt_rx in
  (option_map (fun o => match o with Some r => r | None => None end) r.1, r.2).

End Handles.

(** ** Waiting for an event *)

Section Until.
Context `{MP : Mpsc} {E R : Type} (wanted : E -> option R).
Implicit Types c : chan E.

(** The loop stops at the first wanted event and has thrown away those before
    it; without one it empties the channel and ends when the task is gone. *)
Lemma recv_until_spec c :
  match recv_until wanted c with
  | (Some (Some r), c') => ∃ pre e, queued c = pre ++ e :: queued c' /\ Forall (fun e => wanted e = None) pre /\ wanted e = Some r
  | (Some None, c') => Forall (fun e => wanted e = None) (queued c) /\ queued c' = [] /\ tx_alive c = false
  | (None, c') => Forall (fun e => wanted e = None) (queued c) /\ queued c' = [] /\ tx_alive c = true
  end.
Proof.
  unfold recv_until. generalize (S (length (queued c))) (Nat.lt_succ_diag_r (length (queued c))). intros n Hn.
  revert c Hn. induction n as [|n IH]; intros c Hn; [lia|]. cbn [recv_loop]. destruct (queued c) as [|e q] eqn:Hq.
  - destruct (tx_alive c) eqn:Ht; [rewrite recv_wait by done|rewrite recv_nil by done]; by split_and!.
  - destruct (recv_cons c e q Hq) as (c' & -> & Hq' & Ht).
    destruct (wanted e) as [r|] eqn:Hw; [exists [], e; by rewrite Hq'|].
    specialize (IH c'). rewrite Hq', Ht in IH. simpl in Hn. specialize (IH ltac:(lia)).
    destruct (recv_loop wanted n c') as [[[r|]|] c2].
    + destruct IH as (pre & e' & -> & E2 & E3). exists (e :: pre), e'. split_and!; [done|by constructor|done].
    + destruct IH as (E1 & E2 & E3). split_and!; [by constructor|done..].
    + destruct IH as (E1 & E2 & E3). split_and!; [by constructor|done..].
Qed.
End Until.

(** ** Widening a policy for file transfer *)

Lemma widened p : is_restrictive p = true ->
  client_widen p = mkPolicy (Some (list_to_set (seqZ 120 7) ∪ or_new (allowed_type_ids p)))
    (allowed_causes p) (allowed_common_addresses p).
Proof.
  intros Hr. unfold client_widen. rewrite Hr. clear Hr. destruct p as [t c a].
  change (seqZ 120 7) with [120; 121; 122; 123; 124; 125; 126]. cbn [foldl].
  unfold allow_type_id. cbn [allowed_type_ids allowed_causes allowed_common_addresses or_new default option_map from_option].
  f_equal. f_equal. unfold or_new. set_solver.
Qed.

(** A restrictive policy is given the types of file transfer, on the axis of
    types only; what had not been restricted there is refused from then on. *)
Theorem widen_exact p type_id cause ca : is_restrictive p = true ->
  allows type_id cause ca (client_widen p) =
    (((120 <=? type_id) && (type_id <=? 126)) || bool_decide (type_id ∈ or_new (allowed_type_ids p))) &&
    match allowed_causes p with Some s => bool_decide (cause ∈ s) | None => true end &&
    match allowed_common_addresses p with Some s => bool_decide (ca ∈ s) | None => true end.
Proof.
  intros Hr. rewrite widened by done. unfold allows. cbn [allowed_type_ids allowed_causes allowed_common_addresses].
  assert (bool_decide (type_id ∈ (list_to_set (seqZ 120 7) ∪ or_new (allowed_type_ids p) : gset Z)) =
    ((120 <=? type_id) && (type_id <=? 126)) || bool_decide (type_id ∈ or_new (allowed_type_ids p))) as ->.
  { apply eq_true_iff_eq. rewrite orb_true_iff, andb_true_iff, !bool_decide_eq_true, !Z.leb_le, elem_of_union,
      elem_of_list_to_set, elem_of_seqZ. intuition lia. }
  generalize (((120 <=? type_id) && (type_id <=? 126)) || bool_decide (type_id ∈ or_new (allowed_type_ids p))).
  generalize (match allowed_causes p with Some s => bool_decide (cause ∈ s) | None => true end).
  generalize (match allowed_common_addresses p with Some s => bool_decide (ca ∈ s) | None => true end).
  by intros [] [] [].
Qed.

Lemma server_widen_client p : server_widen true p = client_widen p.
Proof. done. Qed.

Lemma widen_exact_witness :
  is_restrictive (allow_cause 13 AsduPolicy_new) = true /\
  allows 122 13 1 (client_widen (allow_cause 13 AsduPolicy_new)) = true.
Proof.
  split; [reflexivity|]. rewrite (widen_exact (allow_cause 13 AsduPolicy_new) 122 13 1 eq_refl). reflexivity.
Defined.

(** A policy that restricts the common address alone lets measured values of
    that address pass. Widened for file transfer it refuses them, although
    the rest of the policy is said to be left untouched. *)
Example widening_refuses_the_rest :
  let p := allow_common_address 1 AsduPolicy_new in
  (allows 13 3 1 p, allows 13 3 1 (client_widen p)) = (true, false).
Proof. vm_compute. reflexivity. Qed.

(** A policy that lists causes still refuses file transfer (cause 13). *)
Example widening_is_not_enough :
  allows 122 13 1 (client_widen (allow_cause 3 AsduPolicy_new)) = false.
Proof. vm_compute. reflexivity. Qed.

(** ** Accepting *)

(** Every connection before the one that ends the loop is refused by the
    filter, in the order they come in. *)
Lemma accept_loop_spec contains incoming :
  let refused p := match p with Some peer => contains peer = false | None => False end in
  match accept_loop contains incoming with
  | Some (inl peer, rest) => ∃ pre, incoming = pre ++ Some peer :: rest /\ Forall refused pre /\ contains peer = true
  | Some (inr e, rest) => e = ApiIo /\ ∃ pre, incoming = pre ++ None :: rest /\ Forall refused pre
  | None => Forall refused incoming
  end.
Proof.
  cbn zeta. induction incoming as [|[p|] incoming IH]; simpl; [done| |by split; [|exists []]].
  destruct (contains p) eqn:Hp; [exists []; by split_and!|].
  destruct (accept_loop contains incoming) as [[[peer|e] rest]|]; [| |by constructor].
  - destruct IH as (pre & -> & H1 & H2). exists (Some p :: pre). split_and!; [done|by constructor|done].
  - destruct IH as (-> & pre & -> & H1). split; [done|]. exists (Some p :: pre). split; [done|by constructor].
Qed.
