(* ===== verification/Connect.v ===== *)
(** * Connecting, binding and accepting

    The entry points of [client104.rs], [server104.rs], [master101.rs] and
    [outstation101.rs] above the handles of Handles.v: which attempts succeed,
    and with which policy and provider the driver then runs. Sockets, serial
    ports and their options are what the system returns, a parameter of each;
    the handler of events, which the user writes, is not part of the model. On
    top of them the manager of [redundancy.rs], whose accept loop takes its
    connections from a server. *)

From S2P Require Import Prelude Bytes Codec AsduHeader Asdu Frame104 Conn104 Policy Driver104.
From S2P Require Import Link101 Driver101 Redundancy FtService Channels Handles.

#[local] Set Default Proof Using "Type".

Section Connect.
Context `{MP : Mpsc} {ClientConfig Stream ProviderObject Listener : Type}.

(** A provider with the configuration it is installed with. *)
Abbreviation FtProvider := (ProviderObject * FileTransferConfig)%type.

(** ** The client *)

(** What a connected client leaves running: its handle, the driver, and what
    the driver was given. *)
Record ClientStation := mkClientStation {
  cn_client : Client104; cn_driver : Driver; cn_stream : Stream; cn_policy : AsduPolicy; cn_ft : option FtProvider }.

Definition client_station (stream : Stream) (config : Config) (policy : AsduPolicy) (ft : option FtProvider)
  : option (ClientStation + ApiError) :=
  match client_spawn_with_ft config (bool_decide (is_Some ft)) with
  | None => None
  | Some (inl client, driver) => Some (inl (mkClientStation client driver stream policy ft))
  | Some (inr e, _) => Some (inr e)
  end.

(** client104.rs 131-142, Client104::spawn. *)
Definition client_spawn (stream : Stream) (config : Config) (policy : AsduPolicy) : option (ClientStation + ApiError) :=
  client_station stream config policy None.

Section Client.
Context (connect : SocketAddr -> option Stream).

(** client104.rs 60-68, Client104::connect_with_policy_and_handler. *)
Definition client_connect_with_policy (transport : Transport ClientConfig) (config : Config) (policy : AsduPolicy)
  : option (ClientStation + ApiError) :=
  match open_stream connect transport with
  | inr e => Some (inr e)
  | inl stream => client_spawn stream config policy
  end.

(** client104.rs 47-54, Client104::connect_with. *)
Definition client_connect_with (transport : Transport ClientConfig) (config : Config) : option (ClientStation + ApiError) :=
  client_connect_with_policy transport config AsduPolicy_new.

(** client104.rs 36-44, Client104::connect. *)
Definition client_connect (transport : Transport ClientConfig) (config : Config) : option (ClientStation + ApiError) :=
  client_connect_with_policy transport config AsduPolicy_new.

(** client104.rs 74-95, Client104::connect_with_file_provider. *)
Definition client_connect_with_file_provider (transport : Transport ClientConfig) (config : Config)
    (provider : ProviderObject) : option (ClientStation + ApiError) :=
  match open_stream connect transport with
  | inr e => Some (inr e)
  | inl stream => client_station stream config AsduPolicy_new (Some (provider, FileTransferConfig_default))
  end.

(** client104.rs 101-126, Client104::connect_with_file_provider_and_policy. *)
Definition client_connect_with_file_provider_and_policy (transport : Transport ClientConfig) (config : Config)
    (provider : ProviderObject) (policy : AsduPolicy) : option (ClientStation + ApiError) :=
  match open_stream connect transport with
  | inr e => Some (inr e)
  | inl stream =>
      let policy := client_widen policy in
      client_station stream config policy (Some (provider, FileTransferConfig_default))
  end.

End Client.

(** client104.rs 193-195, Client104::file_transfer. A handle is known by the
    provider and configuration its service was built with. *)
Definition client_file_transfer (c : ClientStation) : option FtProvider := cn_ft c.

(** ** The server *)

(** server104.rs 22-28, Server104. *)
Record Server104 := mkServer104 {
  s4_listener : Listener; s4_config : Config; s4_provider : option FtProvider; s4_filter : SocketAddr -> bool }.

(** server104.rs 42-54, Server104::bind_with_security. *)
Definition server_bind_with_security (listen : SocketAddr -> option Listener) (addr : SocketAddr) (config : Config)
    (ip_filter : SocketAddr -> bool) : Server104 + ApiError :=
  match listen addr with
  | Some listener => inl (mkServer104 listener config None ip_filter)
  | None => inr ApiIo
  end.

(** server104.rs 31-33, Server104::bind. *)
Definition server_bind (listen : SocketAddr -> option Listener) (addr : SocketAddr) (config : Config)
  : Server104 + ApiError :=
  server_bind_with_security listen addr config (fun _ => true).

(** server104.rs 59-62, Server104::with_file_provider. *)
Definition server_with_file_provider (provider : ProviderObject) (s : Server104) : Server104 :=
  mkServer104 (s4_listener s) (s4_config s) (Some (provider, FileTransferConfig_default)) (s4_filter s).

(** server104.rs 119-125, ServerConnection. With the driver and its policy in
    place of the task. *)
Record ServerConnection := mkServerConnection {
  sc_sender : ServerSender; sc_events : ServerEvents; sc_ft : option FtProvider;
  sc_driver : Driver; sc_policy : AsduPolicy }.

(** server104.rs 80-108, Server104::accept_with_policy_and_handler (with the
    connection it makes). *)
Definition server_accept_with_policy (set_nodelay : SocketAddr -> bool) (policy : AsduPolicy) (s : Server104)
    (incoming : list (option SocketAddr)) : option ((ServerConnection + ApiError) * list (option SocketAddr)) :=
  match accept_with_policy_and_handler (s4_filter s) set_nodelay (bool_decide (is_Some (s4_provider s))) (s4_config s)
          policy incoming with
  | None => None
  | Some (inl (sender, events, driver, policy), incoming) =>
      Some (inl (mkServerConnection sender events (s4_provider s) driver policy), incoming)
  | Some (inr e, incoming) => Some (inr e, incoming)
  end.

(** server104.rs 69-76, Server104::accept. Also [accept_with]. *)
Definition server_accept (set_nodelay : SocketAddr -> bool) (s : Server104) (incoming : list (option SocketAddr))
  : option ((ServerConnection + ApiError) * list (option SocketAddr)) :=
  server_accept_with_policy set_nodelay AsduPolicy_new s incoming.

Definition set_sender_chan (c : chan Command) (conn : ServerConnection) : ServerConnection :=
  mkServerConnection (mkServerSender (ss_peer (sc_sender conn)) c) (sc_events conn) (sc_ft conn) (sc_driver conn) (sc_policy conn).
Definition set_event_chan (c : chan DriverEvent) (conn : ServerConnection) : ServerConnection :=
  mkServerConnection (sc_sender conn) (mkServerEvents (sv_peer (sc_events conn)) c) (sc_ft conn) (sc_driver conn) (sc_policy conn).

(** server104.rs 144-146, ServerConnection::peer. *)
Definition connection_peer (conn : ServerConnection) : SocketAddr := ss_peer (sc_sender conn).
(** server104.rs 150-152, ServerConnection::file_transfer. As for a client. *)
Definition connection_file_transfer (conn : ServerConnection) : option FtProvider := sc_ft conn.
(** server104.rs 154-156, ServerConnection::send_asdu. *)
Definition connection_send_asdu (asdu : bytes) (conn : ServerConnection) : option ((unit + ApiError) * ServerConnection) :=
  '(r, c) ← server_send_asdu asdu (ss_cmd_tx (sc_sender conn)); Some (r, set_sender_chan c conn).
(** server104.rs 162-170, ServerConnection::send. *)
Definition connection_send `{BC : BytesCrate} {P} `{!AsduPayload P} (cot : Cot) (ca : CommonAddress) (vsq : Vsq) (payload : P)
    (conn : ServerConnection) : option ((unit + ApiError) * ServerConnection) :=
  '(r, c) ← server_send cot ca vsq payload (ss_cmd_tx (sc_sender conn)); Some (r, set_sender_chan c conn).
(** server104.rs 172-174, ServerConnection::recv. *)
Definition connection_recv (conn : ServerConnection) : option (option ServerEvent * ServerConnection) :=
  '(r, c) ← server_recv (sv_evt_rx (sc_events conn)); Some (r, set_event_chan c conn).
(** server104.rs 176-178, ServerConnection::recv_asdu. *)
Definition connection_recv_asdu (conn : ServerConnection) : option (option bytes) * ServerConnection :=
  let '(r, c) := server_recv_asdu (sv_evt_rx (sc_events conn)) in (r, set_event_chan c conn).
(** server104.rs 183-185, ServerConnection::split. *)
Definition connection_split (conn : ServerConnection) : ServerSender * ServerEvents := (sc_sender conn, sc_events conn).

(** ** The 101 stations *)

(** master101.rs 65-71, Master101::open. [port] is the port that was opened. *)
Definition master_open (port : option Stream) (config : LkConfig) : (Master101 * Result Driver101) + ApiError :=
  match port with Some _ => inl (master_spawn config) | None => inr ApiIo end.
(** master101.rs 75-80, Master101::open_stream. *)
Definition master_open_stream (stream : Stream) (config : LkConfig) : Master101 * Result Driver101 := master_spawn config.
(** master101.rs 154-156, Master101::stop. *)
Definition master_stop (m : Master101) : Master101 :=
  mkMaster101 (mpsc_drop_tx (m_cmd_tx m)) (mpsc_drop_rx (m_evt_rx m)).
(** outstation101.rs 66-72, Outstation101::open. *)
Definition outstation_open (port : option Stream) (config : LkConfig) : (Outstation101 * Result Driver101) + ApiError :=
  match port with Some _ => inl (outstation_spawn config) | None => inr ApiIo end.
(** outstation101.rs 76-81, Outstation101::open_stream. *)
Definition outstation_open_stream (stream : Stream) (config : LkConfig) : Outstation101 * Result Driver101 :=
  outstation_spawn config.
(** outstation101.rs 132-134, Outstation101::stop. *)
Definition outstation_stop (o : Outstation101) : Outstation101 :=
  mkOutstation101 (mpsc_drop_tx (o_cmd_tx o)) (mpsc_drop_rx (o_evt_rx o)).

(** ** The redundancy manager *)

(** redundancy.rs 79-83, RedundancyServer. *)
Record RedundancyServer := mkRedundancyServer { rs_state : Inner; rs_asdu_rx : chan (SocketAddr * bytes) }.

(** redundancy.rs 116-125, RedundancyServer::spawn_with. *)
Definition redundancy_spawn_with : RedundancyServer := mkRedundancyServer (mkInner ∅ None) (mpsc_channel 128).

(** redundancy.rs 137-139, RedundancyServer::recv_asdu. *)
Definition redundancy_recv_asdu (r : RedundancyServer) : option (option (SocketAddr * bytes) * RedundancyServer) :=
  '(x, c) ← mpsc_recv (rs_asdu_rx r); Some (x, mkRedundancyServer (rs_state r) c).
(** redundancy.rs 159-161, RedundancyServer::active_peer. *)
Definition redundancy_active_peer (r : RedundancyServer) : option SocketAddr := active (rs_state r).
(** redundancy.rs 164-166, RedundancyServer::peers. In the order of the map. *)
Definition redundancy_peers (r : RedundancyServer) : list SocketAddr := (map_to_list (peers (rs_state r))).*1.

(** What a turn of the accept loop does next: waits after an error, drops the
    connection, or starts the task of the peer with its events. *)
Inductive AcceptTurn :=
| AtRetry (after : Duration) | AtReject (conn : ServerConnection) | AtDrive (peer : SocketAddr) (events : ServerEvents).

(** redundancy.rs 205-245, accept_loop (one turn). [res] is the connection, its
    sender known by the number [n], or the error. *)
Definition accept_turn (config : RedundancyConfig) (res : ServerConnection + ApiError) (n : nat) (st : Inner)
  : AcceptTurn * Inner :=
  match res with
  | inr _ => (AtRetry 100, st)
  | inl conn =>
      let peer := connection_peer conn in
      match accept_peer config peer n st with
      | None => (AtReject conn, st)
      | Some st => let (_, events) := connection_split conn in (AtDrive peer events, st)
      end
  end.

(** ** What the entry points come to *)

(** The driver a connection is given: fresh, with the first command of a
    client waiting for it. *)
Lemma client_station_spec stream config policy ft : ∃ c, client_station stream config policy ft =
    Some (inl (mkClientStation c (Driver_new Client config) stream policy ft)) /\
  queued (c_cmd_tx c) = [CmdStartDt] /\ queued (c_evt_rx c) = [].
Proof.
  unfold client_station, client_spawn_with_ft. destruct (channel_law (A := Command) 32) as (Hq & Hc & Ht & Hr).
  destruct (send_fits CmdStartDt (mpsc_channel 32) Hr) as [c Hs]; [rewrite Hq, Hc; cbn; lia|]. rewrite Hs.
  eexists. split; [reflexivity|]. cbn. rewrite (send_queued _ _ _ Hs), Hq. split; [done|]. apply channel_law.
Qed.

(** A client connects exactly over TCP when the attempt succeeds; it never
    waits. The driver then runs the policy that was given, widened when there
    is a provider, and STARTDT is the first thing it is told. *)
Theorem client_connects connect transport config provider policy :
  let connected ft policy r := match transport with
    | TransportTls _ _ _ => r = Some (inr ApiInvalidTransport)
    | TransportTcp addr =>
        match connect addr with
        | None => r = Some (inr ApiIo)
        | Some stream => ∃ c, r = Some (inl (mkClientStation c (Driver_new Client config) stream policy ft)) /\
            queued (c_cmd_tx c) = [CmdStartDt]
        end
    end in
  let ft := Some (provider, FileTransferConfig_default) in
  connected None AsduPolicy_new (client_connect connect transport config) /\
  connected None policy (client_connect_with_policy connect transport config policy) /\
  connected ft AsduPolicy_new (client_connect_with_file_provider connect transport config provider) /\
  connected ft (client_widen policy) (client_connect_with_file_provider_and_policy connect transport config provider policy).
Proof.
  intros connected ft. subst connected.
  assert (∀ stream p f, ∃ c, client_station stream config p f =
    Some (inl (mkClientStation c (Driver_new Client config) stream p f)) /\ queued (c_cmd_tx c) = [CmdStartDt]) as H.
  { intros stream p f. destruct (client_station_spec stream config p f) as (c & H1 & H2 & _). by exists c. }
  unfold client_connect, client_connect_with_policy, client_connect_with_file_provider,
    client_connect_with_file_provider_and_policy, client_spawn, open_stream.
  destruct transport as [addr|]; [|done]. destruct (connect addr) as [stream|]; [|done]. auto.
Qed.

(** A connection a server accepts comes from a peer its filter admits, and
    its driver runs the policy, widened when there is a provider; peers the
    filter does not admit are passed over, and only the listener and the
    options of the socket can fail. *)
Theorem server_accepts nodelay policy s incoming :
  match server_accept_with_policy nodelay policy s incoming with
  | None => Forall (fun p => ∃ peer, p = Some peer /\ s4_filter s peer = false) incoming
  | Some (inl conn, rest) => ∃ pre, incoming = pre ++ Some (connection_peer conn) :: rest /\
      s4_filter s (connection_peer conn) = true /\ nodelay (connection_peer conn) = true /\
      Forall (fun p => ∃ peer, p = Some peer /\ s4_filter s peer = false) pre /\
      sc_driver conn = Driver_new Server (s4_config s) /\ sc_ft conn = s4_provider s /\
      sc_policy conn = match s4_provider s with Some _ => client_widen policy | None => policy end
  | Some (inr e, rest) => e = ApiIo /\ ∃ pre p, incoming = pre ++ p :: rest
  end.
Proof.
  assert (∀ l, Forall (fun p => match p with Some peer => s4_filter s peer = false | None => False end) l ->
    Forall (fun p => ∃ peer, p = Some peer /\ s4_filter s peer = false) l) as Hf.
  { intros l H. eapply Forall_impl; [exact H|]. intros [peer|]; [|done]. by exists peer. }
  unfold server_accept_with_policy, accept_with_policy_and_handler.
  pose proof (accept_loop_spec (s4_filter s) incoming) as H. cbn zeta in H.
  destruct (accept_loop (s4_filter s) incoming) as [[[peer|e] rest]|]; [|destruct H as (-> & pre & -> & _); eauto|by apply Hf].
  destruct H as (pre & -> & Hpre & Hpeer). destruct (nodelay peer) eqn:Hn; [|by eauto].
  exists pre. unfold server_widen, client_widen. destruct (s4_provider s); cbn; by split_and!; auto.
Qed.

(** The manager's accept loop is the step of the group of Redundancy.v: a turn
    leaves the group as it is, or inserts the connection and starts its task. *)
Theorem accept_turn_steps config res n g : g_tasks g !! n = None ->
  match accept_turn config res n (g_inner g) with
  | (AtDrive peer events, st) => group_step config g (mkGroup st (<[n := mkTask peer [] false false]> (g_tasks g)) (g_forwarded g)) /\
      ∃ conn, res = inl conn /\ peer = connection_peer conn /\ events = sc_events conn
  | (AtReject conn, st) => st = g_inner g /\ (max_peers config <= size (peers (g_inner g)))%nat
  | (AtRetry after, st) => st = g_inner g /\ after = 100
  end.
Proof.
  intros Hn. destruct res as [conn|e]; [|done]. cbn. destruct (accept_peer config (connection_peer conn) n (g_inner g)) as [st|] eqn:Ha.
  - split; [by apply step_accept|]. by exists conn.
  - split; [done|]. unfold accept_peer in Ha. by destruct (Nat.leb_spec (max_peers config) (size (peers (g_inner g)))).
Qed.

End Connect.

(** ** Sample runs *)

Module ConnectSample.
Definition reach (addr : SocketAddr) : option unit := if addr =? 1 then Some tt else None.
Definition tcp (addr : SocketAddr) : Transport unit := TransportTcp addr.

(** A server with a filter and a provider, and what happens to five peers. *)
Definition served :=
  match server_bind_with_security (ProviderObject := unit) (fun _ => Some tt) 0 Config_default (fun a => a <? 10) with
  | inl s => server_accept_with_policy (MP := list_channels) (fun _ => true) (allow_cause 3 AsduPolicy_new) (server_with_file_provider tt s)
               [Some 17; Some 23; Some 4; Some 5; None]
  | inr _ => None
  end.

Example accepts_the_third :
  match served with
  | Some (inl conn, rest) => connection_peer conn = 4 /\ rest = [Some 5; None] /\
      connection_file_transfer conn = Some (tt, FileTransferConfig_default) /\ allows 122 3 1 (sc_policy conn) = true
  | _ => False
  end.
Proof. vm_compute. done. Qed.

Example tls_is_refused :
  client_connect (MP := list_channels) (ProviderObject := unit) reach (TransportTls 1 "station" tt) Config_default =
    Some (inr ApiInvalidTransport) /\
  client_connect (MP := list_channels) (ProviderObject := unit) reach (tcp 2) Config_default = Some (inr ApiIo).
Proof. split; reflexivity. Qed.
End ConnectSample.
