(* ===== verification/Stack104.v ===== *)
(** * Two stations, from handle to handle

    The whole 104 stack of the repository on both sides of a TCP connection:
    a [Client104] and a [ServerConnection] (Handles.v), each over its channels
    and its driver task (Driver104.v), which runs the state machine over the
    framing. The users call the handles, the tasks take turns, and the
    transport hands over any number of the octets the other task has written
    and not more. A turn of a task is one step; the events it has produced go
    into the bounded channel one at a time, and the task takes no further turn
    before the last one is in. The transport loses nothing, but a write can
    fail and the connection can break at any time. No file provider is
    installed, and a handle keeps its receiver until the task has ended.

    Every run of the stack is a run of Net104.v. *)

From S2P Require Import Prelude Pipe Bytes Codec AsduHeader Asdu Redundancy Frame104 Conn104 Net104.
From S2P Require Import Policy Driver104 Channels Handles.

#[local] Open Scope Z_scope.

(** ** The pair of connections, seen from either side *)

Inductive Who := Cl | Sv.
Definition other (w : Who) : Who := match w with Cl => Sv | Sv => Cl end.
Definition role_of (w : Who) : Role := match w with Cl => Client | Sv => Server end.

Definition st (w : Who) (n : net) : side := match w with Cl => stA n | Sv => stB n end.
Definition ch_out (w : Who) (n : net) : list Apdu := match w with Cl => chAB n | Sv => chBA n end.
Definition ch_in (w : Who) (n : net) : list Apdu := ch_out (other w) n.

Lemma other_other w : other (other w) = w.
Proof. by destruct w. Qed.

Lemma who_step w n i now s fs ch : takes i (ch_in w n) ch -> up (st w n) ->
  side_step i now (st w n) = (s, fs) ->
  ∃ n', net_step n n' /\ st w n' = s /\ st (other w) n' = st (other w) n /\
    ch_out w n' = ch_out w n ++ fs /\ ch_in w n' = ch.
Proof.
  intros Ht Hu E. destruct w; unfold ch_in in *; cbn [st ch_out other] in *.
  - exists (mkNet s (stB n) (chAB n ++ fs) ch). split; [|done].
    destruct i as [f| | |d|]; simpl in Ht; [by apply (net_recv_A n f ch now)|rewrite <- Ht..];
      (eapply (net_local_A n _ now); [|done|exact E]; done).
  - exists (mkNet (stA n) s ch (chBA n ++ fs)). split; [|done].
    destruct i as [f| | |d|]; simpl in Ht; [by apply (net_recv_B n f ch now)|rewrite <- Ht..];
      (eapply (net_local_B n _ now); [|done|exact E]; done).
Qed.

(** ** Frames that can be sent *)

Definition frame_ok (a : Apdu) : Prop := apdu_ok a /\ apdu_fits a.
(** What [send_asdu] lets through. *)
Definition sendable (asdu : bytes) : Prop := octets asdu /\ (length asdu <= MAX_ASDU_LEN)%nat.

#[export] Instance sendable_dec asdu : Decision (sendable asdu).
Proof. unfold sendable. apply _. Defined.

Lemma seq_run_ok n x : x ∈ seq_run 0 n -> seq_ok x.
Proof. unfold seq_run, seq_ok. rewrite list_elem_of_fmap. intros (k & -> & _). lia. Qed.

Lemma frames_elem a acts : a ∈ frames acts -> SendApdu a ∈ acts.
Proof.
  unfold frames. rewrite list_elem_of_omap. intros (x & Hx & E). by destruct x; simplify_eq/=.
Qed.

(** The frames of a step of a connection can be encoded, as long as the ASDUs
    it was given can. *)
Lemma step_frames_ok i now s s' fs : side_ok s -> side_step i now s = (s', fs) ->
  Forall sendable (sub s') -> Forall frame_ok fs.
Proof.
  intros Hs E Hsub. destruct (side_ok_step i now s s' fs Hs E) as (Hs' & acts & Hlog & -> & _ & _ & Hc & _).
  pose proof (side_ok_recv s' Hs') as Hr. destruct Hs' as [(Hi & _) Hac].
  pose proof (inv_fifo _ _ _ _ _ Hi) as Hf. pose proof (inv_ns _ _ _ _ _ Hi) as Hn.
  rewrite Hac, app_nil_r in Hf, Hn. rewrite Forall_forall in Hc. rewrite Forall_forall in Hsub.
  apply Forall_forall. intros a Ha. apply frames_elem in Ha.
  assert (seq_ok (recv_next (conn s'))) as Hrok by (unfold seq_ok; rewrite Hr; lia).
  specialize (Hc _ Ha). destruct a as [snd rcv d|rcv|f]; [|cbn in Hc; by rewrite <- Hc in Hrok|done].
  assert ((snd, d) ∈ iframes (log s')) as Hin.
  { unfold iframes. apply list_elem_of_omap. exists (SendApdu (ApduI snd rcv d)). split; [|done].
    rewrite Hlog. apply elem_of_app. by right. }
  cbn in Hc. subst rcv. assert (sendable d) as [Ho Hl].
  { apply Hsub. rewrite <- Hf. apply elem_of_app. left. apply list_elem_of_fmap. by exists (snd, d). }
  assert (seq_ok snd) by (eapply seq_run_ok; rewrite <- Hn; apply list_elem_of_fmap; by exists (snd, d)).
  by split.
Qed.

(** ** What a task writes and reports *)

Definition written (os : list Output) : bytes :=
  flat_map (fun o => match o with OutBytes b => b | _ => [] end) os.
Definition reported (os : list Output) : list DriverEvent :=
  omap (fun o => match o with OutEvent e => Some e | _ => None end) os.
Definition asdus_of (es : list DriverEvent) : list bytes :=
  omap (fun e => match e with EvAsdu b => Some b | _ => None end) es.

Lemma written_app a b : written (a ++ b) = written a ++ written b.
Proof. apply flat_map_app. Qed.
Lemma reported_app a b : reported (a ++ b) = reported a ++ reported b.
Proof. apply omap_app. Qed.
Lemma asdus_of_app a b : asdus_of (a ++ b) = asdus_of a ++ asdus_of b.
Proof. apply omap_app. Qed.
Lemma wire_app a b : wire (a ++ b) = wire a ++ wire b.
Proof. unfold wire. by rewrite fmap_app, concat_app. Qed.
Lemma frames_app a b : frames (a ++ b) = frames a ++ frames b.
Proof. apply omap_app. Qed.

Lemma octets_wire fs : Forall frame_ok fs -> octets (wire fs).
Proof.
  induction 1 as [|a fs [H1 H2] _ IH]; [apply octets_nil|].
  change (wire (a :: fs)) with (apdu_octets a ++ wire fs). apply octets_app. split; [by apply apdu_octets_octets|done].
Qed.

Section Station.
Context `{BC : BytesCrate}.
Context (clock : nat -> Instant) (write_ok : nat -> bool) (policy : AsduPolicy).

Definition always (n : nat) : bool := true.
#[local] Abbreviation performed := (performed policy false).
#[local] Abbreviation call := (call clock write_ok always always policy false).
#[local] Abbreviation apply_actions := (apply_actions write_ok always always policy false).

Lemma written_performed acts : Forall frame_ok (frames acts) -> written (flat_map performed acts) = wire (frames acts).
Proof.
  induction acts as [|a acts IH]; [done|]. cbn [flat_map]. rewrite written_app.
  destruct a as [apdu|asdu|s|r]; cbn [frames omap list_omap frame_of]; intros Hf.
  - apply Forall_cons in Hf as [[H1 H2] Hf]. rewrite IH by done. unfold Driver104.performed.
    rewrite (encode_apdu_eq apdu [] H1 H2). cbn. by rewrite app_nil_r.
  - rewrite IH by done. unfold Driver104.performed. cbn [andb]. by destruct (is_restrictive policy && _).
  - by rewrite IH.
  - by rewrite IH.
Qed.

(** The user is given the delivered ASDUs that the policy lists. *)
Lemma asdus_performed acts :
  asdus_of (reported (flat_map performed acts)) = filter (fun a => asdu_passes_policy a policy = true) (delivered acts).
Proof.
  induction acts as [|a acts IH]; [done|]. cbn [flat_map]. rewrite reported_app, asdus_of_app, IH.
  destruct a as [apdu|asdu|s|r]; cbn [delivered omap list_omap delivery_of]; try done.
  unfold Driver104.performed. rewrite rejects_spec. cbn [andb].
  destruct (asdu_passes_policy asdu policy) eqn:Hp; cbn [negb].
  - by rewrite filter_cons_True.
  - rewrite filter_cons_False by (by rewrite Hp). done.
Qed.

Lemma encode_sent apdu : frame_ok apdu -> encode_apdu apdu [] = (Ok (length (apdu_octets apdu)), apdu_octets apdu).
Proof. intros [H1 H2]. by rewrite encode_apdu_eq. Qed.

(** Once it is to end, the task is not told to go on. *)
Lemma apply_actions_keep acts k d r d' : apply_actions acts k d = (r, d') ->
  (k = false -> r ≠ inr true) \/ ∃ x, r = inl x.
Proof.
  revert k d. induction acts as [|a acts IH]; intros k d; [intros [= <- _]; left; by intros ->|].
  destruct a as [apdu|asdu|s|rs]; cbn [Driver104.apply_actions].
  - destruct (act_send_apdu _ _ _) as [[x|] d1]; [intros [= <- _]; eauto|apply IH].
  - destruct (act_deliver _ _ _ _ _ _) as [[x|ok] d1]; [intros [= <- _]; eauto|]. intros E.
    destruct (IH _ _ E) as [H|H]; [left|by right]. by intros ->; apply H.
  - destruct (send_evt _ _ _) as [ok d1]. intros E. destruct (IH _ _ E) as [H|H]; [left|by right]. by intros ->; apply H.
  - destruct (send_evt _ _ _) as [ok d1]. intros E. destruct (IH _ _ E) as [H|H]; [left|by right]. intros _. by apply H.
Qed.

(** The actions of a call are carried out up to the first write that fails;
    only a [Disconnect] among them ends the task in good order. *)
Lemma apply_actions_performed acts k d r d' : Forall frame_ok (frames acts) -> apply_actions acts k d = (r, d') ->
  ∃ pre post, acts = pre ++ post /\ d' = add_outs (flat_map performed pre) d /\
    match r with
    | inr k' => post = [] /\ (k' = true -> Forall no_disconnect acts)
    | inl x => x = ExitErr ErrIo
    end.
Proof.
  revert k d. induction acts as [|a acts IH]; intros k d Hf.
  { intros [= <- <-]. exists [], []. split; [done|]. split; [|by split].
    unfold add_outs. rewrite app_nil_r. by destruct d. }
  assert (Forall frame_ok (frames acts)) as Hf' by (destruct a; [by apply Forall_cons in Hf as [_ Hf]|exact Hf..]).
  assert (∀ k1 d1, d1 = add_outs (performed a) d -> no_disconnect a \/ k1 = false ->
    apply_actions acts k1 d1 = (r, d') -> ∃ pre post, a :: acts = pre ++ post /\ d' = add_outs (flat_map performed pre) d /\
    match r with
    | inr k' => post = [] /\ (k' = true -> Forall no_disconnect (a :: acts))
    | inl x => x = ExitErr ErrIo end) as Hgo.
  { intros k1 d1 -> Ha E. destruct (apply_actions_keep acts k1 _ _ _ E) as [Hk|(x & ->)].
    all: destruct (IH _ _ Hf' E) as (pre & post & -> & -> & Hr); exists (a :: pre), post; split; [done|]; split;
      [cbn [flat_map]; by rewrite add_outs_add|]. 2: done.
    destruct r as [x|k']; [done|]. destruct Hr as [-> Hr]. split; [done|]. intros ->.
    constructor; [|by apply Hr]. destruct Ha as [Ha | ->]; [done|]. by specialize (Hk eq_refl). }
  destruct a as [apdu|asdu|s|rs]; cbn [Driver104.apply_actions].
  - apply Forall_cons in Hf as [Ha _]. unfold act_send_apdu. rewrite (encode_sent apdu Ha).
    destruct (write_ok _); [|intros [= <- <-]; exists [], (SendApdu apdu :: acts); split; [done|]; split; [|done];
      unfold add_outs; rewrite app_nil_r; by destruct d].
    apply Hgo; [|by left]. unfold Driver104.performed. by rewrite (encode_sent apdu Ha).
  - destruct (act_deliver_open always always policy false (fun _ => eq_refl) (fun _ => eq_refl) asdu d) as [Hd|Hd].
    + exfalso. unfold act_deliver in Hd. cbn in Hd. by destruct (is_restrictive policy && _).
    + rewrite Hd. apply Hgo; [done|by left].
  - rewrite (send_evt_open always (fun _ => eq_refl)). apply Hgo; [done|by left].
  - rewrite (send_evt_open always (fun _ => eq_refl)). apply Hgo; [done|by right].
Qed.

End Station.

(** ** A task follows its side of the pair *)

(** A task ends because it is told to, or because the transport fails. *)
Definition ok_exit (x : option Exit) : Prop := x = None \/ x = Some ExitOk \/ x = Some (ExitErr ErrIo).

(** What the task has done is what the first actions of its side come to;
    while it runs, all of them. *)
Record runs `{BC : BytesCrate} (policy : AsduPolicy) (x : option Exit) (d : Driver) (s : side) : Prop := {
  ru_out : ∃ acts last, acts `prefix_of` log s /\ out d = flat_map (performed policy false) acts ++ last /\
    (last = [] \/ last = [OutEvent (EvClosed None)]);
  ru_live : x = None -> drv_conn d = conn s /\ up s /\ out d = flat_map (performed policy false) (log s) }.

(** What a running task has buffered and what it has not read yet of the
    octets of its peer are the frames in the channel; all of them while the
    peer runs. *)
Definition linked (x : option Exit) (d : Driver) (rd : nat) (xp : option Exit) (dp : Driver) (ch : list Apdu) : Prop :=
  x = None -> ∃ rest, rest `prefix_of` ch /\ (xp = None -> rest = ch) /\ Forall frame_ok rest /\
    (rd <= length (written (out dp)))%nat /\ rx_buf d ++ drop rd (written (out dp)) = wire rest.

Lemma linked_out x d rd dp xp' dp' ch fs post : linked x d rd None dp ch ->
  written (out dp') = written (out dp) ++ wire fs -> Forall frame_ok (fs ++ post) -> (xp' = None -> post = []) ->
  linked x d rd xp' dp' (ch ++ fs ++ post).
Proof.
  intros H Hw Hf Hp Hx. destruct (H Hx) as (rest & _ & Hr & Hok & Hle & Heq). specialize (Hr eq_refl). subst rest.
  apply Forall_app in Hf as [Hf _]. exists (ch ++ fs). split_and!.
  - rewrite app_assoc. by apply prefix_app_r.
  - intros H'. by rewrite (Hp H'), app_nil_r.
  - by apply Forall_app.
  - rewrite Hw, length_app. lia.
  - by rewrite Hw, drop_app_le, app_assoc, Heq, wire_app by done.
Qed.

Section Sim.
Context `{BC : BytesCrate}.
Context (clock : Who -> nat -> Instant) (write_ok : Who -> nat -> bool) (policy : Who -> AsduPolicy).
Context (cfgA cfgB : Config).
Hypothesis HwA : 0 <= cfg_w cfgA.
Hypothesis HwB : 0 <= cfg_w cfgB.
Hypothesis HkA : cfg_k cfgA <= 16383.
Hypothesis HkB : cfg_k cfgB <= 16383.

#[local] Abbreviation reachable := (net_reachable cfgA cfgB).
#[local] Abbreviation call w := (call (clock w) (write_ok w) always always (policy w) false).
#[local] Abbreviation drain_all w := (drain_all (clock w) (write_ok w) always always (policy w) false).
#[local] Abbreviation turn w := (turn (clock w) (write_ok w) always always (policy w) false).

Lemma reachable_side w n : reachable n -> side_ok (st w n).
Proof.
  intros Hr. destruct (net_reachable_inv _ _ n HwA HwB HkA HkB Hr) as [H1 _].
  destruct w; [apply (half_a _ _ _ _ H1)|apply (half_b _ _ _ _ H1)].
Qed.

(** A call of the state machine is a step of the pair. *)
Lemma call_sim w n i d x d' ch : reachable n -> runs (policy w) None d (st w n) -> takes i (ch_in w n) ch ->
  Forall sendable (sub (st w n) ++ option_list (submitted_of i)) -> call w i d = (x, d') ->
  ∃ n' fs post, net_step n n' /\ st (other w) n' = st (other w) n /\ ch_in w n' = ch /\
    ch_out w n' = ch_out w n ++ fs ++ post /\ Forall frame_ok (fs ++ post) /\ (x = None -> post = []) /\
    sub (st w n') = sub (st w n) ++ option_list (submitted_of i) /\
    runs (policy w) x d' (st w n') /\ ok_exit x /\ rx_buf d' = rx_buf d /\
    written (out d') = written (out d) ++ wire fs.
Proof.
  intros Hr [_ Hlive] Ht Hsend Hc. destruct (Hlive eq_refl) as (Hconn & Hup & Hout). clear Hlive.
  destruct (side_step i (clock w (calls d)) (st w n)) as [s' fs'] eqn:E.
  destruct (who_step w n i _ s' fs' ch Ht Hup E) as (n' & Hs & Hst & Hoth & Hcho & Hchi).
  pose proof (reachable_side w n Hr) as Hok.
  destruct (side_ok_step _ _ _ _ _ Hok E) as (_ & acts & Hlog & -> & _ & Hsub & _ & Hh).
  assert (Forall frame_ok (frames acts)) as Hf by (apply (step_frames_ok _ _ _ _ _ Hok E); by rewrite Hsub).
  unfold Driver104.call in Hc. rewrite Hconn, Hh in Hc. cbn [fst snd] in Hc.
  destruct (apply_actions _ _ _ _ _ _ _ _) as [r d1] eqn:Ha.
  destruct (apply_actions_performed _ _ _ _ _ _ _ Hf Ha) as (pre & post & -> & Hd1 & Hres).
  assert (rx_buf d1 = rx_buf d /\ out d1 = out d ++ flat_map (performed (policy w) false) pre /\ drv_conn d1 = conn s')
    as (Hrx & Ho & Hcn) by (by subst d1).
  rewrite frames_app in *. exists n', (frames pre), (frames post).
  assert (d' = d1) as -> by (by destruct r as [|[]]; injection Hc).
  assert (match x with None => post = [] /\ Forall no_disconnect (pre ++ post) | Some _ => True end /\ ok_exit x) as [Hx Hex].
  { unfold ok_exit. destruct r as [y|[]]; injection Hc as <-; [subst y; tauto| |split; [done|tauto]].
    destruct Hres as [-> Hn]. split; [split; [done|by apply Hn]|tauto]. }
  split_and!; [done..| | | |done|done|].
  - intros ->. destruct Hx as [-> _]. done.
  - by rewrite Hst.
  - rewrite Hst. split.
    + exists (log (st w n) ++ pre), []. rewrite flat_map_app, app_nil_r, Ho, Hout, Hlog. split; [|by split; [|left]].
      rewrite app_assoc. by apply prefix_app_r.
    + intros ->. destruct Hx as [-> Hn]. rewrite app_nil_r in *. split; [done|]. split.
      * unfold up. rewrite Hlog. by apply Forall_app.
      * by rewrite Ho, Hout, Hlog, flat_map_app.
  - apply Forall_app in Hf as [Hf _]. by rewrite Ho, written_app, written_performed.
Qed.

(** The two directions of a connection between the task [d] of [w] and the
    task [dp] of the other side. *)
Record coupled (w : Who) (n : net) (x : option Exit) (d : Driver) (rd : nat)
    (xp : option Exit) (dp : Driver) (rdp : nat) : Prop := {
  cp_reach : reachable n;
  cp_sub : Forall sendable (sub (st w n));
  cp_runs : runs (policy w) x d (st w n);
  cp_in : linked x d rd xp dp (ch_in w n);
  cp_out : linked xp dp rdp x d (ch_out w n) }.

(** What a turn of [w] leaves of the pair. *)
Definition turned (w : Who) (n n' : net) (asdus : list bytes) : Prop :=
  rtc net_step n n' /\ st (other w) n' = st (other w) n /\ sub (st w n') = sub (st w n) ++ asdus.

Lemma turned_refl w n : turned w n n [].
Proof. split_and!; [done..|]. by rewrite app_nil_r. Qed.
Lemma turned_trans w n1 n2 n3 a b : turned w n1 n2 a -> turned w n2 n3 b -> turned w n1 n3 (a ++ b).
Proof.
  intros (H1 & H2 & H3) (H4 & H5 & H6). split_and!; [by etrans|congruence|by rewrite H6, H3, app_assoc].
Qed.

(** A call for a command, the clock or the frame at the head of the channel. *)
Lemma call_coupled w n i d d0 rd xp dp rdp x d' ch : coupled w n None d0 rd xp dp rdp ->
  drv_conn d = drv_conn d0 -> out d = out d0 -> linked None d rd xp dp ch ->
  takes i (ch_in w n) ch -> Forall sendable (option_list (submitted_of i)) -> call w i d = (x, d') ->
  ∃ n', turned w n n' (option_list (submitted_of i)) /\ coupled w n' x d' rd xp dp rdp /\ ok_exit x.
Proof.
  intros [Hr Hs Hru _ Hout] Hcn Ho Hin Ht Hsi Hc.
  assert (runs (policy w) None d (st w n)) as Hru' by (destruct Hru; split; by rewrite ?Hcn, ?Ho).
  destruct (call_sim w n i d x d' ch Hr Hru' Ht (Forall_app_2 _ _ _ Hs Hsi) Hc)
    as (n' & fs & post & Hst & Hoth & Hchi & Hcho & Hf & Hp & Hsub & Hru2 & Hex & Hrx & Hw).
  exists n'. split; [split_and!; [by apply rtc_once|done|done]|]. split; [|done].
  split; [by eapply rtc_r|by rewrite Hsub; apply Forall_app_2|done| |].
  - rewrite Hchi. intros ->. unfold linked in Hin. rewrite Hrx. by apply Hin.
  - rewrite Hcho. eapply linked_out; [exact Hout|by rewrite Hw, Ho|done|done].
Qed.

(** The frame in front of the buffer is the one at the head of the channel. *)
Lemma linked_head d rd xp dp ch : linked None d rd xp dp ch ->
  match decode_slice (rx_buf d) with
  | Ok None => True
  | Ok (Some (a, k)) => ∃ ch', ch = a :: ch' /\
      ∀ d', rx_buf d' = drop k (rx_buf d) -> linked None d' rd xp dp ch'
  | _ => False
  end.
Proof.
  intros H. destruct (H eq_refl) as (rest & Hpre & Heq & Hok & Hle & Hw).
  set (u := drop rd (written (out dp))) in *.
  assert (decode_slice (rx_buf d) ≠ Ok None ->
    ∃ a rest', rest = a :: rest' /\ decode_slice (rx_buf d) = Ok (Some (a, length (apdu_octets a)))) as Hd.
  { intros Hn. pose proof (decode_slice_extend (rx_buf d) u _ eq_refl Hn) as He. rewrite Hw in He.
    destruct rest as [|a rest']; [by rewrite <- He in Hn|]. apply Forall_cons in Hok as [[H1 H2] _].
    exists a, rest'. split; [done|]. rewrite <- He. by apply decode_slice_encode. }
  destruct (decode_slice (rx_buf d)) as [[[a k]|]|e|] eqn:E; [|done| |].
  2,3: by destruct Hd as (a & rest' & _ & ?).
  destruct Hd as (a0 & rest' & -> & [= <- ->]); [done|]. apply Forall_cons in Hok as [Ha Hok].
  destruct Hpre as [k Hk]. exists (rest' ++ k). split; [done|]. intros d' Hrx _. exists rest'.
  split_and!; [by apply prefix_app_r| |done|done|].
  - intros Hx. specialize (Heq Hx). rewrite Hk in Heq. by injection Heq.
  - fold u. pose proof (decode_slice_pos _ _ _ E) as Hp. change (wire (a :: rest')) with (apdu_octets a ++ wire rest') in Hw.
    apply (f_equal (drop (length (apdu_octets a)))) in Hw. rewrite drop_app_le, drop_app_length in Hw by lia. by rewrite Hrx.
Qed.

(** The decode loop. *)
Lemma drain_sim w d n rd xp dp rdp : coupled w n None d rd xp dp rdp ->
  ∃ x d' n', drain_all w d = Some (x, d') /\ turned w n n' [] /\ coupled w n' x d' rd xp dp rdp /\ ok_exit x /\
    (x = None -> decode_slice (rx_buf d') = Ok None).
Proof.
  revert n. induction d as [d IH] using drain_ind. intros n Hcp. rewrite drain_all_eq.
  pose proof (linked_head _ _ _ _ _ (cp_in _ _ _ _ _ _ _ _ Hcp)) as Hh.
  destruct (decode_slice (rx_buf d)) as [[[a k]|]|e|] eqn:E; [| |done..].
  2: { exists None, d, n. split; [done|]. split; [apply turned_refl|]. split; [done|]. split; [by left|done]. }
  destruct Hh as (ch' & Hch & Hl). destruct (call w (InApdu a) (advance k d)) as [x d1] eqn:Hc.
  destruct (call_advance_shrinks _ _ _ _ _ _ _ _ _ _ _ E Hc) as [Hlen _].
  destruct (call_coupled w n (InApdu a) (advance k d) d rd xp dp rdp x d1 ch') as (n1 & Ht1 & Hc1 & Hx1);
    [done..|by apply Hl|done|constructor|done|].
  destruct x as [x|]; [by exists (Some x), d1, n1|].
  destruct (IH d1 Hlen n1 Hc1) as (x & d2 & n2 & Hd & Ht2 & Hc2 & Hx2 & Hn). exists x, d2, n2.
  split; [done|]. split; [by apply (turned_trans w n n1 n2 [] [])|done].
Qed.

(** What the transport can hand to the task. *)
Definition readable (rd : nat) (xp : option Exit) (dp : Driver) (res : option bytes) : Prop :=
  match res with
  | None => True
  | Some [] => xp ≠ None
  | Some c => c `prefix_of` drop rd (written (out dp))
  end.

Lemma linked_read d rd xp dp ch c : linked None d rd xp dp ch -> c `prefix_of` drop rd (written (out dp)) ->
  linked None (append c d) (rd + length c) xp dp ch /\ octets (rx_buf d ++ c).
Proof.
  intros H [u Hu]. destruct (H eq_refl) as (rest & Hpre & Heq & Hok & Hle & Hw). rewrite Hu in Hw.
  pose proof (f_equal length Hu) as Hl. rewrite length_drop, length_app in Hl. split.
  - intros _. exists rest. split_and!; [done..|lia|]. rewrite <- drop_drop, Hu, drop_app_length. cbn. by rewrite <- app_assoc.
  - pose proof (octets_wire rest Hok) as Ho. rewrite <- Hw, app_assoc in Ho. by apply octets_app in Ho as [Ho _].
Qed.

Lemma add_outs_nil d : add_outs [] d = d.
Proof. unfold add_outs. rewrite app_nil_r. by destruct d. Qed.

(** A task that ends on its own account. *)
Lemma coupled_end w n d last rd xp dp rdp x : last = [] \/ last = [OutEvent (EvClosed None)] ->
  coupled w n None d rd xp dp rdp -> x ≠ None -> coupled w n x (add_outs last d) rd xp dp rdp.
Proof.
  intros Hl [H1 H2 [H3 H4] H5 H6] Hx. destruct (H4 eq_refl) as (_ & _ & Ho). split; [done|done| |intros ?; done|].
  - split; [|done]. exists (log (st w n)), last. split; [reflexivity|]. split; [cbn; by rewrite Ho|done].
  - intros Hp. destruct (H6 Hp) as (rest & Hr). exists rest. cbn. rewrite written_app.
    assert (written last = []) as -> by (by destruct Hl as [-> | ->]). rewrite app_nil_r.
    destruct Hr as (Hr1 & Hr2 & Hr3). by split; [|split; [intros ->|]].
Qed.

(** A turn of the task. *)
Definition input_ok (rd : nat) (xp : option Exit) (dp : Driver) (i : DrvInput) : Prop :=
  match i with
  | RxCommand c => Forall sendable (option_list (command_asdu i))
  | RxTick => True
  | RxRead res => readable rd xp dp res
  end.

Lemma turn_sim w n d rd xp dp rdp i : coupled w n None d rd xp dp rdp -> decode_slice (rx_buf d) = Ok None ->
  input_ok rd xp dp i ->
  ∃ x d' n', turn w i d = Some (x, d') /\ turned w n n' (option_list (command_asdu i)) /\
    coupled w n' x d' (rd + length (read_octets i)) xp dp rdp /\ ok_exit x /\
    (x = None -> decode_slice (rx_buf d') = Ok None) /\ out d `prefix_of` out d'.
Proof.
  intros Hcp Hd Hi.
  assert (∀ j, local j -> read_octets i = [] -> submitted_of j = command_asdu i ->
    Forall sendable (option_list (command_asdu i)) ->
    ∃ x d' n', Some (call w j d) = Some (x, d') /\ turned w n n' (option_list (command_asdu i)) /\
    coupled w n' x d' (rd + length (read_octets i)) xp dp rdp /\ ok_exit x /\
    (x = None -> decode_slice (rx_buf d') = Ok None) /\ out d `prefix_of` out d') as Hcall.
  { intros j Hj -> Hsub Hs. cbn [length]. rewrite Nat.add_0_r. destruct (call w j d) as [x d'] eqn:Hc.
    destruct (call_coupled w n j d d rd xp dp rdp x d' (ch_in w n)) as (n' & Ht & Hcp' & Hx);
      [done|done|done|apply Hcp|by destruct j|by rewrite Hsub|done|]. rewrite Hsub in Ht.
    exists x, d', n'. replace d' with (call w j d).2 in Hcp' |- * by (by rewrite Hc).
    split; [by rewrite Hc|]. split; [done|]. split; [done|]. split; [done|]. split; [|apply call_grows].
    intros _. by rewrite call_keeps_rx. }
  destruct i as [[[asdu| |]|]| |[[|b c]|]]; cbn [Driver104.turn]; try (apply Hcall; done).
  - exists (Some ExitOk), d, n. cbn [read_octets length]. rewrite Nat.add_0_r.
    split; [done|]. split; [apply turned_refl|]. split; [rewrite <- (add_outs_nil d); by eapply coupled_end; [left| |]|]. split; [right; by left|done].
  - cbn [on_read]. rewrite (send_evt_open always (fun _ => eq_refl)). exists (Some ExitOk), (add_outs [OutEvent (EvClosed None)] d), n.
    cbn [read_octets length]. rewrite Nat.add_0_r.
    split; [done|]. split; [apply turned_refl|]. split; [by eapply coupled_end; [right| |]|]. split; [right; by left|].
    split; [done|by apply prefix_app_r].
  - destruct (linked_read _ _ _ _ _ _ (cp_in _ _ _ _ _ _ _ _ Hcp) Hi) as [Hl Ho].
    rewrite on_read_drain by done. cbn [read_octets command_asdu option_list].
    destruct (drain_sim w (append (b :: c) d) n (rd + length (b :: c)) xp dp rdp) as (x & d' & n' & Hdr & Ht & Hc & Hx & Hn).
    { destruct Hcp as [H1 H2 [H3 H4] H5 H6]. by split. }
    exists x, d', n'. split_and!; [done|apply Ht..|done|done|done|]. by apply drain_grows in Hdr.
  - exists (Some (ExitErr ErrIo)), d, n. cbn [read_octets length]. rewrite Nat.add_0_r.
    split; [done|]. split; [apply turned_refl|]. split; [rewrite <- (add_outs_nil d); by eapply coupled_end; [left| |]|]. split; [right; by right|done].
Qed.

End Sim.

(** ** The stack *)

Section Stack.
Context `{BC : BytesCrate} `{MP : Mpsc}.
Context (clock : Who -> nat -> Instant) (write_ok : Who -> nat -> bool) (policy : Who -> AsduPolicy).
Context (cfgA cfgB : Config).

(** A handle with its channels and its task. [sn_read] counts the octets read
    from the transport, [sn_pushed] the events put into the channel;
    [sn_accepted] are the ASDUs for which [send_asdu] has returned [Ok],
    [sn_received] those [recv] has returned. *)
Record Station := mkStation {
  sn_drv : Driver; sn_exit : option Exit; sn_cmd : chan Command; sn_evt : chan DriverEvent;
  sn_read : nat; sn_pushed : nat; sn_accepted : list bytes; sn_received : list bytes }.

(** What the user, the task or the transport does next. *)
Inductive Move :=
| MvSend (asdu : bytes) | MvStop | MvRecv | MvDrop
| MvCommand | MvTick | MvRead (n : nat) | MvEof | MvBreak | MvPush | MvClose.

Definition sn_send (w : Who) : bytes -> chan Command -> option ((unit + ApiError) * chan Command) :=
  match w with Cl => client_send_asdu | Sv => server_send_asdu end.

(** The ASDU in what [recv] returns. *)
Definition sn_recv (w : Who) (evt : chan DriverEvent) : option (option bytes * chan DriverEvent) :=
  match w with
  | Cl => match client_recv evt with
          | Some (Some (CeAsdu b), c) => Some (Some b, c)
          | Some (_, c) => Some (None, c)
          | None => None
          end
  | Sv => match server_recv evt with
          | Some (Some (SeAsdu b), c) => Some (Some b, c)
          | Some (_, c) => Some (None, c)
          | None => None
          end
  end.

Definition with_cmd (c : chan Command) (acc : list bytes) (s : Station) : Station :=
  mkStation (sn_drv s) (sn_exit s) c (sn_evt s) (sn_read s) (sn_pushed s) (sn_accepted s ++ acc) (sn_received s).
Definition with_evt (c : chan DriverEvent) (pushed : nat) (rcv : list bytes) (s : Station) : Station :=
  mkStation (sn_drv s) (sn_exit s) (sn_cmd s) c (sn_read s) pushed (sn_accepted s) (sn_received s ++ rcv).

(** The task is running and all it has reported is in the channel. *)
Definition idle (s : Station) : bool :=
  match sn_exit s with None => (sn_pushed s =? length (reported (out (sn_drv s))))%nat | Some _ => false end.

(** A turn; the receiver of the commands goes with the task. *)
Definition take_turn (w : Who) (i : DrvInput) (cmd : chan Command) (s : Station) : option Station :=
  if idle s then
    match turn (clock w) (write_ok w) always always (policy w) false i (sn_drv s) with
    | Some (x, d) =>
        Some (mkStation d x (match x with None => cmd | Some _ => mpsc_drop_rx cmd end) (sn_evt s)
          (sn_read s + length (read_octets i)) (sn_pushed s) (sn_accepted s) (sn_received s))
    | None => None
    end
  else None.

(** [None] is a move that is not possible now. [p] is the other station. *)
Definition station_move (w : Who) (m : Move) (p s : Station) : option Station :=
  let unread := drop (sn_read s) (written (out (sn_drv p))) in
  match m with
  | MvSend asdu =>
      match sn_send w asdu (sn_cmd s) with
      | Some (inl _, c) => Some (with_cmd c [asdu] s)
      | Some (inr _, c) => Some (with_cmd c [] s)
      | None => None
      end
  | MvStop =>
      match w with
      | Cl => match client_stop (sn_cmd s) with Some (_, c) => Some (with_cmd c [] s) | None => None end
      | Sv => None
      end
  | MvRecv =>
      match sn_recv w (sn_evt s) with
      | Some (b, c) => Some (with_evt c (sn_pushed s) (option_list b) s)
      | None => None
      end
  | MvDrop => Some (with_cmd (mpsc_drop_tx (sn_cmd s)) [] s)
  | MvCommand =>
      match mpsc_recv (sn_cmd s) with
      | Some (c, cmd) => take_turn w (RxCommand c) cmd s
      | None => None
      end
  | MvTick => take_turn w RxTick (sn_cmd s) s
  | MvRead n =>
      match take n unread with
      | [] => None
      | chunk => take_turn w (RxRead (Some chunk)) (sn_cmd s) s
      end
  | MvEof =>
      match sn_exit p, unread with
      | Some _, [] => take_turn w (RxRead (Some [])) (sn_cmd s) s
      | _, _ => None
      end
  | MvBreak => take_turn w (RxRead None) (sn_cmd s) s
  | MvPush =>
      match reported (out (sn_drv s)) !! sn_pushed s with
      | Some e =>
          match mpsc_send e (sn_evt s) with
          | Some (true, c) => Some (with_evt c (S (sn_pushed s)) [] s)
          | _ => None
          end
      | None => None
      end
  | MvClose =>
      match sn_exit s, reported (out (sn_drv s)) !! sn_pushed s with
      | Some _, None => Some (with_evt (mpsc_drop_tx (sn_evt s)) (sn_pushed s) [] s)
      | _, _ => None
      end
  end.

Record Stack := mkStack { sk_client : Station; sk_server : Station }.
Definition at_ (w : Who) (k : Stack) : Station := match w with Cl => sk_client k | Sv => sk_server k end.
Definition put (w : Who) (s : Station) (k : Stack) : Stack :=
  match w with Cl => mkStack s (sk_server k) | Sv => mkStack (sk_client k) s end.

Definition stack_move (k : Stack) (m : Who * Move) : option Stack :=
  (fun s => put m.1 s k) <$> station_move m.1 m.2 (at_ (other m.1) k) (at_ m.1 k).

Fixpoint stack_moves (ms : list (Who * Move)) (k : Stack) : option Stack :=
  match ms with
  | [] => Some k
  | m :: ms => match stack_move k m with Some k' => stack_moves ms k' | None => None end
  end.

Definition start_station (d : Driver) (cmd : chan Command) (evt : chan DriverEvent) : Station :=
  mkStation d None cmd evt 0 0 [] [].

(** A client that has connected and the connection its server has accepted. *)
Definition stack_start : option Stack :=
  match client_spawn_with_ft cfgA false with
  | Some (inl c, d) =>
      let '(sender, events, d') := server_spawn_with_ft 0 cfgB in
      Some (mkStack (start_station d (c_cmd_tx c) (c_evt_rx c))
        (start_station d' (ss_cmd_tx sender) (sv_evt_rx events)))
  | _ => None
  end.

Definition stack_run (ms : list (Who * Move)) : option Stack :=
  match stack_start with Some k => stack_moves ms k | None => None end.

(** ** Every run of the stack is a run of the pair of connections *)

Hypothesis HwA : 0 <= cfg_w cfgA.
Hypothesis HwB : 0 <= cfg_w cfgB.
Hypothesis HkA : cfg_k cfgA <= 16383.
Hypothesis HkB : cfg_k cfgB <= 16383.

#[local] Abbreviation coupled := (coupled policy cfgA cfgB).

Definition command_of (c : Command) : option bytes := match c with CmdSendAsdu b => Some b | _ => None end.

Record station_ok (w : Who) (n : net) (s p : Station) : Prop := {
  so_coupled : coupled w n (sn_exit s) (sn_drv s) (sn_read s) (sn_exit p) (sn_drv p) (sn_read p);
  so_drained : sn_exit s = None -> decode_slice (rx_buf (sn_drv s)) = Ok None;
  so_exit : ok_exit (sn_exit s);
  so_sendable : Forall sendable (sn_accepted s);
  so_prefix : sub (st w n) `prefix_of` sn_accepted s;
  so_accepted : sn_exit s = None -> sn_accepted s = sub (st w n) ++ omap command_of (queued (sn_cmd s));
  so_events : sn_received s ++ asdus_of (queued (sn_evt s)) =
    asdus_of (take (sn_pushed s) (reported (out (sn_drv s)))) }.

Definition stack_ok (k : Stack) : Prop := ∃ n, ∀ w, station_ok w n (at_ w k) (at_ (other w) k).

(** The other side of a connection that [w] has changed. *)
Lemma coupled_swap w n n' x d rd x0 d0 rd0 xp dp rdp :
  coupled (other w) n xp dp rdp x0 d0 rd0 -> st (other w) n' = st (other w) n ->
  coupled w n' x d rd xp dp rdp -> coupled (other w) n' xp dp rdp x d rd.
Proof.
  intros [_ H2 H3 _ _] Hst [H1' _ _ H4' H5']. split; [done|by rewrite Hst..| |].
  - unfold ch_in. by rewrite other_other.
  - done.
Qed.

(** What the other station knows of [s] is its task. *)
Definition same_task (s s' : Station) : Prop :=
  sn_exit s' = sn_exit s /\ sn_drv s' = sn_drv s /\ sn_read s' = sn_read s.

Lemma station_ok_peer w n s p p' : same_task p p' -> station_ok w n s p -> station_ok w n s p'.
Proof. intros (H1 & H2 & H3) []. split; try done. by rewrite H1, H2, H3. Qed.

Lemma with_cmd_ok w n s p c acc : station_ok w n s p -> Forall sendable acc ->
  (sn_exit s = None -> omap command_of (queued c) = omap command_of (queued (sn_cmd s)) ++ acc) ->
  station_ok w n (with_cmd c acc s) p.
Proof.
  intros [H1 H2 H3 H4 H5 H6 H7] Ha Hq. split; cbn; try done.
  - by apply Forall_app.
  - by apply prefix_app_r.
  - intros Hx. by rewrite (H6 Hx), (Hq Hx), app_assoc.
Qed.

Lemma with_evt_ok w n s p c pushed rcv : station_ok w n s p ->
  (sn_received s ++ asdus_of (queued (sn_evt s)) = asdus_of (take (sn_pushed s) (reported (out (sn_drv s)))) ->
   (sn_received s ++ rcv) ++ asdus_of (queued c) = asdus_of (take pushed (reported (out (sn_drv s))))) ->
  station_ok w n (with_evt c pushed rcv s) p.
Proof. intros [H1 H2 H3 H4 H5 H6 H7] Hq. split; cbn; try done. by apply Hq. Qed.

(** [send_asdu] lets through what the framing can carry, and nothing else
    reaches the task. *)
Lemma sn_send_spec w asdu c r c' : sn_send w asdu c = Some (r, c') ->
  match r with
  | inl _ => (length asdu <= MAX_ASDU_LEN)%nat /\ queued c' = queued c ++ [CmdSendAsdu asdu]
  | inr _ => c' = c
  end.
Proof.
  assert (∀ r c', client_send_asdu asdu c = Some (r, c') ->
    match r with inl _ => (length asdu <= MAX_ASDU_LEN)%nat /\ queued c' = queued c ++ [CmdSendAsdu asdu] | inr _ => c' = c end) as H.
  { intros r1 c1. unfold client_send_asdu. destruct (Nat.ltb_spec MAX_ASDU_LEN (length asdu)); [by intros [= <- <-]|].
    destruct (mpsc_send _ c) as [[[] c2]|] eqn:E; [| |done]; intros [= <- <-].
    - split; [lia|]. by apply send_queued.
    - by apply send_refused in E as [-> _]. }
  destruct w; apply H.
Qed.

Lemma sn_recv_spec w c b c' : sn_recv w c = Some (b, c') ->
  asdus_of (queued c) = option_list b ++ asdus_of (queued c').
Proof.
  assert (∀ e c1, mpsc_recv c = Some (e, c1) ->
    asdus_of (queued c) = match e with Some (EvAsdu b) => [b] | _ => [] end ++ asdus_of (queued c1)) as H.
  { intros [e|] c1 E.
    - rewrite (recv_queued _ _ _ E). by destruct e.
    - pose proof (recv_law c) as Hl. rewrite E in Hl. by destruct Hl as (_ & _ & ->). }
  destruct w; simpl; unfold client_recv, server_recv; destruct (mpsc_recv c) as [[[[]|] c1]|]; try done;
    specialize (H _ _ eq_refl); intros [= <- <-]; exact H.
Qed.

(** A turn of a task. *)
Lemma take_turn_ok w n i cmd p s s' : station_ok w n s p -> station_ok (other w) n p s ->
  input_ok (sn_read s) (sn_exit p) (sn_drv p) i ->
  (sn_exit s = None -> omap command_of (queued (sn_cmd s)) = option_list (command_asdu i) ++ omap command_of (queued cmd)) ->
  take_turn w i cmd s = Some s' -> ∃ n', station_ok w n' s' p /\ station_ok (other w) n' p s'.
Proof.
  intros Hs Hp Hi Hq. unfold take_turn, idle. destruct (sn_exit s) as [x0|] eqn:Hx0; [done|].
  destruct (Nat.eqb_spec (sn_pushed s) (length (reported (out (sn_drv s))))) as [Hpu|]; [|done].
  destruct Hs as [H1 H2 H3 H4 H5 H6 H7]. rewrite Hx0 in *. specialize (H2 eq_refl). specialize (H6 eq_refl). specialize (Hq eq_refl).
  destruct (turn_sim clock write_ok policy cfgA cfgB HwA HwB HkA HkB w n _ _ _ _ _ i H1 H2 Hi)
    as (x & d' & n' & -> & (Hr & Hoth & Hsub) & Hcp & Hex & Hd & [os Hos]). intros [= <-]. exists n'. split.
  - split; cbn; try done.
    + rewrite Hsub, H6, Hq. apply prefix_app, prefix_app_r. reflexivity.
    + intros ->. by rewrite Hsub, H6, Hq, app_assoc.
    + rewrite H7, Hos, reported_app, Hpu, take_app_length, firstn_all. done.
  - destruct Hp as [P1 P2 P3 P4 P5 P6 P7]. rewrite Hx0 in P1. split; cbn; try done; rewrite ?Hoth; try done.
    by eapply coupled_swap.
Qed.

(** The octets the user passes are octets. *)
Definition move_octets (m : Move) : Prop := match m with MvSend asdu => octets asdu | _ => True end.

(** The commands that wait are sendable. *)
Lemma waiting_sendable w n s p : station_ok w n s p -> sn_exit s = None ->
  Forall sendable (omap command_of (queued (sn_cmd s))).
Proof. intros [_ _ _ H _ Ha _] Hx. rewrite (Ha Hx) in H. by apply Forall_app in H as [_ H]. Qed.

Lemma take_reported_S (es : list DriverEvent) k e : es !! k = Some e -> take (S k) es = take k es ++ [e].
Proof. apply take_S_r. Qed.

(** A move of one station keeps both in step with the pair. *)
Lemma station_move_ok w n m p s s' : station_ok w n s p -> station_ok (other w) n p s -> move_octets m ->
  station_move w m p s = Some s' -> ∃ n', station_ok w n' s' p /\ station_ok (other w) n' p s'.
Proof.
  intros Hs Hp Hm.
  assert (∀ s', station_ok w n s' p -> same_task s s' -> ∃ n', station_ok w n' s' p /\ station_ok (other w) n' p s')
    as Hsame by (intros s1 H1 H2; exists n; split; [done|by eapply station_ok_peer]).
  assert (∀ c, c = sn_cmd s -> station_ok w n (with_cmd c [] s) p) as Hcmd
    by (intros c ->; apply with_cmd_ok; [done|constructor|intros _; by rewrite app_nil_r]).
  destruct m as [asdu| | | | | |k| | | |]; cbn [station_move].
  - destruct (sn_send w asdu (sn_cmd s)) as [[r c]|] eqn:E; [|done]. apply sn_send_spec in E. destruct r as [[]|e].
    + destruct E as [Hl Hq]. intros [= <-]. apply Hsame; [|done].
      apply (with_cmd_ok w n s p c [asdu]); [done|by apply Forall_singleton|].
      intros _. by rewrite Hq, omap_app.
    + intros [= <-]. apply Hsame; [by apply Hcmd|done].
  - destruct w; [|done]. unfold client_stop. destruct (mpsc_send _ _) as [[[] c]|] eqn:E; [| |done]; intros [= <-];
      (apply Hsame; [|done]).
    + apply with_cmd_ok; [done|constructor|]. intros _. by rewrite (send_queued _ _ _ E), omap_app.
    + apply Hcmd. by apply send_refused in E as [-> _].
  - destruct (sn_recv w (sn_evt s)) as [[b c]|] eqn:E; [|done]. intros [= <-]. apply Hsame; [|done].
    apply with_evt_ok; [done|]. intros <-. by rewrite (sn_recv_spec _ _ _ _ E), app_assoc.
  - intros [= <-]. apply Hsame; [|done]. apply with_cmd_ok; [done|constructor|]. intros _.
    destruct (drop_tx_law (sn_cmd s)) as [-> _]. by rewrite app_nil_r.
  - destruct (mpsc_recv (sn_cmd s)) as [[c cmd]|] eqn:E; [|done]. intros Ht.
    assert (sn_exit s = None) as Hx by (revert Ht; unfold take_turn, idle; by destruct (sn_exit s)).
    assert (omap command_of (queued (sn_cmd s)) = option_list (command_asdu (RxCommand c)) ++ omap command_of (queued cmd)) as Hq.
    { destruct c as [c|].
      - rewrite (recv_queued _ _ _ E). by destruct c.
      - pose proof (recv_law (sn_cmd s)) as Hl. rewrite E in Hl. by destruct Hl as (_ & _ & ->). }
    eapply (take_turn_ok w n (RxCommand c)); [done|done| |by intros _|done].
    pose proof (waiting_sendable _ _ _ _ Hs Hx) as Hw. rewrite Hq in Hw. by apply Forall_app in Hw as [Hw _].
  - by apply (take_turn_ok w n RxTick).
  - destruct (take k _) as [|b c] eqn:E; [done|]. apply (take_turn_ok w n (RxRead (Some (b :: c)))); [done|done| |done].
    cbn. rewrite <- E. apply prefix_take.
  - destruct (sn_exit p) as [y|] eqn:Hy; [|done]. destruct (drop _ _) eqn:E; [|done].
    apply (take_turn_ok w n (RxRead (Some []))); [done|done| |done]. cbn. by rewrite Hy.
  - by apply (take_turn_ok w n (RxRead None)).
  - destruct (reported _ !! _) as [e|] eqn:El; [|done]. destruct (mpsc_send e _) as [[[] c]|] eqn:E; [|done..].
    intros [= <-]. apply Hsame; [|done]. apply with_evt_ok; [done|]. intros H.
    rewrite (send_queued _ _ _ E), (take_reported_S _ _ _ El), !asdus_of_app, app_nil_r, app_assoc. by rewrite H.
  - destruct (sn_exit s); [|done]. destruct (reported _ !! _); [done|]. intros [= <-]. apply Hsame; [|done].
    apply with_evt_ok; [done|]. intros H. destruct (drop_tx_law (sn_evt s)) as [-> _]. by rewrite app_nil_r.
Qed.

Lemma at_put w s k : at_ w (put w s k) = s /\ at_ (other w) (put w s k) = at_ (other w) k.
Proof. by destruct w. Qed.

Lemma stack_move_ok k m k' : stack_ok k -> move_octets m.2 -> stack_move k m = Some k' -> stack_ok k'.
Proof.
  intros [n Hn] Hm. destruct m as [w m]. unfold stack_move. cbn [fst snd].
  destruct (station_move w m (at_ (other w) k) (at_ w k)) as [s'|] eqn:E; [|done]. intros [= <-].
  pose proof (Hn (other w)) as Ho. rewrite other_other in Ho.
  destruct (station_move_ok w n m _ _ s' (Hn w) Ho Hm E) as (n' & H1 & H2).
  destruct (at_put w s' k) as [Ha Hb]. exists n'. intros w'.
  assert (w' = w \/ w' = other w) as [-> | ->] by (destruct w, w'; auto).
  - by rewrite Ha, Hb.
  - by rewrite other_other, Ha, Hb.
Qed.

Lemma station_ok_start w cmd evt p : omap command_of (queued cmd) = [] -> queued evt = [] ->
  sn_drv p = Driver_new (role_of (other w)) (match w with Cl => cfgB | Sv => cfgA end) -> sn_read p = 0%nat ->
  station_ok w (net_init cfgA cfgB)
    (start_station (Driver_new (role_of w) (match w with Cl => cfgA | Sv => cfgB end)) cmd evt) p.
Proof.
  intros Hc He Hp Hn. split; cbn; try done.
  - split.
    + constructor.
    + by destruct w.
    + split; [exists [], []; split_and!; [apply prefix_nil|done|by left]|]. intros _.
      destruct w; (split_and!; [done|constructor|done]).
    + intros _. exists []. rewrite Hp. destruct w; (split_and!; [apply prefix_nil|done|constructor|apply Nat.le_0_l|done]).
    + intros Hx. exists []. rewrite Hp, Hn. destruct w; (split_and!; [apply prefix_nil|done|constructor|apply Nat.le_0_l|done]).
  - by left.
  - by destruct w.
  - intros _. rewrite Hc. by destruct w.
  - by rewrite He.
Qed.

Lemma stack_start_ok : ∃ k, stack_start = Some k /\ stack_ok k.
Proof.
  unfold stack_start, client_spawn_with_ft. destruct (channel_law (A := Command) 32) as (Hq & Hcap & _ & Hrx).
  destruct (send_fits CmdStartDt (mpsc_channel 32) Hrx) as [c Hc]; [rewrite Hq, Hcap; simpl; lia|].
  rewrite Hc. cbn [server_spawn_with_ft c_cmd_tx c_evt_rx ss_cmd_tx sv_evt_rx]. eexists. split; [done|].
  exists (net_init cfgA cfgB). destruct (channel_law (A := DriverEvent) 64) as (He & _).
  intros [].
  - apply (station_ok_start Cl); [by rewrite (send_queued _ _ _ Hc), Hq|done..].
  - apply (station_ok_start Sv); [by rewrite Hq|done..].
Qed.

Lemma stack_run_ok ms k : Forall (fun m => move_octets m.2) ms -> stack_run ms = Some k -> stack_ok k.
Proof.
  intros Hm. unfold stack_run. destruct stack_start_ok as (k0 & -> & Hk0). revert k0 Hk0.
  induction Hm as [|m ms Hm _ IH]; intros k0 Hk0; cbn [stack_moves]; [by intros [= <-]|].
  destruct (stack_move k0 m) as [k1|] eqn:E; [|done]. apply IH. by eapply stack_move_ok.
Qed.

(** ** What the users see *)

#[local] Abbreviation passes w := (fun asdu => asdu_passes_policy asdu (policy w) = true).

Lemma reachable_half w n : net_reachable cfgA cfgB n ->
  half (st w n) (st (other w) n) (ch_out w n) (ch_in w n).
Proof. intros Hr. destruct (net_reachable_inv _ _ n HwA HwB HkA HkB Hr) as [H1 H2]. by destruct w. Qed.

Lemma prefix_filter {A} (P : A -> Prop) `{∀ x, Decision (P x)} (l1 l2 : list A) :
  l1 `prefix_of` l2 -> filter P l1 `prefix_of` filter P l2.
Proof. intros [l ->]. rewrite filter_app. by apply prefix_app_r. Qed.

Lemma asdus_of_take k es : asdus_of (take k es) `prefix_of` asdus_of es.
Proof. exists (asdus_of (drop k es)). by rewrite <- asdus_of_app, take_drop. Qed.

(** Nothing reaches a user that its side of the pair has not delivered. *)
Lemma received_delivered w n s p : station_ok w n s p ->
  sn_received s `prefix_of` filter (passes w) (delivered (log (st w n))).
Proof.
  intros [Hc _ _ _ _ _ He].
  destruct (ru_out _ _ _ _ (cp_runs _ _ _ _ _ _ _ _ _ _ _ Hc)) as (acts & last & [l Hl] & Ho & Hlast).
  assert (asdus_of (reported (out (sn_drv s))) `prefix_of` filter (passes w) (delivered (log (st w n)))) as Hp.
  { rewrite Ho, reported_app, asdus_of_app, asdus_performed. rewrite Hl, delivered_app, filter_app.
    replace (asdus_of (reported last)) with (@nil bytes) by (by destruct Hlast as [-> | ->]).
    rewrite app_nil_r. by apply prefix_app_r. }
  etrans; [|exact Hp]. etrans; [|apply (asdus_of_take (sn_pushed s))]. rewrite <- He. by apply prefix_app_r.
Qed.

(** C1. From handle to handle: whatever the users, the two tasks and the
    transport do and in whatever order, the ASDUs one user has received are,
    in order and without a change, the first of those for which the other
    user's [send_asdu] has returned [Ok] that the receiver's policy lets
    through. *)
Theorem stack_delivers ms k w : Forall (fun m => move_octets m.2) ms -> stack_run ms = Some k ->
  sn_received (at_ (other w) k) `prefix_of` filter (passes (other w)) (sn_accepted (at_ w k)).
Proof.
  intros Hm Hk. destruct (stack_run_ok ms k Hm Hk) as [n Hn]. etrans; [apply (received_delivered _ _ _ _ (Hn (other w)))|].
  apply prefix_filter. etrans; [|apply (so_prefix _ _ _ _ (Hn w))].
  apply (half_delivers _ _ _ _ (reachable_half w n (cp_reach _ _ _ _ _ _ _ _ _ _ _ (so_coupled _ _ _ _ (Hn w))))).
Qed.

(** Two stations of this code never close a connection on each other for a
    protocol error: a task that has ended was told to end, or its transport
    failed. *)
Theorem stack_no_fault ms k w : Forall (fun m => move_octets m.2) ms -> stack_run ms = Some k ->
  sn_exit (at_ w k) = None \/ sn_exit (at_ w k) = Some ExitOk \/ sn_exit (at_ w k) = Some (ExitErr ErrIo).
Proof. intros Hm Hk. destruct (stack_run_ok ms k Hm Hk) as [n Hn]. apply (so_exit _ _ _ _ (Hn w)). Qed.

(** A buffer without a complete frame is the end of the octets of a list of
    frames only when there is none. *)
Lemma wire_complete ch : Forall frame_ok ch -> decode_slice (wire ch) = Ok None -> ch = [].
Proof.
  destruct ch as [|a ch]; [done|]. intros [[H1 H2] _]%Forall_cons. change (wire (a :: ch)) with (apdu_octets a ++ wire ch).
  by rewrite decode_slice_encode.
Qed.

Lemma stack_drained ms k w : Forall (fun m => move_octets m.2) ms -> stack_run ms = Some k ->
  let s := at_ w k in let p := at_ (other w) k in
  sn_exit s = None -> sn_exit p = None -> queued (sn_cmd s) = [] ->
  sn_read p = length (written (out (sn_drv s))) ->
  sn_pushed p = length (reported (out (sn_drv p))) -> queued (sn_evt p) = [] ->
  sn_received p ++ filter (passes (other w)) (pending (drv_conn (sn_drv s))) = filter (passes (other w)) (sn_accepted s).
Proof.
  intros Hm Hk s p Hxs Hxp Hcmd Hread Hpush Hevt. destruct (stack_run_ok ms k Hm Hk) as [n Hn].
  pose proof (Hn w) as Hs. pose proof (Hn (other w)) as Hp. rewrite other_other in Hp. fold s p in Hs, Hp.
  destruct (ru_live _ _ _ _ (cp_runs _ _ _ _ _ _ _ _ _ _ _ (so_coupled _ _ _ _ Hs)) Hxs) as (Hcs & _ & _).
  destruct (ru_live _ _ _ _ (cp_runs _ _ _ _ _ _ _ _ _ _ _ (so_coupled _ _ _ _ Hp)) Hxp) as (_ & Hup & Hop).
  pose proof (reachable_half w n (cp_reach _ _ _ _ _ _ _ _ _ _ _ (so_coupled _ _ _ _ Hs))) as Hh.
  destruct (cp_out _ _ _ _ _ _ _ _ _ _ _ (so_coupled _ _ _ _ Hs) Hxp) as (rest & _ & Hrest & Hok & _ & Hw).
  specialize (Hrest Hxs). subst rest. rewrite Hread, drop_all, app_nil_r in Hw.
  pose proof (so_drained _ _ _ _ Hp Hxp) as Hd. rewrite Hw in Hd. apply wire_complete in Hd; [|done].
  destruct (half_flow _ _ _ _ Hh Hup) as (rcvd & Hi & Hrcvd). rewrite Hd in Hi. cbn in Hi. rewrite app_nil_r in Hi.
  destruct (half_a _ _ _ _ Hh) as [(Hinv & _) Hac]. pose proof (inv_fifo _ _ _ _ _ Hinv) as Hf.
  rewrite Hac, app_nil_r, Hi, Hrcvd in Hf.
  pose proof (so_events _ _ _ _ Hp) as He. rewrite Hevt, Hpush, firstn_all, Hop, asdus_performed in He.
  cbn in He. rewrite app_nil_r in He. rewrite He, Hcs, (so_accepted _ _ _ _ Hs Hxs), Hcmd, <- Hf. cbn.
  by rewrite app_nil_r, filter_app.
Qed.

Lemma stack_flushed ms k w : Forall (fun m => move_octets m.2) ms -> stack_run ms = Some k ->
  sn_exit (at_ w k) = None -> flushed (drv_conn (sn_drv (at_ w k))).
Proof.
  intros Hm Hk Hx. destruct (stack_run_ok ms k Hm Hk) as [n Hn]. pose proof (Hn w) as Hs.
  destruct (ru_live _ _ _ _ (cp_runs _ _ _ _ _ _ _ _ _ _ _ (so_coupled _ _ _ _ Hs)) Hx) as (-> & _ & _).
  pose proof (reachable_half w n (cp_reach _ _ _ _ _ _ _ _ _ _ _ (so_coupled _ _ _ _ Hs))) as Hh.
  apply (half_a _ _ _ _ Hh).
Qed.

(** C5. Nothing gets stuck on the way. While both tasks run, once the commands
    have been taken, the octets written have been read and the events taken,
    every accepted ASDU the receiver's policy lets through has been received,
    apart from those still queued in the sender's connection. While data
    transfer is active there are such only if the window is full; in the
    other states, before STARTDT is confirmed and after STOPDT, they wait for
    transfer to start. *)
Theorem stack_drains ms k w : Forall (fun m => move_octets m.2) ms -> stack_run ms = Some k ->
  let s := at_ w k in let p := at_ (other w) k in let c := drv_conn (sn_drv s) in
  sn_exit s = None -> sn_exit p = None -> queued (sn_cmd s) = [] ->
  sn_read p = length (written (out (sn_drv s))) ->
  sn_pushed p = length (reported (out (sn_drv p))) -> queued (sn_evt p) = [] ->
  sn_received p ++ filter (passes (other w)) (pending c) = filter (passes (other w)) (sn_accepted s) /\
  (state c = Active -> pending c = [] \/ cfg_k (config c) <= Z.of_nat (length (sent c))).
Proof. intros Hm Hk s p c H1 H2 H3 H4 H5 H6. split; [by apply (stack_drained ms)|by apply (stack_flushed ms)]. Qed.

(** ** Two full channels *)

(** The task waits for room for an event, the user for room for a command. *)
Definition wedged (s : Station) : Prop :=
  sn_exit s = None /\ (sn_pushed s < length (reported (out (sn_drv s))))%nat /\
  rx_alive (sn_evt s) = true /\ (capacity (sn_evt s) <= length (queued (sn_evt s)))%nat /\
  rx_alive (sn_cmd s) = true /\ (capacity (sn_cmd s) <= length (queued (sn_cmd s)))%nat.

Lemma send_wait {A} (x : A) (c : chan A) : rx_alive c = true -> (capacity c <= length (queued c))%nat -> mpsc_send x c = None.
Proof.
  intros Hr Hc. pose proof (send_law x c) as H. destruct (mpsc_send x c) as [[[] c']|]; [lia| |done].
  destruct H. congruence.
Qed.

Lemma wedged_move w m p s s' : wedged s -> match m with MvRecv | MvDrop => False | MvSend a => (length a <= MAX_ASDU_LEN)%nat | _ => True end ->
  station_move w m p s = Some s' -> s' = s.
Proof.
  intros (Hx & Hp & Hr & Hc & Hr' & Hc') Hm.
  assert (∀ i c, take_turn w i c s = None) as Ht.
  { intros i c. unfold take_turn, idle. rewrite Hx. destruct (Nat.eqb_spec (sn_pushed s) (length (reported (out (sn_drv s))))); [lia|done]. }
  destruct m; cbn [station_move]; try done; rewrite ?Ht, ?Hx; try done.
  - assert (sn_send w asdu (sn_cmd s) = None) as ->; [|done].
    destruct w; unfold sn_send, client_send_asdu, server_send_asdu;
      (destruct (Nat.ltb_spec MAX_ASDU_LEN (length asdu)); [lia|]; by rewrite send_wait).
  - destruct w; [|done]. unfold client_stop. by rewrite send_wait.
  - by destruct (mpsc_recv (sn_cmd s)) as [[]|]; rewrite ?Ht.
  - by destruct (take n _); rewrite ?Ht.
  - by destruct (sn_exit p); [destruct (drop _ _); rewrite ?Ht|].
  - destruct (reported _ !! _); [|done]. by rewrite send_wait.
Qed.

(** C36. A user that sends without receiving can stop its own task: with both
    channels full, the task waits for the user to receive and the user for
    the task to take a command. Neither the other station nor the transport
    nor the clock, so no supervision timeout, changes anything. *)
Theorem full_channels_stop ms k k' w : wedged (at_ w k) ->
  Forall (fun m => m.1 = w -> match m.2 with MvRecv | MvDrop => False | MvSend a => (length a <= MAX_ASDU_LEN)%nat | _ => True end) ms ->
  stack_moves ms k = Some k' -> at_ w k' = at_ w k.
Proof.
  intros Hw Hm. revert k Hw. induction Hm as [|[v m] ms Hm _ IH]; intros k Hw; cbn [stack_moves]; [by intros [= ->]|].
  unfold stack_move. cbn [fst snd] in *. destruct (station_move v m _ (at_ v k)) as [s'|] eqn:E; [|done]. cbn [fmap option_fmap option_map].
  assert (at_ w (put v s' k) = at_ w k) as Hk.
  { assert (v = w \/ w = other v) as [-> | ->] by (destruct v, w; auto).
    - destruct (at_put w s' k) as [-> _]. by apply (wedged_move w m (at_ (other w) k)); [|apply Hm|].
    - by destruct (at_put v s' k) as [_ ->]. }
  intros H. rewrite (IH (put v s' k)); [done|by rewrite Hk|done].
Qed.

End Stack.

(** ** A sample run *)

Module StackSample.

Definition command : bytes := [100; 1; 6; 0; 1; 0; 0; 0; 0; 20].
Definition answer : bytes := [13; 1; 3; 0; 1; 0; 0; 0; 0; 0; 0; 0; 0; 0].

(** The client submits before the transfer has started; the octets arrive in
    pieces; both have read everything at the end. *)
Definition sample_run : list (Who * Move) :=
  [(Cl, MvSend command); (Cl, MvCommand); (Cl, MvPush); (Sv, MvRead 4); (Sv, MvRead 2); (Sv, MvPush);
   (Cl, MvRead 6); (Cl, MvPush); (Cl, MvCommand); (Sv, MvRead 9); (Sv, MvSend answer); (Sv, MvCommand);
   (Cl, MvRead 20); (Cl, MvPush); (Sv, MvRead 7); (Sv, MvPush); (Sv, MvRecv); (Sv, MvRecv);
   (Cl, MvRecv); (Cl, MvRecv); (Cl, MvRecv)].

#[local] Abbreviation sample_end :=
  (stack_run (BC := slice_bytes) (MP := list_channels) (fun _ _ => 0) (fun _ _ => true) (fun _ => AsduPolicy_new)
    Config_default Config_default sample_run).

Lemma sample_octets : Forall (fun m : Who * Move => move_octets m.2) sample_run.
Proof.
  assert (forallb (fun m : Who * Move => match m.2 with MvSend a => bool_decide (octets a) | _ => true end) sample_run = true)
    as H by (vm_compute; reflexivity).
  rewrite Forall_forall. rewrite forallb_forall in H. intros m Hm. apply list_elem_of_In in Hm. specialize (H m Hm).
  destruct m as [w []]; try done. by apply bool_decide_eq_true in H.
Qed.

(** What the two users see of it. *)
Definition seen (o : option Stack) : option (list bytes * list bytes) :=
  (fun k => (sn_received (sk_server k), sn_received (sk_client k))) <$> o.

Lemma stack_delivers_witness : seen sample_end = Some ([command], [answer]) /\
  match sample_end with
  | Some k => ∀ w, sn_received (at_ (other w) k) `prefix_of`
      filter (fun asdu => asdu_passes_policy asdu AsduPolicy_new = true) (sn_accepted (at_ w k))
  | None => False
  end.
Proof.
  split; [vm_compute; reflexivity|]. destruct (stack_run _ _ _ _ _ _) as [k|] eqn:E; [|by vm_compute in E]. intros w.
  refine (stack_delivers (BC := slice_bytes) (MP := list_channels) (fun _ _ => 0) (fun _ _ => true)
    (fun _ => AsduPolicy_new) Config_default Config_default _ _ _ _ sample_run k w sample_octets E); simpl; lia.
Defined.

Lemma stack_no_fault_witness :
  match sample_end with
  | Some k => ∀ w, sn_exit (at_ w k) = None \/ sn_exit (at_ w k) = Some ExitOk \/ sn_exit (at_ w k) = Some (ExitErr ErrIo)
  | None => False
  end.
Proof.
  destruct (stack_run _ _ _ _ _ _) as [k|] eqn:E; [|by vm_compute in E]. intros w.
  refine (stack_no_fault (BC := slice_bytes) (MP := list_channels) (fun _ _ => 0) (fun _ _ => true)
    (fun _ => AsduPolicy_new) Config_default Config_default _ _ _ _ sample_run k w sample_octets E); simpl; lia.
Defined.

(** Both run, and there is nothing left on the way from client to server. *)
Definition quiet (k : Stack (MP := list_channels)) :=
  (sn_exit (sk_client k), sn_exit (sk_server k), queued (sn_cmd (sk_client k)), queued (sn_evt (sk_server k)),
   sn_read (sk_server k), length (written (out (sn_drv (sk_client k)))),
   sn_pushed (sk_server k), length (reported (out (sn_drv (sk_server k))))).

Lemma stack_drains_witness :
  match sample_end with
  | Some k => let c := drv_conn (sn_drv (sk_client k)) in
      sn_received (sk_server k) ++ filter (fun asdu => asdu_passes_policy asdu AsduPolicy_new = true) (pending c) =
        filter (fun asdu => asdu_passes_policy asdu AsduPolicy_new = true) (sn_accepted (sk_client k)) /\
      (state c = Active -> pending c = [] \/ cfg_k (config c) <= Z.of_nat (length (sent c)))
  | None => False
  end.
Proof.
  assert (quiet <$> sample_end = Some (None, None, [], [], 22%nat, 22%nat, 2%nat, 2%nat)) as Hq by (vm_compute; reflexivity).
  destruct (stack_run _ _ _ _ _ _) as [k|] eqn:E; [|done]. injection Hq as H1 H2 H3 H4 H5 H6 H7 H8.
  refine (stack_drains (BC := slice_bytes) (MP := list_channels) (fun _ _ => 0) (fun _ _ => true)
    (fun _ => AsduPolicy_new) Config_default Config_default _ _ _ _ sample_run k Cl sample_octets E H1 H2 H3 _ _ H4);
    simpl in *; (lia || congruence).
Defined.

(** A client that submits 32 commands while 64 events wait for it: its next
    command waits, and so does its task. *)
Definition round : list (Who * Move) :=
  concat (replicate 8 [(Sv, MvSend answer); (Sv, MvCommand)]) ++ [(Cl, MvRead 1000)] ++
  replicate 8 (Cl, MvPush) ++ [(Sv, MvRead 100)].
Definition wedging_run : list (Who * Move) :=
  [(Cl, MvCommand); (Cl, MvPush); (Sv, MvRead 6); (Sv, MvPush); (Cl, MvRead 6); (Cl, MvPush)] ++
  concat (replicate 7 round) ++ replicate 32 (Cl, MvSend command) ++
  concat (replicate 8 [(Sv, MvSend answer); (Sv, MvCommand)]) ++ [(Cl, MvRead 1000)] ++ replicate 6 (Cl, MvPush).

#[local] Abbreviation wedged_end :=
  (stack_run (BC := slice_bytes) (MP := list_channels) (fun _ _ => 0) (fun _ _ => true) (fun _ => AsduPolicy_new)
    Config_default Config_default wedging_run).

Definition levels (s : Station (MP := list_channels)) :=
  (sn_exit s, sn_pushed s, length (reported (out (sn_drv s))),
   (rx_alive (sn_evt s), length (queued (sn_evt s)), capacity (sn_evt s)),
   (rx_alive (sn_cmd s), length (queued (sn_cmd s)), capacity (sn_cmd s))).

Lemma client_wedges : ∃ k, wedged_end = Some k /\ wedged (sk_client k).
Proof.
  assert ((fun k => levels (sk_client k)) <$> wedged_end =
    Some (None, 64%nat, 66%nat, (true, 64%nat, 64%nat), (true, 32%nat, 32%nat))) as H by (vm_compute; reflexivity).
  destruct (stack_run _ _ _ _ _ _) as [k|] eqn:E; [|done]. exists k. split; [reflexivity|]. clear E.
  injection H as H1 H2 H3 H4 H5 H6 H7 H8 H9. unfold wedged. cbn [queued capacity rx_alive list_channels] in *.
  split_and!; lia || assumption.
Qed.

Lemma full_channels_stop_witness : ∃ k, wedged_end = Some k /\ ∀ ms k',
  ms = [(Sv, MvSend answer); (Sv, MvCommand)] -> stack_moves (BC := slice_bytes) (MP := list_channels) (fun _ _ => 0)
    (fun _ _ => true) (fun _ => AsduPolicy_new) ms k = Some k' -> sk_client k' = sk_client k.
Proof.
  destruct client_wedges as (k & E & Hk). exists k. split; [exact E|]. intros ms k' -> Hr.
  refine (full_channels_stop (BC := slice_bytes) (MP := list_channels) (fun _ _ => 0) (fun _ _ => true)
    (fun _ => AsduPolicy_new) _ k k' Cl Hk _ Hr).
  repeat constructor; discriminate.
Defined.

End StackSample.
