(* ===== verification/FtMicro.v ===== *)
(** * The steps of the file-transfer service

    A turn of the service of FtService.v opens sessions, steps them, and works
    off their actions one by one. Here each of these is one step of a relation
    on the service, the queue of actions in hand, the messages that have
    arrived so far and the storages turns have begun with. A run of the
    service is a run of the relation: what holds of every reachable state
    holds between the turns of [FileTransferService::run]. *)

From S2P Require Import Prelude Bytes Codec AsduHeader InfoElements Asdu AsduFile FileSession FtService FileTransfer.
#[local] Set Default Proof Using "Type".

Section Micro.
Context `{BC : BytesCrate} {W Reader Writer : Type} `{PV : !Provider W Reader Writer}.
Context (config : FileTransferConfig) (clock : nat -> Instant).

#[local] Abbreviation service := (@Service W Reader Writer).
#[local] Abbreviation active := (@ActiveSession Reader Writer).
#[local] Abbreviation queue := (option (Key * list SessionAction)).

(** ** What arrives *)

(** Where an ASDU of the given common address is routed to, and the input it
    is there. *)
Definition routed (p : CommonAddress * Asdu) : option (Key * SessionInput) :=
  match peek_nof p.2, decode_ft_asdu p.2 with
  | Some nof, Some i => Some ((p.1, nof_0 nof), i)
  | _, _ => None
  end.

Definition arrival (i : SvInput) : option (CommonAddress * Asdu) :=
  match i with SvIncoming ca a => Some (ca, a) | _ => None end.
Definition arrivals (inputs : list SvInput) : list (CommonAddress * Asdu) := omap arrival inputs.

(** The key a turn may open a session under. *)
Definition input_key (i : SvInput) : option Key :=
  match i with
  | SvIntent (IntentFetch ca nof _) | SvIntent (IntentPush ca nof _) => Some (ca, nof_0 nof)
  | SvIncoming ca a => (λ nof, (ca, nof_0 nof)) <$> peek_nof a
  | SvTick _ => None
  end.

Lemma decoded_is_message a i : decode_ft_asdu a = Some i -> is_message i = true.
Proof.
  unfold decode_ft_asdu. repeat (case_match; try done); intros Hdec; apply fmap_Some in Hdec as (? & _ & ->); done.
Qed.

(** ** The steps *)

(** The looks a turn takes at the storage before it opens or gives up. *)
Inductive touch : W -> W -> Prop :=
| touch_lookup nof w r w' : pv_lookup nof w = (r, w') -> touch w w'
| touch_read nof w r w' : pv_open_read nof w = (r, w') -> touch w w'
| touch_write nof n w r w' : pv_open_write nof n w = (r, w') -> touch w w'.

(** What a session that is opened holds, and what that does to the storage. *)
Inductive opens (nof : NameOfFile) (w : W) : FtRole -> option Reader -> option Writer -> W -> Prop :=
| opens_rx wr w' : pv_open_write nof 0 w = (inl wr, w') -> opens nof w Receiver None (Some wr) w'
| opens_tx meta w1 r w2 : pv_lookup nof w = (inl (Some meta), w1) -> pv_open_read nof w1 = (inl r, w2) ->
    opens nof w Sender (Some r) None w2.

(** The session that is opened, and the actions that are carried out at once:
    offered to, asked by the user, or asked by the peer. *)
Inductive begins (role : FtRole) (key : Key) : Session -> queue -> Prop :=
| begins_idle : begins role key (Session_new role (mkNof key.2) (session_config config)) None
| begins_asked len now s acts : step (Start len) now (Session_new role (mkNof key.2) (session_config config)) = (s, acts) ->
    begins role key s (Some (key, acts))
| begins_loaded len now s acts : step (Start len) now (Session_new role (mkNof key.2) (session_config config)) = (s, acts) ->
    begins role key s None.

Definition is_reply (o : SvOut) : bool := match o with SvReply _ _ => true | _ => false end.

(** The service, the queue in hand, the messages so far and the storages. *)
Record mstate := mkM { m_sv : service; m_q : queue; m_in : list (Key * SessionInput); m_ws : list W }.

Section Keys.
Context (key_ok : Key -> Prop).

Inductive micro : mstate -> mstate -> Prop :=
| mi_turn sv ins ws : micro (mkM sv None ins ws) (mkM sv None ins (ws ++ [sv_prov sv]))
| mi_quiet sv sv' l ins ws : sv_sessions sv' = sv_sessions sv -> rtc touch (sv_prov sv) (sv_prov sv') ->
    sv_log sv' = sv_log sv ++ l -> Forall (λ o, is_reply o = true) l ->
    micro (mkM sv None ins ws) (mkM sv' None ins ws)
| mi_open key role s reader writer reply now q sv sv' ins ws : key_ok key ->
    sv_sessions sv !! key = None -> sv_prov sv ∈ ws ->
    opens (mkNof key.2) (sv_prov sv) role reader writer (sv_prov sv') -> begins role key s q ->
    sv_log sv' = sv_log sv ++ [SvEvent (FteStarted key.1 (mkNof key.2) role)] ->
    sv_sessions sv' = <[key := mkActive s key.1 reader writer reply now]> (sv_sessions sv) ->
    micro (mkM sv None ins ws) (mkM sv' q ins ws)
| mi_ignore key i sv ins ws : sv_sessions sv !! key = None ->
    micro (mkM sv None ins ws) (mkM sv None (ins ++ [(key, i)]) ws)
| mi_step key i now a a' acts l sv sv' ins ws : sv_sessions sv !! key = Some a ->
    step i now (as_session a) = (as_session a', acts) -> kin a a' ->
    sv_sessions sv' = <[key := a']> (sv_sessions sv) -> sv_log sv' = sv_log sv -> sv_prov sv' = sv_prov sv ->
    (l = [] /\ i = FtTick \/ l = [(key, i)] /\ is_message i = true) ->
    micro (mkM sv None ins ws) (mkM sv' (Some (key, acts)) (ins ++ l) ws)
| mi_act key action q extra sv sv' ins ws : apply_action clock key action sv = (extra, sv') ->
    micro (mkM sv (Some (key, action :: q)) ins ws) (mkM sv' (Some (key, q ++ extra)) ins ws)
| mi_done key sv ins ws : micro (mkM sv (Some (key, [])) ins ws) (mkM sv None ins ws).

Lemma micro_actions fuel key q sv sv' ins ws : sv_apply_actions clock fuel key q sv = Some sv' ->
  rtc micro (mkM sv (Some (key, q)) ins ws) (mkM sv' None ins ws).
Proof.
  revert q sv. induction fuel as [|fuel IH]; intros [|action q] sv; cbn [sv_apply_actions]; try done;
    try (intros [= <-]; apply rtc_once, mi_done).
  destruct (apply_action clock key action sv) as [extra sv1] eqn:Ha. intros H%IH.
  eapply rtc_l; [by apply mi_act|done].
Qed.

Lemma micro_refuse id e sv sv0 ins ws : sv_sessions sv = sv_sessions sv0 -> sv_log sv = sv_log sv0 ->
  rtc touch (sv_prov sv0) (sv_prov sv) -> rtc micro (mkM sv0 None ins ws) (mkM (refuse id e sv) None ins ws).
Proof.
  intros Hs Hl Ht. apply rtc_once. eapply (mi_quiet _ _ [_]); [done|done|by cbn; rewrite Hl|by repeat constructor].
Qed.

Lemma micro_open_session fuel key role len reader writer reply sv0 sv sv' ins ws : key_ok key ->
  sv_sessions sv = sv_sessions sv0 -> sv_log sv = sv_log sv0 -> sv_sessions sv0 !! key = None -> sv_prov sv0 ∈ ws ->
  opens (mkNof key.2) (sv_prov sv0) role reader writer (sv_prov sv) ->
  open_session config clock fuel key role len reader writer reply sv = Some sv' ->
  rtc micro (mkM sv0 None ins ws) (mkM sv' None ins ws).
Proof.
  intros Hk Hs Hl Hn Hw Ho. unfold open_session, read_clock. cbn [sv_reads]. destruct (step _ _ _) as [s acts] eqn:Hstep.
  intros Hrun. eapply rtc_l; [|by eapply micro_actions].
  eapply (mi_open key role s reader writer (Some reply)); try done; [by eapply begins_asked| |].
  - cbn. by rewrite Hl.
  - cbn. by rewrite Hs.
Qed.

Lemma mkNof_eta nof : mkNof (nof_0 nof) = nof.
Proof. by destruct nof. Qed.

Lemma micro_intent fuel intent sv sv' ins ws : (∀ k, input_key (SvIntent intent) = Some k -> key_ok k) ->
  sv_prov sv ∈ ws -> on_intent config clock fuel intent sv = Some sv' ->
  rtc micro (mkM sv None ins ws) (mkM sv' None ins ws).
Proof.
  intros Hk Hw. destruct intent as [ca nof id|ca nof id]; cbn [on_intent];
    (destruct (refused _ _ _) as [e|] eqn:Hr; [intros [= <-]; by apply micro_refuse|apply refused_none in Hr as [Hn _]]).
  - destruct (pv_open_write _ _ _) as [[writer|e] w] eqn:Ho.
    + eapply micro_open_session; try done; [by apply Hk|]. cbn. rewrite mkNof_eta. by apply opens_rx.
    + intros [= <-]. apply micro_refuse; [done..|]. by eapply rtc_once, touch_write.
  - destruct (pv_lookup _ _) as [[[meta|]|e] w] eqn:Hl; cbn [set_prov sv_prov];
      try (intros [= <-]; apply micro_refuse; try done; by eapply rtc_once, touch_lookup).
    destruct (pv_open_read _ _) as [[reader|e] w'] eqn:Ho.
    + eapply micro_open_session; try done; [by apply Hk|]. cbn. rewrite mkNof_eta. by eapply opens_tx.
    + intros [= <-]. apply micro_refuse; [done..|]. eapply rtc_l; [by eapply touch_lookup|]. by eapply rtc_once, touch_read.
Qed.

Lemma micro_find key asdu sv found sv' ins ws : key_ok key -> sv_prov sv ∈ ws ->
  find_or_create config clock key asdu sv = (found, sv') ->
  rtc micro (mkM sv None ins ws) (mkM sv' None ins ws) /\ (found = false -> sv_sessions sv' !! key = None).
Proof.
  intros Hk Hw. unfold find_or_create. case_bool_decide as Hn; [by intros [= <- <-]|]. apply eq_None_not_Some in Hn.
  assert (∀ sv1, sv_sessions sv1 = sv_sessions sv -> sv_log sv1 = sv_log sv -> rtc touch (sv_prov sv) (sv_prov sv1) ->
    rtc micro (mkM sv None ins ws) (mkM sv1 None ins ws) /\ (false = false -> sv_sessions sv1 !! key = None)) as Hno.
  { intros sv1 Hs Hl Ht. split; [|by rewrite Hs]. apply rtc_once.
    eapply (mi_quiet _ _ []); [done|done|by rewrite app_nil_r|done]. }
  assert (∀ b, (false, sv) = (b, sv') ->
    rtc micro (mkM sv None ins ws) (mkM sv' None ins ws) /\ (b = false -> sv_sessions sv' !! key = None)) as Hsame.
  { intros b [= <- <-]. by apply Hno. }
  destruct (_ <=? _)%nat; [by apply Hsame|].
  destruct (Z.eq_dec (type_id asdu) 120) as [->|H120]; [|destruct (Z.eq_dec (type_id asdu) 122) as [->|H122]].
  - unfold accept_offer. destruct (decode_payload _ _ _) as [fr| |]; [|by apply Hsame..].
    destruct (_ <? _); [by apply Hsame|]. destruct (pv_open_write _ _ _) as [[writer|e] w] eqn:Ho; intros [= <- <-].
    + split; [|done]. apply rtc_once. eapply mi_open; try done; [by apply opens_rx|by apply begins_idle].
    + apply Hno; [done..|]. by eapply rtc_once, touch_write.
  - unfold accept_select. destruct (pv_lookup _ _) as [[[meta|]|e] w] eqn:Hl; cbn [set_prov sv_prov];
      try (intros [= <- <-]; apply Hno; [done..|by eapply rtc_once, touch_lookup]).
    destruct (pv_open_read _ _) as [[reader|e] w'] eqn:Ho.
    + destruct (read_clock _ _) as [now sv2] eqn:Hc. injection Hc as <- <-. destruct (step _ _ _) as [s acts] eqn:Hs.
      intros [= <- <-]. split; [|done]. apply rtc_once.
      eapply mi_open; try done; [by eapply opens_tx|by eapply begins_loaded].
    + intros [= <- <-]. apply Hno; [done..|]. eapply rtc_l; [by eapply touch_lookup|]. by eapply rtc_once, touch_read.
  - repeat (case_match; try done); by apply Hsame.
Qed.

Lemma micro_incoming fuel ca asdu sv sv' ins ws : (∀ k, input_key (SvIncoming ca asdu) = Some k -> key_ok k) ->
  sv_prov sv ∈ ws -> on_incoming config clock fuel ca asdu sv = Some sv' ->
  rtc micro (mkM sv None ins ws) (mkM sv' None (ins ++ option_list (routed (ca, asdu))) ws).
Proof.
  cbn [input_key]. intros Hk Hw. unfold on_incoming, routed. cbn [fst snd].
  destruct (peek_nof asdu) as [nof|]; [|by intros [= <-]; rewrite app_nil_r].
  destruct (find_or_create _ _ _ _ _) as [found sv1] eqn:Hf.
  destruct (micro_find _ _ _ _ _ ins ws (Hk _ eq_refl) Hw Hf) as [Hr Hn].
  assert (∀ i, sv_sessions sv1 !! (ca, nof_0 nof) = None ->
    rtc micro (mkM sv None ins ws) (mkM sv1 None (ins ++ [((ca, nof_0 nof), i)]) ws)) as Hign.
  { intros i Hno. etrans; [exact Hr|]. by apply rtc_once, mi_ignore. }
  destruct found; cbn [option_list].
  - destruct (decode_ft_asdu asdu) as [i|] eqn:Hd; cbn; [|by intros [= <-]; rewrite app_nil_r].
    destruct (sv_sessions sv1 !! _) as [a|] eqn:Ha; [|intros [= <-]; by apply Hign].
    destruct (step _ _ _) as [s acts] eqn:Hs. intros H. etrans; [exact Hr|]. eapply rtc_l; [|by eapply micro_actions].
    eapply (mi_step _ i (clock (sv_reads sv1)) a (set_session s (set_last_tick (clock (sv_reads sv1)) a)) acts [_]); try done.
    right. split; [done|]. by eapply decoded_is_message.
  - intros [= <-]. destruct (decode_ft_asdu asdu) as [i|]; cbn; [by apply Hign, Hn|by rewrite app_nil_r].
Qed.

Lemma micro_tick fuel now keys sv sv' ins ws : tick_all clock fuel now keys sv = Some sv' ->
  rtc micro (mkM sv None ins ws) (mkM sv' None ins ws).
Proof.
  revert sv. induction keys as [|k keys IH]; intros sv; cbn [tick_all]; [by intros [= <-]|].
  destruct (sv_sessions sv !! k) as [a|] eqn:Ha; [|by apply IH]. destruct (step _ _ _) as [s acts] eqn:Hs.
  set (sv1 := set_sessions _ sv).
  assert (micro (mkM sv None ins ws) (mkM sv1 (Some (k, acts)) ins ws)) as Hstep.
  { rewrite <- (app_nil_r ins) at 2. eapply (mi_step k FtTick now a (set_session s a)); try done. by left. }
  destruct acts as [|x acts].
  - intros H. eapply rtc_l; [exact Hstep|]. eapply rtc_l; [apply mi_done|]. by apply IH.
  - destruct (sv_apply_actions _ _ _ _ sv1) as [sv2|] eqn:Hr; [|done]. cbn. intros H.
    eapply rtc_l; [exact Hstep|]. etrans; [by eapply micro_actions|]. by apply IH.
Qed.

Lemma micro_turn fuel i sv sv' ins ws : (∀ k, input_key i = Some k -> key_ok k) ->
  sv_turn config clock fuel i sv = Some sv' ->
  rtc micro (mkM sv None ins ws) (mkM sv' None (ins ++ omap routed (arrivals [i])) (ws ++ [sv_prov sv])).
Proof.
  intros Hk H. eapply rtc_l; [apply mi_turn|].
  assert (sv_prov sv ∈ ws ++ [sv_prov sv]) as Hw by set_solver.
  destruct i as [intent|ca asdu|keys]; cbn [sv_turn] in H; cbn; rewrite ?app_nil_r.
  - by eapply micro_intent.
  - pose proof (micro_incoming _ _ _ _ _ ins _ Hk Hw H) as Hr. by destruct (routed (ca, asdu)).
  - unfold sv_on_tick, read_clock in H. eapply rtc_l; [|by eapply micro_tick].
    eapply (mi_quiet _ _ []); [done|done|by rewrite app_nil_r|done].
Qed.

Lemma sv_run_app fuel a b sv : sv_run config clock fuel (a ++ b) sv =
  sv_run config clock fuel a sv ≫= sv_run config clock fuel b.
Proof.
  revert sv. induction a as [|i a IH]; intros sv; [done|]. cbn [sv_run app].
  destruct (sv_turn _ _ _ _ sv) as [sv1|]; [apply IH|done].
Qed.

(** A storage some turn of the run began with. *)
Definition stored_at (fuel : nat) (inputs : list SvInput) (w w' : W) : Prop :=
  ∃ pre sv, pre `prefix_of` inputs /\ sv_run config clock fuel pre (Service_new w) = Some sv /\ sv_prov sv = w'.

Lemma micro_run fuel inputs w sv : Forall key_ok (omap input_key inputs) ->
  sv_run config clock fuel inputs (Service_new w) = Some sv ->
  ∃ ws, rtc micro (mkM (Service_new w) None [] []) (mkM sv None (omap routed (arrivals inputs)) ws) /\
    Forall (stored_at fuel inputs w) ws.
Proof.
  revert sv. induction inputs as [|i inputs IH] using rev_ind; intros sv Hk.
  { intros [= <-]. by exists []. }
  rewrite omap_app, Forall_app in Hk. destruct Hk as [Hk Hi]. rewrite sv_run_app.
  destruct (sv_run _ _ _ inputs _) as [sv1|] eqn:Hr; [|done]. cbn.
  destruct (sv_turn _ _ _ i sv1) as [sv2|] eqn:Ht; [|done]. intros [= <-].
  destruct (IH sv1 Hk eq_refl) as (ws & Hm & Hws). exists (ws ++ [sv_prov sv1]). split.
  - etrans; [exact Hm|]. unfold arrivals. rewrite (omap_app arrival), omap_app. eapply micro_turn; [|exact Ht].
    intros k Hik. cbn in Hi. rewrite Hik in Hi. by inversion Hi.
  - apply Forall_app. split.
    + eapply Forall_impl; [exact Hws|]. intros w' (pre & sv0 & Hp & Hx). exists pre, sv0. split; [|done].
      by apply prefix_app_r.
    + constructor; [|done]. exists inputs, sv1. split; [by apply prefix_app_r|done].
Qed.

End Keys.
End Micro.
