(* ===== verification/FtReceive.v ===== *)
(** * What a receiving service has been sent

    The parts of a transfer that carry the file are followed through the steps
    of FtMicro.v from the messages that arrive to the writes: an upload that
    is finalized as a success has been given the segments of a transfer that
    arrived whole and in one piece. *)

From S2P Require Import Prelude Bytes Codec AsduHeader InfoElements Asdu AsduFile FileSession FtService FileTransfer FtMicro.
#[local] Set Default Proof Using "Type".

(** ** The parts of a transfer *)

Inductive Part := Opens | Carries (d : bytes) | Closes.

Definition part_of (i : SessionInput) : option Part :=
  match i with
  | SectionReady _ => Some Opens
  | Segment sg => Some (Carries (sg_segment sg))
  | LastSection _ => Some Closes
  | _ => None
  end.
Definition parts (acts : list SessionAction) : list Part := omap part_of (messages acts).

(** The parts among the messages of a session. *)
Definition flow (K : Key) (l : list (Key * SessionInput)) : list Part :=
  omap (λ p, if decide (p.1 = K) then part_of p.2 else None) l.

(** A whole file in a flow. *)
Definition carried (fl : list Part) (segs : list bytes) : Prop :=
  ∃ pre post, fl = pre ++ Opens :: (Carries <$> segs) ++ Closes :: post.

Lemma parts_app a b : parts (a ++ b) = parts a ++ parts b.
Proof. unfold parts, messages. by rewrite !omap_app. Qed.

Lemma flow_app K a b : flow K (a ++ b) = flow K a ++ flow K b.
Proof. apply omap_app. Qed.

Lemma flow_one K i : flow K [(K, i)] = option_list (part_of i).
Proof. unfold flow. cbn. rewrite decide_True by done. by destruct (part_of i). Qed.

Lemma flow_other K k i : k ≠ K -> flow K [(k, i)] = [].
Proof. intros H. unfold flow. cbn. by rewrite decide_False. Qed.

Lemma carried_app fl fl' segs : carried fl segs -> carried (fl ++ fl') segs.
Proof. intros (pre & post & ->). exists pre, (post ++ fl'). by rewrite <- !app_assoc, <- app_comm_cons, <- app_assoc. Qed.

(** ** What is written *)

(** The segments handed to the writer since the session was started. *)
Definition write_step (K : Key) (acc : list bytes) (o : SvOut) : list bytes :=
  match o with
  | SvEvent (FteStarted ca nof _) => if decide ((ca, nof_0 nof) = K) then [] else acc
  | SvWrite k d _ => if decide (k = K) then acc ++ [d] else acc
  | _ => acc
  end.
Definition written (K : Key) (l : list SvOut) : list bytes := fold_left (write_step K) l [].

(** An effect on neither the peer, a writer nor a session that begins. *)
Definition bare (o : SvOut) : bool :=
  match o with SvReply _ _ | SvEvent (FteSegmentTransferred _ _ _) | SvEvent (FteFinished _ _ _) => true | _ => false end.

Lemma written_log_app K l l' : written K (l ++ l') = fold_left (write_step K) l' (written K l).
Proof. unfold written. apply fold_left_app. Qed.

Lemma written_bare K l l' : Forall (λ o, bare o = true) l' -> written K (l ++ l') = written K l.
Proof.
  intros H. rewrite written_log_app. generalize (written K l). induction H as [|o l' Ho _ IH]; intros acc; [done|].
  cbn [fold_left]. rewrite IH. by destruct o as [|[]| | |].
Qed.

(** ** The receiving session *)

Definition completes (a : SessionAction) : bool := match a with Completed _ => true | _ => false end.
Definition unfinished (acts : list SessionAction) : Prop := Forall (λ a, completes a = false) acts.
Definition waiting (st : SessionState) : Prop := st = FtIdle \/ st = RxAwaitFileReady \/ st = RxAwaitSectionReady.

Definition tx_state (st : SessionState) : bool :=
  match st with TxAwaitSelect | TxAwaitRequest | TxSendingSegments | TxAwaitAck => true | _ => false end.

Inductive rx_move (s : Session) (i : SessionInput) (s' : Session) (acts : list SessionAction) : Prop :=
| rx_fail : s_state s' = FtFailed -> unfinished acts -> rx_move s i s' acts
| rx_wait : waiting (s_state s) -> waiting (s_state s') -> delivered_segments acts = [] -> unfinished acts ->
    rx_move s i s' acts
| rx_open : waiting (s_state s) -> s_state s' = RxReceivingSegments -> part_of i = Some Opens -> acts = [] ->
    rx_move s i s' acts
| rx_data d : s_state s = RxReceivingSegments -> s_state s' = RxReceivingSegments -> part_of i = Some (Carries d) ->
    acts = [DeliverSegment d] -> rx_move s i s' acts
| rx_rest : s_state s = RxReceivingSegments -> s_state s' = RxReceivingSegments -> is_message i = false -> acts = [] ->
    rx_move s i s' acts
| rx_close a n : s_state s = RxReceivingSegments -> s_state s' = FtCompleted -> part_of i = Some Closes ->
    acts = [SendAckFile a; Completed n] -> rx_move s i s' acts.

Lemma rx_step i now s s' acts : s_role s = Receiver -> s_actions s = [] -> is_terminal s = false ->
  tx_state (s_state s) = false ->
  step i now s = (s', acts) -> rx_move s i s' acts /\ parts acts = [].
Proof.
  intros Hr Ha Ht Hst Hs. rewrite step_dispatch in Hs by done. injection Hs as <- <-.
  destruct s as [ro nf st cf fl sl bt ch lp aw ac]. cbn in Hr, Ha, Ht. subst. unfold check_timeout.
  destruct i; ft_unfold; destruct st; try done; cbn;
    repeat (case_match; cbn; try done); split; try done;
    first [by apply rx_fail; repeat constructor|by apply rx_wait; unfold waiting; auto; repeat constructor|by apply rx_open; unfold waiting; auto
          |by eapply rx_data|by apply rx_rest|by eapply rx_close].
Qed.

Create HintDb ft_fixed.

Lemma Checksum_update_wf c d : Chs_wf c -> Chs_wf (Checksum_update_slice c d).
Proof. intros H. unfold Chs_wf, is_u8, Checksum_update_slice in *. cbn. rewrite fold_sum by done. lia. Qed.

(** What a session keeps of the way it was made, and the actions it holds:
    what it says of a file is in the form the wire can carry. [data_ok] is what
    is known of the chunks. *)
Section Fixed.
Context (data_ok : bytes -> Prop) (role : FtRole) (nof : NameOfFile) (cfg : SessionConfig).

Definition sendable (a : SessionAction) : Prop :=
  match a with
  | SendSectionReady x => ∃ los, x = mkF_SR (sess_ioa cfg) nof (mkNos 1) los Srq_READY
  | SendSegment x => ∃ d, x = mkF_SG (sess_ioa cfg) nof (mkNos 1) d /\ data_ok d
  | SendLastSection x => ∃ chs, x = mkF_LS (sess_ioa cfg) nof (mkNos 1) FileWithoutDeactivate chs /\ Chs_wf chs
  | RequestNextSegment n => (1 <= n <= MAX_SEGMENT_BYTES)%nat
  | _ => True
  end.

Record fixed (s : Session) : Prop := {
  fx_role : s_role s = role; fx_nof : s_nof s = nof; fx_config : s_config s = cfg;
  fx_sum : Chs_wf (section_checksum s); fx_acts : Forall sendable (s_actions s) }.

Lemma fixed_emit a s : fixed s -> sendable a -> fixed (emit a s).
Proof. intros [] Ha. destruct s. split; cbn in *; try done. apply Forall_app. split; [done|]. by constructor. Qed.
Lemma fixed_state st s : fixed s -> fixed (set_s_state st s).
Proof. intros []. by destruct s. Qed.
Lemma fixed_file_length n s : fixed s -> fixed (set_file_length n s).
Proof. intros []. by destruct s. Qed.
Lemma fixed_section_length n s : fixed s -> fixed (set_section_length n s).
Proof. intros []. by destruct s. Qed.
Lemma fixed_bytes n s : fixed s -> fixed (set_bytes n s).
Proof. intros []. by destruct s. Qed.
Lemma fixed_progress p s : fixed s -> fixed (set_progress p s).
Proof. intros []. by destruct s. Qed.
Lemma fixed_awaiting b s : fixed s -> fixed (set_awaiting b s).
Proof. intros []. by destruct s. Qed.
Lemma fixed_taken s : fixed s -> fixed (take_actions s).
Proof. intros []. destruct s. split; cbn in *; try done. Qed.
Lemma fixed_reset s : fixed s -> fixed (set_checksum (mkChecksum 0) s).
Proof. intros []. by destruct s. Qed.
Lemma fixed_update d s : fixed s -> fixed (set_checksum (Checksum_update_slice (section_checksum s) d) s).
Proof. intros []. destruct s. split; cbn; try done. by apply Checksum_update_wf. Qed.
Lemma fixed_fail r s : fixed s -> fixed (fail_session r s).
Proof. intros H. unfold fail_session. case_match; [done|]. by apply fixed_emit; [apply fixed_state|]. Qed.
#[local] Hint Resolve fixed_emit fixed_state fixed_file_length fixed_section_length fixed_bytes fixed_progress
  fixed_awaiting fixed_reset fixed_update fixed_fail : ft_fixed.
#[local] Hint Extern 1 (sendable _) => exact I : ft_fixed.

Lemma fixed_request s : fixed s -> fixed (request_next_segment s).
Proof.
  intros H. unfold request_next_segment. case_match; [done|]. apply fixed_emit; [by apply fixed_awaiting|]. apply clamp_range.
Qed.
Lemma fixed_timeout now s : fixed s -> fixed (check_timeout now s).
Proof. intros H. unfold check_timeout. repeat case_match; auto with ft_fixed. Qed.
#[local] Hint Resolve fixed_request : ft_fixed.

Lemma fixed_call a now s : fixed s -> fixed (on_select_call a now s).
Proof.
  intros H. unfold on_select_call. repeat case_match; auto 12 with ft_fixed.
  apply fixed_state, fixed_request, fixed_emit; [by auto with ft_fixed|].
  destruct s, H as [_ H3 H4 _ _]. cbn in *. subst. by eexists.
Qed.

Lemma fixed_chunk d now s : (d ≠ [] -> data_ok d) -> fixed s -> fixed (on_segment_ready d now s).
Proof.
  intros Hd H. unfold on_segment_ready. case_match; [done|]. destruct d as [|b d].
  - apply fixed_progress, fixed_state, fixed_emit; [by apply fixed_awaiting|].
    destruct s, H as [_ H3 H4 Hs _]. cbn in *. subst. by eexists.
  - apply fixed_request, fixed_emit; [by auto 12 with ft_fixed|].
    destruct s, H as [_ H3 H4 Hs _]. cbn in *. subst. eexists. split; [done|]. by apply Hd.
Qed.

Lemma step_fixed i now s s' acts : (∀ d, i = SegmentReady d -> d ≠ [] -> data_ok d) -> fixed s ->
  step i now s = (s', acts) -> fixed s' /\ (s_actions s = [] -> Forall sendable acts).
Proof.
  intros Hi H. unfold step. case_match; [intros [= <- <-]; by split|]. intros [= <- <-].
  assert (fixed (check_timeout now (dispatch i now s))) as Hf; [|split; [by apply fixed_taken|intros _; apply Hf]].
  apply fixed_timeout. destruct i; cbn [dispatch]; try (by auto with ft_fixed); try (by apply fixed_call); try (by apply fixed_chunk; eauto);
    unfold on_start, on_file_ready, on_section_ready, on_last_section, on_ack_file, on_segment;
    repeat case_match; auto 12 with ft_fixed.
Qed.

End Fixed.

Lemma session_fixed ins role nof cfg s acts : ft_session ins (Session_new role nof cfg) = (s, acts) ->
  fixed (λ _, True) role nof cfg s.
Proof.
  enough (∀ s0, fixed (λ _, True) role nof cfg s0 -> ft_session ins s0 = (s, acts) -> fixed (λ _, True) role nof cfg s) as H
    by (apply H; by split).
  revert acts. induction ins as [|[i now] ins IH]; intros acts s0 H0; cbn [ft_session]; [by intros [= <- _]|].
  destruct (step i now s0) as [s1 a1] eqn:H1. destruct (ft_session ins s1) as [s2 a2] eqn:H2. intros [= <- _].
  apply (IH a2 s1); [|done]. by eapply step_fixed.
Qed.

(** ** The table, step by step *)

Section Steps.
Context `{BC : BytesCrate} {W Reader Writer : Type} `{PV : !Provider W Reader Writer}.
Context (config : FileTransferConfig) (clock : nat -> Instant) (key_ok : Key -> Prop).

#[local] Abbreviation service := (@Service W Reader Writer).
#[local] Abbreviation state := (@mstate W Reader Writer).
#[local] Abbreviation steps := (micro config clock key_ok).

Definition table_wf (m : state) : Prop :=
  match m_q m with
  | None => table_ok config (m_sv m)
  | Some (key, q) => busy_ok config key q (m_sv m)
  end.

Lemma table_busy key q (sv : service) : table_ok config sv -> busy_ok config key q sv.
Proof. intros H k a Hk. destruct (H k a Hk) as [Ha Ht]. split; [done|]. congruence. Qed.

Lemma begins_open role key s q reader writer w w' reply now : begins config role key s q ->
  opens (mkNof key.2) w role reader writer w' -> open_ok config key (mkActive s key.1 (reader : option Reader) (writer : option Writer) reply now).
Proof.
  intros Hb Ho. split; [split; [done|]; exists role|].
  - assert (∃ ins acts, ft_session ins (Session_new role (mkNof key.2) (session_config config)) = (s, acts)) as (ins & acts & Hs).
    { destruct Hb as [|len t s acts Hs|len t s acts Hs]; [by exists [], []|..];
        (exists [(Start len, t)], acts; cbn [ft_session]; rewrite Hs; by rewrite app_nil_r). }
    exists ins, acts. split; [done|]. destruct Ho; cbn; eauto.
  - destruct Hb; [by destruct role|..]; by eapply start_open.
Qed.

Lemma kin_active key s (a a' : @ActiveSession Reader Writer) : active_ok config key (set_session s a) -> kin a a' -> as_session a' = s -> active_ok config key a'.
Proof.
  intros (Hca & role & ins & acts & Hs & Hh) (K1 & K2 & K3 & K4) <-. cbn in *. split; [by rewrite K1|].
  exists role, ins, acts. by rewrite K2, K3.
Qed.

Lemma table_wf_step m m' : steps m m' -> table_wf m -> table_wf m'.
Proof.
  intros H. destruct H as [sv ins ws|sv sv' l ins ws Hs _ _ _|key role s reader writer reply now q sv sv' ins ws _ Hn _ Ho Hb _ Hs
    |key i sv ins ws _|key i now a a' acts l sv sv' ins ws Ha Hstep Hk Hs _ _ _|key action q extra sv sv' ins ws Hact|key sv ins ws];
    unfold table_wf; cbn [m_q m_sv]; intros Ht; try done.
  - unfold table_ok. by rewrite Hs.
  - assert (table_ok config sv') as Hok.
    { unfold table_ok. rewrite Hs. apply map_Forall_insert_2; [|done]. by eapply begins_open. }
    destruct q as [[k q]|]; [by apply table_busy|done].
  - destruct (Ht _ _ Ha) as [Hok Hopen]. destruct (session_step _ _ _ _ _ _ _ Hok Hstep) as [Hok' Hend].
    eapply (busy_insert config key [] acts); [by apply table_busy|exact Ha|exact Hs| | |].
    + by eapply kin_active.
    + intros [?|?]%Hend; [congruence|done].
    + by intros ?%Exists_nil.
  - by eapply apply_action_busy.
  - intros k a Hk. destruct (Ht _ _ Hk) as [Hok He]. split; [done|].
    destruct (is_terminal (as_session a)); [|done]. destruct (He eq_refl) as [_ Hx]. by apply Exists_nil in Hx.
Qed.

(** ** The effects of an action *)

(** The octets an action sends. *)
Definition wire_of (key : Key) (action : SessionAction) : option bytes :=
  let asdu {P} `{!AsduPayload P} (p : P) :=
    Asdu_encode (from_payload (Cot_with FILE_TRANSFER) key.1 (Vsq_single 1) p IEC104) IEC104 [] in
  match action with
  | SendFileReady a => Some (asdu a) | SendSectionReady a => Some (asdu a) | SendSelectCall a => Some (asdu a)
  | SendLastSection a => Some (asdu a) | SendAckFile a => Some (asdu a) | SendSegment a => Some (asdu a)
  | _ => None
  end.

Definition outcome_of (action : SessionAction) : option FileTransferOutcome :=
  match action with
  | Completed n => Some (OutcomeCompleted n) | FailedWith r => Some (OutcomeFailed r) | _ => None
  end.

Inductive act_case (key : Key) (sv : service) : SessionAction -> list SessionAction -> service -> Prop :=
| act_sent action b : wire_of key action = Some b -> act_case key sv action [] (log (SvSend b) sv)
| act_pumped max extra sv' : pump_reader clock key max sv = (extra, sv') ->
    act_case key sv (RequestNextSegment max) extra sv'
| act_delivered d : act_case key sv (DeliverSegment d) [] (deliver_segment key d sv)
| act_finished action outcome : outcome_of action = Some outcome ->
    act_case key sv action [] (finalize_session key outcome sv).

Lemma apply_action_case key action sv extra sv' : apply_action clock key action sv = (extra, sv') ->
  act_case key sv action extra sv'.
Proof.
  destruct action; cbn [apply_action]; try (by apply act_pumped);
    intros [= <- <-]; first [by apply act_sent|by apply act_delivered|by apply act_finished].
Qed.

Lemma deliver_effect key d (sv : service) : ∃ l, sv_log (deliver_segment key d sv) = sv_log sv ++ l /\
  ((∀ a, sv_sessions sv !! key = Some a -> is_Some (as_writer a)) -> is_Some (sv_sessions sv !! key) ->
    ∃ ok o, l = [SvWrite key d ok; o] /\ bare o = true) /\
  (sv_sessions sv !! key = None -> l = []) /\
  Forall (λ o, bare o = true \/ ∃ ok, o = SvWrite key d ok) l.
Proof.
  unfold deliver_segment. destruct (sv_sessions sv !! key) as [a|]; [|exists []; rewrite app_nil_r; by split_and!; try intros _ []].
  destruct (as_writer a) as [wr|] eqn:Hw; [destruct (pv_write_segment _ _ _) as [[ok wr'] w]|].
  - eexists [_; _]. cbn. rewrite <- app_assoc. split; [done|]. split_and!; [by intros; eexists _, _|done|].
    constructor; [by right; eexists|by repeat constructor].
  - eexists [_]. split; [done|]. split_and!; [|done|by repeat constructor].
    intros Hall. destruct (Hall a eq_refl) as [wr Hwr]. congruence.
Qed.

Lemma finalize_effect key outcome (sv : service) : ∃ fin l,
  sv_log (finalize_session key outcome sv) = sv_log sv ++ fin ++ l /\ Forall (λ o, bare o = true) l /\
  (fin = [] \/ ∃ a ok, sv_sessions sv !! key = Some a /\ is_Some (as_writer a) /\
    fin = [SvFinalize key (match outcome with OutcomeCompleted _ => true | _ => false end) ok]).
Proof.
  unfold finalize_session. destruct (sv_sessions sv !! key) as [a|]; [|exists [], []; rewrite app_nil_r; auto].
  destruct (as_writer a) as [wr|] eqn:Hw; [destruct (pv_finalize _ _ _) as [ok w]|].
  - destruct (as_reply a); eexists [_], _; cbn; rewrite <- !app_assoc; cbn; (split; [reflexivity|]); (split; [by repeat constructor|]);
      right; exists a, ok; (split_and!; [done|by eexists|done]).
  - destruct (as_reply a); eexists [], _; cbn; rewrite <- ?app_assoc; cbn; (split; [reflexivity|]); (split; [by repeat constructor|by left]).
Qed.

(** An effect of carrying out an action of [key]. *)
Definition of_key (key : Key) (action : SessionAction) (o : SvOut) : Prop :=
  bare o = true \/ (∃ b, o = SvSend b /\ wire_of key action = Some b) \/ (∃ d ok, o = SvWrite key d ok) \/
  ∃ success ok, o = SvFinalize key success ok /\ (success = true -> completes action = true).

Lemma bare_of_key key action l : Forall (λ o, bare o = true) l -> Forall (of_key key action) l.
Proof. intros H. eapply Forall_impl; [exact H|]. by left. Qed.

Lemma act_effect key sv action extra sv' : act_case key sv action extra sv' ->
  (∀ k, k ≠ key -> sv_sessions sv' !! k = sv_sessions sv !! k) /\
  ∃ l, sv_log sv' = sv_log sv ++ l /\ Forall (of_key key action) l.
Proof.
  intros [action' b Hb|max extra' sv1 Hp|d|action' outcome Ho].
  - split; [done|]. exists [SvSend b]. split; [done|]. constructor; [|done]. right. left. by exists b.
  - apply sessions_pump in Hp as [[-> ->]|(a & r & r' & w & chunk & now & s & _ & _ & _ & _ & Hs & Hl & _)];
      (split; [|exists []; by rewrite app_nil_r]); [done|]. intros k Hk. rewrite Hs. by apply lookup_insert_ne.
  - split.
    + intros k Hk. destruct (sessions_deliver key d sv) as [[-> _]|(a & w & _ & _ & ->)]; [done|]. by apply lookup_insert_ne.
    + destruct (deliver_effect key d sv) as (l & Hl & _ & _ & Hf). exists l. split; [done|].
      eapply Forall_impl; [exact Hf|]. intros o [Ho|[ok ->]]; [by left|]. right. right. left. by exists d, ok.
  - split; [intros k Hk; rewrite sessions_finalize; by apply lookup_delete_ne|].
    destruct (finalize_effect key outcome sv) as (fin & l & Hl & Hf & Hfin). exists (fin ++ l). split; [done|].
    apply Forall_app. split; [|by apply bare_of_key]. destruct Hfin as [->|(a & ok & _ & _ & ->)]; [done|].
    constructor; [|done]. right. right. right. eexists _, ok. split; [done|].
    destruct action'; try done; by injection Ho as <-.
Qed.

Lemma written_other K key action log l : key ≠ K -> Forall (of_key key action) l -> written K (log ++ l) = written K log.
Proof.
  intros Hk H. rewrite written_log_app. generalize (written K log). induction H as [|o l Ho _ IH]; intros acc; [done|].
  cbn [fold_left]. rewrite IH. destruct Ho as [Ho|[(b & -> & _)|[(d & ok & ->)|(su & ok & -> & _)]]]; try done.
  - by destruct o as [|[]| | |].
  - cbn. by rewrite decide_False.
Qed.

(** What a role means for a session of the table. *)
Lemma active_receiver key (a : @ActiveSession Reader Writer) : active_ok config key a -> s_role (as_session a) = Receiver ->
  as_reader a = None /\ is_Some (as_writer a) /\ tx_state (s_state (as_session a)) = false /\ s_actions (as_session a) = [].
Proof.
  intros (_ & role & ins & acts & Hs & Hh) Hr. rewrite (fx_role _ _ _ _ _ (session_fixed _ _ _ _ _ _ Hs)) in Hr. subst role.
  destruct Hh as [-> Hw]. split_and!; [done|done| |by eapply session_held].
  destruct (recv_inv_session _ _ _ _ _ Hs) as (_ & _ & Hst). by destruct (s_state (as_session a)).
Qed.

Lemma active_sender key (a : @ActiveSession Reader Writer) : active_ok config key a -> s_role (as_session a) = Sender ->
  is_Some (as_reader a) /\ as_writer a = None.
Proof.
  intros (_ & role & ins & acts & Hs & Hh) Hr. rewrite (fx_role _ _ _ _ _ (session_fixed _ _ _ _ _ _ Hs)) in Hr. by subst role.
Qed.

(** ** What the receiver's storage is given *)

Section Receiving.
Context (K : Key).

Definition queue_of (m : state) : list SessionAction :=
  match m_q m with Some (key, q) => if decide (key = K) then q else [] | None => [] end.

(** What has been written and what is still to be, by the state of the session
    and the parts that have arrived. *)
Definition rx_at (st : SessionState) (wr : list bytes) (q : list SessionAction) (fl : list Part) : Prop :=
  match st with
  | FtIdle | RxAwaitFileReady | RxAwaitSectionReady => wr ++ delivered_segments q = [] /\ unfinished q
  | RxReceivingSegments => unfinished q /\ ∃ pre, fl = pre ++ Opens :: (Carries <$> wr ++ delivered_segments q)
  | FtCompleted => delivered_segments q = [] /\ carried fl wr
  | _ => unfinished q
  end.

Definition rx_held (m : state) : Prop :=
  ∀ a, sv_sessions (m_sv m) !! K = Some a -> s_role (as_session a) = Receiver ->
    rx_at (s_state (as_session a)) (written K (sv_log (m_sv m))) (queue_of m) (flow K (m_in m)).

(** Every upload that was finalized as a success. *)
Definition rx_done (m : state) : Prop :=
  ∀ l1 ok l2, sv_log (m_sv m) = l1 ++ SvFinalize K true ok :: l2 -> carried (flow K (m_in m)) (written K l1).

Lemma split_app {A} (a b l1 l2 : list A) x : a ++ b = l1 ++ x :: l2 ->
  (∃ l, a = l1 ++ x :: l) \/ ∃ l, l1 = a ++ l /\ b = l ++ x :: l2.
Proof.
  revert l1. induction a as [|y a IH]; intros l1; [right; by exists l1|]. destruct l1 as [|z l1]; cbn; intros [= -> H].
  - left. by exists a.
  - destruct (IH _ H) as [[l ->]|(l & -> & ->)]; [left; by exists l|right; by exists l].
Qed.

Lemma rx_done_ext (m m' : state) l : sv_log (m_sv m') = sv_log (m_sv m) ++ l -> (∀ ok, SvFinalize K true ok ∉ l) ->
  (∃ fl, flow K (m_in m') = flow K (m_in m) ++ fl) -> rx_done m -> rx_done m'.
Proof.
  intros Hl Hno [fl Hfl] H l1 ok l2 Hlog. rewrite Hl in Hlog. rewrite Hfl. apply carried_app.
  apply split_app in Hlog as [[l3 Hlog]|(l3 & -> & ->)]; [by eapply H|]. destruct (Hno ok). apply elem_of_app. right. by left.
Qed.

Lemma bare_no_final l ok : Forall (λ o, bare o = true) l -> SvFinalize K true ok ∉ l.
Proof. intros H Hin. rewrite Forall_forall in H. by specialize (H _ Hin). Qed.

Lemma begins_rx key s q fl (sv : service) ins ws : begins config Receiver key s q ->
  rx_at (s_state s) [] (queue_of (mkM sv q ins ws)) fl.
Proof.
  assert (∀ q' : list SessionAction, delivered_segments q' = [] -> unfinished q' ->
    delivered_segments (queue_of (mkM sv (Some (key, q')) ins ws)) = [] /\ unfinished (queue_of (mkM sv (Some (key, q')) ins ws))) as Hq.
  { intros q' Hd Hu. unfold queue_of. cbn [m_q]. destruct (decide (key = K)); (split; [done|]); [done|constructor]. }
  assert (∀ len now s1 acts, step (Start len) now (Session_new Receiver (mkNof key.2) (session_config config)) = (s1, acts) ->
    s_state s1 = RxAwaitFileReady /\ delivered_segments acts = [] /\ unfinished acts) as Hstart.
  { intros len now s1 acts Hs. injection Hs as <- <-. cbn. split_and!; by repeat constructor. }
  intros [|len now s1 acts Hs|len now s1 acts Hs]; [split; [done|constructor]|..]; destruct (Hstart _ _ _ _ Hs) as (-> & Hd & Hu); cbn.
  - exact (Hq acts Hd Hu).
  - split; [done|constructor].
Qed.

Lemma rx_step_at i s' acts (a : @ActiveSession Reader Writer) wr fl : rx_at (s_state (as_session a)) wr [] fl ->
  is_terminal (as_session a) = false -> rx_move (as_session a) i s' acts -> is_message i = true \/ part_of i = None ->
  rx_at (s_state s') wr acts (fl ++ option_list (part_of i)).
Proof.
  intros Ha Ht Hm Hi. destruct Hm as [Hs Hu|Hw Hw' Hd Hu|Hw Hs Hp ->|d Hs Hs' Hp ->|Hs Hs' Hno ->|af n Hs Hs' Hp ->].
  - by rewrite Hs.
  - assert (wr = []) as ->.
    { destruct Hw as [E|[E|E]]; rewrite E in Ha; destruct Ha as [Ha _]; by rewrite app_nil_r in Ha. }
    destruct Hw' as [->|[->| ->]]; cbn; by rewrite Hd.
  - assert (wr = []) as ->.
    { destruct Hw as [E|[E|E]]; rewrite E in Ha; destruct Ha as [Ha _]; by rewrite app_nil_r in Ha. }
    rewrite Hs, Hp. split; [constructor|]. by exists fl.
  - rewrite Hs in Ha. destruct Ha as [_ [pre ->]]. rewrite Hs', Hp. split; [by repeat constructor|]. exists pre.
    cbn. rewrite app_nil_r, <- app_assoc, <- app_comm_cons. by rewrite fmap_app.
  - rewrite Hs in Ha. rewrite Hs'. destruct Hi as [Hi|Hi]; [congruence|]. rewrite Hi. cbn. by rewrite app_nil_r.
  - rewrite Hs in Ha. destruct Ha as [_ [pre ->]]. rewrite Hs', Hp. split; [done|]. exists pre, [].
    cbn. by rewrite app_nil_r, <- app_assoc.
Qed.

(** An action of the session under [K]. *)
Lemma rx_at_pop st wr a q fl : delivery_of a = None -> completes a = false -> rx_at st wr (a :: q) fl ->
  rx_at st wr (q ++ []) fl.
Proof.
  rewrite app_nil_r. intros Hd Hc. assert (delivered_segments (a :: q) = delivered_segments q) as E.
  { unfold delivered_segments. cbn. by rewrite Hd. }
  assert (unfinished (a :: q) -> unfinished q) as Hu by (by intros [_ ?]%Forall_cons).
  unfold rx_at. rewrite E. destruct st; intros H; try done; try (by apply Hu); destruct H as [H1 H2];
    first [by split; [|apply Hu]|by split; [apply Hu|]].
Qed.

Lemma rx_at_deliver st wr d q fl : rx_at st wr (DeliverSegment d :: q) fl -> rx_at st (wr ++ [d]) (q ++ []) fl.
Proof.
  rewrite app_nil_r. assert (unfinished (DeliverSegment d :: q) -> unfinished q) as Hu by (by intros [_ ?]%Forall_cons).
  unfold rx_at. change (delivered_segments (DeliverSegment d :: q)) with (d :: delivered_segments q).
  rewrite <- app_assoc. cbn [app]. destruct st; intros H; try (by apply Hu); try (destruct H as [H H2]; by destruct wr).
  split; [by apply Hu, H|]. apply H.
Qed.

(** The messages and the queue of other sessions do not matter. *)
Lemma flow_step key (i : SessionInput) l ins : l = [] /\ i = FtTick \/ l = [(key, i)] /\ is_message i = true ->
  flow K (ins ++ l) = flow K ins ++ (if decide (key = K) then option_list (part_of i) else []).
Proof.
  rewrite flow_app. intros [[-> ->]|[-> _]]; f_equal; destruct (decide (key = K)) as [->|Hk]; try done;
    [by apply flow_one|by apply flow_other].
Qed.

Lemma rx_act_own action extra q (sv sv' : service) ins ws : table_wf (mkM sv (Some (K, action :: q)) ins ws) ->
  rx_held (mkM sv (Some (K, action :: q)) ins ws) -> act_case K sv action extra sv' ->
  table_wf (mkM sv' (Some (K, q ++ extra)) ins ws) -> rx_held (mkM sv' (Some (K, q ++ extra)) ins ws).
Proof.
  unfold rx_held, queue_of. cbn [m_q m_sv m_in]. rewrite !decide_True by done. intros Hwf Hh Hact Hwf'.
  destruct Hact as [action b Hb|max extra sv1 Hp|d|action outcome Ho]; intros a Ha Hr.
  - cbn [sv_log log]. rewrite written_log_app. cbn [fold_left write_step]. apply (rx_at_pop _ _ action); [by destruct action..|]. by apply Hh.
  - apply sessions_pump in Hp as [[-> ->]|(a0 & r & r' & w & chunk & now & s & _ & Hrd & _ & _ & Hs & _ & _)].
    + apply (rx_at_pop _ _ (RequestNextSegment max)); [done|done|]. by apply Hh.
    + destruct (active_receiver K a (proj1 (Hwf' _ _ Ha)) Hr) as [Hn _]. rewrite Hs, lookup_insert_eq in Ha.
      injection Ha as <-. done.
  - destruct (deliver_effect K d sv) as (l & Hl & Hw & _).
    assert (∃ a0, sv_sessions sv !! K = Some a0 /\ as_session a0 = as_session a) as (a0 & Ha0 & E).
    { destruct (sessions_deliver K d sv) as [[Hs _]|(a0 & w & Ha0 & _ & Hs)]; rewrite Hs in Ha; [by exists a|].
      rewrite lookup_insert_eq in Ha. injection Ha as <-. by exists a0. }
    destruct Hw as (ok & o & -> & Hbare); [|by eexists|].
    { intros a1 Ha1. rewrite Ha0 in Ha1. injection Ha1 as <-. rewrite <- E in Hr.
      by destruct (active_receiver K a0 (proj1 (Hwf _ _ Ha0)) Hr) as (_ & Hw & _). }
    rewrite Hl, written_log_app. cbn [fold_left]. assert (∀ x, write_step K x o = x) as -> by (by destruct o as [|[]| | |]).
    cbn [write_step]. rewrite decide_True by done. apply rx_at_deliver. rewrite <- E. apply Hh; [done|by rewrite E].
  - rewrite sessions_finalize, lookup_delete_eq in Ha. done.
Qed.

Lemma rx_act_done action extra q (sv sv' : service) key ins ws : table_wf (mkM sv (Some (key, action :: q)) ins ws) ->
  rx_held (mkM sv (Some (key, action :: q)) ins ws) -> act_case key sv action extra sv' ->
  rx_done (mkM sv (Some (key, action :: q)) ins ws) -> rx_done (mkM sv' (Some (key, q ++ extra)) ins ws).
Proof.
  intros Hwf Hh Hact Hd.
  destruct (act_effect _ _ _ _ _ Hact) as (_ & l & Hl & Hof).
  assert ((∀ ok, SvFinalize K true ok ∉ l) -> rx_done (mkM sv' (Some (key, q ++ extra)) ins ws)) as Hext.
  { intros Hno. eapply (rx_done_ext (mkM sv (Some (key, action :: q)) ins ws) _ l); [done|done|exists []; by rewrite app_nil_r|done]. }
  rewrite Forall_forall in Hof. destruct (completes action) eqn:Hc; [destruct (decide (key = K)) as [->|Hk]|].
  - destruct action as [| | | | | | | |n|]; try done. clear Hof Hext l Hl. inversion Hact as [? b Hb| | |? outcome Ho]; subst; [done|].
    injection Ho as <-. destruct (finalize_effect K (OutcomeCompleted n) sv) as (fin & l & Hl & Hb & Hfin).
    destruct Hfin as [->|(a & ok & Ha & Hw & ->)].
    { eapply (rx_done_ext (mkM sv (Some (K, Completed n :: q)) ins ws) _ l); [done|intros ok; by apply bare_no_final|exists []; symmetry; apply app_nil_r|done]. }
    assert (s_role (as_session a) = Receiver) as Hr.
    { destruct (s_role (as_session a)) eqn:Hr; [done|]. destruct (active_sender K a (proj1 (Hwf _ _ Ha)) Hr) as [_ Hn].
      rewrite Hn in Hw. by destruct Hw. }
    specialize (Hh a Ha Hr). unfold queue_of in Hh. cbn [m_q m_sv m_in] in Hh. rewrite decide_True in Hh by done.
    intros l1 ok1 l2 Hlog. cbn [m_sv m_in] in *. rewrite Hl in Hlog.
    apply split_app in Hlog as [[l3 Hlog]|(l3 & -> & Hx)]; [by eapply Hd|]. destruct l3 as [|o l3].
    + rewrite app_nil_r. unfold rx_at in Hh.
      assert (¬ unfinished (Completed n :: q)) as Hnu by (by intros [? _]%Forall_cons).
      destruct (s_state (as_session a)); try done; by destruct Hh.
    + injection Hx as <- Hx. destruct (bare_no_final l ok1 Hb). rewrite Hx. apply elem_of_app. right. by left.
  - apply Hext. intros ok Hin. destruct (Hof _ Hin) as [?|[(? & ? & _)|[(? & ? & ?)|(su & ok' & E & _)]]]; try done. by injection E as <-.
  - apply Hext. intros ok Hin. destruct (Hof _ Hin) as [?|[(? & ? & _)|[(? & ? & ?)|(su & ok' & E & Hx)]]]; try done.
    injection E as _ <- _. rewrite Hx in Hc; done.
Qed.

(** A step of another session. *)
Lemma rx_held_other (m m' : state) l fl : queue_of m = queue_of m' ->
  sv_sessions (m_sv m') !! K = sv_sessions (m_sv m) !! K -> sv_log (m_sv m') = sv_log (m_sv m) ++ l ->
  written K (sv_log (m_sv m) ++ l) = written K (sv_log (m_sv m)) -> flow K (m_in m') = flow K (m_in m) ++ fl ->
  (fl = [] \/ sv_sessions (m_sv m) !! K = None) -> rx_held m -> rx_held m'.
Proof.
  intros Hq Hs Hl Hw Hf Hfl H a Ha Hr. rewrite Hs in Ha. destruct Hfl as [->|Hn]; [|congruence].
  rewrite <- Hq, Hl, Hw, Hf, app_nil_r. by apply H.
Qed.

Lemma queue_other key q (sv : service) ins ws : key ≠ K -> queue_of (mkM sv (Some (key, q)) ins ws) = [].
Proof. intros H. unfold queue_of. cbn. by rewrite decide_False. Qed.

Record rx_inv (m : state) : Prop := { ri_table : table_wf m; ri_held : rx_held m; ri_done : rx_done m }.

Lemma rx_held_open key role s reader writer reply now q (sv sv' : service) ins ws :
  opens (mkNof key.2) (sv_prov sv) role reader writer (sv_prov sv') -> begins config role key s q ->
  sv_log sv' = sv_log sv ++ [SvEvent (FteStarted key.1 (mkNof key.2) role)] ->
  sv_sessions sv' = <[key := mkActive s key.1 reader writer reply now]> (sv_sessions sv) ->
  rx_held (mkM sv None ins ws) -> rx_held (mkM sv' q ins ws).
Proof.
  intros Ho Hb Hl Hs H. destruct (decide (key = K)) as [->|Hk].
  - intros a Ha Hr. cbn [m_sv] in *. rewrite Hs, lookup_insert_eq in Ha. injection Ha as <-. cbn [as_session] in *.
    assert (role = Receiver) as ->.
    { destruct role; [done|]. destruct Hb as [|? ? ? ? Hst|? ? ? ? Hst]; [done|..]; by injection Hst as <- _. }
    rewrite Hl, written_log_app. cbn [fold_left write_step nof_0]. rewrite decide_True by (by destruct K). by eapply begins_rx.
  - eapply (rx_held_other (mkM sv None ins ws) _ [_] []); cbn [m_sv m_in];
      [|by rewrite Hs; apply lookup_insert_ne|done| |by rewrite app_nil_r|by left|exact H].
    + destruct q as [[k q]|]; [|done]. assert (k = key) as -> by (by inversion Hb). by rewrite queue_other.
    + rewrite written_log_app. cbn [fold_left write_step nof_0]. rewrite decide_False; [done|]. by destruct key.
Qed.

Lemma rx_held_step key i now a a' acts l (sv sv' : service) ins ws : table_ok config sv -> sv_sessions sv !! key = Some a ->
  step i now (as_session a) = (as_session a', acts) -> sv_sessions sv' = <[key := a']> (sv_sessions sv) ->
  sv_log sv' = sv_log sv -> l = [] /\ i = FtTick \/ l = [(key, i)] /\ is_message i = true ->
  rx_held (mkM sv None ins ws) -> rx_held (mkM sv' (Some (key, acts)) (ins ++ l) ws).
Proof.
  intros Ht Ha Hstep Hs Hlog Hl H. pose proof (flow_step _ _ _ ins Hl) as Hf.
  destruct (decide (key = K)) as [->|Hk].
  - intros a1 Ha1 Hr. cbn [m_sv m_in] in *. rewrite Hs, lookup_insert_eq in Ha1. injection Ha1 as <-.
    destruct (Ht _ _ Ha) as [Hok Hopen].
    assert (s_role (as_session a) = Receiver) as Hr0.
    { destruct Hok as (_ & role & its & x & Hrun & _). pose proof (session_fixed _ _ _ _ _ _ Hrun) as F0.
      destruct (step_fixed _ _ _ _ i now _ _ _ (λ _ _ _, I) F0 Hstep) as [F _].
      rewrite (fx_role _ _ _ _ _ F0), <- (fx_role _ _ _ _ _ F). exact Hr. }
    destruct (active_receiver K a Hok Hr0) as (_ & _ & Htx & Hac).
    destruct (rx_step _ _ _ _ _ Hr0 Hac Hopen Htx Hstep) as [Hm _]. unfold queue_of. cbn [m_q]. rewrite decide_True by done.
    rewrite Hf, Hlog. eapply rx_step_at; [by apply H|done|exact Hm|]. destruct Hl as [[_ ->]|[_ Hi]]; [by right|by left].
  - eapply (rx_held_other (mkM sv None ins ws) _ [] []); try done; [by rewrite queue_other|..]; cbn [m_sv].
    + rewrite Hs. by apply lookup_insert_ne.
    + by rewrite app_nil_r.
    + by rewrite app_nil_r.
    + by left.
Qed.

Lemma rx_held_act key action q extra (sv sv' : service) ins ws : table_wf (mkM sv (Some (key, action :: q)) ins ws) ->
  act_case key sv action extra sv' -> table_wf (mkM sv' (Some (key, q ++ extra)) ins ws) ->
  rx_held (mkM sv (Some (key, action :: q)) ins ws) -> rx_held (mkM sv' (Some (key, q ++ extra)) ins ws).
Proof.
  intros Hwf Hact Hwf' H. destruct (decide (key = K)) as [->|Hk]; [by eapply rx_act_own|].
  destruct (act_effect _ _ _ _ _ Hact) as (Hs & l & Hl & Hof).
  eapply (rx_held_other (mkM sv (Some (key, action :: q)) ins ws) _ l []); try done; [by rewrite !queue_other|..]; cbn [m_sv m_in].
  - apply Hs. congruence.
  - by eapply written_other.
  - by rewrite app_nil_r.
  - by left.
Qed.

Lemma rx_done_same (m m' : state) : sv_log (m_sv m') = sv_log (m_sv m) -> (∃ fl, flow K (m_in m') = flow K (m_in m) ++ fl) ->
  rx_done m -> rx_done m'.
Proof. intros Hl Hf. eapply (rx_done_ext m m' []); [by rewrite app_nil_r|by intros ok ?%not_elem_of_nil|done]. Qed.

Lemma flow_grows ins l : ∃ fl, flow K (ins ++ l) = flow K ins ++ fl.
Proof. rewrite flow_app. by eexists. Qed.

Lemma rx_inv_step m m' : steps m m' -> rx_inv m -> rx_inv m'.
Proof.
  intros Hm [Ht Hh Hd]. pose proof (table_wf_step _ _ Hm Ht) as Ht'. split; [done|..];
    destruct Hm as [sv ins ws|sv sv' l ins ws Hs _ Hl Hr|key role s reader writer reply now q sv sv' ins ws _ Hn _ Ho Hb Hl Hs
    |key i sv ins ws Hn|key i now a a' acts l sv sv' ins ws Ha Hstep Hk Hs Hl Hp Hi|key action q extra sv sv' ins ws Hact|key sv ins ws];
    try (by apply Hh); try (by apply Hd).
  - assert (Forall (λ o, bare o = true) l) as Hbare by (eapply Forall_impl; [exact Hr|by intros []]).
    eapply (rx_held_other (mkM sv None ins ws) _ l []); cbn [m_sv m_in]; try done; [by rewrite Hs|by apply written_bare|by rewrite app_nil_r|by left].
  - by eapply rx_held_open.
  - destruct (flow_grows ins [(key, i)]) as [fl Hfl].
    eapply (rx_held_other (mkM sv None ins ws) _ [] (flow K [(key, i)])); cbn [m_sv m_in]; try done; rewrite ?app_nil_r; [done..|apply flow_app|].
    destruct (decide (key = K)) as [->|Hk]; [by right|left]. by apply flow_other.
  - eapply rx_held_step; [exact Ht|exact Ha|exact Hstep|done..].
  - eapply rx_held_act; [exact Ht|by apply apply_action_case|exact Ht'|done].
  - intros a Ha Hr. specialize (Hh a Ha Hr). unfold queue_of in *. cbn [m_q m_sv m_in] in *. by destruct (decide (key = K)).
  - eapply (rx_done_ext (mkM sv None ins ws) _ l); [done| |exists []; symmetry; apply app_nil_r|done].
    intros ok. apply bare_no_final. eapply Forall_impl; [exact Hr|by intros []].
  - eapply (rx_done_ext (mkM sv None ins ws) _ [_]); [done| |exists []; symmetry; apply app_nil_r|done].
    intros ok [=]%list_elem_of_singleton.
  - eapply (rx_done_same (mkM sv None ins ws)); [done|apply flow_grows|done].
  - eapply (rx_done_same (mkM sv None ins ws)); [done|apply flow_grows|done].
  - eapply rx_act_done; [exact Ht|exact Hh|by apply apply_action_case|done].
Qed.

Lemma rx_inv_reachable m w : rtc steps (mkM (Service_new w) None [] []) m -> rx_inv m.
Proof.
  assert (rx_inv (mkM (Service_new w) None [] [])) as H.
  { split; [by apply map_Forall_empty|by intros a Ha|]. intros l1 ok l2 Hl. by destruct l1. }
  intros Hr. revert H. induction Hr as [|m1 m2 m3 Hs _ IH]; [done|]. intros H. by eapply IH, rx_inv_step.
Qed.

End Receiving.

(** Whatever arrives, an upload that is finalized as a success has been given
    the segments of a transfer that arrived whole and in one piece. *)
Lemma uploads_arrived fuel inputs w (sv : service) K l1 ok l2 : Forall key_ok (omap input_key inputs) ->
  sv_run config clock fuel inputs (Service_new w) = Some sv -> sv_log sv = l1 ++ SvFinalize K true ok :: l2 ->
  carried (flow K (omap routed (arrivals inputs))) (written K l1).
Proof.
  intros Hk Hrun Hl. destruct (micro_run config clock key_ok fuel inputs w sv Hk Hrun) as (ws & Hm & _).
  exact (ri_done _ _ (rx_inv_reachable K _ _ Hm) l1 ok l2 Hl).
Qed.

End Steps.
