(* ===== verification/FtEndToEnd.v ===== *)
(** * Two file-transfer services

    What a service sends, followed from its storage to the octets, and the two
    ends together: when the ASDUs that arrive at one service are, in their
    order, those another has sent, every upload the first finalizes as a
    success is a file the second had in its storage when one of its turns
    began. *)

From S2P Require Import Prelude Bytes Codec AsduHeader InfoElements Asdu AsduFile FileSession FtService FileTransfer FtMicro FtReceive.
#[local] Set Default Proof Using "Type".

(** ** Octets *)

Section Wire.
Context `{BC : BytesCrate}.

(** What the driver of the peer makes of the octets sent. *)
Definition sent_asdu (o : SvOut) : option (CommonAddress * Asdu) :=
  match o with SvSend b => (λ a, (asdu_ca a, a)) <$> res_ok (run (Asdu_decode IEC104) b) | _ => None end.
Definition sent (l : list SvOut) : list (CommonAddress * Asdu) := omap sent_asdu l.

Lemma decode_keeps_type a a' : run (Asdu_decode IEC104) (Asdu_encode a IEC104 []) = Ok a' -> type_id a' = type_id a.
Proof.
  rewrite Asdu_encode_app. cbn [app]. generalize (Vsq_encode (asdu_vsq a) [] ++ Cot_encode (cot_size IEC104) (asdu_cot a) [] ++
    encode_ca (ca_size IEC104) (asdu_ca a) [] ++ payload a). intros b. unfold run, Asdu_decode.
  destruct (decide (header_len IEC104 <= length (type_id a :: b))%nat) as [Hl|Hl].
  - erewrite dec_bind_ok by (by apply ensure_long). erewrite dec_bind_ok by apply get_u8_spec.
    unfold mbind, Dec_bind. repeat (case_match; try done). cbn. by intros [= <-].
  - erewrite dec_bind_err; [done|]. apply ensure_short. lia.
Qed.

Lemma aside_no_part a i : type_id a ∈ [120; 122; 124] -> decode_ft_asdu a = Some i -> part_of i = None.
Proof.
  intros Ht. unfold decode_ft_asdu. rewrite !elem_of_cons, elem_of_nil in Ht. destruct Ht as [->|[->|[->|[]]]];
    intros Hd; apply fmap_Some in Hd as (? & _ & ->); done.
Qed.

(** A payload that fits is the one the peer reads. *)
Lemma sent_payload {P} `{!AsduPayload P} ca (p : P) : is_u16 ca -> payload_ok (Vsq_single 1) IEC104 p ->
  let a := from_payload (Cot_with FILE_TRANSFER) ca (Vsq_single 1) p IEC104 in
  sent_asdu (SvSend (Asdu_encode a IEC104 [])) = Some (ca, a) /\ decode_payload P a IEC104 = Ok p.
Proof.
  intros Hca Hp a. split.
  - cbn. unfold run. rewrite (Asdu_decode_encode_ok IEC104 a); [done|]. split_and!; try done; [apply payload_type_id|].
    by apply payload_octets.
  - unfold decode_payload, a, from_payload. cbn [type_id payload asdu_vsq]. rewrite Z.eqb_refl. cbn [negb]. unfold run.
    pose proof (payload_roundtrip (Vsq_single 1) IEC104 p [] Hp) as H. rewrite app_nil_r in H. by rewrite H.
Qed.

Lemma peek_names nof rest t v c ca : is_u16 nof ->
  peek_nof (mkAsdu t v c ca (encode_ioa IoaThree 0 [] ++ NameOfFile_encode (mkNof nof) [] ++ rest)) = Some (mkNof nof).
Proof.
  intros Hn. unfold peek_nof, encode_ioa, NameOfFile_encode. autorewrite with buf. cbn. unfold is_u16 in Hn. f_equal. f_equal.
  lia.
Qed.

Lemma mask_idle los buf : LengthOfSection_encode los buf = LengthOfSection_encode (mkLos (los_0 los mod 2 ^ 24)) buf.
Proof.
  unfold LengthOfSection_encode, LengthOfSection_MAX. cbn [los_0]. change 0x00FFFFFF with (Z.ones 24).
  by rewrite !Z.land_ones, Z.mod_mod by lia.
Qed.

(** A key whose halves are the 16-bit numbers they are in the source. *)
Definition wire_key (K : Key) : Prop := is_u16 K.1 /\ is_u16 K.2.
Definition chunk_ok (d : bytes) : Prop := octets d /\ (length d <= MAX_SEGMENT_BYTES)%nat.

Lemma routed_payload {P} `{!AsduPayload P} (K : Key) (p : P) i rest : wire_key K -> payload_ok (Vsq_single 1) IEC104 p ->
  encode_information_objects p (Vsq_single 1) IEC104 [] =
    encode_ioa IoaThree 0 [] ++ NameOfFile_encode (mkNof K.2) [] ++ rest ->
  (∀ a, type_id a = TYPE_ID (P := P) -> decode_payload P a IEC104 = Ok p -> decode_ft_asdu a = Some i) ->
  omap routed (sent [SvSend (Asdu_encode (from_payload (Cot_with FILE_TRANSFER) K.1 (Vsq_single 1) p IEC104) IEC104 [])]) = [(K, i)].
Proof.
  intros [H1 H2] Hp Henc Hi. destruct (sent_payload K.1 p H1 Hp) as [Hs Hd]. unfold sent. cbn [omap list_omap]. rewrite Hs.
  cbn [omap list_omap]. unfold routed. cbn [fst snd]. rewrite (Hi _ (eq_refl : type_id (from_payload _ _ _ p _) = _) Hd).
  unfold from_payload. rewrite Henc, peek_names by done. cbn. by destruct K.
Qed.

Lemma flow_aside K t b : (∀ a, run (Asdu_decode IEC104) b = Ok a -> type_id a = t) -> t ∈ [120; 122; 124] ->
  flow K (omap routed (sent [SvSend b])) = [].
Proof.
  intros Ht Hin. unfold sent. cbn. destruct (run (Asdu_decode IEC104) b) as [a| |]; [|done..]. cbn. unfold routed. cbn.
  destruct (peek_nof a); [|done]. destruct (decode_ft_asdu a) as [i|] eqn:Hd; [|done]. unfold flow. cbn.
  rewrite (aside_no_part a i); [|by rewrite (Ht a)|done]. by destruct (decide _).
Qed.

Lemma wire_one key i b K : omap routed (sent [SvSend b]) = [(key, i)] ->
  flow K (omap routed (sent [SvSend b])) = if decide (key = K) then option_list (part_of i) else [].
Proof. intros ->. destruct (decide (key = K)) as [->|Hne]; [apply flow_one|by apply flow_other]. Qed.

Lemma names_form nof (rest : bytes -> bytes) : (∀ buf, rest buf = buf ++ rest []) ->
  rest (NameOfFile_encode nof (encode_ioa IoaThree 0 [])) = encode_ioa IoaThree 0 [] ++ NameOfFile_encode nof [] ++ rest [].
Proof. intros ->. rewrite (fc_append _ _ _ _ Nof_codec). by rewrite <- app_assoc. Qed.

Lemma SR_masked ca nof los : let cot := Cot_with FILE_TRANSFER in
  from_payload cot ca (Vsq_single 1) (mkF_SR 0 nof (mkNos 1) los Srq_READY) IEC104 =
  from_payload cot ca (Vsq_single 1) (mkF_SR 0 nof (mkNos 1) (mkLos (los_0 los mod 2 ^ 24)) Srq_READY) IEC104.
Proof.
  unfold from_payload. f_equal. change (encode_information_objects ?p ?v ?ad []) with (F_SR_NA_1_encode p v ad []).
  unfold F_SR_NA_1_encode. cbn [sr_ioa sr_nof sr_nos sr_los sr_srq]. by rewrite mask_idle.
Qed.

Lemma SR_form nof los : encode_information_objects (mkF_SR 0 nof (mkNos 1) los Srq_READY) (Vsq_single 1) IEC104 [] =
  encode_ioa IoaThree 0 [] ++ NameOfFile_encode nof [] ++ Srq_encode Srq_READY (LengthOfSection_encode los (NameOfSection_encode (mkNos 1) [])).
Proof.
  change (encode_information_objects ?p ?v ?ad []) with (F_SR_NA_1_encode p v ad []).
  unfold F_SR_NA_1_encode. cbn [sr_ioa sr_nof sr_nos sr_los sr_srq].
  apply (names_form nof (λ b, Srq_encode Srq_READY (LengthOfSection_encode los (NameOfSection_encode (mkNos 1) b)))).
  intros buf. rewrite (fc_append _ _ _ _ Srq_codec), (fc_append _ _ _ _ Los_codec), (fc_append _ _ _ _ Nos_codec).
  rewrite (fc_append _ _ _ _ Srq_codec _ (LengthOfSection_encode los (NameOfSection_encode (mkNos 1) []))).
  rewrite (fc_append _ _ _ _ Los_codec _ (NameOfSection_encode (mkNos 1) [])). by rewrite <- !app_assoc.
Qed.

Lemma LS_form nof chs : encode_information_objects (mkF_LS 0 nof (mkNos 1) FileWithoutDeactivate chs) (Vsq_single 1) IEC104 [] =
  encode_ioa IoaThree 0 [] ++ NameOfFile_encode nof [] ++ Checksum_encode chs (Lsq_encode FileWithoutDeactivate (NameOfSection_encode (mkNos 1) [])).
Proof.
  change (encode_information_objects ?p ?v ?ad []) with (F_LS_NA_1_encode p v ad []).
  unfold F_LS_NA_1_encode. cbn [ls_ioa ls_nof ls_nos ls_lsq ls_chs].
  apply (names_form nof (λ b, Checksum_encode chs (Lsq_encode FileWithoutDeactivate (NameOfSection_encode (mkNos 1) b)))).
  intros buf. rewrite (fc_append _ _ _ _ Chs_codec), (fc_append _ _ _ _ Lsq_codec), (fc_append _ _ _ _ Nos_codec).
  rewrite (fc_append _ _ _ _ Chs_codec _ (Lsq_encode FileWithoutDeactivate (NameOfSection_encode (mkNos 1) []))).
  rewrite (fc_append _ _ _ _ Lsq_codec _ (NameOfSection_encode (mkNos 1) [])). by rewrite <- !app_assoc.
Qed.

Lemma SG_form nof d : ∃ rest, encode_information_objects (mkF_SG 0 nof (mkNos 1) d) (Vsq_single 1) IEC104 [] =
  encode_ioa IoaThree 0 [] ++ NameOfFile_encode nof [] ++ rest.
Proof.
  change (encode_information_objects ?p ?v ?ad []) with (F_SG_NA_1_encode p v ad []).
  rewrite F_SG_encode_eq. eexists. reflexivity.
Qed.

(** An action that sends adds its part to the flow of its own key. *)
Lemma wire_parts cfg key action b K : wire_key key -> sess_ioa cfg = 0 -> sendable chunk_ok (mkNof key.2) cfg action ->
  wire_of key action = Some b ->
  flow K (omap routed (sent [SvSend b])) = if decide (key = K) then parts [action] else [].
Proof.
  intros Hk Hioa Hs Hw. pose proof Hk as [_ Hnof].
  destruct action as [x|x|x|x|x|x| | | |]; try done; injection Hw as <-; cbn [sendable] in Hs; rewrite ?Hioa in Hs.
  1,3,5: rewrite (flow_aside _ _ _ (λ a H, decode_keeps_type _ _ H)); [by destruct (decide (key = K))|cbn; set_solver].
  - destruct Hs as [los ->]. rewrite SR_masked.
    apply (wire_one key (SectionReady (mkF_SR 0 (mkNof key.2) (mkNos 1) (mkLos (los_0 los mod 2 ^ 24)) Srq_READY))).
    eapply (routed_payload key); [done| |apply SR_form|intros a Ht Hd; unfold decode_ft_asdu; rewrite Ht; cbn; by rewrite Hd].
    unfold payload_ok. cbn. unfold Los_wf, is_u24. cbn [los_0]. split_and!; try done; lia.
  - destruct Hs as (chs & -> & Hc). apply (wire_one key (LastSection (mkF_LS 0 (mkNof key.2) (mkNos 1) FileWithoutDeactivate chs))).
    eapply (routed_payload key); [done| |apply LS_form|intros a Ht Hd; unfold decode_ft_asdu; rewrite Ht; cbn; by rewrite Hd].
    unfold payload_ok. cbn. by split_and!.
  - destruct Hs as (d & -> & Ho & Hl). destruct (SG_form (mkNof key.2) d) as [rest Hform].
    apply (wire_one key (Segment (mkF_SG 0 (mkNof key.2) (mkNos 1) d))).
    eapply (routed_payload key); [done| |exact Hform|intros a Ht Hd; unfold decode_ft_asdu; rewrite Ht; cbn; by rewrite Hd].
    split; [|done]. by split_and!.
Qed.
End Wire.

(** ** The sending session *)

(** Before the data, during it, or done with it. *)
Inductive phase := Before | During | After.
Definition phase_of (st : SessionState) : phase :=
  match st with
  | FtIdle | TxAwaitSelect | TxAwaitRequest => Before
  | TxSendingSegments => During
  | _ => After
  end.

Inductive tx_move (s s' : Session) (acts : list SessionAction) : Prop :=
| tx_start : phase_of (s_state s) = Before -> phase_of (s_state s') = Before -> parts acts = [] -> requests acts = [] ->
    tx_move s s' acts
| tx_open : phase_of (s_state s) = Before -> phase_of (s_state s') = During -> parts acts = [Opens] -> tx_move s s' acts
| tx_rest : phase_of (s_state s) = During -> phase_of (s_state s') = During -> parts acts = [] -> tx_move s s' acts
| tx_off : phase_of (s_state s') = After -> parts acts = [] \/ parts acts = [Opens] -> tx_move s s' acts.

Lemma tx_step i now s s' acts : s_role s = Sender -> s_actions s = [] -> chunk_of i = None ->
  step i now s = (s', acts) -> tx_move s s' acts.
Proof.
  intros Hr Ha Hi Hs. destruct (is_terminal s) eqn:Ht.
  { rewrite step_terminal in Hs by done. injection Hs as <- <-. apply tx_off; [|by left].
    unfold is_terminal in Ht. by destruct (s_state s). }
  rewrite step_dispatch in Hs by done. injection Hs as <- <-.
  destruct s as [ro nf st cf fl sl bt ch lp aw ac]. cbn in Hr, Ha, Ht. subst. unfold check_timeout.
  destruct i; try done; ft_unfold; destruct st; try done; cbn;
    repeat (case_match; cbn; try done);
    first [by apply tx_start|by apply tx_open|by apply tx_rest|by apply tx_off; [|left]|by apply tx_off; [|right]].
Qed.

Lemma tx_chunk d now s s' acts : s_role s = Sender -> s_actions s = [] -> step (SegmentReady d) now s = (s', acts) ->
  match phase_of (s_state s) with
  | Before => True
  | During => phase_of (s_state s') ≠ Before /\
      (d ≠ [] /\ parts acts = [Carries d] \/ d = [] /\ parts acts = [Closes] /\ phase_of (s_state s') = After)
  | After => phase_of (s_state s') = After /\ parts acts = []
  end.
Proof.
  intros Hr Ha Hs. destruct (is_terminal s) eqn:Ht.
  { rewrite step_terminal in Hs by done. injection Hs as <- <-. unfold is_terminal in Ht. by destruct (s_state s). }
  rewrite step_dispatch in Hs by done. injection Hs as <- <-.
  destruct s as [ro nf st cf fl sl bt ch lp aw ac]. cbn in Hr, Ha, Ht. subst. unfold check_timeout.
  destruct d; ft_unfold; destruct st; try done; cbn; repeat (case_match; cbn; try done);
    (split; [done|]); try done; first [by left|by right].
Qed.

(** ** Whole files in a flow *)

Lemma carried_snoc fl x segs : x ≠ Closes -> carried (fl ++ [x]) segs -> carried fl segs.
Proof.
  intros Hx (pre & post & H). destruct post as [|y post _] using rev_ind.
  - rewrite app_comm_cons, app_assoc in H. apply app_inj_tail in H as [_ H]. congruence.
  - rewrite !app_comm_cons, !app_assoc in H. apply app_inj_tail in H as [-> _]. exists pre, post.
    by rewrite <- !app_assoc.
Qed.

Lemma open_run pre segs pre' segs' : pre ++ Opens :: (Carries <$> segs) = pre' ++ Opens :: (Carries <$> segs') -> segs = segs'.
Proof.
  revert segs'. induction segs as [|d segs IH] using rev_ind; intros segs'; destruct segs' as [|d' segs' _] using rev_ind; [done|..];
    rewrite ?fmap_app; cbn; rewrite ?app_comm_cons, ?app_assoc; intros [H E]%app_inj_tail; try done.
  injection E as ->. by rewrite (IH segs').
Qed.

(** The last section closes the run of segments that is open, and no other. *)
Lemma carried_close pre segs segs' : carried ((pre ++ Opens :: (Carries <$> segs)) ++ [Closes]) segs' ->
  carried (pre ++ Opens :: (Carries <$> segs)) segs' \/ segs' = segs.
Proof.
  intros (pre' & post & H). destruct post as [|y post _] using rev_ind.
  - right. rewrite app_comm_cons, app_assoc in H. apply app_inj_tail in H as [H _]. symmetry. by eapply open_run.
  - left. rewrite !app_comm_cons, !app_assoc in H. apply app_inj_tail in H as [H _]. exists pre', post.
    rewrite app_comm_cons, app_assoc. done.
Qed.

(** ** What the sender's storage has *)

Section Sending.
Context `{BC : BytesCrate} {W Reader Writer : Type} `{PV : !Provider W Reader Writer}.
Context (config : FileTransferConfig) (clock : nat -> Instant).
Context (file : NameOfFile -> W -> option bytes) (content : Reader -> W -> bytes).

#[local] Abbreviation service := (@Service W Reader Writer).
#[local] Abbreviation state := (@mstate W Reader Writer).
#[local] Abbreviation steps := (micro config clock wire_key).

(** What the service makes of the answer of a reader. *)
Definition chunk_of_read (res : option bytes + FileTransferError) : bytes :=
  match res with inl (Some c) => c | _ => [] end.

Definition keeps (w w' : W) : Prop := ∀ r, content r w' = content r w.

(** A storage whose files can be read: looking for a file changes none, a
    reader that is opened has the file before it, gives it piece by piece and
    does not fail before its end, and nothing else the service does alters
    what a reader has before it. *)
Record readable : Prop := {
  rd_lookup nof w r w' : pv_lookup nof w = (r, w') -> keeps w w' /\ file nof w' = file nof w;
  rd_open nof w r w' : pv_open_read nof w = (r, w') -> keeps w w' /\ ∀ rd, r = inl rd -> file nof w = Some (content rd w');
  rd_create nof n w r w' : pv_open_write nof n w = (r, w') -> keeps w w';
  rd_read r n w res r' w' : (1 <= n)%nat -> pv_read_segment r n w = (res, r', w') -> keeps w w' /\
    content r w = chunk_of_read res ++ content r' w' /\ (chunk_of_read res = [] -> content r w = []) /\
    octets (chunk_of_read res) /\ (length (chunk_of_read res) <= n)%nat;
  rd_write wr data w ok wr' w' : pv_write_segment wr data w = (ok, wr', w') -> keeps w w';
  rd_finalize wr success w ok w' : pv_finalize wr success w = (ok, w') -> keeps w w' }.

#[local] Instance keeps_preorder : PreOrder keeps.
Proof. split; [by intros w r|]. intros a b c H1 H2 r. by rewrite H2, H1. Qed.

Section Laws.
Context (laws : readable).

Lemma touch_keeps w w' : rtc touch w w' -> keeps w w'.
Proof using laws.
  induction 1 as [|a b c Hab _ IH]; [done|]. etrans; [|exact IH].
  destruct Hab as [nof a r b Hl|nof a r b Hl|nof n a r b Hl]; [by eapply rd_lookup|by eapply rd_open|by eapply rd_create].
Qed.

Lemma opens_keeps nof w role reader writer w' : opens nof w role reader writer w' -> keeps w w' /\
  ∀ r, reader = Some r -> file nof w = Some (content r w').
Proof using laws.
  intros [wr w1 Ho|meta w1 rd w2 Hl Ho]; [split; [by eapply rd_create|done]|].
  destruct (rd_lookup laws _ _ _ _ Hl) as [H1 H2]. destruct (rd_open laws _ _ _ _ Ho) as [H3 H4]. split; [by etrans|].
  intros r [= <-]. rewrite <- H2. by apply H4.
Qed.

Lemma deliver_keeps key d (sv : service) : keeps (sv_prov sv) (sv_prov (deliver_segment key d sv)).
Proof using laws.
  unfold deliver_segment. destruct (sv_sessions sv !! key) as [a|]; [|done]. destruct (as_writer a) as [wr|]; [|done].
  destruct (pv_write_segment _ _ _) as [[ok wr'] w] eqn:Hw. by eapply rd_write.
Qed.

Lemma finalize_keeps key outcome (sv : service) : keeps (sv_prov sv) (sv_prov (finalize_session key outcome sv)).
Proof using laws.
  unfold finalize_session. destruct (sv_sessions sv !! key) as [a|]; [|done].
  destruct (as_writer a) as [wr|]; [destruct (pv_finalize _ _ _) as [ok w] eqn:Hf; apply (rd_finalize laws) in Hf|];
    by destruct (as_reply a).
Qed.

Lemma act_keeps cfg nof key action (sv sv' : service) extra : sendable chunk_ok nof cfg action ->
  act_case clock key sv action extra sv' -> keeps (sv_prov sv) (sv_prov sv').
Proof using laws.
  intros Hs Hact. destruct Hact as [action b Hb|max extra sv1 Hp|d|action outcome Ho]; [done| |apply deliver_keeps|apply finalize_keeps].
  apply sessions_pump in Hp as [[-> ->]|(a & r & r' & w & chunk & now & s & _ & _ & Hr & _ & _ & _ & ->)]; [done|].
  exact (proj1 (rd_read laws _ _ _ _ _ _ (proj1 Hs) Hr)).
Qed.

Section OneKey.
Context (K : Key).

Definition served (ws : list W) (data : bytes) : Prop := ∃ w, w ∈ ws /\ file (mkNof K.2) w = Some data.

(** The parts sent, and those in hand. *)
Definition sent_flow (l : list SvOut) : list Part := flow K (omap routed (sent l)).
Definition outgoing (m : state) : list Part := sent_flow (sv_log (m_sv m)) ++ parts (queue_of K m).

Definition tx_at (ph : phase) (before : bytes) (out : list Part) (q : list SessionAction) (ws : list W) : Prop :=
  match ph with
  | Before => served ws before /\ requests q = []
  | During => ∃ pre segs, out = pre ++ Opens :: (Carries <$> segs) /\ served ws (concat segs ++ before)
  | After => True
  end.

Definition tx_held (m : state) : Prop :=
  ∀ a r, sv_sessions (m_sv m) !! K = Some a -> as_reader a = Some r ->
    tx_at (phase_of (s_state (as_session a))) (content r (sv_prov (m_sv m))) (outgoing m) (queue_of K m) (m_ws m).

(** Every file that has gone out whole. *)
Definition tx_whole (m : state) : Prop := ∀ segs, carried (outgoing m) segs -> served (m_ws m) (concat segs).

(** The keys are those of the wire, and what is in hand can be sent. *)
Definition tx_queue (m : state) : Prop :=
  (∀ key, is_Some (sv_sessions (m_sv m) !! key) -> wire_key key) /\
  match m_q m with
  | Some (key, q) => wire_key key /\ Forall (sendable chunk_ok (mkNof key.2) (session_config config)) q
  | None => True
  end.

Record tx_inv (m : state) : Prop := {
  ti_table : table_wf config m; ti_queue : tx_queue m; ti_held : tx_held m; ti_whole : tx_whole m }.

Lemma sent_flow_app l l' : sent_flow (l ++ l') = sent_flow l ++ sent_flow l'.
Proof. unfold sent_flow, sent. by rewrite !omap_app, flow_app. Qed.

Lemma sent_flow_none l : Forall (λ o, sent_asdu o = None) l -> sent_flow l = [].
Proof.
  intros H. unfold sent_flow. assert (sent l = []) as ->; [|done]. induction H as [|o l Ho _ IH]; [done|].
  unfold sent in *. cbn. by rewrite Ho.
Qed.

Lemma bare_unsent l : Forall (λ o, bare o = true) l -> Forall (λ o, sent_asdu o = None) l.
Proof. intros H. eapply Forall_impl; [exact H|]. by intros []. Qed.

(** What an action of another session, and one that sends nothing, adds. *)
Lemma sent_flow_of key action l : wire_key key -> sendable chunk_ok (mkNof key.2) (session_config config) action ->
  Forall (of_key key action) l -> (key ≠ K \/ wire_of key action = None) -> sent_flow l = [].
Proof.
  intros Hk Hs Hl Hor. induction Hl as [|o l Ho _ IH]; [done|]. change (o :: l) with ([o] ++ l).
  rewrite sent_flow_app, IH, app_nil_r. destruct Ho as [Ho|[(b & -> & Hb)|[(d & ok & ->)|(su & ok & -> & _)]]].
  - apply sent_flow_none. by destruct o as [|[]| | |]; repeat constructor.
  - destruct Hor as [Hne|Hn]; [|congruence]. unfold sent_flow.
    rewrite (wire_parts (session_config config) key action b K) by done. by rewrite decide_False.
  - apply sent_flow_none. by repeat constructor.
  - apply sent_flow_none. by repeat constructor.
Qed.

Lemma served_mono ws ws' data : ws ⊆ ws' -> served ws data -> served ws' data.
Proof. intros H (w & Hw & Hf). exists w. auto. Qed.

Lemma tx_at_mono ph c out q ws ws' : ws ⊆ ws' -> tx_at ph c out q ws -> tx_at ph c out q ws'.
Proof.
  intros Hw. destruct ph; [|intros (pre & segs & H1 & H2)|done]; cbn; [|exists pre, segs].
  - intros [H1 H2]. split; [by eapply served_mono|done].
  - split; [done|by eapply served_mono].
Qed.

(** A step of another session, or none. *)
Lemma tx_other (m m' : state) : outgoing m' = outgoing m -> queue_of K m' = queue_of K m ->
  sv_sessions (m_sv m') !! K = sv_sessions (m_sv m) !! K -> keeps (sv_prov (m_sv m)) (sv_prov (m_sv m')) ->
  m_ws m ⊆ m_ws m' -> tx_held m /\ tx_whole m -> tx_held m' /\ tx_whole m'.
Proof.
  intros Ho Hq Hs Hk Hw [Hh Hwh]. split.
  - intros a r Ha Hr. rewrite Hs in Ha. rewrite Hk, Ho, Hq. eapply tx_at_mono; [exact Hw|]. by apply Hh.
  - intros segs Hc. rewrite Ho in Hc. eapply served_mono; [exact Hw|]. by apply Hwh.
Qed.

Lemma whole_open (m m' : state) ps : outgoing m' = outgoing m ++ ps -> ps = [] \/ ps = [Opens] -> m_ws m' = m_ws m ->
  tx_whole m -> tx_whole m'.
Proof.
  intros Ho Hp Hw H segs Hc. rewrite Hw. apply H. rewrite Ho in Hc. destruct Hp as [-> | ->]; [by rewrite app_nil_r in Hc|].
  by apply (carried_snoc _ Opens).
Qed.

(** *** The session under the key *)

Lemma kept_fixed (a : @ActiveSession Reader Writer) key : active_ok config key a ->
  s_actions (as_session a) = [] /\ ∃ role, fixed chunk_ok role (mkNof key.2) (session_config config) (as_session a) /\
    match role with Receiver => as_reader a = None | Sender => True end.
Proof.
  intros (_ & role & ins & acts & Hs & Hh). pose proof (session_held _ _ _ _ _ _ Hs) as Ha. split; [done|].
  exists role. destruct (session_fixed _ _ _ _ _ _ Hs) as [F1 F2 F3 F4 F5]. split; [split; try done; rewrite Ha; constructor|].
  destruct role; [apply Hh|done].
Qed.

(** A message or a tick: what the state becomes, what goes out. *)
Lemma tx_step_at s s' acts c out ws : tx_move s s' acts ->
  tx_at (phase_of (s_state s)) c out [] ws -> tx_at (phase_of (s_state s')) c (out ++ parts acts) acts ws.
Proof.
  intros [H1 H2 Hp Hr|H1 H2 Hp|H1 H2 Hp|H2 Hp]; rewrite ?H1, ?H2, ?Hp, ?app_nil_r; try done.
  - by intros [H _].
  - intros [H _]. exists out, []. done.
Qed.

Lemma move_parts s s' acts : tx_move s s' acts -> parts acts = [] \/ parts acts = [Opens].
Proof. intros [H1 H2 Hp Hr|H1 H2 Hp|H1 H2 Hp|H2 Hp]; auto. Qed.

Lemma outgoing_cons (sv : service) action q ins ws :
  outgoing (mkM sv (Some (K, action :: q)) ins ws) = sent_flow (sv_log sv) ++ parts [action] ++ parts q.
Proof. unfold outgoing, queue_of. cbn [m_q m_sv]. rewrite decide_True by done. by rewrite <- parts_app. Qed.

Lemma outgoing_queue (sv : service) q ins ws :
  outgoing (mkM sv (Some (K, q)) ins ws) = sent_flow (sv_log sv) ++ parts q.
Proof. unfold outgoing, queue_of. cbn [m_q m_sv]. by rewrite decide_True. Qed.

Lemma queue_own (sv : service) q ins ws : queue_of K (mkM sv (Some (K, q)) ins ws) = q.
Proof. unfold queue_of. cbn [m_q]. by rewrite decide_True. Qed.

(** What the answer of the reader becomes. *)
Lemma tx_chunk_at d now s s' acts c out ws : s_role s = Sender -> s_actions s = [] ->
  step (SegmentReady d) now s = (s', acts) -> (d = [] -> c = []) -> phase_of (s_state s) ≠ Before ->
  tx_at (phase_of (s_state s)) (d ++ c) out [] ws -> (∀ segs, carried out segs -> served ws (concat segs)) ->
  (∀ q, tx_at (phase_of (s_state s')) c (out ++ parts acts) q ws) /\
  (∀ segs, carried (out ++ parts acts) segs -> served ws (concat segs)).
Proof.
  intros Hr Ha Hs Hd Hb Ht Hw. pose proof (tx_chunk _ _ _ _ _ Hr Ha Hs) as Hc.
  destruct (phase_of (s_state s)); [done| |].
  - destruct Ht as (pre & segs & -> & Hserved). destruct Hc as [Hnb [[Hne ->]|(-> & -> & ->)]].
    + split; [|intros segs'; by intros ?%carried_snoc%Hw].
      assert (served ws (concat (segs ++ [d]) ++ c)) as Hx.
      { rewrite concat_app. cbn. by rewrite app_nil_r, <- app_assoc. }
      intros q. destruct (phase_of (s_state s')); [done| |done]. exists pre, (segs ++ [d]). split; [|done].
      by rewrite fmap_app, app_comm_cons, app_assoc.
    + split; [done|]. intros segs' [H | ->]%carried_close; [by apply Hw|].
      rewrite (Hd eq_refl), !app_nil_r in Hserved. done.
  - destruct Hc as [-> ->]. rewrite app_nil_r. done.
Qed.

Lemma tx_at_queue ph c out q q' ws : (requests q = [] -> requests q' = []) -> tx_at ph c out q ws -> tx_at ph c out q' ws.
Proof. intros Hq. destruct ph; [|done..]. intros [H1 H2]. split; [done|by apply Hq]. Qed.

Lemma requests_tail a q : requests (a :: q) = [] -> requests (q ++ []) = [].
Proof. rewrite app_nil_r. unfold requests. cbn. by destruct (request_of a). Qed.

(** An action that leaves the session and its reader as they are. *)
Lemma tx_act_same action q (sv sv' : service) ins ws :
  sent_flow (sv_log sv') = sent_flow (sv_log sv) ++ parts [action] ->
  (∀ a r, sv_sessions sv' !! K = Some a -> as_reader a = Some r ->
    ∃ a0, sv_sessions sv !! K = Some a0 /\ as_reader a0 = Some r /\ as_session a0 = as_session a) ->
  keeps (sv_prov sv) (sv_prov sv') ->
  let m := mkM sv (Some (K, action :: q)) ins ws in let m' := mkM sv' (Some (K, q ++ [])) ins ws in
  tx_held m /\ tx_whole m -> tx_held m' /\ tx_whole m'.
Proof.
  intros Hf Hs Hk m m' [Hh Hw]. assert (outgoing m' = outgoing m) as Ho.
  { unfold m, m'. rewrite outgoing_cons, outgoing_queue, Hf, app_nil_r. by rewrite <- app_assoc. }
  split; [|intros segs Hc; apply Hw; by rewrite <- Ho].
  intros a r Ha Hr. destruct (Hs a r Ha Hr) as (a0 & Ha0 & Hr0 & Es). rewrite Hk, Ho, <- Es.
  eapply (tx_at_queue _ _ _ (action :: q)); [unfold m'; rewrite queue_own; apply requests_tail|].
  rewrite <- (queue_own sv (action :: q) ins ws). by apply Hh.
Qed.

Lemma tx_pumped max extra q (sv sv' : service) ins ws : (1 <= max <= MAX_SEGMENT_BYTES)%nat ->
  table_wf config (mkM sv (Some (K, RequestNextSegment max :: q)) ins ws) -> pump_reader clock K max sv = (extra, sv') ->
  let m := mkM sv (Some (K, RequestNextSegment max :: q)) ins ws in let m' := mkM sv' (Some (K, q ++ extra)) ins ws in
  tx_held m /\ tx_whole m -> tx_held m' /\ tx_whole m'.
Proof using laws.
  intros Hmax Hwf Hp m m' [Hh Hw].
  apply sessions_pump in Hp as [[-> ->]|(a & r & r' & w & chunk & now & s & Ha & Hrd & Hrs & Hs & Hm & Hl & Hpr)].
  { eapply (tx_act_same (RequestNextSegment max)); [by rewrite app_nil_r|by eauto|done|done]. }
  destruct (kept_fixed a K (proj1 (Hwf _ _ Ha))) as (Hac & role & Hfix & Hrole).
  assert (s_role (as_session a) = Sender) as Hr.
  { destruct role; [congruence|]. apply Hfix. }
  destruct (rd_read laws _ _ _ _ _ _ (proj1 Hmax) Hrs) as (Hk & Hc & Hend & _).
  specialize (Hh a r Ha Hrd). cbn [m_sv m m_ws] in Hh. rewrite Hc in Hh.
  assert (outgoing m' = outgoing m ++ parts extra) as Ho.
  { unfold m, m'. rewrite outgoing_cons, outgoing_queue, Hl, parts_app. by rewrite <- app_assoc. }
  assert (phase_of (s_state (as_session a)) ≠ Before) as Hb.
  { intros E. rewrite E in Hh. destruct Hh as [_ Hh]. unfold m in Hh. by rewrite queue_own in Hh. }
  destruct (tx_chunk_at _ _ _ _ _ (content r' w) (outgoing m) ws Hr Hac Hs) as [H1 H2]; [|done| |exact Hw|].
  - intros Hn. rewrite Hend in Hc by done. by destruct (content r' w), (chunk_of_read chunk).
  - eapply tx_at_queue; [|exact Hh]. done.
  - split; [|intros segs Hcar; rewrite Ho in Hcar; by apply H2].
    intros a' rr Ha' Hrr. cbn [m_sv m'] in Ha'. rewrite Hm, lookup_insert_eq in Ha'. injection Ha' as <-.
    cbn in Hrr. injection Hrr as <-. cbn [m_sv m' m_ws as_session set_session set_reader]. rewrite Hpr, Ho. apply H1.
Qed.

Lemma tx_act_own action extra q (sv sv' : service) ins ws : wire_key K ->
  sendable chunk_ok (mkNof K.2) (session_config config) action ->
  table_wf config (mkM sv (Some (K, action :: q)) ins ws) -> act_case clock K sv action extra sv' ->
  let m := mkM sv (Some (K, action :: q)) ins ws in let m' := mkM sv' (Some (K, q ++ extra)) ins ws in
  tx_held m /\ tx_whole m -> tx_held m' /\ tx_whole m'.
Proof using laws.
  intros Hk Hs Hwf Hact. pose proof (act_keeps _ _ _ _ _ _ _ Hs Hact) as Hkeeps.
  destruct (act_effect _ _ _ _ _ _ Hact) as (_ & l & Hl & Hof).
  assert (wire_of K action = None -> parts [action] = [] -> sent_flow (sv_log sv') = sent_flow (sv_log sv) ++ parts [action]) as Hquiet.
  { intros Hn ->. rewrite Hl, sent_flow_app. f_equal. eapply sent_flow_of; try done. by right. }
  destruct Hact as [action b Hb|max extra sv1 Hp|d|action outcome Ho].
  - eapply tx_act_same; [|by eauto|done]. cbn [sv_log log]. rewrite sent_flow_app. f_equal. unfold sent_flow.
    rewrite (wire_parts (session_config config) K action b K) by done. by rewrite decide_True.
  - by apply tx_pumped.
  - eapply tx_act_same; [by apply Hquiet| |done]. intros a r Ha Hr.
    destruct (sessions_deliver K d sv) as [[E _]|(a0 & w & Ha0 & _ & E)]; rewrite E in Ha; [by eauto|].
    rewrite lookup_insert_eq in Ha. injection Ha as <-. by exists a0.
  - eapply tx_act_same; [by apply Hquiet; destruct action| |done]. intros a r Ha Hr.
    by rewrite sessions_finalize, lookup_delete_eq in Ha.
Qed.

(** *** The steps *)

Lemma starts_aside role key s q : begins config role key s q ->
  phase_of (s_state s) = (match role with Sender => Before | Receiver => phase_of (s_state s) end) /\
  (∀ k acts, q = Some (k, acts) -> k = key /\ parts acts = [] /\ requests acts = [] /\
     Forall (sendable chunk_ok (mkNof key.2) (session_config config)) acts).
Proof.
  intros [|len now s1 acts Hs|len now s1 acts Hs]; [by destruct role|..]; destruct role; injection Hs as <- <-; (split; [done|]);
    intros k acts' [= <- <-]; split_and!; by repeat constructor.
Qed.

Lemma tx_open_step key role s reader writer reply now q (sv sv' : service) ins ws : sv_prov sv ∈ ws ->
  opens (mkNof key.2) (sv_prov sv) role reader writer (sv_prov sv') -> begins config role key s q ->
  sv_log sv' = sv_log sv ++ [SvEvent (FteStarted key.1 (mkNof key.2) role)] ->
  sv_sessions sv' = <[key := mkActive s key.1 reader writer reply now]> (sv_sessions sv) ->
  let m := mkM sv None ins ws in let m' := mkM sv' q ins ws in
  tx_held m /\ tx_whole m -> tx_held m' /\ tx_whole m'.
Proof using laws.
  intros Hw Ho Hb Hl Hs m m' [Hh Hwh]. destruct (opens_keeps _ _ _ _ _ _ Ho) as [Hk Hfile].
  destruct (starts_aside _ _ _ _ Hb) as [Hph Hq].
  assert (parts (queue_of K m') = [] /\ (requests (queue_of K m') = []) /\ (key ≠ K -> queue_of K m' = [])) as (Hp & Hrq & Hoth).
  { unfold m', queue_of. cbn [m_q]. destruct q as [[k acts]|]; [|done]. destruct (Hq k acts eq_refl) as (-> & H1 & H2 & _).
    destruct (decide (key = K)); done. }
  assert (outgoing m' = outgoing m) as Hout.
  { unfold outgoing. rewrite Hp. unfold m, m'. cbn [m_sv queue_of m_q]. rewrite Hl, sent_flow_app. rewrite (sent_flow_none [_]) by (by repeat constructor).
    by rewrite !app_nil_r. }
  destruct (decide (key = K)) as [->|Hne]; [|apply (tx_other m m'); [done|by apply Hoth| |done|done|done]; cbn; rewrite Hs; by apply lookup_insert_ne].
  split; [|intros segs Hc; apply Hwh; by rewrite <- Hout].
  intros a r Ha Hr. cbn [m_sv m'] in *. rewrite Hs, lookup_insert_eq in Ha. injection Ha as <-. cbn in Hr. subst reader.
  inversion Ho; subst. cbn [as_session]. rewrite Hph. split; [|done]. exists (sv_prov sv). split; [done|]. by apply Hfile.
Qed.

Lemma tx_step_step key i now a a' acts l (sv sv' : service) ins ws : table_ok config sv -> sv_sessions sv !! key = Some a ->
  step i now (as_session a) = (as_session a', acts) -> kin a a' -> sv_sessions sv' = <[key := a']> (sv_sessions sv) ->
  sv_log sv' = sv_log sv -> sv_prov sv' = sv_prov sv -> l = [] /\ i = FtTick \/ l = [(key, i)] /\ is_message i = true ->
  let m := mkM sv None ins ws in let m' := mkM sv' (Some (key, acts)) (ins ++ l) ws in
  tx_held m /\ tx_whole m ->
  (tx_held m' /\ tx_whole m') /\ Forall (sendable chunk_ok (mkNof key.2) (session_config config)) acts.
Proof.
  intros Ht Ha Hstep (_ & Hkr & _ & _) Hs Hl Hp Hi m m' Hm. destruct (Ht _ _ Ha) as [Hok Hopen].
  destruct (kept_fixed a key Hok) as (Hac & role & Hfix & Hrole).
  assert (chunk_of i = None) as Hci by (destruct Hi as [[_ ->]|[_ Hi]]; [done|by destruct i]).
  destruct (step_fixed chunk_ok role _ _ i now _ _ _ ltac:(intros d ->; done) Hfix Hstep) as [_ Hsend].
  split; [|by apply Hsend]. destruct (decide (key = K)) as [->|Hne].
  2: { apply (tx_other m m'); [| | | |done|exact Hm]; cbn [m_sv m m'].
       - unfold outgoing, m, m'. cbn [m_sv]. rewrite Hl. by rewrite (queue_other K key) by done.
       - unfold m'. by rewrite (queue_other K key).
       - rewrite Hs. by apply lookup_insert_ne.
       - by rewrite Hp. }
  assert (outgoing m' = outgoing m ++ parts acts) as Hout.
  { unfold m'. rewrite outgoing_queue, Hl. unfold outgoing, m. cbn. by rewrite app_nil_r. }
  assert (parts acts = [] \/ parts acts = [Opens]) as Hparts.
  { destruct role; [|eapply move_parts, tx_step; [apply Hfix|done..|exact Hstep]]. left.
    eapply rx_step; [apply Hfix|done|done| |exact Hstep]. eapply active_receiver; [exact Hok|apply Hfix]. }
  destruct Hm as [Hh Hwh]. split; [|by eapply whole_open].
  intros a1 r Ha1 Hr. cbn [m_sv m'] in Ha1. rewrite Hs, lookup_insert_eq in Ha1. injection Ha1 as <-. rewrite Hkr in Hr.
  destruct role; [congruence|]. pose proof (tx_step _ _ _ _ _ (fx_role _ _ _ _ _ Hfix) Hac Hci Hstep) as Hmv.
  rewrite Hout. unfold m'. rewrite queue_own. cbn [m_sv m_ws]. rewrite Hp. eapply tx_step_at; [exact Hmv|]. by apply (Hh a r).
Qed.

Lemma tx_act_step key action extra q (sv sv' : service) ins ws : wire_key key ->
  sendable chunk_ok (mkNof key.2) (session_config config) action ->
  table_wf config (mkM sv (Some (key, action :: q)) ins ws) -> act_case clock key sv action extra sv' ->
  let m := mkM sv (Some (key, action :: q)) ins ws in let m' := mkM sv' (Some (key, q ++ extra)) ins ws in
  tx_held m /\ tx_whole m -> tx_held m' /\ tx_whole m'.
Proof using laws.
  intros Hk Hs Hwf Hact m m'. destruct (decide (key = K)) as [->|Hne]; [by apply tx_act_own|].
  destruct (act_effect _ _ _ _ _ _ Hact) as (Hses & l & Hl & Hof). apply (tx_other m m'); cbn [m_sv m_ws m m'].
  - unfold outgoing, m, m'. cbn [m_sv]. rewrite !(queue_other K key) by done. rewrite Hl, sent_flow_app.
    rewrite (sent_flow_of key action l) by auto. by rewrite app_nil_r.
  - unfold m, m'. by rewrite !(queue_other K key).
  - apply Hses. congruence.
  - by eapply act_keeps.
  - done.
Qed.

(** The actions of a session in hand, after one more of them. *)
Lemma act_sendable key action extra q (sv sv' : service) ins ws :
  table_wf config (mkM sv (Some (key, action :: q)) ins ws) -> act_case clock key sv action extra sv' ->
  Forall (sendable chunk_ok (mkNof key.2) (session_config config)) (action :: q) ->
  Forall (sendable chunk_ok (mkNof key.2) (session_config config)) (q ++ extra) /\
  ∀ k, is_Some (sv_sessions sv' !! k) -> is_Some (sv_sessions sv !! k).
Proof using laws.
  intros Hwf Hact [Hs Hq]%Forall_cons. destruct Hact as [action b Hb|max extra sv1 Hp|d|action outcome Ho]; rewrite ?app_nil_r.
  - by split.
  - apply sessions_pump in Hp as [[-> ->]|(a & r & r' & w & chunk & now & s & Ha & Hrd & Hrs & Hst & Hm & _ & _)];
      [by rewrite app_nil_r|].
    destruct (kept_fixed a key (proj1 (Hwf _ _ Ha))) as (Hac & role & Hfix & _).
    destruct (rd_read laws _ _ _ _ _ _ (proj1 Hs) Hrs) as (_ & _ & _ & Ho & Hl).
    assert (chunk_ok (chunk_of_read chunk)) as Hc by (split; [done|]; destruct Hs; lia).
    destruct (step_fixed chunk_ok role _ _ (SegmentReady (chunk_of_read chunk)) now _ _ _ ltac:(by intros d [= <-]) Hfix Hst) as [_ Hx].
    split; [apply Forall_app; split; [done|by apply Hx]|]. intros k. rewrite Hm. intros [y Hy].
    apply lookup_insert_Some in Hy as [[<- _]|[_ Hy]]; by eexists.
  - split; [done|]. intros k. destruct (sessions_deliver key d sv) as [[-> _]|(a & w & Ha & _ & ->)]; [done|].
    intros [y Hy]. apply lookup_insert_Some in Hy as [[<- _]|[_ Hy]]; by eexists.
  - split; [done|]. intros k. rewrite sessions_finalize. intros [y [_ Hy]%lookup_delete_Some]. by eexists.
Qed.

Lemma insert_keys (m m' : gmap Key (@ActiveSession Reader Writer)) key a : m' = <[key := a]> m -> wire_key key ->
  (∀ k, is_Some (m !! k) -> wire_key k) -> ∀ k, is_Some (m' !! k) -> wire_key k.
Proof. intros -> Hk H k [y [[<- _]|[_ Hy]]%lookup_insert_Some]; [done|]. apply H. by eexists. Qed.

Lemma tx_inv_step m m' : steps m m' -> tx_inv m -> tx_inv m'.
Proof using laws.
  intros Hm [Ht [Hks Hq] Hh Hw]. pose proof (table_wf_step _ _ _ _ _ Hm Ht) as Ht'. pose proof (conj Hh Hw) as Hhw.
  enough (tx_queue m' /\ tx_held m' /\ tx_whole m') as (H1 & H2 & H3) by (by split).
  destruct Hm as [sv ins ws|sv sv' l ins ws Hs Hto Hl Hr|key role s reader writer reply now q sv sv' ins ws Hk Hn Hin Ho Hb Hl Hs
    |key i sv ins ws Hn|key i now a a' acts l sv sv' ins ws Ha Hstep Hk Hs Hl Hp Hi|key action q extra sv sv' ins ws Hact|key sv ins ws];
    unfold tx_queue; cbn [m_q m_sv] in *.
  - split; [done|]. apply (tx_other (mkM sv None ins ws)); try done. cbn. set_solver.
  - split; [split; [by rewrite Hs|done]|].
    apply (tx_other (mkM sv None ins ws)); cbn; try done; [|by rewrite Hs|by apply touch_keeps].
    unfold outgoing. cbn. rewrite Hl, sent_flow_app, (sent_flow_none l); [by rewrite !app_nil_r|].
    eapply Forall_impl; [exact Hr|by intros []].
  - split; [|by eapply tx_open_step]. split; [by eapply insert_keys|]. destruct (starts_aside _ _ _ _ Hb) as [_ Hst].
    destruct q as [[k acts]|]; [|done]. by destruct (Hst k acts eq_refl) as (-> & _ & _ & ?).
  - split; [done|]. by apply (tx_other (mkM sv None ins ws)).
  - assert (wire_key key) as Hkey by (apply Hks; by eexists).
    destruct (tx_step_step key i now a a' acts l sv sv' ins ws Ht Ha Hstep Hk Hs Hl Hp Hi Hhw) as [H1 H2].
    split; [|done]. split; [by eapply insert_keys|done].
  - destruct Hq as [Hkey Hq]. pose proof (apply_action_case _ _ _ _ _ _ Hact) as Hc.
    destruct (act_sendable _ _ _ _ _ _ ins ws Ht Hc Hq) as [H1 H2].
    split; [split; [by intros k ?%H2%Hks|done]|]. eapply tx_act_step; [done|by inversion Hq|done..].
  - split; [done|]. apply (tx_other (mkM sv (Some (key, [])) ins ws)); try done; unfold outgoing, queue_of; cbn; by destruct (decide (key = K)).
Qed.

Lemma tx_inv_reachable m w : rtc steps (mkM (Service_new w) None [] []) m -> tx_inv m.
Proof using laws.
  assert (tx_inv (mkM (Service_new w) None [] [])) as H.
  { split; [by apply map_Forall_empty|split; [by intros k [x Hx]|done]|by intros a r Ha|].
    intros segs (pre & post & Hc). by destruct pre. }
  intros Hr. revert H. induction Hr as [|m1 m2 m3 Hs _ IH]; [done|]. intros H. by eapply IH, tx_inv_step.
Qed.

End OneKey.

(** Every file that has gone out whole is one the storage had when a turn
    began. *)
Lemma sent_whole fuel inputs w (sv : service) K segs : Forall wire_key (omap input_key inputs) ->
  sv_run config clock fuel inputs (Service_new w) = Some sv -> carried (flow K (omap routed (sent (sv_log sv)))) segs ->
  ∃ w', stored_at config clock fuel inputs w w' /\ file (mkNof K.2) w' = Some (concat segs).
Proof using laws.
  intros Hk Hrun Hc. destruct (micro_run config clock wire_key fuel inputs w sv Hk Hrun) as (ws & Hm & Hws).
  pose proof (ti_whole _ _ (tx_inv_reachable K _ _ Hm)) as H. destruct (H segs) as (w' & Hw & Hf).
  { unfold outgoing, sent_flow. cbn. by rewrite app_nil_r. }
  exists w'. split; [|done]. rewrite Forall_forall in Hws. by apply Hws.
Qed.

End Laws.
End Sending.

(** ** The two ends *)

Section Ends.
Context `{BC : BytesCrate}.
Context {WA RA WrA : Type} {PA : Provider WA RA WrA} {WB RB WrB : Type} {PB : Provider WB RB WrB}.
Context (cfgA cfgB : FileTransferConfig) (clockA clockB : nat -> Instant).
Context (file : NameOfFile -> WB -> option bytes) (content : RB -> WB -> bytes).

(** C8. Files arrive intact. Two services run, whatever their users ask for,
    whatever their clocks and configurations, and however many transfers in
    either direction are under way; the storage of the one is arbitrary and
    may fail, that of the other has readable files. If the ASDUs that have
    arrived at the first are, in order, ASDUs that the second has sent, then
    whenever the first finalizes an upload as a success, the octets it has
    handed to the writer since the session was started are exactly a file of
    that name that the second's storage held when one of its turns began. *)
Theorem files_arrive_intact fuelA insA (wA : WA) svA fuelB insB (wB : WB) svB K l1 ok l2 :
  sv_run (PV := PA) cfgA clockA fuelA insA (Service_new wA) = Some svA ->
  sv_run (PV := PB) cfgB clockB fuelB insB (Service_new wB) = Some svB ->
  readable file content -> Forall wire_key (omap input_key insB) ->
  arrivals insA `prefix_of` sent (sv_log svB) ->
  sv_log svA = l1 ++ SvFinalize K true ok :: l2 ->
  ∃ pre sv, pre `prefix_of` insB /\ sv_run (PV := PB) cfgB clockB fuelB pre (Service_new wB) = Some sv /\
    file (mkNof K.2) (sv_prov sv) = Some (concat (written K l1)).
Proof.
  intros HA HB Hlaws Hkeys [rest Hpre] Hfin.
  pose proof (uploads_arrived cfgA clockA (λ _, True) fuelA insA wA svA K l1 ok l2 ltac:(by apply Forall_true) HA Hfin) as Hc.
  apply (carried_app _ (flow K (omap routed rest))) in Hc. rewrite <- flow_app, <- omap_app, <- Hpre in Hc.
  destruct (sent_whole cfgB clockB file content Hlaws fuelB insB wB svB K _ Hkeys HB Hc) as (w' & (pre & sv & H1 & H2 & <-) & Hf).
  by exists pre, sv.
Qed.

End Ends.

(** ** A fetch *)

Module Fetched.

(** Files in memory, octet by octet; what is written is kept as a list. *)
Section Disk.
Context (files : list (Z * list Byte.byte)).

Definition disk_file (nof : NameOfFile) : option (list Byte.byte) := snd <$> find (λ f, f.1 =? nof_0 nof) files.
Definition as_octets (d : list Byte.byte) : bytes := (λ b, Z.of_N (Byte.to_N b)) <$> d.

#[local] Instance disk : Provider (list bytes) (list Byte.byte) unit := {
  pv_lookup nof w := (inl ((λ d, Sample.sample_meta (as_octets d)) <$> disk_file nof), w);
  pv_open_read nof w := (match disk_file nof with Some d => inl d | None => inr (NotFound nof) end, w);
  pv_open_write nof _ w := (inl tt, w);
  pv_read_segment r n w := (inl (match r with [] => None | _ => Some (as_octets (take n r)) end), drop n r, w);
  pv_write_segment _ data w := (true, tt, w ++ [data]);
  pv_finalize _ _ w := (true, w) }.

Lemma as_octets_ok d : octets (as_octets d).
Proof.
  unfold as_octets, octets. apply Forall_fmap, Forall_true. intros b. pose proof (Byte.to_N_bounded b). cbn. unfold is_u8. lia.
Qed.

Lemma disk_readable : readable (λ nof _, as_octets <$> disk_file nof) (λ r _, as_octets r).
Proof.
  split; try (by intros; simplify_eq).
  - intros nof w r w' [= <- <-]. split; [done|]. intros rd E. destruct (disk_file nof); by simplify_eq.
  - intros r n w res r' w' Hn [= <- <- <-]. split; [done|]. destruct r as [|b r].
    { rewrite drop_nil. split_and!; try done; [constructor|cbn; lia]. }
    unfold chunk_of_read. split_and!.
    + unfold as_octets. by rewrite <- fmap_app, take_drop.
    + by destruct n; [lia|].
    + apply as_octets_ok.
    + unfold as_octets. rewrite length_fmap, length_take. lia.
Qed.

End Disk.
#[local] Existing Instance disk.

Definition seven : list (Z * list Byte.byte) := [(7, [Byte.x0a; Byte.x14; Byte.xff])].
Definition asks : list SvInput :=
  [Sample.from_peer (mkF_SC 0 (mkNof 7) WHOLE_FILE (Scq_new SelectFile 0));
   Sample.from_peer (mkF_SC 0 (mkNof 7) WHOLE_FILE (Scq_new RequestFile 0))].
Definition station (files : list (Z * list Byte.byte)) (inputs : list SvInput) :=
  sv_run (BC := slice_bytes) (PV := disk files) Sample.sample_config (λ n, Z.of_nat n) 20 inputs (Service_new []).

(** What the station with the file sends, and the other station, which asks
    for the file and is given all of it. *)
Definition answers : list (CommonAddress * Asdu) :=
  match station seven asks with Some sv => sent (BC := slice_bytes) (sv_log sv) | None => [] end.
Definition fetches : list SvInput :=
  SvIntent (IntentFetch 5 (mkNof 7) 1) :: ((λ p, SvIncoming p.1 p.2) <$> answers).

Lemma files_arrive_intact_witness : ∃ svA svB l1 l2,
  station [] fetches = Some svA /\ station seven asks = Some svB /\
  sv_log svA = l1 ++ SvFinalize (5, 7) true true :: l2 /\ written (5, 7) l1 = [[10; 20]; [255]] /\
  ∃ pre sv, pre `prefix_of` asks /\ station seven pre = Some sv /\
    (λ _ : list bytes, as_octets <$> disk_file seven (mkNof 7)) (sv_prov sv) = Some (concat (written (5, 7) l1)).
Proof.
  destruct (station [] fetches) as [svA|] eqn:HA; [|by vm_compute in HA].
  destruct (station seven asks) as [svB|] eqn:HB; [|by vm_compute in HB].
  exists svA, svB, (take 8 (sv_log svA)), (drop 9 (sv_log svA)).
  assert (sv_log svA = take 8 (sv_log svA) ++ SvFinalize (5, 7) true true :: drop 9 (sv_log svA)) as Hl.
  { clear HB. vm_compute in HA. injection HA as <-. vm_compute. reflexivity. }
  split_and!; [done|done|exact Hl| |].
  - clear HB Hl. vm_compute in HA. injection HA as <-. vm_compute. reflexivity.
  - refine (files_arrive_intact (BC := slice_bytes) (PA := disk []) (PB := disk seven) Sample.sample_config Sample.sample_config
      (λ n, Z.of_nat n) (λ n, Z.of_nat n) (λ nof _, as_octets <$> disk_file seven nof) (λ r _, as_octets r)
      20 fetches [] svA 20 asks [] svB (5, 7) _ true _ HA HB (disk_readable seven) _ _ Hl).
    + vm_compute. repeat constructor; discriminate.
    + exists []. clear Hl HA. vm_compute in HB. injection HB as <-. vm_compute. reflexivity.
Defined.

End Fetched.
