(* ===== verification/FtStation.v ===== *)
(** * A station with a file provider

    What [Client104::connect_with_file_provider] and
    [Server104::with_file_provider] leave running: the driver task
    (Driver104.v), the file-transfer service (FtService.v) and the user's
    handles, joined by four bounded channels. The driver hands the ASDUs of
    file transfer to the service, the service's own ASDUs queue with the
    user's commands. Both tasks prefer one branch of their [select!] over the
    others, as [biased] says. A turn of a task is one step; what it sends goes
    into its channel one item at a time, and the task takes no further turn
    before the last one is in. *)

From S2P Require Import Prelude Bytes Codec AsduHeader Asdu AsduFile Frame104 Conn104 Policy Driver104.
From S2P Require Import FileSession FtService Channels Handles.

#[local] Open Scope Z_scope.

(** ** The handle *)

Section Handle.
Context `{MP : Mpsc}.

(** service.rs 60-71, FileTransferHandle. Without the events. *)
Record FileTransferHandle := mkFtHandle { intent_tx : chan Intent }.

Definition send_intent (i : Intent) (reply : nat) (h : FileTransferHandle)
  : option ((nat + FileTransferError) * FileTransferHandle) :=
  match mpsc_send i (intent_tx h) with
  | None => None
  | Some (true, c) => Some (inl reply, mkFtHandle c)
  | Some (false, c) => Some (inr (FtOther "file-transfer service stopped"), mkFtHandle c)
  end.

(** service.rs 76-89, FileTransferHandle::fetch (the request). The reply
    channel that is then awaited, or the error; [None] while the channel of
    the service is full. *)
Definition handle_fetch (ca : CommonAddress) (nof : NameOfFile) (reply : nat) : FileTransferHandle ->
    option ((nat + FileTransferError) * FileTransferHandle) :=
  send_intent (IntentFetch ca nof reply) reply.

(** service.rs 98-107, FileTransferHandle::push (the request). *)
Definition handle_push (ca : CommonAddress) (nof : NameOfFile) (reply : nat) : FileTransferHandle ->
    option ((nat + FileTransferError) * FileTransferHandle) :=
  send_intent (IntentPush ca nof reply) reply.

(** service.rs 90-93, FileTransferHandle::fetch (the reply). What the service
    has sent on the reply channel; [dropped] once it is gone. *)
Definition await_reply (reply : nat) (log : list SvOut) (dropped : bool) : option (Z + FileTransferError) :=
  match head (omap (fun o => match o with SvReply id r => if (id =? reply)%nat then Some r else None | _ => None end) log) with
  | Some r => Some r
  | None => if dropped then Some (inr (FtOther "file-transfer service dropped reply")) else None
  end.

End Handle.

(** ** The station *)

(** The events and ASDUs a driver has to hand over, and what a service has to
    send, in order. *)
Definition handed (os : list Output) : list (DriverEvent + CommonAddress * Asdu) :=
  omap (fun o => match o with
                 | OutEvent e => Some (inl e)
                 | OutFt ca a => Some (inr (ca, a))
                 | OutBytes _ => None end) os.
Definition sends (l : list SvOut) : list Command :=
  omap (fun o => match o with SvSend b => Some (CmdSendAsdu b) | _ => None end) l.

Section Station.
Context `{BC : BytesCrate} `{MP : Mpsc} {W Reader Writer : Type} `{PV : !Provider W Reader Writer}.
Context (clock sv_clock : nat -> Instant) (write_ok : nat -> bool) (policy : AsduPolicy).
Context (ft_config : FileTransferConfig) (fuel : nat).

Definition open_always (n : nat) : bool := true.
#[local] Abbreviation drv_turn := (turn clock write_ok open_always open_always policy true).
#[local] Abbreviation svc_turn := (sv_turn ft_config sv_clock fuel).
#[local] Abbreviation svc := (@Service W Reader Writer).

(** The tasks and their channels. [fs_pushed] counts what the driver has
    handed over, [fs_sent] what the service has sent; [fs_asked] are the
    requests the handle has accepted, [fs_puts] the commands that went into
    the channel, with those of the service marked, [fs_taken] those the driver
    has taken, [fs_ran] the turns of the service. *)
Record FtStation := mkFtStation {
  fs_drv : Driver; fs_exit : option Exit; fs_pushed : nat;
  fs_svc : svc; fs_sent : nat;
  fs_cmd : chan Command; fs_evt : chan DriverEvent; fs_asdu : chan (CommonAddress * Asdu);
  fs_handle : FileTransferHandle;
  fs_asked : list Intent; fs_puts : list (bool * Command); fs_taken : list Command; fs_ran : list SvInput }.

Inductive FtMove :=
| FmCommand | FmTick | FmRead (res : option bytes) | FmPush
| FmIntent | FmIncoming | FmSvTick (keys : list Key) | FmPut
| FmFetch (ca : CommonAddress) (nof : NameOfFile) | FmUpload (ca : CommonAddress) (nof : NameOfFile)
| FmSend (asdu : bytes) | FmRecv.

(** The task runs and all of its last turn is handed over. *)
Definition drv_idle (s : FtStation) : bool :=
  match fs_exit s with
  | None => (fs_pushed s =? length (handed (out (fs_drv s))))%nat
  | Some _ => false
  end.
Definition svc_idle (s : FtStation) : bool := (fs_sent s =? length (sends (sv_log (fs_svc s))))%nat.

(** A turn of the driver; the receiver of the commands goes with the task. *)
Definition drv_take (i : DrvInput) (cmd : chan Command) (taken : list Command) (s : FtStation) : option FtStation :=
  if drv_idle s then
    match drv_turn i (fs_drv s) with
    | Some (x, d) =>
        Some (mkFtStation d x (fs_pushed s) (fs_svc s) (fs_sent s)
          (match x with None => cmd | Some _ => mpsc_drop_rx cmd end) (fs_evt s) (fs_asdu s) (fs_handle s)
          (fs_asked s) (fs_puts s) (fs_taken s ++ taken) (fs_ran s))
    | None => None
    end
  else None.

(** A turn of the service. *)
Definition svc_take (i : SvInput) (asdu : chan (CommonAddress * Asdu)) (h : FileTransferHandle) (s : FtStation)
  : option FtStation :=
  if svc_idle s then
    match svc_turn i (fs_svc s) with
    | Some sv =>
        Some (mkFtStation (fs_drv s) (fs_exit s) (fs_pushed s) sv (fs_sent s)
          (fs_cmd s) (fs_evt s) asdu h (fs_asked s) (fs_puts s) (fs_taken s) (fs_ran s ++ [i]))
    | None => None
    end
  else None.

(** Whether a [recv] would return an item now. *)
Definition ready_now {A} (c : chan A) : bool := match mpsc_recv c with Some (Some _, _) => true | _ => false end.

(** The user asks for a transfer; requests are numbered in order. *)
Definition ask (request : nat -> FileTransferHandle -> option ((nat + FileTransferError) * FileTransferHandle))
    (intent : nat -> Intent) (s : FtStation) : option FtStation :=
  let id := length (fs_asked s) in
  match request id (fs_handle s) with
  | None => None
  | Some (r, h) =>
      Some (mkFtStation (fs_drv s) (fs_exit s) (fs_pushed s) (fs_svc s) (fs_sent s)
        (fs_cmd s) (fs_evt s) (fs_asdu s) h
        (match r with inl _ => fs_asked s ++ [intent id] | inr _ => fs_asked s end)
        (fs_puts s) (fs_taken s) (fs_ran s))
  end.

Definition with_evt (evt : chan DriverEvent) (pushed : nat) (s : FtStation) : FtStation :=
  mkFtStation (fs_drv s) (fs_exit s) pushed (fs_svc s) (fs_sent s) (fs_cmd s) evt (fs_asdu s) (fs_handle s)
    (fs_asked s) (fs_puts s) (fs_taken s) (fs_ran s).
Definition with_asdu (asdu : chan (CommonAddress * Asdu)) (pushed : nat) (s : FtStation) : FtStation :=
  mkFtStation (fs_drv s) (fs_exit s) pushed (fs_svc s) (fs_sent s) (fs_cmd s) (fs_evt s) asdu (fs_handle s)
    (fs_asked s) (fs_puts s) (fs_taken s) (fs_ran s).
Definition with_cmd (cmd : chan Command) (sent : nat) (put : list (bool * Command)) (s : FtStation) : FtStation :=
  mkFtStation (fs_drv s) (fs_exit s) (fs_pushed s) (fs_svc s) sent cmd (fs_evt s) (fs_asdu s) (fs_handle s)
    (fs_asked s) (fs_puts s ++ put) (fs_taken s) (fs_ran s).

(** [None] is a move that is not possible now. *)
Definition ft_move (m : FtMove) (s : FtStation) : option FtStation :=
  match m with
  | FmCommand =>
      match mpsc_recv (fs_cmd s) with
      | Some (c, cmd) => drv_take (RxCommand c) cmd (option_list c) s
      | None => None
      end
  | FmTick => if ready_now (fs_cmd s) then None else drv_take RxTick (fs_cmd s) [] s
  | FmRead res => if ready_now (fs_cmd s) then None else drv_take (RxRead res) (fs_cmd s) [] s
  | FmPush =>
      match handed (out (fs_drv s)) !! fs_pushed s with
      | Some (inl e) =>
          match mpsc_send e (fs_evt s) with
          | Some (true, c) => Some (with_evt c (S (fs_pushed s)) s)
          | _ => None
          end
      | Some (inr item) =>
          match mpsc_send item (fs_asdu s) with
          | Some (true, c) => Some (with_asdu c (S (fs_pushed s)) s)
          | _ => None
          end
      | None => None
      end
  | FmIntent =>
      match mpsc_recv (intent_tx (fs_handle s)) with
      | Some (Some i, c) => svc_take (SvIntent i) (fs_asdu s) (mkFtHandle c) s
      | _ => None
      end
  | FmIncoming =>
      if ready_now (intent_tx (fs_handle s)) then None else
      match mpsc_recv (fs_asdu s) with
      | Some (Some (ca, a), c) => svc_take (SvIncoming ca a) c (fs_handle s) s
      | _ => None
      end
  | FmSvTick keys =>
      if ready_now (intent_tx (fs_handle s)) || ready_now (fs_asdu s) then None
      else svc_take (SvTick keys) (fs_asdu s) (fs_handle s) s
  | FmPut =>
      match sends (sv_log (fs_svc s)) !! fs_sent s with
      | Some c =>
          match mpsc_send c (fs_cmd s) with
          | Some (ok, cmd) => Some (with_cmd cmd (S (fs_sent s)) (if ok then [(true, c)] else []) s)
          | None => None
          end
      | None => None
      end
  | FmFetch ca nof => ask (handle_fetch ca nof) (IntentFetch ca nof) s
  | FmUpload ca nof => ask (handle_push ca nof) (IntentPush ca nof) s
  | FmSend asdu =>
      match client_send_asdu asdu (fs_cmd s) with
      | Some (inl _, cmd) => Some (with_cmd cmd (fs_sent s) [(false, CmdSendAsdu asdu)] s)
      | Some (inr _, cmd) => Some (with_cmd cmd (fs_sent s) [] s)
      | None => None
      end
  | FmRecv =>
      match mpsc_recv (fs_evt s) with
      | Some (_, c) => Some (with_evt c (fs_pushed s) s)
      | None => None
      end
  end.

Fixpoint ft_moves (ms : list FtMove) (s : FtStation) : option FtStation :=
  match ms with
  | [] => Some s
  | m :: ms => match ft_move m s with Some s' => ft_moves ms s' | None => None end
  end.

(** client104.rs 155-164, Client104::spawn_with_ft (the channels of the
    service), and service.rs 139-160, build. *)
Definition ft_station (d : Driver) (cmd : chan Command) (evt : chan DriverEvent) (puts : list (bool * Command)) (w : W)
  : FtStation :=
  mkFtStation d None 0 (Service_new w) 0 cmd evt (mpsc_channel 32) (mkFtHandle (mpsc_channel 8)) [] puts [] [].

(** A client that has connected with a file provider. *)
Definition ft_client (cfg : Config) (w : W) : option FtStation :=
  match client_spawn_with_ft cfg true with
  | Some (inl c, d) => Some (ft_station d (c_cmd_tx c) (c_evt_rx c) [(false, CmdStartDt)] w)
  | _ => None
  end.

(** A connection accepted by a server with a file provider. *)
Definition ft_server (cfg : Config) (w : W) : FtStation :=
  let '(sender, events, d) := server_spawn_with_ft 0 cfg in
  ft_station d (ss_cmd_tx sender) (sv_evt_rx events) [] w.

(** The stations a run starts from. *)
Definition ft_new (r : Role) (cfg : Config) (w : W) : option FtStation :=
  match r with Client => ft_client cfg w | Server => Some (ft_server cfg w) end.
Definition ft_run (r : Role) (cfg : Config) (w : W) (ms : list FtMove) : option FtStation :=
  match ft_new r cfg w with Some s => ft_moves ms s | None => None end.

(** ** The tasks run the verified machines *)

Definition intent_in (i : SvInput) : option Intent := match i with SvIntent i => Some i | _ => None end.
Definition incoming_in (i : SvInput) : option (CommonAddress * Asdu) :=
  match i with SvIncoming ca a => Some (ca, a) | _ => None end.
Definition command_in (i : DrvInput) : option Command := match i with RxCommand c => c | _ => None end.
Definition ft_in (h : DriverEvent + CommonAddress * Asdu) : option (CommonAddress * Asdu) :=
  match h with inr x => Some x | inl _ => None end.
Definition service_put (p : bool * Command) : option Command := if p.1 then Some p.2 else None.
Definition reply_of (i : Intent) : nat := match i with IntentFetch _ _ id | IntentPush _ _ id => id end.

#[local] Abbreviation drv_run := (drv_run clock write_ok open_always open_always policy true).

Record ft_ok (w : W) (r : Role) (cfg : Config) (s : FtStation) : Prop := {
  fo_svc : sv_run ft_config sv_clock fuel (fs_ran s) (Service_new w) = Some (fs_svc s);
  fo_asked : omap intent_in (fs_ran s) ++ queued (intent_tx (fs_handle s)) = fs_asked s;
  fo_numbers : reply_of <$> fs_asked s = seq 0 (length (fs_asked s));
  fo_asdus : omap incoming_in (fs_ran s) ++ queued (fs_asdu s) =
    omap ft_in (take (fs_pushed s) (handed (out (fs_drv s))));
  fo_pushed : (fs_pushed s <= length (handed (out (fs_drv s))))%nat;
  fo_drv : ∃ inputs, drv_run inputs (Driver_new r cfg) = Some (fs_exit s, fs_drv s) /\
    omap command_in inputs = fs_taken s;
  fo_cmds : fs_exit s = None -> fs_taken s ++ queued (fs_cmd s) = (fs_puts s).*2;
  fo_sent : fs_exit s = None -> omap service_put (fs_puts s) = take (fs_sent s) (sends (sv_log (fs_svc s)));
  fo_open : tx_alive (fs_cmd s) = true /\ (rx_alive (fs_cmd s) = true <-> fs_exit s = None) }.

Lemma sv_run_snoc inputs i sv : sv_run ft_config sv_clock fuel (inputs ++ [i]) sv =
  sv_run ft_config sv_clock fuel inputs sv ≫= svc_turn i.
Proof.
  revert sv. induction inputs as [|j inputs IH]; intros sv; cbn [sv_run app].
  - cbn. by destruct (svc_turn i sv).
  - destruct (svc_turn j sv); [apply IH|done].
Qed.

Lemma drv_run_snoc inputs i d d' : drv_run inputs d = Some (None, d') -> drv_run (inputs ++ [i]) d = drv_turn i d'.
Proof.
  revert d. induction inputs as [|j inputs IH]; intros d; cbn [Driver104.drv_run app].
  - intros [= ->]. by destruct (drv_turn i d') as [[[x|] d1]|].
  - destruct (drv_turn j d) as [[[x|] d1]|]; [done|apply IH|done].
Qed.

Lemma handed_prefix a b : a `prefix_of` b -> handed a `prefix_of` handed b.
Proof. intros [c ->]. unfold handed. rewrite omap_app. by apply prefix_app_r. Qed.
Lemma sends_prefix a b : a `prefix_of` b -> sends a `prefix_of` sends b.
Proof. intros [c ->]. unfold sends. rewrite omap_app. by apply prefix_app_r. Qed.
Lemma take_prefix {A} n (l1 l2 : list A) : l1 `prefix_of` l2 -> (n <= length l1)%nat -> take n l2 = take n l1.
Proof. intros [l ->] H. by rewrite take_app_le. Qed.
Lemma take_snoc {A} (l : list A) n x : l !! n = Some x -> take (S n) l = take n l ++ [x].
Proof. apply take_S_r. Qed.

Section Preserved.
Context (w : W) (r : Role) (cfg : Config).
#[local] Abbreviation ok := (ft_ok w r cfg).

Lemma drv_take_ok i cmd taken s s' : ok s -> drv_take i cmd taken s = Some s' ->
  option_list (command_in i) = taken -> taken ++ queued cmd = queued (fs_cmd s) ->
  tx_alive cmd = true -> rx_alive cmd = rx_alive (fs_cmd s) -> ok s'.
Proof.
  intros [O1 O2 O3 O4 O5 (ins & Hrun & Hcmds) O7 O8 [O9 O10]] E Ht Hq Htx Hrx. unfold drv_take, drv_idle in E.
  destruct (fs_exit s) as [x0|] eqn:Hx; [done|].
  destruct (Nat.eqb_spec (fs_pushed s) (length (handed (out (fs_drv s))))) as [Hp|]; [|done].
  destruct (drv_turn i (fs_drv s)) as [[x d]|] eqn:Hturn; [|done]. injection E as <-.
  pose proof (turn_grows _ _ _ _ _ _ _ _ _ _ Hturn) as Hg%handed_prefix.
  split; cbn; try done.
  - by rewrite (take_prefix _ _ _ Hg) by lia.
  - apply prefix_length in Hg. lia.
  - exists (ins ++ [i]). rewrite (drv_run_snoc _ _ _ _ Hrun), omap_app, Hcmds, <- Ht. split; [done|].
    cbn. by destruct (command_in i).
  - intros ->. by rewrite <- app_assoc, Hq, O7.
  - intros _. by apply O8.
  - destruct x; [|split; [done|]; rewrite Hrx; split; [done|by intros _; apply O10]].
    destruct (drop_rx_law cmd) as (_ & -> & ->). done.
Qed.

Lemma svc_take_ok i asdu h s s' : ok s -> svc_take i asdu h s = Some s' ->
  option_list (intent_in i) ++ queued (intent_tx h) = queued (intent_tx (fs_handle s)) ->
  option_list (incoming_in i) ++ queued asdu = queued (fs_asdu s) -> ok s'.
Proof.
  intros [O1 O2 O3 O4 O5 O6 O7 O8 O9] E Hi Ha. unfold svc_take, svc_idle in E.
  destruct (Nat.eqb_spec (fs_sent s) (length (sends (sv_log (fs_svc s))))) as [Hp|]; [|done].
  destruct (svc_turn i (fs_svc s)) as [sv|] eqn:Hturn; [|done]. injection E as <-.
  pose proof (sends_prefix _ _ (log_grows_turn _ _ _ _ _ _ Hturn)) as Hg.
  split; cbn; try done.
  - by rewrite sv_run_snoc, O1.
  - rewrite omap_app, <- app_assoc. cbn [omap list_omap].
    replace (match intent_in i with Some y => [y] | None => [] end) with (option_list (intent_in i)) by (by destruct (intent_in i)).
    by rewrite Hi.
  - rewrite omap_app, <- app_assoc. cbn [omap list_omap].
    replace (match incoming_in i with Some y => [y] | None => [] end) with (option_list (incoming_in i)) by (by destruct (incoming_in i)).
    by rewrite Ha.
  - intros Hx. rewrite (take_prefix _ _ _ Hg) by lia. by apply O8.
Qed.

Lemma recv_facts {A} (c c' : chan A) o : mpsc_recv c = Some (o, c') ->
  option_list o ++ queued c' = queued c /\ tx_alive c' = tx_alive c /\ rx_alive c' = rx_alive c.
Proof.
  intros E. pose proof (recv_law c) as H. rewrite E in H. destruct o as [x|].
  - by destruct H as (-> & _ & -> & ->).
  - by destruct H as (_ & _ & ->).
Qed.
Lemma send_facts {A} (x : A) c c' b : mpsc_send x c = Some (b, c') ->
  rx_alive c = b /\ tx_alive c' = tx_alive c /\ rx_alive c' = rx_alive c /\
  queued c' = queued c ++ (if b then [x] else []).
Proof.
  intros E. pose proof (send_law x c) as H. rewrite E in H. destruct b.
  - destruct H as (H1 & _ & H2 & _ & H3 & H4). by rewrite H1, H2, H3, H4.
  - destruct H as [H ->]. by rewrite H, app_nil_r.
Qed.

(** What goes into the channel of the commands. *)
Lemma command_put_ok s c b cmd sent put : ok s -> mpsc_send c (fs_cmd s) = Some (b, cmd) ->
  put.*2 = (if b then [c] else []) ->
  (fs_exit s = None -> b = true -> omap service_put (fs_puts s ++ put) = take sent (sends (sv_log (fs_svc s)))) ->
  ok (with_cmd cmd sent put s).
Proof.
  intros [O1 O2 O3 O4 O5 O6 O7 O8 [O9 O10]] (Hb & Htx & Hrx & Hq)%send_facts Hput Hs.
  split; cbn; try done.
  - intros Hx. by rewrite Hq, fmap_app, Hput, app_assoc, O7.
  - intros Hx. apply Hs; [done|]. by rewrite <- Hb, O10.
  - by rewrite Htx, Hrx.
Qed.

Lemma command_refused_ok s : ok s -> ok (with_cmd (fs_cmd s) (fs_sent s) [] s).
Proof. intros []. split; cbn; rewrite ?app_nil_r; done. Qed.

Lemma push_ok s s' : ok s -> ft_move FmPush s = Some s' -> ok s'.
Proof.
  intros [O1 O2 O3 O4 O5 O6 O7 O8 O9] E. cbn [ft_move] in E.
  destruct (handed (out (fs_drv s)) !! fs_pushed s) as [h|] eqn:Hh; [|done].
  pose proof (lookup_lt_Some _ _ _ Hh) as Hlt.
  destruct h as [e|item].
  - destruct (mpsc_send e (fs_evt s)) as [[[] c]|] eqn:Hc; [|done..]. injection E as <-. split; cbn; try done.
    rewrite O4, (take_snoc _ _ _ Hh), omap_app. cbn. by rewrite app_nil_r.
  - destruct (mpsc_send item (fs_asdu s)) as [[[] c]|] eqn:Hc; [|done..]. injection E as <-.
    apply send_facts in Hc as (_ & _ & _ & Hq). split; cbn; try done.
    rewrite Hq, app_assoc, O4, (take_snoc _ _ _ Hh), omap_app. done.
Qed.

Lemma ask_ok request intent s s' : ok s ->
  (∀ id h, request id h = send_intent (intent id) id h) -> (∀ id, reply_of (intent id) = id) ->
  ask request intent s = Some s' -> ok s'.
Proof.
  intros [O1 O2 O3 O4 O5 O6 O7 O8 O9] Hr Hi E. unfold ask in E. rewrite Hr in E. unfold send_intent in E.
  destruct (mpsc_send _ _) as [[b c]|] eqn:Hc; [|done].
  apply send_facts in Hc as (_ & _ & _ & Hq). destruct b; injection E as <-; split; cbn; try done.
  - by rewrite Hq, app_assoc, O2.
  - rewrite fmap_app, O3, length_app, Nat.add_1_r, seq_S. cbn. by rewrite Hi.
  - by rewrite Hq, app_nil_r, O2.
Qed.

Lemma ft_move_ok m s s' : ok s -> ft_move m s = Some s' -> ok s'.
Proof.
  intros H E. destruct m; cbn [ft_move] in E.
  - destruct (mpsc_recv (fs_cmd s)) as [[c cmd]|] eqn:Hc; [|done]. apply recv_facts in Hc as (Hq & Htx & Hrx).
    eapply drv_take_ok; [exact H|exact E|done|done|by rewrite Htx; apply (fo_open _ _ _ _ H)|done].
  - destruct (ready_now (fs_cmd s)); [done|]. by eapply drv_take_ok; [exact H|exact E|..]; try done; apply (fo_open _ _ _ _ H).
  - destruct (ready_now (fs_cmd s)); [done|]. by eapply drv_take_ok; [exact H|exact E|..]; try done; apply (fo_open _ _ _ _ H).
  - by apply (push_ok s).
  - destruct (mpsc_recv (intent_tx (fs_handle s))) as [[[i|] c]|] eqn:Hc; [|done..]. apply recv_facts in Hc as (Hq & _).
    by eapply svc_take_ok; [exact H|exact E|..].
  - destruct (ready_now _); [done|]. destruct (mpsc_recv (fs_asdu s)) as [[[[ca a]|] c]|] eqn:Hc; [|done..].
    apply recv_facts in Hc as (Hq & _). by eapply svc_take_ok; [exact H|exact E|..].
  - destruct (_ || _); [done|]. by eapply svc_take_ok; [exact H|exact E|..].
  - destruct (sends (sv_log (fs_svc s)) !! fs_sent s) as [c|] eqn:Hl; [|done].
    destruct (mpsc_send c (fs_cmd s)) as [[b cmd]|] eqn:Hc; [|done]. injection E as <-.
    eapply command_put_ok; [done|exact Hc|by destruct b|]. intros Hx ->.
    by rewrite omap_app, (fo_sent _ _ _ _ H Hx), (take_snoc _ _ _ Hl).
  - eapply ask_ok; [done|..|exact E]; done.
  - eapply ask_ok; [done|..|exact E]; done.
  - unfold client_send_asdu in E. destruct (_ <? _)%nat; [injection E as <-; by apply command_refused_ok|].
    destruct (mpsc_send (CmdSendAsdu asdu) (fs_cmd s)) as [[[] cmd]|] eqn:Hc; [| |done]; injection E as <-.
    + eapply command_put_ok; [done|exact Hc|done|]. intros Hx _. rewrite omap_app, (fo_sent _ _ _ _ H Hx). cbn. by rewrite app_nil_r.
    + by eapply command_put_ok; [done|exact Hc|..].
  - destruct (mpsc_recv (fs_evt s)) as [[o c]|]; [|done]. injection E as <-. by destruct H.
Qed.

Lemma ft_moves_ok ms s s' : ok s -> ft_moves ms s = Some s' -> ok s'.
Proof.
  revert s. induction ms as [|m ms IH]; intros s H; cbn [ft_moves]; [by intros [= <-]|].
  destruct (ft_move m s) as [s1|] eqn:E; [|done]. apply IH. by eapply ft_move_ok.
Qed.

Lemma ft_new_ok s : ft_new r cfg w = Some s -> ok s.
Proof.
  destruct (channel_law (A := Command) 32) as (C1 & _ & C2 & C3).
  destruct (channel_law (A := Intent) 8) as (I1 & _). destruct (channel_law (A := CommonAddress * Asdu) 32) as (A1 & _).
  assert (∀ cmd evt puts, queued cmd = puts.*2 -> omap service_put puts = [] -> tx_alive cmd = true ->
    rx_alive cmd = true -> ok (ft_station (Driver_new r cfg) cmd evt puts w)) as Hst.
  { intros cmd evt puts H1 H2 H3 H4. split; cbn; try done; try (by rewrite ?I1, ?A1); try lia. by exists []. }
  unfold ft_new, ft_client, ft_server. destruct r.
  - unfold client_spawn_with_ft. destruct (mpsc_send CmdStartDt _) as [[[] c]|] eqn:E; [|done..].
    intros [= <-]. apply send_facts in E as (Hrx & Htx & Hrx' & Hq). apply Hst; [by rewrite Hq, C1|done|by rewrite Htx|by rewrite Hrx'].
  - intros [= <-]. by apply Hst.
Qed.

Lemma ft_run_ok ms s : ft_run r cfg w ms = Some s -> ok s.
Proof. unfold ft_run. destruct (ft_new r cfg w) as [s0|] eqn:E; [|done]. apply ft_moves_ok. by apply ft_new_ok. Qed.

Lemma requested_intents (l : list SvInput) : requested l = reply_of <$> omap intent_in l.
Proof. unfold requested. induction l as [|[[]| |] l IH]; cbn; [done|by rewrite IH..|exact IH|exact IH]. Qed.

Lemma await_answered id l : is_Some (await_reply id l false) <-> id ∈ answered_in l.
Proof.
  unfold await_reply, answered_in. induction l as [|o l IH].
  { cbn. split; [by intros []|by intros ?%elem_of_nil]. }
  destruct o as [| |i x| |]; cbn; try exact IH. rewrite elem_of_cons.
  destruct (Nat.eqb_spec i id) as [->|Hn]; cbn; [split; [by left|by eexists]|]. rewrite IH. naive_solver.
Qed.

(** C16. Every call of [fetch] and [push] is accounted for. Whatever the users, the
    tasks, the transport and the storage do, and in whatever order: of the
    requests the handle of a station has accepted (numbered 0, 1, ...), each
    is, exactly once, answered, or held by a transfer in the table of the
    service, or waiting in the channel to the service; and the caller sees a
    reply exactly when the request is answered. *)
Theorem file_requests_answered ms s : ft_run r cfg w ms = Some s ->
  seq 0 (length (fs_asked s)) ≡ₚ answered_in (sv_log (fs_svc s)) ++ pending_in (sv_sessions (fs_svc s)) ++
    (reply_of <$> queued (intent_tx (fs_handle s))) /\
  ∀ id, is_Some (await_reply id (sv_log (fs_svc s)) false) <-> id ∈ answered_in (sv_log (fs_svc s)).
Proof.
  intros H%ft_run_ok. split; [|intros id; apply await_answered].
  destruct (proj1 (service_run_ok ft_config sv_clock (fs_ran s) w) _ _ (fo_svc _ _ _ _ H)) as (_ & _ & Ha & _).
  rewrite <- (fo_numbers _ _ _ _ H), <- (fo_asked _ _ _ _ H), fmap_app, <- requested_intents, Ha.
  unfold owed. by rewrite app_assoc.
Qed.

(** The tasks of a station run the verified machines, and the channels
    between them lose nothing. In every run: the service is a run of the
    verified service, whose incoming ASDUs are, in order and without gaps, the
    file-transfer ASDUs its driver has handed over; the driver is a run of the
    verified driver, and as long as it runs the commands it has taken and
    those that wait are what the user and the service have put into the
    channel, among them, in order, what the service has sent. *)
Theorem station_runs_service ms s : ft_run r cfg w ms = Some s ->
  sv_run ft_config sv_clock fuel (fs_ran s) (Service_new w) = Some (fs_svc s) /\
  omap incoming_in (fs_ran s) ++ queued (fs_asdu s) = omap ft_in (take (fs_pushed s) (handed (out (fs_drv s)))) /\
  (∃ inputs, drv_run inputs (Driver_new r cfg) = Some (fs_exit s, fs_drv s) /\ omap command_in inputs = fs_taken s) /\
  (fs_exit s = None -> fs_taken s ++ queued (fs_cmd s) = (fs_puts s).*2 /\
    omap service_put (fs_puts s) = take (fs_sent s) (sends (sv_log (fs_svc s)))).
Proof. intros [O1 O2 O3 O4 O5 O6 O7 O8 O9]%ft_run_ok. split_and!; auto. Qed.

(** A station with a file provider outlives its handles: the service keeps a
    sender of the commands and its loop, which always has a tick to wait for,
    does not end, so the driver is never told that all senders are gone. *)
Lemma handles_do_not_end_it ms s c : ft_run r cfg w ms = Some s -> mpsc_recv (fs_cmd s) ≠ Some (None, c).
Proof.
  intros H%ft_run_ok E. pose proof (recv_law (fs_cmd s)) as Hl. rewrite E in Hl.
  destruct Hl as (_ & Hf & _). destruct (fo_open _ _ _ _ H) as [Ht _]. congruence.
Qed.
End Preserved.

(** ** Two tasks that wait for each other *)

(** The driver waits for room for an ASDU of file transfer, the service for
    room for a command. *)
Definition ft_wedged (s : FtStation) : Prop :=
  (∃ item, handed (out (fs_drv s)) !! fs_pushed s = Some (inr item)) /\
  (fs_sent s < length (sends (sv_log (fs_svc s))))%nat /\
  (rx_alive (fs_asdu s) = true /\ (capacity (fs_asdu s) <= length (queued (fs_asdu s)))%nat) /\
  (rx_alive (fs_cmd s) = true /\ (capacity (fs_cmd s) <= length (queued (fs_cmd s)))%nat).

(** Neither task has moved, nor what they wait for. *)
Definition still_waiting (s s' : FtStation) : Prop :=
  fs_drv s' = fs_drv s /\ fs_exit s' = fs_exit s /\ fs_pushed s' = fs_pushed s /\ fs_svc s' = fs_svc s /\
  fs_sent s' = fs_sent s /\ fs_cmd s' = fs_cmd s /\ fs_asdu s' = fs_asdu s.

Lemma still_wedged s s' : still_waiting s s' -> ft_wedged s -> ft_wedged s'.
Proof. intros (H1 & H2 & H3 & H4 & H5 & H6 & H7). unfold ft_wedged. by rewrite H1, H3, H4, H5, H6, H7. Qed.

Lemma full_send {A} (x : A) (c : chan A) : rx_alive c = true /\ (capacity c <= length (queued c))%nat -> mpsc_send x c = None.
Proof.
  intros [Hr Hc]. pose proof (send_law x c) as H. destruct (mpsc_send x c) as [[[] c']|]; [lia| |done].
  destruct H. congruence.
Qed.

Lemma wedged_ask request intent s s' : ask request intent s = Some s' -> still_waiting s s'.
Proof. unfold ask. destruct (request _ _) as [[[] h]|]; [|intros [= <-]; by repeat split|done]. intros [= <-]. by repeat split. Qed.

Lemma ft_wedged_move m s s' : ft_wedged s -> ft_move m s = Some s' -> still_waiting s s'.
Proof.
  intros ((item & Hit) & Hs & Ha & Hc) E.
  assert (∀ i c t, drv_take i c t s = None) as Hd.
  { intros i c t. unfold drv_take, drv_idle. destruct (fs_exit s); [done|].
    apply lookup_lt_Some in Hit. destruct (Nat.eqb_spec (fs_pushed s) (length (handed (out (fs_drv s))))); [lia|done]. }
  assert (∀ i a h, svc_take i a h s = None) as Hv.
  { intros i a h. unfold svc_take, svc_idle.
    destruct (Nat.eqb_spec (fs_sent s) (length (sends (sv_log (fs_svc s))))); [lia|done]. }
  destruct m; cbn [ft_move] in E; rewrite ?Hd, ?Hv in E.
  - destruct (mpsc_recv _) as [[c cmd]|]; by rewrite ?Hd in E.
  - by destruct (ready_now _).
  - by destruct (ready_now _).
  - rewrite Hit, (full_send _ _ Ha) in E. done.
  - destruct (mpsc_recv _) as [[[i|] c]|]; by rewrite ?Hv in E.
  - destruct (ready_now _); [done|]. destruct (mpsc_recv _) as [[[[ca a]|] c]|]; by rewrite ?Hv in E.
  - by destruct (_ || _).
  - destruct (sends _ !! _) as [c|]; [|done]. by rewrite (full_send _ _ Hc) in E.
  - by apply wedged_ask in E.
  - by apply wedged_ask in E.
  - unfold client_send_asdu in E. destruct (_ <? _)%nat; [injection E as <-; by repeat split|].
    by rewrite (full_send _ _ Hc) in E.
  - destruct (mpsc_recv (fs_evt s)) as [[o c]|]; [|done]. injection E as <-. by repeat split.
Qed.

(** C37. Driver and service can wait for each other for ever. When the driver has
    an ASDU of file transfer to hand over and its channel is full, and the
    service has an ASDU to send and the channel of the commands is full, then
    nothing that the users, the transport or the clocks do lets either task
    take another step: the supervision of the connection has stopped, and no
    request is answered any more. *)
Theorem file_service_deadlocks ms s s' : ft_wedged s -> ft_moves ms s = Some s' ->
  fs_drv s' = fs_drv s /\ fs_exit s' = fs_exit s /\ fs_svc s' = fs_svc s.
Proof.
  intros Hw E. assert (still_waiting s s') as (H1 & H2 & _ & H4 & _); [|done].
  revert s Hw E. induction ms as [|m ms IH]; intros s Hw; cbn [ft_moves]; [intros [= <-]; by repeat split|].
  destruct (ft_move m s) as [s1|] eqn:E; [|done]. intros Hms.
  pose proof (ft_wedged_move m s s1 Hw E) as H. specialize (IH s1 (still_wedged _ _ H Hw) Hms).
  destruct H as (A1 & A2 & A3 & A4 & A5 & A6 & A7), IH as (B1 & B2 & B3 & B4 & B5 & B6 & B7).
  unfold still_waiting. split_and!; congruence.
Qed.

End Station.

(** ** One read that stops a station *)

Module FtStationSample.

#[local] Existing Instance list_channels.
#[local] Existing Instance slice_bytes.

(** A server over a storage with one file of 8200 octets. *)
#[local] Instance storage : Provider (list bytes) bytes unit :=
  FtService.Sample.memory [(8, repeat 7 (Z.to_nat 8200))] None false.

Definition ft_frame {P} `{!AsduPayload P} (n : nat) (p : P) : bytes :=
  let asdu := from_payload (Cot_with FILE_TRANSFER) 5 (Vsq_single 1) p IEC104 in
  (encode_apdu (ApduI (Z.of_nat n) 0 (Asdu_encode asdu IEC104 [])) []).2.

(** STARTDT_act, the selection of the file, the request for it, and 34
    confirmations of nothing, as one segment of TCP would carry them. *)
Definition burst : bytes :=
  (encode_apdu (ApduU StartDtAct) []).2 ++
  ft_frame 0 (mkF_SC 0 (mkNof 8) WHOLE_FILE (Scq_new SelectFile 0)) ++
  ft_frame 1 (mkF_SC 0 (mkNof 8) WHOLE_FILE (Scq_new RequestFile 0)) ++
  flat_map (fun n => ft_frame n (mkF_AF 0 (mkNof 9) (mkNos 1) (Afq_new PositiveFile 0))) (seq 2 34).

Definition burst_moves : list FtMove :=
  FmRead (Some burst) :: repeat FmPush 33 ++ [FmIncoming; FmPut; FmIncoming] ++ repeat FmPut 31 ++ repeat FmPush 2.

#[local] Abbreviation run ms :=
  (ft_run (fun n => Z.of_nat n) (fun n => Z.of_nat n) (fun _ => true) AsduPolicy_new FileTransferConfig_default 200
    Server Config_default [] ms).

Lemma burst_fits : (length burst <= 2048)%nat.
Proof. vm_compute. lia. Qed.

(** A decidable form of [ft_wedged] for these channels. *)
Definition wedgedb (s : FtStation (W := list bytes) (Reader := bytes) (Writer := unit)) : bool :=
  match handed (out (fs_drv s)) !! fs_pushed s with Some (inr _) => true | _ => false end &&
  (fs_sent s <? length (sends (sv_log (fs_svc s))))%nat &&
  (lc_rx (fs_asdu s) && (lc_cap (fs_asdu s) <=? length (lc_queue (fs_asdu s)))%nat) &&
  (lc_rx (fs_cmd s) && (lc_cap (fs_cmd s) <=? length (lc_queue (fs_cmd s)))%nat).

Lemma wedgedb_ok s : wedgedb s = true -> ft_wedged s.
Proof.
  unfold wedgedb, ft_wedged. rewrite !andb_true_iff. intros [[[H1 H2%Nat.ltb_lt] [H3 H3'%Nat.leb_le]] [H4 H4'%Nat.leb_le]].
  split_and!; try done. destruct (handed _ !! _) as [[e|x]|]; [done|by exists x|done].
Qed.

Lemma burst_wedges : from_option wedgedb false (run burst_moves) = true.
Proof. vm_compute. reflexivity. Qed.

Lemma file_service_deadlocks_witness : ∃ s, run burst_moves = Some s /\ ∀ ms s',
  ft_moves (fun n => Z.of_nat n) (fun n => Z.of_nat n) (fun _ => true) AsduPolicy_new FileTransferConfig_default 200 ms s = Some s' ->
  fs_drv s' = fs_drv s /\ fs_exit s' = fs_exit s /\ fs_svc s' = fs_svc s.
Proof.
  pose proof burst_wedges as Hb. destruct (run burst_moves) as [s|]; [|discriminate Hb].
  exists s. split; [reflexivity|]. intros ms s'. apply file_service_deadlocks. apply wedgedb_ok. exact Hb.
Defined.

(** Three requests of the user: file 7 is fetched, file 8 pushed, and file 7
    is asked for again; the first two are begun, and the third refused. *)
Definition requests : list FtMove :=
  [FmFetch 5 (mkNof 7); FmUpload 5 (mkNof 8); FmFetch 5 (mkNof 7); FmIntent; FmPut; FmIntent; FmPut; FmIntent;
   FmUpload 5 (mkNof 9)].

Definition accounts (o : option (FtStation (W := list bytes) (Reader := bytes) (Writer := unit))) :=
  s ← o; Some (length (fs_asked s), answered_in (sv_log (fs_svc s)), pending_in (sv_sessions (fs_svc s)),
    reply_of <$> lc_queue (intent_tx (fs_handle s)), fs_puts s).

Lemma requests_account : accounts (run requests) =
  Some (4%nat, [2%nat], [0%nat; 1%nat], [3%nat],
    [(true, CmdSendAsdu [122; 1; 13; 0; 5; 0; 0; 0; 0; 7; 0; 0; 0; 1]);
     (true, CmdSendAsdu [120; 1; 13; 0; 5; 0; 0; 0; 0; 8; 0; 8; 32; 0; 0])]).
Proof. vm_compute. reflexivity. Qed.

Lemma file_requests_answered_witness : ∃ s, run requests = Some s /\
  seq 0 (length (fs_asked s)) ≡ₚ answered_in (sv_log (fs_svc s)) ++ pending_in (sv_sessions (fs_svc s)) ++
    (reply_of <$> queued (intent_tx (fs_handle s))).
Proof.
  pose proof requests_account as Hb. destruct (run requests) as [s|] eqn:E; [|discriminate Hb].
  exists s. split; [reflexivity|]. exact (proj1 (file_requests_answered _ _ _ _ _ _ _ _ _ requests s E)).
Defined.

(** The service has taken two ASDUs of the burst; 32 wait for it. *)
Lemma station_runs_service_witness : ∃ s, run burst_moves = Some s /\
  omap incoming_in (fs_ran s) ++ queued (fs_asdu s) = omap ft_in (take (fs_pushed s) (handed (out (fs_drv s)))).
Proof.
  pose proof burst_wedges as Hb. destruct (run burst_moves) as [s|] eqn:E; [|discriminate Hb].
  exists s. split; [reflexivity|].
  exact (proj1 (proj2 (station_runs_service _ _ _ _ _ _ _ _ _ burst_moves s E))).
Defined.

End FtStationSample.
