(* ===== verification/Tls.v ===== *)
(** * TLS

    [security/tls_config.rs], [security/verifier.rs] and [tls.rs]: what a
    server demands of its peers, and how it accepts them. rustls, webpki, the
    PEM parser and sha2 are not in the repository: they are the class
    [Rustls], whose laws state what their documentation promises. The traits
    of rustls that the code implements are records of functions. *)

From S2P Require Import Prelude Bytes Codec AsduHeader Asdu Frame104 Conn104.
From S2P Require Import Policy Driver104 Redundancy Channels Handles.

#[local] Open Scope Z_scope.

(** ** What the code uses of rustls *)

(** [pki_types::CertificateDer] *)
Abbreviation CertificateDer := bytes.

Class RustlsTypes := {
  SignatureScheme : Type; CipherSuite : Type; DistinguishedName : Type; DigitallySignedStruct : Type;
  PrivateKeyDer : Type; RootCertStore : Type; UnixTime : Type; TlsError : Type;
  #[global] scheme_eq :: EqDecision SignatureScheme }.

(** [server::danger::ClientCertVerifier] *)
Record ClientCertVerifier `{RustlsTypes} := mkClientCertVerifier {
  root_hint_subjects : list DistinguishedName;
  offer_client_auth : bool;
  client_auth_mandatory : bool;
  verify_client_cert : CertificateDer -> list CertificateDer -> UnixTime -> unit + TlsError;
  verify_tls12_signature : bytes -> CertificateDer -> DigitallySignedStruct -> unit + TlsError;
  verify_tls13_signature : bytes -> CertificateDer -> DigitallySignedStruct -> unit + TlsError;
  supported_verify_schemes : list SignatureScheme }.
Arguments mkClientCertVerifier {_}.

Class Rustls `{RustlsTypes} := {
  ServerConfig : Type; ClientConfig : Type; Handshake : Type; Sessions : Type;
  (* [Error::InvalidCertificate(CertificateError::ApplicationVerificationFailure)] *)
  application_verification_failure : TlsError;
  (* [sha2::Sha256] *)
  sha256 : bytes -> bytes;
  (* [rustls_pemfile]; [None] is a parse error *)
  pem_certs : bytes -> option (list CertificateDer);
  pem_private_key : bytes -> option (option PrivateKeyDer);

  roots_empty : RootCertStore;
  roots_add : CertificateDer -> RootCertStore -> option RootCertStore;
  (* the cipher suites of [ring::default_provider] *)
  default_suites : list CipherSuite;
  (* [with_safe_default_protocol_versions] *)
  versions_ok : list CipherSuite -> bool;
  (* [WebPkiClientVerifier::builder_with_provider(..).build()] *)
  webpki_build : RootCertStore -> list CipherSuite -> option ClientCertVerifier;
  (* [with_no_client_auth] or [with_client_cert_verifier], then [with_single_cert] *)
  server_build : list CipherSuite -> option ClientCertVerifier -> list CertificateDer -> PrivateKeyDer -> option ServerConfig;
  client_build : RootCertStore -> ClientConfig;
  client_build_auth : RootCertStore -> list CertificateDer -> PrivateKeyDer -> option ClientConfig;

  (* what a configuration was built with *)
  sc_suites : ServerConfig -> list CipherSuite;
  sc_verifier : ServerConfig -> option ClientCertVerifier;
  (* the sessions a configuration keeps, by default, for peers that resume one:
     the chains of their peers *)
  no_sessions : Sessions;
  stored : Sessions -> list (option (CertificateDer * list CertificateDer));
  (* [peer_certificates] of the connection: the chain the peer has presented,
     in this handshake or in that of the session it resumes *)
  peer_chain : Handshake -> option (CertificateDer * list CertificateDer);
  (* what a handshake comes to: [None] if it is never completed *)
  acceptor : ServerConfig -> UnixTime -> Handshake -> Sessions -> option (bool * Sessions);

  server_build_law : ∀ suites v chain key cfg, server_build suites v chain key = Some cfg ->
    sc_suites cfg = suites /\ sc_verifier cfg = v;
  (* the verifier demands a certificate unless [allow_unauthenticated] is called *)
  webpki_law : ∀ roots suites v, webpki_build roots suites = Some v ->
    offer_client_auth v = true /\ client_auth_mandatory v = true;
  no_sessions_law : stored no_sessions = [];
  (* a full handshake calls the verifier, one that resumes a session does not;
     only completed handshakes are stored *)
  acceptor_law : ∀ cfg now h ss ss' v, acceptor cfg now h ss = Some (true, ss') -> sc_verifier cfg = Some v ->
    offer_client_auth v = true ->
    (match peer_chain h with
     | Some (leaf, intermediates) => verify_client_cert v leaf intermediates now = inl tt
     | None => client_auth_mandatory v = false
     end \/ peer_chain h ∈ stored ss);
  stored_law : ∀ cfg now h ss ok ss' chain, acceptor cfg now h ss = Some (ok, ss') -> chain ∈ stored ss' ->
    chain ∈ stored ss \/ ok = true /\ chain = peer_chain h }.

Section Tls.
Context `{RT : RustlsTypes} `{!Rustls}.

(** ** The policy for client certificates *)

(** tls_config.rs 44-47, CertificateChain. *)
Record CertificateChain := mkCertificateChain { leaf : CertificateDer; intermediates : list CertificateDer }.

(** tls_config.rs 52-52, VerifyError. *)
Inductive VerifyError := mkVerifyError (message : string).

(** tls_config.rs 35-36, CustomVerifierFn. *)
Definition CustomVerifierFn : Type := CertificateChain -> unit + VerifyError.

(** tls_config.rs 59-73, ClientCertPolicy. *)
Inductive ClientCertPolicy :=
| CcpNone | CcpTrustChain | CcpPinnedFingerprints (pins : list bytes) | CcpCustomVerifier (f : CustomVerifierFn).

(** verifier.rs 126-130, sha256_fingerprint. *)
Definition sha256_fingerprint (der : bytes) : bytes := sha256 der.

(** verifier.rs 19-23, PolicyClientVerifier. *)
Record PolicyClientVerifier := mkPolicyClientVerifier {
  pv_inner : ClientCertVerifier; pv_policy : ClientCertPolicy; pv_signature_schemes : option (list SignatureScheme) }.

(** verifier.rs 26-36, PolicyClientVerifier::new. *)
Definition PolicyClientVerifier_new (inner : ClientCertVerifier) (policy : ClientCertPolicy)
    (signature_schemes : option (list SignatureScheme)) : PolicyClientVerifier :=
  mkPolicyClientVerifier inner policy signature_schemes.

(** verifier.rs 53-56, PolicyClientVerifier::offer_client_auth. *)
Definition pv_offer_client_auth (p : PolicyClientVerifier) : bool :=
  negb (match pv_policy p with CcpNone => true | _ => false end).

(** verifier.rs 62-96, PolicyClientVerifier::verify_client_cert. *)
Definition pv_verify_client_cert (p : PolicyClientVerifier) (end_entity : CertificateDer)
    (intermediates : list CertificateDer) (now : UnixTime) : unit + TlsError :=
  match verify_client_cert (pv_inner p) end_entity intermediates now with
  | inr e => inr e
  | inl verified =>
      match pv_policy p with
      | CcpNone | CcpTrustChain => inl verified
      | CcpPinnedFingerprints pins =>
          let fp := sha256_fingerprint end_entity in
          if bool_decide (fp ∈ pins) then inl verified else inr application_verification_failure
      | CcpCustomVerifier f =>
          let chain := mkCertificateChain end_entity intermediates in
          match f chain with
          | inl _ => inl verified
          | inr _ => inr application_verification_failure
          end
      end
  end.

(** verifier.rs 116-122, PolicyClientVerifier::supported_verify_schemes. *)
Definition pv_supported_verify_schemes (p : PolicyClientVerifier) : list SignatureScheme :=
  let inner := supported_verify_schemes (pv_inner p) in
  match pv_signature_schemes p with
  | None => inner
  | Some allow => filter (fun s => s ∈ allow) inner
  end.

(** verifier.rs 48-123, ClientCertVerifier for PolicyClientVerifier. *)
Definition pv_verifier (p : PolicyClientVerifier) : ClientCertVerifier :=
  mkClientCertVerifier (root_hint_subjects (pv_inner p)) (pv_offer_client_auth p)
    (client_auth_mandatory (pv_inner p)) (pv_verify_client_cert p)
    (verify_tls12_signature (pv_inner p)) (verify_tls13_signature (pv_inner p))
    (pv_supported_verify_schemes p).

(** ** The configuration of a server *)

(** tls_config.rs 94-110, TlsSecurityConfig. *)
Record TlsSecurityConfig := mkTlsSecurityConfig {
  server_chain : list CertificateDer; server_key : PrivateKeyDer; client_roots : RootCertStore;
  cipher_suites : option (list CipherSuite); signature_schemes : option (list SignatureScheme);
  client_cert_policy : ClientCertPolicy }.

(** tls_config.rs 158-203, TlsSecurityConfig::build_server_config. *)
Definition build_server_config (c : TlsSecurityConfig) : ServerConfig + ApiError :=
  let build suites :=
    if negb (versions_ok suites) then inr ApiTls
    else
      match client_cert_policy c with
      | CcpNone =>
          match server_build suites None (server_chain c) (server_key c) with
          | Some cfg => inl cfg
          | None => inr ApiTls
          end
      | policy =>
          match webpki_build (client_roots c) suites with
          | None => inr ApiTls
          | Some inner =>
              let policy_verifier := PolicyClientVerifier_new inner policy (signature_schemes c) in
              match server_build suites (Some (pv_verifier policy_verifier)) (server_chain c) (server_key c) with
              | Some cfg => inl cfg
              | None => inr ApiTls
              end
          end
      end in
  match cipher_suites c with
  | Some [] => inr ApiTls
  | Some suites => build suites
  | None => build default_suites
  end.

(** ** PEM files *)

(** The file system: [None] is a file that cannot be opened or read. *)
Context (read_file : string -> option bytes).

(** tls_config.rs 218-224, load_certs. *)
Definition load_certs (path : string) : list CertificateDer + ApiError :=
  match read_file path with
  | None => inr ApiTls
  | Some text => match pem_certs text with Some certs => inl certs | None => inr ApiTls end
  end.

(** tls_config.rs 226-233, load_private_key. *)
Definition load_private_key (path : string) : PrivateKeyDer + ApiError :=
  match read_file path with
  | None => inr ApiTls
  | Some text =>
      match pem_private_key text with
      | None => inr ApiTls
      | Some None => inr ApiTls
      | Some (Some key) => inl key
      end
  end.

(** tls_config.rs 141-145, TlsSecurityConfig::from_pem_paths (inner loop). *)
Fixpoint add_roots (certs : list CertificateDer) (roots : RootCertStore) : RootCertStore + ApiError :=
  match certs with
  | [] => inl roots
  | cert :: certs => match roots_add cert roots with Some roots => add_roots certs roots | None => inr ApiTls end
  end.

(** tls_config.rs 140-146, TlsSecurityConfig::from_pem_paths (loops). *)
Fixpoint load_roots (client_ca : list string) (roots : RootCertStore) : RootCertStore + ApiError :=
  match client_ca with
  | [] => inl roots
  | path :: client_ca =>
      match load_certs path with
      | inr e => inr e
      | inl certs => match add_roots certs roots with inl roots => load_roots client_ca roots | inr e => inr e end
      end
  end.

(** tls_config.rs 135-156, TlsSecurityConfig::from_pem_paths. *)
Definition from_pem_paths (cert key : string) (client_ca : list string) : TlsSecurityConfig + ApiError :=
  match load_certs cert with
  | inr e => inr e
  | inl server_chain =>
      match load_private_key key with
      | inr e => inr e
      | inl server_key =>
          match load_roots client_ca roots_empty with
          | inr e => inr e
          | inl client_roots => inl (mkTlsSecurityConfig server_chain server_key client_roots None None CcpTrustChain)
          end
      end
  end.

(** tls_config.rs 209-216, fingerprint_sha256_of_pem_file. *)
Definition fingerprint_sha256_of_pem_file (path : string) : bytes + ApiError :=
  match load_certs path with
  | inr e => inr e
  | inl [] => inr ApiTls
  | inl (leaf :: _) => inl (sha256_fingerprint leaf)
  end.

(** ** Plain configurations *)

(** tls.rs 47-53, client_config_with_roots. *)
Definition client_config_with_roots (roots : RootCertStore) : ClientConfig := client_build roots.

(** tls.rs 63-73, client_config_with_client_cert. *)
Definition client_config_with_client_cert (roots : RootCertStore) (cert_chain : list CertificateDer)
    (key : PrivateKeyDer) : ClientConfig + ApiError :=
  match client_build_auth roots cert_chain key with Some cfg => inl cfg | None => inr ApiTls end.

(** tls.rs 78-87, server_config_single_cert. *)
Definition server_config_single_cert (cert_chain : list CertificateDer) (key : PrivateKeyDer) : ServerConfig + ApiError :=
  match server_build default_suites None cert_chain key with Some cfg => inl cfg | None => inr ApiTls end.

(** tls.rs 95-108, server_config_requiring_client_cert. *)
Definition server_config_requiring_client_cert (cert_chain : list CertificateDer) (key : PrivateKeyDer)
    (client_roots : RootCertStore) : ServerConfig + ApiError :=
  match webpki_build client_roots default_suites with
  | None => inr ApiTls
  | Some verifier =>
      match server_build default_suites (Some verifier) cert_chain key with
      | Some cfg => inl cfg
      | None => inr ApiTls
      end
  end.

(** ** Connecting and accepting *)

Context `{BC : BytesCrate} `{MP : Mpsc}.

(** tls.rs 140-165, tls_client_connect_with_policy. [connect] is the TCP
    connection with its options, [name_ok] the check of a server name,
    [handshake] the TLS handshake. [None] would be a wait, see
    [client_spawn_with_ft]. *)
Definition tls_client_connect_with_policy {Stream TlsStream} (connect : SocketAddr -> option Stream)
    (name_ok : string -> bool) (handshake : ClientConfig -> string -> Stream -> option TlsStream)
    (transport : Transport ClientConfig) (config : Config) : option ((Client104 * Driver) + ApiError) :=
  match transport with
  | TransportTcp _ => Some (inr ApiTls)
  | TransportTls addr server_name client_config =>
      match connect addr with
      | None => Some (inr ApiIo)
      | Some stream =>
          if name_ok server_name then
            match handshake client_config server_name stream with
            | None => Some (inr ApiTls)
            | Some _ =>
                match client_spawn_with_ft config false with
                | Some (inl client, driver) => Some (inl (client, driver))
                | Some (inr e, _) => Some (inr e)
                | None => None
                end
            end
          else Some (inr ApiTls)
      end
  end.

(** A connection as the listener returns it: the peer, the handshake it will
    go through, and whether its options can be set. *)
Record TcpPeer := mkTcpPeer { tp_addr : SocketAddr; tp_nodelay : bool; tp_handshake : Handshake }.

(** tls.rs 209-225, tls_server_accept_with_policy. [None] never returns. With
    the sessions of the acceptor. *)
Definition tls_server_accept_with_policy (now : UnixTime) (stream : TcpPeer) (cfg : ServerConfig) (ss : Sessions)
    (config : Config) : option (((ServerSender * ServerEvents * Driver) + ApiError) * Sessions) :=
  if tp_nodelay stream then
    match acceptor cfg now (tp_handshake stream) ss with
    | None => None
    | Some (false, ss) => Some (inr ApiTls, ss)
    | Some (true, ss) => Some (inl (server_spawn_with_ft (tp_addr stream) config), ss)
    end
  else Some (inr ApiIo, ss).

(** tls.rs 235-240, TlsServer. Without the listener, with the sessions its
    acceptor keeps. *)
Record TlsServer := mkTlsServer {
  ts_acceptor : ServerConfig; ts_config : Config; ts_filter : SocketAddr -> bool; ts_sessions : Sessions }.

(** tls.rs 291-305, TlsServer::bind_with. [listen] is the attempt to bind,
    [ss] the sessions the configuration has kept so far. *)
Definition TlsServer_bind_with (listen : SocketAddr -> bool) (addr : SocketAddr) (server_config : ServerConfig)
    (ss : Sessions) (config : Config) (ip_filter : SocketAddr -> bool) : TlsServer + ApiError :=
  if listen addr then inl (mkTlsServer server_config config ip_filter ss) else inr ApiIo.

(** tls.rs 268-276, TlsServer::bind_with_security. *)
Definition TlsServer_bind_with_security (listen : SocketAddr -> bool) (addr : SocketAddr) (config : Config)
    (tls_security : TlsSecurityConfig) (ip_filter : SocketAddr -> bool) : TlsServer + ApiError :=
  match build_server_config tls_security with
  | inr e => inr e
  | inl server_config => TlsServer_bind_with listen addr server_config no_sessions config ip_filter
  end.

(** tls.rs 282-289, TlsServer::bind_with_filter. *)
Definition TlsServer_bind_with_filter (listen : SocketAddr -> bool) (addr : SocketAddr) (server_config : ServerConfig)
    (ss : Sessions) (config : Config) (ip_filter : SocketAddr -> bool) : TlsServer + ApiError :=
  TlsServer_bind_with listen addr server_config ss config ip_filter.

(** tls.rs 253-259, TlsServer::bind. *)
Definition TlsServer_bind (listen : SocketAddr -> bool) (addr : SocketAddr) (server_config : ServerConfig)
    (ss : Sessions) (config : Config) : TlsServer + ApiError :=
  TlsServer_bind_with listen addr server_config ss config (fun _ => true).

(** tls.rs 330-337, TlsServer::accept_with_policy_and_handler (the loop). *)
Fixpoint tls_accept_loop (contains : SocketAddr -> bool) (incoming : list (option TcpPeer))
  : option ((TcpPeer + ApiError) * list (option TcpPeer)) :=
  match incoming with
  | [] => None
  | None :: incoming => Some (inr ApiIo, incoming)
  | Some stream :: incoming =>
      if contains (tp_addr stream) then Some (inl stream, incoming) else tls_accept_loop contains incoming
  end.

Definition with_sessions (ss : Sessions) (s : TlsServer) : TlsServer :=
  mkTlsServer (ts_acceptor s) (ts_config s) (ts_filter s) ss.

(** tls.rs 325-347, TlsServer::accept_with_policy_and_handler. *)
Definition TlsServer_accept (now : UnixTime) (s : TlsServer) (incoming : list (option TcpPeer))
  : option (((ServerSender * ServerEvents * Driver) + ApiError) * TlsServer * list (option TcpPeer)) :=
  match tls_accept_loop (ts_filter s) incoming with
  | None => None
  | Some (inr e, incoming) => Some (inr e, s, incoming)
  | Some (inl stream, incoming) =>
      match tls_server_accept_with_policy now stream (ts_acceptor s) (ts_sessions s) (ts_config s) with
      | None => None
      | Some (r, ss) => Some (r, with_sessions ss s, incoming)
      end
  end.

(** ** What the policy comes to *)

(** What a policy demands beyond a valid chain. *)
Definition policy_accepts (policy : ClientCertPolicy) (end_entity : CertificateDer) (ints : list CertificateDer) : Prop :=
  match policy with
  | CcpNone | CcpTrustChain => True
  | CcpPinnedFingerprints pins => sha256 end_entity ∈ pins
  | CcpCustomVerifier f => f (mkCertificateChain end_entity ints) = inl tt
  end.

Lemma verified_spec inner policy schemes end_entity ints now :
  verify_client_cert (pv_verifier (PolicyClientVerifier_new inner policy schemes)) end_entity ints now = inl tt <->
  verify_client_cert inner end_entity ints now = inl tt /\ policy_accepts policy end_entity ints.
Proof.
  cbn [pv_verifier verify_client_cert]. unfold pv_verify_client_cert. cbn [PolicyClientVerifier_new pv_inner pv_policy].
  destruct (verify_client_cert inner end_entity ints now) as [[]|e0]; [|by split; [|intros [? _]]].
  destruct policy as [| |pins|f]; cbn [policy_accepts]; [by split..| |].
  - unfold sha256_fingerprint. case_bool_decide; split; try done; by intros [].
  - destruct (f _) as [[]|e1]; split; try done; by intros [].
Qed.

(** The verifier layers the policy on chain validation: a certificate passes
    exactly when the chain is valid and the policy is satisfied. A chain that
    is not valid fails with the error of the validation, whatever the policy;
    a refusal by the policy is an application failure. *)
Theorem policy_verifier_exact inner policy schemes end_entity ints now :
  let v := pv_verifier (PolicyClientVerifier_new inner policy schemes) in
  (verify_client_cert v end_entity ints now = inl tt <->
    verify_client_cert inner end_entity ints now = inl tt /\ policy_accepts policy end_entity ints) /\
  ∀ e, verify_client_cert v end_entity ints now = inr e ->
    verify_client_cert inner end_entity ints now = inr e \/
    (verify_client_cert inner end_entity ints now = inl tt /\ ¬ policy_accepts policy end_entity ints /\
      e = application_verification_failure).
Proof.
  split; [apply verified_spec|]. intros e He. pose proof (verified_spec inner policy schemes end_entity ints now) as Hv.
  revert He Hv. cbn [pv_verifier verify_client_cert]. unfold pv_verify_client_cert.
  cbn [PolicyClientVerifier_new pv_inner pv_policy].
  destruct (verify_client_cert inner end_entity ints now) as [[]|e0]; [|intros [= <-]; by left]. intros He Hv. right.
  rewrite He in Hv. split_and!; [done|by intros Hp; destruct Hv as [_ Hv]; discriminate Hv|].
  revert He. destruct policy as [| |pins|f]; try done; repeat case_match; congruence.
Qed.

(** Only schemes that webpki supports and the list allows are advertised, in
    webpki's order. *)
Lemma schemes_advertised inner policy schemes s :
  s ∈ supported_verify_schemes (pv_verifier (PolicyClientVerifier_new inner policy schemes)) <->
  s ∈ supported_verify_schemes inner /\ match schemes with Some allow => s ∈ allow | None => True end.
Proof.
  cbn. unfold pv_supported_verify_schemes. cbn [PolicyClientVerifier_new pv_inner pv_signature_schemes].
  destruct schemes as [allow|]; [|tauto]. rewrite list_elem_of_filter. tauto.
Qed.

Lemma tls_accept_loop_spec contains incoming :
  match tls_accept_loop contains incoming with
  | Some (inl peer, rest) => ∃ pre, incoming = pre ++ Some peer :: rest /\
      Forall (fun p => match p with Some p => contains (tp_addr p) = false | None => False end) pre /\
      contains (tp_addr peer) = true
  | _ => True
  end.
Proof.
  induction incoming as [|[p|] incoming IH]; simpl; [done| |done].
  destruct (contains (tp_addr p)) eqn:Hp; [by exists []|].
  destruct (tls_accept_loop contains incoming) as [[[peer|e] rest]|]; [|done..].
  destruct IH as (pre & -> & H1 & H2). exists (Some p :: pre). split_and!; [done|by constructor|done].
Qed.

(** The suites a configuration is restricted to. *)
Definition configured_suites (c : TlsSecurityConfig) : list CipherSuite := default default_suites (cipher_suites c).

Lemma build_server_config_spec c cfg : build_server_config c = inl cfg ->
  cipher_suites c ≠ Some [] /\ sc_suites cfg = configured_suites c /\
  match client_cert_policy c with
  | CcpNone => sc_verifier cfg = None
  | policy => ∃ inner, webpki_build (client_roots c) (configured_suites c) = Some inner /\
      sc_verifier cfg = Some (pv_verifier (PolicyClientVerifier_new inner policy (signature_schemes c)))
  end.
Proof.
  unfold build_server_config, configured_suites.
  assert (∀ suites, (if negb (versions_ok suites) then inr ApiTls else
      match client_cert_policy c with
      | CcpNone => match server_build suites None (server_chain c) (server_key c) with Some cfg => inl cfg | None => inr ApiTls end
      | policy => match webpki_build (client_roots c) suites with
          | None => inr ApiTls
          | Some inner => match server_build suites (Some (pv_verifier (PolicyClientVerifier_new inner policy (signature_schemes c)))) (server_chain c) (server_key c) with
              | Some cfg => inl cfg | None => inr ApiTls end
          end
      end) = inl cfg ->
    sc_suites cfg = suites /\ match client_cert_policy c with
      | CcpNone => sc_verifier cfg = None
      | policy => ∃ inner, webpki_build (client_roots c) suites = Some inner /\
          sc_verifier cfg = Some (pv_verifier (PolicyClientVerifier_new inner policy (signature_schemes c)))
      end) as Hb.
  { intros suites. destruct (versions_ok suites); [|done]. cbn [negb].
    destruct (client_cert_policy c) eqn:Hp; repeat case_match; try done; intros [= <-];
      match goal with E : server_build _ _ _ _ = Some _ |- _ => apply server_build_law in E as [-> ->] end; eauto. }
  destruct (cipher_suites c) as [[|x l]|]; [done|..]; intros E; apply Hb in E as [-> E]; done.
Qed.

(** The loop passes over the peers the filter refuses without a look at their
    handshakes. *)
Lemma tls_accept_loop_skips contains pre peer rest : contains (tp_addr peer) = true ->
  Forall (fun p => match p with Some p => contains (tp_addr p) = false | None => False end) pre ->
  tls_accept_loop contains (pre ++ Some peer :: rest) = Some (inl peer, rest).
Proof. intros Hp. induction 1 as [|[p|] pre Hx _ IH]; cbn; [by rewrite Hp|by rewrite Hx|done]. Qed.

(** A server after calls of [accept] that have returned, at the given times. *)
Inductive tls_served (s0 : TlsServer) : list UnixTime -> TlsServer -> Prop :=
| served_none : tls_served s0 [] s0
| served_accept times s now incoming r s' rest : tls_served s0 times s ->
    TlsServer_accept now s incoming = Some (r, s', rest) -> tls_served s0 (now :: times) s'.

(** What is known of a chain: it was checked in full at one of the times. *)
Definition checked (v : ClientCertVerifier) (times : list UnixTime)
    (chain : option (CertificateDer * list CertificateDer)) : Prop :=
  match chain with
  | Some (leaf, ints) => ∃ t, t ∈ times /\ verify_client_cert v leaf ints t = inl tt
  | None => client_auth_mandatory v = false
  end.

Lemma checked_later v t times chain : checked v times chain -> checked v (t :: times) chain.
Proof. destruct chain as [[leaf ints]|]; [|done]. intros (u & Hu & Hv). exists u. split; [by apply elem_of_cons; right|done]. Qed.

(** One call: the connection it makes is checked now or resumes a session. *)
Lemma TlsServer_accept_spec now s incoming r s' rest v : TlsServer_accept now s incoming = Some (r, s', rest) ->
  sc_verifier (ts_acceptor s) = Some v -> offer_client_auth v = true ->
  ts_acceptor s' = ts_acceptor s /\ ts_filter s' = ts_filter s /\
  ∀ times, Forall (checked v times) (stored (ts_sessions s)) ->
    Forall (checked v (now :: times)) (stored (ts_sessions s')) /\
    ∀ conn, r = inl conn -> ∃ pre peer, incoming = pre ++ Some peer :: rest /\
      Forall (fun p => match p with Some p => ts_filter s (tp_addr p) = false | None => False end) pre /\
      ts_filter s (tp_addr peer) = true /\ ss_peer conn.1.1 = tp_addr peer /\
      checked v (now :: times) (peer_chain (tp_handshake peer)).
Proof.
  intros Ha Hv Ho. unfold TlsServer_accept in Ha. pose proof (tls_accept_loop_spec (ts_filter s) incoming) as Hl.
  assert (∀ times, Forall (checked v times) (stored (ts_sessions s)) -> Forall (checked v (now :: times)) (stored (ts_sessions s)))
    as Hold by (intros times Hx; eapply Forall_impl; [exact Hx|]; intros; by apply checked_later).
  destruct (tls_accept_loop (ts_filter s) incoming) as [[[peer|e] rest']|]; [| |done];
    [|injection Ha as <- <- <-; split; [done|]; split; [done|]; intros times Hx; split; [by apply Hold|done]].
  destruct Hl as (pre & -> & Hpre & Hf). unfold tls_server_accept_with_policy in Ha.
  destruct (tp_nodelay peer);
    [|injection Ha as <- <- <-; split; [done|]; split; [done|]; intros times Hx; split; [by apply Hold|done]].
  destruct (acceptor _ now (tp_handshake peer) (ts_sessions s)) as [[ok ss]|] eqn:Hh; [|done].
  assert (s' = with_sessions ss s /\ rest = rest' /\ ∀ conn, r = inl conn -> ok = true /\ ss_peer conn.1.1 = tp_addr peer)
    as (-> & -> & Hr) by (destruct ok; injection Ha as <- <- <-; split_and!; try done; by intros conn [= <-]).
  split; [done|]. split; [done|]. intros times Hst.
  assert (ok = true -> checked v (now :: times) (peer_chain (tp_handshake peer))) as Hnew.
  { intros ->. destruct (acceptor_law _ _ _ _ _ _ Hh Hv Ho) as [Hc|Hin].
    - destruct (peer_chain _) as [[leaf ints]|]; [|done]. exists now. by split; [constructor|].
    - apply checked_later. by apply (proj1 (Forall_forall _ _) Hst). }
  split.
  - apply Forall_forall. intros chain Hin. destruct (stored_law _ _ _ _ _ _ _ Hh Hin) as [Hi|[Hok ->]]; [|by apply Hnew].
    apply checked_later. by apply (proj1 (Forall_forall _ _) Hst).
  - intros conn Hc. destruct (Hr conn Hc) as [Hok Hpeer]. exists pre, peer. split_and!; try done. by apply Hnew.
Qed.

Lemma tls_served_spec s0 times s v : tls_served s0 times s -> sc_verifier (ts_acceptor s0) = Some v ->
  offer_client_auth v = true -> stored (ts_sessions s0) = [] ->
  ts_acceptor s = ts_acceptor s0 /\ ts_filter s = ts_filter s0 /\ Forall (checked v times) (stored (ts_sessions s)).
Proof.
  intros Hs Hv Ho He. induction Hs as [|times s now incoming r s' rest _ (IHa & IHf & IHs) Ha]; [by rewrite He|].
  destruct (TlsServer_accept_spec _ _ _ _ _ _ v Ha) as (H1 & H2 & H3); [congruence|done|].
  split; [congruence|]. split; [congruence|]. by apply H3.
Qed.

(** C22. A server that asks for certificates admits nobody without one. After
    any number of calls of [accept], the next one that returns a connection
    has passed over peers the filter refuses, whatever their handshakes would
    have come to, for it does not begin them; the peer it admits passes the
    filter and is known by a chain of certificates that was found valid for
    the configured roots, with a certificate that satisfies the policy, at the
    time of this call or, when the peer resumes a session, of an earlier one:
    rustls keeps sessions by default and does not ask the verifier again. *)
Theorem tls_admits listen addr config sec ip_filter s0 times s now incoming conn s' rest :
  TlsServer_bind_with_security listen addr config sec ip_filter = inl s0 ->
  client_cert_policy sec ≠ CcpNone -> tls_served s0 times s ->
  TlsServer_accept now s incoming = Some (inl conn, s', rest) ->
  ∃ pre peer inner end_entity ints t,
    incoming = pre ++ Some peer :: rest /\
    (∀ pre', Forall (fun p => match p with Some p => ip_filter (tp_addr p) = false | None => False end) pre' ->
       TlsServer_accept now s (pre' ++ Some peer :: rest) = Some (inl conn, s', rest)) /\
    Forall (fun p => match p with Some p => ip_filter (tp_addr p) = false | None => False end) pre /\
    ip_filter (tp_addr peer) = true /\ ss_peer conn.1.1 = tp_addr peer /\
    webpki_build (client_roots sec) (configured_suites sec) = Some inner /\
    peer_chain (tp_handshake peer) = Some (end_entity, ints) /\ t ∈ now :: times /\
    verify_client_cert inner end_entity ints t = inl tt /\
    policy_accepts (client_cert_policy sec) end_entity ints.
Proof.
  intros Hs Hp Hserved Ha. unfold TlsServer_bind_with_security, TlsServer_bind_with in Hs.
  destruct (build_server_config sec) as [cfg|] eqn:Hb; [|done]. destruct (listen addr); [|done]. injection Hs as <-.
  apply build_server_config_spec in Hb as (_ & _ & Hv).
  assert (∃ inner, webpki_build (client_roots sec) (configured_suites sec) = Some inner /\
    sc_verifier cfg = Some (pv_verifier (PolicyClientVerifier_new inner (client_cert_policy sec) (signature_schemes sec))))
    as (inner & Hi & Hc) by (destruct (client_cert_policy sec); done).
  destruct (webpki_law _ _ _ Hi) as [_ Hm].
  assert (pv_offer_client_auth (PolicyClientVerifier_new inner (client_cert_policy sec) (signature_schemes sec)) = true)
    as Hoff by (unfold pv_offer_client_auth; cbn; by destruct (client_cert_policy sec)).
  destruct (tls_served_spec _ _ _ _ Hserved Hc Hoff no_sessions_law) as (Hacc & Hfil & Hst). cbn in Hacc, Hfil.
  rewrite <- Hacc in Hc. destruct (TlsServer_accept_spec _ _ _ _ _ _ _ Ha Hc Hoff) as (_ & _ & Hspec).
  destruct (Hspec times Hst) as [_ Hx]. destruct (Hx conn eq_refl) as (pre & peer & -> & Hpre & Hf & Hpeer & Hck).
  rewrite Hfil in Hpre, Hf. destruct (peer_chain (tp_handshake peer)) as [[end_entity ints]|] eqn:Hpr; [|cbn in Hck; congruence].
  destruct Hck as (t & Ht & Hver). apply verified_spec in Hver as [H1 H2].
  exists pre, peer, inner, end_entity, ints, t. split_and!; try done. intros pre' Hpre'.
  rewrite <- Ha. unfold TlsServer_accept. rewrite Hfil. by rewrite !tls_accept_loop_skips.
Qed.

(** Without client certificates the restriction of the signature schemes, and
    the roots, are dropped in silence. *)
Lemma schemes_ignored_without_client_auth c schemes roots : client_cert_policy c = CcpNone ->
  build_server_config (mkTlsSecurityConfig (server_chain c) (server_key c) roots (cipher_suites c) schemes CcpNone) =
  build_server_config c.
Proof. intros Hp. unfold build_server_config. cbn. by rewrite Hp. Qed.

(** The handshake is a part of accepting: while a peer the filter lets
    through does not complete it, no later peer is accepted. *)
Lemma stalled_handshake_blocks now s peer rest : ts_filter s (tp_addr peer) = true -> tp_nodelay peer = true ->
  acceptor (ts_acceptor s) now (tp_handshake peer) (ts_sessions s) = None -> TlsServer_accept now s (Some peer :: rest) = None.
Proof.
  intros Hf Hn Ha. unfold TlsServer_accept, tls_server_accept_with_policy. cbn [tls_accept_loop]. by rewrite Hf, Hn, Ha.
Qed.

(** What is read from PEM files: the first certificate is the one that is
    pinned, and every certificate of every CA file becomes a root. *)
Lemma fingerprint_pins path text leaf certs : read_file path = Some text -> pem_certs text = Some (leaf :: certs) ->
  fingerprint_sha256_of_pem_file path = inl (sha256 leaf).
Proof. intros Hr Hc. unfold fingerprint_sha256_of_pem_file, load_certs. by rewrite Hr, Hc. Qed.

Lemma from_pem_paths_trusts cert key client_ca c : from_pem_paths cert key client_ca = inl c ->
  client_cert_policy c = CcpTrustChain /\ cipher_suites c = None /\ signature_schemes c = None /\
  load_certs cert = inl (server_chain c) /\ load_roots client_ca roots_empty = inl (client_roots c).
Proof.
  unfold from_pem_paths. destruct (load_certs cert); [|done]. destruct (load_private_key key); [|done].
  destruct (load_roots client_ca roots_empty); [|done]. by intros [= <-].
Qed.

End Tls.

(** ** The laws can hold *)

(** A toy: a chain is valid when one of its certificates is a root, the
    fingerprint is the certificate, and a peer is the chain it presents. *)
Module ToyTls.

#[local] Instance toy_types : RustlsTypes :=
  {| SignatureScheme := Z; CipherSuite := Z; DistinguishedName := unit; DigitallySignedStruct := unit;
     PrivateKeyDer := unit; RootCertStore := list bytes; UnixTime := Z; TlsError := bool |}.

Definition toy_webpki (roots : list bytes) : ClientCertVerifier :=
  mkClientCertVerifier [] true true
    (fun leaf ints _ => if bool_decide (Exists (fun c => c ∈ roots) (leaf :: ints)) then inl tt else inr false)
    (fun _ _ _ => inl tt) (fun _ _ _ => inl tt) [1; 2].

Definition toy_webpki_build (roots : list bytes) (suites : list Z) : option ClientCertVerifier :=
  match roots with [] => None | _ => Some (toy_webpki roots) end.

Abbreviation ToyConfig := (list Z * option ClientCertVerifier)%type.

(** [None] is a peer that does not complete the handshake; else whether it
    resumes a session, and its chain. *)
Abbreviation ToyHandshake := (option (bool * option (bytes * list bytes))).

Definition toy_chain (h : ToyHandshake) : option (bytes * list bytes) := match h with Some (_, p) => p | None => None end.

Definition toy_acceptor (cfg : ToyConfig) (now : Z) (h : ToyHandshake) (ss : list (option (bytes * list bytes)))
  : option (bool * list (option (bytes * list bytes))) :=
  match h with
  | None => None
  | Some (resume, chain) =>
      match snd cfg with
      | None => Some (true, ss)
      | Some v =>
          let ok := (resume && bool_decide (chain ∈ ss)) ||
            match chain with
            | Some (leaf, ints) => match verify_client_cert v leaf ints now with inl _ => true | inr _ => false end
            | None => negb (client_auth_mandatory v)
            end in
          Some (ok, if ok then chain :: ss else ss)
      end
  end.

#[local, program] Instance toy_rustls : Rustls :=
  {| ServerConfig := ToyConfig; ClientConfig := unit; Handshake := ToyHandshake;
     Sessions := list (option (bytes * list bytes));
     application_verification_failure := true; sha256 := fun b => b;
     pem_certs := fun b => Some [b]; pem_private_key := fun _ => Some (Some tt);
     roots_empty := []; roots_add := fun c roots => Some (c :: roots); default_suites := [1; 2; 3];
     versions_ok := fun _ => true; webpki_build := toy_webpki_build;
     server_build := fun suites v _ _ => Some (suites, v);
     client_build := fun _ => tt; client_build_auth := fun _ _ _ => Some tt;
     sc_suites := fst; sc_verifier := snd; no_sessions := []; stored := fun ss => ss;
     peer_chain := toy_chain; acceptor := toy_acceptor |}.
Next Obligation. intros suites v chain key cfg H. injection H as <-. by split. Qed.
Next Obligation. intros [|root roots] suites v H; [discriminate H|]. injection H as <-. by split. Qed.
Next Obligation. done. Qed.
Next Obligation.
  intros [suites v0] now h ss ss' v H E _. cbn in E. subst v0. revert H. unfold toy_acceptor. cbn [snd].
  destruct h as [[resume chain]|]; [|done]. intros [= Hok _]. cbn [toy_chain].
  apply orb_true_iff in Hok as [Hok|Hok]; [right; apply andb_true_iff in Hok as [_ Hok]; by apply bool_decide_eq_true in Hok|left].
  destruct chain as [[leaf ints]|]; [|by apply negb_true_iff]. by destruct (verify_client_cert v leaf ints now) as [[]|].
Qed.
Next Obligation.
  intros [suites v0] now h ss ok ss' chain H Hin. revert H. unfold toy_acceptor. cbn [snd].
  destruct h as [[resume c]|]; [|done]. destruct v0 as [v|]; [|intros [= <- <-]; by left].
  set (b := _ || _). intros [= <- <-]. clearbody b. destruct b; [|by left].
  apply elem_of_cons in Hin as [->|Hin]; [by right|by left].
Qed.

Definition ca : bytes := [9].
Definition device : bytes := [7; 7].
Definition pinned : TlsSecurityConfig := mkTlsSecurityConfig [[1]] tt [ca] None None (CcpPinnedFingerprints [device]).

(** Three peers: one from outside, whose handshake never ends, the device,
    and the device again, which resumes its session. *)
Definition stranger : option TcpPeer := Some (mkTcpPeer 66 true None).
Definition first_call : list (option TcpPeer) := [stranger; Some (mkTcpPeer 10 true (Some (false, Some (device, [ca]))))].
Definition second_call : list (option TcpPeer) := [stranger; Some (mkTcpPeer 11 true (Some (true, Some (device, [ca]))))].
Definition lan (addr : Z) : bool := addr <? 20.

Definition server : TlsServer + ApiError := TlsServer_bind_with_security (fun _ => true) 0 Config_default pinned lan.

Lemma tls_admits_witness :
  match server with
  | inl s0 =>
      match TlsServer_accept (MP := list_channels) 0 s0 first_call with
      | Some (inl _, s, _) =>
          match TlsServer_accept (MP := list_channels) 5 s second_call with
          | Some (inl conn, s', rest) => ∃ pre peer inner end_entity ints t,
              second_call = pre ++ Some peer :: rest /\
              (∀ pre', Forall (fun p => match p with Some p => lan (tp_addr p) = false | None => False end) pre' ->
                TlsServer_accept (MP := list_channels) 5 s (pre' ++ Some peer :: rest) = Some (inl conn, s', rest)) /\
              Forall (fun p => match p with Some p => lan (tp_addr p) = false | None => False end) pre /\
              lan (tp_addr peer) = true /\ ss_peer conn.1.1 = tp_addr peer /\
              webpki_build (client_roots pinned) (configured_suites pinned) = Some inner /\
              peer_chain (tp_handshake peer) = Some (end_entity, ints) /\ t ∈ [5; 0] /\
              verify_client_cert inner end_entity ints t = inl tt /\
              policy_accepts (client_cert_policy pinned) end_entity ints
          | _ => False
          end
      | _ => False
      end
  | inr _ => False
  end.
Proof.
  destruct server as [s0|] eqn:Es; [|discriminate Es].
  destruct (TlsServer_accept (RT := toy_types) 0 s0 first_call) as [[[[conn0|] s] rest0]|] eqn:E0;
    [|exfalso; injection Es as <-; discriminate E0..].
  destruct (TlsServer_accept (RT := toy_types) 5 s second_call) as [[[[conn|] s'] rest]|] eqn:Ea;
    [|exfalso; injection Es as <-; injection E0 as <- <- <-; discriminate Ea..].
  refine (tls_admits (RT := toy_types) (MP := list_channels) (fun _ => true) 0 Config_default pinned lan s0 [0] s 5 second_call conn s' rest Es _ _ Ea).
  - discriminate.
  - exact (served_accept s0 [] s0 0 first_call (inl conn0) s rest0 (served_none s0) E0).
Defined.

(** The others are turned away: by the handshake or by the policy. *)
Example not_admitted : ∀ s, server = inl s ->
  (∀ rest, (TlsServer_accept (MP := list_channels) 0 s (Some (mkTcpPeer 11 true (Some (false, None))) :: rest)) = Some (inr ApiTls, s, rest)) /\
  ∀ rest, TlsServer_accept (MP := list_channels) 0 s (Some (mkTcpPeer 11 true (Some (true, Some ([8], [ca])))) :: rest) = Some (inr ApiTls, s, rest).
Proof. intros s [= <-]. by split. Qed.

End ToyTls.
