(* ===== verification/Control.v ===== *)
(** * The control socket of the test tools

    [control.rs] of crates/iec60870-test-tools: the daemons answer requests
    that come in lines of JSON over a local socket. The JSON text of a value
    is serde's: it is the class [Json], whose law is that a value is one line
    that is not blank. Whether a text is read back as the value it was made
    from is a hypothesis on the value, since it fails for numbers that JSON
    does not have. UTF-8 and [str::trim] are written out. *)

From S2P Require Import Prelude Bytes Codec AsduHeader Asdu Points Simulator TestServer.

#[local] Open Scope Z_scope.

(** ** Text *)

(** Whether [b] continues a character. *)
Definition is_cont (b : Z) : bool := (0x80 <=? b) && (b <=? 0xBF).

(** [String::from_utf8] as a decoder: the characters of a valid text. *)
Fixpoint utf8_decode (bs : bytes) : option (list Z) :=
  match bs with
  | [] => Some []
  | b0 :: bs =>
      if b0 <? 0x80 then cons b0 <$> utf8_decode bs
      else if (0xC2 <=? b0) && (b0 <=? 0xDF) then
        match bs with
        | b1 :: bs =>
            if is_cont b1 then cons (Z.lor (Z.shiftl (Z.land b0 0x1F) 6) (Z.land b1 0x3F)) <$> utf8_decode bs
            else None
        | _ => None
        end
      else if (0xE0 <=? b0) && (b0 <=? 0xEF) then
        match bs with
        | b1 :: b2 :: bs =>
            if is_cont b1 && is_cont b2 && implb (b0 =? 0xE0) (0xA0 <=? b1) && implb (b0 =? 0xED) (b1 <=? 0x9F) then
              cons (Z.lor (Z.shiftl (Z.land b0 0x0F) 12) (Z.lor (Z.shiftl (Z.land b1 0x3F) 6) (Z.land b2 0x3F)))
                <$> utf8_decode bs
            else None
        | _ => None
        end
      else if (0xF0 <=? b0) && (b0 <=? 0xF4) then
        match bs with
        | b1 :: b2 :: b3 :: bs =>
            if is_cont b1 && is_cont b2 && is_cont b3 && implb (b0 =? 0xF0) (0x90 <=? b1) && implb (b0 =? 0xF4) (b1 <=? 0x8F)
            then cons (Z.lor (Z.shiftl (Z.land b0 0x07) 18) (Z.lor (Z.shiftl (Z.land b1 0x3F) 12)
                   (Z.lor (Z.shiftl (Z.land b2 0x3F) 6) (Z.land b3 0x3F)))) <$> utf8_decode bs
            else None
        | _ => None
        end
      else None
  end.

(** [char::is_whitespace] *)
Definition is_whitespace (c : Z) : bool :=
  ((9 <=? c) && (c <=? 13)) || bool_decide (c ∈ [32; 0x85; 0xA0; 0x1680; 0x2028; 0x2029; 0x202F; 0x205F; 0x3000])
  || ((0x2000 <=? c) && (c <=? 0x200A)).

Fixpoint trim_start (t : list Z) : list Z :=
  match t with
  | [] => []
  | c :: t' => if is_whitespace c then trim_start t' else t
  end.

(** [str::trim] *)
Definition trim (t : list Z) : list Z := reverse (trim_start (reverse (trim_start t))).

(** [AsyncBufReadExt::read_line]: up to and with the line break. *)
Fixpoint read_line (input : bytes) : bytes * bytes :=
  match input with
  | [] => ([], [])
  | b :: input => if b =? 10 then ([b], input) else let '(line, rest) := read_line input in (b :: line, rest)
  end.

(** ** JSON *)

Class Json (A : Type) := {
  to_vec : A -> bytes;
  from_str : list Z -> option A;
  to_vec_law : ∀ a, (10 ∉ to_vec a) /\ (∃ t, utf8_decode (to_vec a) = Some t /\ trim t = t /\ t ≠ []) }.

(** The text of a value is read back. *)
Definition survives {A} `{Json A} (a : A) : Prop := ∃ t, utf8_decode (to_vec a) = Some t /\ from_str t = Some a.

(** ** Lines *)

Lemma read_line_eq v rest : 10 ∉ v -> read_line (v ++ 10 :: rest) = (v ++ [10], rest).
Proof.
  induction v as [|b v IH]; intros H; [done|]. apply not_elem_of_cons in H as [Hb Hv]. cbn [app read_line].
  destruct (Z.eqb_spec b 10); [by subst|]. by rewrite IH.
Qed.

Lemma read_line_length input : (length (read_line input).2 + length (read_line input).1 = length input)%nat.
Proof.
  induction input as [|b input IH]; [done|]. cbn [read_line]. destruct (b =? 10); simpl; [lia|].
  destruct (read_line input) as [line rest]. simpl in *. lia.
Qed.

Lemma utf8_decode_app a b t : utf8_decode a = Some t -> utf8_decode (a ++ b) = app t <$> utf8_decode b.
Proof.
  revert t. induction a as [a IH] using (induction_ltof1 _ (@length Z)). unfold ltof in IH. intros t.
  assert (∀ a' c t, (length a' < length a)%nat -> cons c <$> utf8_decode a' = Some t ->
    cons c <$> utf8_decode (a' ++ b) = app t <$> utf8_decode b) as Hgo.
  { intros a' c t' Hl H. destruct (utf8_decode a') as [u|] eqn:E; [|done]. injection H as <-.
    rewrite (IH a' Hl u E). by destruct (utf8_decode b). }
  destruct a as [|b0 a]; [intros [= <-]; cbn; by destruct (utf8_decode b)|]. cbn [utf8_decode app].
  destruct (b0 <? 0x80); [intros H; apply Hgo; [simpl; lia|done]|].
  destruct ((0xC2 <=? b0) && (b0 <=? 0xDF)).
  { destruct a as [|b1 a]; [done|]. cbn [app]. destruct (is_cont b1); [|done]. intros H; apply Hgo; [simpl; lia|done]. }
  destruct ((0xE0 <=? b0) && (b0 <=? 0xEF)).
  { destruct a as [|b1 [|b2 a]]; [done..|]. cbn [app]. destruct (_ && _); [|done]. intros H; apply Hgo; [simpl; lia|done]. }
  destruct ((0xF0 <=? b0) && (b0 <=? 0xF4)); [|done].
  destruct a as [|b1 [|b2 [|b3 a]]]; [done..|]. cbn [app]. destruct (_ && _); [|done]. intros H; apply Hgo; [simpl; lia|done].
Qed.

Lemma trim_start_length t : (length (trim_start t) <= length t)%nat.
Proof. induction t as [|c t IH]; simpl; [done|]. destruct (is_whitespace c); simpl; lia. Qed.

Lemma trim_start_full t : length (trim_start t) = length t -> trim_start t = t.
Proof. destruct t as [|c t]; [done|]. simpl. pose proof (trim_start_length t). destruct (is_whitespace c); [lia|done]. Qed.

Lemma trim_line t : trim t = t -> t ≠ [] -> trim (t ++ [10]) = t.
Proof.
  intros H Hne. unfold trim in *. pose proof (f_equal length H) as Hl. rewrite length_reverse in Hl.
  pose proof (trim_start_length (reverse (trim_start t))) as H1. rewrite length_reverse in H1.
  pose proof (trim_start_length t) as H2. assert (trim_start t = t) as Ht by (apply trim_start_full; lia).
  rewrite Ht in *. assert (trim_start (reverse t) = reverse t) as Hr by (apply trim_start_full; rewrite length_reverse; lia).
  assert (trim_start (t ++ [10]) = t ++ [10]) as ->.
  { destruct t as [|c t]; [done|]. cbn [app trim_start] in *. destruct (is_whitespace c); [|done].
    exfalso. pose proof (trim_start_length t). rewrite Ht in *. simpl in *. lia. }
  rewrite reverse_app. change (reverse [10] ++ reverse t) with (10 :: reverse t). cbn [trim_start].
  change (is_whitespace 10) with true. cbn iota. by rewrite Hr, reverse_involutive.
Qed.

(** The text of a value is read as no value: [null] for a float that is no
    number. *)
Definition lost {A} `{Json A} (a : A) : Prop := ∃ t, utf8_decode (to_vec a) = Some t /\ from_str (A := A) t = None.

(** A line with the text of a value is read as that text. *)
Lemma json_line {A} `{Json A} (a : A) rest : survives a ->
  ∃ t c u, read_line (to_vec a ++ 10 :: rest) = (to_vec a ++ [10], rest) /\
    utf8_decode (to_vec a ++ [10]) = Some t /\ trim t = c :: u /\ from_str (c :: u) = Some a.
Proof.
  intros (t & Ht & Hf). destruct (to_vec_law a) as (Hn & t' & Ht' & Htrim & Hne). rewrite Ht in Ht'. injection Ht' as <-.
  destruct t as [|c u]; [done|]. exists ((c :: u) ++ [10]), c, u. split_and!.
  - by apply read_line_eq.
  - by rewrite (utf8_decode_app _ [10] _ Ht).
  - by apply trim_line.
  - done.
Qed.

Section Control.
Context `{!Json Request} `{!Json Response} `{!Json ToolEvent}.
(** The text of a parse error. *)
Context (parse_error : list Z -> string).

(** ** The daemon's side *)

(** iec60870-test-tools/src/control.rs 35-44, ControlHandler. [None] is a handler that panics;
    [subscribe_events] gives the events that are delivered before the stream
    is closed. *)
Class ControlHandler (S : Type) := {
  handle_request : Request -> S -> option (Response * S);
  subscribe_events : S -> option (list ToolEvent) * S }.

(** How a connection ends: in good order, with an error, with a panic of its
    task, or not yet. *)
Inductive ConnEnd := ConnOk | ConnErr | ConnPanics | ConnWaits.

(** iec60870-test-tools/src/control.rs 139-145, write_response. The octets of a response. *)
Definition write_response (resp : Response) : bytes := to_vec resp ++ [10].

(** iec60870-test-tools/src/control.rs 109-123, handle_connection (the event loop). [write_ok] says
    whether the n-th write works. *)
Fixpoint stream_events (write_ok : nat -> bool) (n : nat) (evts : list ToolEvent) : list bytes :=
  match evts with
  | [] => []
  | evt :: evts =>
      if write_ok n then (to_vec evt ++ [10]) :: stream_events write_ok (S n) evts else []
  end.

(** iec60870-test-tools/src/control.rs 79-136, handle_connection (the loop). [closed] says whether
    the peer has shut down its side after [input]. Each turn takes a line, so
    the octets bound the turns. *)
Fixpoint serve_lines {St} `{!ControlHandler St} (fuel : nat) (write_ok : nat -> bool) (closed : bool) (input : bytes)
    (out : list bytes) (st : St) : ConnEnd * list bytes * St :=
  match fuel with
  | O => (ConnWaits, out, st)
  | S fuel =>
      let '(line, rest) := read_line input in
      match line with
      | [] => (if closed then ConnOk else ConnWaits, out, st)
      | _ =>
          if negb closed && negb (bool_decide (10 ∈ line)) then (ConnWaits, out, st) else
          match utf8_decode line with
          | None => (ConnErr, out, st)
          | Some text =>
              let reply (resp : Response) (next : list bytes -> ConnEnd * list bytes * St) (st : St) :=
                if write_ok (length out) then next (out ++ [write_response resp]) else (ConnErr, out, st) in
              match trim text with
              | [] => serve_lines fuel write_ok closed rest out st
              | trimmed =>
                  match from_str trimmed with
                  | None =>
                      reply (RespErr (ReText ("parse: " ++ parse_error trimmed)))
                        (fun out => serve_lines fuel write_ok closed rest out st) st
                  | Some RqEvents =>
                      let '(rx, st) := subscribe_events st in
                      match rx with
                      | None => reply (RespErr (ReText "events not supported"))
                                  (fun out => serve_lines fuel write_ok closed rest out st) st
                      | Some evts =>
                          reply (RespOk RdSubscribed)
                            (fun out => (ConnOk, out ++ stream_events write_ok (length out) evts, st)) st
                      end
                  | Some RqShutdown =>
                      match handle_request RqShutdown st with
                      | None => (ConnPanics, out, st)
                      | Some (resp, st) => reply resp (fun out => (ConnOk, out, st)) st
                      end
                  | Some other =>
                      match handle_request other st with
                      | None => (ConnPanics, out, st)
                      | Some (resp, st) => reply resp (fun out => serve_lines fuel write_ok closed rest out st) st
                      end
                  end
              end
          end
      end
  end.

(** iec60870-test-tools/src/control.rs 74-137, handle_connection. *)
Definition handle_connection {St} `{!ControlHandler St} (write_ok : nat -> bool) (closed : bool) (input : bytes) (st : St)
  : ConnEnd * list bytes * St :=
  serve_lines (S (length input)) write_ok closed input [] st.

(** ** The caller's side *)

Inductive CallError := CallConnect | CallIo | CallNoResponse | CallParse.

(** iec60870-test-tools/src/control.rs 148-169, call. [daemon] is what comes back for what is sent,
    [None] if the socket cannot be connected. *)
Definition call_daemon (daemon : option (bytes -> bytes)) (req : Request) : Response + CallError :=
  match daemon with
  | None => inr CallConnect
  | Some daemon =>
      let payload := to_vec req in
      let '(line, _) := read_line (daemon (payload ++ [10])) in
      match utf8_decode line with
      | None => inr CallIo
      | Some text =>
          match trim text with
          | [] => inr CallNoResponse
          | trimmed => match from_str trimmed with Some resp => inl resp | None => inr CallParse end
          end
      end
  end.

(** iec60870-test-tools/src/control.rs 193-207, follow_events (the loop). The events for which
    [on_event] is called; [false] is an error of the socket. *)
Fixpoint follow_lines (fuel : nat) (input : bytes) : list ToolEvent * bool :=
  match fuel with
  | O => ([], true)
  | S fuel =>
      let '(line, rest) := read_line input in
      match line with
      | [] => ([], true)
      | _ =>
          match utf8_decode line with
          | None => ([], false)
          | Some text =>
              let '(evts, ok) := follow_lines fuel rest in
              match trim text with
              | [] => (evts, ok)
              | trimmed => match from_str trimmed with Some evt => (evt :: evts, ok) | None => (evts, ok) end
              end
          end
      end
  end.

(** iec60870-test-tools/src/control.rs 173-208, follow_events. The first line is thrown away. *)
Definition follow_events (daemon : bytes -> bytes) : list ToolEvent * bool :=
  let '(ack, rest) := read_line (daemon (to_vec RqEvents ++ [10])) in
  match utf8_decode ack with
  | None => ([], false)
  | Some _ => follow_lines (S (length rest)) rest
  end.

(** ** Lines are answered in order *)

Section Serve.
Context {St : Type} `{!ControlHandler St}.

Definition is_plain (req : Request) : bool := match req with RqEvents | RqShutdown => false | _ => true end.

Lemma serve_lines_request fuel write_ok closed req rest out st : survives req -> is_plain req = true ->
  serve_lines (S fuel) write_ok closed (to_vec req ++ 10 :: rest) out st =
  match handle_request req st with
  | None => (ConnPanics, out, st)
  | Some (resp, st') =>
      if write_ok (length out) then serve_lines fuel write_ok closed rest (out ++ [write_response resp]) st'
      else (ConnErr, out, st')
  end.
Proof.
  intros Hs Hp. destruct (json_line req rest Hs) as (t & c & u & E1 & E2 & E3 & E4).
  cbn [serve_lines]. rewrite E1.
  assert (∃ b l, to_vec req ++ [10] = b :: l) as (b & l & Hb) by (destruct (to_vec req); by eexists _, _).
  rewrite Hb, <- Hb. rewrite bool_decide_true by (apply elem_of_app; right; apply list_elem_of_here).
  cbn [negb]. rewrite andb_false_r, E2, E3, E4. by destruct req.
Qed.

Definition request_lines (reqs : list Request) : bytes := concat ((fun r => to_vec r ++ [10]) <$> reqs).

Lemma request_lines_cons req reqs : request_lines (req :: reqs) = to_vec req ++ 10 :: request_lines reqs.
Proof. unfold request_lines. cbn. by rewrite <- app_assoc. Qed.

(** A line that is not a request is answered with an error, and the
    connection goes on as if it had not been there. *)
Lemma serve_lines_garbage fuel write_ok closed line rest out st t : 10 ∉ line -> utf8_decode line = Some t ->
  trim (t ++ [10]) ≠ [] -> from_str (A := Request) (trim (t ++ [10])) = None ->
  serve_lines (S fuel) write_ok closed (line ++ 10 :: rest) out st =
  let resp := write_response (RespErr (ReText ("parse: " ++ parse_error (trim (t ++ [10]))))) in
  if write_ok (length out) then serve_lines fuel write_ok closed rest (out ++ [resp]) st else (ConnErr, out, st).
Proof.
  intros Hn Ht Hne Hf. cbn [serve_lines]. rewrite read_line_eq by done.
  assert (∃ b l, line ++ [10] = b :: l) as (b & l & Hb) by (destruct line; by eexists _, _).
  rewrite Hb, <- Hb. rewrite bool_decide_true by (apply elem_of_app; right; apply list_elem_of_here).
  cbn [negb]. rewrite andb_false_r, (utf8_decode_app _ [10] _ Ht). cbn [fmap option_fmap option_map utf8_decode].
  change (10 <? 0x80) with true. cbn iota. cbn [fmap option_fmap option_map].
  destruct (trim (t ++ [10])) as [|c u] eqn:Et; [done|]. by rewrite Hf.
Qed.

(** A request whose text is no request. *)
Lemma lost_answered (req : Request) st : lost req ->
  ∃ t, utf8_decode (to_vec req) = Some t /\
    handle_connection (fun _ => true) true (to_vec req ++ [10]) st =
      (ConnOk, [write_response (RespErr (ReText ("parse: " ++ parse_error t)))], st).
Proof.
  intros (t & Ht & Hf). exists t. split; [done|]. destruct (to_vec_law req) as (Hn & t' & Ht' & Htrim & Hne).
  rewrite Ht in Ht'. injection Ht' as <-. pose proof (trim_line t Htrim Hne) as Hl. unfold handle_connection.
  rewrite (serve_lines_garbage _ _ _ (to_vec req) [] [] st t); rewrite ?Hl; try done.
  rewrite length_app, Nat.add_1_r. done.
Qed.

(** What the daemon's connection sends back. *)
Definition daemon (closed : bool) (st : St) (sent : bytes) : bytes :=
  concat (handle_connection (fun _ => true) closed sent st).1.2.

Lemma serve_lines_end fuel write_ok closed out st :
  serve_lines (S fuel) write_ok closed [] out st = (if closed then ConnOk else ConnWaits, out, st).
Proof. done. Qed.

(** The two requests that end a connection. *)
Lemma serve_lines_last fuel write_ok closed req rest out st : survives req -> is_plain req = false ->
  serve_lines (S fuel) write_ok closed (to_vec req ++ 10 :: rest) out st =
  match req with
  | RqEvents =>
      let '(rx, st) := subscribe_events st in
      match rx with
      | None =>
          if write_ok (length out)
          then serve_lines fuel write_ok closed rest (out ++ [write_response (RespErr (ReText "events not supported"))]) st
          else (ConnErr, out, st)
      | Some evts =>
          if write_ok (length out) then
            let out := out ++ [write_response (RespOk RdSubscribed)] in
            (ConnOk, out ++ stream_events write_ok (length out) evts, st)
          else (ConnErr, out, st)
      end
  | _ =>
      match handle_request req st with
      | None => (ConnPanics, out, st)
      | Some (resp, st) =>
          if write_ok (length out) then (ConnOk, out ++ [write_response resp], st) else (ConnErr, out, st)
      end
  end.
Proof.
  intros Hs Hp. destruct (json_line req rest Hs) as (t & c & u & E1 & E2 & E3 & E4).
  cbn [serve_lines]. rewrite E1.
  assert (∃ b l, to_vec req ++ [10] = b :: l) as (b & l & Hb) by (destruct (to_vec req); by eexists _, _).
  rewrite Hb, <- Hb. rewrite bool_decide_true by (apply elem_of_app; right; apply list_elem_of_here).
  cbn [negb]. rewrite andb_false_r, E2, E3, E4. by destruct req.
Qed.

(** ** A connection as a sequence of requests *)

(** The answer to one request: the response, the events that are streamed
    after it, and whether the connection goes on. [None] is a handler that
    panics. *)
Definition answer (req : Request) (st : St) : option (Response * list ToolEvent * bool * St) :=
  match req with
  | RqEvents =>
      let '(rx, st) := subscribe_events st in
      match rx with
      | None => Some (RespErr (ReText "events not supported"), [], true, st)
      | Some evts => Some (RespOk RdSubscribed, evts, false, st)
      end
  | _ =>
      match handle_request req st with
      | None => None
      | Some (resp, st) => Some (resp, [], is_plain req, st)
      end
  end.

(** The answers to requests, from the [n]-th write on: up to one that ends the
    connection, one whose handler panics or one whose response cannot be
    written. *)
Fixpoint answer_all (write_ok : nat -> bool) (closed : bool) (n : nat) (reqs : list Request) (st : St)
  : ConnEnd * list bytes * St :=
  match reqs with
  | [] => (if closed then ConnOk else ConnWaits, [], st)
  | req :: reqs =>
      match answer req st with
      | None => (ConnPanics, [], st)
      | Some (resp, evts, more, st) =>
          if write_ok n then
            if more then
              let '(e, out, st) := answer_all write_ok closed (S n) reqs st in (e, write_response resp :: out, st)
            else (ConnOk, write_response resp :: stream_events write_ok (S n) evts, st)
          else (ConnErr, [], st)
      end
  end.

Lemma answer_all_cons write_ok closed n req reqs st resp evts st' : answer req st = Some (resp, evts, true, st') ->
  write_ok n = true ->
  answer_all write_ok closed n (req :: reqs) st =
  let '(e, out, st) := answer_all write_ok closed (S n) reqs st' in (e, write_response resp :: out, st).
Proof. intros Ha Hw. cbn [answer_all]. by rewrite Ha, Hw. Qed.

Lemma serve_lines_answer fuel write_ok closed req rest out st : survives req ->
  serve_lines (S fuel) write_ok closed (to_vec req ++ 10 :: rest) out st =
  match answer req st with
  | None => (ConnPanics, out, st)
  | Some (resp, evts, more, st') =>
      if write_ok (length out) then
        let out := out ++ [write_response resp] in
        if more then serve_lines fuel write_ok closed rest out st'
        else (ConnOk, out ++ stream_events write_ok (length out) evts, st')
      else (ConnErr, out, st')
  end.
Proof.
  intros Hs. destruct (is_plain req) eqn:Hp.
  - rewrite serve_lines_request by done.
    assert (answer req st = match handle_request req st with
      | None => None | Some (resp, st) => Some (resp, [], true, st) end) as ->
      by (unfold answer; rewrite Hp; by destruct req).
    by destruct (handle_request req st) as [[resp st1]|].
  - rewrite serve_lines_last by done. destruct req; try done; unfold answer.
    + destruct (handle_request RqShutdown st) as [[resp st1]|]; [|done]. cbn. by rewrite app_nil_r.
    + by destruct (subscribe_events st) as [[evts|] st1].
Qed.

Lemma serve_lines_all reqs fuel write_ok closed out st : Forall survives reqs ->
  (length (request_lines reqs) < fuel)%nat ->
  serve_lines fuel write_ok closed (request_lines reqs) out st =
  let '(e, answers, st') := answer_all write_ok closed (length out) reqs st in (e, out ++ answers, st').
Proof.
  intros Hs. revert fuel out st. induction reqs as [|req reqs IH]; intros fuel out st Hf.
  { destruct fuel; [simpl in Hf; lia|]. cbn. by rewrite app_nil_r. }
  apply Forall_cons in Hs as [Hs1 Hs2]. rewrite request_lines_cons in *.
  rewrite length_app in Hf. simpl in Hf. destruct fuel as [|fuel]; [lia|].
  rewrite serve_lines_answer by done. cbn [answer_all].
  destruct (answer req st) as [[[[resp evts] []] st1]|]; cbn zeta;
    [|..|by rewrite app_nil_r]; (destruct (write_ok (length out)); [|by rewrite app_nil_r]).
  - rewrite IH by (done || lia). rewrite length_app, Nat.add_1_r.
    destruct (answer_all write_ok closed _ reqs st1) as [[e answers] st2]. by rewrite <- app_assoc.
  - by rewrite length_app, Nat.add_1_r, <- app_assoc.
Qed.

(** C30. A connection to the control socket, octet by octet, is a sequence of
    requests. Requests that follow each other on it, however early they are
    sent and whatever they are, provided that their JSON is read back, are
    handled in their order, each once, and answered in their order, a line
    each, as long as the responses can be written; a [Shutdown], a
    subscription to the events, a panic and a failing write end the
    connection, and what has been sent after that is not handled. *)
Theorem control_pipelined reqs write_ok closed st : Forall survives reqs ->
  handle_connection write_ok closed (request_lines reqs) st = answer_all write_ok closed 0 reqs st.
Proof.
  intros Hs. unfold handle_connection. rewrite serve_lines_all by (done || lia). cbn [length app].
  by destruct (answer_all write_ok closed 0 reqs st) as [[]].
Qed.

(** When everything can be written and nothing ends the connection, there is a
    line for every request. *)
Lemma answered_each closed reqs n st e out st' : Forall (fun r => is_plain r = true) reqs ->
  answer_all (fun _ => true) closed n reqs st = (e, out, st') -> e ≠ ConnPanics ->
  length out = length reqs /\ e = (if closed then ConnOk else ConnWaits).
Proof.
  intros Hp. revert n st out. induction Hp as [|req reqs Hp _ IH]; intros n st out; cbn [answer_all]; [by intros [= <- <- _]|].
  assert (answer req st = match handle_request req st with
    | None => None | Some (resp, st) => Some (resp, [], true, st) end) as ->
    by (unfold answer; rewrite Hp; by destruct req).
  destruct (handle_request req st) as [[resp st1]|]; [|by intros [= <- _ _]].
  destruct (answer_all _ closed (S n) reqs st1) as [[e1 out1] st2] eqn:E. intros [= <- <- <-] He.
  destruct (IH _ _ _ E He) as [Hl ->]. cbn [length]. by rewrite Hl.
Qed.

Lemma daemon_answers req st resp st' : survives req -> req ≠ RqEvents -> handle_request req st = Some (resp, st') ->
  handle_connection (fun _ => true) true (to_vec req ++ [10]) st = (ConnOk, [write_response resp], st').
Proof.
  intros Hs Hne Hh. unfold handle_connection. destruct (is_plain req) eqn:Hp.
  - rewrite serve_lines_request, Hh by done. rewrite length_app, Nat.add_1_r. by rewrite serve_lines_end.
  - rewrite serve_lines_last by done. destruct req; try done. by rewrite Hh.
Qed.

Lemma response_line resp rest : survives resp ->
  match utf8_decode (read_line (write_response resp ++ rest)).1 with
  | Some text => ∃ c u, trim text = c :: u /\ from_str (c :: u) = Some resp
  | None => False
  end.
Proof.
  intros Hs. destruct (json_line resp rest Hs) as (t & c & u & E1 & E2 & E3 & E4).
  unfold write_response. rewrite <- app_assoc. change ([10] ++ rest) with (10 :: rest). rewrite E1. cbn [fst].
  rewrite E2. by exists c, u.
Qed.

(** What [call] makes of what a connection has sent. *)
Lemma response_read (sent : bytes -> bytes) req resp : sent (to_vec req ++ [10]) = write_response resp ++ [] ->
  survives resp -> call_daemon (Some sent) req = inl resp.
Proof.
  intros Hd Hr. unfold call_daemon. rewrite Hd. pose proof (response_line _ [] Hr) as H.
  destruct (read_line (write_response resp ++ [])) as [line rest]. cbn [fst] in H.
  destruct (utf8_decode line) as [text|]; [|done]. destruct H as (c & u & -> & ->). done.
Qed.

(** One call is one request handled: the caller gets the response the daemon's
    handler has given, and the state is the handler's. *)
Theorem control_call req st resp st' : survives req -> req ≠ RqEvents -> handle_request req st = Some (resp, st') ->
  survives resp ->
  call_daemon (Some (daemon true st)) req = inl resp /\
  handle_connection (fun _ => true) true (to_vec req ++ [10]) st = (ConnOk, [write_response resp], st').
Proof.
  intros Hs Hne Hh Hr. split; [|by apply daemon_answers]. apply response_read; [|done].
  unfold daemon. by rewrite (daemon_answers _ _ _ _ Hs Hne Hh).
Qed.

(** A request whose handler panics gets no answer. *)
Lemma panic_unanswered req st : survives req -> req ≠ RqEvents -> handle_request req st = None ->
  call_daemon (Some (daemon true st)) req = inr CallNoResponse.
Proof.
  intros Hs Hne Hh. unfold call_daemon, daemon, handle_connection. destruct (is_plain req) eqn:Hp.
  - by rewrite serve_lines_request, Hh.
  - rewrite serve_lines_last by done. destruct req; try done. by rewrite Hh.
Qed.

Lemma stream_events_all n evts : stream_events (fun _ => true) n evts = (fun e => to_vec e ++ [10]) <$> evts.
Proof. revert n. induction evts as [|e evts IH]; intros n; [done|]. cbn [stream_events]. by rewrite IH. Qed.

Lemma follow_lines_all evts fuel : Forall survives evts ->
  (length (concat ((fun e => to_vec e ++ [10%Z]) <$> evts)) < fuel)%nat ->
  follow_lines fuel (concat ((fun e => to_vec e ++ [10]) <$> evts)) = (evts, true).
Proof.
  intros Hs. revert fuel. induction Hs as [|e evts He _ IH]; intros fuel Hf; (destruct fuel as [|fuel]; [simpl in Hf; lia|]); [done|].
  cbn [fmap list_fmap concat] in *. rewrite !length_app in Hf. simpl in Hf. rewrite <- app_assoc.
  destruct (json_line e (concat ((fun e => to_vec e ++ [10]) <$> evts)) He) as (t & c & u & E1 & E2 & E3 & E4).
  cbn [follow_lines app]. rewrite E1.
  assert (∃ b l, to_vec e ++ [10] = b :: l) as (b & l & Hb) by (destruct (to_vec e); by eexists _, _).
  rewrite Hb, <- Hb, E2, IH by lia. by rewrite E3, E4.
Qed.

(** Whoever follows the events is told each of them once, in order. *)
Theorem events_followed st st' evts : survives RqEvents -> subscribe_events st = (Some evts, st') -> Forall survives evts ->
  follow_events (daemon false st) = (evts, true).
Proof.
  intros Hr Hsub Hs. unfold follow_events, daemon, handle_connection. rewrite serve_lines_last, Hsub by done.
  cbn [fst snd app length]. rewrite stream_events_all. cbn [concat].
  destruct (to_vec_law (RespOk RdSubscribed)) as (Hn & t & Ht & _). unfold write_response at 1. rewrite <- app_assoc.
  change ([10] ++ ?x) with (10 :: x). rewrite read_line_eq by done.
  rewrite (utf8_decode_app _ [10] _ Ht). cbn [fmap option_fmap option_map utf8_decode].
  change (10 <? 0x80) with true. cbn iota. cbn [fmap option_fmap option_map].
  by apply follow_lines_all; [|lia].
Qed.

(** A daemon that has no events answers with an error and waits for the next
    request; the caller takes the error for the acknowledgement and waits
    for events. *)
Lemma refused_events_hang st st' : survives RqEvents -> subscribe_events st = (None, st') ->
  handle_connection (fun _ => true) false (to_vec RqEvents ++ [10]) st =
  (ConnWaits, [write_response (RespErr (ReText "events not supported"))], st').
Proof.
  intros Hr Hsub. unfold handle_connection. rewrite serve_lines_last, Hsub by done. cbn [length app].
  rewrite length_app, Nat.add_1_r. done.
Qed.

End Serve.
End Control.
