(* ===== verification/Cli.v ===== *)
(** * The command lines of the test tools

    The arguments of [bin/server.rs] and [bin/client.rs] once clap has parsed
    them, and what [main] makes of them: a request to the daemon, or the
    settings of a daemon. The transport of [transport.rs] is resolved here.
    Numbers are parsed as [str::parse] does; the case of letters beyond ASCII
    does not matter, since no such letter has one of the keywords' letters as
    its lower case but the Kelvin sign, a k, which is in none of them. *)

From S2P Require Import Prelude Bytes Codec AsduHeader Float64 Float32 Points Simulator TestServer Redundancy Frame101.
From Stdlib Require Import Strings.String Strings.Ascii Floats.SpecFloat.

#[local] Open Scope string_scope.
#[local] Open Scope list_scope.
#[local] Open Scope Z_scope.

(** ** Numbers in text *)

Fixpoint str_chars (s : string) : list Z :=
  match s with EmptyString => [] | String a s => Z.of_N (N_of_ascii a) :: str_chars s end.

(** [u8::to_ascii_lowercase] *)
Definition lower_char (c : Z) : Z := if (65 <=? c) && (c <=? 90) then c + 32 else c.
Definition str_lower (s : string) : list Z := lower_char <$> str_chars s.

(** [char::to_digit] *)
Definition digit_of (radix c : Z) : option Z :=
  let d := if (48 <=? c) && (c <=? 57) then c - 48
           else if (97 <=? lower_char c) && (lower_char c <=? 122) then lower_char c - 87
           else radix in
  if d <? radix then Some d else None.

Fixpoint digits_value (radix acc : Z) (cs : list Z) : option Z :=
  match cs with
  | [] => Some acc
  | c :: cs => match digit_of radix c with Some d => digits_value radix (acc * radix + d) cs | None => None end
  end.

(** [from_str_radix] of an integer type with the values from [lo] to [hi]:
    a sign, [-] only for a signed type, and at least one digit. *)
Definition parse_int (lo hi radix : Z) (cs : list Z) : option Z :=
  let '(neg, cs) := match cs with
                    | c :: cs' => if c =? 43 then (false, cs')
                                  else if (c =? 45) && (lo <? 0) then (true, cs') else (false, cs)
                    | [] => (false, [])
                    end in
  match cs with
  | [] => None
  | _ =>
      match digits_value radix 0 cs with
      | Some n => let n := if neg then - n else n in if (lo <=? n) && (n <=? hi) then Some n else None
      | None => None
      end
  end.

(** The longest prefix of decimal digits, and the rest. *)
Fixpoint span_digits (cs : list Z) : list Z * list Z :=
  match cs with
  | c :: cs' => if (48 <=? c) && (c <=? 57) then let '(ds, rest) := span_digits cs' in (c :: ds, rest) else ([], cs)
  | [] => ([], [])
  end.

(** The exponent, if there is one. *)
Definition parse_exponent (cs : list Z) : option Z :=
  match cs with
  | [] => Some 0
  | c :: cs => if lower_char c =? 101 then let bound := 10 ^ Z.of_nat (List.length cs) in parse_int (- bound) bound 10 cs else None
  end.

(** [m * 10^e], rounded to binary32. *)
Definition f32_of_decimal (m e : Z) : F32 :=
  if m =? 0 then S754_zero false
  else if 0 <=? e then f32_of_int (m * 10 ^ e)
  else SFdiv 24 128 (S754_finite false (Z.to_pos m) 0) (S754_finite false (Z.to_pos (10 ^ (- e))) 0).

(** [f32::from_str], as the bits. *)
Definition parse_f32 (cs : list Z) : option Z :=
  let '(neg, cs) := match cs with
                    | c :: cs' => if c =? 43 then (false, cs') else if c =? 45 then (true, cs') else (false, cs)
                    | [] => (false, [])
                    end in
  let signed b := if neg : bool then b + 0x80000000 else b in
  let '(int, rest) := span_digits cs in
  let '(frac, rest) := match rest with
                       | c :: rest' => if c =? 46 then span_digits rest' else ([], rest)
                       | [] => ([], rest)
                       end in
  match (int ++ frac)%list with
  | [] =>
      if bool_decide (lower_char <$> cs = str_chars "inf") || bool_decide (lower_char <$> cs = str_chars "infinity")
      then Some (signed 0x7F800000)
      else if bool_decide (lower_char <$> cs = str_chars "nan") then Some (signed 0x7FC00000) else None
  | ds =>
      match digits_value 10 0 ds, parse_exponent rest with
      | Some m, Some e => Some (signed (bits_of_f32 (f32_of_decimal m (e - Z.of_nat (List.length frac)))))
      | _, _ => None
      end
  end.

(** [1] is read exactly, [0.1] is rounded up, ties go to even, and what is
    too large or too small ends in infinity or zero. *)
Example parse_f32_samples :
  parse_f32 <$> map str_chars ["1"; "0.1"; "-.5"; "16777217"; "3.4028235e38"; "1e39"; "1e-45"; "1E-46"; "-inf"; "NaN"; "."; "1e"; ""; "+-1"] =
  [Some 0x3F800000; Some 0x3DCCCCCD; Some 0xBF000000; Some 0x4B800000; Some 0x7F7FFFFF; Some 0x7F800000; Some 1; Some 0;
   Some 0xFF800000; Some 0x7FC00000; None; None; None; None].
Proof. vm_compute. reflexivity. Qed.

(** bin/client.rs 1336-1342, parse_nof. *)
Definition parse_nof (s : string) : option Z :=
  match str_chars s with
  | 48 :: c :: hex => if (c =? 120) || (c =? 88) then parse_int 0 65535 16 hex else parse_int 0 65535 10 (str_chars s)
  | cs => parse_int 0 65535 10 cs
  end.

(** [kind.to_lowercase().replace('-', _)] *)
Definition kind_chars (kind : string) : list Z := (fun c => if c =? 45 then 95 else c) <$> str_lower kind.

Definition one_of (cs : list Z) (names : list string) : bool := existsb (fun n => bool_decide (cs = str_chars n)) names.

(** bin/server.rs 1275-1311, parse_point_value. *)
Definition parse_point_value (kind value : string) : option PointValue :=
  let k := kind_chars kind in
  if one_of k ["sp_na"; "sp_tb"] then
    if bool_decide (value = "true") then Some (PvSingle true)
    else if bool_decide (value = "false") then Some (PvSingle false) else None
  else if one_of k ["dp_na"; "dp_tb"] then
    let v := str_lower value in
    if one_of v ["off"; "false"; "0"] then Some (PvDouble DwOff)
    else if one_of v ["on"; "true"; "1"] then Some (PvDouble DwOn)
    else if one_of v ["intermediate"] then Some (PvDouble DwIntermediate)
    else if one_of v ["indeterminate"] then Some (PvDouble DwIndeterminate) else None
  else if one_of k ["me_na"; "me_td"] then PvNormalized <$> parse_f32 (str_chars value)
  else if one_of k ["me_nb"; "me_te"] then PvScaled <$> parse_int (-32768) 32767 10 (str_chars value)
  else if one_of k ["me_nc"; "me_tf"] then PvFloat <$> parse_f32 (str_chars value)
  else None.

(** ** Transports *)

(** iec60870-test-tools/src/transport.rs 25-29, LinkAddrSize. *)
Inductive LinkAddrSize := LasOne | LasTwo.

(** iec60870-test-tools/src/transport.rs 32-37, LinkAddrSize::to_proto. *)
Definition to_proto (s : LinkAddrSize) : LinkAddressSize := match s with LasOne => LaOne | LasTwo => LaTwo end.

(** iec60870-test-tools/src/transport.rs 42-71, TransportArgs. *)
Record TransportArgs := mkTransportArgs {
  ta_transport : TransportKind; ta_addr : option SocketAddr; ta_serial : option string; ta_baud : Z;
  ta_link_addr : Z; ta_link_addr_size : LinkAddrSize; ta_coa : Z }.

(** iec60870-test-tools/src/transport.rs 75-87, TransportChoice. *)
Inductive TransportChoice :=
| TcTcp (addr : SocketAddr) (coa : Z)
| TcSerial (path : string) (baud link_addr : Z) (link_addr_size : LinkAddrSize) (coa : Z).

(** iec60870-test-tools/src/transport.rs 90-122, TransportArgs::resolve. [localhost] is
    127.0.0.1:2404; [None] is an error. *)
Definition TransportArgs_resolve (localhost : SocketAddr) (t : TransportArgs) : option TransportChoice :=
  let coa := ta_coa t in
  match ta_transport t with
  | Tcp =>
      let addr := default localhost (ta_addr t) in
      match ta_serial t with Some _ => None | None => Some (TcTcp addr coa) end
  | Serial =>
      match ta_serial t with
      | None => None
      | Some path =>
          match ta_addr t with
          | Some _ => None
          | None => Some (TcSerial path (ta_baud t) (ta_link_addr t) (ta_link_addr_size t) coa)
          end
      end
  end.

(** ** The server's command line *)

(** bin/server.rs 74-81, DaemonArgs. *)
Record ServerDaemonArgs := mkServerDaemonArgs { sd_transport : TransportArgs; sd_files_dir : option string }.
(** bin/server.rs 84-88, GetArgs. *)
Record GetArgs := mkGetArgs { ga_ioa : Z }.
(** bin/server.rs 91-103, SetArgs. *)
Record SetArgs := mkSetArgs { sa_ioa : Z; sa_kind : string; sa_value : string }.
(** bin/server.rs 106-110, ListArgs. *)
Record ListArgs := mkListArgs { la_type_id : option Z }.
(** bin/server.rs 127-130, SimGetArgs. *)
Record SimGetArgs := mkSimGetArgs { sg_ioa : Z }.
(** bin/server.rs 133-139, SimSetArgs. *)
Record SimSetArgs := mkSimSetArgs { sm_ioa : Z; sm_schedule : string }.
(** bin/server.rs 119-124, SimSubcommand. *)
Inductive SimSubcommand := SimGet (a : SimGetArgs) | SimSet (a : SimSetArgs).
(** bin/server.rs 156-159, DeadbandGetArgs. *)
Record DeadbandGetArgs := mkDeadbandGetArgs { dg_ioa : Z }.
(** bin/server.rs 162-171, DeadbandSetArgs. *)
Record DeadbandSetArgs := mkDeadbandSetArgs { ds_ioa : Z; ds_policy : string }.
(** bin/server.rs 148-153, DeadbandSubcommand. *)
Inductive DeadbandSubcommand := DeadbandGet (a : DeadbandGetArgs) | DeadbandSet (a : DeadbandSetArgs).
(** bin/server.rs 52-71, CliCommand. *)
Inductive CliCommand :=
| ClDaemon (a : ServerDaemonArgs) | ClGet (a : GetArgs) | ClSet (a : SetArgs) | ClList (a : ListArgs)
| ClSim (command : SimSubcommand) | ClDeadband (command : DeadbandSubcommand) | ClEvents | ClStatus | ClShutdown.

(** What a run of a tool does: it becomes a daemon with its control socket,
    calls the daemon at a socket, or follows its events. *)
Inductive CliAction (Args : Type) :=
| CaDaemon (args : Args) (socket : string) | CaCall (socket : string) (req : Request) | CaFollow (socket : string).
Arguments CaDaemon {_}. Arguments CaCall {_}. Arguments CaFollow {_}.

Section Main.
(** [serde_json::from_str]; [None] is an error. *)
Context (parse_schedule : string -> option SimSchedule) (parse_policy : string -> option DeadbandPolicyWire).

(** bin/server.rs 1329-1399, main. [None] is an error before anything is
    sent. *)
Definition server_main (socket : string) (command : CliCommand) : option (CliAction ServerDaemonArgs) :=
  match command with
  | ClDaemon args => Some (CaDaemon args socket)
  | ClGet args => Some (CaCall socket (RqGet (ga_ioa args)))
  | ClSet args =>
      match parse_point_value (sa_kind args) (sa_value args) with
      | Some value => Some (CaCall socket (RqSet (sa_ioa args) value None))
      | None => None
      end
  | ClList args => Some (CaCall socket (RqList (la_type_id args)))
  | ClSim (SimGet a) => Some (CaCall socket (RqSimGet (sg_ioa a)))
  | ClSim (SimSet a) =>
      match parse_schedule (sm_schedule a) with
      | Some schedule => Some (CaCall socket (RqSimSet (sm_ioa a) schedule))
      | None => None
      end
  | ClDeadband (DeadbandGet g) => Some (CaCall socket (RqGetDeadband (dg_ioa g)))
  | ClDeadband (DeadbandSet s) =>
      match parse_policy (ds_policy s) with
      | Some policy => Some (CaCall socket (RqSetDeadband (ds_ioa s) policy))
      | None => None
      end
  | ClEvents => Some (CaFollow socket)
  | ClStatus => Some (CaCall socket RqStatus)
  | ClShutdown => Some (CaCall socket RqShutdown)
  end.
End Main.

(** ** The client's command line *)

(** bin/client.rs 142-153, DaemonArgs. *)
Record ClientDaemonArgs := mkClientDaemonArgs { cd_control : string; cd_files_dir : string; cd_transport : TransportArgs }.
(** bin/client.rs 206-209, StepDirArg. *)
Inductive StepDirArg := StepLower | StepHigher.
(** bin/client.rs 212-216, SetpointKindArg. *)
Inductive SetpointKindArg := SetNormalized | SetScaled | SetFloat.
(** bin/client.rs 156-203, CmdCommands. *)
Inductive CmdCommands :=
| CmSingle (ioa : Z) (on : bool) (ca : option Z) (socket : string)
| CmDouble (ioa : Z) (on : bool) (ca : option Z) (socket : string)
| CmRegulating (ioa : Z) (step : StepDirArg) (ca : option Z) (socket : string)
| CmSetpoint (ioa : Z) (kind : SetpointKindArg) (value : F64) (ca : option Z) (socket : string).
(** bin/client.rs 219-246, FileCommands. *)
Inductive FileCommands :=
| FcGet (nof : string) (out : option string) (ca : option Z) (socket : string)
| FcPut (nof : string) (input : string) (ca : option Z) (socket : string).
(** bin/client.rs 78-139, Commands. *)
Inductive Commands :=
| CoDaemon (a : ClientDaemonArgs)
| CoInterrogate (group ca timeout_ms : option Z) (socket : string)
| CoCmd (cmd : CmdCommands)
| CoRead (ioa : Z) (type_id : option Z) (socket : string)
| CoFile (fcmd : FileCommands)
| CoEvents (socket : string) | CoStatus (socket : string) | CoShutdown (socket : string).

(** bin/client.rs 1359-1486, main. *)
Definition client_main (command : Commands) : option (CliAction ClientDaemonArgs) :=
  match command with
  | CoDaemon args => Some (CaDaemon args (cd_control args))
  | CoInterrogate group ca timeout_ms socket => Some (CaCall socket (RqInterrogate group ca timeout_ms))
  | CoCmd cmd =>
      match cmd with
      | CmSingle ioa on ca socket => Some (CaCall socket (RqCmdSingle ioa on ca))
      | CmDouble ioa on ca socket => Some (CaCall socket (RqCmdDouble ioa on ca))
      | CmRegulating ioa step ca socket =>
          let step := match step with StepLower => SdLower | StepHigher => SdHigher end in
          Some (CaCall socket (RqCmdRegulating ioa step ca))
      | CmSetpoint ioa kind value ca socket =>
          let kind := match kind with SetNormalized => SkNormalized | SetScaled => SkScaled | SetFloat => SkFloat end in
          Some (CaCall socket (RqCmdSetpoint ioa kind value ca))
      end
  | CoRead ioa type_id socket => Some (CaCall socket (RqRead ioa type_id))
  | CoFile (FcGet nof out ca socket) =>
      match parse_nof nof with
      | Some nof_val => Some (CaCall socket (RqFileGet nof_val (default EmptyString out) ca))
      | None => None
      end
  | CoFile (FcPut nof input ca socket) =>
      match parse_nof nof with
      | Some nof_val => Some (CaCall socket (RqFilePut nof_val input ca))
      | None => None
      end
  | CoEvents socket => Some (CaFollow socket)
  | CoStatus socket => Some (CaCall socket RqStatus)
  | CoShutdown socket => Some (CaCall socket RqShutdown)
  end.
