(* ===== verification/ToolLoops.v ===== *)
(** * The tasks of the test tools

    [bin/server.rs] and [bin/client.rs]: the loops that carry events and
    ASDUs between the handles of the library and the sections of TestServer.v
    and TestClient.v, the tasks that are started, and the commands of the
    client that transfer files. A branch of a [select!] loop is one function:
    [None] is a wait that blocks the whole loop, since the loop is one task. *)

From S2P Require Import Prelude Bytes Codec AsduHeader Asdu Conn104 Link101 Net104 Policy Driver104 Driver101 Redundancy.
From S2P Require Import AsduFile FsProvider Channels Handles Float64 Deadband Points Simulator TestServer TestClient TestRig RigView Control Cli.
From S2P Require Import Stack104.

#[local] Open Scope Z_scope.

(** Whether a loop goes on. *)
Inductive Flow := Go | Break.

(** [format!({s:?})] of the states. *)
Definition state_debug (s : State) : string :=
  match s with
  | Stopped => "Stopped" | Starting => "Starting" | Active => "Active" | Stopping => "Stopping" | Closed => "Closed"
  end.
Definition link_state_debug (s : LinkState) : string :=
  match s with NotReady => "NotReady" | Ready => "Ready" | Failed => "Failed" end.

(** ** The server *)

Section Server.
Context `{BC : BytesCrate} `{MP : Mpsc} (sin : F64 -> F64).

(** bin/server.rs 839-856, run_104_peer (one event). *)
Definition peer_event (clock : Ioa -> Z * Z) (evt : option ServerEvent) (st : ServerState)
  : Result (list ServerOut * ServerState * Flow) :=
  match evt with
  | Some (SeAsdu bytes) =>
      match handle_incoming_asdu clock bytes st with
      | Ok (outs, st) => Ok (outs, st, Go)
      | _ => Panic
      end
  | Some (SeStateChanged s) => Ok ([SoEvent (EvStateChanged (state_debug s))], st, Go)
  | Some (SeClosed _) => Ok ([], st, Break)
  | None => Ok ([], st, Break)
  end.

Fixpoint peer_events (evts : list ((Ioa -> Z * Z) * option ServerEvent)) (st : ServerState)
  : Result (list ServerOut * ServerState) :=
  match evts with
  | [] => Ok ([], st)
  | (clock, evt) :: evts =>
      match peer_event clock evt st with
      | Ok (outs, st, Go) =>
          match peer_events evts st with Ok (outs', st) => Ok (outs ++ outs', st) | _ => Panic end
      | Ok (outs, st, Break) => Ok (outs, st)
      | _ => Panic
      end
  end.

(** bin/server.rs 817-864, run_104_peer. The whole life of a connection, with
    no other task in between. *)
Definition run_104_peer (peer : SocketAddr) (evts : list ((Ioa -> Z * Z) * option ServerEvent)) (st : ServerState)
  : Result (list ServerOut * ServerState) :=
  let st := peer_connected peer st in
  match peer_events evts st with
  | Ok (outs, st) => Ok ([SoEvent EvConnected] ++ outs ++ [SoEvent EvDisconnected], peer_closed peer st)
  | _ => Panic
  end.

(** bin/server.rs 570-573, AsduSender. [None] waits. *)
Class AsduSender (S : Type) := { asdu_send : bytes -> S -> option (bool * S) }.

(** bin/server.rs 575-582, Sender104. *)
Record Sender104 := mkSender104 { s104 : chan Command }.
#[local] Instance sender104 : AsduSender Sender104 :=
  {| asdu_send b s :=
       match server_send_asdu b (s104 s) with
       | None => None
       | Some (inl _, c) => Some (true, mkSender104 c)
       | Some (inr _, c) => Some (false, mkSender104 c)
       end |}.

(** bin/server.rs 584-591, Sender101. *)
Record Sender101 := mkSender101 { s101 : chan bytes }.
#[local] Instance sender101 : AsduSender Sender101 :=
  {| asdu_send b s := match mpsc_send b (s101 s) with None => None | Some (ok, c) => Some (ok, mkSender101 c) end |}.

(** bin/server.rs 1043-1055, run_daemon (the points that get a task). *)
Definition ioa_entries (im : ProcessImage) : list (Ioa * SimSchedule) :=
  omap (fun '(ioa, e) => match pe_schedule e with SsNone => None | s => Some (ioa, s) end) (map_to_list im).

(** bin/server.rs 1059-1070, run_daemon (the interval and the phase of a
    task). *)
Definition task_timing (schedule : SimSchedule) : option (Z * Z) :=
  match schedule with
  | SsToggle interval_ms phase_ms => Some (interval_ms, phase_ms)
  | SsRotate interval_ms | SsRandomWalk interval_ms _ _ _ | SsStepUp interval_ms _ _ | SsSine interval_ms _ _ _ =>
      Some (interval_ms, 0)
  | SsNone => None
  end.

(** bin/server.rs 1058-1076, run_daemon (the tasks that are spawned): the
    address a task ticks for, its interval and its phase. *)
Definition tick_tasks (st : ServerState) : list (Ioa * (Z * Z)) :=
  omap (fun '(ioa, schedule) => pair ioa <$> task_timing schedule) (ioa_entries (ss_image st)).

(** bin/server.rs 1032-1038, run_daemon (the state of a daemon). *)
Definition daemon_start (localhost : SocketAddr) (args : ServerDaemonArgs) : option (TransportChoice * ServerState) :=
  match TransportArgs_resolve localhost (sd_transport args) with
  | None => None
  | Some transport =>
      let '(transport_kind, coa) := match transport with
                                    | TcTcp _ coa => (Tcp, coa)
                                    | TcSerial _ _ _ _ coa => (Serial, coa)
                                    end in
      Some (transport, ServerState_new transport_kind coa)
  end.

(** bin/server.rs 1197-1208, run_tcp_daemon (whether files are served). *)
Definition serves_files (exists_dir : string -> bool) (files_dir : option string) : bool :=
  match files_dir with Some dir => exists_dir dir | None => false end.

(** bin/server.rs 235-265, ControlHandler for ServerHandler. The clock of the
    point that is encoded; what is to be broadcast is left to the caller of
    the section. The events are those of a subscription. *)
Definition server_handler (clock : Z * Z) (events : list ToolEvent) : ControlHandler ServerState :=
  {| handle_request req st := match server_handle clock req st with Ok (r, _, _, st') => Some (r, st') | _ => None end;
     subscribe_events st := (Some events, st) |}.

(** ** The life of a peer is a run of the server *)

(** The inputs of the server's state that a connection's events amount to. *)
Definition peer_inputs (evts : list ((Ioa -> Z * Z) * option ServerEvent)) : list ServerInput :=
  omap (fun '(clock, evt) => match evt with Some (SeAsdu b) => Some (SiAsdu clock b) | _ => None end) evts.

Definition ends (evt : option ServerEvent) : bool := match evt with Some (SeClosed _) | None => true | _ => false end.

Definition is_event (o : ServerOut) : bool := match o with SoEvent _ => true | _ => false end.

Lemma peer_events_run evts st : Forall (fun e => ends e.2 = false) evts ->
  match server_run sin st (peer_inputs evts) with
  | Ok (outs, st') => ∃ outs', peer_events evts st = Ok (outs', st') /\
      filter (fun o => is_event o = false) outs' = filter (fun o => is_event o = false) outs
  | _ => peer_events evts st = Panic
  end.
Proof.
  intros He. revert st. induction He as [|[clock evt] evts He _ IH]; intros st; [by exists []|].
  cbn [peer_events peer_inputs omap list_omap]. fold (peer_inputs evts). destruct evt as [[b|s|r]|]; try done.
  - cbn [peer_event server_run server_step]. destruct (handle_incoming_asdu clock b st) as [[outs st1]|e|]; [|done..].
    specialize (IH st1). destruct (server_run sin st1 (peer_inputs evts)) as [[outs2 st2]|e|]; [|by rewrite IH..].
    destruct IH as (outs' & -> & Hf). exists (outs ++ outs'). by rewrite !filter_app, Hf.
  - cbn [peer_event]. specialize (IH st). destruct (server_run sin st (peer_inputs evts)) as [[outs2 st2]|e|]; [|by rewrite IH..].
    destruct IH as (outs' & -> & Hf). by eexists.
Qed.

Lemma server_run_no_err st inputs e : server_run sin st inputs ≠ Err e.
Proof.
  destruct inputs as [|i inputs]; [done|]. cbn [server_run]. destruct (server_step sin st i) as [[]| |]; try done.
  by destruct (server_run sin _ inputs) as [[]| |].
Qed.

Lemma server_run_app st i1 i2 : server_run sin st (i1 ++ i2) =
  match server_run sin st i1 with
  | Ok (outs, st1) => match server_run sin st1 i2 with Ok (outs', st2) => Ok (outs ++ outs', st2) | _ => Panic end
  | _ => Panic
  end.
Proof.
  revert st. induction i1 as [|i i1 IH]; intros st; cbn [app server_run].
  { destruct (server_run sin st i2) as [[]| |] eqn:E; try done. by apply server_run_no_err in E. }
  destruct (server_step sin st i) as [[outs st1]| |]; [|done..]. rewrite IH.
  destruct (server_run sin st1 i1) as [[outs1 st2]| |]; [|done..].
  destruct (server_run sin st2 i2) as [[outs2 st3]| |]; [|done..]. by rewrite app_assoc.
Qed.

Lemma peer_events_closed evts clock r st outs st' : Forall (fun e => ends e.2 = false) evts ->
  peer_events evts st = Ok (outs, st') -> peer_events (evts ++ [(clock, Some (SeClosed r))]) st = Ok (outs, st').
Proof.
  intros He. revert st outs. induction He as [|[ck evt] evts He _ IH]; intros st outs; [by intros [= <- <-]|].
  cbn [app peer_events]. destruct (peer_event ck evt st) as [[[o1 st1] []]| |]; try done.
  destruct (peer_events evts st1) as [[o2 st2]| |] eqn:E; try done. intros [= <- <-]. by rewrite (IH _ _ E).
Qed.

Lemma peer_events_no_err evts st e : peer_events evts st ≠ Err e.
Proof.
  destruct evts as [|[ck evt] evts]; [done|]. cbn [peer_events]. destruct (peer_event ck evt st) as [[[o1 st1] []]| |]; try done.
  by destruct (peer_events evts st1) as [[]| |].
Qed.

Lemma peer_events_panics evts more st : peer_events evts st = Panic -> peer_events (evts ++ more) st = Panic.
Proof.
  revert st. induction evts as [|[ck evt] evts IH]; intros st; [done|]. cbn [app peer_events].
  destruct (peer_event ck evt st) as [[[o1 st1] []]| |] eqn:Ev; try done.
  destruct (peer_events evts st1) as [[]|e|] eqn:E; [done|by apply peer_events_no_err in E|by rewrite (IH _ E)].
Qed.

(** The loop of a connection is the run of the server that registers the
    peer, takes its ASDUs in the order they come in and removes it: the same
    state in the end, the same answers in the same order. *)
Theorem peer_life_refines_run peer evts clock r st : Forall (fun e => ends e.2 = false) evts ->
  match server_run sin st ([SiConnected peer] ++ peer_inputs evts ++ [SiClosed peer]) with
  | Ok (outs, st') => ∃ outs', run_104_peer peer (evts ++ [(clock, Some (SeClosed r))]) st = Ok (outs', st') /\
      filter (fun o => is_event o = false) outs' = filter (fun o => is_event o = false) outs
  | _ => run_104_peer peer (evts ++ [(clock, Some (SeClosed r))]) st = Panic
  end.
Proof.
  intros He. cbn [app server_run server_step]. unfold run_104_peer. set (st1 := peer_connected peer st).
  rewrite server_run_app. pose proof (peer_events_run evts st1 He) as Hr.
  assert (∀ outs st2, peer_events evts st1 = Ok (outs, st2) ->
    peer_events (evts ++ [(clock, Some (SeClosed r))]) st1 = Ok (outs, st2)) as Hok by (intros outs st2; by apply peer_events_closed).
  destruct (server_run sin st1 (peer_inputs evts)) as [[outs st2]|e|]; cbn [server_run server_step].
  - destruct Hr as (outs' & E & Hf). rewrite (Hok _ _ E). eexists. split; [done|].
    rewrite !filter_app, Hf. cbn. by rewrite !app_nil_r.
  - by rewrite (peer_events_panics _ _ _ Hr).
  - by rewrite (peer_events_panics _ _ _ Hr).
Qed.

(** ** A value set on the command line reaches the image *)

Section SetCommand.
Context `{!Json Request} `{!Json Response} `{!Json ToolEvent} (parse_error : list Z -> string).
Context (parse_schedule : string -> option SimSchedule) (parse_policy : string -> option DeadbandPolicyWire).
Context (clock : Z * Z) (events : list ToolEvent).

#[local] Instance handler : ControlHandler ServerState := server_handler clock events.

(** C29. [iec-server set]. When the value can be read as one of the kind given,
    and the point exists, one request goes over the control socket. If its
    JSON is read back, and that of the response, the call answers with success
    and the daemon's image has the value, with the quality it had. If the
    JSON of the request is no request to the daemon (the value is a NaN or an
    infinity, which the command line takes and JSON does not have), the call
    is answered with a parse error and the daemon's state is as before. *)
Theorem set_command_sets st socket args value e :
  parse_point_value (sa_kind args) (sa_value args) = Some value -> ss_image st !! sa_ioa args = Some e ->
  let req := RqSet (sa_ioa args) value None in
  server_main parse_schedule parse_policy socket (ClSet args) = Some (CaCall socket req) /\
  (survives req -> survives (RespOk RdEmpty) ->
    ∃ st', call_daemon (Some (daemon parse_error true st)) req = inl (RespOk RdEmpty) /\
      handle_connection parse_error (fun _ => true) true (to_vec req ++ [10]) st =
        (ConnOk, [write_response (RespOk RdEmpty)], st') /\
      ss_image st' = <[sa_ioa args := mkEntry (pe_kind e) value (pe_quality e) (pe_schedule e)]> (ss_image st)) /\
  (lost req ->
    ∃ t, handle_connection parse_error (fun _ => true) true (to_vec req ++ [10]) st =
      (ConnOk, [write_response (RespErr (ReText ("parse: " ++ parse_error t)))], st)).
Proof.
  intros Hv He req. split; [cbn [server_main]; by rewrite Hv|]. split.
  - intros Hs Hr.
    assert (∃ st', handle_request req st = Some (RespOk RdEmpty, st') /\
      ss_image st' = <[sa_ioa args := mkEntry (pe_kind e) value (pe_quality e) (pe_schedule e)]> (ss_image st)) as (st' & Hh & Hi).
    { cbn [req handle_request handler server_handler server_handle]. unfold handle_set, Image_set. rewrite He.
      cbn [default from_option]. rewrite lookup_insert_eq.
      destruct (observe_logged _ _ _) as [logs tracker]. by eexists. }
    exists st'. split; [|split; [|done]]; [|by apply daemon_answers].
    apply response_read; [|done]. unfold daemon. by rewrite (daemon_answers parse_error _ _ _ _ Hs ltac:(done) Hh).
  - intros Hl. destruct (lost_answered parse_error req st Hl) as (t & _ & H). by exists t.
Qed.
End SetCommand.

End Server.

(** ** The client *)

Section Client.
Context `{BC : BytesCrate} `{MP : Mpsc} (clock : nat -> Instant).

(** bin/client.rs 587-589, ConnCmd. *)
Inductive ConnCmd := CcSendAsdu (b : bytes).

(** bin/client.rs 593-595, ConnSender. *)
Record ConnSender := mkConnSender { cs_tx : chan ConnCmd }.

(** bin/client.rs 597-604, ConnSender::send_asdu. [None] waits; the flag is
    whether the connection task is there. *)
Definition ConnSender_send_asdu (b : bytes) (s : ConnSender) : option (bool * ConnSender) :=
  match mpsc_send (CcSendAsdu b) (cs_tx s) with
  | Some (ok, c) => Some (ok, mkConnSender c)
  | None => None
  end.

(** What a connection task owns: the handle, the commands it takes and the
    channel to the dispatch task. *)
Record Pump (H : Type) := mkPump { pu_handle : H; pu_cmd_rx : chan ConnCmd; pu_asdu_tx : chan bytes }.
Arguments mkPump {_}. Arguments pu_handle {_}. Arguments pu_cmd_rx {_}. Arguments pu_asdu_tx {_}.

(** What a branch does: the pump, the events that are broadcast, and whether
    the loop goes on. *)
Abbreviation Turn H := (option (Pump H * list ToolEvent * Flow)).

Definition with_evt_rx (c : chan DriverEvent) (h : Client104) : Client104 := mkClient104 (c_cmd_tx h) c (c_ft h).
Definition with_cmd_tx (c : chan Command) (h : Client104) : Client104 := mkClient104 c (c_evt_rx h) (c_ft h).

(** bin/client.rs 1234-1254, run_client104 (an event of the client). The
    reason of a disconnection is text. *)
Definition client104_event (p : Pump Client104) : Turn Client104 :=
  match client_recv (c_evt_rx (pu_handle p)) with
  | None => None
  | Some (evt, evt_rx) =>
      let p := mkPump (with_evt_rx evt_rx (pu_handle p)) (pu_cmd_rx p) (pu_asdu_tx p) in
      match evt with
      | Some (CeAsdu bytes) =>
          match mpsc_send bytes (pu_asdu_tx p) with
          | None => None
          | Some (_, asdu_tx) => Some (mkPump (pu_handle p) (pu_cmd_rx p) asdu_tx, [], Go)
          end
      | Some (CeStateChanged s) => Some (p, [EvStateChanged (state_debug s)], Go)
      | Some (CeClosed _) => Some (p, [EvDisconnected], Break)
      | None => Some (p, [], Break)
      end
  end.

(** bin/client.rs 1255-1264, run_client104 (a command). *)
Definition client104_command (p : Pump Client104) : Turn Client104 :=
  match mpsc_recv (pu_cmd_rx p) with
  | None => None
  | Some (Some (CcSendAsdu bytes), cmd_rx) =>
      match client_send_asdu bytes (c_cmd_tx (pu_handle p)) with
      | None => None
      | Some (_, cmd_tx) => Some (mkPump (with_cmd_tx cmd_tx (pu_handle p)) cmd_rx (pu_asdu_tx p), [], Go)
      end
  | Some (None, cmd_rx) => Some (mkPump (pu_handle p) cmd_rx (pu_asdu_tx p), [], Break)
  end.

(** bin/client.rs 1284-1288, run_master101 (the poll timer, every 500 ms). *)
Definition master101_poll (p : Pump Master101) : Turn Master101 :=
  match master_request_class1 (m_cmd_tx (pu_handle p)) with
  | None => None
  | Some (_, cmd_tx) => Some (mkPump (mkMaster101 cmd_tx (m_evt_rx (pu_handle p))) (pu_cmd_rx p) (pu_asdu_tx p), [], Go)
  end.

(** bin/client.rs 1289-1309, run_master101 (an event of the master). *)
Definition master101_event (p : Pump Master101) : Turn Master101 :=
  match master_recv (m_evt_rx (pu_handle p)) with
  | None => None
  | Some (evt, evt_rx) =>
      let p := mkPump (mkMaster101 (m_cmd_tx (pu_handle p)) evt_rx) (pu_cmd_rx p) (pu_asdu_tx p) in
      match evt with
      | Some (MaAsdu bytes) =>
          match mpsc_send bytes (pu_asdu_tx p) with
          | None => None
          | Some (_, asdu_tx) => Some (mkPump (pu_handle p) (pu_cmd_rx p) asdu_tx, [], Go)
          end
      | Some (MaLinkStateChanged ls) => Some (p, [EvStateChanged (link_state_debug ls)], Go)
      | Some (MaClosed _) => Some (p, [EvDisconnected], Break)
      | None => Some (p, [], Break)
      end
  end.

(** bin/client.rs 1310-1319, run_master101 (a command). *)
Definition master101_command (p : Pump Master101) : Turn Master101 :=
  match mpsc_recv (pu_cmd_rx p) with
  | None => None
  | Some (Some (CcSendAsdu bytes), cmd_rx) =>
      match master_send_asdu bytes (m_cmd_tx (pu_handle p)) with
      | None => None
      | Some (_, cmd_tx) => Some (mkPump (mkMaster101 cmd_tx (m_evt_rx (pu_handle p))) cmd_rx (pu_asdu_tx p), [], Go)
      end
  | Some (None, cmd_rx) => Some (mkPump (pu_handle p) cmd_rx (pu_asdu_tx p), [], Break)
  end.

(** bin/client.rs 1097-1110, run_daemon (an item of the dispatch task). *)
Definition dispatch (asdu_rx : chan bytes) (st : ClientState) : option (option (list ToolEvent * chan bytes * ClientState)) :=
  match mpsc_recv asdu_rx with
  | None => None
  | Some (None, _) => Some None
  | Some (Some b, asdu_rx) => let '(st, events) := client_receive clock b st in Some (Some (events, asdu_rx, st))
  end.

(** bin/client.rs 1181-1185, connect_transport (the settings of the link). *)
Definition master_config (link_addr : Z) (link_addr_size : LinkAddrSize) : LkConfig :=
  let d := LkConfig_default in
  mkLkConfig link_addr (to_proto link_addr_size) (timeout d) (max_retries d).

(** bin/client.rs 1199-1213, connect_transport (the wait for the link). The
    events that come in before the deadline, then [None] if the task ended;
    whether the link became ready. *)
Fixpoint wait_ready (evts : list (option Master101Event)) : bool :=
  match evts with
  | Some (MaLinkStateChanged Ready) :: _ => true
  | Some (MaClosed _) :: _ => false
  | Some _ :: evts => wait_ready evts
  | None :: _ => false
  | [] => false
  end.

(** ** Files *)

(** What a file command does outside, and its answer. *)
Inductive FileAction :=
| FaCreateDir (dir : string) | FaFetch (ca nof : Z) | FaCopy (input target : string) | FaRescan (dir : string)
| FaPush (ca nof : Z) | FaRemove (path : string).

(** [format!("upload_{nof:04X}.bin")] *)
Definition upload_name (nof : Z) : string := upload_target (mkNof nof).

(** [Path::join] of a directory and a relative name. *)
Definition path_join (dir name : string) : string := (dir ++ "/" ++ name)%string.

(** bin/client.rs 964-996, ClientHandler::handle_file_get. [create_dir] and
    [fetch] are what those calls come to; [None] is an error. *)
Definition handle_file_get (ft_handle : bool) (files_dir : string) (create_dir : string -> bool)
    (fetch : Z -> Z -> option Z) (nof : Z) (out : string) (ca : option Z) (st : ClientState) : list FileAction * Response :=
  let ca_val := resolve_ca ca st in
  if ft_handle then
    let out_dir := if String.eqb out EmptyString then files_dir else out in
    if create_dir out_dir then
      match fetch ca_val nof with
      | Some bytes => ([FaCreateDir out_dir; FaFetch ca_val nof], RespOk (RdFetched bytes (path_join out_dir (upload_name nof))))
      | None => ([FaCreateDir out_dir; FaFetch ca_val nof], RespErr (ReText "file fetch failed"))
      end
    else ([FaCreateDir out_dir], RespErr (ReText "cannot create output directory"))
  else ([], RespErr (ReText "file-transfer not available (daemon not started with file provider)")).

(** bin/client.rs 998-1035, ClientHandler::handle_file_put. *)
Definition handle_file_put (ft_handle : bool) (files_dir : string) (copy : string -> string -> bool)
    (provider_new rescan : string -> bool) (push : Z -> Z -> option Z) (nof : Z) (input : string) (ca : option Z)
    (st : ClientState) : list FileAction * Response :=
  let ca_val := resolve_ca ca st in
  if ft_handle then
    let target := path_join files_dir (upload_name nof) in
    if copy input target then
      if provider_new files_dir then
        if rescan files_dir then
          let done := [FaCopy input target; FaRescan files_dir; FaPush ca_val nof] in
          match push ca_val nof with
          | Some bytes => (done, RespOk (RdBytes bytes))
          | None => (done ++ [FaRemove target], RespErr (ReText "file push failed"))
          end
        else ([FaCopy input target; FaRescan files_dir], RespErr (ReText "rescan failed"))
      else ([FaCopy input target], RespErr (ReText "provider rescan failed"))
    else ([FaCopy input target], RespErr (ReText "failed to stage file for push"))
  else ([], RespErr (ReText "file-transfer not available (daemon not started with file provider)")).

(** ** From the handle to the cache *)

(** The pump hands an ASDU on as it came, behind those that wait. *)
Lemma pump_asdu p b evt_rx : client_recv (c_evt_rx (pu_handle p)) = Some (Some (CeAsdu b), evt_rx) ->
  rx_alive (pu_asdu_tx p) = true ->
  match client104_event p with
  | Some (p', events, flow) => queued (pu_asdu_tx p') = queued (pu_asdu_tx p) ++ [b] /\ events = [] /\ flow = Go
  | None => (capacity (pu_asdu_tx p) <= length (queued (pu_asdu_tx p)))%nat
  end.
Proof.
  intros Hr Ha. unfold client104_event. rewrite Hr. cbn [pu_asdu_tx]. pose proof (send_law b (pu_asdu_tx p)) as Hl.
  destruct (mpsc_send b (pu_asdu_tx p)) as [[[] c]|]; [|destruct Hl; congruence|by destruct Hl].
  destruct Hl as (_ & _ & Hq & _). by split_and!.
Qed.

Lemma pass_all asdu : asdu_passes_policy asdu AsduPolicy_new = true.
Proof.
  pose proof (rejects_spec AsduPolicy_new asdu) as H. change (is_restrictive AsduPolicy_new) with false in H.
  cbn [andb] in H. by destruct (asdu_passes_policy asdu AsduPolicy_new).
Qed.

Lemma filter_pass_all (l : list bytes) : filter (fun asdu => asdu_passes_policy asdu AsduPolicy_new = true) l = l.
Proof. induction l as [|b l IH]; [done|]. rewrite filter_cons_True by apply pass_all. by rewrite IH. Qed.


End Client.

(** ** Samples *)

Module ToolSample.

#[local] Existing Instance slice_bytes.
#[local] Existing Instance list_channels.

(** A JSON in which two requests, two responses and an event have a text of
    their own, a letter each. *)
Definition letter (n : Z) : bytes := [n].

Lemma letter_law n : 97 <= n <= 122 -> (10 ∉ letter n) /\ (∃ t, utf8_decode (letter n) = Some t /\ trim t = t /\ t ≠ []).
Proof.
  intros Hn. assert (n ∈ seqZ 97 26) as Hin by (apply elem_of_seqZ; lia).
  revert n Hn Hin. unfold letter.
  assert (Forall (fun n => (10 ∉ [n]) /\ utf8_decode [n] = Some [n] /\ trim [n] = [n]) (seqZ 97 26)) as H.
  { apply (bool_decide_unpack _). by vm_compute. }
  intros n _ Hin. rewrite Forall_forall in H. destruct (H n Hin) as (H1 & H2 & H3). split; [done|]. by exists [n].
Qed.

Definition set_400 : Request := RqSet 400 (PvScaled 41) None.

Definition request_letter (r : Request) : Z :=
  match r with
  | RqSet ioa (PvScaled v) None => if (ioa =? 400) && (v =? 41) then 97 else 100
  | RqStatus => 98 | RqEvents => 99 | _ => 100
  end.
Definition response_letter (r : Response) : Z := match r with RespOk RdEmpty => 97 | RespOk RdSubscribed => 98 | _ => 99 end.
Definition event_letter (e : ToolEvent) : Z := match e with EvConnected => 97 | EvDisconnected => 98 | _ => 99 end.

(** The value of a letter, by the table of those that have one. *)
Definition of_letter {A} (table : list (Z * A)) (t : list Z) : option A :=
  match t with
  | [c] => snd <$> find (fun p => p.1 =? c) table
  | _ => None
  end.

#[local] Instance json_request : Json Request.
Proof.
  refine {| to_vec r := letter (request_letter r);
            from_str := of_letter [(97, set_400); (98, RqStatus); (99, RqEvents)] |}.
  intros r. apply letter_law. unfold request_letter. repeat case_match; lia.
Defined.

#[local] Instance json_response : Json Response.
Proof.
  refine {| to_vec r := letter (response_letter r); from_str := of_letter [(97, RespOk RdEmpty); (98, RespOk RdSubscribed)] |}.
  intros r. apply letter_law. unfold response_letter. repeat case_match; lia.
Defined.

#[local] Instance json_event : Json ToolEvent.
Proof.
  refine {| to_vec e := letter (event_letter e); from_str := of_letter [(97, EvConnected); (98, EvDisconnected)] |}.
  intros e. apply letter_law. unfold event_letter. repeat case_match; lia.
Defined.

Lemma survives_letter {A} `{Json A} (a : A) c : utf8_decode (to_vec a) = Some [c] -> from_str [c] = Some a -> survives a.
Proof. intros H1 H2. by exists [c]. Qed.

Definition start : ServerState := ServerState_new Tcp 1.
Definition no_error_text (t : list Z) : string := EmptyString.
#[local] Instance handler_now : ControlHandler ServerState := server_handler ViewSample.noon [EvConnected; EvDisconnected].

(** The state after the request. *)
Definition after : ServerState := match handle_request set_400 start with Some (_, st) => st | None => start end.

Lemma handled : handle_request set_400 start = Some (RespOk RdEmpty, after).
Proof.
  unfold after. cbn [handle_request handler_now server_handler server_handle set_400]. unfold handle_set, Image_set.
  assert (is_Some (ss_image start !! 400)) as [e He] by (apply (bool_decide_unpack _); by vm_compute).
  rewrite He, lookup_insert_eq. by destruct (observe_logged _ _ _).
Qed.

Lemma set_400_survives : survives set_400.
Proof. by apply (survives_letter set_400 97). Qed.
Lemma empty_survives : survives (RespOk RdEmpty).
Proof. by apply (survives_letter (RespOk RdEmpty) 97). Qed.

Lemma control_call_witness :
  call_daemon (Some (daemon no_error_text true start)) set_400 = inl (RespOk RdEmpty) /\
  handle_connection no_error_text (fun _ => true) true (to_vec set_400 ++ [10]) start =
    (ConnOk, [write_response (RespOk RdEmpty)], after).
Proof.
  refine (control_call no_error_text set_400 start (RespOk RdEmpty) after set_400_survives _ handled empty_survives).
  discriminate.
Defined.

Lemma status_survives : survives RqStatus.
Proof. by apply (survives_letter RqStatus 98). Qed.
Lemma events_survive : survives RqEvents.
Proof. by apply (survives_letter RqEvents 99). Qed.

Lemma set_400_answered : answer set_400 start = Some (RespOk RdEmpty, [], true, after).
Proof.
  transitivity (match handle_request set_400 start with None => None
    | Some (resp, st) => Some (resp, @nil ToolEvent, true, st) end); [reflexivity|by rewrite handled].
Qed.

(** What follows the subscription is not handled. *)
Lemma control_pipelined_witness :
  handle_connection no_error_text (fun _ => true) false (request_lines [RqStatus; set_400; RqEvents; set_400]) start =
    answer_all (fun _ => true) false 0 [RqStatus; set_400; RqEvents; set_400] start /\
  answer_all (fun _ => true) false 0 [RqStatus; set_400; RqEvents; set_400] start =
    (ConnOk, [[99; 10]; [97; 10]; [98; 10]; [97; 10]; [98; 10]], after).
Proof.
  split.
  - apply (control_pipelined no_error_text [RqStatus; set_400; RqEvents; set_400] (fun _ => true) false start).
    repeat (apply Forall_cons; split;
      [first [exact status_survives | exact set_400_survives | exact events_survive]|]). by apply Forall_nil.
  - rewrite (answer_all_cons _ _ _ RqStatus _ _ (server_status start) [] start) by reflexivity.
    rewrite (answer_all_cons _ _ _ _ _ _ _ _ _ set_400_answered) by reflexivity. reflexivity.
Defined.

Lemma events_followed_witness :
  follow_events (daemon no_error_text false start) = ([EvConnected; EvDisconnected], true).
Proof.
  refine (events_followed no_error_text start start [EvConnected; EvDisconnected] _ eq_refl _).
  - by apply (survives_letter RqEvents 99).
  - rewrite !Forall_cons. split; [by apply (survives_letter EvConnected 97)|].
    split; [by apply (survives_letter EvDisconnected 98)|by apply Forall_nil].
Defined.

(** [iec-server set --ioa 400 --kind ME-NB --value +41]. *)
Lemma set_command_sets_witness : ∃ e st',
  ss_image start !! 400 = Some e /\
  server_main (fun _ => None) (fun _ => None) "socket" (ClSet (mkSetArgs 400 "ME-NB" "+41")) = Some (CaCall "socket" set_400) /\
  call_daemon (Some (daemon no_error_text true start)) set_400 = inl (RespOk RdEmpty) /\
  handle_connection no_error_text (fun _ => true) true (to_vec set_400 ++ [10]) start =
    (ConnOk, [write_response (RespOk RdEmpty)], st') /\
  ss_image st' = <[400 := mkEntry (pe_kind e) (PvScaled 41) (pe_quality e) (pe_schedule e)]> (ss_image start).
Proof.
  assert (is_Some (ss_image start !! 400)) as [e He] by (apply (bool_decide_unpack _); by vm_compute).
  destruct (set_command_sets no_error_text (fun _ => None) (fun _ => None) ViewSample.noon [EvConnected; EvDisconnected]
    start "socket" (mkSetArgs 400 "ME-NB" "+41") (PvScaled 41) e ltac:(by vm_compute) He) as (Hm & Hok & _).
  destruct (Hok set_400_survives empty_survives) as (st' & H).
  exists e, st'. split; [exact He|]. split; [exact Hm|exact H].
Defined.

(** [iec-server set --ioa 500 --kind ME-NC --value nan]: the value is taken, its
    text is read back as no request. *)
Example set_nan_lost : parse_point_value "ME-NC" "nan" = Some (PvFloat 0x7FC00000) /\
  lost (RqSet 500 (PvFloat 0x7FC00000) None).
Proof. split; [by vm_compute|]. by exists [100]. Qed.

(** A peer that comes, sends an octet that is no ASDU, and goes. *)
Lemma peer_life_refines_run_witness :
  let evts := [(fun _ => ViewSample.noon, Some (SeStateChanged Active)); (fun _ => ViewSample.noon, Some (SeAsdu [1]))] in
  match server_run (fun x => x) start ([SiConnected 7] ++ peer_inputs evts ++ [SiClosed 7]) with
  | Ok (outs, st') => ∃ outs', run_104_peer 7 (evts ++ [(fun _ => ViewSample.noon, Some (SeClosed None))]) start = Ok (outs', st') /\
      filter (fun o => is_event o = false) outs' = filter (fun o => is_event o = false) outs
  | _ => run_104_peer 7 (evts ++ [(fun _ => ViewSample.noon, Some (SeClosed None))]) start = Panic
  end.
Proof.
  intros evts. apply (peer_life_refines_run (fun x => x) 7 evts (fun _ => ViewSample.noon) None start). by repeat constructor.
Defined.

(** The morning of RigView.v, carried by the stack; point 402 is set and ticks. *)
Definition day : list ServerInput :=
  ViewSample.morning ++ [SiTick false ViewSample.noon 400 1; SiTick false ViewSample.noon 402 1].
Definition day_end : Result (list ServerOut * ServerState) := server_run (fun x => x) start day.
Definition day_asdus : list bytes := match day_end with Ok (outs, _) => asdus outs | _ => [] end.

Definition carried : list (Who * Move) :=
  [(Cl, MvCommand); (Cl, MvPush); (Sv, MvRead 6); (Sv, MvPush); (Cl, MvRead 6); (Cl, MvPush)] ++
  concat ((fun b => [(Sv, MvSend b); (Sv, MvCommand)]) <$> day_asdus) ++
  [(Cl, MvRead 7); (Cl, MvRead 100); (Cl, MvPush); (Cl, MvPush); (Cl, MvRecv); (Cl, MvRecv); (Cl, MvRecv); (Cl, MvRecv)].

#[local] Abbreviation carried_end :=
  (stack_run (fun _ _ => 0) (fun _ _ => true) (fun _ => AsduPolicy_new) Config_default Config_default carried).

Definition clear (k : Stack) :=
  (sn_exit (sk_server k), sn_exit (sk_client k), queued (sn_cmd (sk_server k)), pending (drv_conn (sn_drv (sk_server k))),
   (sn_read (sk_client k), length (written (out (sn_drv (sk_server k))))),
   (sn_pushed (sk_client k), length (Stack104.reported (out (sn_drv (sk_client k))))), queued (sn_evt (sk_client k)),
   bool_decide (sn_accepted (sk_server k) = day_asdus), length (sn_received (sk_client k))).

Lemma carried_clear : clear <$> carried_end = Some (None, None, [], [], (42%nat, 42%nat), (4%nat, 4%nat), [], true, 2%nat).
Proof. vm_compute. reflexivity. Qed.

Lemma carried_octets : Forall (fun m : Who * Move => move_octets m.2) carried.
Proof.
  assert (forallb (fun m : Who * Move => match m.2 with MvSend a => bool_decide (octets a) | _ => true end) carried = true)
    as H by (vm_compute; reflexivity).
  rewrite Forall_forall. rewrite forallb_forall in H. intros m Hm. apply list_elem_of_In in Hm. specialize (H m Hm).
  destruct m as [w []]; try done. by apply bool_decide_eq_true in H.
Qed.

Lemma day_ok : Forall clocks_ok day /\ Forall (input_typed (kinds (populate_default ∅))) day.
Proof.
  destruct ViewSample.morning_ok as (Hck & Ht & _).
  split; apply Forall_app; (split; [done|]); rewrite !Forall_cons; (split; [by try exact I|]); split; [by try exact I|by apply Forall_nil
    |by try exact I|by apply Forall_nil].
Qed.


(** The points of the image that the theorem speaks of. *)
Example day_up_to_date :
  (up_to_date 400 day, up_to_date 402 day, up_to_date 100 day) = (true, true, false) /\
  match day_end with
  | Ok (_, st) => is_Some (ss_image st !! 400) /\ is_Some (ss_image st !! 402)
  | _ => False
  end.
Proof. split; [vm_compute; reflexivity|]. vm_compute. split; by eexists. Qed.

End ToolSample.
