(* ===== verification/SerialLoop.v ===== *)
(** * The loop of the serial outstation

    [run_101_outstation] of [bin/server.rs] with the tasks around it: the
    simulator and the control socket, which change the state of the daemon
    under its write lock and broadcast under its read lock, and the driver of
    the outstation. An answer is sent one ASDU at a time, and what the loop
    does not lock out can come in between. The lock is tokio's [RwLock]: who
    asks is served in the order of asking, readers together. A move that
    would have to wait does nothing. *)

From S2P Require Import Prelude Bytes Codec AsduHeader Asdu AsduTypes Link101 Driver101.
From S2P Require Import Channels Handles Float64 Deadband Points Simulator Cli TestServer TestRig RigView ToolLoops.

#[local] Open Scope Z_scope.

Section Serial.
Context `{BC : BytesCrate} `{MP : Mpsc} (sin : F64 -> F64).

(** ** State *)

(** Where the loop is: in its [select!], at its reads of the state, at the
    write lock, sending an answer, or handing an ASDU to the driver. *)
Inductive Phase :=
| PhSelect
| PhReads (clock : Ioa -> Z * Z) (b : bytes)
| PhLocks (clock : Ioa -> Z * Z) (b : bytes)
| PhAnswers (outs : list ServerOut) (locked : bool)
| PhForwards (b : bytes)
| PhOver.

(** Who waits for the lock. *)
Inductive Ticket := TkLoopRead | TkLoopWrite | TkBroadcast (b : bytes) | TkSection (i : ServerInput).

(** The state under the lock, the channel of which the loop is the receiver,
    the outstation, the queue of the lock, the broadcasts that hold the read
    lock, and those that have yet to ask for it. *)
Record Serial := mkSerial {
  sl_state : ServerState; sl_asdus : chan bytes; sl_outstation : Outstation101; sl_phase : Phase;
  sl_queue : list Ticket; sl_readers : list bytes; sl_owed : list bytes }.

Definition with_phase (p : Phase) (s : Serial) : Serial :=
  mkSerial (sl_state s) (sl_asdus s) (sl_outstation s) p (sl_queue s) (sl_readers s) (sl_owed s).
Definition with_asdus (c : chan bytes) (s : Serial) : Serial :=
  mkSerial (sl_state s) c (sl_outstation s) (sl_phase s) (sl_queue s) (sl_readers s) (sl_owed s).
Definition with_outstation (o : Outstation101) (s : Serial) : Serial :=
  mkSerial (sl_state s) (sl_asdus s) o (sl_phase s) (sl_queue s) (sl_readers s) (sl_owed s).
Definition with_queue (q : list Ticket) (s : Serial) : Serial :=
  mkSerial (sl_state s) (sl_asdus s) (sl_outstation s) (sl_phase s) q (sl_readers s) (sl_owed s).
Definition with_readers (r : list bytes) (s : Serial) : Serial :=
  mkSerial (sl_state s) (sl_asdus s) (sl_outstation s) (sl_phase s) (sl_queue s) r (sl_owed s).
Definition with_state (st : ServerState) (s : Serial) : Serial :=
  mkSerial st (sl_asdus s) (sl_outstation s) (sl_phase s) (sl_queue s) (sl_readers s) (sl_owed s).
Definition with_owed (l : list bytes) (s : Serial) : Serial :=
  mkSerial (sl_state s) (sl_asdus s) (sl_outstation s) (sl_phase s) (sl_queue s) (sl_readers s) l.

Definition ask (t : Ticket) (s : Serial) : Serial := with_queue (sl_queue s ++ [t]) s.
(** The loop returns, and the receiver goes with it. *)
Definition over (s : Serial) : Serial := with_phase PhOver (with_asdus (mpsc_drop_rx (sl_asdus s)) s).

(** bin/server.rs 642-648, handle_incoming_asdu (the scope of the guard). The
    write lock is held over the answer to an interrogation, until the last
    ASDU has been sent. *)
Definition write_held (s : Serial) : bool := match sl_phase s with PhAnswers _ locked => locked | _ => false end.

(** ** The loop *)

(** bin/server.rs 886-890, run_101_outstation (the settings of the link). *)
Definition outstation_config (link_addr : Z) (link_addr_size : LinkAddrSize) : LkConfig :=
  let d := LkConfig_default in
  mkLkConfig link_addr (to_proto link_addr_size) (timeout d) (max_retries d).

(** bin/server.rs 635-642, handle_incoming_asdu (whether the write lock is
    taken). *)
Definition takes_lock (b : bytes) : bool :=
  match run (Asdu_decode IEC104) b with
  | Ok asdu =>
      (type_id asdu =? 100) &&
      match decode_payload C_IC_NA_1 asdu IEC104 with Ok _ => true | _ => false end
  | _ => false
  end.

(** bin/server.rs 918-924, run_101_outstation (the call of the handler). What the
    handler of an ASDU is going to send, and what it does to the state. *)
Definition begin_answer (clock : Ioa -> Z * Z) (b : bytes) (locked : bool) (s : Serial) : Serial :=
  match handle_incoming_asdu clock b (sl_state s) with
  | Ok (outs, st) => with_phase (PhAnswers outs locked) (with_state st s)
  | _ => over s
  end.

(** bin/server.rs 916-936, run_101_outstation (an event of the outstation). *)
Definition outstation_event (clock : Ioa -> Z * Z) (s : Serial) : option Serial :=
  match sl_phase s with
  | PhSelect =>
      match outstation_recv (o_evt_rx (sl_outstation s)) with
      | None => None
      | Some (evt, evt_rx) =>
          let s := with_outstation (mkOutstation101 (o_cmd_tx (sl_outstation s)) evt_rx) s in
          match evt with
          | Some (OuAsdu bytes) => Some (with_phase (PhReads clock bytes) (ask TkLoopRead s))
          | Some (OuLinkStateChanged _) => Some s
          | Some (OuClosed _) | None => Some (over s)
          end
      end
  | _ => None
  end.

(** bin/server.rs 937-939, run_101_outstation (a spontaneous ASDU). *)
Definition outstation_take (s : Serial) : option Serial :=
  match sl_phase s, mpsc_recv (sl_asdus s) with
  | PhSelect, Some (Some bytes, asdus) => Some (with_phase (PhForwards bytes) (with_asdus asdus s))
  | _, _ => None
  end.

(** bin/server.rs 937-939, run_101_outstation (handing it to the driver). *)
Definition outstation_forward (s : Serial) : option Serial :=
  match sl_phase s with
  | PhForwards bytes =>
      match outstation_send_asdu bytes (o_cmd_tx (sl_outstation s)) with
      | Some (_, cmd_tx) =>
          Some (with_phase PhSelect (with_outstation (mkOutstation101 cmd_tx (o_evt_rx (sl_outstation s))) s))
      | None => None
      end
  | _ => None
  end.

#[local] Existing Instance sender101.

(** bin/server.rs 757-811, handle_command_list (the next thing the handler does).
    The handlers of the other types do it in the same way; a pause is over
    when the next move is made. *)
Definition outstation_answer (s : Serial) : option Serial :=
  match sl_phase s with
  | PhAnswers [] _ => Some (with_phase PhSelect s)
  | PhAnswers (SoSend b :: outs) locked =>
      match asdu_send b (mkSender101 (sl_asdus s)) with
      | Some (_, tx) => Some (with_phase (PhAnswers outs locked) (with_asdus (s101 tx) s))
      | None => None
      end
  | PhAnswers (_ :: outs) locked => Some (with_phase (PhAnswers outs locked) s)
  | _ => None
  end.

(** ** The lock *)

(** The first in the queue gets the lock, if it is free for it. *)
Definition grant (s : Serial) : option Serial :=
  match sl_queue s with
  | [] => None
  | t :: queue =>
      if write_held s then None else
      let s1 := with_queue queue s in
      match t with
      | TkLoopRead =>
          match sl_phase s with
          | PhReads clock b =>
              Some (if takes_lock b then with_phase (PhLocks clock b) (ask TkLoopWrite s1) else begin_answer clock b false s1)
          | _ => Some s1
          end
      | TkBroadcast b => Some (with_readers (sl_readers s ++ [b]) s1)
      | TkLoopWrite =>
          match sl_readers s, sl_phase s with
          | [], PhLocks clock b => Some (begin_answer clock b true s1)
          | [], _ => Some s1
          | _, _ => None
          end
      | TkSection i =>
          match sl_readers s with
          | [] =>
              match server_section sin (sl_state s) i with
              | Ok (_, after, st) => Some (with_owed (sl_owed s ++ asdus after) (with_state st s1))
              | _ => Some s1
              end
          | _ => None
          end
      end
  end.

(** bin/server.rs 214-216, DaemonState::broadcast (to the outstation). The lock
    is held until the ASDU has been queued. *)
Definition broadcast_push (n : nat) (s : Serial) : option Serial :=
  match sl_readers s !! n with
  | None => None
  | Some b =>
      match mpsc_send b (sl_asdus s) with
      | Some (_, asdus) => Some (with_readers (delete n (sl_readers s)) (with_asdus asdus s))
      | None => None
      end
  end.

(** ** Runs *)

Inductive SerialMove :=
| SmEvent (clock : Ioa -> Z * Z)
| SmTake
| SmForward
| SmAnswer
| SmGrant
| SmPush (n : nat)
| SmSection (i : ServerInput)
| SmBroadcast (n : nat)
| SmDriver (o : Outstation101).

(** [None] is a move that waits. The driver of the outstation does what it
    wants at the other ends of the outstation's channels. *)
Definition serial_step (m : SerialMove) (s : Serial) : option Serial :=
  match m with
  | SmEvent clock => outstation_event clock s
  | SmTake => outstation_take s
  | SmForward => outstation_forward s
  | SmAnswer => outstation_answer s
  | SmGrant => grant s
  | SmPush n => broadcast_push n s
  | SmSection i => Some (ask (TkSection i) s)
  | SmBroadcast n =>
      match sl_owed s !! n with
      | Some b => Some (ask (TkBroadcast b) (with_owed (delete n (sl_owed s)) s))
      | None => None
      end
  | SmDriver o => Some (with_outstation o s)
  end.

Definition serial_run (ms : list SerialMove) (s : Serial) : Serial :=
  foldl (fun s m => default s (serial_step m s)) s ms.

(** ** Answers under the lock *)

(** What a channel can still take. *)
Definition fits (c : chan bytes) (bs : list bytes) : Prop :=
  length bs = 0%nat \/ (length (queued c) + length bs <= capacity c)%nat.
#[local] Instance fits_dec c bs : Decision (fits c bs) := or_dec _ _.

(** The loop is sending [outs], and has sent [sent done] before. *)
Definition answering (s0 : Serial) (done outs : list ServerOut) (s : Serial) : Prop :=
  sl_phase s = PhAnswers outs true /\ queued (sl_asdus s) = queued (sl_asdus s0) ++ sent done /\
  capacity (sl_asdus s) = capacity (sl_asdus s0) /\ rx_alive (sl_asdus s) = true /\
  sl_state s = sl_state s0 /\ sl_readers s = [] /\ fits (sl_asdus s0) (sent done).

(** No other task takes the lock or puts anything into the channel. *)
Lemma answering_other s0 done outs s m s' : answering s0 done outs s -> m ≠ SmAnswer -> serial_step m s = Some s' ->
  answering s0 done outs s'.
Proof.
  intros (Hp & Hq & Hc & Hr & Hst & Hrd & Hf) Hm. destruct m as [clock| | | | |n|i|n|o]; cbn [serial_step]; try done.
  - unfold outstation_event. by rewrite Hp.
  - unfold outstation_take. by rewrite Hp.
  - unfold outstation_forward. by rewrite Hp.
  - unfold grant, write_held. rewrite Hp. by destruct (sl_queue s).
  - unfold broadcast_push. by rewrite Hrd.
  - intros [= <-]. by split_and!.
  - destruct (sl_owed s !! n); [|done]. intros [= <-]. by split_and!.
  - intros [= <-]. by split_and!.
Qed.

(** The next ASDU goes behind what is in the channel, if there is room. *)
Lemma answering_next s0 done o outs s : answering s0 done (o :: outs) s ->
  match serial_step SmAnswer s with
  | Some s' => answering s0 (done ++ [o]) outs s'
  | None => sent [o] ≠ [] /\ ¬ fits (sl_asdus s0) (sent (done ++ [o]))
  end.
Proof.
  intros (Hp & Hq & Hc & Hr & Hst & Hrd & Hf). cbn [serial_step]. unfold outstation_answer. rewrite Hp.
  assert (sent [o] = [] -> answering s0 (done ++ [o]) outs (with_phase (PhAnswers outs true) s)) as Hn.
  { intros Hs. unfold answering. rewrite sent_app, Hs, app_nil_r. by split_and!. }
  destruct o as [b|e|ms|ioa|b]; try (by apply Hn).
  cbn [asdu_send sender101 s101]. pose proof (send_law b (sl_asdus s)) as Hl.
  rewrite Hq, Hc, length_app in Hl. unfold fits in *. rewrite sent_app. cbn [sent omap list_omap] in *.
  destruct (mpsc_send b (sl_asdus s)) as [[[] c]|]; [|destruct Hl; congruence|].
  - destruct Hl as (_ & Hlt & Hq' & Hc' & _ & Hr').
    unfold answering. cbn [with_phase with_asdus sl_asdus sl_phase sl_state sl_readers s101].
    rewrite Hq', sent_app, <- app_assoc. split_and!; try done. unfold fits. rewrite length_app. simpl. lia.
  - destruct Hl as [_ Hl]. split; [done|]. rewrite length_app. simpl. lia.
Qed.

(** How often the loop goes on with its answer. *)
Definition answers (ms : list SerialMove) : nat :=
  length (filter (fun m => match m with SmAnswer => true | _ => false end = true) ms).

Lemma fits_prefix c a b : fits c (a ++ b) -> fits c a.
Proof.
  unfold fits. rewrite length_app. lia.
Qed.

(** The answer is on its way, as it is, or it is out. *)
Lemma answering_run s0 ms done outs s : answering s0 done outs s ->
  (∃ done' rest, outs = done' ++ rest /\ answering s0 (done ++ done') rest (serial_run ms s) /\
     (fits (sl_asdus s0) (sent (done ++ outs)) -> length done' = answers ms)) \/
  (∃ ms1 ms2, ms = ms1 ++ SmAnswer :: ms2 /\ answering s0 (done ++ outs) [] (serial_run ms1 s)).
Proof.
  revert done outs s. induction ms as [|m ms IH]; intros done outs s Ha.
  { left. exists [], outs. by rewrite app_nil_r. }
  assert (m = SmAnswer \/ (m ≠ SmAnswer /\ answers (m :: ms) = answers ms)) as [->|[Hm Hn]]
    by (destruct m; (by left) || by right).
  - destruct outs as [|o outs]; [right; exists [], ms; by rewrite app_nil_r|].
    pose proof (answering_next _ _ _ _ _ Ha) as Hn. cbn [serial_run foldl]. fold (serial_run ms).
    destruct (serial_step SmAnswer s) as [s'|] eqn:E; cbn [default from_option id].
    + destruct (IH _ _ _ Hn) as [(d & r & -> & H & Hl)|(ms1 & ms2 & -> & H)]; rewrite <- ?app_assoc in *.
      * left. exists (o :: d), r. split; [done|]. split; [done|]. intros Hf. change (answers (SmAnswer :: ms)) with (S (answers ms)).
        cbn [length]. by rewrite Hl.
      * right. exists (SmAnswer :: ms1), ms2. split; [done|]. cbn [serial_run foldl]. by rewrite E.
    + destruct Hn as [_ Hnf]. destruct (IH _ _ _ Ha) as [(d & r & Hd & H & _)|(ms1 & ms2 & -> & H)].
      * left. exists d, r. split; [done|]. split; [done|]. intros Hf. destruct Hnf. apply (fits_prefix _ _ (sent outs)).
        by rewrite <- sent_app, <- app_assoc.
      * right. exists (SmAnswer :: ms1), ms2. split; [done|]. cbn [serial_run foldl]. by rewrite E.
  - cbn [serial_run foldl]. fold (serial_run ms). rewrite Hn.
    assert (answering s0 done outs (default s (serial_step m s))) as Ha'.
    { destruct (serial_step m s) as [s'|] eqn:E; [|done]. by eapply answering_other. }
    destruct (IH _ _ _ Ha') as [H|(ms1 & ms2 & -> & H)]; [by left|]. right. by exists (m :: ms1), ms2.
Qed.

(** C32. An interrogation is answered under the write lock into the channel that
    only this loop empties. When the lock has been granted, in every run of
    the loop, the other tasks and the driver: if the channel has room for the
    whole answer, then what is in the channel is the first part of it, in
    order and with nothing in between, behind what was there; the part grows
    with every step of the loop, until the answer is out and the loop goes
    back to its [select!]. If it has not, the answer is never out: however
    the run goes on, the loop keeps the lock, no other task changes the
    state, and the loop takes nothing out of the channel. *)
Theorem serial_answers_or_blocks clock b q s outs st :
  sl_phase s = PhLocks clock b -> sl_queue s = TkLoopWrite :: q -> sl_readers s = [] -> rx_alive (sl_asdus s) = true ->
  handle_incoming_asdu clock b (sl_state s) = Ok (outs, st) ->
  ∃ s1, serial_step SmGrant s = Some s1 /\ ∀ ms,
    (∃ done rest, outs = done ++ rest /\ sl_phase (serial_run ms s1) = PhAnswers rest true /\
       queued (sl_asdus (serial_run ms s1)) = queued (sl_asdus s) ++ sent done /\ sl_state (serial_run ms s1) = st /\
       if bool_decide (fits (sl_asdus s) (sent outs)) then length done = answers ms else sent rest ≠ []) \/
    (fits (sl_asdus s) (sent outs) /\ ∃ ms1 ms2, ms = ms1 ++ SmAnswer :: ms2 /\
       sl_phase (serial_run ms1 s1) = PhAnswers [] true /\ queued (sl_asdus (serial_run ms1 s1)) = queued (sl_asdus s) ++ sent outs /\
       sl_state (serial_run ms1 s1) = st).
Proof.
  intros Hp Hq Hr Ha Hh. exists (with_phase (PhAnswers outs true) (with_state st (with_queue q s))). split.
  { cbn [serial_step]. unfold grant, write_held. rewrite Hq, Hp, Hr. unfold begin_answer. cbn [with_queue sl_state]. by rewrite Hh. }
  intros ms. set (s1 := with_phase _ _).
  assert (answering s1 [] outs s1) as H1 by (unfold answering; rewrite app_nil_r; split_and!; try done; by left).
  destruct (answering_run s1 ms [] outs s1 H1) as [(d & r & Ho & H & Hl)|(ms1 & ms2 & -> & H)].
  - left. destruct H as (H2 & H3 & _ & _ & H4 & _ & Hf). exists d, r. split_and!; try done.
    case_bool_decide as Hfit; [by apply Hl|]. intros Hs. apply Hfit.
    rewrite Ho, sent_app, Hs, app_nil_r. exact Hf.
  - right. destruct H as (H2 & H3 & _ & _ & H4 & _ & Hf). split; [exact Hf|]. by exists ms1, ms2.
Qed.

(** ** A loop that hangs *)

(** The loop waits for room in the channel, or for the lock behind a broadcast
    that does, be it the write lock or a read behind another task's write. *)
Definition waits (s : Serial) : Prop :=
  match sl_phase s with
  | PhAnswers (SoSend _ :: _) _ => True
  | PhLocks _ _ => sl_readers s ≠ []
  | PhReads _ _ => sl_readers s ≠ [] /\ ∃ q1 i q2, sl_queue s = q1 ++ TkSection i :: q2 /\ TkLoopRead ∉ q1
  | _ => False
  end.
Definition hung (s : Serial) : Prop :=
  rx_alive (sl_asdus s) = true /\ (capacity (sl_asdus s) <= length (queued (sl_asdus s)))%nat /\ waits s.

Lemma full_waits (c : chan bytes) b : rx_alive c = true -> (capacity c <= length (queued c))%nat -> mpsc_send b c = None.
Proof.
  intros Hr Hf. pose proof (send_law b c) as H. destruct (mpsc_send b c) as [[[] c']|]; [lia|destruct H; congruence|done].
Qed.

(** What a hung loop may see change. *)
Lemma waits_keep s s' : waits s -> sl_phase s' = sl_phase s -> (sl_readers s ≠ [] -> sl_readers s' ≠ []) ->
  (sl_readers s ≠ [] -> ∀ q1 i q2, sl_queue s = q1 ++ TkSection i :: q2 -> TkLoopRead ∉ q1 ->
     ∃ q1' i q2', sl_queue s' = q1' ++ TkSection i :: q2' /\ TkLoopRead ∉ q1') -> waits s'.
Proof.
  unfold waits. intros Hw -> Hr Hq. destruct (sl_phase s) as [|clock b|clock b|[|[] outs] locked|b|]; try done; [|by apply Hr].
  destruct Hw as (Hne & q1 & i & q2 & E & Hn). split; [by apply Hr|by eapply Hq].
Qed.

(** Tickets go behind the ones that are there. *)
Lemma waits_ask s t : waits s -> waits (ask t s).
Proof.
  intros Hw. apply (waits_keep s); [done..|]. intros _ q1 i q2 E Hn. exists q1, i, (q2 ++ [t]).
  cbn [ask with_queue sl_queue]. by rewrite E, <- app_assoc.
Qed.

Lemma hung_grant s s' : hung s -> grant s = Some s' -> hung s' /\ sl_asdus s' = sl_asdus s.
Proof.
  intros (Hr & Hf & Hw) Hg. unfold grant in Hg. destruct (sl_queue s) as [|t q] eqn:Eq; [done|].
  destruct (write_held s); [done|].
  assert (t ≠ TkLoopRead -> (∀ i, t = TkSection i -> sl_readers s = []) -> sl_readers s ≠ [] ->
    ∀ q1 i q2, sl_queue s = q1 ++ TkSection i :: q2 -> TkLoopRead ∉ q1 ->
    ∃ q1' i q2', q = q1' ++ TkSection i :: q2' /\ TkLoopRead ∉ q1') as Hq.
  { intros _ Hs Hne q1 i q2 E Hn. rewrite Eq in E. destruct q1 as [|t' q1]; simplify_eq/=; [by destruct Hne, (Hs i)|].
    exists q1, i, q2. set_solver. }
  destruct t as [| |b'|i].
  - unfold waits in Hw. destruct (sl_phase s) as [|clock b|clock b|outs locked|b|] eqn:Ep; simplify_eq; try done.
    + destruct Hw as (_ & q1 & i & q2 & E & Hn). rewrite Eq in E. destruct q1; simplify_eq/=. set_solver.
    + split; [|done]. split_and!; [done..|]. unfold waits. cbn. by rewrite Ep.
    + split; [|done]. split_and!; [done..|]. unfold waits. cbn. by rewrite Ep.
  - unfold waits in Hw. destruct (sl_readers s) eqn:Er; [|done].
    destruct (sl_phase s) as [|clock b|clock b|outs locked|b|] eqn:Ep; simplify_eq; try done; [by destruct Hw|].
    split; [|done]. split_and!; [done..|]. unfold waits. cbn. by rewrite Ep.
  - simplify_eq. split; [|done]. split_and!; [done..|]. apply (waits_keep s); [done..| |by apply Hq].
    cbn. intros _. by destruct (sl_readers s).
  - unfold waits in Hw. destruct (sl_readers s) eqn:Er; [|done].
    destruct (sl_phase s) as [|clock b|clock b|outs locked|b|] eqn:Ep; try done; [by destruct Hw|].
    destruct (server_section sin (sl_state s) i) as [[[? after] st]| |]; simplify_eq;
      (split; [|done]); split_and!; try done; unfold waits; cbn; by rewrite Ep.
Qed.

(** Nothing that the other tasks and the driver do gets the loop out of it: its
    receiver never takes an ASDU again. *)
Theorem hung_stays m s s' : hung s -> serial_step m s = Some s' -> hung s' /\ sl_asdus s' = sl_asdus s.
Proof.
  intros Hh Hs. pose proof Hh as (Hr & Hf & Hw). destruct m as [clock| | | | |n|i|n|o]; cbn [serial_step] in Hs.
  - unfold outstation_event in Hs. unfold waits in Hw. by destruct (sl_phase s).
  - unfold outstation_take in Hs. unfold waits in Hw. by destruct (sl_phase s).
  - unfold outstation_forward in Hs. unfold waits in Hw. by destruct (sl_phase s).
  - unfold outstation_answer in Hs. unfold waits in Hw.
    destruct (sl_phase s) as [|clock b|clock b|[|[b|e|ms|ioa|b] outs] locked|b|]; try done.
    cbn [asdu_send sender101 s101] in Hs. by rewrite full_waits in Hs.
  - by apply hung_grant.
  - unfold broadcast_push in Hs. destruct (sl_readers s !! n); [|done]. by rewrite full_waits in Hs.
  - injection Hs as <-. split; [|done]. split_and!; [done..|by apply waits_ask].
  - destruct (sl_owed s !! n); [|done]. injection Hs as <-. split; [|done]. split_and!; [done..|by apply waits_ask].
  - injection Hs as <-. split; [|done]. by split_and!.
Qed.

Lemma hung_for_ever ms s : hung s -> hung (serial_run ms s) /\ sl_asdus (serial_run ms s) = sl_asdus s.
Proof.
  revert s. induction ms as [|m ms IH]; intros s Hh; [done|]. cbn [serial_run foldl]. fold (serial_run ms).
  destruct (serial_step m s) as [s'|] eqn:E; cbn [default from_option id]; [|by apply IH].
  destruct (hung_stays m s s' Hh E) as [Hh' Ha]. destruct (IH s' Hh') as [H1 H2]. split; [done|]. etrans; [exact H2|exact Ha].
Qed.

End Serial.

(** ** Samples *)

Module SerialSample.

#[local] Existing Instance slice_bytes.
#[local] Existing Instance list_channels.

Definition clock : Ioa -> Z * Z := fun _ => (1709164800, 7).
Definition general : bytes := [100; 1; 6; 0; 1; 0; 0; 0; 0; 20].
(** A single command for point 100. *)
Definition command : bytes := [45; 1; 6; 0; 1; 0; 100; 0; 0; 1].

(** The loop with [n] spontaneous ASDUs waiting, an ASDU that has come in, and
    one broadcast to be made. *)
Definition serial (n : nat) (b : bytes) : Serial :=
  mkSerial (outstation_opened (ServerState_new TestServer.Serial 1)) (mkListChan (replicate n [1]) 64 true true)
    (mkOutstation101 (mkListChan [] 32 true true) (mkListChan [Ev101Asdu b] 64 true true)) PhSelect [] [] [[2]].

Definition steps (n : nat) : list SerialMove := replicate n SmAnswer.
#[local] Abbreviation run := (serial_run (fun x => x)).
Definition shape (s : Serial) : nat * option nat :=
  (length (queued (sl_asdus s)), match sl_phase s with PhAnswers outs _ => Some (length (sent outs)) | _ => None end).

(** The default image needs room for 52 ASDUs: with twelve waiting the loop
    answers, with thirteen it is left with one that it can never send. *)
Example serial_blocks_itself :
  (shape (run (SmEvent clock :: SmGrant :: SmGrant :: steps 100) (serial 12 general)),
   shape (run (SmEvent clock :: SmGrant :: SmGrant :: steps 100) (serial 13 general))) =
  ((64%nat, None), (64%nat, Some 1%nat)).
Proof. vm_compute. reflexivity. Qed.

(** A broadcast comes between the confirmation and the termination of a
    command, takes the last place, and the loop hangs. *)
Definition interleaved : list SerialMove :=
  [SmEvent clock; SmGrant; SmAnswer; SmAnswer; SmAnswer; SmBroadcast 0; SmGrant; SmPush 0; SmAnswer; SmAnswer; SmAnswer].
Example command_interleaved :
  (drop 60 (queued (sl_asdus (run interleaved (serial 61 command)))), shape (run interleaved (serial 62 command))) =
  ([[1]; [45; 1; 7; 0; 1; 0; 100; 0; 0; 1]; [2]; [45; 1; 10; 0; 1; 0; 100; 0; 0; 1]], (64%nat, Some 1%nat)).
Proof. vm_compute. reflexivity. Qed.
Lemma command_hangs : hung (run interleaved (serial 62 command)).
Proof. unfold hung. vm_compute. split_and!; [reflexivity|lia|exact I]. Qed.

(** A broadcast that waits for room holds the read lock: an interrogation that
    comes in then waits for the write lock, and nobody empties the channel. *)
Definition locked_out : list SerialMove := [SmBroadcast 0; SmGrant; SmEvent clock; SmGrant; SmGrant].
Lemma interrogation_hangs : hung (run locked_out (serial 64 general)).
Proof. unfold hung. vm_compute. split_and!; [reflexivity|lia|discriminate]. Qed.

(** So does any ASDU when a task has asked for the write lock before it. *)
Definition queued_behind : list SerialMove := [SmBroadcast 0; SmGrant; SmSection SiOpened; SmEvent clock; SmGrant].
Lemma command_locked_out : hung (run queued_behind (serial 64 command)).
Proof.
  unfold hung. vm_compute. split_and!; [reflexivity|lia|discriminate|].
  exists [], SiOpened, [TkLoopRead]. split; [reflexivity|]. intros H. inversion H.
Qed.

(** An interrogation that has asked for the write lock. *)
Definition asked (n : nat) : Serial := run [SmEvent clock; SmGrant] (serial n general).

Lemma asked_13 : sl_phase (asked 13) = PhLocks clock general /\ sl_queue (asked 13) = [TkLoopWrite] /\
  sl_readers (asked 13) = [] /\ rx_alive (sl_asdus (asked 13)) = true /\
  capacity (sl_asdus (asked 13)) = 64%nat /\ length (queued (sl_asdus (asked 13))) = 13%nat.
Proof. vm_compute. by split_and!. Qed.

Lemma asked_answer : ∃ outs st, handle_incoming_asdu clock general (sl_state (asked 13)) = Ok (outs, st) /\
  length (sent outs) = 52%nat.
Proof.
  assert (match handle_incoming_asdu clock general (sl_state (asked 13)) with
    | Ok (outs, _) => length (sent outs) | _ => 0%nat end = 52%nat) as H by (vm_compute; reflexivity).
  destruct (handle_incoming_asdu _ _ _) as [[outs st]|e|]; [|discriminate..]. by exists outs, st.
Qed.

Lemma serial_answers_or_blocks_witness : ∃ outs st s1,
  handle_incoming_asdu clock general (sl_state (asked 13)) = Ok (outs, st) /\ sent outs ≠ [] /\
  serial_step (fun x => x) SmGrant (asked 13) = Some s1 /\
  ∀ ms, ∃ rest, sl_phase (run ms s1) = PhAnswers rest true /\ sent rest ≠ [] /\ sl_state (run ms s1) = st.
Proof.
  destruct asked_13 as (Hp & Hq & Hr & Ha & Hc13 & Hl13). destruct asked_answer as (outs & st & E & Hn).
  destruct (serial_answers_or_blocks (fun x => x) clock general [] (asked 13) outs st Hp Hq Hr Ha E) as (s1 & H1 & H2).
  exists outs, st, s1. split; [exact E|]. split; [intros H; rewrite H in Hn; discriminate Hn|]. split; [exact H1|]. intros ms.
  assert (¬ fits (sl_asdus (asked 13)) (sent outs)) as Hnf.
  { unfold fits. rewrite Hn, Hc13, Hl13. lia. }
  destruct (H2 ms) as [(d & r & _ & Hp' & _ & Hst & Hc)|[Hf _]]; [|destruct (Hnf Hf)].
  rewrite (bool_decide_false _ Hnf) in Hc. exists r. exact (conj Hp' (conj Hc Hst)).
Defined.

End SerialSample.
